(* ===== verification/_CoqProject ===== *)
-Q . S2P
Prelude.v
GoStd.v
Sha256.v
Json.v
JsonParse.v
Types.v
Ledger.v
TxModel.v
JsonRound.v
TxDecode.v
Base64.v
Citizen.v
Governance.v
Dex.v
DexLedger.v
Bridge.v
Merkle.v
Staking.v
StakingFacts.v
Apply.v
ApplyFacts.v
Fees.v
Block.v
Messages.v
Slashing.v
Network.v
Engine.v
EngineFacts.v
Chain.v
ChainFacts.v
ChainBuild.v
ChainWindow.v
ChainRun.v
Agent.v
Node.v
NodeFacts.v
Rpc.v
RpcFacts.v
RpcRound.v
RpcRoundFacts.v
Comet.v
CometFacts.v
CometRun.v
Examples.v
ChainTheorems.v
Theorems.v
LedgerTheorems.v
StakingTheorems.v
OrderBook.v
ConsensusTheorems.v
CometTheorems.v
NodeTheorems.v
RpcTheorems.v
GoText.v
Registry.v
RegistryPay.v
RewardKeeper.v
RegistryFacts.v
RegistryFrame.v
RegistryPayFacts.v
RewardFacts.v
RegistryExamples.v
RegistryTheorems.v
PayoutTheorems.v
Relayer.v
RelayerFacts.v
RelayerTheorems.v
PeerAuth.v
PeerAuthTheorems.v
Store.v
StoreTheorems.v
Export.v
ExportTheorems.v
Synthosd.v
SynthosdTheorems.v
RpcClient.v
Testnet.v
SilentNode.v
SilentTheorems.v
RelayTransport.v
