(* ===== verification/Prelude.v ===== *)
(** * SYNTHOS: a verification development of the Go implementation

    The program is a replicated ledger. Its parts, and how they meet:

    - internal/chain holds the ledger: accounts, transactions, the citizen,
      governance, exchange, bridge and validator registries ([State] of
      core.go), blocks and genesis, and the [Chain] that admits transactions
      to a mempool, builds, validates and finalizes blocks, keeps a bounded
      window of them in memory and chooses between forks;
    - internal/consensus decides when a block of that chain is final: who
      proposes, who has voted, when votes are a quorum, who is penalised;
    - internal/network and internal/agent sign, send and check messages;
    - internal/node ties an agent, a chain and an engine together;
    - internal/rpc serves a node over HTTP: it takes transactions and blocks,
      follows peers that are ahead, and runs the producer's consensus rounds
      with validators it reaches directly or through the registry's mailbox;
    - cometapp/app runs the same ledger under CometBFT instead: CometBFT
      decides blocks, the application executes them and reports validator
      updates;
    - cmd/cloudless-registry is the meeting place of nodes: it keeps who has
      registered, the uptime their signed heartbeats prove, mail between them
      (the relay of the consensus rounds), who is an approved validator, the
      early-access sale of SYN and the monthly rewards of operators;
    - cmd/bridgerelayer turns events of two EVM contracts into proofs of
      release and submits them to the ledger as transfers;
    - internal/storage keeps the chain on disk and gives it back after a
      restart (opened by cmd/synthosd); the secure transport of
      internal/network authenticates the connections messages travel on;
    - cmd/synthosd is the node program: it turns a configuration into a
      validator set, follows the registry's roster of validators while it
      runs, and drives the production of blocks;
    - cometapp/export turns what a node saved into the genesis of a CometBFT
      chain;
    - cmd/silentnode is what an operator runs at home: it proves its uptime to
      the registry with heartbeats and answers proposals that reach it by mail;
      internal/network has another client of the registry, a transport for
      nodes without a listener.

    ** Files

    The standard library the sources use: [GoStd] (strings, hex, strconv,
    sort), [Sha256], [Base64], [Json] (Marshal), [JsonParse] (Unmarshal),
    [JsonRound] (Unmarshal after Marshal). This file has machine integers, record
    update, the error and state monads ([res], [SM]), map sums and the tactics
    and hints.

    The ledger (src/internal/chain): [Types] (core.go, the records), [Ledger]
    (account operations and the notion of supply), [TxModel] (signing payload,
    [Sign], [Verify]), [TxDecode] (a transaction on the wire),
    [Citizen] (citizen.go), [Governance] (governance.go), [Dex],
    [DexLedger] (dex.go and [applyDEXTx]), [OrderBook] (orderbook.go),
    [Bridge] (bridge and immune metadata and threat reports of core.go), [Merkle] (merkle.go and
    [State.Root]), [Staking], [StakingFacts] (validator_staking.go), [Apply],
    [ApplyFacts] ([ApplyTx], [ApplyTransaction]), [Fees] (abci_support.go),
    [Block] (block.go, genesis.go).

    The chain (src/internal/chain/chain.go): [Chain] (all operations),
    [ChainFacts] (validation, authorization, finalization), [ChainBuild]
    (mempool and production), [ChainWindow] (the bounded window against the
    full history), [ChainRun] (runs from genesis, and
    accountability).

    Consensus (src/internal/consensus): [Messages] (messages.go, rotation.go,
    proposal_processor.go), [Slashing] (slashing.go), [Engine], [EngineFacts] (engine.go).

    Nodes: [Network] (src/internal/network: envelope.go, replay_cache.go,
    cover_noise.go, communicator.go), [Agent]
    (src/internal/agent/agent.go), [Node], [NodeFacts]
    (src/internal/node/node.go).

    The RPC server (src/internal/rpc): [Rpc] (server.go: handlers that change
    the chain, [CatchUpOnce]), [RpcFacts] (what a pass over the peers can do,
    and what it does with an honest peer), [RpcRound] (consensus rounds:
    server.go, mailbox_relay.go and cmd/synthosd/mailbox_relay.go),
    [RpcRoundFacts], [RpcClient] (server.go, citizen.go,
    governance.go: what a wallet asks a node).

    The CometBFT application (src/cometapp/app/app.go): [Comet], [CometFacts]
    (validator updates, persistence, a block keeps the invariants), [CometRun] (runs with failed writes and restarts).

    The registry (src/cmd/cloudless-registry): [GoText] (more of strings,
    math/big, times, byte strings), [Registry] (main.go,
    hardware.go: nodes, heartbeats, mail, validators), [RegistryPay] (main.go:
    the sale), [RewardKeeper] (reward_keeper.go); [RegistryFacts] (how
    operations change entries, runs, heartbeats), [RegistryFrame] (what they
    leave alone, and the mailbox), [RegistryPayFacts], [RewardFacts]; [Testnet]
    (testnet.go: the address of the test network).

    Its clients: [SilentNode] (src/cmd/silentnode/main.go; nonces, heartbeats,
    approvals and their way back), [RelayTransport]
    (src/internal/network/relay_transport.go).

    The relayer (src/cmd/bridgerelayer): [Relayer] (main.go, anchor.go, and
    the bridge events of internal/rpc/server.go), [RelayerFacts] (decoders,
    passes, a submitted release on the ledger).

    Connections (src/internal/network): [PeerAuth] (peer_auth.go,
    secure_transport.go; framing, what a handshake can change).

    The disk: [Store] (src/internal/storage/store.go, and the part of
    src/cmd/synthosd/main.go that opens it; what a save and an offload leave
    on disk, what loading finds).

    The node program: [Synthosd] (src/cmd/synthosd/main.go, the configuration
    of src/internal/config/config.go; merging rosters, starting, the members
    of one network, the fleet's votes, taking turns).

    The move to CometBFT: [Export] (src/cometapp/export/export.go, the
    export-genesis command of src/cometapp/main.go).

    The theorems are collected in [Theorems] (transactions),
    [LedgerTheorems], [StakingTheorems], [ChainTheorems],
    [ConsensusTheorems], [NodeTheorems], [CometTheorems], [RpcTheorems],
    [RegistryTheorems], [PayoutTheorems], [RelayerTheorems],
    [PeerAuthTheorems], [StoreTheorems], [ExportTheorems],
    [SynthosdTheorems], [SilentTheorems] and at the end of [OrderBook],
    [RpcClient], [Testnet] and [RelayTransport];
    [Examples] and [RegistryExamples] hold the
    concrete ledgers, chains, nodes and registries their witnesses evaluate.

    ** How code becomes definitions

    A definition keeps the Go name; a leading type name or suffix is added
    where two Go names collide. Pure functions are functions. A method that
    can fail and changes its receiver is a function in the monad [SM] (state
    and error), or returns the new receiver next to a [res]; an error carries
    its message, a Go panic is the error [Panic]. When a method fails the
    state it leaves behind is part of the result, because the code sometimes
    changes it before failing. [uint64], [int64] and [int] are integers with
    the wrap-around ([u64], [i64]) written where the source lets an operation
    wrap. Maps are [gmap]s; where the order of Go's map iteration could be
    seen the code sorts, and so do the definitions. Mutexes are not modelled:
    a method is atomic, except where the source itself releases its lock in
    between ([TryReorg], a vote in the engine), which are sequences of two
    steps. Blocks are values: the effects a callee has on a block it is handed
    (validation sorts transaction metadata) are returned. [TryFinalize] writes
    the collected approvals into the engine's stored block before it is
    finalized; the model hands the written block on and keeps the stored one,
    which every later read of the approvals overwrites in the same way. A
    handler of the registry takes the decoded body (or the decoder's error)
    and a [Request] with the clock reading, the random ID and whether writing
    to disk succeeds; a payment's verification is two steps ([begin_verify],
    [settle]), as its handler releases the lock in between.

    Parameters, with what is assumed of them: Ed25519 (classes [Ed25519] and
    [Ed25519Correct]: signing and verifying agree, the lengths of keys and
    signatures), CometBFT's address function ([CometAddress]). Clock readings,
    random nonces, the verdict of the rate limiter, the outcome of sending and
    of writing files, the persistence hook, the archive of evicted blocks, and
    the decoders of message payloads, genesis and state file are arguments of
    the operations that use them. What peers answer is a [PeerNet] (an
    arbitrary answer to the n-th request) or a [Round] (answers, mailbox polls
    and the order in which concurrent votes arrive). The answers of EVM nodes
    and of the chain to the registry and the relayer, the number of reward halvings
    (float64), what answers a node's posts (a [Relays], with modelled registries
    as its instance), and the parsers of URLs and IP addresses are arguments
    too. A connection is an argument as
    its two ends see it: the bytes that arrive, whether writing succeeds, and
    the TLS session's exported keying material. A file on disk holds a value or
    something unreadable; its encoding is not modelled. The environment's
    variables and the fleet's key files are arguments of [startNode], what the
    registry answers an argument of [roster_tick]. SHA-256, JSON and
    base64 are defined and executable.

    Loops follow the source's recursion structurally. Five carry fuel: the
    square root of the exchange (80 rounds, proved to be enough for every
    uint64 in [LedgerTheorems]), the Merkle levels (as many rounds as there
    are leaves, proved to be enough in [Merkle]), the messages of a connection
    (the length of the stream, as each takes five bytes), loading a store (one
    more than the files there are) and [CatchUpOnce] (a round per
    page; [catch_up_complete] proves one more than the full pages enough for
    an honest peer, and [catch_up_stalls] that no fuel is enough for a
    malicious one).

    ** What the theorems show

    - Coin and authority: native coin only shrinks, but for what [minted]
      names: a governance execution that pays the treasury, or that a treasury
      short of coin sends, creates some. The theorems about blocks and runs
      carry that coin along ([m] in [run] and [comet_run], [block_minted]) and
      bound the supply by it; they hold while the total fits 64 bits. An
      accepted transaction is signed by its sender and cannot be replayed; a
      rejected one leaves the ledger alone; each sub-system moves exactly the
      amounts it names.
    - Registries: bonds, unbonding and slashing keep the registry well formed,
      evidence convicts once and only double signers, in every state that may
      follow ([later]); the active set is the best-ranked one; fees and epoch
      payouts add up.
    - The chain: along every run from genesis, switches of branch included
      ([run]), the invariants hold, and until the first switch the blocks form
      one linked history which reads answer exactly; finality needs a quorum, and two
      final blocks at one height expose the validators that signed both; what
      the chain builds it accepts; fork choice installs only heavier replayed
      branches; the bounded window refines the full history.
    - Consensus and nodes: an engine whose roster stays never finds two quorums
      in a round, and while it changes ([engine_event]) only disjoint ones, one
      of them weakened by the change; the rotation gives everyone a turn, equivocation is charged exactly, an
      approval is only cast for a validated block, the vote lock separates
      producers, a message is accepted at most once.
    - Peers: catching up moves the chain only by finalized blocks or heavier
      replayed branches and follows an honest peer to its tip; a consensus
      round finalizes only a block with a quorum, and does so when enough
      validators answer; a wallet's request is served exactly when it is an
      admissible transaction the client signed, and a quote is what a swap pays.
    - The registry: verified uptime is real time whatever requests arrive, a
      heartbeat is accepted exactly when fresh and signed, approval has one of
      two origins, in memory and on disk, the mailbox is a bounded queue; once
      the registry knows that a sale's transfer was accepted it asks for no
      other for that intent or payment hash ([sale_run] lists what it asked
      for), and prices are kept; rewards the keeper knows were accepted
      ([keeper_run] lists all it submitted) keep to the cap, to approved
      addresses, to one a month, and within a cycle to one per machine and
      household; the site follows only addresses whose announcement arrived in
      time, signed by the announcer of the test network.
    - The node at home: its heartbeats are accepted and credited through restarts
      and whatever else happens at the relays; it signs every proposal whose
      hash fits, once for each message, and nothing else.
    - The bridge: watching delivers every confirmed event of the contracts
      once and in order, a burn is worth exactly what it destroyed, and a
      submitted proof is released once, if the bridge validators signed it,
      out of the submitter's account, in the asset it names.
    - Connections: whatever bytes arrive, a message reaches a handler only under
      the name of a trusted peer whose key signed this very session, and what
      an honest peer sends arrives.
    - The disk: along every run with restarts memory and disk together answer
      every height; what was saved is what is loaded, whichever writes fail.
    - The node program: nodes that follow one roster hold the same validators
      and quorum, whatever they read before, and any two of their final blocks
      at or above the heights from which they enforce authorization share an
      honest approver; the rotation's clock gives every validator its
      turn; a fleet of local signers finalizes what it builds.
    - The move: an exported chain starts with every account and all the coin of
      the node it was exported from, and holds no more but for what treasury
      executions create.
    - CometBFT: along every run with restarts and failing writes the committed
      state keeps its invariants and its root is the reported app hash,
      validator updates track the snapshot exactly, a restart resumes what was
      committed, and a transaction on the wire is read back unchanged.

    Some theorems state defects of the code: see [sqrtUint64_correct],
    [TryReorg_loses_genesis], [applyTransfer_exact], [governance_execution],
    [retry_loses_votes], [evidence_convicts_honest], [forged_nonce_blocks],
    [honest_votes_fork], [catch_up_stalls], [catch_up_null_crash],
    [lone_producer_stalls], [heartbeat_replayed], [stake_unproved],
    [stale_takeover], [double_allocation], [lost_answer_repeats],
    [pending_hash_released], [removed_votes_count], [machine_paid_twice],
    [auto_submit_never_released], [bad_event_blocks], [decode_panics],
    [forged_handshakes_ban], [handshake_replayed], [second_send_bans],
    [banned_keeps_talking], [crash_stale_state], [unreadable_starts_over],
    [bonds_block_export], [empty_faucet_refused], [waiting_charges_current],
    [approved_never_asked], [fleet_outvoted], [fleet_unlisted],
    [follower_trusts_itself], [key_request_refused],
    [liquidity_request_refused], [silent_approvals], [silent_vote_mailed],
    [odd_name_never_proves], [relay_mail_lost], [refreshPeers_exact] and
    [one_reporter_slashes].

    ** Not modelled

    Read-only HTTP handlers (internal/rpc, cometapp/legacyapi, the pages and
    status views of cmd/cloudless-registry), sockets and TLS, the
    unauthenticated transport, the float64 token buckets of the rate limiters
    and proving status of a node at home, the encoding of files and key vaults
    (internal/crypto/vault.go), the reading of configuration files, logging and
    the other commands under cmd: they move bytes between the modelled
    operations and the outside. The price oracle holds
    three fixed prices and nothing reads it. What a chain or an EVM node really
    did with a request is known to the model as little as to the code: a lost
    answer is an error. *)
From Stdlib Require Import ZArith Lia Bool.
From stdpp Require Import base gmap strings list fin_maps numbers sorting.

#[global] Open Scope Z_scope.

(* ------------------------------------------------------------------ *)
(** * Machine integers *)

(** Go's [uint64] and [int64] are kept as [Z] with the wrap-around written
    out where the source lets an operation wrap. *)
Definition MaxUint64 : Z := 18446744073709551615.

Definition u64 (z : Z) : Z := z mod 18446744073709551616.

Definition i64 (z : Z) : Z :=
  (z + 9223372036854775808) mod 18446744073709551616 - 9223372036854775808.

(** The range of a [uint64] value. *)
Definition in_u64 (z : Z) : Prop := 0 ≤ z ≤ MaxUint64.

Lemma u64_range z : in_u64 (u64 z).
Proof. unfold in_u64, u64, MaxUint64. pose proof (Z.mod_pos_bound z 18446744073709551616). lia. Qed.

Lemma u64_small z : in_u64 z → u64 z = z.
Proof. unfold in_u64, u64, MaxUint64. intros ?. apply Z.mod_small. lia. Qed.

Lemma i64_small z : -9223372036854775808 ≤ z < 9223372036854775808 → i64 z = z.
Proof. unfold i64. intros ?. rewrite Z.mod_small; lia. Qed.

Lemma u64_idemp z : u64 (u64 z) = u64 z.
Proof. apply u64_small, u64_range. Qed.

Lemma u64_succ_ne z : in_u64 z → z ≠ u64 (z + 1).
Proof.
  unfold in_u64, u64, MaxUint64. intros Hz Heq.
  destruct (Z.eq_dec z 18446744073709551615) as [->|]; [done|]. rewrite Z.mod_small in Heq; lia.
Qed.

#[global] Instance in_u64_dec z : Decision (in_u64 z).
Proof. unfold in_u64. apply _. Defined.

(* ------------------------------------------------------------------ *)
(** * Record update *)

(** [r <| f := v |>] is the record [r] with the field [f] set to [v], as Go
    writes [r.f = v]. A record type declares how it is rebuilt from its fields
    with an [Eta] instance; the updates of its fields are derived from it. *)
Class Eta (R : Type) : Type := eta : R → R.

Class Update {R T : Type} (f : R → T) : Type := update : T → R → R.
Arguments update {R T} f {_} v r : assert.

(** The field [f] is abstracted from the rebuilt record and replaced by a
    constant. *)
Ltac derive_update f :=
  lazymatch type of f with
  | ?R → ?T =>
      let e := eval hnf in (@eta R _) in
      lazymatch eval pattern f in e with
      | ?F _ => let u := eval cbv beta in (λ (v : T) (r : R), F (λ _ : R, v) r) in exact u
      end
  end.

#[global] Hint Extern 1 (Update ?f) => derive_update f : typeclass_instances.

Notation "r <| f := v |>" := (update f v r) (at level 12, left associativity, format "r  <| f  :=  v |>").

(* ------------------------------------------------------------------ *)
(** * Errors *)

(** A Go call fails by returning a non-nil [error] or by panicking. The
    sentinel errors of the source are told apart by their message; the
    arguments a formatted message carries are left out. *)
Inductive error : Type :=
  | Err (msg : string)
  | Panic (what : string).

#[global] Instance error_eq_dec : EqDecision error.
Proof. solve_decision. Defined.

Definition is_panic (e : error) : bool :=
  match e with Err _ => false | Panic _ => true end.

(** Results of pure fallible Go functions. *)
Abbreviation res A := (A + error)%type.

(* ------------------------------------------------------------------ *)
(** * The state-and-error monad *)

(** An operation on a mutable Go object returns the object as the call
    leaves it, also when the call fails: [S → S * res A]. *)
Definition SM (S A : Type) : Type := S → S * res A.

#[global] Instance SM_ret S : MRet (SM S) := λ A a s, (s, inl a).
#[global] Instance SM_bind S : MBind (SM S) := λ A B k m s,
  match m s with
  | (s', inl a) => k a s'
  | (s', inr e) => (s', inr e)
  end.

Section monad_ops.
Context {S A : Type}.

Definition throw (e : error) : SM S A := λ s, (s, inr e).
Definition get : SM S S := λ s, (s, inl s).
Definition gets (f : S → A) : SM S A := λ s, (s, inl (f s)).
Definition modify (f : S → S) : SM S unit := λ s, (f s, inl tt).
Definition lift (r : res A) : SM S A := λ s, (s, r).

(** [if b { return e }] *)
Definition fail_if (b : bool) (e : error) : SM S unit :=
  λ s, (s, if b then inr e else inl tt).

End monad_ops.

(** ** A weakest-precondition calculus for it

    [wp m Q E s]: running [m] in [s] ends either normally in a state
    satisfying [Q] or with an error in a state satisfying [E]. *)
Definition wp {S A} (m : SM S A) (Q : A → S → Prop) (E : error → S → Prop) (s : S) : Prop :=
  match m s with
  | (s', inl a) => Q a s'
  | (s', inr e) => E e s'
  end.

Section wp_rules.
Context {S : Type}.
Implicit Types (E : error → S → Prop) (s : S).

Lemma wp_ret {A} (a : A) Q E s : Q a s → wp (mret a) Q E s.
Proof. done. Qed.

Lemma wp_bind {A B} (m : SM S A) (k : A → SM S B) Q E s :
  wp m (λ a, wp (k a) Q E) E s → wp (m ≫= k) Q E s.
Proof. unfold wp, mbind, SM_bind. by destruct (m s) as [s' [a|e]]. Qed.

Lemma wp_bind_inv {A B} (m : SM S A) (k : A → SM S B) Q E s :
  wp (m ≫= k) Q E s → wp m (λ a, wp (k a) Q E) E s.
Proof. unfold wp, mbind, SM_bind. by destruct (m s) as [s' [a|e]]. Qed.

Lemma wp_throw {A} e (Q : A → S → Prop) E s : E e s → wp (throw e) Q E s.
Proof. done. Qed.

Lemma wp_get (Q : S → S → Prop) E s : Q s s → wp get Q E s.
Proof. done. Qed.

Lemma wp_gets {A} (f : S → A) Q E s : Q (f s) s → wp (gets f) Q E s.
Proof. done. Qed.

Lemma wp_modify f (Q : unit → S → Prop) E s : Q tt (f s) → wp (modify f) Q E s.
Proof. done. Qed.

Lemma wp_fail_if (b : bool) e (Q : unit → S → Prop) E s :
  (b = true → E e s) → (b = false → Q tt s) → wp (fail_if b e) Q E s.
Proof. unfold wp, fail_if. destruct b; eauto. Qed.

Lemma wp_lift {A} (r : res A) Q E s :
  (∀ a, r = inl a → Q a s) → (∀ e, r = inr e → E e s) → wp (lift r) Q E s.
Proof. unfold wp, lift. destruct r; eauto. Qed.

Lemma wp_mono {A} (m : SM S A) (Q Q' : A → S → Prop) E E' s :
  wp m Q E s →
  (∀ a s', Q a s' → Q' a s') → (∀ e s', E e s' → E' e s') → wp m Q' E' s.
Proof. unfold wp. destruct (m s) as [s' [a|e]]; eauto. Qed.

Lemma wp_and {A} (m : SM S A) (Q Q' : A → S → Prop) E E' s :
  wp m Q E s → wp m Q' E' s →
  wp m (λ a s', Q a s' ∧ Q' a s') (λ e s', E e s' ∧ E' e s') s.
Proof. unfold wp. destruct (m s) as [s' [a|e]]; eauto. Qed.

(** Reading a [wp] fact back as a fact about one run. *)
Lemma wp_ok {A} (m : SM S A) (Q : A → S → Prop) E s s' a :
  wp m Q E s → m s = (s', inl a) → Q a s'.
Proof. unfold wp. intros Hw Hr. by rewrite Hr in Hw. Qed.

Lemma wp_err {A} (m : SM S A) (Q : A → S → Prop) E s s' e :
  wp m Q E s → m s = (s', inr e) → E e s'.
Proof. unfold wp. intros Hw Hr. by rewrite Hr in Hw. Qed.

Lemma wp_intro {A} (m : SM S A) (Q : A → S → Prop) E s :
  (∀ s' a, m s = (s', inl a) → Q a s') →
  (∀ s' e, m s = (s', inr e) → E e s') → wp m Q E s.
Proof. unfold wp. destruct (m s) as [s' [a|e]]; eauto. Qed.

End wp_rules.

(** [wp_go] runs the rules forward over the structure of a program, splitting
    on every condition it meets; [wp_go_with tac] tries [tac] first, the
    place where a component's specification lemmas are plugged in. *)
Ltac wp_step tac :=
  lazymatch goal with
  | |- wp (mret _) _ _ _ => apply wp_ret
  | |- wp (_ ≫= _) _ _ _ => apply wp_bind
  | |- wp (throw _) _ _ _ => apply wp_throw
  | |- wp get _ _ _ => apply wp_get
  | |- wp (gets _) _ _ _ => apply wp_gets
  | |- wp (modify _) _ _ _ => apply wp_modify
  | |- wp (fail_if _ _) _ _ _ => apply wp_fail_if; intros ?
  | |- wp (lift _) _ _ _ => apply wp_lift; intros ? ?
  | |- wp (if ?b then _ else _) _ _ _ => destruct b eqn:?
  | |- wp (match ?x with _ => _ end) _ _ _ => destruct x eqn:?
  | |- wp (let _ := _ in _) _ _ _ => cbv zeta
  | |- wp ((λ _, _) _) _ _ _ => cbv beta
  | |- (λ _, _) _ => cbv beta
  | |- (λ _ _, _) _ _ => cbv beta
  | |- wp _ _ _ _ => tac
  end.

Tactic Notation "wp_go" := repeat (wp_step fail; cbv beta).
Tactic Notation "wp_go_with" tactic3(tac) := repeat (wp_step tac; cbv beta).

(* ------------------------------------------------------------------ *)
(** * Checked arithmetic (internal/chain/core.go, "Safe Math") *)

Definition ErrInsufficientFunds : error := Err "insufficient funds".

Definition safeAdd (a b : Z) : res Z :=
  if MaxUint64 - a <? b then inr (Err "uint64 overflow") else inl (a + b).

Definition safeSub (a b : Z) : res Z :=
  if a <? b then inr ErrInsufficientFunds else inl (a - b).

Lemma safeAdd_inl a b c :
  safeAdd a b = inl c ↔ a + b ≤ MaxUint64 ∧ c = a + b.
Proof.
  unfold safeAdd. destruct (Z.ltb_spec (MaxUint64 - a) b); split.
  - done.
  - intros [? _]. lia.
  - intros [= <-]. lia.
  - by intros [_ ->].
Qed.

Lemma safeAdd_inr a b e :
  safeAdd a b = inr e ↔ MaxUint64 < a + b ∧ e = Err "uint64 overflow".
Proof.
  unfold safeAdd. destruct (Z.ltb_spec (MaxUint64 - a) b); split.
  - intros [= <-]. split; [lia | done].
  - by intros [_ ->].
  - done.
  - intros [? _]. lia.
Qed.

(** On [uint64] operands the test [math.MaxUint64-a < b] is exactly overflow
    of the machine addition, so a sum that is returned did not wrap. *)
Lemma safeAdd_machine a b :
  in_u64 a → in_u64 b →
  safeAdd a b = if decide (u64 (a + b) = a + b) then inl (u64 (a + b))
                else inr (Err "uint64 overflow").
Proof.
  unfold safeAdd, in_u64, u64, MaxUint64. intros ??.
  destruct (Z.ltb_spec (18446744073709551615 - a) b); case_decide as Hd; try done.
  - exfalso. pose proof (Z.mod_pos_bound (a + b) 18446744073709551616). lia.
  - by rewrite Hd.
  - contradict Hd. apply Z.mod_small. lia.
Qed.

(* ------------------------------------------------------------------ *)
(** * Sums over finite maps *)

Section msum.
Context {K : Type} `{Countable K} {V : Type}.
Implicit Types (f : V → Z) (m : gmap K V).

(** [for _, v := range m { total += f(v) }] on unbounded integers. *)
Definition msum f m : Z := map_fold (λ _ v acc, f v + acc) 0 m.

Lemma msum_empty f : msum f ∅ = 0.
Proof. apply map_fold_empty. Qed.

Lemma msum_insert_new f m k v : m !! k = None → msum f (<[k:=v]> m) = f v + msum f m.
Proof.
  intros Hk. unfold msum. rewrite map_fold_insert_L; [done | | done].
  intros. lia.
Qed.

Lemma msum_delete_Some f m k v : m !! k = Some v → msum f m = f v + msum f (delete k m).
Proof.
  intros Hk. rewrite <- (insert_delete_id m k v) at 1 by done.
  apply msum_insert_new, lookup_delete_eq.
Qed.

(** The value a Go map read [m[k]] contributes, zero when [k] is absent. *)
Definition at_or0 f m (k : K) : Z := from_option f 0 (m !! k).

Lemma msum_delete f m k : msum f (delete k m) = msum f m - at_or0 f m k.
Proof.
  unfold at_or0. destruct (m !! k) as [v|] eqn:Hk; simpl.
  - rewrite (msum_delete_Some f m k v Hk). lia.
  - rewrite delete_id by done. lia.
Qed.

Lemma msum_insert f m k v : msum f (<[k:=v]> m) = msum f m - at_or0 f m k + f v.
Proof.
  rewrite <- insert_delete_eq, msum_insert_new by apply lookup_delete_eq.
  rewrite msum_delete. lia.
Qed.

Lemma msum_nonneg f m : (∀ k v, m !! k = Some v → 0 ≤ f v) → 0 ≤ msum f m.
Proof.
  induction m as [|k v m Hk IH] using map_ind; intros Hf.
  - rewrite msum_empty. lia.
  - rewrite msum_insert_new by done.
    pose proof (Hf k v ltac:(by simplify_map_eq)).
    assert (0 ≤ msum f m); [|lia].
    apply IH. intros k' v' Hk'. apply (Hf k'). rewrite lookup_insert_ne; [done | congruence].
Qed.

Lemma msum_lookup_le f m k v :
  (∀ k v, m !! k = Some v → 0 ≤ f v) → m !! k = Some v → f v ≤ msum f m.
Proof.
  intros Hf Hk. rewrite (msum_delete_Some f m k v Hk).
  assert (0 ≤ msum f (delete k m)); [|lia].
  apply msum_nonneg. intros k' v' [_ Hk']%lookup_delete_Some. eauto.
Qed.

Lemma at_or0_le f m k :
  (∀ k v, m !! k = Some v → 0 ≤ f v) → at_or0 f m k ≤ msum f m.
Proof.
  intros Hf. unfold at_or0. destruct (m !! k) eqn:Hk; simpl.
  - by eapply msum_lookup_le.
  - by apply msum_nonneg.
Qed.

Lemma at_or0_le2 f m i j :
  i ≠ j → (∀ k v, m !! k = Some v → 0 ≤ f v) → at_or0 f m i + at_or0 f m j ≤ msum f m.
Proof.
  intros Hij Hf. pose proof (msum_delete f m i) as Hd.
  assert (at_or0 f m j ≤ msum f (delete i m)); [|lia].
  replace (at_or0 f m j) with (at_or0 f (delete i m) j).
  - apply at_or0_le. intros k v [_ ?]%lookup_delete_Some. eauto.
  - unfold at_or0. by rewrite lookup_delete_ne.
Qed.

Lemma msum_ext f g m : (∀ k v, m !! k = Some v → f v = g v) → msum f m = msum g m.
Proof.
  induction m as [|k v m Hk IH] using map_ind; intros Hf.
  - by rewrite !msum_empty.
  - rewrite !msum_insert_new by done. rewrite (Hf k v) by (by simplify_map_eq).
    rewrite IH; [done|]. intros k' v' ?. apply (Hf k').
    rewrite lookup_insert_ne; [done | congruence].
Qed.

End msum.

(** Sums over lists. *)
Definition lsum {A} (f : A → Z) (l : list A) : Z := foldr (λ a acc, f a + acc) 0 l.

Section lsum.
Context {A : Type}.
Implicit Types (f : A → Z) (l : list A).

Lemma lsum_nil f : lsum f [] = 0.
Proof. done. Qed.

Lemma lsum_cons f a l : lsum f (a :: l) = f a + lsum f l.
Proof. done. Qed.

Lemma lsum_app f l1 l2 : lsum f (l1 ++ l2) = lsum f l1 + lsum f l2.
Proof. induction l1; simpl; [done | rewrite IHl1; lia]. Qed.

Lemma lsum_nonneg f l : (∀ a, a ∈ l → 0 ≤ f a) → 0 ≤ lsum f l.
Proof.
  induction l as [|a l IH]; intros Hf; simpl; [lia|].
  pose proof (Hf a ltac:(left)). assert (0 ≤ lsum f l); [|lia].
  apply IH. intros b Hb. apply Hf. by right.
Qed.

Lemma lsum_elem_le f l a : (∀ a, a ∈ l → 0 ≤ f a) → a ∈ l → f a ≤ lsum f l.
Proof.
  induction l as [|b l IH]; intros Hf Ha; [by apply elem_of_nil in Ha|].
  simpl. assert (Hl : ∀ c, c ∈ l → 0 ≤ f c) by (intros; apply Hf; by right).
  apply elem_of_cons in Ha as [->|Ha].
  - pose proof (lsum_nonneg f l Hl). lia.
  - pose proof (IH Hl Ha). pose proof (Hf b ltac:(left)). lia.
Qed.

Lemma lsum_le f g l : (∀ a, a ∈ l → f a ≤ g a) → lsum f l ≤ lsum g l.
Proof.
  induction l as [|a l IH]; intros Hfg; simpl; [lia|].
  pose proof (Hfg a ltac:(left)). assert (lsum f l ≤ lsum g l); [|lia].
  apply IH. intros b Hb. apply Hfg. by right.
Qed.

Lemma lsum_ext f g l : (∀ a, a ∈ l → f a = g a) → lsum f l = lsum g l.
Proof.
  intros Hfg. apply Z.le_antisymm; apply lsum_le; intros a Ha; by rewrite (Hfg a Ha).
Qed.

#[global] Instance lsum_perm f : Proper ((≡ₚ) ==> (=)) (lsum f).
Proof. induction 1; simpl; lia. Qed.

Lemma lsum_fmap {B} (f : A → Z) (g : B → A) (l : list B) :
  lsum f (g <$> l) = lsum (f ∘ g) l.
Proof. induction l as [|b l IH]; [done|]. by rewrite fmap_cons, !lsum_cons, IH. Qed.

End lsum.

Lemma msum_map_to_list {K} `{Countable K} {V} (f : V → Z) (m : gmap K V) :
  msum f m = lsum (f ∘ snd) (map_to_list m).
Proof.
  induction m as [|k v m Hk IH] using map_ind.
  - by rewrite msum_empty, map_to_list_empty.
  - rewrite msum_insert_new, map_to_list_insert by done. simpl. by rewrite IH.
Qed.

(** Division facts used for basis-point arithmetic. *)
Lemma bps_le a b : 0 ≤ a → 0 ≤ b ≤ 10000 → 0 ≤ a * b / 10000 ≤ a.
Proof.
  intros ??. split; [apply Z.div_pos; nia|].
  apply Z.div_le_upper_bound; nia.
Qed.

Create HintDb synthos.
Create Rewrite HintDb synthos.
#[export] Hint Resolve u64_range u64_small : synthos.
#[export] Hint Rewrite @msum_insert @msum_delete @msum_empty
  @lsum_nil @lsum_cons @lsum_app : synthos.
