(* ===== verification/GoStd.v ===== *)
(** The parts of Go's standard library the sources use on values that reach
    chain state: [strings], [encoding/hex], [strconv], [fmt] on integers and
    [sort]. Go strings and byte slices are both byte sequences and are both
    modelled as [string].

    [ToLower], [ToUpper] and [TrimSpace] are given on ASCII, the range the
    identifiers of the program live in; bytes from 0x80 up are left alone. *)
From stdpp Require Import base strings list pretty sorting gmap.
From Stdlib Require Import Ascii.
From S2P Require Import Prelude.

(* ------------------------------------------------------------------ *)
(** * strings *)

Definition code (c : ascii) : Z := Z.of_N (N_of_ascii c).
Definition chr (z : Z) : ascii := ascii_of_N (Z.to_N z).

Fixpoint smap (f : ascii → ascii) (s : string) : string :=
  match s with
  | EmptyString => EmptyString
  | String c s => String (f c) (smap f s)
  end.

Definition lower_char (c : ascii) : ascii :=
  if (65 <=? code c) && (code c <=? 90) then chr (code c + 32) else c.
Definition upper_char (c : ascii) : ascii :=
  if (97 <=? code c) && (code c <=? 122) then chr (code c - 32) else c.

Definition ToLower : string → string := smap lower_char.
Definition ToUpper : string → string := smap upper_char.

(** ["\t\n\v\f\r "] *)
Definition is_space (c : ascii) : bool :=
  ((9 <=? code c) && (code c <=? 13)) || (code c =? 32).

Fixpoint TrimLeft (s : string) : string :=
  match s with
  | String c s' => if is_space c then TrimLeft s' else s
  | EmptyString => EmptyString
  end.

Fixpoint TrimRight (s : string) : string :=
  match s with
  | String c s' =>
      match TrimRight s' with
      | EmptyString => if is_space c then EmptyString else String c EmptyString
      | t => String c t
      end
  | EmptyString => EmptyString
  end.

Definition TrimSpace (s : string) : string := TrimRight (TrimLeft s).

(** [strings.TrimLeft] and [strings.TrimRight] of slashes. *)
Fixpoint trim_left_slash (s : string) : string :=
  match s with
  | String c s' => if code c =? 47 then trim_left_slash s' else s
  | EmptyString => s
  end.
Fixpoint trim_right_slash (s : string) : string :=
  match s with
  | String c s' =>
      match trim_right_slash s' with
      | EmptyString => if code c =? 47 then EmptyString else String c EmptyString
      | t => String c t
      end
  | EmptyString => s
  end.

Definition HasPrefix (s p : string) : bool := String.prefix p s.

Fixpoint sdrop (n : nat) (s : string) : string :=
  match n, s with
  | S n, String _ s => sdrop n s
  | _, _ => s
  end.

Definition TrimPrefix (s p : string) : string :=
  if HasPrefix s p then sdrop (String.length p) s else s.

(** Go's [<] on strings: lexicographic on bytes. *)
Definition str_lt (a b : string) : bool := String.ltb a b.

(** [s == ""] *)
Definition empty_str (s : string) : bool := bool_decide (s = ""%string).

(* ------------------------------------------------------------------ *)
(** * encoding/hex *)

Definition hex_digit (z : Z) : ascii :=
  if z <? 10 then chr (48 + z) else chr (87 + z).

Fixpoint hexEncode (s : string) : string :=
  match s with
  | EmptyString => EmptyString
  | String c s =>
      String (hex_digit (code c / 16)) (String (hex_digit (code c mod 16)) (hexEncode s))
  end.

Definition hex_val (c : ascii) : option Z :=
  let z := code c in
  if (48 <=? z) && (z <=? 57) then Some (z - 48)
  else if (97 <=? z) && (z <=? 102) then Some (z - 87)
  else if (65 <=? z) && (z <=? 70) then Some (z - 55)
  else None.

(** [hex.DecodeString]: [None] on an odd length or a non-hex digit. *)
Fixpoint hexDecode (s : string) : option string :=
  match s with
  | EmptyString => Some EmptyString
  | String _ EmptyString => None
  | String a (String b s) =>
      match hex_val a, hex_val b, hexDecode s with
      | Some x, Some y, Some t => Some (String (chr (16 * x + y)) t)
      | _, _, _ => None
      end
  end.

(** ["0x" + hex.EncodeToString(b)] *)
Definition hex0x (b : string) : string := ("0x" +:+ hexEncode b)%string.

Fixpoint all_hex (s : string) : bool :=
  match s with
  | EmptyString => true
  | String c s => match hex_val c with Some _ => all_hex s | None => false end
  end.

Lemma code_range c : 0 ≤ code c < 256.
Proof. unfold code. destruct c as [[] [] [] [] [] [] [] []]; vm_compute; split; congruence. Qed.

Lemma chr_code c : chr (code c) = c.
Proof. unfold chr, code. by rewrite N2Z.id, ascii_N_embedding. Qed.

Lemma code_chr z : 0 ≤ z < 256 → code (chr z) = z.
Proof. intros ?. unfold chr, code. rewrite N_ascii_embedding by lia. lia. Qed.

Lemma hex_val_digit z : 0 ≤ z < 16 → hex_val (hex_digit z) = Some z.
Proof.
  intros ?.
  assert (z = 0 ∨ z = 1 ∨ z = 2 ∨ z = 3 ∨ z = 4 ∨ z = 5 ∨ z = 6 ∨ z = 7 ∨ z = 8 ∨ z = 9
    ∨ z = 10 ∨ z = 11 ∨ z = 12 ∨ z = 13 ∨ z = 14 ∨ z = 15) as Hz by lia.
  by repeat destruct Hz as [-> | Hz]; [reflexivity.. | subst z].
Qed.

Lemma hex_nibbles c : 0 ≤ code c / 16 < 16 ∧ 0 ≤ code c mod 16 < 16.
Proof.
  pose proof (code_range c). split; [|apply Z.mod_pos_bound; lia].
  split; [apply Z.div_pos; lia | apply Z.div_lt_upper_bound; lia].
Qed.

(** Decoding what was encoded gives the bytes back. *)
Lemma hexDecode_hexEncode s : hexDecode (hexEncode s) = Some s.
Proof.
  induction s as [|c s IH]; [done|]. cbn [hexEncode hexDecode].
  destruct (hex_nibbles c). rewrite !hex_val_digit, IH by done.
  rewrite <- Z.div_mod, chr_code by lia. done.
Qed.

Lemma hexEncode_inj s t : hexEncode s = hexEncode t → s = t.
Proof. intros He. pose proof (hexDecode_hexEncode s). rewrite He, hexDecode_hexEncode in *. congruence. Qed.

Lemma all_hex_hexEncode s : all_hex (hexEncode s) = true.
Proof.
  induction s as [|c s IH]; [done|]. cbn [hexEncode all_hex].
  destruct (hex_nibbles c). by rewrite !hex_val_digit, IH.
Qed.

Lemma length_hexEncode s : String.length (hexEncode s) = (2 * String.length s)%nat.
Proof. induction s as [|c s IH]; [done|]. cbn [hexEncode String.length]. lia. Qed.

Lemma TrimPrefix_hex0x b : TrimPrefix (hex0x b) "0x" = hexEncode b.
Proof. unfold TrimPrefix, HasPrefix, hex0x. simpl. by destruct (hexEncode b). Qed.

(* ------------------------------------------------------------------ *)
(** * strconv and fmt *)

(** [%d] and [strconv.FormatUint(x, 10)] *)
Definition fmt_d (z : Z) : string := pretty z.

Fixpoint digits (s : string) (acc : Z) : option Z :=
  match s with
  | EmptyString => Some acc
  | String c s =>
      if (48 <=? code c) && (code c <=? 57) then digits s (10 * acc + (code c - 48)) else None
  end.

(** [strconv.ParseUint(s, 10, 64)]: the value comes with the error, and it is
    the largest [uint64] when the number is out of range. *)
Definition ParseUint (s : string) : Z * option error :=
  match s with
  | EmptyString => (0, Some (Err "invalid syntax"))
  | _ =>
      match digits s 0 with
      | None => (0, Some (Err "invalid syntax"))
      | Some n =>
          if n <=? MaxUint64 then (n, None) else (MaxUint64, Some (Err "value out of range"))
      end
  end.

Lemma digits_ge s acc n : 0 ≤ acc → digits s acc = Some n → 0 ≤ n.
Proof.
  revert acc. induction s as [|c s IH]; intros acc Hacc; simpl; [by intros [= <-]|].
  case_match eqn:Hc; [|done]. apply IH. apply andb_prop in Hc as [? ?]. lia.
Qed.

Lemma ParseUint_range s : in_u64 (ParseUint s).1.
Proof.
  unfold ParseUint, in_u64. destruct s as [|c s]; [simpl; unfold MaxUint64; lia|].
  destruct (digits (String c s) 0) as [n|] eqn:Hd; [|simpl; unfold MaxUint64; lia].
  apply digits_ge in Hd; [|lia].
  destruct (Z.leb_spec n MaxUint64); simpl; unfold MaxUint64 in *; lia.
Qed.

(** Printing a number and reading it back. *)
Lemma digits_pretty_go x s : digits (pretty_N_go x s) 0 = digits s (Z.of_N x).
Proof.
  revert s. induction (N.lt_wf_0 x) as [x _ IH]. intros s. destruct (decide (0 < x)%N) as [Hx|Hx].
  - rewrite pretty_N_go_step by done. rewrite IH by (apply N.div_lt; lia). simpl.
    pose proof (N.mod_lt x 10 ltac:(lia)) as Hm. pose proof (N.div_mod x 10 ltac:(lia)) as Hdm.
    set (d := (x `mod` 10)%N) in *. set (q := (x `div` 10)%N) in *. clearbody d q.
    assert (code (pretty_N_char d) = 48 + Z.of_N d) as ->.
    { assert (d = 0 ∨ d = 1 ∨ d = 2 ∨ d = 3 ∨ d = 4 ∨ d = 5 ∨ d = 6 ∨ d = 7 ∨ d = 8 ∨ d = 9)%N as Hd by lia.
      clear -Hd. repeat destruct Hd as [->|Hd]; [reflexivity..|]. by rewrite Hd. }
    destruct (Z.leb_spec 48 (48 + Z.of_N d)), (Z.leb_spec (48 + Z.of_N d) 57); try lia.
    simpl. f_equal. lia.
  - assert (x = 0%N) as -> by lia. done.
Qed.

Lemma ParseUint_fmt_d n : in_u64 n → ParseUint (fmt_d n) = (n, None) ∧ fmt_d n ≠ "".
Proof.
  intros [Hn Hm]. unfold fmt_d, ParseUint. destruct n as [|p|p]; [done| |lia].
  change (pretty (Z.pos p)) with (pretty (N.pos p)). unfold pretty, pretty_N. rewrite decide_False by done.
  assert (digits (pretty_N_go (N.pos p) "") 0 = Some (Z.pos p)) as Hd by by rewrite digits_pretty_go.
  destruct (pretty_N_go (N.pos p) "") as [|c s] eqn:He; [done|]. rewrite Hd.
  destruct (Z.leb_spec (Z.pos p) MaxUint64); [done|lia].
Qed.

(* ------------------------------------------------------------------ *)
(** * sort.Slice

    Insertion sort under a [less] function. [sort.Slice] is not specified on
    elements neither of which is less than the other; for the slices of at
    most twelve elements it sorts by insertion, keeping their order. *)
Section sort_slice.
Context {A : Type} (less : A → A → bool).

Fixpoint insert_sorted (x : A) (l : list A) : list A :=
  match l with
  | [] => [x]
  | y :: l' => if less x y then x :: l else y :: insert_sorted x l'
  end.

Definition sort_slice (l : list A) : list A := foldl (λ acc x, insert_sorted x acc) [] l.

Lemma insert_sorted_perm x l : insert_sorted x l ≡ₚ x :: l.
Proof.
  induction l as [|y l IH]; simpl; [done|]. case_match; [done|].
  rewrite IH. apply Permutation_swap.
Qed.

Lemma sort_slice_perm l : sort_slice l ≡ₚ l.
Proof.
  unfold sort_slice. assert (∀ acc, foldl (λ acc x, insert_sorted x acc) acc l ≡ₚ acc ++ l) as Hg.
  { induction l as [|x l IH]; intros acc; simpl; [by rewrite app_nil_r|].
    rewrite IH, insert_sorted_perm. apply Permutation_middle. }
  apply (Hg []).
Qed.

(** [less] as a strict weak order: what [sort.Slice] requires of it. *)
Class StrictWeak : Prop := {
  less_irrefl x : less x x = false;
  less_trans x y z : less x y = true → less y z = true → less x z = true;
  less_cotrans x y z : less x z = true → less x y = true ∨ less y z = true
}.

Definition not_above (x y : A) : Prop := less y x = false.

Context `{!StrictWeak}.

#[local] Instance not_above_trans : Transitive not_above.
Proof.
  intros x y z Hxy Hyz. unfold not_above in *.
  destruct (less z x) eqn:Hzx; [|done].
  destruct (less_cotrans z y x Hzx); congruence.
Qed.

Lemma less_asym x y : less x y = true → less y x = false.
Proof.
  intros Hxy. destruct (less y x) eqn:Hyx; [|done].
  pose proof (less_trans _ _ _ Hxy Hyx). by rewrite less_irrefl in *.
Qed.

Lemma insert_sorted_sorted x l : StronglySorted not_above l → StronglySorted not_above (insert_sorted x l).
Proof.
  induction 1 as [|y l Hl IH Hy]; simpl; [repeat constructor|].
  destruct (less x y) eqn:Hxy.
  - assert (not_above x y) as Hna by (by apply less_asym).
    repeat constructor; [done.. |]. eapply Forall_impl; [exact Hy|].
    intros z Hz. by transitivity y.
  - constructor; [done|]. rewrite insert_sorted_perm. by constructor.
Qed.

Lemma sort_slice_sorted l : StronglySorted not_above (sort_slice l).
Proof.
  unfold sort_slice. assert (∀ acc, StronglySorted not_above acc →
    StronglySorted not_above (foldl (λ acc x, insert_sorted x acc) acc l)) as Hg.
  { induction l as [|x l IH]; intros acc Hacc; simpl; [done|]. by apply IH, insert_sorted_sorted. }
  apply Hg. constructor.
Qed.

(** When [less] tells all the elements apart the sorted order is unique, so
    the result does not depend on the order the elements come in (Go ranges
    over a map in random order) nor on the sorting algorithm. *)
Lemma sorted_unique l1 l2 :
  (∀ x y, x ∈ l1 → y ∈ l1 → less x y = false → less y x = false → x = y) →
  StronglySorted not_above l1 → StronglySorted not_above l2 → l1 ≡ₚ l2 → l1 = l2.
Proof.
  intros Htot H1. revert l2. induction H1 as [|x l1 H1 IH Hx]; intros l2 H2 Hp.
  - by apply Permutation_nil_l in Hp.
  - destruct H2 as [|y l2 H2 Hy]; [by apply Permutation_nil_r in Hp|].
    assert (x = y) as <-.
    { rewrite Forall_forall in Hx, Hy.
      assert (y ∈ x :: l1) as Hyin by (rewrite Hp; left).
      assert (x ∈ y :: l2) as Hxin by (rewrite <- Hp; left).
      apply elem_of_cons in Hyin as [->|Hyin]; [done|].
      apply elem_of_cons in Hxin as [->|Hxin]; [done|].
      apply Htot; [left | by right | by apply (Hy x) | by apply (Hx y)]. }
    f_equal. apply IH; [|done|by apply (Permutation_cons_inv (a:=x))].
    intros a b ??. apply Htot; by right.
Qed.

Lemma sort_slice_unique l1 l2 :
  (∀ x y, x ∈ l1 → y ∈ l1 → less x y = false → less y x = false → x = y) →
  l1 ≡ₚ l2 → sort_slice l1 = sort_slice l2.
Proof.
  intros Htot Hp. apply sorted_unique; [|apply sort_slice_sorted..|by rewrite !sort_slice_perm].
  intros x y Hx Hy. rewrite sort_slice_perm in Hx, Hy. by apply Htot.
Qed.

Lemma insert_sorted_last x l : Forall (λ y, less x y = false) l → insert_sorted x l = l ++ [x].
Proof. induction 1 as [|y l Hy _ IH]; simpl; [done|]. by rewrite Hy, IH. Qed.

(** Sorting a sorted slice changes nothing. *)
Lemma sort_slice_id l : StronglySorted not_above l → sort_slice l = l.
Proof.
  unfold sort_slice. assert (∀ acc, StronglySorted not_above (acc ++ l) →
    foldl (λ acc x, insert_sorted x acc) acc l = acc ++ l) as Hg.
  { induction l as [|x l IH]; intros acc Hacc; simpl; [by rewrite app_nil_r|].
    rewrite insert_sorted_last.
    - rewrite IH; rewrite <- app_assoc; [done|by simpl].
    - apply Forall_forall. intros y Hy.
      apply (proj1 (StronglySorted_app not_above acc (x :: l)) Hacc); [done | left]. }
  apply (Hg []).
Qed.

Lemma sort_slice_idemp l : sort_slice (sort_slice l) = sort_slice l.
Proof. apply sort_slice_id, sort_slice_sorted. Qed.

End sort_slice.

(** ** Byte order on strings *)

Lemma ascii_compare_code a b : Ascii.compare a b = (code a ?= code b).
Proof. unfold Ascii.compare, code. by rewrite N2Z.inj_compare. Qed.

Lemma str_lt_irrefl s : str_lt s s = false.
Proof.
  unfold str_lt, String.ltb. induction s as [|a s IH]; [done|].
  simpl. by rewrite ascii_compare_code, Z.compare_refl.
Qed.

Lemma code_inj a b : code a = code b → a = b.
Proof. intros Hc. rewrite <- (chr_code a), <- (chr_code b). by rewrite Hc. Qed.

Lemma str_lt_cons a s b t :
  str_lt (String a s) (String b t) = true ↔ code a < code b ∨ (a = b ∧ str_lt s t = true).
Proof.
  unfold str_lt, String.ltb. simpl. rewrite ascii_compare_code.
  destruct (Z.compare_spec (code a) (code b)) as [He|Hl|Hg].
  - apply code_inj in He as ->. naive_solver lia.
  - naive_solver.
  - split; [done|]. intros [?|[-> _]]; lia.
Qed.

Lemma str_lt_trans s t u : str_lt s t = true → str_lt t u = true → str_lt s u = true.
Proof.
  revert t u. induction s as [|a s IH]; intros [|b t] [|c u] H1 H2; try done.
  apply str_lt_cons. apply str_lt_cons in H1. apply str_lt_cons in H2.
  destruct H1 as [?|[-> ?]], H2 as [?|[-> ?]]; [left; lia|by left..|right; eauto].
Qed.

(** Any two different strings are ordered. *)
Lemma str_lt_total s t : str_lt s t = false → str_lt t s = false → s = t.
Proof.
  revert t. induction s as [|a s IH]; intros [|b t] H1 H2; try done.
  destruct (Z.lt_trichotomy (code a) (code b)) as [Hl|[He|Hg]].
  - by rewrite (proj2 (str_lt_cons a s b t)) in H1 by (by left).
  - apply code_inj in He as <-. f_equal. apply IH.
    + destruct (str_lt s t) eqn:Hs; [|done]. by rewrite (proj2 (str_lt_cons a s a t)) in H1 by (by right).
    + destruct (str_lt t s) eqn:Hs; [|done]. by rewrite (proj2 (str_lt_cons a t a s)) in H2 by (by right).
  - by rewrite (proj2 (str_lt_cons b t a s)) in H2 by (by left).
Qed.

#[global] Instance str_lt_weak : StrictWeak str_lt.
Proof.
  split; [apply str_lt_irrefl|apply str_lt_trans|].
  intros x y z Hxz. destruct (str_lt x y) eqn:Hxy; [by left|right].
  destruct (str_lt y x) eqn:Hyx; [by eapply str_lt_trans|].
  by rewrite <- (str_lt_total x y Hxy Hyx).
Qed.

(** Comparing by a key is a strict weak order when comparing keys is. *)
#[global] Instance key_weak {A B} (less : B → B → bool) (key : A → B) `{!StrictWeak less} :
  StrictWeak (λ x y, less (key x) (key y)).
Proof.
  split; intros.
  - apply (less_irrefl less).
  - by eapply (less_trans less).
  - by apply (less_cotrans less).
Qed.
