(* ===== verification/Sha256.v ===== *)
(** SHA-256 (FIPS 180-4), the function behind [crypto/sha256.Sum256], on byte
    strings. It is executable, so state roots, block hashes and transaction
    identifiers of the model are the program's own; the proofs of the
    development treat it as an arbitrary function. *)
From stdpp Require Import base strings list.
From Stdlib Require Import Ascii.
From S2P Require Import Prelude GoStd.

Definition w32 (z : Z) : Z := Z.land z 4294967295.
Definition rotr (n x : Z) : Z :=
  Z.lor (Z.shiftr x n) (w32 (Z.shiftl x (32 - n))).
Definition not32 (x : Z) : Z := Z.lxor x 4294967295.

Definition sha_K : list Z :=
  [1116352408; 1899447441; 3049323471; 3921009573; 961987163; 1508970993;
   2453635748; 2870763221; 3624381080; 310598401; 607225278; 1426881987;
   1925078388; 2162078206; 2614888103; 3248222580; 3835390401; 4022224774;
   264347078; 604807628; 770255983; 1249150122; 1555081692; 1996064986;
   2554220882; 2821834349; 2952996808; 3210313671; 3336571891; 3584528711;
   113926993; 338241895; 666307205; 773529912; 1294757372; 1396182291;
   1695183700; 1986661051; 2177026350; 2456956037; 2730485921; 2820302411;
   3259730800; 3345764771; 3516065817; 3600352804; 4094571909; 275423344;
   430227734; 506948616; 659060556; 883997877; 958139571; 1322822218;
   1537002063; 1747873779; 1955562222; 2024104815; 2227730452; 2361852424;
   2428436474; 2756734187; 3204031479; 3329325298].

Definition sha_H0 : list Z :=
  [1779033703; 3144134277; 1013904242; 2773480762; 1359893119; 2600822924;
   528734635; 1541459225].

Definition Ch (x y z : Z) : Z := Z.lxor (Z.land x y) (Z.land (not32 x) z).
Definition Maj (x y z : Z) : Z :=
  Z.lxor (Z.lxor (Z.land x y) (Z.land x z)) (Z.land y z).
Definition Sigma0 (x : Z) : Z := Z.lxor (Z.lxor (rotr 2 x) (rotr 13 x)) (rotr 22 x).
Definition Sigma1 (x : Z) : Z := Z.lxor (Z.lxor (rotr 6 x) (rotr 11 x)) (rotr 25 x).
Definition sigma0 (x : Z) : Z := Z.lxor (Z.lxor (rotr 7 x) (rotr 18 x)) (Z.shiftr x 3).
Definition sigma1 (x : Z) : Z := Z.lxor (Z.lxor (rotr 17 x) (rotr 19 x)) (Z.shiftr x 10).

(** The message schedule, newest word first. *)
Fixpoint sha_schedule (n : nat) (rev_w : list Z) : list Z :=
  match n with
  | O => rev rev_w
  | S n =>
      let w i := nth i rev_w 0 in
      sha_schedule n (w32 (sigma1 (w 1%nat) + w 6%nat + sigma0 (w 14%nat) + w 15%nat) :: rev_w)
  end.

Definition sha_round (st : list Z) (kw : Z * Z) : list Z :=
  match st with
  | [a; b; c; d; e; f; g; h] =>
      let t1 := h + Sigma1 e + Ch e f g + kw.1 + kw.2 in
      let t2 := Sigma0 a + Maj a b c in
      [w32 (t1 + t2); a; b; c; w32 (d + t1); e; f; g]
  | _ => st
  end.

Definition sha_block (h : list Z) (block : list Z) : list Z :=
  let ws := sha_schedule 48 (rev block) in
  zip_with (λ x y, w32 (x + y)) h (foldl sha_round h (zip sha_K ws)).

Fixpoint string_codes (s : string) : list Z :=
  match s with
  | EmptyString => []
  | String c s => code c :: string_codes s
  end.

Fixpoint be_bytes (n : nat) (z : Z) : list Z :=
  match n with
  | O => []
  | S n => be_bytes n (Z.shiftr z 8) ++ [Z.land z 255]
  end.

Definition sha_pad (bs : list Z) : list Z :=
  let len := Z.of_nat (length bs) in
  bs ++ [128] ++ repeat 0 (Z.to_nat ((55 - len) mod 64)) ++ be_bytes 8 (8 * len).

Fixpoint sha_words (bs : list Z) : list Z :=
  match bs with
  | a :: b :: c :: d :: rest =>
      (Z.shiftl a 24 + Z.shiftl b 16 + Z.shiftl c 8 + d) :: sha_words rest
  | _ => []
  end.

Fixpoint sha_blocks (fuel : nat) (h : list Z) (ws : list Z) : list Z :=
  match fuel, ws with
  | S fuel, _ :: _ => sha_blocks fuel (sha_block h (take 16 ws)) (drop 16 ws)
  | _, _ => h
  end.

Fixpoint codes_string (l : list Z) : string :=
  match l with
  | [] => EmptyString
  | z :: l => String (chr z) (codes_string l)
  end.

(** [sha256.Sum256]: the 32-byte digest. One block is consumed per unit of
    fuel and the padded message has fewer words than bytes, so the length of
    the padded message is always enough. *)
Definition sha256 (s : string) : string :=
  let bs := sha_pad (string_codes s) in
  codes_string (sha_blocks (length bs) sha_H0 (sha_words bs) ≫= be_bytes 4).

(** The FIPS 180-4 test vectors. *)
Example sha256_abc :
  hexEncode (sha256 "abc") = "ba7816bf8f01cfea414140de5dae2223b00361a396177a9cb410ff61f20015ad"%string.
Proof. vm_compute. reflexivity. Qed.

Example sha256_empty :
  hexEncode (sha256 "") = "e3b0c44298fc1c149afbf4c8996fb92427ae41e4649b934ca495991b7852b855"%string.
Proof. vm_compute. reflexivity. Qed.

Example sha256_two_blocks :
  hexEncode (sha256 "abcdbcdecdefdefgefghfghighijhijkijkljklmklmnlmnomnopnopq")
  = "248d6a61d20638b8e5c026930c3e6039a33ce45964ff2167f6ecedd419db06c1"%string.
Proof. vm_compute. reflexivity. Qed.

(** A digest is always 32 bytes long. *)
Lemma length_codes_string l : String.length (codes_string l) = length l.
Proof. induction l; simpl; congruence. Qed.

Lemma length_be_bytes n z : length (be_bytes n z) = n.
Proof. revert z. induction n as [|n IH]; intros z; [done|]. simpl. rewrite length_app, IH. simpl. lia. Qed.

Lemma length_sha_round st kw : length (sha_round st kw) = length st.
Proof. by do 9 (destruct st as [|? st]; [done|]). Qed.

Lemma length_sha_rounds l st : length (foldl sha_round st l) = length st.
Proof. revert st. induction l as [|k l IH]; intros st; simpl; [done|]. by rewrite IH, length_sha_round. Qed.

Lemma length_sha_block h b : length (sha_block h b) = length h.
Proof. unfold sha_block. rewrite length_zip_with, length_sha_rounds. lia. Qed.

Lemma length_sha_blocks n h ws : length (sha_blocks n h ws) = length h.
Proof.
  revert h ws. induction n as [|n IH]; intros h [|w ws]; simpl; [done..|].
  rewrite IH. apply length_sha_block.
Qed.

Lemma length_sha256 s : String.length (sha256 s) = 32%nat.
Proof.
  unfold sha256. rewrite length_codes_string.
  generalize (length_sha_blocks (length (sha_pad (string_codes s))) sha_H0 (sha_words (sha_pad (string_codes s)))).
  generalize (sha_blocks (length (sha_pad (string_codes s))) sha_H0 (sha_words (sha_pad (string_codes s)))).
  intros l Hl. change (length sha_H0) with 8%nat in Hl.
  do 9 (destruct l as [|? l]; [simpl in Hl; try lia|]); [|simpl in Hl; lia].
  unfold mbind, list_bind. rewrite !length_app, !length_be_bytes. done.
Qed.

Global Opaque sha256.
