(* ===== verification/Json.v ===== *)
(** [encoding/json.Marshal] as the sources use it: structs become objects with
    their fields in declaration order, maps become objects with their keys in
    sorted order, [omitempty] fields are left out when empty, and strings are
    escaped the way [Marshal] escapes them (HTML characters, control
    characters, U+2028 and U+2029; bytes that are not valid UTF-8 become the
    replacement character). *)
From stdpp Require Import base strings list gmap.
From Stdlib Require Import Ascii.
From S2P Require Import Prelude GoStd.

#[local] Set Warnings "-register-all".

Inductive json : Type :=
  | JNull
  | JBool (b : bool)
  | JNum (z : Z)
  | JStr (s : string)
  | JArr (l : list json)
  | JObj (l : list (string * json)).

#[local] Open Scope string_scope.
#[local] Open Scope Z_scope.

(* ------------------------------------------------------------------ *)
(** * Strings *)

Definition cont (lo hi : Z) (c : ascii) : bool := (lo <=? code c) && (code c <=? hi).

(** The length of the valid UTF-8 sequence [s] starts with, if it does
    ([utf8.DecodeRune]); a lone byte below 0x80 has length one. *)
Definition utf8_len (s : string) : option nat :=
  match s with
  | EmptyString => None
  | String a s1 =>
      let z := code a in
      if z <? 128 then Some 1%nat
      else if (194 <=? z) && (z <=? 223) then
        match s1 with
        | String b _ => if cont 128 191 b then Some 2%nat else None
        | _ => None
        end
      else if (224 <=? z) && (z <=? 239) then
        let lo := if z =? 224 then 160 else 128 in
        let hi := if z =? 237 then 159 else 191 in
        match s1 with
        | String b (String c _) =>
            if cont lo hi b && cont 128 191 c then Some 3%nat else None
        | _ => None
        end
      else if (240 <=? z) && (z <=? 244) then
        let lo := if z =? 240 then 144 else 128 in
        let hi := if z =? 244 then 143 else 191 in
        match s1 with
        | String b (String c (String d _)) =>
            if cont lo hi b && cont 128 191 c && cont 128 191 d then Some 4%nat else None
        | _ => None
        end
      else None
  end.

(** U+2028 and U+2029 are E2 80 A8 and E2 80 A9. *)
Definition is_line_sep (s : string) : option string :=
  match s with
  | String a (String b (String c _)) =>
      if (code a =? 226) && (code b =? 128) then
        if code c =? 168 then Some "\u2028"
        else if code c =? 169 then Some "\u2029" else None
      else None
  | _ => None
  end.

Definition escape_ascii (c : ascii) : string :=
  let z := code c in
  if (z =? 34) || (z =? 92) then String "\" (String c "")
  else if z =? 8 then "\b"
  else if z =? 12 then "\f"
  else if z =? 10 then "\n"
  else if z =? 13 then "\r"
  else if z =? 9 then "\t"
  else if (z <? 32) || (z =? 60) || (z =? 62) || (z =? 38)
  then "\u00" +:+ String (hex_digit (z / 16)) (String (hex_digit (z mod 16)) "")
  else String c "".

(** [cp] more bytes belong to a rune that is being copied, [dr] more to one
    that has been replaced. *)
Fixpoint escape (cp dr : nat) (s : string) : string :=
  match s with
  | EmptyString => ""
  | String a s1 =>
      match cp, dr with
      | S cp, _ => String a (escape cp dr s1)
      | O, S dr => escape 0 dr s1
      | O, O =>
          match utf8_len s with
          | None => "\ufffd" +:+ escape 0 0 s1
          | Some 1%nat => escape_ascii a +:+ escape 0 0 s1
          | Some n =>
              match is_line_sep s with
              | Some t => t +:+ escape 0 2 s1
              | None => String a (escape (n - 1) 0 s1)
              end
          end
      end
  end.

Definition dquote : string := String (chr 34) "".
Definition quote (s : string) : string := dquote +:+ escape 0 0 s +:+ dquote.

(* ------------------------------------------------------------------ *)
(** * Values *)

Fixpoint join (sep : string) (l : list string) : string :=
  match l with
  | [] => ""
  | [x] => x
  | x :: l => x +:+ sep +:+ join sep l
  end.

(** [json.Marshal] *)
Fixpoint marshal (j : json) : string :=
  match j with
  | JNull => "null"
  | JBool b => if b then "true" else "false"
  | JNum z => fmt_d z
  | JStr s => quote s
  | JArr l => "[" +:+ join "," (map marshal l) +:+ "]"
  | JObj l => "{" +:+ join "," (map (λ kv, quote kv.1 +:+ ":" +:+ marshal kv.2) l) +:+ "}"
  end.

#[global] Arguments marshal : simpl never.
#[global] Arguments quote : simpl never.

(** Fields of a struct; [omitempty] drops a zero value. *)
Definition field (k : string) (j : json) : list (string * json) := [(k, j)].
Definition field_str_oe (k s : string) : list (string * json) :=
  if empty_str s then [] else [(k, JStr s)].
Definition field_num_oe (k : string) (z : Z) : list (string * json) :=
  if z =? 0 then [] else [(k, JNum z)].
Definition field_arr_oe (k : string) (l : list json) : list (string * json) :=
  match l with [] => [] | _ => [(k, JArr l)] end.
Definition field_bool_oe (k : string) (b : bool) : list (string * json) :=
  if b then [(k, JBool true)] else [].

(** A [map[string]V]: keys in sorted order. *)
Definition key_less {V} (a b : string * V) : bool := str_lt a.1 b.1.

Definition jmap {V} (f : V → json) (m : gmap string V) : json :=
  JObj (map (λ kv, (kv.1, f kv.2)) (sort_slice key_less (map_to_list m))).

Example marshal_example :
  marshal (JObj (field "a" (JStr "x<y") ++ field_num_oe "z" 0 ++ field "n" (JNum 12)
                 ++ field "m" (jmap JNum {["k2" := 2; "k1" := 1]})))
  = "{" +:+ dquote +:+ "a" +:+ dquote +:+ ":" +:+ dquote +:+ "x\u003cy" +:+ dquote
    +:+ "," +:+ dquote +:+ "n" +:+ dquote +:+ ":12," +:+ dquote +:+ "m" +:+ dquote +:+ ":{"
    +:+ dquote +:+ "k1" +:+ dquote +:+ ":1," +:+ dquote +:+ "k2" +:+ dquote +:+ ":2}}".
Proof. vm_compute. reflexivity. Qed.
