(* ===== verification/JsonParse.v ===== *)
(** [encoding/json.Unmarshal], the part the sources use it for: a syntax
    checker that is a pushdown automaton like Go's scanner (structural on the
    input, no fuel), string unquoting, and the matching of object keys with
    struct fields (exact or case-folded; unknown keys are skipped; [null]
    leaves the target alone; a value of the wrong kind is an error). *)
From stdpp Require Import base strings list.
From Stdlib Require Import Ascii.
From S2P Require Import Prelude GoStd Json.

#[local] Open Scope string_scope.
#[local] Open Scope Z_scope.

(** A parsed value; a number keeps its literal. *)
Inductive pjson : Type :=
  | PNull
  | PBool (b : bool)
  | PNum (raw : string)
  | PStr (s : string)
  | PArr (l : list pjson)
  | PObj (l : list (string * pjson)).

(* ------------------------------------------------------------------ *)
(** * Strings *)

Definition byte_str (z : Z) : string := String (chr z) "".

(** UTF-8 of a code point; a lone surrogate becomes U+FFFD. *)
Definition utf8 (r : Z) : string :=
  let cont k := byte_str (128 + (r / 2 ^ k) mod 64) in
  if r <? 128 then byte_str r
  else if r <? 2048 then byte_str (192 + r / 64) +:+ cont 0
  else if (55296 <=? r) && (r <=? 57343) then byte_str 239 +:+ byte_str 191 +:+ byte_str 189
  else if r <? 65536 then byte_str (224 + r / 4096) +:+ cont 6 +:+ cont 0
  else byte_str (240 + r / 262144) +:+ cont 12 +:+ cont 6 +:+ cont 0.

Definition hex4 (a b c d : ascii) : option Z :=
  match hex_val a, hex_val b, hex_val c, hex_val d with
  | Some a, Some b, Some c, Some d => Some (((a * 16 + b) * 16 + c) * 16 + d)
  | _, _, _, _ => None
  end.

Definition is_char (c : ascii) (z : Z) : bool := code c =? z.

(** The one-letter escapes: quote, backslash, slash, b, f, n, r, t. *)
Definition simple_escape (c : ascii) : option string :=
  let z := code c in
  if (z =? 34) || (z =? 92) || (z =? 47) then Some (String c "")
  else if z =? 98 then Some (byte_str 8)
  else if z =? 102 then Some (byte_str 12)
  else if z =? 110 then Some (byte_str 10)
  else if z =? 114 then Some (byte_str 13)
  else if z =? 116 then Some (byte_str 9)
  else None.

Definition surrogate_pair (hi lo : Z) : option Z :=
  if (55296 <=? hi) && (hi <? 56320) && (56320 <=? lo) && (lo <? 57344)
  then Some ((hi - 55296) * 1024 + (lo - 56320) + 65536) else None.

Definition ocons (a : string) (o : option string) : option string := String.append a <$> o.

(** The value of a string literal, from the text between its quotes. [cp]
    more bytes belong to a rune that is being copied. *)
Fixpoint unquote (cp : nat) (s : string) : option string :=
  match s with
  | EmptyString => Some ""
  | String a s1 =>
      match cp with
      | S cp => String a <$> unquote cp s1
      | O =>
          if is_char a 92 then
            match s1 with
            | String u s2 =>
                if is_char u 117 then
                  match s2 with
                  | String a1 (String b1 (String c1 (String d1 s3))) =>
                      match hex4 a1 b1 c1 d1 with
                      | None => None
                      | Some hi =>
                          match s3 with
                          | String e (String v (String a2 (String b2 (String c2 (String d2 s4))))) =>
                              if is_char e 92 && is_char v 117 then
                                match hex4 a2 b2 c2 d2 with
                                | None => None
                                | Some lo =>
                                    match surrogate_pair hi lo with
                                    | Some r => ocons (utf8 r) (unquote 0 s4)
                                    | None => ocons (utf8 hi) (unquote 0 s3)
                                    end
                                end
                              else ocons (utf8 hi) (unquote 0 s3)
                          | _ => ocons (utf8 hi) (unquote 0 s3)
                          end
                      end
                  | _ => None
                  end
                else
                  match simple_escape u with
                  | Some t => ocons t (unquote 0 s2)
                  | None => None
                  end
            | EmptyString => None
            end
          else if code a <? 32 then None
          else
            match utf8_len s with
            | None => ocons (utf8 65533) (unquote 0 s1)
            | Some n => String a <$> unquote (n - 1) s1
            end
      end
  end.

(* ------------------------------------------------------------------ *)
(** * Tokens *)

Inductive token : Type :=
  | TSym (c : ascii)
  | TStr (s : string)
  | TLit (s : string).

Inductive lexing : Type :=
  | LIdle
  | LStr (acc : string)
  | LEsc (acc : string)
  | LLit (acc : string).

Definition is_json_space (c : ascii) : bool :=
  let z := code c in (z =? 32) || (z =? 9) || (z =? 10) || (z =? 13).

(** Braces, brackets, colon and comma. *)
Definition is_sym (c : ascii) : bool :=
  let z := code c in
  (z =? 123) || (z =? 125) || (z =? 91) || (z =? 93) || (z =? 58) || (z =? 44).

Definition snoc (s : string) (c : ascii) : string := s +:+ String c "".

Fixpoint lex (st : lexing) (s : string) : option (list token) :=
  match s with
  | EmptyString =>
      match st with
      | LIdle => Some []
      | LLit acc => Some [TLit acc]
      | LStr _ | LEsc _ => None
      end
  | String c s =>
      match st with
      | LEsc acc => lex (LStr (snoc acc c)) s
      | LStr acc =>
          if is_char c 34 then t ← unquote 0 acc; cons (TStr t) <$> lex LIdle s
          else if is_char c 92 then lex (LEsc (snoc acc c)) s
          else lex (LStr (snoc acc c)) s
      | LIdle =>
          if is_json_space c then lex LIdle s
          else if is_sym c then cons (TSym c) <$> lex LIdle s
          else if is_char c 34 then lex (LStr "") s
          else lex (LLit (String c "")) s
      | LLit acc =>
          if is_json_space c then cons (TLit acc) <$> lex LIdle s
          else if is_sym c then (λ l, TLit acc :: TSym c :: l) <$> lex LIdle s
          else if is_char c 34 then None
          else lex (LLit (snoc acc c)) s
      end
  end.

(** ** Literals *)

Definition is_digit (c : ascii) : bool := (48 <=? code c) && (code c <=? 57).

Fixpoint skip_digits (s : string) : string :=
  match s with
  | String c s' => if is_digit c then skip_digits s' else s
  | _ => s
  end.

(** At least one digit. *)
Definition digits1 (s : string) : option string :=
  match s with String c s' => if is_digit c then Some (skip_digits s') else None | _ => None end.

Definition number_int (s : string) : option string :=
  match s with
  | String c s' => if is_char c 48 then Some s' else digits1 s
  | _ => None
  end.

Definition number_frac (s : string) : option string :=
  match s with String c s' => if is_char c 46 then digits1 s' else Some s | _ => Some s end.

Definition number_exp (s : string) : option string :=
  match s with
  | String c s' =>
      if is_char c 101 || is_char c 69 then
        match s' with
        | String d s'' => if is_char d 43 || is_char d 45 then digits1 s'' else digits1 s'
        | _ => None
        end
      else Some s
  | _ => Some s
  end.

Definition is_number (s : string) : bool :=
  let s := match s with String c s' => if is_char c 45 then s' else s | _ => s end in
  match (t ← number_int s; u ← number_frac t; number_exp u) with
  | Some t => empty_str t
  | None => false
  end.

Definition literal (s : string) : option pjson :=
  if bool_decide (s = "true") then Some (PBool true)
  else if bool_decide (s = "false") then Some (PBool false)
  else if bool_decide (s = "null") then Some PNull
  else if is_number s then Some (PNum s) else None.

(* ------------------------------------------------------------------ *)
(** * Values *)

(** An open array or object, its finished parts in reverse. *)
Inductive frame : Type :=
  | FArr (l : list pjson)
  | FObj (l : list (string * pjson)) (key : string).

Inductive pstate : Type :=
  | SValue                               (* a value must follow *)
  | SFirst                               (* after an opening bracket *)
  | SKey (first : bool) (l : list (string * pjson))
  | SColon (l : list (string * pjson)) (key : string)
  | SDone (v : pjson).

Definition maxNestingDepth : nat := 10000.

Definition opened (c : ascii) (stk : list frame) : option (pstate * list frame) :=
  if (maxNestingDepth <=? length stk)%nat then None
  else if is_char c 91 then Some (SFirst, FArr [] :: stk)
  else if is_char c 123 then Some (SKey true [], stk)
  else None.

Definition parse_step (st : pstate) (stk : list frame) (t : token) : option (pstate * list frame) :=
  match st, t with
  | (SValue | SFirst), TStr s => Some (SDone (PStr s), stk)
  | (SValue | SFirst), TLit s => (λ v, (SDone v, stk)) <$> literal s
  | SValue, TSym c => opened c stk
  | SFirst, TSym c =>
      if is_char c 93 then
        match stk with FArr l :: stk => Some (SDone (PArr (rev l)), stk) | _ => None end
      else opened c stk
  | SKey first l, TStr k => Some (SColon l k, stk)
  | SKey first l, TSym c => if is_char c 125 && first then Some (SDone (PObj (rev l)), stk) else None
  | SColon l k, TSym c => if is_char c 58 then Some (SValue, FObj l k :: stk) else None
  | SDone v, TSym c =>
      match stk with
      | FArr l :: stk =>
          if is_char c 44 then Some (SValue, FArr (v :: l) :: stk)
          else if is_char c 93 then Some (SDone (PArr (rev (v :: l))), stk) else None
      | FObj l k :: stk =>
          if is_char c 44 then Some (SKey false ((k, v) :: l), stk)
          else if is_char c 125 then Some (SDone (PObj (rev ((k, v) :: l))), stk) else None
      | [] => None
      end
  | _, _ => None
  end.

Fixpoint parse_tokens (st : pstate) (stk : list frame) (ts : list token) : option pjson :=
  match ts with
  | [] => match st, stk with SDone v, [] => Some v | _, _ => None end
  | t :: ts =>
      match parse_step st stk t with
      | Some (st, stk) => parse_tokens st stk ts
      | None => None
      end
  end.

Definition parse_json (s : string) : option pjson := lex LIdle s ≫= parse_tokens SValue [].

(* ------------------------------------------------------------------ *)
(** * Struct fields *)

(** Keys are matched after folding case; U+017F folds to s and U+212A to k. *)
Fixpoint fold_key (s : string) : string :=
  match s with
  | EmptyString => ""
  | String a s1 =>
      let plain := String (lower_char a) (fold_key s1) in
      match s1 with
      | EmptyString => plain
      | String b s2 =>
          if (code a =? 197) && (code b =? 191) then "s" +:+ fold_key s2
          else
            match s2 with
            | EmptyString => plain
            | String c s3 =>
                if (code a =? 226) && (code b =? 132) && (code c =? 170)
                then "k" +:+ fold_key s3 else plain
            end
      end
  end.

(** The index of the field a key sets: the one with that very name, or else
    the first whose name folds to it. *)
Definition field_index (names : list string) (key : string) : option nat :=
  match list_find (λ n, n = key) names with
  | Some (i, _) => Some i
  | None => fst <$> list_find (λ n, fold_key n = fold_key key) names
  end.

(** A struct of string fields, filled in from an object. *)
Fixpoint set_string_fields (names : list string) (l : list (string * pjson)) (vals : list string)
    : option (list string) :=
  match l with
  | [] => Some vals
  | (k, v) :: l =>
      match field_index names k with
      | None => set_string_fields names l vals
      | Some i =>
          match v with
          | PNull => set_string_fields names l vals
          | PStr s => set_string_fields names l (<[i := s]> vals)
          | _ => None
          end
      end
  end.

Definition string_struct (names : list string) (j : pjson) : option (list string) :=
  match j with
  | PNull => Some (replicate (length names) "")
  | PObj l => set_string_fields names l (replicate (length names) "")
  | _ => None
  end.

(** [json.Unmarshal] into a slice of such structs. *)
Definition unmarshal_structs (names : list string) (raw : string) : option (list (list string)) :=
  j ← parse_json raw;
  match j with
  | PNull => Some []
  | PArr l => mapM (string_struct names) l
  | _ => None
  end.

Definition dq (s : string) : string := dquote +:+ s +:+ dquote.

Example parse_example :
  unmarshal_structs ["validator_id"; "signature"]
    (" [{" +:+ dq "Validator_ID" +:+ ": " +:+ dq "a\u00e9\n" +:+ ", " +:+ dq "x" +:+ ":[1.5e3,{}] }, null]")
  = Some [["a" +:+ byte_str 195 +:+ byte_str 169 +:+ byte_str 10; ""]; [""; ""]].
Proof. vm_compute. reflexivity. Qed.

Example parse_reject :
  unmarshal_structs ["signature"] "[{}," = None ∧
  unmarshal_structs ["signature"] ("[{" +:+ dq "signature" +:+ ":1}]") = None ∧
  parse_json "01" = None ∧ parse_json "[1,]" = None.
Proof. vm_compute. done. Qed.
