(* ===== verification/Types.v ===== *)
(** The data of the ledger (internal/chain): accounts, transactions, the
    registries of the sub-systems, and [State], which holds them all. Fields
    keep their Go names; [uint64], [int64] and [int] are [Z], addresses and
    byte slices are strings, maps are [gmap]s.

    A Go map may be nil. Reading a nil map is like reading an empty one, but
    writing to it panics and [encoding/json] prints it differently, so an
    account's [Assets] is an [option]. The other maps of [State] are created
    by [NewState] and never reset to nil. *)
From stdpp Require Import base strings list gmap.
From S2P Require Import Prelude GoStd.

Definition MIN_FEE : Z := 10.
Definition MAX_SUPPLY : Z := 100000000000.
Definition INNER_CIRCLE_PRICE : Z := 200000000.
Definition MAX_THREATS_PER_ADDR : Z := 100.
Definition BURN_PERCENT : Z := 50.

Abbreviation Address := string (only parsing).

Record KeyValuePair : Type := mkKV { Key : string; Value : string }.

Record Tx : Type := mkTx {
  ID : string;
  ChainID : Z;
  From : Address;
  To : Address;
  Amount : Z;
  Fee : Z;
  Nonce : Z;
  PublicKey : string;
  Signature : string;
  AssetID : string;
  Metadata : list KeyValuePair;
  Timestamp : Z
}.

Record Account : Type := mkAccount {
  Balance : Z;
  Assets : option (gmap string Z);
  AccNonce : Z
}.

Record ImmuneNodeRecord : Type := mkImmuneNode {
  in_Address : Address;
  in_HardwareHash : string;
  in_ActivatedAt : Z;
  in_LastProofAt : Z;
  in_SovereignProofs : Z;
  in_OptInLocalOnly : bool;
  in_CryptographicMode : string
}.

Record SovereignProofRecord : Type := mkSovereignProof {
  sp_ID : string;
  sp_Address : Address;
  sp_ProofHash : string;
  sp_NoiseClass : string;
  sp_DeclaredScope : string;
  sp_Timestamp : Z
}.

Record BridgeRecord : Type := mkBridgeRecord {
  br_ID : string;
  br_Type : string;
  br_Address : Address;
  br_Recipient : Address;
  br_Amount : Z;
  br_AssetID : string;
  br_SourceChainID : string;
  br_DestinationChainID : string;
  br_SourceEventID : string;
  br_DestinationRecipient : string;
  br_TxID : string;
  br_Timestamp : Z
}.

Record BridgeValidatorSignature : Type := mkBridgeSig {
  bs_ValidatorID : string;
  bs_Signature : string
}.

Record CitizenStake : Type := mkCitizenStake {
  cs_Amount : Z;
  cs_StakedAt : Z;
  cs_LastClaimAt : Z
}.

Record Proposal : Type := mkProposal {
  p_ID : string;
  p_Description : string;
  p_Amount : Z;
  p_Recipient : Address;
  p_VotesFor : Z;
  p_VotesAgainst : Z;
  p_IsActive : bool;
  p_Executed : bool;
  p_Voters : gmap Address bool
}.

Record Pool : Type := mkPool {
  pl_AssetID : string;
  SynReserve : Z;
  AssetReserve : Z;
  TotalShares : Z;
  Shares : gmap Address Z
}.

Record UnbondingEntry : Type := mkUnbonding {
  ub_Amount : Z;
  CompleteAtHeight : Z
}.

Record ValidatorRecord : Type := mkValidator {
  Operator : Address;
  ConsensusPubKey : string;
  Moniker : string;
  Endpoint : string;
  SelfBond : Z;
  FirstBondHeight : Z;
  Unbonding : list UnbondingEntry;
  Tombstoned : bool
}.

Record ActiveValidator : Type := mkActive {
  av_Operator : Address;
  av_ConsensusPubKey : string;
  av_Moniker : string;
  av_Endpoint : string;
  av_Power : Z
}.

Record State : Type := mkState {
  Accounts : gmap Address Account;
  ImmuneNodes : gmap Address ImmuneNodeRecord;
  SovereignProofs : gmap string SovereignProofRecord;
  BridgeEvents : gmap string BridgeRecord;
  ProcessedBridgeEvents : gmap string bool;
  BridgeValidators : gmap string string;
  BridgeQuorum : Z;
  LastSovereignProofID : string;
  LastBridgeEventID : string;
  TotalSupply : Z;
  CitizenStakes : gmap Address CitizenStake;
  TreasuryAddress : Address;
  CitizenRewardRateBpsPerYear : Z;
  GovernanceProposals : gmap string Proposal;
  GovernanceFounder : Address;
  DEXPools : gmap string Pool;
  Validators : gmap Address ValidatorRecord;
  ValidatorSetSnapshot : list ActiveValidator;
  FeeEpochTreasuryIncome : Z;
  FeeEpochTotalPower : Z;
  FeeEpochSignedPower : gmap Address Z
}.

(** Field updates. *)
Definition set_Accounts (x : gmap Address Account) (s : State) : State :=
  {| Accounts := x; ImmuneNodes := s.(ImmuneNodes); SovereignProofs := s.(SovereignProofs);
  BridgeEvents := s.(BridgeEvents); ProcessedBridgeEvents := s.(ProcessedBridgeEvents);
  BridgeValidators := s.(BridgeValidators); BridgeQuorum := s.(BridgeQuorum);
  LastSovereignProofID := s.(LastSovereignProofID); LastBridgeEventID :=
  s.(LastBridgeEventID); TotalSupply := s.(TotalSupply); CitizenStakes := s.(CitizenStakes);
  TreasuryAddress := s.(TreasuryAddress); CitizenRewardRateBpsPerYear :=
  s.(CitizenRewardRateBpsPerYear); GovernanceProposals := s.(GovernanceProposals);
  GovernanceFounder := s.(GovernanceFounder); DEXPools := s.(DEXPools); Validators :=
  s.(Validators); ValidatorSetSnapshot := s.(ValidatorSetSnapshot); FeeEpochTreasuryIncome :=
  s.(FeeEpochTreasuryIncome); FeeEpochTotalPower := s.(FeeEpochTotalPower);
  FeeEpochSignedPower := s.(FeeEpochSignedPower) |}.

Definition set_ImmuneNodes (x : gmap Address ImmuneNodeRecord) (s : State) : State :=
  {| Accounts := s.(Accounts); ImmuneNodes := x; SovereignProofs := s.(SovereignProofs);
  BridgeEvents := s.(BridgeEvents); ProcessedBridgeEvents := s.(ProcessedBridgeEvents);
  BridgeValidators := s.(BridgeValidators); BridgeQuorum := s.(BridgeQuorum);
  LastSovereignProofID := s.(LastSovereignProofID); LastBridgeEventID :=
  s.(LastBridgeEventID); TotalSupply := s.(TotalSupply); CitizenStakes := s.(CitizenStakes);
  TreasuryAddress := s.(TreasuryAddress); CitizenRewardRateBpsPerYear :=
  s.(CitizenRewardRateBpsPerYear); GovernanceProposals := s.(GovernanceProposals);
  GovernanceFounder := s.(GovernanceFounder); DEXPools := s.(DEXPools); Validators :=
  s.(Validators); ValidatorSetSnapshot := s.(ValidatorSetSnapshot); FeeEpochTreasuryIncome :=
  s.(FeeEpochTreasuryIncome); FeeEpochTotalPower := s.(FeeEpochTotalPower);
  FeeEpochSignedPower := s.(FeeEpochSignedPower) |}.

Definition set_SovereignProofs (x : gmap string SovereignProofRecord) (s : State) : State :=
  {| Accounts := s.(Accounts); ImmuneNodes := s.(ImmuneNodes); SovereignProofs := x;
  BridgeEvents := s.(BridgeEvents); ProcessedBridgeEvents := s.(ProcessedBridgeEvents);
  BridgeValidators := s.(BridgeValidators); BridgeQuorum := s.(BridgeQuorum);
  LastSovereignProofID := s.(LastSovereignProofID); LastBridgeEventID :=
  s.(LastBridgeEventID); TotalSupply := s.(TotalSupply); CitizenStakes := s.(CitizenStakes);
  TreasuryAddress := s.(TreasuryAddress); CitizenRewardRateBpsPerYear :=
  s.(CitizenRewardRateBpsPerYear); GovernanceProposals := s.(GovernanceProposals);
  GovernanceFounder := s.(GovernanceFounder); DEXPools := s.(DEXPools); Validators :=
  s.(Validators); ValidatorSetSnapshot := s.(ValidatorSetSnapshot); FeeEpochTreasuryIncome :=
  s.(FeeEpochTreasuryIncome); FeeEpochTotalPower := s.(FeeEpochTotalPower);
  FeeEpochSignedPower := s.(FeeEpochSignedPower) |}.

Definition set_BridgeEvents (x : gmap string BridgeRecord) (s : State) : State :=
  {| Accounts := s.(Accounts); ImmuneNodes := s.(ImmuneNodes); SovereignProofs :=
  s.(SovereignProofs); BridgeEvents := x; ProcessedBridgeEvents := s.(ProcessedBridgeEvents);
  BridgeValidators := s.(BridgeValidators); BridgeQuorum := s.(BridgeQuorum);
  LastSovereignProofID := s.(LastSovereignProofID); LastBridgeEventID :=
  s.(LastBridgeEventID); TotalSupply := s.(TotalSupply); CitizenStakes := s.(CitizenStakes);
  TreasuryAddress := s.(TreasuryAddress); CitizenRewardRateBpsPerYear :=
  s.(CitizenRewardRateBpsPerYear); GovernanceProposals := s.(GovernanceProposals);
  GovernanceFounder := s.(GovernanceFounder); DEXPools := s.(DEXPools); Validators :=
  s.(Validators); ValidatorSetSnapshot := s.(ValidatorSetSnapshot); FeeEpochTreasuryIncome :=
  s.(FeeEpochTreasuryIncome); FeeEpochTotalPower := s.(FeeEpochTotalPower);
  FeeEpochSignedPower := s.(FeeEpochSignedPower) |}.

Definition set_ProcessedBridgeEvents (x : gmap string bool) (s : State) : State :=
  {| Accounts := s.(Accounts); ImmuneNodes := s.(ImmuneNodes); SovereignProofs :=
  s.(SovereignProofs); BridgeEvents := s.(BridgeEvents); ProcessedBridgeEvents := x;
  BridgeValidators := s.(BridgeValidators); BridgeQuorum := s.(BridgeQuorum);
  LastSovereignProofID := s.(LastSovereignProofID); LastBridgeEventID :=
  s.(LastBridgeEventID); TotalSupply := s.(TotalSupply); CitizenStakes := s.(CitizenStakes);
  TreasuryAddress := s.(TreasuryAddress); CitizenRewardRateBpsPerYear :=
  s.(CitizenRewardRateBpsPerYear); GovernanceProposals := s.(GovernanceProposals);
  GovernanceFounder := s.(GovernanceFounder); DEXPools := s.(DEXPools); Validators :=
  s.(Validators); ValidatorSetSnapshot := s.(ValidatorSetSnapshot); FeeEpochTreasuryIncome :=
  s.(FeeEpochTreasuryIncome); FeeEpochTotalPower := s.(FeeEpochTotalPower);
  FeeEpochSignedPower := s.(FeeEpochSignedPower) |}.

Definition set_BridgeValidators (x : gmap string string) (s : State) : State :=
  {| Accounts := s.(Accounts); ImmuneNodes := s.(ImmuneNodes); SovereignProofs :=
  s.(SovereignProofs); BridgeEvents := s.(BridgeEvents); ProcessedBridgeEvents :=
  s.(ProcessedBridgeEvents); BridgeValidators := x; BridgeQuorum := s.(BridgeQuorum);
  LastSovereignProofID := s.(LastSovereignProofID); LastBridgeEventID :=
  s.(LastBridgeEventID); TotalSupply := s.(TotalSupply); CitizenStakes := s.(CitizenStakes);
  TreasuryAddress := s.(TreasuryAddress); CitizenRewardRateBpsPerYear :=
  s.(CitizenRewardRateBpsPerYear); GovernanceProposals := s.(GovernanceProposals);
  GovernanceFounder := s.(GovernanceFounder); DEXPools := s.(DEXPools); Validators :=
  s.(Validators); ValidatorSetSnapshot := s.(ValidatorSetSnapshot); FeeEpochTreasuryIncome :=
  s.(FeeEpochTreasuryIncome); FeeEpochTotalPower := s.(FeeEpochTotalPower);
  FeeEpochSignedPower := s.(FeeEpochSignedPower) |}.

Definition set_BridgeQuorum (x : Z) (s : State) : State :=
  {| Accounts := s.(Accounts); ImmuneNodes := s.(ImmuneNodes); SovereignProofs :=
  s.(SovereignProofs); BridgeEvents := s.(BridgeEvents); ProcessedBridgeEvents :=
  s.(ProcessedBridgeEvents); BridgeValidators := s.(BridgeValidators); BridgeQuorum := x;
  LastSovereignProofID := s.(LastSovereignProofID); LastBridgeEventID :=
  s.(LastBridgeEventID); TotalSupply := s.(TotalSupply); CitizenStakes := s.(CitizenStakes);
  TreasuryAddress := s.(TreasuryAddress); CitizenRewardRateBpsPerYear :=
  s.(CitizenRewardRateBpsPerYear); GovernanceProposals := s.(GovernanceProposals);
  GovernanceFounder := s.(GovernanceFounder); DEXPools := s.(DEXPools); Validators :=
  s.(Validators); ValidatorSetSnapshot := s.(ValidatorSetSnapshot); FeeEpochTreasuryIncome :=
  s.(FeeEpochTreasuryIncome); FeeEpochTotalPower := s.(FeeEpochTotalPower);
  FeeEpochSignedPower := s.(FeeEpochSignedPower) |}.

Definition set_LastSovereignProofID (x : string) (s : State) : State :=
  {| Accounts := s.(Accounts); ImmuneNodes := s.(ImmuneNodes); SovereignProofs :=
  s.(SovereignProofs); BridgeEvents := s.(BridgeEvents); ProcessedBridgeEvents :=
  s.(ProcessedBridgeEvents); BridgeValidators := s.(BridgeValidators); BridgeQuorum :=
  s.(BridgeQuorum); LastSovereignProofID := x; LastBridgeEventID := s.(LastBridgeEventID);
  TotalSupply := s.(TotalSupply); CitizenStakes := s.(CitizenStakes); TreasuryAddress :=
  s.(TreasuryAddress); CitizenRewardRateBpsPerYear := s.(CitizenRewardRateBpsPerYear);
  GovernanceProposals := s.(GovernanceProposals); GovernanceFounder := s.(GovernanceFounder);
  DEXPools := s.(DEXPools); Validators := s.(Validators); ValidatorSetSnapshot :=
  s.(ValidatorSetSnapshot); FeeEpochTreasuryIncome := s.(FeeEpochTreasuryIncome);
  FeeEpochTotalPower := s.(FeeEpochTotalPower); FeeEpochSignedPower := s.(FeeEpochSignedPower)
  |}.

Definition set_LastBridgeEventID (x : string) (s : State) : State :=
  {| Accounts := s.(Accounts); ImmuneNodes := s.(ImmuneNodes); SovereignProofs :=
  s.(SovereignProofs); BridgeEvents := s.(BridgeEvents); ProcessedBridgeEvents :=
  s.(ProcessedBridgeEvents); BridgeValidators := s.(BridgeValidators); BridgeQuorum :=
  s.(BridgeQuorum); LastSovereignProofID := s.(LastSovereignProofID); LastBridgeEventID := x;
  TotalSupply := s.(TotalSupply); CitizenStakes := s.(CitizenStakes); TreasuryAddress :=
  s.(TreasuryAddress); CitizenRewardRateBpsPerYear := s.(CitizenRewardRateBpsPerYear);
  GovernanceProposals := s.(GovernanceProposals); GovernanceFounder := s.(GovernanceFounder);
  DEXPools := s.(DEXPools); Validators := s.(Validators); ValidatorSetSnapshot :=
  s.(ValidatorSetSnapshot); FeeEpochTreasuryIncome := s.(FeeEpochTreasuryIncome);
  FeeEpochTotalPower := s.(FeeEpochTotalPower); FeeEpochSignedPower := s.(FeeEpochSignedPower)
  |}.

Definition set_TotalSupply (x : Z) (s : State) : State :=
  {| Accounts := s.(Accounts); ImmuneNodes := s.(ImmuneNodes); SovereignProofs :=
  s.(SovereignProofs); BridgeEvents := s.(BridgeEvents); ProcessedBridgeEvents :=
  s.(ProcessedBridgeEvents); BridgeValidators := s.(BridgeValidators); BridgeQuorum :=
  s.(BridgeQuorum); LastSovereignProofID := s.(LastSovereignProofID); LastBridgeEventID :=
  s.(LastBridgeEventID); TotalSupply := x; CitizenStakes := s.(CitizenStakes); TreasuryAddress
  := s.(TreasuryAddress); CitizenRewardRateBpsPerYear := s.(CitizenRewardRateBpsPerYear);
  GovernanceProposals := s.(GovernanceProposals); GovernanceFounder := s.(GovernanceFounder);
  DEXPools := s.(DEXPools); Validators := s.(Validators); ValidatorSetSnapshot :=
  s.(ValidatorSetSnapshot); FeeEpochTreasuryIncome := s.(FeeEpochTreasuryIncome);
  FeeEpochTotalPower := s.(FeeEpochTotalPower); FeeEpochSignedPower := s.(FeeEpochSignedPower)
  |}.

Definition set_CitizenStakes (x : gmap Address CitizenStake) (s : State) : State :=
  {| Accounts := s.(Accounts); ImmuneNodes := s.(ImmuneNodes); SovereignProofs :=
  s.(SovereignProofs); BridgeEvents := s.(BridgeEvents); ProcessedBridgeEvents :=
  s.(ProcessedBridgeEvents); BridgeValidators := s.(BridgeValidators); BridgeQuorum :=
  s.(BridgeQuorum); LastSovereignProofID := s.(LastSovereignProofID); LastBridgeEventID :=
  s.(LastBridgeEventID); TotalSupply := s.(TotalSupply); CitizenStakes := x; TreasuryAddress
  := s.(TreasuryAddress); CitizenRewardRateBpsPerYear := s.(CitizenRewardRateBpsPerYear);
  GovernanceProposals := s.(GovernanceProposals); GovernanceFounder := s.(GovernanceFounder);
  DEXPools := s.(DEXPools); Validators := s.(Validators); ValidatorSetSnapshot :=
  s.(ValidatorSetSnapshot); FeeEpochTreasuryIncome := s.(FeeEpochTreasuryIncome);
  FeeEpochTotalPower := s.(FeeEpochTotalPower); FeeEpochSignedPower := s.(FeeEpochSignedPower)
  |}.

Definition set_TreasuryAddress (x : Address) (s : State) : State :=
  {| Accounts := s.(Accounts); ImmuneNodes := s.(ImmuneNodes); SovereignProofs :=
  s.(SovereignProofs); BridgeEvents := s.(BridgeEvents); ProcessedBridgeEvents :=
  s.(ProcessedBridgeEvents); BridgeValidators := s.(BridgeValidators); BridgeQuorum :=
  s.(BridgeQuorum); LastSovereignProofID := s.(LastSovereignProofID); LastBridgeEventID :=
  s.(LastBridgeEventID); TotalSupply := s.(TotalSupply); CitizenStakes := s.(CitizenStakes);
  TreasuryAddress := x; CitizenRewardRateBpsPerYear := s.(CitizenRewardRateBpsPerYear);
  GovernanceProposals := s.(GovernanceProposals); GovernanceFounder := s.(GovernanceFounder);
  DEXPools := s.(DEXPools); Validators := s.(Validators); ValidatorSetSnapshot :=
  s.(ValidatorSetSnapshot); FeeEpochTreasuryIncome := s.(FeeEpochTreasuryIncome);
  FeeEpochTotalPower := s.(FeeEpochTotalPower); FeeEpochSignedPower := s.(FeeEpochSignedPower)
  |}.

Definition set_CitizenRewardRateBpsPerYear (x : Z) (s : State) : State :=
  {| Accounts := s.(Accounts); ImmuneNodes := s.(ImmuneNodes); SovereignProofs :=
  s.(SovereignProofs); BridgeEvents := s.(BridgeEvents); ProcessedBridgeEvents :=
  s.(ProcessedBridgeEvents); BridgeValidators := s.(BridgeValidators); BridgeQuorum :=
  s.(BridgeQuorum); LastSovereignProofID := s.(LastSovereignProofID); LastBridgeEventID :=
  s.(LastBridgeEventID); TotalSupply := s.(TotalSupply); CitizenStakes := s.(CitizenStakes);
  TreasuryAddress := s.(TreasuryAddress); CitizenRewardRateBpsPerYear := x;
  GovernanceProposals := s.(GovernanceProposals); GovernanceFounder := s.(GovernanceFounder);
  DEXPools := s.(DEXPools); Validators := s.(Validators); ValidatorSetSnapshot :=
  s.(ValidatorSetSnapshot); FeeEpochTreasuryIncome := s.(FeeEpochTreasuryIncome);
  FeeEpochTotalPower := s.(FeeEpochTotalPower); FeeEpochSignedPower := s.(FeeEpochSignedPower)
  |}.

Definition set_GovernanceProposals (x : gmap string Proposal) (s : State) : State :=
  {| Accounts := s.(Accounts); ImmuneNodes := s.(ImmuneNodes); SovereignProofs :=
  s.(SovereignProofs); BridgeEvents := s.(BridgeEvents); ProcessedBridgeEvents :=
  s.(ProcessedBridgeEvents); BridgeValidators := s.(BridgeValidators); BridgeQuorum :=
  s.(BridgeQuorum); LastSovereignProofID := s.(LastSovereignProofID); LastBridgeEventID :=
  s.(LastBridgeEventID); TotalSupply := s.(TotalSupply); CitizenStakes := s.(CitizenStakes);
  TreasuryAddress := s.(TreasuryAddress); CitizenRewardRateBpsPerYear :=
  s.(CitizenRewardRateBpsPerYear); GovernanceProposals := x; GovernanceFounder :=
  s.(GovernanceFounder); DEXPools := s.(DEXPools); Validators := s.(Validators);
  ValidatorSetSnapshot := s.(ValidatorSetSnapshot); FeeEpochTreasuryIncome :=
  s.(FeeEpochTreasuryIncome); FeeEpochTotalPower := s.(FeeEpochTotalPower);
  FeeEpochSignedPower := s.(FeeEpochSignedPower) |}.

Definition set_GovernanceFounder (x : Address) (s : State) : State :=
  {| Accounts := s.(Accounts); ImmuneNodes := s.(ImmuneNodes); SovereignProofs :=
  s.(SovereignProofs); BridgeEvents := s.(BridgeEvents); ProcessedBridgeEvents :=
  s.(ProcessedBridgeEvents); BridgeValidators := s.(BridgeValidators); BridgeQuorum :=
  s.(BridgeQuorum); LastSovereignProofID := s.(LastSovereignProofID); LastBridgeEventID :=
  s.(LastBridgeEventID); TotalSupply := s.(TotalSupply); CitizenStakes := s.(CitizenStakes);
  TreasuryAddress := s.(TreasuryAddress); CitizenRewardRateBpsPerYear :=
  s.(CitizenRewardRateBpsPerYear); GovernanceProposals := s.(GovernanceProposals);
  GovernanceFounder := x; DEXPools := s.(DEXPools); Validators := s.(Validators);
  ValidatorSetSnapshot := s.(ValidatorSetSnapshot); FeeEpochTreasuryIncome :=
  s.(FeeEpochTreasuryIncome); FeeEpochTotalPower := s.(FeeEpochTotalPower);
  FeeEpochSignedPower := s.(FeeEpochSignedPower) |}.

Definition set_DEXPools (x : gmap string Pool) (s : State) : State :=
  {| Accounts := s.(Accounts); ImmuneNodes := s.(ImmuneNodes); SovereignProofs :=
  s.(SovereignProofs); BridgeEvents := s.(BridgeEvents); ProcessedBridgeEvents :=
  s.(ProcessedBridgeEvents); BridgeValidators := s.(BridgeValidators); BridgeQuorum :=
  s.(BridgeQuorum); LastSovereignProofID := s.(LastSovereignProofID); LastBridgeEventID :=
  s.(LastBridgeEventID); TotalSupply := s.(TotalSupply); CitizenStakes := s.(CitizenStakes);
  TreasuryAddress := s.(TreasuryAddress); CitizenRewardRateBpsPerYear :=
  s.(CitizenRewardRateBpsPerYear); GovernanceProposals := s.(GovernanceProposals);
  GovernanceFounder := s.(GovernanceFounder); DEXPools := x; Validators := s.(Validators);
  ValidatorSetSnapshot := s.(ValidatorSetSnapshot); FeeEpochTreasuryIncome :=
  s.(FeeEpochTreasuryIncome); FeeEpochTotalPower := s.(FeeEpochTotalPower);
  FeeEpochSignedPower := s.(FeeEpochSignedPower) |}.

Definition set_Validators (x : gmap Address ValidatorRecord) (s : State) : State :=
  {| Accounts := s.(Accounts); ImmuneNodes := s.(ImmuneNodes); SovereignProofs :=
  s.(SovereignProofs); BridgeEvents := s.(BridgeEvents); ProcessedBridgeEvents :=
  s.(ProcessedBridgeEvents); BridgeValidators := s.(BridgeValidators); BridgeQuorum :=
  s.(BridgeQuorum); LastSovereignProofID := s.(LastSovereignProofID); LastBridgeEventID :=
  s.(LastBridgeEventID); TotalSupply := s.(TotalSupply); CitizenStakes := s.(CitizenStakes);
  TreasuryAddress := s.(TreasuryAddress); CitizenRewardRateBpsPerYear :=
  s.(CitizenRewardRateBpsPerYear); GovernanceProposals := s.(GovernanceProposals);
  GovernanceFounder := s.(GovernanceFounder); DEXPools := s.(DEXPools); Validators := x;
  ValidatorSetSnapshot := s.(ValidatorSetSnapshot); FeeEpochTreasuryIncome :=
  s.(FeeEpochTreasuryIncome); FeeEpochTotalPower := s.(FeeEpochTotalPower);
  FeeEpochSignedPower := s.(FeeEpochSignedPower) |}.

Definition set_ValidatorSetSnapshot (x : list ActiveValidator) (s : State) : State :=
  {| Accounts := s.(Accounts); ImmuneNodes := s.(ImmuneNodes); SovereignProofs :=
  s.(SovereignProofs); BridgeEvents := s.(BridgeEvents); ProcessedBridgeEvents :=
  s.(ProcessedBridgeEvents); BridgeValidators := s.(BridgeValidators); BridgeQuorum :=
  s.(BridgeQuorum); LastSovereignProofID := s.(LastSovereignProofID); LastBridgeEventID :=
  s.(LastBridgeEventID); TotalSupply := s.(TotalSupply); CitizenStakes := s.(CitizenStakes);
  TreasuryAddress := s.(TreasuryAddress); CitizenRewardRateBpsPerYear :=
  s.(CitizenRewardRateBpsPerYear); GovernanceProposals := s.(GovernanceProposals);
  GovernanceFounder := s.(GovernanceFounder); DEXPools := s.(DEXPools); Validators :=
  s.(Validators); ValidatorSetSnapshot := x; FeeEpochTreasuryIncome :=
  s.(FeeEpochTreasuryIncome); FeeEpochTotalPower := s.(FeeEpochTotalPower);
  FeeEpochSignedPower := s.(FeeEpochSignedPower) |}.

Definition set_FeeEpochTreasuryIncome (x : Z) (s : State) : State :=
  {| Accounts := s.(Accounts); ImmuneNodes := s.(ImmuneNodes); SovereignProofs :=
  s.(SovereignProofs); BridgeEvents := s.(BridgeEvents); ProcessedBridgeEvents :=
  s.(ProcessedBridgeEvents); BridgeValidators := s.(BridgeValidators); BridgeQuorum :=
  s.(BridgeQuorum); LastSovereignProofID := s.(LastSovereignProofID); LastBridgeEventID :=
  s.(LastBridgeEventID); TotalSupply := s.(TotalSupply); CitizenStakes := s.(CitizenStakes);
  TreasuryAddress := s.(TreasuryAddress); CitizenRewardRateBpsPerYear :=
  s.(CitizenRewardRateBpsPerYear); GovernanceProposals := s.(GovernanceProposals);
  GovernanceFounder := s.(GovernanceFounder); DEXPools := s.(DEXPools); Validators :=
  s.(Validators); ValidatorSetSnapshot := s.(ValidatorSetSnapshot); FeeEpochTreasuryIncome :=
  x; FeeEpochTotalPower := s.(FeeEpochTotalPower); FeeEpochSignedPower :=
  s.(FeeEpochSignedPower) |}.

Definition set_FeeEpochTotalPower (x : Z) (s : State) : State :=
  {| Accounts := s.(Accounts); ImmuneNodes := s.(ImmuneNodes); SovereignProofs :=
  s.(SovereignProofs); BridgeEvents := s.(BridgeEvents); ProcessedBridgeEvents :=
  s.(ProcessedBridgeEvents); BridgeValidators := s.(BridgeValidators); BridgeQuorum :=
  s.(BridgeQuorum); LastSovereignProofID := s.(LastSovereignProofID); LastBridgeEventID :=
  s.(LastBridgeEventID); TotalSupply := s.(TotalSupply); CitizenStakes := s.(CitizenStakes);
  TreasuryAddress := s.(TreasuryAddress); CitizenRewardRateBpsPerYear :=
  s.(CitizenRewardRateBpsPerYear); GovernanceProposals := s.(GovernanceProposals);
  GovernanceFounder := s.(GovernanceFounder); DEXPools := s.(DEXPools); Validators :=
  s.(Validators); ValidatorSetSnapshot := s.(ValidatorSetSnapshot); FeeEpochTreasuryIncome :=
  s.(FeeEpochTreasuryIncome); FeeEpochTotalPower := x; FeeEpochSignedPower :=
  s.(FeeEpochSignedPower) |}.

Definition set_FeeEpochSignedPower (x : gmap Address Z) (s : State) : State :=
  {| Accounts := s.(Accounts); ImmuneNodes := s.(ImmuneNodes); SovereignProofs :=
  s.(SovereignProofs); BridgeEvents := s.(BridgeEvents); ProcessedBridgeEvents :=
  s.(ProcessedBridgeEvents); BridgeValidators := s.(BridgeValidators); BridgeQuorum :=
  s.(BridgeQuorum); LastSovereignProofID := s.(LastSovereignProofID); LastBridgeEventID :=
  s.(LastBridgeEventID); TotalSupply := s.(TotalSupply); CitizenStakes := s.(CitizenStakes);
  TreasuryAddress := s.(TreasuryAddress); CitizenRewardRateBpsPerYear :=
  s.(CitizenRewardRateBpsPerYear); GovernanceProposals := s.(GovernanceProposals);
  GovernanceFounder := s.(GovernanceFounder); DEXPools := s.(DEXPools); Validators :=
  s.(Validators); ValidatorSetSnapshot := s.(ValidatorSetSnapshot); FeeEpochTreasuryIncome :=
  s.(FeeEpochTreasuryIncome); FeeEpochTotalPower := s.(FeeEpochTotalPower);
  FeeEpochSignedPower := x |}.

Definition set_Balance (x : Z) (a : Account) : Account := mkAccount x a.(Assets) a.(AccNonce).
Definition set_Assets (x : option (gmap string Z)) (a : Account) : Account :=
  mkAccount a.(Balance) x a.(AccNonce).
Definition set_AccNonce (x : Z) (a : Account) : Account := mkAccount a.(Balance) a.(Assets) x.

(** The zero [Account], what Go's [s.Accounts[a]] reads for a missing key. *)
Definition Account_zero : Account := mkAccount 0 None 0.

Definition NewState : State := {|
  Accounts := ∅;
  ImmuneNodes := ∅;
  SovereignProofs := ∅;
  BridgeEvents := ∅;
  ProcessedBridgeEvents := ∅;
  BridgeValidators := ∅;
  BridgeQuorum := 0;
  LastSovereignProofID := ""%string;
  LastBridgeEventID := ""%string;
  TotalSupply := MAX_SUPPLY;
  CitizenStakes := ∅;
  TreasuryAddress := ""%string;
  CitizenRewardRateBpsPerYear := 0;
  GovernanceProposals := ∅;
  GovernanceFounder := ""%string;
  DEXPools := ∅;
  Validators := ∅;
  ValidatorSetSnapshot := [];
  FeeEpochTreasuryIncome := 0;
  FeeEpochTotalPower := 0;
  FeeEpochSignedPower := ∅
|}.

(* ------------------------------------------------------------------ *)
(** * Decidable equality *)

#[global] Instance KeyValuePair_eq_dec : EqDecision KeyValuePair. Proof. solve_decision. Defined.
#[global] Instance Account_eq_dec : EqDecision Account. Proof. solve_decision. Defined.
#[global] Instance UnbondingEntry_eq_dec : EqDecision UnbondingEntry. Proof. solve_decision. Defined.
#[global] Instance ValidatorRecord_eq_dec : EqDecision ValidatorRecord. Proof. solve_decision. Defined.
#[global] Instance ActiveValidator_eq_dec : EqDecision ActiveValidator. Proof. solve_decision. Defined.
#[global] Instance Tx_eq_dec : EqDecision Tx. Proof. solve_decision. Defined.
