(* ===== verification/Ledger.v ===== *)
(** Operations of [State] on accounts (internal/chain/core.go: [Get], [Set],
    [TotalStake], [AccountCount], [Clone], [Slash], [metadataValue],
    [parseTxMetadataUint64]) and the notion of native supply: the SYN held in
    balances, citizen stakes and validator bonds together. *)
From stdpp Require Import base strings list gmap.
From S2P Require Import Prelude GoStd Types.

#[local] Open Scope string_scope.
#[local] Open Scope Z_scope.

(* ------------------------------------------------------------------ *)
(** * Accounts *)

(** [s.Accounts[a]] *)
Definition acct (s : State) (a : Address) : Account := default Account_zero (s.(Accounts) !! a).

(** The contents of an account's asset map, empty when the map is nil. *)
Definition asset_map (acc : Account) : gmap string Z := default ∅ acc.(Assets).
Definition asset_of (acc : Account) (id : string) : Z := default 0 (asset_map acc !! id).

(** [make(map)] and a copy: the account with a non-nil asset map. *)
Definition norm_acct (acc : Account) : Account := set_Assets (Some (asset_map acc)) acc.

(** [acc.Assets[id] = v]; assigning into a nil map panics. *)
Definition assets_write (acc : Account) (id : string) (v : Z) : res Account :=
  match acc.(Assets) with
  | None => inr (Panic "assignment to entry in nil map")
  | Some m => inl (set_Assets (Some (<[id := v]> m)) acc)
  end.

(** [State.Get] *)
Definition Get (s : State) (a : Address) : Account := norm_acct (acct s a).

(** [s.Accounts[a] = acc] *)
Definition put_acct (a : Address) (acc : Account) (s : State) : State :=
  set_Accounts (<[a := acc]> s.(Accounts)) s.

(** [State.Set] *)
Definition Set_ (a : Address) (acc : Account) (s : State) : State := put_acct a (norm_acct acc) s.

(** [State.TotalStake]: a [uint64] sum over all balances. *)
Definition TotalStake (s : State) : Z := u64 (msum Balance s.(Accounts)).

Definition AccountCount (s : State) : Z := Z.of_nat (size s.(Accounts)).

Definition GetNextNonce (s : State) (a : Address) : Z := (Get s a).(AccNonce).

(** [State.Clone]. Every field is copied and every asset map is rebuilt, so a
    nil asset map comes out as an empty one. *)
Definition Clone (s : State) : State := set_Accounts (norm_acct <$> s.(Accounts)) s.

(** [State.Slash] *)
Definition Slash (a : Address) (penaltyPercent : Z) (s : State) : State :=
  match s.(Accounts) !! a with
  | None => s
  | Some acc =>
      let fine := u64 (acc.(Balance) * u64 penaltyPercent) / 100 in
      put_acct a
        (set_Balance (if fine <=? acc.(Balance) then acc.(Balance) - fine else 0) acc) s
  end.

(* ------------------------------------------------------------------ *)
(** * Transaction metadata *)

Fixpoint metadataValue (items : list KeyValuePair) (key : string) : string :=
  match items with
  | [] => ""
  | kv :: items => if bool_decide (kv.(Key) = key) then kv.(Value) else metadataValue items key
  end.

Definition parseTxMetadataUint64 (items : list KeyValuePair) (key : string) : Z * option error :=
  let raw := metadataValue items key in
  if empty_str raw then (0, Some (Err "missing metadata value")) else ParseUint raw.

Lemma parseTxMetadataUint64_range items key : in_u64 (parseTxMetadataUint64 items key).1.
Proof.
  unfold parseTxMetadataUint64. case_match; [|apply ParseUint_range].
  unfold in_u64, MaxUint64. simpl. lia.
Qed.

(* ------------------------------------------------------------------ *)
(** * Native supply *)

Definition validator_stake (r : ValidatorRecord) : Z :=
  r.(SelfBond) + lsum ub_Amount r.(Unbonding).

Definition spendable (s : State) : Z := msum Balance s.(Accounts).
Definition citizen_locked (s : State) : Z := msum cs_Amount s.(CitizenStakes).
Definition validator_locked (s : State) : Z := msum validator_stake s.(Validators).

Definition supply (s : State) : Z := spendable s + citizen_locked s + validator_locked s.

(** No amount of native coin anywhere is negative, and all of it together
    fits a [uint64]. *)
Record ledger_ok (s : State) : Prop := {
  ok_accounts : ∀ a acc, s.(Accounts) !! a = Some acc → 0 ≤ acc.(Balance);
  ok_citizens : ∀ a st, s.(CitizenStakes) !! a = Some st → 0 ≤ st.(cs_Amount);
  ok_validators : ∀ a r, s.(Validators) !! a = Some r →
    0 ≤ r.(SelfBond) ∧ Forall (λ e, 0 ≤ e.(ub_Amount)) r.(Unbonding);
  ok_supply : supply s ≤ MaxUint64
}.

(** [TotalValidatorLocked]: the [uint64] sum the program reports. *)
Definition TotalValidatorLocked (s : State) : Z := u64 (validator_locked s).

Lemma lsum_unbonding_nonneg l : Forall (λ e, 0 ≤ e.(ub_Amount)) l → 0 ≤ lsum ub_Amount l.
Proof. intros Hl. apply lsum_nonneg. by apply Forall_forall. Qed.

Lemma validator_stake_nonneg r :
  0 ≤ r.(SelfBond) ∧ Forall (λ e, 0 ≤ e.(ub_Amount)) r.(Unbonding) → 0 ≤ validator_stake r.
Proof. intros [? ?%lsum_unbonding_nonneg]. unfold validator_stake. lia. Qed.

Section ledger_facts.
Context (s : State) (Hok : ledger_ok s).

Lemma spendable_nonneg : 0 ≤ spendable s.
Proof. apply msum_nonneg, Hok. Qed.

Lemma citizen_locked_nonneg : 0 ≤ citizen_locked s.
Proof. apply msum_nonneg, Hok. Qed.

Lemma validator_locked_nonneg : 0 ≤ validator_locked s.
Proof. apply msum_nonneg. intros ???. eapply validator_stake_nonneg, Hok; done. Qed.

Lemma spendable_le_max : spendable s ≤ MaxUint64.
Proof.
  pose proof (ok_supply s Hok). unfold supply in *.
  pose proof citizen_locked_nonneg. pose proof validator_locked_nonneg. lia.
Qed.

Lemma acct_balance_range a : 0 ≤ (acct s a).(Balance) ≤ spendable s.
Proof.
  unfold acct. destruct (s.(Accounts) !! a) as [acc|] eqn:Ha; simpl.
  - split; [by eapply ok_accounts|]. by eapply msum_lookup_le; [apply Hok|].
  - split; [done|apply spendable_nonneg].
Qed.

Lemma acct_balance_le2 a b :
  a ≠ b → (acct s a).(Balance) + (acct s b).(Balance) ≤ spendable s.
Proof.
  intros Hab. assert (∀ c, (acct s c).(Balance) = at_or0 Balance s.(Accounts) c) as Hat.
  { intros c. unfold acct, at_or0. by destruct (s.(Accounts) !! c). }
  rewrite !Hat. apply at_or0_le2; [done | apply Hok].
Qed.

Lemma TotalStake_exact : TotalStake s = spendable s.
Proof. apply u64_small. pose proof spendable_nonneg. pose proof spendable_le_max. by split. Qed.

End ledger_facts.

(** ** How the basic updates move the parts of the supply *)

Lemma acct_at_or0 s a : (acct s a).(Balance) = at_or0 Balance s.(Accounts) a.
Proof. unfold acct, at_or0. by destruct (s.(Accounts) !! a). Qed.

Lemma spendable_put a acc s :
  spendable (put_acct a acc s) = spendable s - (acct s a).(Balance) + acc.(Balance).
Proof. unfold spendable. simpl. by rewrite msum_insert, acct_at_or0. Qed.

Lemma supply_put a acc s :
  supply (put_acct a acc s) = supply s - (acct s a).(Balance) + acc.(Balance).
Proof. unfold supply. rewrite spendable_put. unfold citizen_locked, validator_locked. simpl. lia. Qed.

Lemma acct_put_eq a acc s : acct (put_acct a acc s) a = acc.
Proof. unfold acct. simpl. by rewrite lookup_insert_eq. Qed.

Lemma acct_put_ne a b acc s : a ≠ b → acct (put_acct a acc s) b = acct s b.
Proof. intros. unfold acct. simpl. by rewrite lookup_insert_ne. Qed.

Lemma acct_put a b acc s :
  acct (put_acct a acc s) b = if decide (a = b) then acc else acct s b.
Proof. case_decide; [subst; apply acct_put_eq | by apply acct_put_ne]. Qed.

Lemma Balance_norm acc : (norm_acct acc).(Balance) = acc.(Balance).
Proof. done. Qed.

Lemma Balance_Get s a : (Get s a).(Balance) = (acct s a).(Balance).
Proof. done. Qed.

Lemma asset_of_norm acc id : asset_of (norm_acct acc) id = asset_of acc id.
Proof. done. Qed.

(** Writing an account with a non-negative balance keeps the ledger well
    formed as long as the supply still fits. *)
Lemma ledger_ok_put a acc s :
  ledger_ok s → 0 ≤ acc.(Balance) → supply (put_acct a acc s) ≤ MaxUint64 →
  ledger_ok (put_acct a acc s).
Proof.
  intros [H1 H2 H3 H4] Hb Hs. constructor; [|done..].
  intros b acc'. simpl. intros [[-> <-]|[_ ?]]%lookup_insert_Some; eauto.
Qed.

(** A state whose native holdings are those of [s]. *)
Lemma ledger_ok_same s s' :
  s'.(Accounts) = s.(Accounts) → s'.(CitizenStakes) = s.(CitizenStakes) →
  s'.(Validators) = s.(Validators) → ledger_ok s → ledger_ok s'.
Proof.
  intros Ha Hc Hv [H1 H2 H3 H4]. constructor; rewrite ?Ha, ?Hc, ?Hv; eauto.
  unfold supply, spendable, citizen_locked, validator_locked in *. by rewrite Ha, Hc, Hv.
Qed.

Lemma supply_same s s' :
  s'.(Accounts) = s.(Accounts) → s'.(CitizenStakes) = s.(CitizenStakes) →
  s'.(Validators) = s.(Validators) → supply s' = supply s.
Proof. intros Ha Hc Hv. unfold supply, spendable, citizen_locked, validator_locked. by rewrite Ha, Hc, Hv. Qed.

(** [Clone] changes no holding. *)
Lemma msum_fmap {V W} (f : W → Z) (g : V → W) (m : gmap string V) :
  msum f (g <$> m) = msum (f ∘ g) m.
Proof.
  induction m as [|k v m Hk IH] using map_ind.
  - by rewrite fmap_empty, !msum_empty.
  - rewrite fmap_insert, !msum_insert_new by (rewrite ?lookup_fmap, ?Hk; done). by rewrite IH.
Qed.

Lemma supply_Clone s : supply (Clone s) = supply s.
Proof. unfold supply, spendable. simpl. by rewrite msum_fmap. Qed.

Lemma acct_Clone s a : Get (Clone s) a = Get s a.
Proof. unfold Get, acct. simpl. rewrite lookup_fmap. by destruct (s.(Accounts) !! a). Qed.

Lemma Clone_idemp s : Clone (Clone s) = Clone s.
Proof. unfold Clone, set_Accounts. cbn. by rewrite <- map_fmap_compose. Qed.

Lemma ledger_ok_Clone s : ledger_ok s → ledger_ok (Clone s).
Proof.
  intros Hok. constructor.
  - intros a acc. simpl. rewrite lookup_fmap_Some. intros (acc0 & <- & ?). by apply (ok_accounts s Hok a acc0).
  - apply (ok_citizens s Hok).
  - apply (ok_validators s Hok).
  - rewrite supply_Clone. apply Hok.
Qed.

(** The sender's nonce advances by one and nobody else's moves. *)
Definition nonce_step (a : Address) (s s' : State) : Prop :=
  (acct s' a).(AccNonce) = u64 ((acct s a).(AccNonce) + 1) ∧
  ∀ b, b ≠ a → (acct s' b).(AccNonce) = (acct s b).(AccNonce).

(** Writing one account that paid [fee] and advanced its nonce. *)
Lemma one_party s a acc fee :
  ledger_ok s → 0 ≤ fee → 0 ≤ acc.(Balance) →
  acc.(Balance) + fee = (acct s a).(Balance) →
  acc.(AccNonce) = u64 ((acct s a).(AccNonce) + 1) →
  let s' := put_acct a acc s in
  ledger_ok s' ∧ supply s' = supply s - fee ∧ nonce_step a s s'.
Proof.
  intros Hok Hfee HA Hsum Hn s'. pose proof (ok_supply s Hok).
  assert (supply s' = supply s - fee) as Hs' by (unfold s'; rewrite supply_put; lia).
  split_and!; [apply ledger_ok_put; [done..|fold s'; lia]|done|].
  split; unfold s'; [by rewrite acct_put_eq|]. intros c Hc. by rewrite acct_put_ne.
Qed.

#[export] Hint Resolve ledger_ok_Clone ledger_ok_put : synthos.
#[export] Hint Rewrite supply_put spendable_put supply_Clone acct_put_eq : synthos.
