(* ===== verification/TxModel.v ===== *)
(** Transactions (internal/chain/core.go, "Transaction Layer", and
    address.go): basic validation, the canonical payload that is signed,
    identifiers, signing and verification.

    Ed25519 is a parameter of the model ([Ed25519]); the theorems hold for
    any signature scheme, and the round trip of [Sign] and [Verify] needs only
    what RFC 8032 promises ([Ed25519Correct]). *)
From stdpp Require Import base strings list gmap.
From S2P Require Import Prelude GoStd Sha256 Json Types Ledger.

#[local] Open Scope string_scope.
#[local] Open Scope Z_scope.

(** [crypto/ed25519]: [priv.Public()], [Sign] and [Verify]. *)
Class Ed25519 : Type := {
  ed_Public : string → string;
  ed_Sign : string → string → string;
  ed_Verify : string → string → string → bool
}.

Class Ed25519Correct (E : Ed25519) : Prop := {
  ed_public_len priv : String.length (ed_Public priv) = 32%nat;
  ed_sign_len priv msg : String.length (ed_Sign priv msg) = 64%nat;
  ed_verify_sign priv msg : ed_Verify (ed_Public priv) msg (ed_Sign priv msg) = true
}.

Definition slen (s : string) : Z := Z.of_nat (String.length s).

Definition ErrBadTxSig : error := Err "bad transaction signature".
Definition ErrTxFromMismatch : error := Err "from address does not match public key".

Fixpoint take_bytes (n : nat) (s : string) : string :=
  match n, s with
  | S n, String c s => String c (take_bytes n s)
  | _, _ => ""
  end.

(** [AddressFromPublicKey]: the first 20 bytes of the key's SHA-256. *)
Definition AddressFromPublicKey (pub : string) : Address := hex0x (take_bytes 20 (sha256 pub)).

(** [Tx.validateBasic] *)
Definition validateBasic (t : Tx) : res unit :=
  if t.(ChainID) =? 0 then inr (Err "missing chain ID")
  else if empty_str t.(From) || empty_str t.(To) then inr (Err "missing from/to address")
  else if t.(Amount) =? 0 then inr (Err "amount must be greater than zero")
  else if t.(Fee) =? 0 then inr (Err "fee must be greater than zero")
  else if empty_str (TrimPrefix t.(PublicKey) "0x") then inr (Err "missing public key")
  else inl tt.

(** [sort.Slice(payload.Metadata, ...)]. The payload shares the slice's
    backing array with the transaction, so sorting it sorts [t.Metadata]. *)
Definition kv_less (a b : KeyValuePair) : bool := str_lt a.(Key) b.(Key).

Definition sort_metadata (t : Tx) : Tx :=
  {| ID := t.(ID); ChainID := t.(ChainID); From := t.(From); To := t.(To);
     Amount := t.(Amount); Fee := t.(Fee); Nonce := t.(Nonce);
     PublicKey := t.(PublicKey); Signature := t.(Signature); AssetID := t.(AssetID);
     Metadata := sort_slice kv_less t.(Metadata); Timestamp := t.(Timestamp) |}.

Definition kv_json (kv : KeyValuePair) : json :=
  JObj (field "key" (JStr kv.(Key)) ++ field "value" (JStr kv.(Value))).

(** The canonical payload: everything but the identifier, the signature and
    the timestamp. *)
Definition signing_payload (t : Tx) : json :=
  JObj (field "version" (JNum 1)
    ++ field "chain_id" (JNum t.(ChainID))
    ++ field "from" (JStr t.(From))
    ++ field "to" (JStr t.(To))
    ++ field "amount" (JNum t.(Amount))
    ++ field "fee" (JNum t.(Fee))
    ++ field "nonce" (JNum t.(Nonce))
    ++ field "public_key" (JStr t.(PublicKey))
    ++ field_str_oe "asset_id" t.(AssetID)
    ++ field_arr_oe "metadata" (map kv_json t.(Metadata))).

#[global] Arguments signing_payload : simpl never.
#[global] Arguments hex0x : simpl never.

(** [Tx.signingBytes]: sorts the metadata in place and prints the payload. *)
Definition signingBytes : SM Tx string :=
  modify sort_metadata;; gets (λ t, marshal (signing_payload t)).

Definition set_ID (id : string) (t : Tx) : Tx :=
  mkTx id t.(ChainID) t.(From) t.(To) t.(Amount) t.(Fee) t.(Nonce) t.(PublicKey)
    t.(Signature) t.(AssetID) t.(Metadata) t.(Timestamp).
Definition set_Signature (sg : string) (t : Tx) : Tx :=
  mkTx t.(ID) t.(ChainID) t.(From) t.(To) t.(Amount) t.(Fee) t.(Nonce) t.(PublicKey)
    sg t.(AssetID) t.(Metadata) t.(Timestamp).
Definition set_Timestamp (ts : Z) (t : Tx) : Tx :=
  mkTx t.(ID) t.(ChainID) t.(From) t.(To) t.(Amount) t.(Fee) t.(Nonce) t.(PublicKey)
    t.(Signature) t.(AssetID) t.(Metadata) ts.

(** [Tx.ComputeID] *)
Definition ComputeID : SM Tx unit :=
  payload ← signingBytes;
  modify (set_ID (hex0x (sha256 payload))).

(** [hex.DecodeString(strings.TrimPrefix(s, "0x"))] with a required length. *)
Definition decode_fixed (s : string) (n : Z) : option string :=
  match hexDecode (TrimPrefix s "0x") with
  | Some b => if slen b =? n then Some b else None
  | None => None
  end.

Section with_ed25519.
Context `{E : Ed25519}.

(** [Tx.Sign] *)
Definition Sign (priv : string) : SM Tx unit :=
  t ← get;
  lift (validateBasic t);;
  fail_if (negb (bool_decide (AddressFromPublicKey (ed_Public priv) = t.(From)))) ErrTxFromMismatch;;
  payload ← signingBytes;
  modify (set_Signature (hex0x (ed_Sign priv payload)));;
  modify (set_ID (hex0x (sha256 payload))).

(** [Tx.Verify] *)
Definition Verify : SM Tx unit :=
  t ← get;
  lift (validateBasic t);;
  payload ← signingBytes;
  match decode_fixed t.(Signature) 64 with
  | None => throw (Err "invalid signature")
  | Some sigBytes =>
      match decode_fixed t.(PublicKey) 32 with
      | None => throw (Err "invalid public key")
      | Some pubBytes =>
          fail_if (negb (bool_decide (AddressFromPublicKey pubBytes = t.(From)))) ErrTxFromMismatch;;
          fail_if (negb (ed_Verify pubBytes payload sigBytes)) ErrBadTxSig;;
          fail_if (negb (bool_decide (t.(ID) = hex0x (sha256 payload)))) (Err "transaction ID mismatch")
      end
  end.

(** The [Tx] JSON of a block body, the Merkle leaf of a transaction. *)
Definition tx_json (t : Tx) : json :=
  JObj (field "id" (JStr t.(ID))
    ++ field "chain_id" (JNum t.(ChainID))
    ++ field "from" (JStr t.(From))
    ++ field "to" (JStr t.(To))
    ++ field "amount" (JNum t.(Amount))
    ++ field "fee" (JNum t.(Fee))
    ++ field "nonce" (JNum t.(Nonce))
    ++ field "public_key" (JStr t.(PublicKey))
    ++ field "signature" (JStr t.(Signature))
    ++ field_str_oe "asset_id" t.(AssetID)
    ++ field_arr_oe "metadata" (map kv_json t.(Metadata))
    ++ field_num_oe "timestamp" t.(Timestamp)).

(* ------------------------------------------------------------------ *)
(** * What verification establishes *)

(** The bytes [Verify] checks the signature against. *)
Definition payload_bytes (t : Tx) : string := marshal (signing_payload (sort_metadata t)).

(** The tests [Verify] makes, as a predicate on the transaction. *)
Definition tx_authentic (t : Tx) : Prop :=
  validateBasic t = inl tt ∧
  ∃ sg pub,
    decode_fixed t.(Signature) 64 = Some sg ∧
    decode_fixed t.(PublicKey) 32 = Some pub ∧
    AddressFromPublicKey pub = t.(From) ∧
    ed_Verify pub (payload_bytes t) sg = true ∧
    t.(ID) = hex0x (sha256 (payload_bytes t)).

#[global] Instance kv_less_weak : StrictWeak kv_less.
Proof. apply (key_weak str_lt Key). Qed.

Lemma sort_metadata_idemp t : sort_metadata (sort_metadata t) = sort_metadata t.
Proof. unfold sort_metadata. simpl. by rewrite (sort_slice_idemp kv_less). Qed.

Lemma payload_bytes_sorted t : payload_bytes (sort_metadata t) = payload_bytes t.
Proof. unfold payload_bytes. by rewrite sort_metadata_idemp. Qed.

(** [Verify] accepts exactly the authentic transactions, and leaves an
    accepted one unchanged but for the order of its metadata. *)
Lemma Verify_spec t t' :
  Verify t = (t', inl tt) ↔ t' = sort_metadata t ∧ tx_authentic t.
Proof.
  unfold Verify, tx_authentic, mbind, SM_bind, get, lift, signingBytes, modify, gets, throw, fail_if.
  simpl. fold (payload_bytes t). split.
  - destruct (validateBasic t) as [[]|e]; simpl; [|done].
    destruct (decode_fixed (Signature t) 64) as [sg|]; simpl; [|done].
    destruct (decode_fixed (PublicKey t) 32) as [pub|]; simpl; [|done].
    case_bool_decide; simpl; [|done].
    destruct (ed_Verify pub (payload_bytes t) sg) eqn:?; simpl; [|done].
    case_bool_decide; simpl; [|done]. intros [= <-]. eauto 10.
  - intros (-> & -> & sg & pub & -> & -> & Hf & Hv & Hi).
    rewrite Hv, !bool_decide_eq_true_2 by done. done.
Qed.

(** Whatever the verdict, the only thing [Verify] can do to a transaction is
    sort its metadata. *)
Lemma Verify_effect t : (Verify t).1 = t ∨ (Verify t).1 = sort_metadata t.
Proof.
  unfold Verify, mbind, SM_bind, get, lift, signingBytes, modify, gets, throw, fail_if. simpl.
  destruct (validateBasic t) as [[]|e]; [right|by left].
  repeat (case_match; simplify_eq/=; try done).
Qed.

Lemma Verify_ok_case t :
  (Verify t = (sort_metadata t, inl tt) ∧ tx_authentic t) ∨ (∃ e, (Verify t).2 = inr e ∧ ¬ tx_authentic t).
Proof.
  destruct (Verify t) as [t' [[]|e]] eqn:Hv.
  - apply Verify_spec in Hv as [-> ?]. by left.
  - right. exists e. split; [done|]. intros Ha.
    pose proof (proj2 (Verify_spec t (sort_metadata t)) (conj eq_refl Ha)). congruence.
Qed.

(** The timestamp is not signed: an authentic transaction stays authentic
    under any other timestamp. *)
Lemma tx_authentic_timestamp ts t : tx_authentic (set_Timestamp ts t) ↔ tx_authentic t.
Proof. done. Qed.

(* ------------------------------------------------------------------ *)
(** * Addresses *)

Lemma take_bytes_length n s : (n ≤ String.length s)%nat → String.length (take_bytes n s) = n.
Proof.
  revert s. induction n as [|n IH]; intros [|c s]; simpl; try lia.
  intros ?. f_equal. apply IH. lia.
Qed.

(** An address is ["0x"] and 40 hex digits. *)
Lemma AddressFromPublicKey_shape pub :
  ∃ h, AddressFromPublicKey pub = "0x" +:+ h ∧ all_hex h = true ∧ String.length h = 40%nat.
Proof.
  eexists. split; [reflexivity|]. split; [apply all_hex_hexEncode|].
  rewrite length_hexEncode, take_bytes_length; [done|]. rewrite length_sha256. lia.
Qed.

Lemma authentic_From t : tx_authentic t →
  ∃ h, t.(From) = "0x" +:+ h ∧ all_hex h = true ∧ String.length h = 40%nat.
Proof. intros (_ & sg & pub & _ & _ & <- & _). apply AddressFromPublicKey_shape. Qed.

Lemma authentic_Amount t : tx_authentic t → t.(Amount) ≠ 0 ∧ t.(Fee) ≠ 0 ∧ t.(To) ≠ "" ∧ t.(From) ≠ "".
Proof.
  intros [Hb _]. unfold validateBasic, empty_str in Hb.
  repeat (case_match; try done). rewrite orb_false_iff, !bool_decide_eq_false in *. lia || naive_solver lia.
Qed.

End with_ed25519.

(* ------------------------------------------------------------------ *)
(** * Signing and verifying *)

Section sign_verify.
Context `{E : Ed25519} `{!Ed25519Correct E}.

Lemma decode_fixed_hex0x b n : slen b = n → decode_fixed (hex0x b) n = Some b.
Proof.
  intros <-. unfold decode_fixed. rewrite TrimPrefix_hex0x, hexDecode_hexEncode.
  by rewrite Z.eqb_refl.
Qed.

Lemma Sign_ok priv t t' :
  Sign priv t = (t', inl tt) →
  validateBasic t = inl tt ∧ AddressFromPublicKey (ed_Public priv) = t.(From) ∧
  t' = set_ID (hex0x (sha256 (payload_bytes t)))
         (set_Signature (hex0x (ed_Sign priv (payload_bytes t))) (sort_metadata t)).
Proof.
  unfold Sign, mbind, SM_bind, get, lift, signingBytes, modify, gets, fail_if. simpl.
  fold (payload_bytes t). destruct (validateBasic t) as [[]|]; [|naive_solver].
  case_bool_decide; simpl; naive_solver.
Qed.

(** A transaction signed with a key verifies, provided it names that key. *)
Lemma Sign_authentic priv t t' :
  t.(PublicKey) = hex0x (ed_Public priv) →
  Sign priv t = (t', inl tt) → tx_authentic t'.
Proof.
  intros Hk (Hb & Hf & ->)%Sign_ok.
  assert (∀ id sg, payload_bytes (set_ID id (set_Signature sg (sort_metadata t))) = payload_bytes t) as Hp.
  { intros id sg. transitivity (payload_bytes (sort_metadata t)); [done|apply payload_bytes_sorted]. }
  split; [done|]. rewrite Hp. simpl. do 2 eexists. split_and!.
  - apply decode_fixed_hex0x. unfold slen. by rewrite ed_sign_len.
  - rewrite Hk. apply decode_fixed_hex0x. unfold slen. by rewrite ed_public_len.
  - done.
  - apply ed_verify_sign.
  - done.
Qed.

End sign_verify.
