(* ===== verification/JsonRound.v ===== *)
(** Reading back what [json.Marshal] printed: for values whose strings are
    ASCII, lexing and parsing the printed text gives the value. *)
From stdpp Require Import base strings list pretty.
From Stdlib Require Import Ascii.
From S2P Require Import Prelude GoStd Json JsonParse.

#[local] Open Scope string_scope.
#[local] Open Scope Z_scope.

(* ------------------------------------------------------------------ *)
(** * Strings *)

Lemma app_cons c s t : String c s +:+ t = String c (s +:+ t).
Proof. done. Qed.

Lemma app_assoc_s s t u : (s +:+ t) +:+ u = s +:+ (t +:+ u).
Proof. induction s as [|c s IH]; [done|]. by rewrite !app_cons, IH. Qed.

Lemma app_nil_s s : s +:+ "" = s.
Proof. induction s as [|c s IH]; [done|]. by rewrite app_cons, IH. Qed.

Lemma snoc_app s c t : snoc s c +:+ t = s +:+ String c t.
Proof. unfold snoc. by rewrite app_assoc_s. Qed.

Fixpoint sall (P : ascii → bool) (s : string) : bool :=
  match s with EmptyString => true | String c s => P c && sall P s end.

Definition is_ascii (c : ascii) : bool := code c <? 128.

Lemma ocons_nil o : ocons "" o = o.
Proof. by destruct o. Qed.

Lemma ocons_cons c s o : ocons (String c s) o = String c <$> ocons s o.
Proof. by destruct o. Qed.

(** ** Unquoting what was escaped *)

Lemma unquote_plain c s :
  is_char c 92 = false → code c <? 32 = false → is_ascii c = true → unquote 0 (String c s) = String c <$> unquote 0 s.
Proof.
  intros H1 H2 H3. cbn [unquote]. rewrite H1, H2.
  assert (utf8_len (String c s) = Some 1%nat) as ->; [|done]. unfold utf8_len. unfold is_ascii in H3. by rewrite H3.
Qed.

Lemma unquote_simple c t s : is_char c 117 = false → simple_escape c = Some t →
  unquote 0 (String "\" (String c s)) = ocons t (unquote 0 s).
Proof. intros H1 H2. cbn [unquote]. change (is_char "\" 92) with true. cbv iota. by rewrite H1, H2. Qed.

(** A [\u] escape below the surrogates stands for itself, whatever follows. *)
Lemma unquote_u a b c d hi s :
  hex4 a b c d = Some hi → hi < 55296 →
  unquote 0 (String "\" (String "u" (String a (String b (String c (String d s)))))) = ocons (utf8 hi) (unquote 0 s).
Proof.
  intros Hh Hlt. cbn [unquote]. change (is_char "\" 92) with true. change (is_char "u" 117) with true. cbv iota. rewrite Hh.
  destruct s as [|e [|v [|a2 [|b2 [|c2 [|d2 s4]]]]]]; try done.
  destruct (is_char e 92 && is_char v 117) eqn:He; [|done]. apply andb_true_iff in He as [H1 H2].
  destruct (hex4 a2 b2 c2 d2) as [lo|] eqn:Hl.
  - unfold surrogate_pair. by rewrite (proj2 (Z.leb_gt _ _)) by lia.
  - cbn [unquote]. by rewrite H1, H2, Hl.
Qed.

Lemma unquote_escape_char c s : is_ascii c = true → unquote 0 (escape_ascii c +:+ s) = String c <$> unquote 0 s.
Proof.
  destruct c as [[] [] [] [] [] [] [] []]; intros Hc; try (vm_compute in Hc; discriminate Hc); clear Hc;
    match goal with |- context [escape_ascii ?c] => let e := eval vm_compute in (escape_ascii c) in change (escape_ascii c) with e end;
    rewrite !app_cons; change ("" +:+ s) with s;
    lazymatch goal with
    | |- unquote 0 (String "\" (String "u" _)) = _ => erewrite unquote_u; [|reflexivity|vm_compute; reflexivity]
    | |- unquote 0 (String "\" (String _ _)) = _ => erewrite unquote_simple; [|reflexivity|reflexivity]
    | |- _ => rewrite unquote_plain by reflexivity
    end;
    destruct (unquote 0 s); reflexivity.
Qed.

Lemma escape_cons c s : is_ascii c = true → escape 0 0 (String c s) = escape_ascii c +:+ escape 0 0 s.
Proof.
  intros Hc. cbn [escape]. assert (utf8_len (String c s) = Some 1%nat) as ->; [|done].
  unfold utf8_len. unfold is_ascii in Hc. by rewrite Hc.
Qed.

Lemma unquote_escape s : sall is_ascii s = true → unquote 0 (escape 0 0 s) = Some s.
Proof.
  induction s as [|c s IH]; [done|]; cbn [sall]. intros [Hc Hs]%andb_true_iff.
  rewrite escape_cons, unquote_escape_char, IH by done. done.
Qed.

(* ------------------------------------------------------------------ *)
(** * Lexing *)

(** ** String literals *)

Lemma lex_str_plain p acc s :
  sall (λ c, negb (is_char c 34 || is_char c 92)) p = true → lex (LStr acc) (p +:+ s) = lex (LStr (acc +:+ p)) s.
Proof.
  revert acc. induction p as [|c p IH]; intros acc; [by rewrite app_nil_s|]. cbn [sall].
  intros [Hc Hp]%andb_true_iff. rewrite negb_true_iff, orb_false_iff in Hc. destruct Hc as [H1 H2].
  rewrite app_cons. cbn [lex]. rewrite H1, H2, IH by done. by rewrite snoc_app.
Qed.

Lemma lex_str_esc c acc s : lex (LStr acc) (String "\" (String c s)) = lex (LStr (acc +:+ String "\" (String c ""))) s.
Proof. cbn [lex]. change (is_char "\" 34) with false. change (is_char "\" 92) with true. cbv iota. by rewrite <- snoc_app. Qed.

Lemma lex_escape_char c acc s : is_ascii c = true → lex (LStr acc) (escape_ascii c +:+ s) = lex (LStr (acc +:+ escape_ascii c)) s.
Proof.
  intros Hc. assert (escape_ascii c = String c "" ∧ negb (is_char c 34 || is_char c 92) = true ∨
    ∃ u p, escape_ascii c = String "\" (String u p) ∧ sall (λ c, negb (is_char c 34 || is_char c 92)) p = true) as Hcase.
  { destruct c as [[] [] [] [] [] [] [] []]; try (vm_compute in Hc; discriminate Hc);
      first [left; split; reflexivity|right; do 2 eexists; split; reflexivity]. }
  destruct Hcase as [[-> Hp]|(u & p & -> & Hp)].
  - apply lex_str_plain. cbn [sall]. by rewrite Hp.
  - rewrite !app_cons, lex_str_esc, lex_str_plain by done. by rewrite app_assoc_s.
Qed.

Lemma lex_escape t acc s : sall is_ascii t = true → lex (LStr acc) (escape 0 0 t +:+ s) = lex (LStr (acc +:+ escape 0 0 t)) s.
Proof.
  revert acc. induction t as [|c t IH]; intros acc; cbn [sall]; [by rewrite app_nil_s|]. intros [Hc Ht]%andb_true_iff.
  rewrite escape_cons by done. rewrite app_assoc_s, lex_escape_char, IH by done. by rewrite app_assoc_s.
Qed.

Lemma lex_quote t s : sall is_ascii t = true → lex LIdle (quote t +:+ s) = cons (TStr t) <$> lex LIdle s.
Proof.
  intros Ht. unfold quote, dquote. rewrite !app_assoc_s. change (String (chr 34) "" +:+ ?x) with (String (chr 34) x).
  cbn [lex]. change (is_json_space (chr 34)) with false. change (is_sym (chr 34)) with false. change (is_char (chr 34) 34) with true.
  cbv iota. rewrite lex_escape by done. change ("" +:+ escape 0 0 t) with (escape 0 0 t).
  rewrite app_cons. change ("" +:+ s) with s. generalize (unquote_escape t Ht). generalize (escape 0 0 t). intros e He.
  cbn [lex]. change (is_char (chr 34) 34) with true. cbv iota. by rewrite He.
Qed.

Lemma lex_sym c s : is_sym c = true → is_json_space c = false → lex LIdle (String c s) = cons (TSym c) <$> lex LIdle s.
Proof. intros H1 H2. cbn [lex]. by rewrite H2, H1. Qed.

(** ** Literals *)

(** Text that a literal can be followed by. *)
Definition ends_lit (s : string) : bool :=
  match s with EmptyString => true | String c _ => is_sym c && negb (is_json_space c) end.

Definition lit_char (c : ascii) : bool := negb (is_json_space c || is_sym c || is_char c 34).

Lemma lex_lit p acc s :
  sall lit_char p = true → ends_lit s = true → lex (LLit acc) (p +:+ s) = cons (TLit (acc +:+ p)) <$> lex LIdle s.
Proof.
  intros Hp Hs. revert acc Hp. induction p as [|c p IH]; intros acc; cbn [sall].
  - intros _. rewrite app_nil_s. change ("" +:+ s) with s. destruct s as [|c s]; [done|]. cbn [ends_lit] in Hs.
    apply andb_true_iff in Hs as [H1 H2%negb_true_iff]. cbn [lex]. rewrite H1, H2. by destruct (lex LIdle s).
  - intros [Hc Hp]%andb_true_iff. unfold lit_char in Hc. rewrite negb_true_iff, !orb_false_iff in Hc. destruct Hc as [[H1 H2] H3].
    rewrite app_cons. cbn [lex]. rewrite H1, H2, H3, IH by done. by rewrite snoc_app.
Qed.

Lemma lex_literal p s :
  p ≠ "" → sall lit_char p = true → ends_lit s = true → lex LIdle (p +:+ s) = cons (TLit p) <$> lex LIdle s.
Proof.
  destruct p as [|c p]; [done|]. intros _. cbn [sall]. intros [Hc Hp]%andb_true_iff Hs.
  rewrite app_cons. cbn [lex]. unfold lit_char in Hc. rewrite negb_true_iff, !orb_false_iff in Hc. destruct Hc as [[-> ->] ->].
  by rewrite lex_lit.
Qed.

(** ** Numbers *)

Lemma sall_app P s t : sall P (s +:+ t) = sall P s && sall P t.
Proof. induction s as [|c s IH]; [done|]. rewrite app_cons. cbn [sall]. by rewrite IH, andb_assoc. Qed.

Lemma sall_impl (P Q : ascii → bool) s : (∀ c, P c = true → Q c = true) → sall P s = true → sall Q s = true.
Proof. intros H. induction s as [|c s IH]; cbn [sall]; [done|]. rewrite !andb_true_iff. naive_solver. Qed.

Lemma digit_lit c : is_digit c = true → lit_char c = true.
Proof.
  unfold is_digit, lit_char, is_json_space, is_sym, is_char. rewrite andb_true_iff, !Z.leb_le. intros [? ?].
  repeat match goal with |- context [?a =? ?b] => destruct (Z.eqb_spec a b); [lia|] end. done.
Qed.

Lemma pretty_go_digits x s : sall is_digit s = true → sall is_digit (pretty_N_go x s) = true.
Proof.
  revert s. induction (N.lt_wf_0 x) as [x _ IH]. intros s Hs. destruct (decide (0 < x)%N) as [Hx|Hx].
  - rewrite pretty_N_go_step by done. apply IH; [apply N.div_lt; lia|]. cbn [sall]. rewrite Hs, andb_true_r.
    pose proof (N.mod_lt x 10 ltac:(lia)) as Hm. set (d := (x `mod` 10)%N) in *. clearbody d.
    assert (d = 0 ∨ d = 1 ∨ d = 2 ∨ d = 3 ∨ d = 4 ∨ d = 5 ∨ d = 6 ∨ d = 7 ∨ d = 8 ∨ d = 9)%N as Hd by lia.
    clear -Hd. repeat destruct Hd as [->|Hd]; [reflexivity..|by rewrite Hd].
  - assert (x = 0%N) as -> by lia. done.
Qed.

(** The first digit of a positive number is not zero. *)
Lemma pretty_go_lead x s : (0 < x)%N → ∃ c t, pretty_N_go x s = String c t ∧ is_char c 48 = false.
Proof.
  revert s. induction (N.lt_wf_0 x) as [x _ IH]. intros s Hx. rewrite pretty_N_go_step by done.
  pose proof (N.div_mod x 10 ltac:(lia)) as Hdm.
  destruct (N.eq_0_gt_0_cases (x `div` 10)) as [Hq|Hq]; [|apply IH; [apply N.div_lt; lia|done]].
  rewrite Hq in *. eexists _, _. split; [rewrite pretty_N_go_0; reflexivity|].
  pose proof (N.mod_lt x 10 ltac:(lia)).
  set (d := (x `mod` 10)%N) in *. assert (0 < d)%N as Hd0 by lia. clearbody d. clear -Hd0 H.
  assert (d = 1 ∨ d = 2 ∨ d = 3 ∨ d = 4 ∨ d = 5 ∨ d = 6 ∨ d = 7 ∨ d = 8 ∨ d = 9)%N as Hd by lia.
  clear -Hd. repeat destruct Hd as [->|Hd]; [reflexivity..|by rewrite Hd].
Qed.

Lemma skip_digits_all s : sall is_digit s = true → skip_digits s = "".
Proof. induction s as [|c s IH]; cbn [sall skip_digits]; [done|]. intros [-> ?]%andb_true_iff. by apply IH. Qed.

Lemma pretty_pos_shape p : ∃ c t, pretty (N.pos p) = String c t ∧ is_char c 48 = false ∧ sall is_digit (String c t) = true.
Proof.
  unfold pretty, pretty_N. rewrite decide_False by done. destruct (pretty_go_lead (N.pos p) "" ltac:(lia)) as (c & t & He & Hc).
  exists c, t. split_and!; [done|done|]. rewrite <- He. by apply pretty_go_digits.
Qed.

Lemma number_pos c t : is_char c 48 = false → sall is_digit (String c t) = true →
  is_number (String c t) = true ∧ is_number (String "-" (String c t)) = true.
Proof.
  intros Hz Hd. pose proof Hd as Hd2. cbn [sall] in Hd2. apply andb_true_iff in Hd2 as [Hc Ht].
  assert (is_char c 45 = false) as Hm.
  { unfold is_digit, is_char in *. rewrite andb_true_iff, !Z.leb_le in Hc. apply Z.eqb_neq. lia. }
  unfold is_number. cbv beta. change (is_char "-" 45) with true. rewrite Hm. cbv iota.
  unfold number_int, digits1. rewrite Hz, Hc, skip_digits_all by done. done.
Qed.

Lemma fmt_d_ok z : fmt_d z ≠ "" ∧ sall lit_char (fmt_d z) = true ∧ literal (fmt_d z) = Some (PNum (fmt_d z)).
Proof.
  assert (∀ s c t, (s = String c t ∨ s = String "-" (String c t)) → is_digit c = true → is_number s = true →
    literal s = Some (PNum s)) as Hlit.
  { intros s c t Hs Hc Hn. unfold literal. rewrite Hn.
    assert (∀ x y, s = String x y → is_digit x = false → x = "-"%char) as Hx.
    { intros x y -> Hx. destruct Hs as [[= -> _]|[= -> _]]; [congruence|done]. }
    rewrite !bool_decide_eq_false_2; [done|..]; intros Heq; by pose proof (Hx _ _ Heq eq_refl). }
  assert (∀ p, ∃ c t, pretty (N.pos p) = String c t ∧ is_digit c = true ∧
    sall lit_char (String c t) = true ∧ is_number (String c t) = true ∧ is_number (String "-" (String c t)) = true) as Hp.
  { intros p. destruct (pretty_pos_shape p) as (c & t & He & Hz & Hd). destruct (number_pos c t Hz Hd).
    exists c, t. split_and!; try done; [by cbn [sall] in Hd; apply andb_true_iff in Hd as [? _]|].
    eapply sall_impl; [exact digit_lit|exact Hd]. }
  destruct z as [|p|p]; [by split_and!| |]; destruct (Hp p) as (c & t & He & Hc & Hl & Hn & Hm).
  - change (fmt_d (Z.pos p)) with (pretty (N.pos p)). rewrite He. split_and!; [done|done|]. apply (Hlit _ c t); [by left|done|done].
  - change (fmt_d (Z.neg p)) with ("-" +:+ pretty (N.pos p)). rewrite He. change ("-" +:+ String c t) with (String "-" (String c t)).
    split_and!; [done| |]; [by cbn [sall] in *; rewrite Hl|]. apply (Hlit _ c t); [by right|done|done].
Qed.

(* ------------------------------------------------------------------ *)
(** * Values *)

Section json_induction.
Context (P : json → Prop).
Context (Hnull : P JNull) (Hbool : ∀ b, P (JBool b)) (Hnum : ∀ z, P (JNum z)) (Hstr : ∀ s, P (JStr s)).
Context (Harr : ∀ l, Forall P l → P (JArr l)) (Hobj : ∀ l, Forall (λ kv, P kv.2) l → P (JObj l)).

Fixpoint json_nested_ind (j : json) : P j :=
  match j with
  | JNull => Hnull
  | JBool b => Hbool b
  | JNum z => Hnum z
  | JStr s => Hstr s
  | JArr l => Harr l ((fix go (l : list json) : Forall P l := match l with [] => Forall_nil_2 _ | x :: l => Forall_cons_2 _ _ _ (json_nested_ind x) (go l) end) l)
  | JObj l => Hobj l ((fix go (l : list (string * json)) : Forall (λ kv, P kv.2) l := match l with [] => Forall_nil_2 _ | kv :: l => Forall_cons_2 _ _ _ (json_nested_ind kv.2) (go l) end) l)
  end.

End json_induction.

(** Every string in the value is ASCII. *)
Fixpoint clean (j : json) : bool :=
  match j with
  | JStr s => sall is_ascii s
  | JArr l => forallb clean l
  | JObj l => forallb (λ kv, sall is_ascii kv.1 && clean kv.2) l
  | _ => true
  end.

Fixpoint depth (j : json) : nat :=
  match j with
  | JArr l => S (foldr (λ x n, Nat.max (depth x) n) 0%nat l)
  | JObj l => S (foldr (λ kv n, Nat.max (depth kv.2) n) 0%nat l)
  | _ => 0
  end.

(** The value a reader gets. *)
Fixpoint parsed (j : json) : pjson :=
  match j with
  | JNull => PNull
  | JBool b => PBool b
  | JNum z => PNum (fmt_d z)
  | JStr s => PStr s
  | JArr l => PArr (map parsed l)
  | JObj l => PObj (map (λ kv, (kv.1, parsed kv.2)) l)
  end.

Fixpoint seq_toks (l : list (list token)) : list token :=
  match l with
  | [] => []
  | [x] => x
  | x :: l => x ++ TSym "," :: seq_toks l
  end.

Fixpoint toks (j : json) : list token :=
  match j with
  | JNull => [TLit "null"]
  | JBool b => [TLit (if b then "true" else "false")]
  | JNum z => [TLit (fmt_d z)]
  | JStr s => [TStr s]
  | JArr l => TSym "[" :: seq_toks (map toks l) ++ [TSym "]"]
  | JObj l => TSym "{" :: seq_toks (map (λ kv, TStr kv.1 :: TSym ":" :: toks kv.2) l) ++ [TSym "}"]
  end.

Definition lexes (s : string) (ts : list token) : Prop :=
  ∀ rest, ends_lit rest = true → lex LIdle (s +:+ rest) = app ts <$> lex LIdle rest.

Lemma fmap_app_cons (t : token) ts (o : option (list token)) : cons t <$> (app ts <$> o) = app (t :: ts) <$> o.
Proof. by destruct o. Qed.

Lemma fmap_app_app (a b : list token) (o : option (list token)) : app a <$> (app b <$> o) = app (a ++ b) <$> o.
Proof. destruct o as [l|]; [|done]. simpl. by rewrite app_assoc. Qed.

Lemma lexes_join {A} (f : A → string) (g : A → list token) (l : list A) :
  Forall (λ x, lexes (f x) (g x)) l → lexes (join "," (map f l)) (seq_toks (map g l)).
Proof.
  induction 1 as [|x l Hx Hl IH]; intros rest Hr.
  { cbn [map join seq_toks]. change ("" +:+ rest) with rest. by destruct (lex LIdle rest). }
  destruct l as [|y l]; [by apply Hx|]. change (map f (x :: y :: l)) with (f x :: map f (y :: l)).
  change (map g (x :: y :: l)) with (g x :: map g (y :: l)).
  change (join "," (f x :: map f (y :: l))) with (f x +:+ "," +:+ join "," (map f (y :: l))).
  change (seq_toks (g x :: map g (y :: l))) with (g x ++ TSym "," :: seq_toks (map g (y :: l)))%list.
  rewrite !app_assoc_s, Hx by done. change ("," +:+ ?t) with (String "," t). rewrite lex_sym, IH by done.
  by rewrite fmap_app_cons, fmap_app_app.
Qed.

(** A bracketed sequence. *)
Lemma lexes_bracket o c s ts :
  is_sym o = true → is_json_space o = false → is_sym c = true → is_json_space c = false →
  lexes s ts → lexes (String o "" +:+ s +:+ String c "") (TSym o :: ts ++ [TSym c]).
Proof.
  intros H1 H2 H3 H4 Hs rest Hr. rewrite !app_assoc_s. change (String o "" +:+ ?t) with (String o t).
  change (String c "" +:+ ?t) with (String c t). rewrite lex_sym, Hs, lex_sym by (done || cbn [ends_lit]; by rewrite H3, H4).
  destruct (lex LIdle rest); [|done]. simpl. by rewrite <- app_assoc.
Qed.

Lemma lex_marshal j : clean j = true → lexes (marshal j) (toks j).
Proof.
  assert (∀ p, p ≠ "" → sall lit_char p = true → lexes p [TLit p]) as Hlit.
  { intros p Hne Hp rest Hr. rewrite lex_literal by done. by destruct (lex LIdle rest). }
  assert (∀ s, sall is_ascii s = true → lexes (quote s) [TStr s]) as Hq.
  { intros s Hs rest _. rewrite lex_quote by done. by destruct (lex LIdle rest). }
  induction j as [|b|z|s|l IH|l IH] using json_nested_ind; intros Hc.
  - by apply Hlit.
  - by destruct b; apply Hlit.
  - destruct (fmt_d_ok z) as (? & ? & _). by apply Hlit.
  - by apply Hq.
  - change (marshal (JArr l)) with (String "[" "" +:+ join "," (map marshal l) +:+ String "]" "").
    apply lexes_bracket; try done. apply lexes_join. cbn [clean] in Hc. apply Is_true_eq_left, forallb_True in Hc.
    rewrite Forall_forall in *. intros x Hx. apply IH; [done|]. apply Is_true_eq_true. by apply Hc.
  - change (marshal (JObj l)) with (String "{" "" +:+ join "," (map (λ kv, quote kv.1 +:+ ":" +:+ marshal kv.2) l) +:+ String "}" "").
    apply lexes_bracket; try done. apply lexes_join. cbn [clean] in Hc. apply Is_true_eq_left, forallb_True in Hc.
    rewrite Forall_forall in *. intros [k v] Hx. specialize (Hc _ Hx). apply Is_true_eq_true, andb_true_iff in Hc as [Hk Hv].
    intros rest Hr. cbn [fst snd] in *. rewrite !app_assoc_s, (Hq k Hk) by done. change (":" +:+ ?t) with (String ":" t).
    rewrite lex_sym by done. rewrite (IH (k, v) Hx Hv) by done. rewrite fmap_app_cons. cbn [snd]. by destruct (lex LIdle rest).
Qed.

(* ------------------------------------------------------------------ *)
(** * Parsing *)

Definition parses (j : json) : Prop :=
  ∀ st stk ts, st = SValue ∨ st = SFirst → (length stk + depth j ≤ maxNestingDepth)%nat →
    parse_tokens st stk (toks j ++ ts) = parse_tokens (SDone (parsed j)) stk ts.

Lemma parse_lit p v st stk ts :
  literal p = Some v → st = SValue ∨ st = SFirst → parse_tokens st stk (TLit p :: ts) = parse_tokens (SDone v) stk ts.
Proof. intros Hl [->| ->]; simpl; by rewrite Hl. Qed.

Lemma opened_ok c stk st : (length stk < maxNestingDepth)%nat → st = SValue ∨ st = SFirst → is_char c 93 = false →
  parse_step st stk (TSym c) = if is_char c 91 then Some (SFirst, FArr [] :: stk) else if is_char c 123 then Some (SKey true [], stk) else None.
Proof.
  intros Hl Hs Hc. assert (opened c stk = if is_char c 91 then Some (SFirst, FArr [] :: stk) else if is_char c 123 then Some (SKey true [], stk) else None) as <-.
  { unfold opened. by rewrite (proj2 (Nat.leb_gt _ _)) by done. }
  destruct Hs as [->| ->]; simpl; [done|by rewrite Hc].
Qed.

Lemma parse_elems l acc stk st ts :
  l ≠ [] → Forall parses l → Forall (λ j, (S (length stk) + depth j ≤ maxNestingDepth)%nat) l → st = SValue ∨ st = SFirst →
  parse_tokens st (FArr acc :: stk) (seq_toks (map toks l) ++ TSym "]" :: ts) =
  parse_tokens (SDone (PArr (rev acc ++ map parsed l))) stk ts.
Proof.
  intros Hne Hp. revert acc st Hne. induction Hp as [|j l Hj Hl IH]; intros acc st Hne Hd Hst; [done|].
  inversion_clear Hd as [|?? Hd1 Hd2]. destruct l as [|j' l].
  - cbn [map seq_toks]. rewrite Hj by done. simpl. by rewrite <- ?app_assoc.
  - change (seq_toks (map toks (j :: j' :: l))) with (toks j ++ TSym "," :: seq_toks (map toks (j' :: l)))%list.
    rewrite <- app_assoc, Hj by done. rewrite <- app_comm_cons. cbn [parse_tokens parse_step]. change (is_char "," 44) with true. cbv iota.
    rewrite IH by (done || by left). f_equal. f_equal. f_equal. simpl rev. by rewrite <- app_assoc.
Qed.

Lemma parse_fields (l : list (string * json)) acc first stk ts :
  l ≠ [] → Forall (λ kv, parses kv.2) l → Forall (λ kv, (S (length stk) + depth kv.2 ≤ maxNestingDepth)%nat) l →
  parse_tokens (SKey first acc) stk (seq_toks (map (λ kv, TStr kv.1 :: TSym ":" :: toks kv.2) l) ++ TSym "}" :: ts) =
  parse_tokens (SDone (PObj (rev acc ++ map (λ kv, (kv.1, parsed kv.2)) l))) stk ts.
Proof.
  intros Hne Hp. revert acc first Hne. induction Hp as [|[k j] l Hj Hl IH]; intros acc first Hne Hd; [done|].
  inversion_clear Hd as [|?? Hd1 Hd2]. cbn [fst snd] in *.
  assert (∀ ts', parse_tokens (SKey first acc) stk (TStr k :: TSym ":" :: toks j ++ ts') =
    parse_tokens (SDone (parsed j)) (FObj acc k :: stk) ts') as Hkv.
  { intros ts'. cbn [parse_tokens parse_step]. change (is_char ":" 58) with true. cbv iota. apply Hj; [by left|simpl; lia]. }
  destruct l as [|kv' l].
  - cbn [map seq_toks fst snd]. rewrite <- !app_comm_cons, Hkv. simpl. by rewrite <- ?app_assoc.
  - change (seq_toks (map ?f ((k, j) :: kv' :: l))) with ((TStr k :: TSym ":" :: toks j) ++ TSym "," :: seq_toks (map f (kv' :: l)))%list.
    rewrite <- app_assoc, <- !app_comm_cons, Hkv. cbn [parse_tokens parse_step]. change (is_char "," 44) with true. cbv iota.
    rewrite IH by done. f_equal. f_equal. f_equal. simpl rev. by rewrite <- app_assoc.
Qed.

Lemma depth_elem {A} (f : A → nat) l x : x ∈ l → (f x ≤ foldr (λ x n, Nat.max (f x) n) 0%nat l)%nat.
Proof. induction l as [|y l IH]; intros Hx; [by apply elem_of_nil in Hx|]. apply elem_of_cons in Hx as [->|Hx]; simpl; [lia|]. specialize (IH Hx). lia. Qed.

Lemma parse_toks j : parses j.
Proof.
  induction j as [|b|z|s|l IH|l IH] using json_nested_ind; intros st stk ts Hst Hd.
  - by apply parse_lit.
  - by destruct b; apply parse_lit.
  - apply parse_lit; [apply fmt_d_ok|done].
  - by destruct Hst as [->| ->].
  - cbn [toks parsed depth] in *. rewrite <- app_comm_cons, <- app_assoc. cbn [parse_tokens].
    rewrite opened_ok by (done || lia). change (is_char "[" 91) with true. cbv iota. destruct (decide (l = [])) as [->|Hne]; [done|].
    rewrite <- app_comm_cons. change ([] ++ ts)%list with ts. rewrite parse_elems; [done|done|done| |by right].
    apply Forall_forall. intros x Hx. pose proof (depth_elem depth l x Hx). lia.
  - cbn [toks parsed depth] in *. rewrite <- app_comm_cons, <- app_assoc. cbn [parse_tokens].
    rewrite opened_ok by (done || lia). change (is_char "{" 91) with false. change (is_char "{" 123) with true. cbv iota.
    destruct (decide (l = [])) as [->|Hne]; [done|]. rewrite <- app_comm_cons. change ([] ++ ts)%list with ts.
    rewrite parse_fields; [done|done|done|]. apply Forall_forall. intros x Hx. pose proof (depth_elem (λ kv, depth kv.2) l x Hx). lia.
Qed.

(** Reading back a printed value. *)
Lemma parse_marshal j : clean j = true → (depth j ≤ maxNestingDepth)%nat → parse_json (marshal j) = Some (parsed j).
Proof.
  intros Hc Hd. unfold parse_json. pose proof (lex_marshal j Hc "" eq_refl) as Hl. rewrite app_nil_s in Hl. rewrite Hl.
  change (lex LIdle "") with (Some (@nil token)). simpl. rewrite (parse_toks j SValue [] []) by (by left || done). done.
Qed.
