(* ===== verification/TxDecode.v ===== *)
(** The wire form of a transaction: [json.Unmarshal] into [Tx], and the proof
    that what [json.Marshal] prints is read back unchanged. *)
From stdpp Require Import base strings list pretty.
From Stdlib Require Import Ascii.
From S2P Require Import Prelude GoStd Json JsonParse Types TxModel JsonRound.

#[local] Open Scope string_scope.
#[local] Open Scope Z_scope.

(* ------------------------------------------------------------------ *)
(** * Unmarshal *)

(** [strconv.ParseInt(s, 10, 64)] on a JSON number. *)
Definition ParseInt (s : string) : option Z :=
  match s with
  | String c s' =>
      if is_char c 45
      then match s' with EmptyString => None | _ => n ← digits s' 0; if n <=? 9223372036854775808 then Some (- n) else None end
      else n ← digits s 0; if n <? 9223372036854775808 then Some n else None
  | EmptyString => None
  end.

(** Storing a value in a field; [null] leaves it alone. *)
Definition get_string (old : string) (j : pjson) : option string :=
  match j with PStr s => Some s | PNull => Some old | _ => None end.
Definition get_uint64 (old : Z) (j : pjson) : option Z :=
  match j with
  | PNum raw => match ParseUint raw with (n, None) => Some n | _ => None end
  | PNull => Some old
  | _ => None
  end.
Definition get_int64 (old : Z) (j : pjson) : option Z :=
  match j with PNum raw => ParseInt raw | PNull => Some old | _ => None end.

(** An object stored in a struct, key by key; a key that names no field is
    skipped. *)
Fixpoint set_fields {S} (names : list string) (put : nat → pjson → S → option S) (l : list (string * pjson)) (s : S) : option S :=
  match l with
  | [] => Some s
  | (k, v) :: l =>
      match field_index names k with
      | None => set_fields names put l s
      | Some i => s' ← put i v s; set_fields names put l s'
      end
  end.

Definition get_struct {S} (names : list string) (put : nat → pjson → S → option S) (s : S) (j : pjson) : option S :=
  match j with PObj l => set_fields names put l s | PNull => Some s | _ => None end.

Definition kv_names : list string := ["key"; "value"].
Definition put_kv (i : nat) (v : pjson) (kv : KeyValuePair) : option KeyValuePair :=
  match i with
  | O => k ← get_string kv.(Key) v; Some (mkKV k kv.(Value))
  | _ => x ← get_string kv.(Value) v; Some (mkKV kv.(Key) x)
  end.

(** A slice with the array behind it: decoding into a slice that already
    holds elements reuses them. *)
Fixpoint fill_slice (backing : list KeyValuePair) (l : list pjson) : option (list KeyValuePair) :=
  match l with
  | [] => Some backing
  | j :: l =>
      kv ← get_struct kv_names put_kv (default (mkKV "" "") (head backing)) j;
      rest ← fill_slice (tail backing) l;
      Some (kv :: rest)
  end.

(** A transaction being decoded, with the array behind its metadata. *)
Record decoding : Type := mkDecoding { d_tx : Tx; d_backing : list KeyValuePair }.

Definition zero_tx : Tx := mkTx "" 0 "" "" 0 0 0 "" "" "" [] 0.

Definition set_md (m : list KeyValuePair) (t : Tx) : Tx :=
  mkTx t.(ID) t.(ChainID) t.(From) t.(To) t.(Amount) t.(Fee) t.(Nonce) t.(PublicKey) t.(Signature) t.(AssetID) m t.(Timestamp).

Definition put_metadata (j : pjson) (d : decoding) : option decoding :=
  match j with
  | PNull | PArr [] => Some (mkDecoding (set_md [] d.(d_tx)) [])
  | PArr l => b ← fill_slice d.(d_backing) l; Some (mkDecoding (set_md (take (length l) b) d.(d_tx)) b)
  | _ => None
  end.

(** The [json] tags of [Tx], in order. *)
Definition tx_names : list string :=
  ["id"; "chain_id"; "from"; "to"; "amount"; "fee"; "nonce"; "public_key"; "signature"; "asset_id"; "metadata"; "timestamp"].

Definition put_tx (i : nat) (v : pjson) (d : decoding) : option decoding :=
  let t := d.(d_tx) in
  let str (old : string) (f : string → Tx) := s ← get_string old v; Some (mkDecoding (f s) d.(d_backing)) in
  let num (old : Z) (f : Z → Tx) := n ← get_uint64 old v; Some (mkDecoding (f n) d.(d_backing)) in
  match i with
  | 0%nat => str t.(ID) (λ x, mkTx x t.(ChainID) t.(From) t.(To) t.(Amount) t.(Fee) t.(Nonce) t.(PublicKey) t.(Signature) t.(AssetID) t.(Metadata) t.(Timestamp))
  | 1%nat => num t.(ChainID) (λ x, mkTx t.(ID) x t.(From) t.(To) t.(Amount) t.(Fee) t.(Nonce) t.(PublicKey) t.(Signature) t.(AssetID) t.(Metadata) t.(Timestamp))
  | 2%nat => str t.(From) (λ x, mkTx t.(ID) t.(ChainID) x t.(To) t.(Amount) t.(Fee) t.(Nonce) t.(PublicKey) t.(Signature) t.(AssetID) t.(Metadata) t.(Timestamp))
  | 3%nat => str t.(To) (λ x, mkTx t.(ID) t.(ChainID) t.(From) x t.(Amount) t.(Fee) t.(Nonce) t.(PublicKey) t.(Signature) t.(AssetID) t.(Metadata) t.(Timestamp))
  | 4%nat => num t.(Amount) (λ x, mkTx t.(ID) t.(ChainID) t.(From) t.(To) x t.(Fee) t.(Nonce) t.(PublicKey) t.(Signature) t.(AssetID) t.(Metadata) t.(Timestamp))
  | 5%nat => num t.(Fee) (λ x, mkTx t.(ID) t.(ChainID) t.(From) t.(To) t.(Amount) x t.(Nonce) t.(PublicKey) t.(Signature) t.(AssetID) t.(Metadata) t.(Timestamp))
  | 6%nat => num t.(Nonce) (λ x, mkTx t.(ID) t.(ChainID) t.(From) t.(To) t.(Amount) t.(Fee) x t.(PublicKey) t.(Signature) t.(AssetID) t.(Metadata) t.(Timestamp))
  | 7%nat => str t.(PublicKey) (λ x, mkTx t.(ID) t.(ChainID) t.(From) t.(To) t.(Amount) t.(Fee) t.(Nonce) x t.(Signature) t.(AssetID) t.(Metadata) t.(Timestamp))
  | 8%nat => str t.(Signature) (λ x, mkTx t.(ID) t.(ChainID) t.(From) t.(To) t.(Amount) t.(Fee) t.(Nonce) t.(PublicKey) x t.(AssetID) t.(Metadata) t.(Timestamp))
  | 9%nat => str t.(AssetID) (λ x, mkTx t.(ID) t.(ChainID) t.(From) t.(To) t.(Amount) t.(Fee) t.(Nonce) t.(PublicKey) t.(Signature) x t.(Metadata) t.(Timestamp))
  | 10%nat => put_metadata v d
  | _ => n ← get_int64 t.(Timestamp) v;
         Some (mkDecoding (mkTx t.(ID) t.(ChainID) t.(From) t.(To) t.(Amount) t.(Fee) t.(Nonce) t.(PublicKey) t.(Signature) t.(AssetID) t.(Metadata) n) d.(d_backing))
  end.

(** [json.Unmarshal(raw, &tx)] into a zero [Tx]. *)
Definition unmarshal_tx (raw : string) : option Tx :=
  j ← parse_json raw;
  d ← get_struct tx_names put_tx (mkDecoding zero_tx []) j;
  Some d.(d_tx).

(** [json.Marshal(tx)] *)
Definition marshal_tx (t : Tx) : string := marshal (tx_json t).

(* ------------------------------------------------------------------ *)
(** * Unmarshal after Marshal *)

(** What the Go types of the fields allow, for ASCII strings (invalid UTF-8
    would be replaced when printed). *)
Definition kv_ascii (kv : KeyValuePair) : bool := sall is_ascii kv.(Key) && sall is_ascii kv.(Value).

Definition in_i64 (z : Z) : Prop := -9223372036854775808 ≤ z < 9223372036854775808.

Definition wire_tx (t : Tx) : Prop :=
  forallb (sall is_ascii) [t.(ID); t.(From); t.(To); t.(PublicKey); t.(Signature); t.(AssetID)] = true ∧
  forallb kv_ascii t.(Metadata) = true ∧
  Forall in_u64 [t.(ChainID); t.(Amount); t.(Fee); t.(Nonce)] ∧ in_i64 t.(Timestamp).

Lemma get_uint64_fmt old n : in_u64 n → get_uint64 old (PNum (fmt_d n)) = Some n.
Proof. intros Hn. unfold get_uint64. by rewrite (proj1 (ParseUint_fmt_d n Hn)). Qed.

Lemma digits_pretty_pos p : digits (pretty (N.pos p)) 0 = Some (Z.pos p).
Proof. unfold pretty, pretty_N. rewrite decide_False by done. by rewrite digits_pretty_go. Qed.

Lemma digit_not_minus c : is_digit c = true → is_char c 45 = false.
Proof. unfold is_digit, is_char. rewrite andb_true_iff, !Z.leb_le. intros [? ?]. apply Z.eqb_neq. lia. Qed.

Lemma ParseInt_fmt_d n : in_i64 n → ParseInt (fmt_d n) = Some n.
Proof.
  intros Hn. destruct n as [|p|p]; [done| |]; destruct (pretty_pos_shape p) as (c & t & He & _ & Hd).
  - change (fmt_d (Z.pos p)) with (pretty (N.pos p)). pose proof (digits_pretty_pos p) as Hp. rewrite He in *.
    cbn [sall] in Hd. apply andb_true_iff in Hd as [Hc _]. unfold ParseInt. rewrite (digit_not_minus c Hc), Hp. simpl.
    destruct (Z.ltb_spec (Z.pos p) 9223372036854775808); [done|unfold in_i64 in Hn; lia].
  - change (fmt_d (Z.neg p)) with (String "-" (pretty (N.pos p))). pose proof (digits_pretty_pos p) as Hp. rewrite He in *.
    unfold ParseInt. change (is_char "-" 45) with true. cbv iota. rewrite Hp. simpl.
    destruct (Z.leb_spec (Z.pos p) 9223372036854775808); [done|unfold in_i64 in Hn; lia].
Qed.

Lemma fill_slice_kv l : fill_slice [] (map (parsed ∘ kv_json) l) = Some l.
Proof. induction l as [|[k v] l IH]; [done|]. cbn [map fill_slice head tail]. simpl in IH |- *. by rewrite IH. Qed.

(** One field of a struct. *)
Lemma set_fields_cons {S} names (put : nat → pjson → S → option S) k v l s i s' :
  field_index names k = Some i → put i v s = Some s' →
  set_fields names put ((k, v) :: l) s = set_fields names put l s'.
Proof. intros Hi Hp. cbn [set_fields]. by rewrite Hi, Hp. Qed.

(** The first key of the object picks its field; [tac] reads the value. *)
Ltac set_field tac :=
  lazymatch goal with
  | |- context [set_fields ?names ?put ((?k, ?v) :: ?l) ?s] =>
      let i := eval vm_compute in (field_index names k) in
      let H := fresh in
      assert (field_index names k = i) as H by (vm_compute; reflexivity);
      erewrite (set_fields_cons names put k v l s _ _ H); [|cbn [put_tx d_tx d_backing zero_tx ID ChainID From To Amount Fee Nonce PublicKey Signature AssetID Metadata Timestamp]; tac; reflexivity];
      clear H; cbn beta
  end.

Lemma put_metadata_kv l d : l ≠ [] → d.(d_backing) = [] →
  put_metadata (PArr (map (parsed ∘ kv_json) l)) d = Some (mkDecoding (set_md l d.(d_tx)) l).
Proof.
  intros Hne Hb. unfold put_metadata. destruct (map (parsed ∘ kv_json) l) as [|y m] eqn:Hm; [by destruct l|].
  rewrite <- Hm, Hb, fill_slice_kv, length_map. simpl. by rewrite take_ge by done.
Qed.

Lemma tx_json_clean t : wire_tx t → clean (tx_json t) = true.
Proof.
  intros (Hs & Hm & _). unfold tx_json. cbn [clean]. rewrite !forallb_app. simpl in Hs.
  rewrite !andb_true_iff in Hs. destruct Hs as (H1 & H2 & H3 & H4 & H5 & H6 & _).
  assert (forallb clean (map kv_json (Metadata t)) = true) as Hk.
  { induction (Metadata t) as [|kv l IH]; [done|]. simpl in Hm |- *. apply andb_true_iff in Hm as [Ha Hb].
    unfold kv_ascii in Ha. apply andb_true_iff in Ha as [-> ->]. by rewrite IH. }
  unfold field, field_str_oe, field_arr_oe, field_num_oe. repeat case_match; simpl; rewrite ?H1, ?H2, ?H3, ?H4, ?H5, ?H6; simpl; try done;
    destruct (Metadata t); simplify_eq/=; by rewrite ?Hk.
Qed.

Lemma tx_json_depth t : (depth (tx_json t) ≤ 3)%nat.
Proof.
  assert (foldr (λ x n, Nat.max (depth x) n) 0%nat (map kv_json (Metadata t)) ≤ 1)%nat as Hk.
  { induction (Metadata t) as [|kv l IH]; [simpl; lia|]. cbn [map foldr]. change (depth (kv_json kv)) with 1%nat. lia. }
  unfold tx_json, field, field_str_oe, field_arr_oe, field_num_oe. repeat case_match; simplify_eq/=; try lia;
    destruct (Metadata t); simplify_eq/=; lia.
Qed.

Lemma parsed_obj l : parsed (JObj l) = PObj (map (λ kv, (kv.1, parsed kv.2)) l).
Proof. done. Qed.

Lemma field_arr_metadata (l : list KeyValuePair) (r : list (string * pjson)) : l ≠ [] →
  (map (λ kv, (kv.1, parsed kv.2)) (field_arr_oe "metadata" (map kv_json l)) ++ r)%list =
  ("metadata", PArr (map (parsed ∘ kv_json) l)) :: r.
Proof. destruct l as [|kv l]; [done|]. intros _. simpl. by rewrite map_map. Qed.

Lemma unmarshal_marshal t : wire_tx t → unmarshal_tx (marshal_tx t) = Some t.
Proof.
  intros Hw. unfold unmarshal_tx, marshal_tx. rewrite parse_marshal; [|by apply tx_json_clean|].
  2: { etrans; [apply tx_json_depth|]. apply Nat.leb_le. reflexivity. }
  destruct Hw as (_ & _ & Hu & Hi). rewrite !Forall_cons in Hu. destruct Hu as (Hc & Ha & Hf & Hn & _).
  destruct t as [id cid from to amt fee nonce pk sg aid md ts]. unfold tx_json. cbn -[map parsed field_str_oe field_arr_oe field_num_oe] in *.
  rewrite parsed_obj, !map_cons, !map_app. cbn [get_struct fst snd parsed]. do 9 (set_field ltac:(cbn [get_string mbind option_bind]; rewrite ?get_uint64_fmt by done)).
  cbn [ID ChainID From To Amount Fee Nonce PublicKey Signature AssetID Metadata Timestamp zero_tx].
  unfold field_str_oe, field_num_oe. destruct (empty_str aid) eqn:Haid.
  all: cbn [map app fst snd parsed]. 1: apply bool_decide_eq_true in Haid as ->. 2: set_field idtac.
  all: destruct (decide (md = [])) as [->|Hmd]; [cbn [map field_arr_oe app]|rewrite field_arr_metadata by done; set_field ltac:(rewrite put_metadata_kv by done)].
  all: destruct (Z.eqb_spec ts 0) as [->|Hts]; [done|]; cbn [map fst snd parsed].
  all: set_field ltac:(cbn [get_int64]; rewrite ParseInt_fmt_d by done); done.
Qed.
