(* ===== verification/Base64.v ===== *)
(** [base64.StdEncoding] of the standard library: the encoder, the decoder
    (line breaks are skipped; the unused bits of a final quantum are not
    checked), and the round trip. *)
From stdpp Require Import base strings list.
From Stdlib Require Import Ascii.
From S2P Require Import Prelude GoStd.

#[local] Open Scope string_scope.
#[local] Open Scope Z_scope.

Definition b64_digit (z : Z) : ascii :=
  if z <? 26 then chr (65 + z) else if z <? 52 then chr (71 + z) else if z <? 62 then chr (z - 4)
  else if z =? 62 then chr 43 else chr 47.

Definition b64_val (c : ascii) : option Z :=
  let z := code c in
  if (65 <=? z) && (z <=? 90) then Some (z - 65)
  else if (97 <=? z) && (z <=? 122) then Some (z - 71)
  else if (48 <=? z) && (z <=? 57) then Some (z + 4)
  else if z =? 43 then Some 62 else if z =? 47 then Some 63 else None.

Definition pad_char : ascii := chr 61.

(** [EncodeToString] *)
Fixpoint b64_encode (s : string) : string :=
  match s with
  | EmptyString => ""
  | String a EmptyString =>
      let x := code a in
      String (b64_digit (x / 4)) (String (b64_digit (x mod 4 * 16)) (String pad_char (String pad_char "")))
  | String a (String b EmptyString) =>
      let x := code a in let y := code b in
      String (b64_digit (x / 4)) (String (b64_digit (x mod 4 * 16 + y / 16)) (String (b64_digit (y mod 16 * 4)) (String pad_char "")))
  | String a (String b (String c s)) =>
      let x := code a in let y := code b in let z := code c in
      String (b64_digit (x / 4)) (String (b64_digit (x mod 4 * 16 + y / 16))
        (String (b64_digit (y mod 16 * 4 + z / 64)) (String (b64_digit (z mod 64)) (b64_encode s))))
  end.

Definition is_newline (c : ascii) : bool := (code c =? 10) || (code c =? 13).

Fixpoint strip_newlines (s : string) : string :=
  match s with
  | EmptyString => ""
  | String c s => if is_newline c then strip_newlines s else String c (strip_newlines s)
  end.

Definition byte_of (z : Z) : ascii := chr (z mod 256).

(** Quanta of four digits; padding only in the last one. *)
Fixpoint b64_quanta (s : string) : option string :=
  match s with
  | EmptyString => Some ""
  | String a (String b (String c (String d s))) =>
      match b64_val a, b64_val b with
      | Some x, Some y =>
          let b0 := byte_of (x * 4 + y / 16) in
          match b64_val c with
          | Some z =>
              let b1 := byte_of (y * 16 + z / 4) in
              match b64_val d with
              | Some w => (λ t, String b0 (String b1 (String (byte_of (z * 64 + w)) t))) <$> b64_quanta s
              | None => if (code d =? 61) && empty_str s then Some (String b0 (String b1 "")) else None
              end
          | None => if (code c =? 61) && (code d =? 61) && empty_str s then Some (String b0 "") else None
          end
      | _, _ => None
      end
  | _ => None
  end.

(** [DecodeString] *)
Definition b64_decode (s : string) : option string := b64_quanta (strip_newlines s).

(* ------------------------------------------------------------------ *)
(** * Round trip *)

(** Digits and their values, by running through all 64. *)
Lemma b64_digit_ok z : 0 ≤ z < 64 → b64_val (b64_digit z) = Some z ∧ is_newline (b64_digit z) = false.
Proof.
  intros Hz. set (ok z := bool_decide (b64_val (b64_digit z) = Some z) && negb (is_newline (b64_digit z))).
  assert (forallb (λ n, ok (Z.of_nat n)) (seq 0 64) = true) as Hall by (vm_compute; reflexivity).
  rewrite forallb_forall in Hall. specialize (Hall (Z.to_nat z) ltac:(apply in_seq; lia)).
  unfold ok in Hall. rewrite Z2Nat.id in Hall by lia. apply andb_true_iff in Hall as [H1%bool_decide_eq_true H2%negb_true_iff]. done.
Qed.

Lemma byte_back z c : z mod 256 = code c → byte_of z = c.
Proof. unfold byte_of. intros ->. apply chr_code. Qed.

(** Induction in steps of three bytes. *)
Lemma quantum_ind (P : string → Prop) :
  P "" → (∀ a, P (String a "")) → (∀ a b, P (String a (String b ""))) →
  (∀ a b c s, P s → P (String a (String b (String c s)))) → ∀ s, P s.
Proof.
  intros H0 H1 H2 H3. assert (∀ n s, (String.length s ≤ n)%nat → P s) as H; [|intros s; by eapply H].
  induction n as [|n IH]; intros s; (destruct s as [|a [|b [|c s]]]; [done..|]); simpl; intros Hl; [lia|].
  apply H3, IH. lia.
Qed.

Ltac quantum_bounds :=
  repeat match goal with
  | c : ascii |- _ => lazymatch goal with H : 0 ≤ code c < 256 |- _ => fail | _ => pose proof (code_range c) end
  end.

Ltac digit z := let H := fresh in
  assert (0 ≤ z < 64) as H by (Z.to_euclidean_division_equations; lia);
  destruct (b64_digit_ok z H) as [-> ?]; clear H.

Lemma strip_encode s : strip_newlines (b64_encode s) = b64_encode s.
Proof.
  assert (∀ z t, 0 ≤ z < 64 → strip_newlines (String (b64_digit z) t) = String (b64_digit z) (strip_newlines t)) as Hd.
  { intros z t Hz. cbn [strip_newlines]. by rewrite (proj2 (b64_digit_ok z Hz)). }
  induction s as [|a|a b|a b c s IH] using quantum_ind; [done|..]; cbn [b64_encode]; quantum_bounds;
    rewrite !Hd by (Z.to_euclidean_division_equations; lia); [done|done|by rewrite IH].
Qed.

(** Decoding what was encoded. *)
Lemma b64_roundtrip s : b64_decode (b64_encode s) = Some s.
Proof.
  unfold b64_decode. rewrite strip_encode.
  induction s as [|a|a b|a b c s IH] using quantum_ind; [done|..]; cbn [b64_encode b64_quanta]; quantum_bounds.
  - digit (code a / 4). digit (code a mod 4 * 16). change (b64_val pad_char) with (@None Z). cbn.
    do 2 f_equal. apply byte_back. Z.to_euclidean_division_equations. lia.
  - digit (code a / 4). digit (code a mod 4 * 16 + code b / 16). digit (code b mod 16 * 4).
    change (b64_val pad_char) with (@None Z). cbn -[Z.div Z.modulo].
    f_equal. f_equal; [apply byte_back; Z.to_euclidean_division_equations; lia|]. f_equal.
    apply byte_back. Z.to_euclidean_division_equations. lia.
  - digit (code a / 4). digit (code a mod 4 * 16 + code b / 16). digit (code b mod 16 * 4 + code c / 64). digit (code c mod 64).
    rewrite IH. cbn -[Z.div Z.modulo]. f_equal. f_equal; [apply byte_back; Z.to_euclidean_division_equations; lia|].
    f_equal; [|f_equal]; apply byte_back; Z.to_euclidean_division_equations; lia.
Qed.
