(* ===== verification/Citizen.v ===== *)
(** Citizen staking (internal/chain/citizen.go): locking balance into a stake,
    releasing it, and rewards paid out of the treasury. *)
From stdpp Require Import base strings list gmap.
From S2P Require Import Prelude GoStd Types Ledger.

#[local] Open Scope string_scope.
#[local] Open Scope Z_scope.

Definition SecondsPerYear : Z := 365 * 24 * 60 * 60.

Definition ErrCitizenRewardsNotConfigured : error := Err "citizen staking rewards are not configured".
Definition ErrNoStake : error := Err "address has no citizen stake".
Definition ErrInsufficientStake : error := Err "unstake amount exceeds current stake".

Definition CitizenStake_zero : CitizenStake := mkCitizenStake 0 0 0.

(** [s.CitizenStakes[addr]] *)
Definition stake_at (s : State) (addr : Address) : CitizenStake :=
  default CitizenStake_zero (s.(CitizenStakes) !! addr).

Definition GetCitizenStake (s : State) (addr : Address) : CitizenStake := stake_at s addr.

Definition put_stake (addr : Address) (st : CitizenStake) (s : State) : State :=
  set_CitizenStakes (<[addr := st]> s.(CitizenStakes)) s.

(** The first stake of an address starts its clock. *)
Definition start_clock (now : Z) (stake : CitizenStake) : CitizenStake :=
  if stake.(cs_StakedAt) =? 0 then mkCitizenStake stake.(cs_Amount) now now else stake.

(** [State.StakeCitizen] *)
Definition StakeCitizen (addr : Address) (amount now : Z) : SM State unit :=
  fail_if (amount =? 0) (Err "stake amount must be positive");;
  s ← get;
  match s.(Accounts) !! addr with
  | None => throw ErrInsufficientFunds
  | Some acc =>
      fail_if (acc.(Balance) <? amount) ErrInsufficientFunds;;
      let acc := set_Balance (acc.(Balance) - amount) acc in
      modify (put_acct addr acc);;
      let stake := start_clock now (stake_at s addr) in
      match safeAdd stake.(cs_Amount) amount with
      | inr _ =>
          modify (put_acct addr (set_Balance (acc.(Balance) + amount) acc));;
          throw (Err "stake amount overflow")
      | inl next =>
          modify (put_stake addr
            (mkCitizenStake next stake.(cs_StakedAt) stake.(cs_LastClaimAt)))
      end
  end.

(** [State.UnstakeCitizen] *)
Definition UnstakeCitizen (addr : Address) (amount : Z) : SM State unit :=
  fail_if (amount =? 0) (Err "unstake amount must be positive");;
  s ← get;
  match s.(CitizenStakes) !! addr with
  | None => throw ErrNoStake
  | Some stake =>
      fail_if (stake.(cs_Amount) =? 0) ErrNoStake;;
      fail_if (stake.(cs_Amount) <? amount) ErrInsufficientStake;;
      let left := stake.(cs_Amount) - amount in
      modify (if left =? 0 then set_CitizenStakes (delete addr s.(CitizenStakes))
              else put_stake addr (mkCitizenStake left stake.(cs_StakedAt) stake.(cs_LastClaimAt)));;
      let acc := acct s addr in
      match safeAdd acc.(Balance) amount with
      | inr _ => throw (Err "balance overflow on unstake")
      | inl newBal => modify (put_acct addr (set_Balance newBal acc))
      end
  end.

(** [State.pendingCitizenRewardsLocked]. The products are [uint64] products. *)
Definition pendingCitizenRewards (s : State) (addr : Address) (now : Z) : Z :=
  if s.(CitizenRewardRateBpsPerYear) =? 0 then 0
  else match s.(CitizenStakes) !! addr with
  | None => 0
  | Some stake =>
      if stake.(cs_Amount) =? 0 then 0
      else
        let elapsed := i64 (now - stake.(cs_LastClaimAt)) in
        if elapsed <=? 0 then 0
        else
          let numerator :=
            u64 (u64 (stake.(cs_Amount) * s.(CitizenRewardRateBpsPerYear)) * u64 elapsed) in
          numerator / (10000 * SecondsPerYear)
  end.

(** [elapsedCoveredBySeconds] *)
Definition elapsedCoveredBySeconds (stake : CitizenStake) (payout rateBps : Z) : Z :=
  if (stake.(cs_Amount) =? 0) || (rateBps =? 0) then 0
  else
    let denom := u64 (stake.(cs_Amount) * rateBps) in
    if denom =? 0 then 0
    else i64 (u64 (u64 (payout * 10000) * SecondsPerYear) / denom).

(** [State.ClaimCitizenRewards] *)
Definition ClaimCitizenRewards (addr : Address) (now : Z) : SM State Z :=
  s ← get;
  fail_if (empty_str s.(TreasuryAddress) || (s.(CitizenRewardRateBpsPerYear) =? 0))
    ErrCitizenRewardsNotConfigured;;
  let pending := pendingCitizenRewards s addr now in
  if pending =? 0 then mret 0
  else
    let treasury := acct s s.(TreasuryAddress) in
    let payout := if treasury.(Balance) <? pending then treasury.(Balance) else pending in
    if payout =? 0 then mret 0
    else
      modify (put_acct s.(TreasuryAddress) (set_Balance (treasury.(Balance) - payout) treasury));;
      acc ← gets (λ s, acct s addr);
      match safeAdd acc.(Balance) payout with
      | inr _ =>
          modify (put_acct s.(TreasuryAddress) treasury);;
          throw (Err "balance overflow on reward claim")
      | inl newBal =>
          modify (put_acct addr (set_Balance newBal acc));;
          let stake := stake_at s addr in
          let last :=
            if payout =? pending then now
            else i64 (stake.(cs_LastClaimAt)
                      + elapsedCoveredBySeconds stake payout s.(CitizenRewardRateBpsPerYear)) in
          modify (put_stake addr (mkCitizenStake stake.(cs_Amount) stake.(cs_StakedAt) last));;
          mret payout
      end.

(* ------------------------------------------------------------------ *)
(** * Supply *)

Lemma citizen_locked_put addr st s :
  citizen_locked (put_stake addr st s) = citizen_locked s - (stake_at s addr).(cs_Amount) + st.(cs_Amount).
Proof.
  unfold citizen_locked, stake_at. simpl. rewrite msum_insert. unfold at_or0.
  by destruct (s.(CitizenStakes) !! addr).
Qed.

Lemma supply_put_stake addr st s :
  supply (put_stake addr st s) = supply s - (stake_at s addr).(cs_Amount) + st.(cs_Amount).
Proof. unfold supply. rewrite citizen_locked_put. unfold spendable, validator_locked. simpl. lia. Qed.

Lemma ledger_ok_put_stake addr st s :
  ledger_ok s → 0 ≤ st.(cs_Amount) → supply (put_stake addr st s) ≤ MaxUint64 →
  ledger_ok (put_stake addr st s).
Proof.
  intros [H1 H2 H3 H4] Hst Hs. constructor; [done| |done..].
  intros b st'. simpl. intros [[-> <-]|[_ ?]]%lookup_insert_Some; eauto.
Qed.

Lemma supply_del_stake addr s :
  supply (set_CitizenStakes (delete addr s.(CitizenStakes)) s) = supply s - (stake_at s addr).(cs_Amount).
Proof.
  unfold supply, citizen_locked, spendable, validator_locked, stake_at. simpl.
  rewrite msum_delete. unfold at_or0. destruct (s.(CitizenStakes) !! addr); simpl; lia.
Qed.

Lemma ledger_ok_del_stake addr s :
  ledger_ok s → ledger_ok (set_CitizenStakes (delete addr s.(CitizenStakes)) s).
Proof.
  intros [H1 H2 H3 H4]. constructor; [done| |done|].
  - intros b st. simpl. intros [_ ?]%lookup_delete_Some. eauto.
  - rewrite supply_del_stake. unfold stake_at. destruct (s.(CitizenStakes) !! addr) eqn:Ha; simpl; [|lia].
    apply H2 in Ha. lia.
Qed.

Lemma stake_at_range s addr : ledger_ok s → 0 ≤ (stake_at s addr).(cs_Amount) ≤ citizen_locked s.
Proof.
  intros Hok. unfold stake_at. destruct (s.(CitizenStakes) !! addr) as [st|] eqn:Hs; simpl.
  - split; [by eapply ok_citizens|]. eapply msum_lookup_le; [apply Hok|done].
  - split; [done|]. by apply citizen_locked_nonneg.
Qed.

Lemma start_clock_amount now st : (start_clock now st).(cs_Amount) = st.(cs_Amount).
Proof. unfold start_clock. by case_match. Qed.

Lemma stake_at_put_eq addr st s : stake_at (put_stake addr st s) addr = st.
Proof. unfold stake_at. simpl. by rewrite lookup_insert_eq. Qed.

Lemma stake_at_put_ne addr b st s : b ≠ addr → stake_at (put_stake addr st s) b = stake_at s b.
Proof. intros. unfold stake_at. simpl. by rewrite lookup_insert_ne. Qed.

Lemma acct_lookup s a acc : s.(Accounts) !! a = Some acc → acct s a = acc.
Proof. unfold acct. by intros ->. Qed.

Lemma stake_lookup s a st : s.(CitizenStakes) !! a = Some st → stake_at s a = st.
Proof. unfold stake_at. by intros ->. Qed.

(** Everything but accounts and citizen stakes is untouched. *)
Definition citizen_frame (s s' : State) : Prop :=
  s' = set_CitizenStakes s'.(CitizenStakes) (set_Accounts s'.(Accounts) s).

Lemma citizen_frame_put_acct s s1 a acc : citizen_frame s s1 → citizen_frame s (put_acct a acc s1).
Proof. unfold citizen_frame. intros H. by rewrite H. Qed.

Lemma put_acct_undo s addr acc acc1 :
  s.(Accounts) !! addr = Some acc → put_acct addr acc (put_acct addr acc1 s) = s.
Proof.
  intros Ha. destruct s. unfold put_acct, set_Accounts. simpl in *.
  by rewrite insert_insert_eq, insert_id.
Qed.

(** Staking moves [amount] from the balance into the stake; a failed attempt
    changes nothing. *)
Lemma StakeCitizen_spec addr amount now s :
  ledger_ok s → 0 ≤ amount →
  wp (StakeCitizen addr amount now)
    (λ _ s', ledger_ok s' ∧ supply s' = supply s ∧ citizen_frame s s' ∧
       amount ≤ (acct s addr).(Balance) ∧
       acct s' addr = set_Balance ((acct s addr).(Balance) - amount) (acct s addr) ∧
       (stake_at s' addr).(cs_Amount) = (stake_at s addr).(cs_Amount) + amount ∧
       (∀ b, b ≠ addr → acct s' b = acct s b ∧ stake_at s' b = stake_at s b))
    (λ _ s', s' = s) s.
Proof.
  intros Hok Hamt. unfold StakeCitizen. wp_go; try done; rename a into acc.
  - apply Z.ltb_ge in H0. apply safeAdd_inl in Heqs0 as [_ ->].
    pose proof (acct_lookup _ _ _ Heqo) as Hacc. rewrite !Hacc.
    pose proof (ok_supply s Hok). pose proof (stake_at_range s addr Hok).
    rewrite start_clock_amount. set (s1 := put_acct addr _ s).
    assert (supply s1 = supply s - amount) as Hs1
      by (unfold s1; rewrite supply_put, Hacc; simpl; lia).
    assert (ledger_ok s1) as Hok1 by (apply ledger_ok_put; simpl; [done|lia|unfold s1 in *; lia]).
    match goal with |- ledger_ok (put_stake _ ?x _) ∧ _ => set (st := x) end.
    assert (supply (put_stake addr st s1) = supply s) as Hs2.
    { rewrite supply_put_stake, Hs1. change (stake_at s1 addr) with (stake_at s addr). simpl. lia. }
    split_and!; try done.
    + apply ledger_ok_put_stake; simpl; [done|lia|]. rewrite Hs2. lia.
    + apply acct_put_eq.
    + by rewrite stake_at_put_eq.
    + intros b Hb. rewrite stake_at_put_ne by done. split; [|done]. by apply acct_put_ne.
  - simpl. rewrite Z.sub_add. by rewrite put_acct_undo; destruct acc.
Qed.

(** Unstaking moves [amount] back; a failed attempt changes nothing. *)
Lemma UnstakeCitizen_spec addr amount s :
  ledger_ok s → 0 ≤ amount →
  wp (UnstakeCitizen addr amount)
    (λ _ s', ledger_ok s' ∧ supply s' = supply s ∧ citizen_frame s s' ∧
       amount ≤ (stake_at s addr).(cs_Amount) ∧
       acct s' addr = set_Balance ((acct s addr).(Balance) + amount) (acct s addr) ∧
       (stake_at s' addr).(cs_Amount) = (stake_at s addr).(cs_Amount) - amount ∧
       (∀ b, b ≠ addr → acct s' b = acct s b ∧ stake_at s' b = stake_at s b))
    (λ _ s', s' = s) s.
Proof.
  intros Hok Hamt. unfold UnstakeCitizen. wp_go; try done; rename c into st;
    pose proof (stake_lookup _ _ _ Heqo) as Hst; pose proof (ok_supply s Hok) as Hsup;
    pose proof (stake_at_range s addr Hok) as Hr; rewrite Hst in Hr; apply Z.ltb_ge in H1;
    pose proof (acct_balance_range s Hok addr) as Hbal;
    pose proof (validator_locked_nonneg s Hok).
  - apply safeAdd_inl in Heqs0 as [Hle ->]. set (left := cs_Amount st - amount).
    set (s1 := (if left =? 0 then _ else _) s).
    assert (ledger_ok s1 ∧ supply s1 = supply s - amount ∧ s1.(Accounts) = s.(Accounts) ∧
      (stake_at s1 addr).(cs_Amount) = left ∧
      (∀ b, b ≠ addr → stake_at s1 b = stake_at s b) ∧ citizen_frame s s1) as (Hok1 & Hs1 & Ha1 & Hst1 & Ho1 & Hf1).
    { unfold s1. destruct (Z.eqb_spec left 0) as [Hl|Hl].
      - rewrite supply_del_stake, Hst. split_and!; try done.
        + by apply ledger_ok_del_stake.
        + lia.
        + unfold stake_at. simpl. rewrite lookup_delete_eq. simpl. lia.
        + intros b Hb. unfold stake_at. simpl. by rewrite lookup_delete_ne.
      - rewrite supply_put_stake, Hst. split_and!; try done; simpl.
        + apply ledger_ok_put_stake; [done|simpl; lia|]. rewrite supply_put_stake, Hst. simpl. lia.
        + lia.
        + by rewrite stake_at_put_eq.
        + intros b Hb. by apply stake_at_put_ne. }
    assert (acct s1 addr = acct s addr) as Hacc1 by (unfold acct; by rewrite Ha1).
    split_and!.
    + apply ledger_ok_put; simpl; [done|lia|]. rewrite supply_put, Hs1, Hacc1. simpl. lia.
    + rewrite supply_put, Hs1, Hacc1. simpl. lia.
    + by apply citizen_frame_put_acct.
    + rewrite Hst. lia.
    + by rewrite acct_put_eq.
    + rewrite Hst. exact Hst1.
    + intros b Hb. rewrite acct_put_ne by done. split; [unfold acct; by rewrite Ha1|]. by apply Ho1.
  - apply safeAdd_inr in Heqs0 as [Hlt _]. unfold supply in Hsup. lia.
Qed.

Lemma pendingCitizenRewards_range s addr now : in_u64 (pendingCitizenRewards s addr now).
Proof.
  unfold pendingCitizenRewards. assert (in_u64 0) by (unfold in_u64, MaxUint64; lia).
  repeat (case_match; try done).
  match goal with |- in_u64 (u64 ?x / _) => pose proof (u64_range x) as Hr; generalize dependent (u64 x) end.
  intros n [? ?]. unfold in_u64, SecondsPerYear in *. split.
  - apply Z.div_pos; lia.
  - etrans; [|eassumption]. apply Z.div_le_upper_bound; lia.
Qed.

Lemma pendingCitizenRewards_no_stake s addr now :
  s.(CitizenStakes) !! addr = None → pendingCitizenRewards s addr now = 0.
Proof. unfold pendingCitizenRewards. intros ->. by case_match. Qed.

(** A claim pays [min(accrued, treasury balance)] out of the treasury: it
    creates no coin, pays no more than accrued, and leaves every other
    balance and every staked amount alone. *)
Lemma ClaimCitizenRewards_spec addr now s :
  ledger_ok s →
  wp (ClaimCitizenRewards addr now)
    (λ payout s', ledger_ok s' ∧ supply s' = supply s ∧ citizen_frame s s' ∧
       payout = Z.min (pendingCitizenRewards s addr now) (acct s s.(TreasuryAddress)).(Balance) ∧
       (∀ b, (acct s' b).(Balance) =
          (acct s b).(Balance) + (if decide (b = addr) then payout else 0)
            - (if decide (b = s.(TreasuryAddress)) then payout else 0)) ∧
       (∀ b, (stake_at s' b).(cs_Amount) = (stake_at s b).(cs_Amount)) ∧
       (∀ b, (acct s' b).(AccNonce) = (acct s b).(AccNonce)))
    (λ _ s', s' = s) s.
Proof.
  intros Hok. unfold ClaimCitizenRewards.
  pose proof (acct_balance_range s Hok s.(TreasuryAddress)) as HT.
  assert (0 ≤ pendingCitizenRewards s addr now) as Hpd by apply pendingCitizenRewards_range.
  assert (∀ x, 0 = x → ledger_ok s ∧ supply s = supply s ∧ citizen_frame s s ∧ 0 = x ∧
    (∀ b, (acct s b).(Balance) = (acct s b).(Balance) + (if decide (b = addr) then 0 else 0)
            - (if decide (b = s.(TreasuryAddress)) then 0 else 0)) ∧
    (∀ b, (stake_at s b).(cs_Amount) = (stake_at s b).(cs_Amount)) ∧
    (∀ b, (acct s b).(AccNonce) = (acct s b).(AccNonce))) as Hzero.
  { intros x ?. split_and!; try done; [by destruct s|]. intros b. do 2 case_decide; lia. }
  wp_go; try done; set (T := s.(TreasuryAddress)) in *;
    set (pd := pendingCitizenRewards s addr now) in *.
  - apply Hzero. lia.
  - apply Hzero. destruct (Z.ltb_spec (Balance (acct s T)) pd); lia.
  - set (pay := if Balance (acct s T) <? pd then _ else pd) in *.
    assert (pay = Z.min pd (Balance (acct s T))) as Hpay by (unfold pay; destruct (Z.ltb_spec (Balance (acct s T)) pd); lia).
    apply Z.eqb_neq in Heqb0. apply safeAdd_inl in Heqs0 as [Hle ->].
    set (s1 := put_acct T _ s) in *.
    assert (supply s1 = supply s - pay) as Hs1 by (unfold s1; rewrite supply_put; simpl; lia).
    pose proof (ok_supply s Hok).
    assert (ledger_ok s1) as Hok1 by (apply ledger_ok_put; simpl; [done|lia|unfold s1 in *; lia]).
    pose proof (acct_balance_range s1 Hok1 addr). set (s2 := put_acct addr _ s1).
    assert (supply s2 = supply s) as Hs2 by (unfold s2; rewrite supply_put; simpl; lia).
    assert (ledger_ok s2) as Hok2 by (apply ledger_ok_put; simpl; [done|lia|unfold s2 in *; lia]).
    assert (∀ b, stake_at s2 b = stake_at s b) as Hst by done.
    split_and!; try done.
    + apply ledger_ok_put_stake; [done|apply stake_at_range, Hok|].
      rewrite supply_put_stake, Hst. simpl. lia.
    + rewrite supply_put_stake, Hst. simpl. lia.
    + intros b. change (acct (put_stake addr _ s2) b) with (acct s2 b). unfold s2.
      rewrite acct_put. unfold s1. rewrite !acct_put.
      repeat case_decide; subst; simpl; try done; try lia; congruence.
    + intros b. destruct (decide (b = addr)) as [->|Hne].
      * by rewrite stake_at_put_eq.
      * by rewrite stake_at_put_ne.
    + intros b. change (acct (put_stake addr _ s2) b) with (acct s2 b). unfold s2.
      rewrite acct_put. unfold s1. rewrite !acct_put. repeat case_decide; by subst.
  - exfalso. apply safeAdd_inr in Heqs0 as [Hlt _].
    set (pay := if Balance (acct s T) <? pd then _ else pd) in *.
    assert (pay ≤ Balance (acct s T)) by (unfold pay; destruct (Z.ltb_spec (Balance (acct s T)) pd); lia).
    pose proof (spendable_le_max s Hok). revert Hlt. rewrite acct_put.
    case_decide; [subst; simpl; lia|]. pose proof (acct_balance_le2 s Hok T addr ltac:(done)). lia.
Qed.

(* ------------------------------------------------------------------ *)
(** * Accrual *)

(** Reward arithmetic on unbounded integers, the specification of the
    [uint64] computation. *)
Definition ideal_reward (amount rate elapsed : Z) : Z :=
  amount * rate * elapsed / (10000 * SecondsPerYear).

(** As long as the product fits a [uint64] the program computes the ideal
    reward. *)
Lemma pendingCitizenRewards_exact s addr now st :
  s.(CitizenStakes) !! addr = Some st →
  0 ≤ st.(cs_Amount) → 0 ≤ s.(CitizenRewardRateBpsPerYear) →
  0 ≤ now - st.(cs_LastClaimAt) < 9223372036854775808 →
  st.(cs_Amount) * s.(CitizenRewardRateBpsPerYear) * (now - st.(cs_LastClaimAt)) ≤ MaxUint64 →
  pendingCitizenRewards s addr now =
    ideal_reward st.(cs_Amount) s.(CitizenRewardRateBpsPerYear) (now - st.(cs_LastClaimAt)).
Proof.
  intros Hst Ha Hr He Hm. unfold pendingCitizenRewards, ideal_reward. rewrite Hst.
  set (r := CitizenRewardRateBpsPerYear s) in *. set (a := cs_Amount st) in *.
  set (e := now - cs_LastClaimAt st) in *.
  assert (i64 e = e) as ->.
  { unfold i64. rewrite Z.mod_small; lia. }
  destruct (Z.eqb_spec r 0) as [->|]; [by rewrite Z.mul_0_r, Z.mul_0_l|].
  destruct (Z.eqb_spec a 0) as [->|]; [by rewrite !Z.mul_0_l|].
  destruct (Z.leb_spec e 0); [replace e with 0 by lia; by rewrite Z.mul_0_r|].
  unfold MaxUint64 in *. rewrite (u64_small (a * r)), (u64_small e), u64_small; try done;
    unfold in_u64, MaxUint64; nia.
Qed.

(** A claim the treasury cannot cover advances the clock only over the
    seconds the payout covers: what remains pending afterwards is at least
    what was not paid. *)
Lemma partial_claim_keeps_remainder amount rate elapsed payout :
  0 < amount → 0 < rate → 0 ≤ payout ≤ ideal_reward amount rate elapsed →
  let covered := payout * 10000 * SecondsPerYear / (amount * rate) in
  0 ≤ covered ≤ elapsed ∧
  ideal_reward amount rate elapsed - payout ≤ ideal_reward amount rate (elapsed - covered).
Proof.
  intros Ha Hr Hp covered. unfold ideal_reward in *. set (D := 10000 * SecondsPerYear) in *.
  assert (0 < D) as HD by (unfold D, SecondsPerYear; lia).
  assert (0 < amount * rate) as Har by nia.
  assert (payout * 10000 * SecondsPerYear = payout * D) as HeqD by (unfold D; ring).
  unfold covered. rewrite HeqD. set (c := payout * D / (amount * rate)).
  assert (amount * rate * c ≤ payout * D) as Hc by (apply Z.mul_div_le; lia).
  assert (payout * D ≤ amount * rate * elapsed) as Hpe.
  { pose proof (Z.mul_div_le (amount * rate * elapsed) D HD). nia. }
  split.
  - split; [apply Z.div_pos; nia|]. nia.
  - assert (amount * rate * elapsed / D - payout = (amount * rate * elapsed - payout * D) / D) as ->.
    { replace (amount * rate * elapsed - payout * D) with (amount * rate * elapsed + (- payout) * D) by ring.
      rewrite Z.div_add by lia. lia. }
    apply Z.div_le_mono; [done|nia].
Qed.
