(* ===== verification/Governance.v ===== *)
(** Treasury governance (internal/chain/governance.go): the founder proposes,
    addresses vote with their balance, and a proposal that passed is paid out
    of the treasury once. *)
From stdpp Require Import base strings list gmap.
From S2P Require Import Prelude GoStd Types Ledger.

#[local] Open Scope string_scope.
#[local] Open Scope Z_scope.

Definition GovernanceQuorumBasisPoints : Z := 500.

Definition put_proposal (id : string) (p : Proposal) (s : State) : State :=
  set_GovernanceProposals (<[id := p]> s.(GovernanceProposals)) s.

(** [p.Voters[a]] *)
Definition has_voted (p : Proposal) (a : Address) : bool := default false (p.(p_Voters) !! a).

(** [State.createGovernanceProposal] *)
Definition createGovernanceProposal
    (caller : Address) (id description : string) (amount : Z) (recipient : Address) : SM State unit :=
  fail_if (empty_str id) (Err "proposal id must not be empty");;
  fail_if (empty_str recipient) (Err "proposal recipient must not be empty");;
  s ← get;
  fail_if (empty_str s.(GovernanceFounder)) (Err "governance is not configured for this deployment");;
  fail_if (negb (bool_decide (caller = s.(GovernanceFounder))))
    (Err "unauthorized: only the Founder can create treasury proposals");;
  match s.(GovernanceProposals) !! id with
  | Some _ => throw (Err "a proposal with this id already exists")
  | None => modify (put_proposal id (mkProposal id description amount recipient 0 0 true false ∅))
  end.

(** [State.voteGovernance] *)
Definition voteGovernance (voter : Address) (proposalID : string) (inFavor : bool) : SM State unit :=
  fail_if (empty_str proposalID) (Err "proposal id must not be empty");;
  s ← get;
  match s.(GovernanceProposals) !! proposalID with
  | None => throw (Err "proposal does not exist or is no longer active")
  | Some p =>
      fail_if (negb p.(p_IsActive)) (Err "proposal does not exist or is no longer active");;
      fail_if (has_voted p voter) (Err "this address has already voted on this proposal");;
      let voterStake := (acct s voter).(Balance) in
      fail_if (voterStake =? 0) (Err "voter has no stake");;
      modify (put_proposal proposalID
        (mkProposal p.(p_ID) p.(p_Description) p.(p_Amount) p.(p_Recipient)
          (if inFavor then u64 (p.(p_VotesFor) + voterStake) else p.(p_VotesFor))
          (if inFavor then p.(p_VotesAgainst) else u64 (p.(p_VotesAgainst) + voterStake))
          p.(p_IsActive) p.(p_Executed) (<[voter := true]> p.(p_Voters))))
  end.

(** [totalStake * GovernanceQuorumBasisPoints / 10000] *)
Definition governance_quorum (totalStake : Z) : Z :=
  u64 (totalStake * GovernanceQuorumBasisPoints) / 10000.

(** [State.executeGovernanceProposal]. The recipient's account is read before
    the treasury's is written. *)
Definition executeGovernanceProposal (proposalID : string) (totalStake : Z) : SM State unit :=
  fail_if (empty_str proposalID) (Err "proposal id must not be empty");;
  s ← get;
  match s.(GovernanceProposals) !! proposalID with
  | None => throw (Err "proposal does not exist or is no longer active")
  | Some p =>
      fail_if (negb p.(p_IsActive)) (Err "proposal does not exist or is no longer active");;
      fail_if p.(p_Executed) (Err "proposal has already been executed");;
      fail_if (p.(p_VotesFor) <=? p.(p_VotesAgainst)) (Err "proposal has not passed: not enough votes for");;
      fail_if ((0 <? totalStake) && (p.(p_VotesFor) <? governance_quorum totalStake))
        (Err "proposal has not reached quorum");;
      fail_if (empty_str s.(TreasuryAddress)) (Err "treasury address not configured for this deployment");;
      let treasury := acct s s.(TreasuryAddress) in
      fail_if (treasury.(Balance) <? p.(p_Amount)) (Err "treasury balance is insufficient for proposal amount");;
      let recAcc := acct s p.(p_Recipient) in
      match safeAdd recAcc.(Balance) p.(p_Amount) with
      | inr _ => throw (Err "recipient balance overflow")
      | inl newBal =>
          modify (put_proposal proposalID
            (mkProposal p.(p_ID) p.(p_Description) p.(p_Amount) p.(p_Recipient)
              p.(p_VotesFor) p.(p_VotesAgainst) false true p.(p_Voters)));;
          modify (put_acct s.(TreasuryAddress) (set_Balance (treasury.(Balance) - p.(p_Amount)) treasury));;
          modify (put_acct p.(p_Recipient) (set_Balance newBal recAcc))
      end
  end.

(** [GetGovernanceProposal], [SnapshotGovernanceProposals]; the copies
    [cloneProposal] makes are the values themselves. *)
Definition GetGovernanceProposal (s : State) (proposalID : string) : option Proposal :=
  s.(GovernanceProposals) !! proposalID.
Definition SnapshotGovernanceProposals (s : State) : list Proposal := (map_to_list s.(GovernanceProposals)).*2.

(** [State.GovernanceProposalPassed] *)
Definition GovernanceProposalPassed (s : State) (proposalID : string) (totalStake : Z) : res bool :=
  match s.(GovernanceProposals) !! proposalID with
  | None => inr (Err "proposal does not exist")
  | Some p =>
      if p.(p_VotesFor) <=? p.(p_VotesAgainst) then inl false
      else if (0 <? totalStake) && (p.(p_VotesFor) <? governance_quorum totalStake) then inl false
      else inl true
  end.

(** [State.GovernanceVotesCastBy] *)
Definition GovernanceVotesCastBy (s : State) (voter : Address) : Z :=
  msum (λ p, if has_voted p voter then 1 else 0) s.(GovernanceProposals).

(* ------------------------------------------------------------------ *)
(** * Specifications *)

(** Everything but the proposals is untouched. *)
Definition proposals_frame (s s' : State) : Prop :=
  s' = set_GovernanceProposals s'.(GovernanceProposals) s.

Lemma createGovernanceProposal_spec caller id description amount recipient s :
  wp (createGovernanceProposal caller id description amount recipient)
    (λ _ s', caller = s.(GovernanceFounder) ∧ s.(GovernanceFounder) ≠ "" ∧
       s.(GovernanceProposals) !! id = None ∧
       s' = put_proposal id (mkProposal id description amount recipient 0 0 true false ∅) s)
    (λ _ s', s' = s) s.
Proof.
  unfold createGovernanceProposal, empty_str. wp_go; try done.
  rewrite negb_false_iff, bool_decide_eq_true, bool_decide_eq_false in *. done.
Qed.

Lemma voteGovernance_spec voter id inFavor s :
  wp (voteGovernance voter id inFavor)
    (λ _ s', proposals_frame s s' ∧ ∃ p p',
       s.(GovernanceProposals) !! id = Some p ∧ s'.(GovernanceProposals) = <[id := p']> s.(GovernanceProposals) ∧
       p.(p_IsActive) = true ∧ has_voted p voter = false ∧ has_voted p' voter = true ∧
       p'.(p_IsActive) = true ∧ p'.(p_Executed) = p.(p_Executed) ∧
       p'.(p_Amount) = p.(p_Amount) ∧ p'.(p_Recipient) = p.(p_Recipient) ∧
       p'.(p_VotesFor) = (if inFavor then u64 (p.(p_VotesFor) + (acct s voter).(Balance)) else p.(p_VotesFor)) ∧
       p'.(p_VotesAgainst) = (if inFavor then p.(p_VotesAgainst) else u64 (p.(p_VotesAgainst) + (acct s voter).(Balance))) ∧
       (∀ a, a ≠ voter → has_voted p' a = has_voted p a))
    (λ _ s', s' = s) s.
Proof.
  unfold voteGovernance. wp_go; try done. split; [done|].
  rewrite negb_false_iff in *. do 2 eexists. split_and!; try done; simpl.
  - unfold has_voted. simpl. by rewrite lookup_insert_eq.
  - intros a Ha. unfold has_voted. simpl. by rewrite lookup_insert_ne.
Qed.

(** What must hold of a proposal for its execution to succeed. *)
Record executable (s : State) (id : string) (totalStake : Z) (p : Proposal) : Prop := {
  ex_found : s.(GovernanceProposals) !! id = Some p;
  ex_active : p.(p_IsActive) = true;
  ex_fresh : p.(p_Executed) = false;
  ex_majority : p.(p_VotesAgainst) < p.(p_VotesFor);
  ex_quorum : 0 < totalStake → governance_quorum totalStake ≤ p.(p_VotesFor);
  ex_treasury : s.(TreasuryAddress) ≠ "";
  ex_funds : p.(p_Amount) ≤ (acct s s.(TreasuryAddress)).(Balance);
  ex_fits : (acct s p.(p_Recipient)).(Balance) + p.(p_Amount) ≤ MaxUint64
}.

Definition executed_proposal (p : Proposal) : Proposal :=
  mkProposal p.(p_ID) p.(p_Description) p.(p_Amount) p.(p_Recipient)
    p.(p_VotesFor) p.(p_VotesAgainst) false true p.(p_Voters).

Lemma executeGovernanceProposal_spec id totalStake s :
  wp (executeGovernanceProposal id totalStake)
    (λ _ s', ∃ p, executable s id totalStake p ∧
       s' = put_acct p.(p_Recipient)
              (set_Balance ((acct s p.(p_Recipient)).(Balance) + p.(p_Amount)) (acct s p.(p_Recipient)))
            (put_acct s.(TreasuryAddress)
              (set_Balance ((acct s s.(TreasuryAddress)).(Balance) - p.(p_Amount)) (acct s s.(TreasuryAddress)))
            (put_proposal id (executed_proposal p) s)))
    (λ _ s', s' = s) s.
Proof.
  unfold executeGovernanceProposal, empty_str. wp_go; try done.
  apply safeAdd_inl in Heqs0 as [Hle ->]. exists p. split; [|done].
  rewrite negb_false_iff, andb_false_iff, ?bool_decide_eq_false in *. constructor; try done; lia.
Qed.

(** A paid-out proposal whose recipient is not the treasury moves exactly its
    amount and creates no coin. *)
Lemma execute_supply s id p :
  p.(p_Recipient) ≠ s.(TreasuryAddress) →
  supply (put_acct p.(p_Recipient)
            (set_Balance ((acct s p.(p_Recipient)).(Balance) + p.(p_Amount)) (acct s p.(p_Recipient)))
          (put_acct s.(TreasuryAddress)
            (set_Balance ((acct s s.(TreasuryAddress)).(Balance) - p.(p_Amount)) (acct s s.(TreasuryAddress)))
          (put_proposal id (executed_proposal p) s))) = supply s.
Proof.
  intros Hne. rewrite !supply_put, acct_put_ne by done.
  change (supply (put_proposal id (executed_proposal p) s)) with (supply s).
  change (acct (put_proposal id (executed_proposal p) s)) with (acct s). simpl. lia.
Qed.

(** One whose recipient is the treasury itself adds its amount to the supply:
    the second write to the account undoes the debit. *)
Lemma execute_supply_treasury s id p :
  p.(p_Recipient) = s.(TreasuryAddress) →
  supply (put_acct p.(p_Recipient)
            (set_Balance ((acct s p.(p_Recipient)).(Balance) + p.(p_Amount)) (acct s p.(p_Recipient)))
          (put_acct s.(TreasuryAddress)
            (set_Balance ((acct s s.(TreasuryAddress)).(Balance) - p.(p_Amount)) (acct s s.(TreasuryAddress)))
          (put_proposal id (executed_proposal p) s))) = supply s + p.(p_Amount).
Proof.
  intros ->. rewrite !supply_put, acct_put_eq.
  change (supply (put_proposal id (executed_proposal p) s)) with (supply s).
  change (acct (put_proposal id (executed_proposal p) s)) with (acct s). simpl. lia.
Qed.

(** The registry invariant: a proposal is stored under its own identifier, and
    an executed proposal is closed. *)
Definition proposals_ok (s : State) : Prop :=
  ∀ id p, s.(GovernanceProposals) !! id = Some p →
    p.(p_ID) = id ∧ (p.(p_Executed) = true → p.(p_IsActive) = false).
