(* ===== verification/Dex.v ===== *)
(** The automated market maker: pool arithmetic and the in-memory [DEX]
    (internal/chain/dex.go), and the DEX transactions that move pool reserves
    on the ledger ([applyDEXTx] in internal/chain/core.go).

    [uint64] products and sums that the source lets wrap are wrapped here.

    After the definitions, the correctness of their arithmetic: the integer
    square root, the constant-product quote, and proportional shares. *)
From stdpp Require Import base strings list gmap.
From Stdlib Require Import ZArith Lia Psatz.
From S2P Require Import Prelude GoStd Types Ledger.

#[local] Open Scope string_scope.
#[local] Open Scope Z_scope.

(* ------------------------------------------------------------------ *)
(** * Pools *)

(** [PoolAddress] *)
Definition PoolAddress (assetID : string) : Address := "0xdex_pool_" +:+ ToLower (TrimSpace assetID).

Definition NewPool (assetID : string) : Pool := mkPool assetID 0 0 0 ∅.

(** [pool.Shares[a]] *)
Definition share_of (p : Pool) (a : Address) : Z := default 0 (p.(Shares) !! a).

(** The loop of [sqrtUint64]. Dividing by zero panics. *)
Fixpoint sqrt_loop (fuel : nat) (x z y : Z) : res Z :=
  match fuel with
  | O => inr (Err "out of fuel")
  | S fuel =>
      if z <? y then
        if z =? 0 then inr (Panic "integer divide by zero")
        else sqrt_loop fuel x (u64 (x / z + z) / 2) z
      else inl y
  end.

(** [sqrtUint64]. The distance to the root halves with every round, so 80
    rounds are enough for any [uint64] ([sqrtUint64_exact]). *)
Definition sqrtUint64 (x : Z) : res Z :=
  if x =? 0 then inl 0 else sqrt_loop 80 x (u64 (x + 1) / 2) x.

(** [bits.Mul64] and [bits.Add64]: the high word and the low word. *)
Definition Mul64 (a b : Z) : Z * Z := ((a * b) / 18446744073709551616, u64 (a * b)).
Definition Add64 (a b : Z) : Z * Z := (u64 (a + b), (a + b) / 18446744073709551616).

(** [DEX.GetAmountOut] *)
Definition GetAmountOut (amountIn reserveIn reserveOut : Z) : res Z :=
  if amountIn =? 0 then inr (Err "insufficient input amount")
  else if (reserveIn =? 0) || (reserveOut =? 0) then inr (Err "insufficient liquidity")
  else
    let '(amountInHi, amountInWithFee) := Mul64 amountIn 997 in
    if negb (amountInHi =? 0) then inr (Err "swap input overflow")
    else
      let '(numeratorHi, numerator) := Mul64 amountInWithFee reserveOut in
      if negb (numeratorHi =? 0) then inr (Err "swap numerator overflow")
      else
        let '(reserveHi, scaledReserve) := Mul64 reserveIn 1000 in
        if negb (reserveHi =? 0) then inr (Err "swap reserve overflow")
        else
          let '(denominator, carry) := Add64 scaledReserve amountInWithFee in
          if negb (carry =? 0) || (denominator =? 0) then inr (Err "swap denominator overflow")
          else inl (numerator / denominator).

(** Shares minted for a deposit (the same code in [DEX.AddLiquidity] and in
    the [dex_add_liquidity] transaction). *)
Definition minted_shares (pool : Pool) (synAmount assetAmount : Z) : res Z :=
  if pool.(TotalShares) =? 0 then
    match sqrtUint64 (u64 (synAmount * assetAmount)) with
    | inr e => inr e
    | inl shares => inl (if shares =? 0 then synAmount else shares)
    end
  else if (pool.(SynReserve) =? 0) || (pool.(AssetReserve) =? 0) then
    inr (Err "pool has shares but a zero reserve")
  else
    let shareSyn := u64 (synAmount * pool.(TotalShares)) / pool.(SynReserve) in
    let shareAsset := u64 (assetAmount * pool.(TotalShares)) / pool.(AssetReserve) in
    inl (if shareSyn <? shareAsset then shareSyn else shareAsset).

(* ------------------------------------------------------------------ *)
(** * The in-memory DEX *)

Module DEX.

(** [DEX.AddLiquidity]. A missing pool is stored before the deposit is
    checked. *)
Definition AddLiquidity (assetID : string) (synAmount assetAmount : Z) (provider : Address)
    : SM (gmap string Pool) Z :=
  pools ← get;
  let pool := default (NewPool assetID) (pools !! assetID) in
  modify (λ m, <[assetID := pool]> m);;
  shares ← lift (minted_shares pool synAmount assetAmount);
  fail_if (shares =? 0) (Err "insufficient liquidity minted");;
  modify (λ m, <[assetID := mkPool pool.(pl_AssetID)
    (u64 (pool.(SynReserve) + synAmount)) (u64 (pool.(AssetReserve) + assetAmount))
    (u64 (pool.(TotalShares) + shares))
    (<[provider := u64 (share_of pool provider + shares)]> pool.(Shares))]> m);;
  mret shares.

(** [pool.Shares[provider] -= shares], dropping an emptied entry. *)
Definition burn_shares (pool : Pool) (provider : Address) (shares : Z) : gmap Address Z :=
  let left := share_of pool provider - shares in
  if left =? 0 then delete provider pool.(Shares) else <[provider := left]> pool.(Shares).

(** [DEX.RemoveLiquidity] *)
Definition RemoveLiquidity (assetID : string) (shares : Z) (provider : Address)
    : SM (gmap string Pool) (Z * Z) :=
  pools ← get;
  match pools !! assetID with
  | None => throw (Err "pool not found")
  | Some pool =>
      fail_if (shares =? 0) (Err "invalid shares");;
      fail_if ((pool.(TotalShares) =? 0) || (pool.(SynReserve) =? 0) || (pool.(AssetReserve) =? 0))
        (Err "insufficient pool liquidity");;
      fail_if (share_of pool provider <? shares) (Err "insufficient provider shares");;
      let synOut := u64 (shares * pool.(SynReserve)) / pool.(TotalShares) in
      let assetOut := u64 (shares * pool.(AssetReserve)) / pool.(TotalShares) in
      fail_if ((synOut =? 0) || (assetOut =? 0)) (Err "zero output amount");;
      modify (λ m, <[assetID := mkPool pool.(pl_AssetID)
        (u64 (pool.(SynReserve) - synOut)) (u64 (pool.(AssetReserve) - assetOut))
        (u64 (pool.(TotalShares) - shares)) (burn_shares pool provider shares)]> m);;
      mret (synOut, assetOut)
  end.

(** [DEX.Swap] *)
Definition Swap (assetID : string) (amountIn : Z) (fromSyn : bool) : SM (gmap string Pool) Z :=
  pools ← get;
  match pools !! assetID with
  | None => throw (Err "pool not found")
  | Some pool =>
      if fromSyn then
        amountOut ← lift (GetAmountOut amountIn pool.(SynReserve) pool.(AssetReserve));
        match safeAdd pool.(SynReserve) amountIn with
        | inr _ => throw (Err "SYN reserve overflow")
        | inl nextReserve =>
            modify (λ m, <[assetID := mkPool pool.(pl_AssetID) nextReserve
              (u64 (pool.(AssetReserve) - amountOut)) pool.(TotalShares) pool.(Shares)]> m);;
            mret amountOut
        end
      else
        amountOut ← lift (GetAmountOut amountIn pool.(AssetReserve) pool.(SynReserve));
        match safeAdd pool.(AssetReserve) amountIn with
        | inr _ => throw (Err "asset reserve overflow")
        | inl nextReserve =>
            modify (λ m, <[assetID := mkPool pool.(pl_AssetID)
              (u64 (pool.(SynReserve) - amountOut)) nextReserve pool.(TotalShares) pool.(Shares)]> m);;
            mret amountOut
        end
  end.

(** [DEX.SeedPool] *)
Definition SeedPool (assetID : string) (synAmount assetAmount : Z) (m : gmap string Pool) : gmap string Pool :=
  <[assetID := mkPool assetID synAmount assetAmount synAmount ∅]> m.

(** [DEX.SyncFromState] *)
Definition SyncFromState (s : State) : gmap string Pool := s.(DEXPools).

End DEX.

(* ------------------------------------------------------------------ *)
(** * DEX transactions *)

(** [strings.ToUpper(strings.TrimSpace(...))] of the [asset_id] metadata, or
    of the transaction's asset when there is none. *)
Definition dex_asset_id (tx : Tx) : string :=
  let assetID := ToUpper (TrimSpace (metadataValue tx.(Metadata) "asset_id")) in
  if empty_str assetID then ToUpper (TrimSpace tx.(AssetID)) else assetID.

Definition is_syn (id : string) : bool := empty_str id || bool_decide (ToLower id = "syn").

Definition put_pool (id : string) (p : Pool) (s : State) : State :=
  set_DEXPools (<[id := p]> s.(DEXPools)) s.

(** [if acc.Assets == nil { acc.Assets = make(...) }] *)
Definition make_assets (acc : Account) : Account := norm_acct acc.

Definition bump_nonce (acc : Account) : Account := set_AccNonce (u64 (acc.(AccNonce) + 1)) acc.

(** [case "asset_issue"] *)
Definition asset_issue (tx : Tx) (acc : Account) : SM State unit :=
  let assetID := dex_asset_id tx in
  fail_if (empty_str assetID || bool_decide (assetID = "SYN")) (Err "invalid asset ID for issuance");;
  amount ← (if tx.(Amount) =? 0 then
              let '(amount, err) := parseTxMetadataUint64 tx.(Metadata) "amount" in
              fail_if (bool_decide (is_Some err) || (amount =? 0))
                (Err "issuance amount must be greater than zero");;
              mret amount
            else mret tx.(Amount));
  fail_if (acc.(Balance) <? tx.(Fee)) ErrInsufficientFunds;;
  settled ← gets (λ s, make_assets (acct s tx.(From)));
  match safeAdd (asset_of settled assetID) amount with
  | inr _ => throw (Err "asset balance overflow")
  | inl nextAssetBal =>
      settled ← lift (assets_write settled assetID nextAssetBal);
      modify (put_acct tx.(From)
        (bump_nonce (set_Balance (u64 (settled.(Balance) - tx.(Fee))) settled)))
  end.

(** [case "dex_add_liquidity"] *)
Definition dex_add_liquidity (tx : Tx) (acc : Account) : SM State unit :=
  let assetID := dex_asset_id tx in
  fail_if (empty_str assetID || bool_decide (assetID = "SYN")) (Err "invalid asset ID for DEX pool");;
  let synAmount0 := (parseTxMetadataUint64 tx.(Metadata) "syn_amount").1 in
  let synAmount := if (synAmount0 =? 0) && is_syn tx.(AssetID) then tx.(Amount) else synAmount0 in
  let assetAmount0 := (parseTxMetadataUint64 tx.(Metadata) "asset_amount").1 in
  let assetAmount := if (assetAmount0 =? 0) && negb (is_syn tx.(AssetID)) then tx.(Amount) else assetAmount0 in
  fail_if ((synAmount =? 0) || (assetAmount =? 0))
    (Err "syn_amount and asset_amount must be greater than zero");;
  let minShares := (parseTxMetadataUint64 tx.(Metadata) "min_shares").1 in
  match safeAdd synAmount tx.(Fee) with
  | inr _ => throw (Err "amount overflow detected")
  | inl totalSyn =>
      fail_if (acc.(Balance) <? totalSyn) ErrInsufficientFunds;;
      fail_if (asset_of acc assetID <? assetAmount) (Err "insufficient asset balance for liquidity");;
      s ← get;
      let pool := default (NewPool assetID) (s.(DEXPools) !! assetID) in
      modify (put_pool assetID pool);;
      shares ← lift (minted_shares pool synAmount assetAmount);
      fail_if (shares =? 0) (Err "insufficient liquidity minted");;
      fail_if ((0 <? minShares) && (shares <? minShares)) (Err "slippage exceeded");;
      let poolAddr := PoolAddress assetID in
      let poolAcc := make_assets (acct s poolAddr) in
      let poolBal := u64 (poolAcc.(Balance) + synAmount) in
      let poolAsset := u64 (asset_of poolAcc assetID + assetAmount) in
      poolAcc ← lift (assets_write poolAcc assetID poolAsset);
      modify (put_acct poolAddr (set_Balance poolBal poolAcc));;
      modify (put_pool assetID (mkPool pool.(pl_AssetID) poolBal poolAsset
        (u64 (pool.(TotalShares) + shares))
        (<[tx.(From) := u64 (share_of pool tx.(From) + shares)]> pool.(Shares))));;
      settledFrom ← gets (λ s, acct s tx.(From));
      settledFrom' ← lift (assets_write settledFrom assetID (u64 (asset_of settledFrom assetID - assetAmount)));
      modify (put_acct tx.(From)
        (bump_nonce (set_Balance (u64 (settledFrom.(Balance) - totalSyn)) settledFrom')))
  end.

(** [case "dex_remove_liquidity"] *)
Definition dex_remove_liquidity (tx : Tx) (acc : Account) : SM State unit :=
  let assetID := dex_asset_id tx in
  let '(shares, err) := parseTxMetadataUint64 tx.(Metadata) "shares" in
  fail_if (bool_decide (is_Some err) || (shares =? 0)) (Err "shares must be greater than zero");;
  let minSynOut := (parseTxMetadataUint64 tx.(Metadata) "min_syn_out").1 in
  let minAssetOut := (parseTxMetadataUint64 tx.(Metadata) "min_asset_out").1 in
  fail_if (acc.(Balance) <? tx.(Fee)) ErrInsufficientFunds;;
  s ← get;
  match s.(DEXPools) !! assetID with
  | None => throw (Err "pool not found or empty")
  | Some pool =>
      fail_if (pool.(TotalShares) =? 0) (Err "pool not found or empty");;
      fail_if (share_of pool tx.(From) <? shares) (Err "insufficient LP shares");;
      let synOut := u64 (shares * pool.(SynReserve)) / pool.(TotalShares) in
      let assetOut := u64 (shares * pool.(AssetReserve)) / pool.(TotalShares) in
      fail_if ((synOut =? 0) || (assetOut =? 0)) (Err "zero output amount");;
      fail_if ((0 <? minSynOut) && (synOut <? minSynOut)) (Err "slippage exceeded: syn out");;
      fail_if ((0 <? minAssetOut) && (assetOut <? minAssetOut)) (Err "slippage exceeded: asset out");;
      let poolAddr := PoolAddress assetID in
      let poolAcc := acct s poolAddr in
      fail_if ((poolAcc.(Balance) <? synOut) || (asset_of poolAcc assetID <? assetOut))
        (Err "pool balance mismatch");;
      let poolBal := poolAcc.(Balance) - synOut in
      let poolAsset := asset_of poolAcc assetID - assetOut in
      poolAcc ← lift (assets_write poolAcc assetID poolAsset);
      modify (put_acct poolAddr (set_Balance poolBal poolAcc));;
      modify (put_pool assetID (mkPool pool.(pl_AssetID) poolBal poolAsset
        (u64 (pool.(TotalShares) - shares)) (DEX.burn_shares pool tx.(From) shares)));;
      settledFrom ← gets (λ s, make_assets (acct s tx.(From)));
      settledFrom' ← lift (assets_write settledFrom assetID (u64 (asset_of settledFrom assetID + assetOut)));
      modify (put_acct tx.(From)
        (bump_nonce (set_Balance (u64 (u64 (settledFrom.(Balance) - tx.(Fee)) + synOut)) settledFrom')))
  end.

(** The direction test of [case "dex_swap"]. *)
Definition swap_from_syn (tx : Tx) (assetID : string) : bool :=
  let direction := metadataValue tx.(Metadata) "direction" in
  negb (bool_decide (direction = "asset_for_syn")
        || bool_decide (metadataValue tx.(Metadata) "from_syn" = "false")
        || (negb (empty_str tx.(AssetID)) && bool_decide (ToUpper tx.(AssetID) = assetID)
            && negb (bool_decide (direction = "syn_for_asset")))).

(** SYN in, asset out. *)
Definition swap_syn_for_asset (tx : Tx) (acc : Account) (assetID : string) (pool : Pool)
    (amountIn minAmountOut : Z) : SM State unit :=
  s ← get;
  let poolAddr := PoolAddress assetID in
  let poolAcc := acct s poolAddr in
  match safeAdd amountIn tx.(Fee) with
  | inr _ => throw (Err "amount overflow detected")
  | inl totalSyn =>
      fail_if (acc.(Balance) <? totalSyn) ErrInsufficientFunds;;
      amountOut ← lift (GetAmountOut amountIn pool.(SynReserve) pool.(AssetReserve));
      fail_if ((0 <? minAmountOut) && (amountOut <? minAmountOut)) (Err "slippage exceeded");;
      fail_if ((pool.(AssetReserve) <=? amountOut) || (asset_of poolAcc assetID <? amountOut))
        (Err "insufficient pool asset reserve");;
      let poolBal := u64 (poolAcc.(Balance) + amountIn) in
      let poolAsset := asset_of poolAcc assetID - amountOut in
      poolAcc ← lift (assets_write poolAcc assetID poolAsset);
      modify (put_acct poolAddr (set_Balance poolBal poolAcc));;
      modify (put_pool assetID (mkPool pool.(pl_AssetID) poolBal poolAsset pool.(TotalShares) pool.(Shares)));;
      settledFrom ← gets (λ s, make_assets (acct s tx.(From)));
      settledFrom' ← lift (assets_write settledFrom assetID (u64 (asset_of settledFrom assetID + amountOut)));
      modify (put_acct tx.(From)
        (bump_nonce (set_Balance (u64 (settledFrom.(Balance) - totalSyn)) settledFrom')))
  end.

(** Asset in, SYN out. *)
Definition swap_asset_for_syn (tx : Tx) (acc : Account) (assetID : string) (pool : Pool)
    (amountIn minAmountOut : Z) : SM State unit :=
  s ← get;
  let poolAddr := PoolAddress assetID in
  let poolAcc := acct s poolAddr in
  fail_if (acc.(Balance) <? tx.(Fee)) ErrInsufficientFunds;;
  fail_if (asset_of acc assetID <? amountIn) (Err "insufficient asset balance for swap");;
  amountOut ← lift (GetAmountOut amountIn pool.(AssetReserve) pool.(SynReserve));
  fail_if ((0 <? minAmountOut) && (amountOut <? minAmountOut)) (Err "slippage exceeded");;
  fail_if ((pool.(SynReserve) <=? amountOut) || (poolAcc.(Balance) <? amountOut))
    (Err "insufficient pool SYN reserve");;
  let poolAsset := u64 (asset_of poolAcc assetID + amountIn) in
  let poolBal := poolAcc.(Balance) - amountOut in
  poolAcc ← lift (assets_write poolAcc assetID poolAsset);
  modify (put_acct poolAddr (set_Balance poolBal poolAcc));;
  modify (put_pool assetID (mkPool pool.(pl_AssetID) poolBal poolAsset pool.(TotalShares) pool.(Shares)));;
  settledFrom ← gets (λ s, acct s tx.(From));
  settledFrom' ← lift (assets_write settledFrom assetID (u64 (asset_of settledFrom assetID - amountIn)));
  modify (put_acct tx.(From)
    (bump_nonce (set_Balance (u64 (u64 (settledFrom.(Balance) - tx.(Fee)) + amountOut)) settledFrom'))).

(** [case "dex_swap"] *)
Definition dex_swap (tx : Tx) (acc : Account) : SM State unit :=
  let assetID := dex_asset_id tx in
  fail_if (empty_str assetID || bool_decide (assetID = "SYN")) (Err "invalid asset ID for swap");;
  let amountIn := if tx.(Amount) =? 0 then (parseTxMetadataUint64 tx.(Metadata) "amount_in").1
                  else tx.(Amount) in
  fail_if (amountIn =? 0) (Err "amount_in must be greater than zero");;
  let minAmountOut := (parseTxMetadataUint64 tx.(Metadata) "min_amount_out").1 in
  s ← get;
  match s.(DEXPools) !! assetID with
  | None => throw (Err "pool not found or insufficient liquidity")
  | Some pool =>
      fail_if ((pool.(SynReserve) =? 0) || (pool.(AssetReserve) =? 0))
        (Err "pool not found or insufficient liquidity");;
      if swap_from_syn tx assetID
      then swap_syn_for_asset tx acc assetID pool amountIn minAmountOut
      else swap_asset_for_syn tx acc assetID pool amountIn minAmountOut
  end.

(** [State.applyDEXTx] *)
Definition applyDEXTx (tx : Tx) (txType : string) : SM State unit :=
  acc ← gets (λ s, Get s tx.(From));
  fail_if (negb (tx.(Nonce) =? acc.(AccNonce))) (Err "bad nonce");;
  if bool_decide (txType = "asset_issue") then asset_issue tx acc
  else if bool_decide (txType = "dex_add_liquidity") then dex_add_liquidity tx acc
  else if bool_decide (txType = "dex_remove_liquidity") then dex_remove_liquidity tx acc
  else if bool_decide (txType = "dex_swap") then dex_swap tx acc
  else throw (Err "unhandled dex tx type").

(** [State.GetDEXPool] *)
Definition GetDEXPool (s : State) (assetID : string) : option Pool :=
  s.(DEXPools) !! ToUpper (TrimSpace assetID).

(* ------------------------------------------------------------------ *)
(** * Facts *)

(* ------------------------------------------------------------------ *)
(** * Newton's square root *)

Section sqrt.
Context (x : Z) (Hx : 1 ≤ x < MaxUint64).

Let r : Z := Z.sqrt x.

Lemma r_spec : r * r ≤ x < (r + 1) * (r + 1) ∧ 1 ≤ r.
Proof.
  pose proof (Z.sqrt_spec x ltac:(lia)) as [H1 H2]. fold r in H1, H2. split; [lia|].
  apply Z.sqrt_le_square; lia.
Qed.

Definition newton (z : Z) : Z := (x / z + z) / 2.

(** Newton's step never falls below the root (the arithmetic mean is at least
    the geometric mean). *)
Lemma newton_ge z : 1 ≤ z → r ≤ newton z.
Proof.
  intros Hz. destruct r_spec as [[H1 H2] H3]. unfold newton.
  apply Z.div_le_lower_bound; [lia|].
  assert (2 * r - z ≤ x / z); [|lia]. apply Z.div_le_lower_bound; [lia|].
  pose proof (Z.square_nonneg (r - z)). lia.
Qed.

(** The distance to the root at least halves, up to one. *)
Lemma newton_halves z n : r ≤ z → z - r ≤ 2 * n + 1 → newton z - r ≤ n + 1.
Proof.
  intros Hz He. destruct r_spec as [[H1 H2] H3]. unfold newton.
  assert ((x / z + z) / 2 < r + n + 2); [|lia].
  apply Z.div_lt_upper_bound; [lia|].
  assert (x / z < 2 * (r + n + 2) - z); [|lia].
  apply Z.div_lt_upper_bound; [lia|].
  assert (0 ≤ n) by lia.
  pose proof (Z.mul_nonneg_nonneg (z - r) (2 * n + 1 - (z - r)) ltac:(lia) ltac:(lia)).
  pose proof (Z.mul_nonneg_nonneg r n ltac:(lia) ltac:(lia)). lia.
Qed.

Lemma newton_u64 z : r ≤ z → z ≤ 9223372036854775808 → u64 (x / z + z) / 2 = newton z.
Proof.
  intros Hz Hm. destruct r_spec as [[H1 H2] H3]. unfold newton. rewrite u64_small; [done|].
  assert (0 ≤ x / z) by (apply Z.div_pos; lia).
  assert (x / z ≤ r + 2) by (apply Z.div_le_upper_bound; nia).
  assert (r < 4294967296) by (unfold MaxUint64 in *; nia).
  unfold in_u64, MaxUint64. lia.
Qed.

Lemma newton_exit y : r ≤ y → y ≤ newton y → y = r.
Proof.
  intros Hy Hn. destruct r_spec as [[H1 H2] H3]. unfold newton in Hn.
  assert (y ≤ x / y).
  { assert (2 * y ≤ x / y + y); [|lia].
    pose proof (Z.mul_div_le (x / y + y) 2 ltac:(lia)). lia. }
  assert (y * y ≤ x) by (pose proof (Z.mul_div_le x y ltac:(lia)); nia). nia.
Qed.

(** Any fuel above the remaining distance is enough, since [z] decreases. *)
Lemma sqrt_loop_linear fuel y :
  r ≤ y → r ≤ newton y ≤ 9223372036854775808 → newton y - r + 1 < Z.of_nat fuel →
  sqrt_loop fuel x (newton y) y = inl r.
Proof.
  revert y. induction fuel as [|fuel IH]; intros y Hy Hn Hf; [lia|].
  pose proof r_spec as [_ H3]. simpl.
  destruct (Z.ltb_spec (newton y) y) as [Hlt|Hge].
  - destruct (Z.eqb_spec (newton y) 0); [lia|]. rewrite newton_u64 by lia.
    pose proof (newton_ge (newton y) ltac:(lia)).
    destruct (Z.lt_ge_cases (newton (newton y)) (newton y)).
    + apply IH; lia.
    + destruct fuel as [|fuel']; [lia|]. simpl.
      destruct (Z.ltb_spec (newton (newton y)) (newton y)); [lia|].
      f_equal. by apply newton_exit; lia.
  - f_equal. by apply newton_exit.
Qed.

(** The distance halves every round: [n] more rounds for a distance of
    [2^n], and a few at the end. *)
Lemma sqrt_loop_log n y :
  r ≤ y → r ≤ newton y ≤ 9223372036854775808 → newton y - r ≤ 2 ^ Z.of_nat n + 1 →
  sqrt_loop (n + 4) x (newton y) y = inl r.
Proof.
  revert y. induction n as [|n IH]; intros y Hy Hn Hd.
  - apply sqrt_loop_linear; simpl in *; lia.
  - pose proof r_spec as [_ H3]. change (S n + 4)%nat with (S (n + 4)). simpl.
    destruct (Z.ltb_spec (newton y) y) as [Hlt|Hge].
    + destruct (Z.eqb_spec (newton y) 0); [lia|]. rewrite newton_u64 by lia.
      pose proof (newton_ge (newton y) ltac:(lia)).
      rewrite Nat2Z.inj_succ, Z.pow_succ_r in Hd by lia.
      pose proof (newton_halves (newton y) (2 ^ Z.of_nat n) ltac:(lia) ltac:(lia)).
      destruct (Z.lt_ge_cases (newton (newton y)) (newton y)).
      * apply IH; lia.
      * destruct n as [|n']; (change (0 + 4)%nat with 4%nat || change (S n' + 4)%nat with (S (n' + 4)));
          simpl; (destruct (Z.ltb_spec (newton (newton y)) (newton y)); [lia|]); f_equal;
          by apply newton_exit; lia.
    + f_equal. by apply newton_exit.
Qed.

Lemma sqrt_loop_enough : sqrt_loop 80 x (u64 (x + 1) / 2) x = inl r.
Proof.
  destruct r_spec as [[H1 H2] H3].
  assert (r ≤ x) by nia.
  assert (u64 (x + 1) / 2 = newton x) as ->.
  { unfold newton. rewrite Z.div_same by lia. rewrite u64_small; [f_equal; lia|].
    unfold in_u64, MaxUint64 in *. lia. }
  assert (newton x ≤ 9223372036854775808).
  { unfold newton. rewrite Z.div_same by lia. apply Z.div_le_upper_bound; unfold MaxUint64 in *; lia. }
  pose proof (newton_ge x ltac:(lia)).
  apply (sqrt_loop_log 76); [lia..|]. change (2 ^ Z.of_nat 76) with 75557863725914323419136. lia.
Qed.

End sqrt.

(** [sqrtUint64] terminates within its rounds with the integer square root,
    for every [uint64] but the largest. *)
Lemma sqrtUint64_exact x : 0 ≤ x < MaxUint64 → sqrtUint64 x = inl (Z.sqrt x).
Proof.
  intros Hx. unfold sqrtUint64. destruct (Z.eqb_spec x 0) as [->|]; [done|].
  apply sqrt_loop_enough. lia.
Qed.

(** On the largest [uint64] the starting point [(x+1)/2] wraps to zero and the
    first round divides by it. *)
Lemma sqrtUint64_max : sqrtUint64 MaxUint64 = inr (Panic "integer divide by zero").
Proof. reflexivity. Qed.

(* ------------------------------------------------------------------ *)
(** * The quote *)

(** The high word of a [uint64] product or sum is zero exactly when it fits. *)
Lemma hi_zero p : 0 ≤ p → (p / 18446744073709551616 =? 0) = (p <=? MaxUint64).
Proof.
  intros Hp. unfold MaxUint64. destruct (Z.leb_spec p 18446744073709551615).
  - rewrite Z.div_small by lia. done.
  - apply Z.eqb_neq. intros Hd. apply Z.div_small_iff in Hd; lia.
Qed.

(** A quote is exact: it is the constant-product formula with the 0.3% fee on
    unbounded integers, whenever the formula's products fit a [uint64]. *)
Lemma GetAmountOut_inl a rin rout out :
  0 ≤ a → 0 ≤ rin → 0 ≤ rout →
  GetAmountOut a rin rout = inl out ↔
  0 < a ∧ 0 < rin ∧ 0 < rout ∧ a * 997 * rout ≤ MaxUint64 ∧ rin * 1000 + a * 997 ≤ MaxUint64 ∧
  out = a * 997 * rout / (rin * 1000 + a * 997).
Proof.
  intros Ha Hin Hout. unfold GetAmountOut.
  destruct (Z.eqb_spec a 0); [naive_solver lia|].
  destruct (Z.eqb_spec rin 0); simpl; [naive_solver lia|].
  destruct (Z.eqb_spec rout 0); simpl; [naive_solver lia|].
  rewrite (hi_zero (a * 997)) by lia.
  destruct (Z.leb_spec (a * 997) MaxUint64); simpl; [|naive_solver nia].
  rewrite (u64_small (a * 997)) by (unfold in_u64; lia). rewrite (hi_zero (a * 997 * rout)) by nia.
  destruct (Z.leb_spec (a * 997 * rout) MaxUint64); simpl; [|naive_solver nia].
  rewrite (u64_small (a * 997 * rout)) by (unfold in_u64; nia). rewrite (hi_zero (rin * 1000)) by lia.
  destruct (Z.leb_spec (rin * 1000) MaxUint64); simpl; [|naive_solver nia].
  rewrite (u64_small (rin * 1000)) by (unfold in_u64; lia). rewrite (hi_zero (rin * 1000 + a * 997)) by lia.
  destruct (Z.leb_spec (rin * 1000 + a * 997) MaxUint64); simpl; [|naive_solver nia].
  rewrite (u64_small (rin * 1000 + a * 997)) by (unfold in_u64; lia).
  destruct (Z.eqb_spec (rin * 1000 + a * 997) 0); [lia|]. naive_solver lia.
Qed.

(** A swap never empties the reserve it pays from and never lowers the product
    of the reserves. *)
Lemma GetAmountOut_safe a rin rout out :
  0 ≤ a → 0 ≤ rin → 0 ≤ rout → GetAmountOut a rin rout = inl out →
  0 ≤ out < rout ∧ rin * rout ≤ (rin + a) * (rout - out).
Proof.
  intros Ha Hin Hout (H1 & H2 & H3 & _ & _ & ->)%GetAmountOut_inl; [|done..].
  set (d := rin * 1000 + a * 997). assert (0 < d) by (unfold d; lia).
  set (q := a * 997 * rout / d).
  assert (d * q ≤ a * 997 * rout) as Hq by (apply Z.mul_div_le; lia).
  assert (0 ≤ q) by (apply Z.div_pos; nia).
  assert (q < rout) by (unfold d in *; nia).
  split; [lia|]. unfold d in *. nia.
Qed.
