(* ===== verification/DexLedger.v ===== *)
(** What the DEX transactions do to the ledger: native coin only moves between
    the sender and the pool account, the fee leaves the sender, and a failed
    transaction touches no account. *)
From stdpp Require Import base strings list gmap.
From S2P Require Import Prelude GoStd Types Ledger Dex.

#[local] Open Scope string_scope.
#[local] Open Scope Z_scope.

(** A failed transaction changes nothing, except that [dex_add_liquidity] may
    leave an empty pool behind. *)
Definition err_frame (s s' : State) : Prop :=
  s' = s ∨ ∃ id, s.(DEXPools) !! id = None ∧ s' = put_pool id (NewPool id) s.

Lemma err_frame_refl s : err_frame s s.
Proof. by left. Qed.

Lemma err_frame_Accounts s s' : err_frame s s' → s'.(Accounts) = s.(Accounts).
Proof. intros [->|(id & _ & ->)]; done. Qed.

Lemma err_frame_ledger s s' : err_frame s s' → ledger_ok s → ledger_ok s' ∧ supply s' = supply s.
Proof.
  intros [->|(id & _ & ->)] Hok; [done|]. split; [by apply (ledger_ok_same s)|by apply (supply_same s)].
Qed.

Lemma assets_write_ok acc id v acc' :
  assets_write acc id v = inl acc' →
  acc'.(Balance) = acc.(Balance) ∧ acc'.(AccNonce) = acc.(AccNonce) ∧
  asset_map acc' = <[id := v]> (asset_map acc).
Proof. unfold assets_write, asset_map. destruct (Assets acc); [|done]. by intros [= <-]. Qed.

Lemma assets_write_of acc id v acc' : assets_write acc id v = inl acc' → asset_of acc' id = v.
Proof. intros (_ & _ & Hm)%assets_write_ok. unfold asset_of. by rewrite Hm, lookup_insert_eq. Qed.

Lemma assets_write_err acc id v e : assets_write acc id v = inr e → acc.(Assets) = None.
Proof. unfold assets_write. by destruct (Assets acc). Qed.

Lemma assets_write_made acc id v : ∃ acc', assets_write (make_assets acc) id v = inl acc'.
Proof. unfold assets_write, make_assets, norm_acct. simpl. eauto. Qed.

(** An account holding some of an asset has an asset map. *)
Lemma asset_of_Some acc id : asset_of acc id ≠ 0 → acc.(Assets) ≠ None.
Proof. unfold asset_of, asset_map. by destruct (Assets acc). Qed.

(** The sender pays [fee]; the rest of the coin only moves between the two
    accounts. *)
Lemma two_party s a b accA accB id p fee :
  ledger_ok s → a ≠ b → 0 ≤ fee →
  0 ≤ accA.(Balance) → 0 ≤ accB.(Balance) →
  accA.(Balance) + accB.(Balance) + fee = (acct s a).(Balance) + (acct s b).(Balance) →
  accA.(AccNonce) = (acct s a).(AccNonce) →
  accB.(AccNonce) = u64 ((acct s b).(AccNonce) + 1) →
  let s' := put_acct b accB (put_pool id p (put_acct a accA s)) in
  ledger_ok s' ∧ supply s' = supply s - fee ∧ nonce_step b s s'.
Proof.
  intros Hok Hab Hfee HA HB Hsum HnA HnB s'. pose proof (ok_supply s Hok).
  assert (supply s' = supply s - fee) as Hs'.
  { unfold s'. rewrite supply_put. change (acct (put_pool id p (put_acct a accA s)) b) with (acct (put_acct a accA s) b).
    rewrite acct_put_ne by done. change (supply (put_pool id p (put_acct a accA s))) with (supply (put_acct a accA s)).
    rewrite supply_put. lia. }
  split_and!; [|done|].
  - constructor; [|apply Hok..|lia]. intros c acc. simpl.
    intros [[_ <-]|[_ [[_ <-]|[_ ?]]%lookup_insert_Some]]%lookup_insert_Some; eauto using ok_accounts.
  - split; unfold s'; [by rewrite acct_put_eq|]. intros c Hc. rewrite acct_put_ne by done.
    change (acct (put_pool id p (put_acct a accA s)) c) with (acct (put_acct a accA s) c).
    rewrite acct_put. case_decide; by subst.
Qed.

(** The liquidity shares of a pool add up to its total, modulo the width of
    the counter. *)
Definition shares_ok (p : Pool) : Prop := u64 (msum id p.(Shares)) = p.(TotalShares).

(** A pool as the ledger keeps it. *)
Record pool_ok (p : Pool) : Prop := {
  pool_shares : shares_ok p;
  pool_syn : 0 ≤ p.(SynReserve);
  pool_asset : 0 ≤ p.(AssetReserve)
}.

Definition pools_ok (s : State) : Prop := map_Forall (λ _, pool_ok) s.(DEXPools).

Lemma pools_ok_empty s : s.(DEXPools) = ∅ → pools_ok s.
Proof. unfold pools_ok. intros ->. apply map_Forall_empty. Qed.

Lemma pool_ok_total p : pool_ok p → in_u64 p.(TotalShares).
Proof. intros [<- _ _]. apply u64_range. Qed.

Lemma pool_ok_New id : pool_ok (NewPool id).
Proof. by split. Qed.

(** The recorded reserves are what the pool's account holds. *)
Definition pool_synced (id : string) (s : State) : Prop :=
  ∃ p, s.(DEXPools) !! id = Some p ∧
    p.(SynReserve) = (acct s (PoolAddress id)).(Balance) ∧
    p.(AssetReserve) = asset_of (acct s (PoolAddress id)) id.

Lemma share_of_at_or0 p a : share_of p a = at_or0 id p.(Shares) a.
Proof. unfold share_of, at_or0. by destruct (Shares p !! a). Qed.

Lemma u64_congr a b : (a - b) mod 18446744073709551616 = 0 → u64 a = u64 b.
Proof.
  intros H. unfold u64. replace a with (b + (a - b)) by lia.
  rewrite Zplus_mod, H, Z.add_0_r, Z.mod_mod; lia.
Qed.

Lemma u64_add_l a b : u64 (u64 a + b) = u64 (a + b).
Proof. unfold u64. by rewrite Zplus_mod_idemp_l. Qed.

Lemma u64_add_r a b : u64 (a + u64 b) = u64 (a + b).
Proof. unfold u64. by rewrite Zplus_mod_idemp_r. Qed.

Lemma shares_ok_mint p a n syn ast :
  shares_ok p →
  shares_ok (mkPool p.(pl_AssetID) syn ast (u64 (p.(TotalShares) + n))
    (<[a := u64 (share_of p a + n)]> p.(Shares))).
Proof.
  unfold shares_ok. simpl. intros <-. rewrite msum_insert, <- share_of_at_or0. unfold id at 2.
  rewrite u64_add_l, u64_add_r. f_equal. lia.
Qed.

Lemma shares_ok_burn p a n syn ast :
  shares_ok p →
  shares_ok (mkPool p.(pl_AssetID) syn ast (u64 (p.(TotalShares) - n)) (DEX.burn_shares p a n)).
Proof.
  unfold shares_ok, DEX.burn_shares. simpl. intros <-.
  replace (u64 (u64 (msum id (Shares p)) - n)) with (u64 (msum id (Shares p) + - n))
    by (rewrite <- u64_add_l; f_equal; lia).
  destruct (Z.eqb_spec (share_of p a - n) 0).
  - rewrite msum_delete, <- share_of_at_or0. f_equal. lia.
  - rewrite msum_insert, <- share_of_at_or0. unfold id at 2. f_equal. lia.
Qed.

Section ops.
Context (tx : Tx) (s : State) (Hok : ledger_ok s) (Hfee : 0 ≤ tx.(Fee)) (Hamt : in_u64 tx.(Amount)).

Let acc : Account := Get s tx.(From).

Definition dex_post (_ : unit) (s' : State) : Prop :=
  ledger_ok s' ∧ supply s' = supply s - tx.(Fee) ∧ nonce_step tx.(From) s s'.

Lemma bump_post acc' :
  acc'.(Balance) = (acct s tx.(From)).(Balance) → acc'.(AccNonce) = (acct s tx.(From)).(AccNonce) →
  tx.(Fee) ≤ (acct s tx.(From)).(Balance) →
  dex_post tt (put_acct tx.(From) (bump_nonce (set_Balance (u64 (acc'.(Balance) - tx.(Fee))) acc')) s).
Proof.
  intros Hb Hn Hf. pose proof (acct_balance_range s Hok (From tx)). pose proof (spendable_le_max s Hok).
  assert (u64 (Balance acc' - Fee tx) = Balance acc' - Fee tx) as Hu by (apply u64_small; split; lia).
  apply one_party; simpl; [done..|rewrite ?Hu, ?Hn; lia|rewrite Hu; lia|by rewrite Hn].
Qed.

Lemma asset_issue_spec :
  wp (asset_issue tx acc) (λ _ s', dex_post tt s' ∧ s'.(DEXPools) = s.(DEXPools)) (λ _, err_frame s) s.
Proof.
  unfold asset_issue. wp_go; try apply err_frame_refl.
  all: try (destruct (assets_write_made (acct s (From tx)) (dex_asset_id tx) a0); congruence).
  all: match goal with Hw : assets_write _ _ _ = inl _ |- _ => apply assets_write_ok in Hw as (Hb & Hn & _) end.
  all: split; [|done]; apply bump_post; [done..|]; by apply Z.ltb_ge.
Qed.

(** What the pool operations do beyond that: only the pool traded in changes,
    its record agrees with its account, and its shares still add up. *)
Context (Hpools : pools_ok s).

Definition pool_post (id : string) (s' : State) : Prop :=
  dex_post tt s' ∧ pool_synced id s' ∧
  (∀ id', id' ≠ id → s'.(DEXPools) !! id' = s.(DEXPools) !! id') ∧
  pools_ok s'.

(** Every pool operation ends by writing the pool account, the pool and the
    sender. *)
Lemma pool_post_intro id accP accF p bal :
  tx.(From) ≠ PoolAddress id →
  0 ≤ accP.(Balance) → 0 ≤ bal →
  accP.(Balance) + bal + tx.(Fee) = (acct s (PoolAddress id)).(Balance) + (acct s tx.(From)).(Balance) →
  accP.(AccNonce) = (acct s (PoolAddress id)).(AccNonce) →
  accF.(AccNonce) = (acct s tx.(From)).(AccNonce) →
  p.(SynReserve) = accP.(Balance) → p.(AssetReserve) = asset_of accP id →
  shares_ok p → 0 ≤ p.(AssetReserve) →
  pool_post id (put_acct tx.(From) (bump_nonce (set_Balance bal accF))
                 (put_pool id p (put_acct (PoolAddress id) accP s))).
Proof.
  intros Hne HP HF Hsum HnP HnF Hsyn Hast Hsh Hnn. split_and!.
  - apply two_party; simpl; try done. by rewrite HnF.
  - exists p. simpl. rewrite lookup_insert_eq, acct_put_ne by done.
    change (acct (put_pool id p (put_acct (PoolAddress id) accP s)) (PoolAddress id))
      with (acct (put_acct (PoolAddress id) accP s) (PoolAddress id)).
    by rewrite acct_put_eq.
  - intros id' Hid. simpl. by rewrite lookup_insert_ne.
  - apply map_Forall_insert_2; [by split; rewrite ?Hsyn|done].
Qed.

Context (Hpool : tx.(From) ≠ PoolAddress (dex_asset_id tx)).

Lemma balances_fit :
  0 ≤ (acct s (PoolAddress (dex_asset_id tx))).(Balance) ∧ 0 ≤ (acct s tx.(From)).(Balance) ∧
  (acct s (PoolAddress (dex_asset_id tx))).(Balance) + (acct s tx.(From)).(Balance) ≤ MaxUint64.
Proof.
  pose proof (acct_balance_le2 s Hok (PoolAddress (dex_asset_id tx)) (From tx) (not_eq_sym Hpool)).
  pose proof (acct_balance_range s Hok (PoolAddress (dex_asset_id tx))).
  pose proof (acct_balance_range s Hok (From tx)).
  pose proof (spendable_le_max s Hok). lia.
Qed.

Lemma acct_after_pool accP id p :
  PoolAddress id ≠ tx.(From) →
  acct (put_pool id p (put_acct (PoolAddress id) accP s)) tx.(From) = acct s tx.(From).
Proof. intros. apply (acct_put_ne (PoolAddress id) (From tx) accP s). done. Qed.

Lemma err_frame_pool id : err_frame s (put_pool id (default (NewPool id) (s.(DEXPools) !! id)) s).
Proof.
  destruct (s.(DEXPools) !! id) as [p|] eqn:Hp; simpl; [left|by right; exists id].
  unfold put_pool. rewrite insert_id by done. by destruct s.
Qed.

Lemma put_pool_acct id p q a accP :
  put_pool id p (put_acct a accP (put_pool id q s)) = put_pool id p (put_acct a accP s).
Proof. unfold put_pool, put_acct. simpl. by rewrite insert_insert_eq. Qed.

Lemma pool_ok_default id : pool_ok (default (NewPool id) (s.(DEXPools) !! id)).
Proof. destruct (s.(DEXPools) !! id) eqn:Hp; [by eapply Hpools|apply pool_ok_New]. Qed.

(** The tail the pool operations share: write the pool account, then the pool,
    then the sender, whose asset map exists. *)
Lemma settle_wp id accP p (g : Account → Account) (n : Account → Z) (bal : Account → Z) s0 :
  tx.(From) ≠ PoolAddress id →
  (∀ p accP, put_pool id p (put_acct (PoolAddress id) accP s0) =
             put_pool id p (put_acct (PoolAddress id) accP s)) →
  (g (acct s tx.(From))).(Assets) ≠ None →
  (g (acct s tx.(From))).(AccNonce) = (acct s tx.(From)).(AccNonce) →
  0 ≤ accP.(Balance) → 0 ≤ bal (g (acct s tx.(From))) →
  accP.(Balance) + bal (g (acct s tx.(From))) + tx.(Fee) =
    (acct s (PoolAddress id)).(Balance) + (acct s tx.(From)).(Balance) →
  accP.(AccNonce) = (acct s (PoolAddress id)).(AccNonce) →
  p.(SynReserve) = accP.(Balance) → p.(AssetReserve) = asset_of accP id →
  shares_ok p → 0 ≤ p.(AssetReserve) →
  wp (modify (put_acct (PoolAddress id) accP);;
      modify (put_pool id p);;
      settled ← gets (λ s, g (acct s tx.(From)));
      settled' ← lift (assets_write settled id (n settled));
      modify (put_acct tx.(From) (bump_nonce (set_Balance (bal settled) settled'))))
    (λ _, pool_post id) (λ _, err_frame s) s0.
Proof.
  intros Hne Hs0 Hnil Hn HP HF Hsum HnP Hsyn Hast Hsh Hnn.
  wp_go; rewrite Hs0, acct_after_pool in * by done.
  - match goal with Hw : assets_write _ _ _ = inl _ |- _ => apply assets_write_ok in Hw as (_ & Hn' & _) end.
    apply pool_post_intro; try done. by rewrite Hn'.
  - match goal with Hw : assets_write _ _ _ = inr _ |- _ => by apply assets_write_err in Hw end.
Qed.

Lemma pick_nonneg (b : bool) items key :
  0 ≤ (if b then tx.(Amount) else (parseTxMetadataUint64 items key).1).
Proof. destruct b; [apply Hamt|apply parseTxMetadataUint64_range]. Qed.

(** Forget how an amount was chosen, keeping that it is not negative. *)
Ltac pick_amounts :=
  repeat lazymatch goal with
  | |- context [if ?b then Amount tx else (parseTxMetadataUint64 ?m ?k).1] =>
      let H := fresh "Hpick" in let x := fresh "x" in
      pose proof (pick_nonneg b m k) as H; revert H;
      generalize (if b then Amount tx else (parseTxMetadataUint64 m k).1); intros x H
  end.

(** Tests read as facts. *)
Ltac tidy :=
  repeat match goal with
  | H : (_ || _) = false |- _ => apply orb_false_iff in H as [? ?]
  | H : (_ =? _) = false |- _ => apply Z.eqb_neq in H
  | H : (_ <? _) = false |- _ => apply Z.ltb_ge in H
  | H : (_ <=? _) = false |- _ => apply Z.leb_gt in H
  | H : safeAdd _ _ = inl _ |- _ => apply safeAdd_inl in H as [? ->]
  | H : _ ≤ Balance acc |- _ => change (Balance acc) with (Balance (acct s (From tx))) in H
  | H : _ ≤ asset_of acc ?i |- _ => change (asset_of acc i) with (asset_of (acct s (From tx)) i) in H
  end.

(** Use that the pool account's asset entry was written. *)
Ltac pool_written :=
  match goal with Hw : assets_write _ _ _ = inl _ |- _ =>
    pose proof (assets_write_of _ _ _ _ Hw); apply assets_write_ok in Hw as (? & ? & _) end.

(** Run [wp_go] up to the settlement. *)
Ltac wp_until_settle :=
  repeat (lazymatch goal with |- wp (modify (put_acct _ _);; _) _ _ _ => fail | _ => idtac end;
          wp_step fail; cbv beta).

Lemma dex_add_liquidity_spec :
  wp (dex_add_liquidity tx acc) (λ _, pool_post (dex_asset_id tx)) (λ _, err_frame s) s.
Proof.
  unfold dex_add_liquidity. pose proof balances_fit as (HbP & HbF & Hb).
  cbv zeta.
  pick_amounts. wp_until_settle; try apply err_frame_refl; try apply err_frame_pool. tidy.
  pool_written.
  apply (settle_wp _ _ _ (λ a, a) (λ a, u64 (asset_of a (dex_asset_id tx) - x0))
           (λ a, u64 (Balance a - (x + Fee tx)))); simpl; try done.
  - intros ??. apply put_pool_acct.
  - apply (asset_of_Some _ (dex_asset_id tx)). lia.
  - apply u64_range.
  - apply u64_range.
  - rewrite !u64_small by (split; lia). lia.
  - by apply shares_ok_mint, pool_ok_default.
  - apply u64_range.
Qed.

Lemma dex_remove_liquidity_spec :
  wp (dex_remove_liquidity tx acc) (λ _, pool_post (dex_asset_id tx)) (λ _, err_frame s) s.
Proof.
  unfold dex_remove_liquidity. pose proof balances_fit as (HbP & HbF & Hb).
  wp_until_settle; try apply err_frame_refl. tidy. pool_written.
  match goal with H : DEXPools s !! _ = Some p |- _ => pose proof (Hpools _ _ H) as Hp end.
  pose proof (pool_ok_total _ Hp) as [HT _].
  set (out := u64 (z * SynReserve p) / TotalShares p) in *.
  assert (0 ≤ out) by (apply Z.div_pos; [apply u64_range|lia]).
  apply (settle_wp _ _ _ make_assets
    (λ a, u64 (asset_of a (dex_asset_id tx) + u64 (z * AssetReserve p) / TotalShares p))
    (λ a, u64 (u64 (Balance a - Fee tx) + out))); simpl; try done; try apply u64_range; try lia.
  - rewrite (u64_small (_ - _)) by (split; lia). rewrite u64_small by (split; lia). lia.
  - apply shares_ok_burn, Hp.
Qed.

Lemma swap_syn_for_asset_spec p n m :
  s.(DEXPools) !! dex_asset_id tx = Some p → 0 ≤ n →
  wp (swap_syn_for_asset tx acc (dex_asset_id tx) p n m)
    (λ _, pool_post (dex_asset_id tx)) (λ _, err_frame s) s.
Proof.
  intros Hp%Hpools Hn0. unfold swap_syn_for_asset. pose proof balances_fit as (HbP & HbF & Hb).
  wp_until_settle; try apply err_frame_refl. tidy. pool_written.
  apply (settle_wp _ _ _ make_assets (λ b, u64 (asset_of b (dex_asset_id tx) + a))
    (λ a, u64 (Balance a - (n + Fee tx)))); simpl; try done; try apply u64_range; try lia.
  - rewrite !u64_small by (split; lia). lia.
  - apply Hp.
Qed.

Lemma swap_asset_for_syn_spec p n m :
  s.(DEXPools) !! dex_asset_id tx = Some p → 0 < n →
  wp (swap_asset_for_syn tx acc (dex_asset_id tx) p n m)
    (λ _, pool_post (dex_asset_id tx)) (λ _, err_frame s) s.
Proof.
  intros Hp%Hpools Hn0. unfold swap_asset_for_syn. pose proof balances_fit as (HbP & HbF & Hb).
  wp_until_settle; try apply err_frame_refl. tidy. pool_written.
  match goal with H : GetAmountOut _ _ _ = _ |- _ =>
    apply GetAmountOut_safe in H as [[? _] _]; [|lia|apply Hp..] end.
  apply (settle_wp _ _ _ (λ a, a) (λ a, u64 (asset_of a (dex_asset_id tx) - n))
    (λ b, u64 (u64 (Balance b - Fee tx) + a))); simpl; try done; try apply u64_range; try lia.
  - apply (asset_of_Some _ (dex_asset_id tx)). lia.
  - rewrite (u64_small (_ - _)) by (split; lia). rewrite u64_small by (split; lia). lia.
  - apply Hp.
Qed.

Lemma dex_swap_spec :
  wp (dex_swap tx acc) (λ _, pool_post (dex_asset_id tx)) (λ _, err_frame s) s.
Proof.
  unfold dex_swap. cbv zeta.
  assert (0 ≤ if Amount tx =? 0 then (parseTxMetadataUint64 (Metadata tx) "amount_in").1 else Amount tx) as Hn
    by (case_match; [apply parseTxMetadataUint64_range|apply Hamt]).
  revert Hn. generalize (if Amount tx =? 0 then (parseTxMetadataUint64 (Metadata tx) "amount_in").1 else Amount tx).
  intros n Hn. wp_go; try apply err_frame_refl; tidy.
  - by apply swap_syn_for_asset_spec.
  - apply swap_asset_for_syn_spec; [done|lia].
Qed.

(** All four together. *)
Lemma applyDEXTx_spec txType :
  wp (applyDEXTx tx txType)
    (λ _ s', tx.(Nonce) = (acct s tx.(From)).(AccNonce) ∧ dex_post tt s' ∧ pools_ok s')
    (λ _, err_frame s) s.
Proof.
  unfold applyDEXTx. wp_go; try apply err_frame_refl.
  all: match goal with H : negb _ = false |- _ => apply negb_false_iff, Z.eqb_eq in H end.
  - eapply wp_mono; [apply asset_issue_spec| |done]. intros [] s' [? Hd]. unfold pools_ok. by rewrite Hd.
  - eapply wp_mono; [apply dex_add_liquidity_spec| |done]. by intros [] s' (? & _ & _ & ?).
  - eapply wp_mono; [apply dex_remove_liquidity_spec| |done]. by intros [] s' (? & _ & _ & ?).
  - eapply wp_mono; [apply dex_swap_spec| |done]. by intros [] s' (? & _ & _ & ?).
Qed.

End ops.

(** Only accounts and pools are touched. *)
Definition dex_frame (s s' : State) : Prop :=
  s' = set_DEXPools s'.(DEXPools) (set_Accounts s'.(Accounts) s).

Lemma dex_frame_refl s : dex_frame s s.
Proof. by destruct s. Qed.

Lemma applyDEXTx_frame tx txType s :
  wp (applyDEXTx tx txType) (λ _, dex_frame s) (λ _, dex_frame s) s.
Proof.
  unfold applyDEXTx, asset_issue, dex_add_liquidity, dex_remove_liquidity, dex_swap,
    swap_syn_for_asset, swap_asset_for_syn.
  wp_go; first [apply dex_frame_refl | reflexivity].
Qed.
