(* ===== verification/Bridge.v ===== *)
(** The bridge and immune-node registries (internal/chain/core.go):
    [applyBridgeMetadata], [verifyBridgeReleaseProofLocked],
    [applyImmuneMetadata] and their read-only reports. *)
From stdpp Require Import base strings list gmap.
From S2P Require Import Prelude GoStd Sha256 Json JsonParse Types Ledger TxModel.

#[local] Open Scope string_scope.
#[local] Open Scope Z_scope.

Definition nl : string := String (chr 10) "".

(** [bridgeMessageID] *)
Definition bridgeMessageID (sourceChainID sourceEventID recipient assetID : string) (amount : Z) : string :=
  hex0x (sha256 ("SYNTHOS_BRIDGE_NATIVE_RELEASE_V1|" +:+ sourceChainID +:+ "|" +:+ sourceEventID +:+ "|"
    +:+ ToLower recipient +:+ "|" +:+ assetID +:+ "|" +:+ fmt_d amount)).

(** [BridgeReleaseSigningMessage] *)
Definition BridgeReleaseSigningMessage (sourceChainID sourceEventID recipient assetID : string) (amount : Z) : string :=
  let assetID := if empty_str assetID then "syn" else assetID in
  "SYNTHOS_BRIDGE_RELEASE_V1" +:+ nl +:+ "source_chain_id=" +:+ sourceChainID
  +:+ nl +:+ "source_event_id=" +:+ sourceEventID +:+ nl +:+ "recipient=" +:+ ToLower recipient
  +:+ nl +:+ "asset_id=" +:+ assetID +:+ nl +:+ "amount=" +:+ fmt_d amount.

(** [json.Unmarshal] of the [validator_signatures] metadata. *)
Definition unmarshal_signatures (raw : string) : option (list BridgeValidatorSignature) :=
  map (λ v, mkBridgeSig (default "" (v !! 0%nat)) (default "" (v !! 1%nat)))
    <$> unmarshal_structs ["validator_id"; "signature"] raw.

Section with_ed25519.
Context `{E : Ed25519}.

(** The loop over the signatures: [seen] is the set of validators counted so
    far, [valid] their number. *)
Fixpoint count_signatures (validators : gmap string string) (message : string)
    (sigs : list BridgeValidatorSignature) (seen : gset string) (valid : Z) : res Z :=
  match sigs with
  | [] => inl valid
  | item :: sigs =>
      if empty_str item.(bs_ValidatorID) || bool_decide (item.(bs_ValidatorID) ∈ seen)
      then count_signatures validators message sigs seen valid
      else
        match validators !! item.(bs_ValidatorID) with
        | None => count_signatures validators message sigs seen valid
        | Some pubHex =>
            match decode_fixed pubHex 32 with
            | None => inr (Err "invalid bridge validator public key")
            | Some pub =>
                match decode_fixed item.(bs_Signature) 64 with
                | None => count_signatures validators message sigs seen valid
                | Some sg =>
                    if ed_Verify pub message sg
                    then count_signatures validators message sigs
                           ({[item.(bs_ValidatorID)]} ∪ seen) (u64 (valid + 1))
                    else count_signatures validators message sigs seen valid
                end
            end
        end
  end.

(** How many signatures a release needs. *)
Definition bridge_required (s : State) : Z :=
  if s.(BridgeQuorum) =? 0 then (2 * Z.of_nat (size s.(BridgeValidators)) + 2) / 3
  else s.(BridgeQuorum).

(** [State.verifyBridgeReleaseProofLocked] *)
Definition verifyBridgeReleaseProof (s : State) (tx : Tx) (sourceChainID sourceEventID assetID : string) : res unit :=
  if bool_decide (size s.(BridgeValidators) = 0%nat) then
    inr (Err "bridge release rejected: no bridge validators configured")
  else
    let raw := metadataValue tx.(Metadata) "validator_signatures" in
    if empty_str raw then inr (Err "missing validator_signatures for bridge release")
    else
      match unmarshal_signatures raw with
      | None => inr (Err "invalid validator_signatures")
      | Some signatures =>
          let required := bridge_required s in
          if (required =? 0) || (Z.of_nat (size s.(BridgeValidators)) <? required)
          then inr (Err "invalid bridge quorum")
          else
            let message := BridgeReleaseSigningMessage sourceChainID sourceEventID tx.(To) assetID tx.(Amount) in
            match count_signatures s.(BridgeValidators) message signatures ∅ 0 with
            | inr e => inr e
            | inl valid =>
                if valid <? required then inr (Err "bridge validator quorum not met") else inl tt
            end
      end.

Definition tx_asset (tx : Tx) : string := if empty_str tx.(AssetID) then "syn" else tx.(AssetID).

Definition bridge_lock (tx : Tx) : SM State unit :=
  let destinationChainID := metadataValue tx.(Metadata) "destination_chain_id" in
  let destinationRecipient := metadataValue tx.(Metadata) "destination_recipient" in
  fail_if (empty_str destinationChainID) (Err "missing destination_chain_id for bridge lock");;
  fail_if (empty_str destinationRecipient) (Err "missing destination_recipient for bridge lock");;
  let eventID0 := metadataValue tx.(Metadata) "bridge_event_id" in
  let eventID := if empty_str eventID0 then tx.(ID) else eventID0 in
  s ← get;
  fail_if (bool_decide (is_Some (s.(BridgeEvents) !! eventID))) (Err "duplicate bridge event");;
  modify (set_BridgeEvents (<[eventID := {|
    br_ID := eventID; br_Type := "bridge_lock_native"; br_Address := tx.(From);
    br_Recipient := tx.(To); br_Amount := tx.(Amount); br_AssetID := tx_asset tx;
    br_SourceChainID := ""; br_DestinationChainID := destinationChainID;
    br_SourceEventID := ""; br_DestinationRecipient := destinationRecipient;
    br_TxID := tx.(ID); br_Timestamp := tx.(Timestamp) |}]> s.(BridgeEvents)));;
  modify (set_LastBridgeEventID eventID).

Definition release_id (tx : Tx) : string :=
  bridgeMessageID (metadataValue tx.(Metadata) "source_chain_id")
    (metadataValue tx.(Metadata) "source_event_id") tx.(To) (tx_asset tx) tx.(Amount).

Definition bridge_release (tx : Tx) : SM State unit :=
  let sourceChainID := metadataValue tx.(Metadata) "source_chain_id" in
  let sourceEventID := metadataValue tx.(Metadata) "source_event_id" in
  fail_if (empty_str sourceChainID) (Err "missing source_chain_id for bridge release");;
  fail_if (empty_str sourceEventID) (Err "missing source_event_id for bridge release");;
  s ← get;
  lift (verifyBridgeReleaseProof s tx sourceChainID sourceEventID (tx_asset tx));;
  let messageID := release_id tx in
  fail_if (default false (s.(ProcessedBridgeEvents) !! messageID)) (Err "bridge source event already processed");;
  modify (set_ProcessedBridgeEvents (<[messageID := true]> s.(ProcessedBridgeEvents)));;
  modify (set_BridgeEvents (<[messageID := {|
    br_ID := messageID; br_Type := "bridge_release_native"; br_Address := tx.(To);
    br_Recipient := ""; br_Amount := tx.(Amount); br_AssetID := tx_asset tx;
    br_SourceChainID := sourceChainID; br_DestinationChainID := "";
    br_SourceEventID := sourceEventID; br_DestinationRecipient := "";
    br_TxID := tx.(ID); br_Timestamp := tx.(Timestamp) |}]> s.(BridgeEvents)));;
  modify (set_LastBridgeEventID messageID).

(** [State.applyBridgeMetadata] *)
Definition applyBridgeMetadata (tx : Tx) : SM State unit :=
  let txType := metadataValue tx.(Metadata) "type" in
  if bool_decide (txType = "bridge_lock_native") then bridge_lock tx
  else if bool_decide (txType = "bridge_release_native") then bridge_release tx
  else mret tt.

End with_ed25519.

(* ------------------------------------------------------------------ *)
(** * Immune nodes *)

Definition ImmuneNode_zero : ImmuneNodeRecord := mkImmuneNode "" "" 0 0 0 false "".

Definition immune_node_activate (tx : Tx) : SM State unit :=
  let hardwareHash := metadataValue tx.(Metadata) "hardware_hash" in
  fail_if (empty_str hardwareHash) (Err "missing hardware_hash for immune node activation");;
  s ← get;
  let r := default ImmuneNode_zero (s.(ImmuneNodes) !! tx.(From)) in
  let fresh := empty_str r.(in_Address) in
  modify (set_ImmuneNodes (<[tx.(From) := {|
    in_Address := if fresh then tx.(From) else r.(in_Address);
    in_HardwareHash := hardwareHash;
    in_ActivatedAt := if fresh then tx.(Timestamp) else r.(in_ActivatedAt);
    in_LastProofAt := r.(in_LastProofAt);
    in_SovereignProofs := r.(in_SovereignProofs);
    in_OptInLocalOnly := negb (bool_decide (metadataValue tx.(Metadata) "scope" = "external"));
    in_CryptographicMode := if fresh then "absolute_silence" else r.(in_CryptographicMode)
  |}]> s.(ImmuneNodes))).

Definition sovereign_noise_proof (tx : Tx) : SM State unit :=
  let proofHash := metadataValue tx.(Metadata) "proof_hash" in
  fail_if (empty_str proofHash) (Err "missing proof_hash for sovereign noise proof");;
  let scope0 := metadataValue tx.(Metadata) "scope" in
  let scope := if empty_str scope0 then "local_opt_in" else scope0 in
  fail_if (negb (bool_decide (scope = "local_opt_in")) && negb (bool_decide (scope = "local_browser"))
           && negb (bool_decide (scope = "testnet")))
    (Err "sovereign noise proofs must be opt-in local/testnet scope");;
  s ← get;
  let r := default ImmuneNode_zero (s.(ImmuneNodes) !! tx.(From)) in
  fail_if (empty_str r.(in_Address)) (Err "immune node must be activated before submitting proofs");;
  modify (set_ImmuneNodes (<[tx.(From) := {|
    in_Address := r.(in_Address);
    in_HardwareHash := r.(in_HardwareHash);
    in_ActivatedAt := r.(in_ActivatedAt);
    in_LastProofAt := tx.(Timestamp);
    in_SovereignProofs := u64 (r.(in_SovereignProofs) + 1);
    in_OptInLocalOnly := r.(in_OptInLocalOnly);
    in_CryptographicMode := r.(in_CryptographicMode) |}]> s.(ImmuneNodes)));;
  modify (set_SovereignProofs (<[tx.(ID) := {|
    sp_ID := tx.(ID); sp_Address := tx.(From); sp_ProofHash := proofHash;
    sp_NoiseClass := metadataValue tx.(Metadata) "noise_class";
    sp_DeclaredScope := scope; sp_Timestamp := tx.(Timestamp) |}]> s.(SovereignProofs)));;
  modify (set_LastSovereignProofID tx.(ID)).

(** [State.applyImmuneMetadata] *)
Definition applyImmuneMetadata (tx : Tx) : SM State unit :=
  let txType := metadataValue tx.(Metadata) "type" in
  if bool_decide (txType = "immune_node_activate") then immune_node_activate tx
  else if bool_decide (txType = "sovereign_noise_proof") then sovereign_noise_proof tx
  else mret tt.

(** [State.EnsureImmuneNode] *)
Definition EnsureImmuneNode (address : Address) (hardwareHash : string) (activatedAt : Z) : SM State bool :=
  if empty_str address || empty_str hardwareHash then mret false
  else
    s ← get;
    if bool_decide (is_Some (s.(ImmuneNodes) !! address)) then mret false
    else
      modify (set_ImmuneNodes (<[address :=
        mkImmuneNode address hardwareHash activatedAt 0 0 true "absolute_silence"]> s.(ImmuneNodes)));;
      mret true.

(* ------------------------------------------------------------------ *)
(** * Reports *)

Record BridgeStats : Type := mkBridgeStats {
  NativeLocks : Z;
  NativeReleases : Z;
  ProcessedMessages : Z;
  bst_LastBridgeEventID : string
}.

Definition count_events (ty : string) (m : gmap string BridgeRecord) : Z :=
  msum (λ e, if bool_decide (e.(br_Type) = ty) then 1 else 0) m.

(** [State.BridgeStatus] *)
Definition BridgeStatus (s : State) : BridgeStats := {|
  NativeLocks := count_events "bridge_lock_native" s.(BridgeEvents);
  NativeReleases := count_events "bridge_release_native" s.(BridgeEvents);
  ProcessedMessages := Z.of_nat (size s.(ProcessedBridgeEvents));
  bst_LastBridgeEventID := s.(LastBridgeEventID)
|}.

(** Newest first, ties by ID. *)
Definition event_less (a b : BridgeRecord) : bool :=
  if a.(br_Timestamp) =? b.(br_Timestamp) then str_lt a.(br_ID) b.(br_ID)
  else b.(br_Timestamp) <? a.(br_Timestamp).

(** [State.BridgeEventsSnapshot] *)
Definition BridgeEventsSnapshot (s : State) : list BridgeRecord :=
  sort_slice event_less (map snd (map_to_list s.(BridgeEvents))).

Record ImmuneStats : Type := mkImmuneStats {
  ActiveImmuneNodes : Z;
  is_SovereignProofs : Z;
  LastProofHash : string;
  CryptographicSilence : bool;
  InboundPortsRequired : Z
}.

(** [State.ImmuneStatus] *)
Definition ImmuneStatus (s : State) : ImmuneStats := {|
  ActiveImmuneNodes := Z.of_nat (size s.(ImmuneNodes));
  is_SovereignProofs := Z.of_nat (size s.(SovereignProofs));
  LastProofHash :=
    if empty_str s.(LastSovereignProofID) then ""
    else from_option sp_ProofHash "" (s.(SovereignProofs) !! s.(LastSovereignProofID));
  CryptographicSilence := true;
  InboundPortsRequired := 0
|}.

(* ------------------------------------------------------------------ *)
(** * Releases need a quorum *)

Section quorum.
Context `{E : Ed25519}.

(** Bridge validator [v] signed [message] with its registered key. *)
Definition approves (validators : gmap string string) (message : string)
    (sigs : list BridgeValidatorSignature) (v : string) : Prop :=
  v ≠ "" ∧ ∃ item pubHex pub sg,
    item ∈ sigs ∧ item.(bs_ValidatorID) = v ∧ validators !! v = Some pubHex ∧
    decode_fixed pubHex 32 = Some pub ∧ decode_fixed item.(bs_Signature) 64 = Some sg ∧
    ed_Verify pub message sg = true.

Lemma approves_cons validators message item sigs v :
  approves validators message sigs v → approves validators message (item :: sigs) v.
Proof. intros (Hv & i & ? & ? & ? & ? & ?). split; [done|]. exists i. repeat eexists; [by right|naive_solver..]. Qed.

Lemma u64_succ_le n k : n ≤ k → 0 ≤ n → u64 (n + 1) ≤ k + 1.
Proof. intros ??. unfold u64. pose proof (Z.mod_le (n + 1) 18446744073709551616). lia. Qed.

Lemma count_signatures_sound validators message all sigs (seen : gset string) valid n :
  (∀ item, item ∈ sigs → item ∈ all) →
  (∀ v, v ∈ seen → approves validators message all v) →
  0 ≤ valid ≤ Z.of_nat (size seen) →
  count_signatures validators message sigs seen valid = inl n →
  ∃ seen' : gset string, n ≤ Z.of_nat (size seen') ∧ ∀ v, v ∈ seen' → approves validators message all v.
Proof.
  revert seen valid. induction sigs as [|item sigs IH]; intros seen valid Hin Hseen Hv; simpl.
  { intros [= <-]. exists seen. split; [lia|done]. }
  assert (∀ i, i ∈ sigs → i ∈ all) as Hin' by (intros; apply Hin; by right).
  destruct (empty_str (bs_ValidatorID item)) eqn:He; simpl; [by apply IH|].
  case_bool_decide as Hs; [by apply IH|].
  destruct (validators !! bs_ValidatorID item) as [pubHex|] eqn:Hl; [|by apply IH].
  destruct (decode_fixed pubHex 32) as [pub|] eqn:Hp; [|done].
  destruct (decode_fixed (bs_Signature item) 64) as [sg|] eqn:Hg; [|by apply IH].
  destruct (ed_Verify pub message sg) eqn:Hver; [|by apply IH].
  apply IH; [done|..].
  - intros v [->%elem_of_singleton|Hv']%elem_of_union; [|by apply Hseen].
    split; [by apply bool_decide_eq_false in He|].
    exists item, pubHex, pub, sg. split_and!; try done. apply Hin. by left.
  - rewrite size_union by set_solver. rewrite size_singleton.
    destruct Hv as [Hv0 Hv]. pose proof (u64_succ_le _ _ Hv Hv0).
    pose proof (u64_range (valid + 1)) as [? _]. lia.
Qed.

(** What an accepted release proof shows: distinct registered validators, as
    many as the quorum asks for, signed exactly this release. *)
Definition release_approved (s : State) (tx : Tx) (chain event asset : string) : Prop :=
  ∃ sigs ids,
    unmarshal_signatures (metadataValue tx.(Metadata) "validator_signatures") = Some sigs ∧
    NoDup ids ∧ bridge_required s ≤ Z.of_nat (length ids) ∧
    0 < bridge_required s ∧
    Forall (approves s.(BridgeValidators)
      (BridgeReleaseSigningMessage chain event tx.(To) asset tx.(Amount)) sigs) ids.

Lemma verifyBridgeReleaseProof_sound s tx chain event asset :
  0 ≤ s.(BridgeQuorum) →
  verifyBridgeReleaseProof s tx chain event asset = inl tt → release_approved s tx chain event asset.
Proof.
  intros Hq. unfold verifyBridgeReleaseProof.
  case_bool_decide as Hsz; [done|]. case_match; [done|].
  destruct (unmarshal_signatures _) as [sigs|] eqn:Hu; [|done].
  destruct (Z.eqb_spec (bridge_required s) 0); simpl; [done|]. case_match; [done|].
  destruct (count_signatures _ _ _ _ _) as [valid|] eqn:Hc; [|done].
  destruct (Z.ltb_spec valid (bridge_required s)); [done|]. intros _.
  apply (count_signatures_sound _ _ sigs) in Hc as (seen & Hn & Hall); [|done|set_solver|rewrite size_empty; lia].
  exists sigs, (elements seen). split_and!; [done|apply NoDup_elements|..].
  - change (length (elements seen)) with (size seen). lia.
  - unfold bridge_required in *. pose proof (Z.div_pos (2 * Z.of_nat (size (BridgeValidators s)) + 2) 3).
    destruct (Z.eqb_spec (BridgeQuorum s) 0); lia.
  - apply Forall_forall. intros v Hv. apply Hall. by apply elem_of_elements.
Qed.

(** The default quorum is a true two-thirds of the validators, rounded up. *)
Lemma bridge_required_default s :
  s.(BridgeQuorum) = 0 →
  2 * Z.of_nat (size s.(BridgeValidators)) ≤ 3 * bridge_required s < 2 * Z.of_nat (size s.(BridgeValidators)) + 3.
Proof.
  intros H. unfold bridge_required. rewrite H. simpl.
  pose proof (Z.div_mod (2 * Z.of_nat (size (BridgeValidators s)) + 2) 3 ltac:(lia)).
  pose proof (Z.mod_pos_bound (2 * Z.of_nat (size (BridgeValidators s)) + 2) 3 ltac:(lia)). lia.
Qed.

End quorum.

(* ------------------------------------------------------------------ *)
(** * Effects *)

(** The registries of this file are the only thing that moves. *)
Definition registry_frame (s s' : State) : Prop :=
  s'.(Accounts) = s.(Accounts) ∧ s'.(CitizenStakes) = s.(CitizenStakes) ∧
  s'.(Validators) = s.(Validators) ∧ s'.(DEXPools) = s.(DEXPools) ∧
  s'.(GovernanceProposals) = s.(GovernanceProposals) ∧
  s'.(TreasuryAddress) = s.(TreasuryAddress) ∧ s'.(BridgeValidators) = s.(BridgeValidators) ∧
  s'.(ValidatorSetSnapshot) = s.(ValidatorSetSnapshot).

Lemma registry_frame_refl s : registry_frame s s.
Proof. by repeat split. Qed.

Lemma registry_frame_trans s1 s2 s3 : registry_frame s1 s2 → registry_frame s2 s3 → registry_frame s1 s3.
Proof. unfold registry_frame. intros (->&->&->&->&->&->&->&->) (->&->&->&->&->&->&->&->). by repeat split. Qed.

Lemma registry_frame_ledger s s' :
  registry_frame s s' → ledger_ok s → ledger_ok s' ∧ supply s' = supply s.
Proof. intros (?&?&?&_) ?. split; [by apply (ledger_ok_same s)|by apply (supply_same s)]. Qed.

Lemma registry_frame_acct s s' a : registry_frame s s' → acct s' a = acct s a.
Proof. intros [H _]. unfold acct. by rewrite H. Qed.

Lemma applyImmuneMetadata_spec tx s :
  wp (applyImmuneMetadata tx) (λ _, registry_frame s) (λ _ s', s' = s) s.
Proof.
  unfold applyImmuneMetadata, immune_node_activate, sovereign_noise_proof.
  wp_go; by try repeat split.
Qed.

Section bridge_effects.
Context `{E : Ed25519}.

(** Processed messages are never forgotten. *)
Definition processed_grow (s s' : State) : Prop :=
  ∀ m, s.(ProcessedBridgeEvents) !! m = Some true → s'.(ProcessedBridgeEvents) !! m = Some true.

Lemma bridge_release_spec tx s :
  0 ≤ s.(BridgeQuorum) →
  wp (bridge_release tx)
    (λ _ s', registry_frame s s' ∧
       release_approved s tx (metadataValue tx.(Metadata) "source_chain_id")
         (metadataValue tx.(Metadata) "source_event_id") (tx_asset tx) ∧
       s.(ProcessedBridgeEvents) !! release_id tx ≠ Some true ∧
       s'.(ProcessedBridgeEvents) = <[release_id tx := true]> s.(ProcessedBridgeEvents))
    (λ _ s', s' = s) s.
Proof.
  intros Hq. unfold bridge_release. wp_go; try done.
  split_and!; [by repeat split|..].
  - destruct a. by apply verifyBridgeReleaseProof_sound.
  - intros Hp. match goal with H : default false _ = false |- _ => by rewrite Hp in H end.
  - done.
Qed.

Lemma applyBridgeMetadata_spec tx s :
  wp (applyBridgeMetadata tx) (λ _ s', registry_frame s s' ∧ processed_grow s s') (λ _ s', s' = s) s.
Proof.
  unfold applyBridgeMetadata, bridge_lock, bridge_release.
  wp_go; try done; (split; [by repeat split|]); intros m Hm; simpl; try done.
  destruct (decide (m = release_id tx)) as [->|]; [by rewrite lookup_insert_eq|by rewrite lookup_insert_ne].
Qed.

(** A processed release is rejected whatever proof comes with it. *)
Lemma bridge_release_replay tx s :
  s.(ProcessedBridgeEvents) !! release_id tx = Some true →
  wp (bridge_release tx) (λ _ _, False) (λ _ s', s' = s) s.
Proof.
  intros Hp. unfold bridge_release. wp_go; try done.
  match goal with H : default false _ = false |- _ => by rewrite Hp in H end.
Qed.

(** The two registries answer to different transaction types, so running both
    either succeeds or leaves the state as it was. *)
Lemma applyMetadata_spec tx s :
  wp (applyImmuneMetadata tx;; applyBridgeMetadata tx) (λ _, registry_frame s) (λ _ s', s' = s) s.
Proof.
  apply wp_bind.
  destruct (decide (metadataValue tx.(Metadata) "type" ∈ ["bridge_lock_native"; "bridge_release_native"])) as [Hin|Hin].
  - assert (applyImmuneMetadata tx = mret tt) as ->.
    { unfold applyImmuneMetadata. by apply elem_of_cons in Hin as [->|[->|[]%not_elem_of_nil]%elem_of_cons]. }
    apply wp_ret. eapply wp_mono; [apply applyBridgeMetadata_spec|by intros ?? [? _]|done].
  - eapply wp_mono; [apply applyImmuneMetadata_spec| |done]. intros [] s' Hs'.
    unfold applyBridgeMetadata. by rewrite !bool_decide_eq_false_2 by set_solver.
Qed.

End bridge_effects.

(* ------------------------------------------------------------------ *)
(** * Threat reports

    [ImmuneSystem] of core.go: reports against an address count with the stake
    of their reporters, and enough stake has the address slashed. The stake
    of an address is an argument; slashing is an effect. *)

Record ThreatProfile : Type := mkThreat { ReporterAddress : Address; TargetAddress : Address; th_Reason : string }.

Record ImmuneSystem : Type := mkImmune { ActiveThreats : gmap Address (list ThreatProfile); SlashThreshold : Z }.

Definition NewImmuneSystem : ImmuneSystem := mkImmune ∅ 1000000.

(** The stake behind a list of reports; it stops growing at the largest
    uint64. *)
Fixpoint reported_stake (GetStake : Address → Z) (threats : list ThreatProfile) (total : Z) : Z :=
  match threats with
  | [] => total
  | t :: threats =>
      let stake := GetStake t.(ReporterAddress) in
      if MaxUint64 - total <? stake then MaxUint64 else reported_stake GetStake threats (total + stake)
  end.

(** The reports against an address once [p] has come in. *)
Definition with_report (p : ThreatProfile) (sys : ImmuneSystem) : list ThreatProfile :=
  let threats := default [] (sys.(ActiveThreats) !! p.(TargetAddress)) in
  ((if MAX_THREATS_PER_ADDR <=? Z.of_nat (length threats) then tail threats else threats) ++ [p])%list.

(** [RecordThreat]: the address to slash, if any. *)
Definition RecordThreat (GetStake : Address → Z) (p : ThreatProfile) (sys : ImmuneSystem) : ImmuneSystem * option Address :=
  let threats := with_report p sys in
  if sys.(SlashThreshold) <=? reported_stake GetStake threats 0
  then (mkImmune (delete p.(TargetAddress) sys.(ActiveThreats)) sys.(SlashThreshold), Some p.(TargetAddress))
  else (mkImmune (<[p.(TargetAddress) := threats]> sys.(ActiveThreats)) sys.(SlashThreshold), None).

Definition record_all (GetStake : Address → Z) (ps : list ThreatProfile) (sys : ImmuneSystem) : ImmuneSystem * list Address :=
  foldl (λ acc p, let '(sys, r) := RecordThreat GetStake p acc.1 in (sys, acc.2 ++ match r with Some a => [a] | None => [] end)%list) (sys, []) ps.

Definition stake_sum (GetStake : Address → Z) (threats : list ThreatProfile) : Z := foldr (λ t acc, GetStake t.(ReporterAddress) + acc) 0 threats.

Lemma stake_sum_nonneg GetStake threats : (∀ a, 0 ≤ GetStake a) → 0 ≤ stake_sum GetStake threats.
Proof. intros Hs. unfold stake_sum. induction threats as [|t l IH]; cbn; [lia|]. pose proof (Hs (ReporterAddress t)). lia. Qed.

Lemma reported_stake_sum GetStake threats total : (∀ a, 0 ≤ GetStake a ≤ MaxUint64) → 0 ≤ total ≤ MaxUint64 →
  reported_stake GetStake threats total = Z.min MaxUint64 (total + stake_sum GetStake threats).
Proof.
  intros Hs. revert total. induction threats as [|t threats IH]; intros total Ht; cbn; [lia|]. pose proof (Hs (ReporterAddress t)) as H1.
  pose proof (stake_sum_nonneg GetStake threats (λ a, proj1 (Hs a))) as Hn. fold (stake_sum GetStake threats).
  destruct (Z.ltb_spec (MaxUint64 - total) (GetStake (ReporterAddress t))); [lia|]. rewrite IH; lia.
Qed.

(** The reports that are kept: about the address they are filed under, and a
    hundred at most. *)
Definition threats_ok (sys : ImmuneSystem) : Prop :=
  map_Forall (λ a l, Forall (λ t, t.(TargetAddress) = a) l ∧ Z.of_nat (length l) ≤ MAX_THREATS_PER_ADDR) sys.(ActiveThreats).

(** A report has its target slashed exactly when the latest hundred reports
    against it, this one included, come with enough stake; only the reports
    against that address change, and they start anew after a slash. *)
Theorem RecordThreat_exact GetStake p sys : (∀ a, 0 ≤ GetStake a ≤ MaxUint64) → threats_ok sys → 0 < sys.(SlashThreshold) ≤ MaxUint64 →
  let '(sys', r) := RecordThreat GetStake p sys in
  (r = Some p.(TargetAddress) ↔ sys.(SlashThreshold) ≤ stake_sum GetStake (with_report p sys)) ∧
  (r = None ∨ r = Some p.(TargetAddress)) ∧
  sys'.(ActiveThreats) !! p.(TargetAddress) = (if r then None else Some (with_report p sys)) ∧
  (∀ a, a ≠ p.(TargetAddress) → sys'.(ActiveThreats) !! a = sys.(ActiveThreats) !! a) ∧ threats_ok sys'.
Proof.
  intros Hs Hok Ht. unfold RecordThreat. rewrite reported_stake_sum; [|done|unfold MaxUint64; lia]. rewrite Z.add_0_l.
  assert (Forall (λ t, TargetAddress t = TargetAddress p) (with_report p sys) ∧ Z.of_nat (length (with_report p sys)) ≤ MAX_THREATS_PER_ADDR) as Hw.
  { unfold with_report. destruct (ActiveThreats sys !! TargetAddress p) as [l|] eqn:Hl; cbn [default]; unfold id; [|by repeat split; [constructor|]].
    destruct (Hok _ _ Hl) as [Hf Hlen]. change MAX_THREATS_PER_ADDR with 100 in *. rewrite Forall_app, Forall_singleton, length_app. cbn [length].
    destruct (Z.leb_spec 100 (Z.of_nat (length l))); [|cbn [length]; split; [done|lia]]. destruct l as [|t l]; cbn [tail length] in *; [split; [done|lia]|].
    apply Forall_cons in Hf as [_ Hf]. split; [done|lia]. }
  destruct (Z.leb_spec (SlashThreshold sys) (Z.min MaxUint64 (stake_sum GetStake (with_report p sys)))); cbn.
  - split; [split; [lia|done]|]. split; [by right|]. split; [apply lookup_delete_eq|]. split; [intros a Ha; by apply lookup_delete_ne|].
    intros a l Hl. cbn in Hl. apply lookup_delete_Some in Hl as [_ Hl]. by apply Hok.
  - split; [split; [done|lia]|]. split; [by left|]. split; [apply lookup_insert_eq|]. split; [intros a Ha; by apply lookup_insert_ne|].
    intros a l Hl. cbn in Hl. apply lookup_insert_Some in Hl as [[<- <-]|[_ Hl]]; [done|by apply Hok].
Qed.

(** A defect: reports are counted, not reporters. One reporter with a
    hundredth of the threshold has anybody slashed by repeating itself. *)
Example one_reporter_slashes :
  let GetStake a := if bool_decide (a = "0xone") then 10000 else 0 in
  (record_all GetStake (replicate 100 (mkThreat "0xone" "0xvictim" "")) NewImmuneSystem).2 = ["0xvictim"].
Proof. vm_compute. reflexivity. Qed.
