(* ===== verification/Merkle.v ===== *)
(** Merkle commitments: [TxMerkleRoot] (internal/chain/merkle.go),
    [buildMerkleRoot], [LeafHash] and [State.Root] (internal/chain/core.go).
    Two lists of the same length with the same root are equal or exhibit a
    SHA-256 collision, which [merkle_collision] computes. *)
From stdpp Require Import base strings list gmap sorting.
From S2P Require Import Prelude GoStd Sha256 Json Types Ledger TxModel.

#[local] Open Scope string_scope.
#[local] Open Scope Z_scope.

(* ------------------------------------------------------------------ *)
(** * Trees *)

(** The hash inputs of the next level: neighbours joined, an odd last node
    joined with itself. *)
Fixpoint level_inputs (level : list string) : list string :=
  match level with
  | lhs :: rhs :: rest => (lhs +:+ rhs) :: level_inputs rest
  | [lhs] => [lhs +:+ lhs]
  | [] => []
  end.

Definition next_level (level : list string) : list string := sha256 <$> level_inputs level.

(** [for len(level) > 1]. Every round halves the level, so its length is
    enough fuel ([merkle_loop_one]). *)
Fixpoint merkle_loop (fuel : nat) (level : list string) : list string :=
  match fuel with
  | O => level
  | S fuel => if (1 <? length level)%nat then merkle_loop fuel (next_level level) else level
  end.

(** [buildMerkleRoot] *)
Definition buildMerkleRoot (leaves : list string) : string :=
  match leaves with
  | [] => sha256 ""
  | _ => default "" (merkle_loop (length leaves) leaves !! 0%nat)
  end.

Definition EmptyTxMerkleRoot : string :=
  "0x0000000000000000000000000000000000000000000000000000000000000000".

Definition tx_bytes (tx : Tx) : string := marshal (tx_json tx).
Definition tx_leaf (tx : Tx) : string := sha256 (tx_bytes tx).

(** [TxMerkleRoot] *)
Definition TxMerkleRoot (txs : list Tx) : string :=
  match txs with
  | [] => EmptyTxMerkleRoot
  | _ => hex0x (default "" (merkle_loop (length txs) (tx_leaf <$> txs) !! 0%nat))
  end.

(* ------------------------------------------------------------------ *)
(** * The state root *)

Definition assets_json (m : option (gmap string Z)) : json :=
  match m with None => JNull | Some m => jmap JNum m end.

Definition leaf_json (addr : Address) (acc : Account) : json :=
  JObj (field "address" (JStr addr) ++ field "balance" (JNum acc.(Balance))
    ++ field "assets" (assets_json acc.(Assets)) ++ field "nonce" (JNum acc.(AccNonce))).

(** [Account.LeafHash] *)
Definition LeafHash (addr : Address) (acc : Account) : string := sha256 (marshal (leaf_json addr acc)).

Definition bridge_record_json (b : BridgeRecord) : json :=
  JObj (field "id" (JStr b.(br_ID)) ++ field "type" (JStr b.(br_Type))
    ++ field "address" (JStr b.(br_Address)) ++ field_str_oe "recipient" b.(br_Recipient)
    ++ field "amount" (JNum b.(br_Amount)) ++ field_str_oe "asset_id" b.(br_AssetID)
    ++ field_str_oe "source_chain_id" b.(br_SourceChainID)
    ++ field_str_oe "destination_chain_id" b.(br_DestinationChainID)
    ++ field_str_oe "source_event_id" b.(br_SourceEventID)
    ++ field_str_oe "destination_recipient" b.(br_DestinationRecipient)
    ++ field "tx_id" (JStr b.(br_TxID)) ++ field "timestamp" (JNum b.(br_Timestamp))).

Definition bridge_payload (s : State) : json :=
  JObj (field "bridge_events" (jmap bridge_record_json s.(BridgeEvents))
    ++ field "processed_bridge_events" (jmap JBool s.(ProcessedBridgeEvents))
    ++ field "bridge_validators" (jmap JStr s.(BridgeValidators))
    ++ field "bridge_quorum" (JNum s.(BridgeQuorum))
    ++ field "last_bridge_event_id" (JStr s.(LastBridgeEventID))).

Definition unbonding_json (u : UnbondingEntry) : json :=
  JObj (field "amount" (JNum u.(ub_Amount)) ++ field "complete_at_height" (JNum u.(CompleteAtHeight))).

Definition validator_json (r : ValidatorRecord) : json :=
  JObj (field "operator" (JStr r.(Operator)) ++ field "consensus_pub_key" (JStr r.(ConsensusPubKey))
    ++ field_str_oe "moniker" r.(Moniker) ++ field_str_oe "endpoint" r.(Endpoint)
    ++ field "self_bond" (JNum r.(SelfBond)) ++ field "first_bond_height" (JNum r.(FirstBondHeight))
    ++ field_arr_oe "unbonding" (map unbonding_json r.(Unbonding))
    ++ field_bool_oe "tombstoned" r.(Tombstoned)).

Definition active_json (v : ActiveValidator) : json :=
  JObj (field "operator" (JStr v.(av_Operator)) ++ field "consensus_pub_key" (JStr v.(av_ConsensusPubKey))
    ++ field_str_oe "moniker" v.(av_Moniker) ++ field_str_oe "endpoint" v.(av_Endpoint)
    ++ field "power" (JNum v.(av_Power))).

Definition fee_epoch_payload (s : State) : json :=
  JObj (field "treasury_income" (JNum s.(FeeEpochTreasuryIncome))
    ++ field "total_power" (JNum s.(FeeEpochTotalPower))
    ++ field "signed_power" (jmap JNum s.(FeeEpochSignedPower))).

(** Accounts in address order. *)
Definition sorted_accounts (s : State) : list (Address * Account) :=
  sort_slice key_less (map_to_list s.(Accounts)).

Definition account_leaves (s : State) : list string :=
  (λ kv, LeafHash kv.1 kv.2) <$> sorted_accounts s.

Definition root_leaves (s : State) : list string :=
  account_leaves s ++ [sha256 (marshal (bridge_payload s))]
  ++ (if bool_decide (size s.(Validators) = 0%nat) then []
      else [sha256 ("synthos/validators/v1:" +:+ marshal (jmap validator_json s.(Validators)))])
  ++ (if bool_decide (s.(ValidatorSetSnapshot) = []) then []
      else [sha256 ("synthos/validator-set-snapshot/v1:" +:+ marshal (JArr (map active_json s.(ValidatorSetSnapshot))))])
  ++ (if (0 <? s.(FeeEpochTreasuryIncome)) || (0 <? s.(FeeEpochTotalPower))
         || negb (bool_decide (size s.(FeeEpochSignedPower) = 0%nat))
      then [sha256 ("synthos/fee-epoch/v1:" +:+ marshal (fee_epoch_payload s))] else []).

(** [State.Root] *)
Definition Root (s : State) : string := hex0x (buildMerkleRoot (root_leaves s)).

(* ------------------------------------------------------------------ *)
(** * The loop ends at one node *)

Lemma level_ind (P : list string → Prop) :
  P [] → (∀ x, P [x]) → (∀ x y l, P l → P (x :: y :: l)) → ∀ l, P l.
Proof. intros H0 H1 H2. fix go 1. intros [|x [|y l]]; [done|apply H1|apply H2, go]. Qed.

Lemma length_level_inputs l : length (level_inputs l) = ((length l + 1) / 2)%nat.
Proof.
  induction l as [|x|x y l IH] using level_ind; [done..|].
  cbn [level_inputs length]. rewrite IH.
  replace (S (S (length l)) + 1)%nat with (length l + 1 + 1 * 2)%nat by lia.
  rewrite Nat.div_add by lia. lia.
Qed.

Lemma length_next_level l : length (next_level l) = ((length l + 1) / 2)%nat.
Proof. unfold next_level. by rewrite length_fmap, length_level_inputs. Qed.

Lemma next_level_shorter l : (1 < length l)%nat → (0 < length (next_level l) < length l)%nat.
Proof.
  intros Hl. rewrite length_next_level. split; [apply Nat.div_str_pos; lia|].
  apply Nat.div_lt_upper_bound; lia.
Qed.

Lemma merkle_loop_one fuel l : (0 < length l ≤ fuel)%nat → length (merkle_loop fuel l) = 1%nat.
Proof.
  revert l. induction fuel as [|fuel IH]; intros l Hl; [lia|]. simpl.
  destruct (Nat.ltb_spec 1 (length l)); [|lia]. apply IH. pose proof (next_level_shorter l). lia.
Qed.

Lemma merkle_loop_step fuel l :
  (1 < length l ≤ fuel)%nat → merkle_loop fuel l = merkle_loop (length (next_level l)) (next_level l).
Proof.
  assert (∀ f1 f2 l, (0 < length l ≤ f1)%nat → (0 < length l ≤ f2)%nat → merkle_loop f1 l = merkle_loop f2 l) as Hfuel.
  { induction f1 as [|f1 IH]; intros [|f2] k H1 H2; try lia. simpl.
    destruct (Nat.ltb_spec 1 (length k)); [|done]. pose proof (next_level_shorter k). apply IH; lia. }
  intros Hl. destruct fuel as [|fuel]; [lia|]. simpl.
  destruct (Nat.ltb_spec 1 (length l)); [|lia]. pose proof (next_level_shorter l). apply Hfuel; lia.
Qed.

(* ------------------------------------------------------------------ *)
(** * Equal roots *)

(** The first place where two lists of hash inputs differ. *)
Fixpoint first_diff (l1 l2 : list string) : option (string * string) :=
  match l1, l2 with
  | x :: l1, y :: l2 => if decide (x = y) then first_diff l1 l2 else Some (x, y)
  | _, _ => None
  end.

(** Two different inputs with the same digest, found by comparing two trees
    level by level. *)
Fixpoint merkle_collision (fuel : nat) (l1 l2 : list string) : option (string * string) :=
  match fuel with
  | O => None
  | S fuel =>
      if decide (next_level l1 = next_level l2) then first_diff (level_inputs l1) (level_inputs l2)
      else merkle_collision fuel (next_level l1) (next_level l2)
  end.

Definition collision (o : option (string * string)) : Prop :=
  ∃ x y, o = Some (x, y) ∧ x ≠ y ∧ sha256 x = sha256 y.

Lemma first_diff_collision l1 l2 :
  l1 ≠ l2 → sha256 <$> l1 = sha256 <$> l2 → collision (first_diff l1 l2).
Proof.
  revert l2. induction l1 as [|x l1 IH]; intros [|y l2]; [done..|].
  rewrite !fmap_cons. intros Hne [= Hh Ht]. simpl. case_decide as Hd.
  - apply IH; [by intros ->; subst|done].
  - by exists x, y.
Qed.

Definition node_sized (l : list string) : Prop := Forall (λ x, String.length x = 32%nat) l.

Lemma append_inj_length x1 y1 x2 y2 :
  String.length x1 = String.length x2 → x1 +:+ y1 = x2 +:+ y2 → x1 = x2 ∧ y1 = y2.
Proof.
  revert x2. induction x1 as [|a x1 IH]; intros [|b x2]; simpl; try done.
  intros [= Hl] [= -> Ha]. destruct (IH x2 Hl Ha) as [-> ->]. done.
Qed.

Lemma node_sized_next l : node_sized (next_level l).
Proof. apply Forall_fmap, Forall_true. intros x. apply length_sha256. Qed.

Lemma level_inputs_inj l1 l2 :
  node_sized l1 → node_sized l2 → length l1 = length l2 → level_inputs l1 = level_inputs l2 → l1 = l2.
Proof.
  revert l2. induction l1 as [|x|x y l1 IH] using level_ind; intros l2 H1 H2 Hl.
  - by destruct l2.
  - destruct l2 as [|x' [|]]; try done. simpl. intros [= He].
    apply append_inj_length in He as [-> _]; [done|].
    apply Forall_cons in H1 as [-> _]. by apply Forall_cons in H2 as [-> _].
  - destruct l2 as [|x' [|y' l2]]; try done. simpl. intros [= He Hr].
    apply Forall_cons in H1 as [Hx [Hy H1]%Forall_cons]. apply Forall_cons in H2 as [Hx' [Hy' H2]%Forall_cons].
    apply append_inj_length in He as [-> ->]; [|by rewrite Hx].
    f_equal. f_equal. apply IH; try done. simpl in Hl. lia.
Qed.

Lemma merkle_collision_found fuel l1 l2 :
  node_sized l1 → node_sized l2 → length l1 = length l2 → (0 < length l1 ≤ fuel)%nat →
  l1 ≠ l2 → merkle_loop fuel l1 = merkle_loop fuel l2 →
  collision (merkle_collision fuel l1 l2).
Proof.
  revert l1 l2. induction fuel as [|fuel IH]; intros l1 l2 H1 H2 Hl Hf Hne; [lia|]. simpl.
  rewrite <- Hl. destruct (Nat.ltb_spec 1 (length l1)) as [Hlt|]; [|done].
  intros Hroot. case_decide as Hd.
  - apply first_diff_collision; [|done]. intros He. apply Hne. by apply level_inputs_inj.
  - pose proof (next_level_shorter l1 Hlt). apply IH; auto using node_sized_next; [|lia].
    by rewrite !length_next_level, Hl.
Qed.

Lemma hex0x_inj x y : hex0x x = hex0x y → x = y.
Proof. intros [= H]. by apply hexEncode_inj. Qed.

Lemma lookup0_eq (l1 l2 : list string) :
  length l1 = 1%nat → length l2 = 1%nat → default "" (l1 !! 0%nat) = default "" (l2 !! 0%nat) → l1 = l2.
Proof. destruct l1 as [|? []], l2 as [|? []]; simpl; congruence. Qed.

Lemma node_sized_tx txs : node_sized (tx_leaf <$> txs).
Proof. apply Forall_fmap, Forall_true. intros t. apply length_sha256. Qed.

(** The collision two transaction lists with one root would exhibit: in the
    leaves, or else in the tree. *)
Definition tx_collision (l1 l2 : list Tx) : option (string * string) :=
  if decide (tx_leaf <$> l1 = tx_leaf <$> l2)
  then first_diff (tx_bytes <$> l1) (tx_bytes <$> l2)
  else merkle_collision (length l1) (tx_leaf <$> l1) (tx_leaf <$> l2).

Lemma TxMerkleRoot_binding_aux l1 l2 :
  length l1 = length l2 → TxMerkleRoot l1 = TxMerkleRoot l2 →
  tx_bytes <$> l1 = tx_bytes <$> l2 ∨ collision (tx_collision l1 l2).
Proof.
  intros Hl Hr. destruct (decide (tx_bytes <$> l1 = tx_bytes <$> l2)) as [|Hne];
    [by left|right].
  unfold tx_collision. case_decide as Hd.
  - apply first_diff_collision; [done|]. by rewrite <- !list_fmap_compose.
  - destruct l1 as [|t1 l1], l2 as [|t2 l2]; try done.
    apply hex0x_inj, lookup0_eq in Hr; [|apply merkle_loop_one; rewrite length_fmap; simpl; lia..].
    rewrite <- Hl in Hr. apply merkle_collision_found; auto using node_sized_tx; rewrite ?length_fmap; simpl; lia || done.
Qed.

(* ------------------------------------------------------------------ *)
(** * The root is a function of the committed state *)

#[global] Instance key_less_weak {V} : StrictWeak (@key_less V).
Proof. apply (key_weak str_lt fst). Qed.

(** Whatever order Go's map iteration delivers the entries in, sorting by key
    gives the same list. *)
Lemma sort_map_order {V} (m : gmap string V) l :
  l ≡ₚ map_to_list m → sort_slice key_less l = sort_slice key_less (map_to_list m).
Proof.
  intros Hp. symmetry. apply (sort_slice_unique key_less); [|done].
  intros [k1 v1] [k2 v2] H1%elem_of_map_to_list H2%elem_of_map_to_list Hl Hg.
  pose proof (str_lt_total k1 k2 Hl Hg). naive_solver.
Qed.

(** The fields [Root] reads. *)
Record same_committed (s1 s2 : State) : Prop := {
  sc_accounts : s1.(Accounts) = s2.(Accounts);
  sc_events : s1.(BridgeEvents) = s2.(BridgeEvents);
  sc_processed : s1.(ProcessedBridgeEvents) = s2.(ProcessedBridgeEvents);
  sc_bvalidators : s1.(BridgeValidators) = s2.(BridgeValidators);
  sc_quorum : s1.(BridgeQuorum) = s2.(BridgeQuorum);
  sc_last : s1.(LastBridgeEventID) = s2.(LastBridgeEventID);
  sc_validators : s1.(Validators) = s2.(Validators);
  sc_snapshot : s1.(ValidatorSetSnapshot) = s2.(ValidatorSetSnapshot);
  sc_income : s1.(FeeEpochTreasuryIncome) = s2.(FeeEpochTreasuryIncome);
  sc_power : s1.(FeeEpochTotalPower) = s2.(FeeEpochTotalPower);
  sc_signed : s1.(FeeEpochSignedPower) = s2.(FeeEpochSignedPower)
}.

Lemma Root_committed s1 s2 : same_committed s1 s2 → Root s1 = Root s2.
Proof.
  intros [H1 H2 H3 H4 H5 H6 H7 H8 H9 H10 H11].
  unfold Root, root_leaves, account_leaves, sorted_accounts, bridge_payload, fee_epoch_payload.
  by rewrite H1, H2, H3, H4, H5, H6, H7, H8, H9, H10, H11.
Qed.
