(* ===== verification/Staking.v ===== *)
(** The validator registry (internal/chain/validator_staking.go): bonding,
    unbonding, withdrawal, double-sign evidence, and the validator set
    computed from it. *)
From stdpp Require Import base strings list gmap.
From S2P Require Import Prelude GoStd Json Types Ledger TxModel.

#[local] Open Scope string_scope.
#[local] Open Scope Z_scope.

(* ------------------------------------------------------------------ *)
(** * Parameters *)

Record ValidatorStakingParams : Type := mkParams {
  EnabledFromHeight : Z;
  MinSelfBond : Z;
  UnbondingBlocks : Z;
  MaxActiveValidators : Z;
  ConsensusFromHeight : Z;
  EpochBlocks : Z;
  SlashFractionBps : Z;
  ReporterRewardBps : Z
}.

(** [ValidatorStakingParams.Validate] *)
Definition Validate (p : ValidatorStakingParams) : res unit :=
  if p.(EnabledFromHeight) =? 0 then inl tt
  else if p.(MinSelfBond) =? 0 then inr (Err "min_self_bond must be greater than zero")
  else if p.(UnbondingBlocks) =? 0 then inr (Err "unbonding_blocks must be greater than zero")
  else if p.(MaxActiveValidators) <? 0 then inr (Err "max_active_validators must not be negative")
  else if p.(ConsensusFromHeight) =? 0 then inl tt
  else if p.(ConsensusFromHeight) <=? p.(EnabledFromHeight) then
    inr (Err "consensus_from_height must be later than enabled_from_height")
  else if p.(EpochBlocks) =? 0 then inr (Err "epoch_blocks must be greater than zero")
  else if (p.(SlashFractionBps) =? 0) || (10000 <? p.(SlashFractionBps)) then
    inr (Err "slash_fraction_bps must be between 1 and 10000")
  else if 10000 <? p.(ReporterRewardBps) then inr (Err "reporter_reward_bps must not exceed 10000")
  else inl tt.

(** [ConsensusActiveAt] *)
Definition ConsensusActiveAt (p : ValidatorStakingParams) (height : Z) : bool :=
  (0 <? p.(ConsensusFromHeight)) && (p.(ConsensusFromHeight) <=? height).

(** [isSnapshotHeight] *)
Definition isSnapshotHeight (p : ValidatorStakingParams) (height : Z) : bool :=
  if (p.(ConsensusFromHeight) =? 0) || (p.(EpochBlocks) =? 0) then false
  else
    let next := u64 (height + 1) in
    if next <? p.(ConsensusFromHeight) then false
    else (next - p.(ConsensusFromHeight)) mod p.(EpochBlocks) =? 0.

(** [EnabledAt] *)
Definition EnabledAt (p : ValidatorStakingParams) (height : Z) : bool :=
  (0 <? p.(EnabledFromHeight)) && (p.(EnabledFromHeight) <=? height).

Definition MaxUnbondingEntries : Z := 16.
Definition maxValidatorMonikerLen : Z := 64.
Definition maxValidatorEndpointLen : Z := 256.

Definition ErrValidatorBondTooSmall : error := Err "validator self-bond would be below the minimum".
Definition ErrValidatorKeyInUse : error := Err "consensus public key is already registered to another validator".
Definition ErrValidatorKeyMismatch : error := Err "consensus public key does not match this validator's registered key".
Definition ErrValidatorNotFound : error := Err "no validator registered for this address".
Definition ErrValidatorInsufficientBond : error := Err "unbond amount exceeds self-bond".
Definition ErrValidatorTooManyUnbonding : error := Err "too many pending unbonding entries; withdraw matured ones first".
Definition ErrValidatorNothingMatured : error := Err "no unbonding entries have matured yet".
Definition ErrValidatorAssetNotSYN : error := Err "validator transactions must use native SYN".
Definition ErrValidatorTombstoned : error := Err "validator is permanently removed for double-signing".
Definition ErrStakeConsensusInactive : error := Err "stake-based consensus is not active at this height".
Definition ErrInvalidEvidence : error := Err "invalid double-sign evidence".

(** [IsValidatorTxType] *)
Definition IsValidatorTxType (txType : string) : bool :=
  bool_decide (txType ∈ ["validator_bond"; "validator_unbond"; "validator_withdraw"; "validator_evidence"]).

(** [normalizeConsensusPubKey] *)
Definition normalizeConsensusPubKey (raw : string) : res string :=
  let trimmed := TrimPrefix (ToLower (TrimSpace raw)) "0x" in
  if empty_str trimmed then inr (Err "missing consensus_pub_key metadata")
  else
    match hexDecode trimmed with
    | None => inr (Err "consensus_pub_key is not valid hex")
    | Some b =>
        if slen b =? 32 then inl ("0x" +:+ trimmed)
        else inr (Err "consensus_pub_key has the wrong length")
    end.

(** [validateValidatorProfile] *)
Definition validateValidatorProfile (moniker endpoint : string) : res unit :=
  if maxValidatorMonikerLen <? slen moniker then inr (Err "moniker too long")
  else if maxValidatorEndpointLen <? slen endpoint then inr (Err "endpoint too long")
  else if negb (empty_str endpoint) && negb (HasPrefix endpoint "https://") && negb (HasPrefix endpoint "http://")
  then inr (Err "endpoint must start with http:// or https://")
  else inl tt.

(* ------------------------------------------------------------------ *)
(** * Bond, unbond, withdraw *)

Definition put_validator (a : Address) (r : ValidatorRecord) (s : State) : State :=
  set_Validators (<[a := r]> s.(Validators)) s.

Definition del_validator (a : Address) (s : State) : State :=
  set_Validators (delete a s.(Validators)) s.

(** [validatorOperatorForKey]: the first match in iteration order, empty if
    there is none. *)
Definition validatorOperatorForKey (s : State) (key : string) : Address :=
  match list_find (λ kv, kv.2.(ConsensusPubKey) = key) (map_to_list s.(Validators)) with
  | Some (_, (op, _)) => op
  | None => ""
  end.

Definition ValidatorRecord_zero : ValidatorRecord := mkValidator "" "" "" "" 0 0 [] false.

(** The record a [validator_bond] works on. *)
Definition bond_record (s : State) (tx : Tx) (height : Z) (old : option ValidatorRecord) : res ValidatorRecord :=
  let rawKey := metadataValue tx.(Metadata) "consensus_pub_key" in
  match old with
  | None =>
      match normalizeConsensusPubKey rawKey with
      | inr e => inr e
      | inl key =>
          if negb (empty_str (validatorOperatorForKey s key)) then inr ErrValidatorKeyInUse
          else inl (mkValidator tx.(From) key "" "" 0 height [] false)
      end
  | Some rec =>
      if empty_str rawKey then inl rec
      else
        match normalizeConsensusPubKey rawKey with
        | inr e => inr e
        | inl key => if bool_decide (key = rec.(ConsensusPubKey)) then inl rec else inr ErrValidatorKeyMismatch
        end
  end.

Definition set_profile (moniker endpoint : string) (r : ValidatorRecord) : ValidatorRecord :=
  mkValidator r.(Operator) r.(ConsensusPubKey)
    (if empty_str moniker then r.(Moniker) else moniker)
    (if empty_str endpoint then r.(Endpoint) else endpoint)
    r.(SelfBond) r.(FirstBondHeight) r.(Unbonding) r.(Tombstoned).

Definition set_SelfBond (x : Z) (r : ValidatorRecord) : ValidatorRecord :=
  mkValidator r.(Operator) r.(ConsensusPubKey) r.(Moniker) r.(Endpoint) x r.(FirstBondHeight)
    r.(Unbonding) r.(Tombstoned).

Definition set_Unbonding (x : list UnbondingEntry) (r : ValidatorRecord) : ValidatorRecord :=
  mkValidator r.(Operator) r.(ConsensusPubKey) r.(Moniker) r.(Endpoint) r.(SelfBond) r.(FirstBondHeight)
    x r.(Tombstoned).

(** [case "validator_bond"]: the new record and balance. *)
Definition validator_bond (s : State) (tx : Tx) (height : Z) (params : ValidatorStakingParams)
    (acc : Account) (old : option ValidatorRecord) : res (ValidatorRecord * Z) :=
  match safeAdd tx.(Amount) tx.(Fee) with
  | inr _ => inr (Err "amount overflow detected")
  | inl total =>
      if acc.(Balance) <? total then inr ErrInsufficientFunds
      else if from_option Tombstoned false old then inr ErrValidatorTombstoned
      else
        match bond_record s tx height old with
        | inr e => inr e
        | inl rec =>
            let moniker := metadataValue tx.(Metadata) "moniker" in
            let endpoint := metadataValue tx.(Metadata) "endpoint" in
            match validateValidatorProfile moniker endpoint with
            | inr e => inr e
            | inl _ =>
                let rec := set_profile moniker endpoint rec in
                match safeAdd rec.(SelfBond) tx.(Amount) with
                | inr _ => inr (Err "self-bond overflow detected")
                | inl newBond =>
                    if newBond <? params.(MinSelfBond) then inr ErrValidatorBondTooSmall
                    else inl (set_SelfBond newBond rec, acc.(Balance) - total)
                end
            end
        end
  end.

(** [case "validator_unbond"] *)
Definition validator_unbond (tx : Tx) (height : Z) (params : ValidatorStakingParams)
    (acc : Account) (old : option ValidatorRecord) : res (ValidatorRecord * Z) :=
  match old with
  | None => inr ErrValidatorNotFound
  | Some rec =>
      if rec.(SelfBond) <? tx.(Amount) then inr ErrValidatorInsufficientBond
      else
        let remaining := rec.(SelfBond) - tx.(Amount) in
        if negb (remaining =? 0) && (remaining <? params.(MinSelfBond)) then inr ErrValidatorBondTooSmall
        else if MaxUnbondingEntries <=? Z.of_nat (length rec.(Unbonding)) then inr ErrValidatorTooManyUnbonding
        else if acc.(Balance) <? tx.(Fee) then inr ErrInsufficientFunds
        else
          match safeAdd height params.(UnbondingBlocks) with
          | inr _ => inr (Err "unbonding height overflow detected")
          | inl completeAt =>
              inl (set_Unbonding (rec.(Unbonding) ++ [mkUnbonding tx.(Amount) completeAt])
                     (set_SelfBond remaining rec), acc.(Balance) - tx.(Fee))
          end
  end.

(** The loop of [case "validator_withdraw"]: the matured total and the
    entries still pending. *)
Fixpoint split_matured (height : Z) (l : list UnbondingEntry) (matured : Z) (pending : list UnbondingEntry)
    : res (Z * list UnbondingEntry) :=
  match l with
  | [] => inl (matured, pending)
  | e :: l =>
      if e.(CompleteAtHeight) <=? height then
        match safeAdd matured e.(ub_Amount) with
        | inr _ => inr (Err "withdraw amount overflow detected")
        | inl sum => split_matured height l sum pending
        end
      else split_matured height l matured (pending ++ [e])
  end.

(** [case "validator_withdraw"] *)
Definition validator_withdraw (tx : Tx) (height : Z) (acc : Account) (old : option ValidatorRecord)
    : res (ValidatorRecord * Z) :=
  match old with
  | None => inr ErrValidatorNotFound
  | Some rec =>
      match split_matured height rec.(Unbonding) 0 [] with
      | inr e => inr e
      | inl (matured, pending) =>
          if matured =? 0 then inr ErrValidatorNothingMatured
          else
            match safeAdd acc.(Balance) matured with
            | inr _ => inr (Err "balance overflow detected")
            | inl credited =>
                if credited <? tx.(Fee) then inr ErrInsufficientFunds
                else inl (set_Unbonding pending rec, credited - tx.(Fee))
            end
      end
  end.

(** The common end: a validator with no stake left is dropped unless it is
    tombstoned. *)
Definition settle_validator (a : Address) (rec : ValidatorRecord) (s : State) : State :=
  if (rec.(SelfBond) =? 0) && bool_decide (rec.(Unbonding) = []) && negb rec.(Tombstoned)
  then del_validator a s else put_validator a rec s.

(* ------------------------------------------------------------------ *)
(** * Double-sign evidence *)

(** [StakeProposalMessage], [StakeApprovalMessage] *)
Definition StakeProposalMessage (chainID : string) (height : Z) (blockHash : string) : string :=
  "SYNTHOS/PROPOSE/v2|" +:+ chainID +:+ "|" +:+ fmt_d height +:+ "|" +:+ blockHash.
Definition StakeApprovalMessage (chainID : string) (height : Z) (blockHash : string) : string :=
  "SYNTHOS/APPROVE/v2|" +:+ chainID +:+ "|" +:+ fmt_d height +:+ "|" +:+ blockHash.

(** [stakeMessage] *)
Definition stakeMessage (kind chainID : string) (height : Z) (blockHash : string) : res string :=
  if bool_decide (kind = "propose") then inl (StakeProposalMessage chainID height blockHash)
  else if bool_decide (kind = "approve") then inl (StakeApprovalMessage chainID height blockHash)
  else inr ErrInvalidEvidence.

(** [isCanonicalBlockHash] *)
Fixpoint all_lower_hex (s : string) : bool :=
  match s with
  | EmptyString => true
  | String c s =>
      ((48 <=? code c) && (code c <=? 57) || (97 <=? code c) && (code c <=? 102)) && all_lower_hex s
  end.

Definition isCanonicalBlockHash (h : string) : bool :=
  (slen h =? 66) && HasPrefix h "0x" && all_lower_hex (sdrop 2 h).

(** [slashAndTombstone] *)
Definition slash_cut (x bps : Z) : Z := u64 (x * bps) / 10000.

Fixpoint slash_unbonding (bps : Z) (l : list UnbondingEntry) (slashed : Z) : list UnbondingEntry * Z :=
  match l with
  | [] => ([], slashed)
  | e :: l =>
      let cut := slash_cut e.(ub_Amount) bps in
      let '(l', total) := slash_unbonding bps l (u64 (slashed + cut)) in
      (mkUnbonding (e.(ub_Amount) - cut) e.(CompleteAtHeight) :: l', total)
  end.

Definition slashAndTombstone (rec : ValidatorRecord) (bps : Z) : ValidatorRecord * Z :=
  let slashed := slash_cut rec.(SelfBond) bps in
  let '(unb, total) := slash_unbonding bps rec.(Unbonding) slashed in
  (mkValidator rec.(Operator) rec.(ConsensusPubKey) rec.(Moniker) rec.(Endpoint)
     (rec.(SelfBond) - slashed) rec.(FirstBondHeight) unb true, total).

(** [validatorTxContext] *)
Record validatorTxContext : Type := mkCtx {
  height : Z;
  params : ValidatorStakingParams;
  chainID : string
}.

Definition drop_key (key : string) (l : list ActiveValidator) : list ActiveValidator :=
  filter (λ v, v.(av_ConsensusPubKey) ≠ key) l.

Section with_ed25519.
Context `{E : Ed25519}.

(** [verifyHexSig] *)
Definition verifyHexSig (pubHex msg sigHex : string) : bool :=
  match decode_fixed pubHex 32, decode_fixed sigHex 64 with
  | Some pub, Some sg => ed_Verify pub msg sg
  | _, _ => false
  end.

(** The checks of [applyValidatorEvidence], up to the offender's key. *)
Definition check_evidence (tx : Tx) (ctx : validatorTxContext) : res string :=
  let md := tx.(Metadata) in
  match normalizeConsensusPubKey (metadataValue md "consensus_pub_key") with
  | inr _ => inr ErrInvalidEvidence
  | inl key =>
      let kind := metadataValue md "kind" in
      let '(evHeight, err) := parseTxMetadataUint64 md "evidence_height" in
      if bool_decide (is_Some err) then inr ErrInvalidEvidence
      else if (evHeight <? ctx.(params).(ConsensusFromHeight)) || (ctx.(height) <? evHeight)
      then inr ErrInvalidEvidence
      else
        let hashA := metadataValue md "hash_a" in
        let hashB := metadataValue md "hash_b" in
        if negb (isCanonicalBlockHash hashA) || negb (isCanonicalBlockHash hashB) then inr ErrInvalidEvidence
        else if bool_decide (hashA = hashB) then inr ErrInvalidEvidence
        else
          match stakeMessage kind ctx.(chainID) evHeight hashA, stakeMessage kind ctx.(chainID) evHeight hashB with
          | inl msgA, inl msgB =>
              if negb (verifyHexSig key msgA (metadataValue md "sig_a"))
                 || negb (verifyHexSig key msgB (metadataValue md "sig_b"))
              then inr ErrInvalidEvidence else inl key
          | inr e, _ | _, inr e => inr e
          end
  end.

(** [applyValidatorEvidence] *)
Definition applyValidatorEvidence (tx : Tx) (ctx : validatorTxContext) : SM State unit :=
  fail_if (negb (ConsensusActiveAt ctx.(params) ctx.(height))) ErrStakeConsensusInactive;;
  s ← get;
  let reporter := Get s tx.(From) in
  fail_if (negb (tx.(Nonce) =? reporter.(AccNonce))) (Err "bad nonce");;
  fail_if (reporter.(Balance) <? tx.(Fee)) ErrInsufficientFunds;;
  key ← lift (check_evidence tx ctx);
  let operator := validatorOperatorForKey s key in
  fail_if (empty_str operator) ErrValidatorNotFound;;
  let offender := default ValidatorRecord_zero (s.(Validators) !! operator) in
  fail_if offender.(Tombstoned) ErrValidatorTombstoned;;
  let '(offender, slashed) := slashAndTombstone offender ctx.(params).(SlashFractionBps) in
  let reward := u64 (slashed * ctx.(params).(ReporterRewardBps)) / 10000 in
  match safeAdd reporter.(Balance) reward with
  | inr _ => throw (Err "balance overflow detected")
  | inl credited =>
      modify (put_validator operator offender);;
      modify (λ s, set_ValidatorSetSnapshot (drop_key key s.(ValidatorSetSnapshot)) s);;
      modify (Set_ tx.(From)
        (set_AccNonce (u64 (reporter.(AccNonce) + 1)) (set_Balance (credited - tx.(Fee)) reporter)))
  end.

(** [applyValidatorTxCtx] *)
Definition applyValidatorTxCtx (tx : Tx) (txType : string) (ctx : validatorTxContext) : SM State unit :=
  fail_if (negb (empty_str tx.(AssetID)) && negb (bool_decide (tx.(AssetID) = "syn"))) ErrValidatorAssetNotSYN;;
  if bool_decide (txType = "validator_evidence") then applyValidatorEvidence tx ctx
  else
    s ← get;
    let acc := Get s tx.(From) in
    fail_if (negb (tx.(Nonce) =? acc.(AccNonce))) (Err "bad nonce");;
    let old := s.(Validators) !! tx.(From) in
    '(rec, bal) ← lift (
      if bool_decide (txType = "validator_bond") then validator_bond s tx ctx.(height) ctx.(params) acc old
      else if bool_decide (txType = "validator_unbond") then validator_unbond tx ctx.(height) ctx.(params) acc old
      else if bool_decide (txType = "validator_withdraw") then validator_withdraw tx ctx.(height) acc old
      else inr (Err "unhandled validator tx type"));
    modify (settle_validator tx.(From) rec);;
    modify (Set_ tx.(From) (set_AccNonce (u64 (acc.(AccNonce) + 1)) (set_Balance bal acc))).

(** [applyValidatorTx] *)
Definition applyValidatorTx (tx : Tx) (txType : string) (h : Z) (p : ValidatorStakingParams) : SM State unit :=
  applyValidatorTxCtx tx txType (mkCtx h p "").

End with_ed25519.

(* ------------------------------------------------------------------ *)
(** * The validator set *)

(** [GetValidator] *)
Definition GetValidator (s : State) (operator : Address) : ValidatorRecord * bool :=
  match s.(Validators) !! operator with Some r => (r, true) | None => (ValidatorRecord_zero, false) end.

Definition eligible (p : ValidatorStakingParams) (r : ValidatorRecord) : bool :=
  let minBond := if p.(MinSelfBond) =? 0 then 1 else p.(MinSelfBond) in
  negb ((r.(SelfBond) <? minBond) || r.(Tombstoned)).

Definition active_of (kv : Address * ValidatorRecord) : ActiveValidator :=
  mkActive kv.1 kv.2.(ConsensusPubKey) kv.2.(Moniker) kv.2.(Endpoint) kv.2.(SelfBond).

(** By power, highest first; ties by operator. *)
Definition active_less (x y : ActiveValidator) : bool :=
  if negb (x.(av_Power) =? y.(av_Power)) then y.(av_Power) <? x.(av_Power)
  else str_lt x.(av_Operator) y.(av_Operator).

(** The set for the records in the order [l] a map iteration yields them. *)
Definition active_from (p : ValidatorStakingParams) (l : list (Address * ValidatorRecord)) : list ActiveValidator :=
  let out := sort_slice active_less (active_of <$> filter (λ kv, eligible p kv.2 = true) l) in
  if (0 <? p.(MaxActiveValidators)) && (p.(MaxActiveValidators) <? Z.of_nat (length out))
  then take (Z.to_nat p.(MaxActiveValidators)) out else out.

(** [ActiveValidatorSet] *)
Definition ActiveValidatorSet (s : State) (p : ValidatorStakingParams) : list ActiveValidator :=
  active_from p (map_to_list s.(Validators)).

(** [AuthorizingValidatorSet], [setValidatorSetSnapshot] *)
Definition AuthorizingValidatorSet (s : State) : list ActiveValidator := s.(ValidatorSetSnapshot).
Definition setValidatorSetSnapshot (set : list ActiveValidator) (s : State) : State :=
  set_ValidatorSetSnapshot set s.
