(* ===== verification/StakingFacts.v ===== *)
(** What the validator transactions do: coin is conserved (a slash only burns
    what it takes and does not pay out), the registry stays well formed, and
    evidence tombstones exactly once. *)
From stdpp Require Import base strings list gmap sorting.
From S2P Require Import Prelude GoStd Json Types Ledger TxModel Staking.

#[local] Open Scope string_scope.
#[local] Open Scope Z_scope.

(* ------------------------------------------------------------------ *)
(** * Slashing *)

(** The slash in closed form: every amount loses its fraction, computed in
    64 bits. *)
Definition cut_entry (bps : Z) (e : UnbondingEntry) : UnbondingEntry := mkUnbonding (e.(ub_Amount) - slash_cut e.(ub_Amount) bps) e.(CompleteAtHeight).

Lemma slash_unbonding_entries bps l n : (slash_unbonding bps l n).1 = map (cut_entry bps) l.
Proof.
  revert n. induction l as [|e l IH]; intros n; [done|]. cbn [slash_unbonding map].
  specialize (IH (u64 (n + slash_cut e.(ub_Amount) bps))). destruct (slash_unbonding _ _ _) as [l' t]. simpl in *. by rewrite IH.
Qed.

Lemma slashAndTombstone_closed r bps :
  (slashAndTombstone r bps).1 = mkValidator r.(Operator) r.(ConsensusPubKey) r.(Moniker) r.(Endpoint)
    (r.(SelfBond) - slash_cut r.(SelfBond) bps) r.(FirstBondHeight) (map (cut_entry bps) r.(Unbonding)) true.
Proof.
  unfold slashAndTombstone. pose proof (slash_unbonding_entries bps r.(Unbonding) (slash_cut r.(SelfBond) bps)) as H.
  destruct (slash_unbonding _ _ _) as [l t]. simpl in *. by rewrite H.
Qed.

Lemma slash_cut_range x bps : 0 ≤ x → 0 ≤ bps ≤ 10000 → 0 ≤ slash_cut x bps ≤ x.
Proof.
  intros Hx Hb. unfold slash_cut. split; [apply Z.div_pos; [apply u64_range|lia]|].
  pose proof (bps_le x bps Hx Hb). etransitivity; [|apply H].
  apply Z.div_le_mono; [lia|]. unfold u64. apply Z.mod_le; nia.
Qed.

(** Below 2^64 / 10000 the cut is the exact fraction. *)
Lemma slash_cut_exact x bps : 0 ≤ x → 0 ≤ bps ≤ 10000 → x * 10000 ≤ MaxUint64 → slash_cut x bps = x * bps / 10000.
Proof. intros. unfold slash_cut. rewrite u64_small; [done|]. unfold in_u64. nia. Qed.

Lemma slash_unbonding_spec bps l n :
  0 ≤ bps ≤ 10000 → Forall (λ e, 0 ≤ e.(ub_Amount)) l →
  0 ≤ n → n + lsum ub_Amount l ≤ MaxUint64 →
  let '(l', total) := slash_unbonding bps l n in
  n ≤ total ∧ total ≤ n + lsum ub_Amount l ∧
  lsum ub_Amount l' + (total - n) = lsum ub_Amount l ∧
  Forall (λ e, 0 ≤ e.(ub_Amount)) l' ∧ length l' = length l.
Proof.
  intros Hb Hl. revert n. induction Hl as [|e l He Hl IH]; intros n Hn Hmax; simpl.
  { split_and!; [lia..|done|done]. }
  pose proof (slash_cut_range _ bps He Hb) as Hcut. pose proof (lsum_unbonding_nonneg l Hl).
  rewrite lsum_cons in Hmax.
  rewrite (u64_small (n + _)) by (split; lia).
  specialize (IH (n + slash_cut (ub_Amount e) bps) ltac:(lia) ltac:(lia)).
  destruct (slash_unbonding _ _ _) as [l' total]. destruct IH as (H1 & H2 & H3 & H4 & H5).
  rewrite !lsum_cons. simpl. split_and!; [lia..| |lia]. constructor; [simpl; lia|done].
Qed.

Lemma slashAndTombstone_spec rec bps :
  0 ≤ bps ≤ 10000 → 0 ≤ rec.(SelfBond) → Forall (λ e, 0 ≤ e.(ub_Amount)) rec.(Unbonding) →
  validator_stake rec ≤ MaxUint64 →
  let '(rec', slashed) := slashAndTombstone rec bps in
  0 ≤ slashed ≤ validator_stake rec ∧ validator_stake rec' = validator_stake rec - slashed ∧
  0 ≤ rec'.(SelfBond) ∧ Forall (λ e, 0 ≤ e.(ub_Amount)) rec'.(Unbonding) ∧
  rec'.(Tombstoned) = true ∧ length rec'.(Unbonding) = length rec.(Unbonding).
Proof.
  intros Hb Hs Hu Hmax. unfold slashAndTombstone, validator_stake in *.
  pose proof (slash_cut_range _ bps Hs Hb). pose proof (lsum_unbonding_nonneg _ Hu).
  pose proof (slash_unbonding_spec bps (Unbonding rec) (slash_cut (SelfBond rec) bps) Hb Hu ltac:(lia) ltac:(lia)) as Hsl.
  destruct (slash_unbonding _ _ _) as [unb total]. destruct Hsl as (? & ? & ? & ? & ?).
  simpl. split_and!; try lia; done.
Qed.

(** What is cut, in total. *)
Definition slashed_total (bps : Z) (r : ValidatorRecord) : Z :=
  slash_cut r.(SelfBond) bps + lsum (λ e, slash_cut e.(ub_Amount) bps) r.(Unbonding).

Lemma slashed_total_ok rec bps :
  0 ≤ bps ≤ 10000 → 0 ≤ rec.(SelfBond) → Forall (λ e, 0 ≤ e.(ub_Amount)) rec.(Unbonding) →
  validator_stake rec ≤ MaxUint64 → (slashAndTombstone rec bps).2 = slashed_total bps rec.
Proof.
  intros Hb Hs Hu Hmax. pose proof (slashAndTombstone_spec rec bps Hb Hs Hu Hmax) as H. pose proof (slashAndTombstone_closed rec bps) as Hc.
  destruct (slashAndTombstone rec bps) as [r' n]. destruct H as (_ & Hv & _). simpl in *. subst r'.
  assert (∀ l, lsum ub_Amount (map (cut_entry bps) l) = lsum ub_Amount l - lsum (λ e, slash_cut e.(ub_Amount) bps) l) as Hl.
  { induction l as [|e l IH]; simpl; [done|lia]. }
  unfold validator_stake, slashed_total in *. simpl in Hv. rewrite Hl in Hv. lia.
Qed.

(* ------------------------------------------------------------------ *)
(** * The registry and the supply *)

Lemma validator_locked_put a r s :
  validator_locked (put_validator a r s) =
  validator_locked s - from_option validator_stake 0 (s.(Validators) !! a) + validator_stake r.
Proof. unfold validator_locked. simpl. by rewrite msum_insert. Qed.

Lemma supply_settle a r s :
  supply (settle_validator a r s) =
  supply s - from_option validator_stake 0 (s.(Validators) !! a) + validator_stake r.
Proof.
  unfold settle_validator, supply.
  destruct ((SelfBond r =? 0) && bool_decide (Unbonding r = []) && negb (Tombstoned r)) eqn:Hd.
  - rewrite !andb_true_iff, Z.eqb_eq, bool_decide_eq_true in Hd. destruct Hd as [[Hs Hu] _].
    assert (validator_stake r = 0) as -> by (unfold validator_stake; by rewrite Hs, Hu).
    unfold validator_locked, spendable, citizen_locked. simpl. rewrite msum_delete. unfold at_or0. lia.
  - rewrite validator_locked_put. unfold spendable, citizen_locked. simpl. lia.
Qed.

Lemma supply_put_validator a r s :
  supply (put_validator a r s) =
  supply s - from_option validator_stake 0 (s.(Validators) !! a) + validator_stake r.
Proof. unfold supply. rewrite validator_locked_put. unfold spendable, citizen_locked. simpl. lia. Qed.

Definition record_nonneg (r : ValidatorRecord) : Prop :=
  0 ≤ r.(SelfBond) ∧ Forall (λ e, 0 ≤ e.(ub_Amount)) r.(Unbonding).

Lemma Validators_settle a r s b r' :
  (settle_validator a r s).(Validators) !! b = Some r' → (b = a ∧ r' = r) ∨ (b ≠ a ∧ s.(Validators) !! b = Some r').
Proof.
  unfold settle_validator. case_match; simpl.
  - intros [? ?]%lookup_delete_Some. by right.
  - intros [[-> ->]|[? ?]]%lookup_insert_Some; [by left|by right].
Qed.

(** Moving coin between an account and its validator record. *)
Lemma ledger_ok_validator_acct s1 s a acc :
  ledger_ok s → s1.(Accounts) = s.(Accounts) → s1.(CitizenStakes) = s.(CitizenStakes) →
  (∀ b r, s1.(Validators) !! b = Some r → record_nonneg r) →
  0 ≤ acc.(Balance) → supply (put_acct a acc s1) ≤ MaxUint64 →
  ledger_ok (put_acct a acc s1).
Proof.
  intros Hok Ha Hc Hv Hb Hs. constructor; [| |done|done].
  - intros b acc'. simpl. rewrite Ha. intros [[_ <-]|[_ ?]]%lookup_insert_Some; [done|by eapply ok_accounts].
  - simpl. rewrite Hc. apply Hok.
Qed.

Lemma validator_stake_le s a r :
  ledger_ok s → s.(Validators) !! a = Some r →
  0 ≤ validator_stake r ∧ spendable s + citizen_locked s + validator_stake r ≤ supply s.
Proof.
  intros Hok Hr. split; [by apply validator_stake_nonneg, (ok_validators s Hok a)|].
  unfold supply. assert (validator_stake r ≤ validator_locked s); [|lia].
  apply (msum_lookup_le validator_stake _ a); [|done].
  intros b r' Hb. by eapply validator_stake_nonneg, Hok.
Qed.

(* ------------------------------------------------------------------ *)
(** * Bond, unbond, withdraw *)

Lemma normalize_inv raw key :
  normalizeConsensusPubKey raw = inl key →
  ∃ h b, key = "0x" +:+ h ∧ h = TrimPrefix (ToLower (TrimSpace raw)) "0x" ∧ hexDecode h = Some b ∧ slen b = 32.
Proof.
  unfold normalizeConsensusPubKey. case_match; [done|].
  destruct (hexDecode _) as [b|] eqn:Hd; [|done].
  destruct (Z.eqb_spec (slen b) 32); [|done]. intros [= <-]. eauto 10.
Qed.

(** Exactly the matured entries leave, and their amounts add up. *)
Lemma split_matured_spec h l m acc r :
  split_matured h l m acc = inl r →
  r.2 = (acc ++ filter (λ e, h < e.(CompleteAtHeight)) l)%list ∧
  r.1 = m + lsum ub_Amount (filter (λ e, e.(CompleteAtHeight) ≤ h) l).
Proof.
  revert m acc. induction l as [|e l IH]; intros m acc; simpl.
  { intros [= <-]. simpl. rewrite app_nil_r. split; [done|lia]. }
  rewrite !filter_cons. destruct (Z.leb_spec (CompleteAtHeight e) h).
  - destruct (safeAdd m (ub_Amount e)) as [sum|] eqn:Hs; [|done]. apply safeAdd_inl in Hs as [_ ->].
    intros [-> ->]%IH. rewrite decide_False, decide_True by lia. rewrite lsum_cons. split; [done|lia].
  - intros [-> ->]%IH. rewrite decide_True, decide_False by lia. rewrite <- app_assoc. split; [done|lia].
Qed.

Lemma lsum_filter_split {A} (f : A → Z) (P Q : A → Prop) `{∀ a, Decision (P a), ∀ a, Decision (Q a)} l :
  (∀ a, Q a ↔ ¬ P a) → lsum f (filter P l) + lsum f (filter Q l) = lsum f l.
Proof.
  intros HQ. induction l as [|a l IH]; [done|]. rewrite !filter_cons, lsum_cons.
  destruct (decide (P a)) as [HP|HP].
  - rewrite decide_False by (rewrite HQ; tauto). rewrite lsum_cons. lia.
  - rewrite decide_True by (by apply HQ). rewrite lsum_cons. lia.
Qed.

Section steps.
Context (s : State) (tx : Tx) (acc : Account) (old : option ValidatorRecord).
Context (Hamt : 0 ≤ tx.(Amount)) (Hfee : 0 ≤ tx.(Fee)).
Context (Hold : ∀ r, old = Some r → record_nonneg r).

(** One step of the registry: the record and the balance it leaves. *)
Definition conserves (rec : ValidatorRecord) (bal : Z) : Prop :=
  record_nonneg rec ∧ 0 ≤ bal ∧
  validator_stake rec + bal + tx.(Fee) = from_option validator_stake 0 old + acc.(Balance).

Lemma bond_record_inv h rec :
  bond_record s tx h old = inl rec →
  old = Some rec ∨
  (old = None ∧ ∃ key, rec = mkValidator tx.(From) key "" "" 0 h [] false ∧
     normalizeConsensusPubKey (metadataValue tx.(Metadata) "consensus_pub_key") = inl key ∧
     validatorOperatorForKey s key = "").
Proof.
  clear Hold. unfold bond_record, empty_str. destruct old as [r|].
  - repeat case_match; naive_solver.
  - destruct (normalizeConsensusPubKey _) as [key|]; [|done].
    case_bool_decide; simpl; [|done]. intros [= <-]. right. eauto.
Qed.

Lemma validator_bond_inv h p rec bal :
  validator_bond s tx h p acc old = inl (rec, bal) →
  ∃ rec0 moniker endpoint,
    bond_record s tx h old = inl rec0 ∧ from_option Tombstoned false old = false ∧
    validateValidatorProfile moniker endpoint = inl tt ∧
    rec = set_SelfBond (rec0.(SelfBond) + tx.(Amount)) (set_profile moniker endpoint rec0) ∧
    p.(MinSelfBond) ≤ rec.(SelfBond) ∧
    bal = acc.(Balance) - (tx.(Amount) + tx.(Fee)) ∧ tx.(Amount) + tx.(Fee) ≤ acc.(Balance).
Proof.
  clear Hold Hamt Hfee. unfold validator_bond. destruct (safeAdd _ _) as [total|] eqn:Ht; [|done].
  apply safeAdd_inl in Ht as [_ ->]. destruct (Z.ltb_spec (Balance acc) (Amount tx + Fee tx)); [done|].
  destruct (from_option Tombstoned false old) eqn:Htb; [done|].
  destruct (bond_record _ _ _ _) as [rec0|] eqn:Hb; [|done].
  destruct (validateValidatorProfile _ _) as [[]|] eqn:Hp; [|done].
  destruct (safeAdd _ (Amount tx)) as [nb|] eqn:Hn; [|done]. apply safeAdd_inl in Hn as [_ ->].
  destruct (Z.ltb_spec (SelfBond (set_profile (metadataValue (Metadata tx) "moniker")
    (metadataValue (Metadata tx) "endpoint") rec0) + Amount tx) (MinSelfBond p)); [done|].
  intros [= <- <-]. do 3 eexists. split_and!; done || lia.
Qed.

Lemma validator_bond_conserves h p rec bal :
  validator_bond s tx h p acc old = inl (rec, bal) → conserves rec bal.
Proof.
  intros (rec0 & mo & en & Hb & _ & _ & -> & _ & -> & Hle)%validator_bond_inv.
  assert (record_nonneg rec0 ∧ from_option validator_stake 0 old = validator_stake rec0) as [[Hr1 Hr2] Ho].
  { apply bond_record_inv in Hb as [Hb|(-> & key & -> & _)]; [|split; [split; [done|constructor]|done]].
    split; [by apply Hold|by rewrite Hb]. }
  unfold conserves. rewrite Ho. unfold validator_stake, record_nonneg. simpl. split_and!; done || lia.
Qed.

Lemma validator_unbond_inv h p rec bal :
  validator_unbond tx h p acc old = inl (rec, bal) →
  ∃ r, old = Some r ∧ tx.(Amount) ≤ r.(SelfBond) ∧
    (r.(SelfBond) = tx.(Amount) ∨ p.(MinSelfBond) ≤ r.(SelfBond) - tx.(Amount)) ∧
    (length r.(Unbonding) < 16)%nat ∧ tx.(Fee) ≤ acc.(Balance) ∧ bal = acc.(Balance) - tx.(Fee) ∧
    rec = set_Unbonding (r.(Unbonding) ++ [mkUnbonding tx.(Amount) (h + p.(UnbondingBlocks))])
            (set_SelfBond (r.(SelfBond) - tx.(Amount)) r).
Proof.
  clear Hold Hamt Hfee. unfold validator_unbond, MaxUnbondingEntries. destruct old as [r|]; [|done].
  destruct (Z.ltb_spec (SelfBond r) (Amount tx)); [done|].
  destruct (negb (SelfBond r - Amount tx =? 0) && (SelfBond r - Amount tx <? MinSelfBond p)) eqn:Hm; [done|].
  destruct (Z.leb_spec 16 (Z.of_nat (length (Unbonding r)))); [done|].
  destruct (Z.ltb_spec (Balance acc) (Fee tx)); [done|].
  destruct (safeAdd h _) as [c|] eqn:Hc; [|done]. apply safeAdd_inl in Hc as [_ ->].
  intros [= <- <-]. exists r. split_and!; done || lia.
Qed.

Lemma validator_unbond_conserves h p rec bal :
  validator_unbond tx h p acc old = inl (rec, bal) → conserves rec bal.
Proof.
  intros (r & Ho & ? & _ & _ & ? & -> & ->)%validator_unbond_inv.
  destruct (Hold r Ho) as [Hr1 Hr2]. unfold conserves, record_nonneg, validator_stake. rewrite Ho. simpl.
  rewrite lsum_app, lsum_cons, lsum_nil. simpl. split_and!; [lia| |lia..].
  apply Forall_app. split; [done|]. constructor; [done|constructor].
Qed.

Lemma validator_withdraw_inv h rec bal :
  validator_withdraw tx h acc old = inl (rec, bal) →
  ∃ r, old = Some r ∧
    let matured := lsum ub_Amount (filter (λ e, e.(CompleteAtHeight) ≤ h) r.(Unbonding)) in
    matured ≠ 0 ∧ tx.(Fee) ≤ acc.(Balance) + matured ∧
    bal = acc.(Balance) + matured - tx.(Fee) ∧
    rec = set_Unbonding (filter (λ e, h < e.(CompleteAtHeight)) r.(Unbonding)) r.
Proof.
  clear Hold Hamt Hfee. unfold validator_withdraw. destruct old as [r|]; [|done].
  destruct (split_matured _ _ _ _) as [[m pend]|] eqn:Hs; [|done].
  apply split_matured_spec in Hs as [Hp Hm]. simpl in Hp, Hm. subst m pend.
  destruct (Z.eqb_spec (0 + lsum ub_Amount (filter (λ e, CompleteAtHeight e ≤ h) (Unbonding r))) 0); [done|].
  destruct (safeAdd _ _) as [c|] eqn:Hc; [|done]. apply safeAdd_inl in Hc as [_ ->].
  match goal with |- context [?a <? ?b] => destruct (Z.ltb_spec a b) end; [done|].
  intros [= <- <-]. exists r. split_and!; done || lia.
Qed.

Lemma validator_withdraw_conserves h rec bal :
  validator_withdraw tx h acc old = inl (rec, bal) → conserves rec bal.
Proof.
  intros (r & Ho & ? & ? & -> & ->)%validator_withdraw_inv.
  destruct (Hold r Ho) as [Hr1 Hr2]. unfold conserves, record_nonneg, validator_stake. rewrite Ho. simpl.
  pose proof (lsum_filter_split ub_Amount (λ e, CompleteAtHeight e ≤ h) (λ e, h < CompleteAtHeight e)
    (Unbonding r) (λ e, Z.lt_nge h (CompleteAtHeight e))).
  split_and!; [lia| |lia..]. rewrite Forall_forall in Hr2 |- *.
  intros e [_ He]%list_elem_of_filter. by apply Hr2.
Qed.

End steps.

(* ------------------------------------------------------------------ *)
(** * Consensus keys *)

Lemma hex_digit_val c z : hex_val c = Some z → hex_digit z = lower_char c.
Proof.
  assert (∀ n, n = code c → chr n = c) as Hc by (intros n ->; apply chr_code).
  unfold hex_val, hex_digit, lower_char.
  destruct ((48 <=? code c) && (code c <=? 57)) eqn:H1.
  { intros [= <-]. rewrite (proj2 (Z.ltb_lt _ _)) by lia. case_match; [lia|]. apply Hc. lia. }
  destruct ((97 <=? code c) && (code c <=? 102)) eqn:H2.
  { intros [= <-]. rewrite (proj2 (Z.ltb_ge _ _)) by lia. case_match; [lia|]. apply Hc. lia. }
  destruct ((65 <=? code c) && (code c <=? 70)) eqn:H3; [|done].
  intros [= <-]. rewrite (proj2 (Z.ltb_ge _ _)) by lia. case_match; [|lia]. f_equal. lia.
Qed.

Lemma hex_val_range c z : hex_val c = Some z → 0 ≤ z < 16.
Proof. unfold hex_val. repeat case_match; intros; simplify_eq; lia. Qed.

(** Decoding loses only the case of the digits. *)
Lemma hexEncode_hexDecode h b : hexDecode h = Some b → hexEncode b = ToLower h.
Proof.
  revert b. assert (∀ n h b, (String.length h ≤ n)%nat → hexDecode h = Some b → hexEncode b = ToLower h) as Hn;
    [|intros b; by apply (Hn (String.length h))].
  clear h. induction n as [|n IH]; intros h b Hl; destruct h as [|c1 [|c2 h]]; simpl; try (by intros [= <-]); try done; [simpl in Hl; lia|].
  destruct (hex_val c1) as [z1|] eqn:H1; [|done]. destruct (hex_val c2) as [z2|] eqn:H2; [|done].
  destruct (hexDecode h) as [b'|] eqn:Hd; [|done]. intros [= <-]. simpl.
  pose proof (hex_val_range _ _ H1). pose proof (hex_val_range _ _ H2).
  rewrite code_chr by lia.
  replace ((16 * z1 + z2) / 16) with z1 by (apply Z.div_unique with z2; lia).
  replace ((16 * z1 + z2) mod 16) with z2 by (apply Z.mod_unique with z1; lia).
  rewrite (hex_digit_val c1 z1), (hex_digit_val c2 z2), (IH h b') by (simpl in *; done || lia). done.
Qed.

Lemma lower_char_idemp c : lower_char (lower_char c) = lower_char c.
Proof. by destruct c as [[] [] [] [] [] [] [] []]. Qed.

Lemma ToLower_idemp s : ToLower (ToLower s) = ToLower s.
Proof. unfold ToLower. induction s as [|c s IH]; simpl; [done|]. by rewrite lower_char_idemp, IH. Qed.

Lemma ToLower_sdrop n s : ToLower (sdrop n s) = sdrop n (ToLower s).
Proof. revert s. induction n as [|n IH]; intros [|c s]; simpl; done || apply IH. Qed.

(** A normalised key is the 0x-prefixed lower-case hex of 32 bytes, so two
    spellings of one key normalise to the same string. *)
Lemma normalize_canonical raw key :
  normalizeConsensusPubKey raw = inl key →
  ∃ b, key = hex0x b ∧ slen b = 32 ∧ hexDecode (TrimPrefix (ToLower (TrimSpace raw)) "0x") = Some b.
Proof.
  intros (h & b & -> & -> & Hd & Hl)%normalize_inv. exists b. split_and!; [|done..].
  unfold hex0x. rewrite (hexEncode_hexDecode _ _ Hd). f_equal.
  unfold TrimPrefix. case_match; [by rewrite ToLower_sdrop, ToLower_idemp|by rewrite ToLower_idemp].
Qed.

Lemma validatorOperatorForKey_found s key :
  validatorOperatorForKey s key ≠ "" →
  ∃ r, s.(Validators) !! validatorOperatorForKey s key = Some r ∧ r.(ConsensusPubKey) = key.
Proof.
  unfold validatorOperatorForKey. destruct (list_find _ _) as [[i [op r]]|] eqn:Hf; [|done].
  apply list_find_Some in Hf as (Hi & Hk & _). intros _. exists r. split; [|done].
  by apply elem_of_map_to_list, list_elem_of_lookup_2 with i.
Qed.

Lemma validatorOperatorForKey_none s key a r :
  validatorOperatorForKey s key = "" → s.(Validators) !! a = Some r → a ≠ "" → r.(ConsensusPubKey) = key →
  ∃ r', s.(Validators) !! "" = Some r'.
Proof.
  unfold validatorOperatorForKey. intros Hf Ha Hne Hk.
  destruct (list_find _ _) as [[i [op r']]|] eqn:Hl.
  - subst op. apply list_find_Some in Hl as (Hi & _). exists r'. by apply elem_of_map_to_list, list_elem_of_lookup_2 with i.
  - apply list_find_None, Forall_forall with (x := (a, r)) in Hl; [done|by apply elem_of_map_to_list].
Qed.

(* ------------------------------------------------------------------ *)
(** * The registry invariant *)

Record record_ok (p : ValidatorStakingParams) (a : Address) (r : ValidatorRecord) : Prop := {
  rec_operator : r.(Operator) = a;
  rec_named : a ≠ "";
  rec_key : ∃ b, r.(ConsensusPubKey) = hex0x b ∧ slen b = 32;
  rec_entries : (length r.(Unbonding) ≤ 16)%nat;
  rec_alive : r.(SelfBond) ≠ 0 ∨ r.(Unbonding) ≠ [] ∨ r.(Tombstoned) = true;
  rec_bond : r.(SelfBond) = 0 ∨ r.(Tombstoned) = true ∨ p.(MinSelfBond) ≤ r.(SelfBond);
  rec_profile : slen r.(Moniker) ≤ 64 ∧ slen r.(Endpoint) ≤ 256
}.

(** [full] asks for the clause about the snapshot as well. *)
Record registry_rel (full : bool) (p : ValidatorStakingParams) (s : State) : Prop := {
  reg_records : ∀ a r, s.(Validators) !! a = Some r → record_ok p a r;
  reg_keys : ∀ a b ra rb, s.(Validators) !! a = Some ra → s.(Validators) !! b = Some rb →
    ra.(ConsensusPubKey) = rb.(ConsensusPubKey) → a = b;
  reg_snapshot : full = true → ∀ v a r, v ∈ s.(ValidatorSetSnapshot) → s.(Validators) !! a = Some r →
    r.(ConsensusPubKey) = v.(av_ConsensusPubKey) → r.(Tombstoned) = false
}.

Abbreviation registry_ok := (registry_rel true).

Lemma registry_ok_empty full p s : s.(Validators) = ∅ → s.(ValidatorSetSnapshot) = [] → registry_rel full p s.
Proof.
  intros Hv Hs. split; rewrite ?Hv, ?Hs.
  - intros a r Ha. by rewrite lookup_empty in Ha.
  - intros a b ra rb Ha. by rewrite lookup_empty in Ha.
  - intros _ v a r Hin. by apply not_elem_of_nil in Hin.
Qed.

Lemma registry_weaken full p s : registry_ok p s → registry_rel full p s.
Proof. intros [H1 H2 H3]. split; [done|done|]. intros _. by apply H3. Qed.

(** With unique keys the search for a key has one possible answer, whatever
    order the map is walked in. *)
Lemma validatorOperatorForKey_unique full p s key a r :
  registry_rel full p s → s.(Validators) !! a = Some r → r.(ConsensusPubKey) = key →
  validatorOperatorForKey s key = a.
Proof.
  intros Hreg Ha Hk. destruct (decide (validatorOperatorForKey s key = "")) as [He|Hne].
  - destruct (validatorOperatorForKey_none s key a r) as [r' Hr']; [done..|by apply (reg_records _ p s Hreg) in Ha as []|done|].
    by apply (reg_records _ p s Hreg) in Hr' as [].
  - destruct (validatorOperatorForKey_found s key Hne) as (r' & Hr' & Hk').
    eapply (reg_keys _ p s Hreg); [done..|congruence].
Qed.

(** Registering, updating or dropping one validator. *)
Lemma registry_settle full p s a r :
  registry_rel full p s → record_nonneg r →
  (r.(SelfBond) ≠ 0 ∨ r.(Unbonding) ≠ [] ∨ r.(Tombstoned) = true → record_ok p a r) →
  (∀ b rb, b ≠ a → s.(Validators) !! b = Some rb → rb.(ConsensusPubKey) ≠ r.(ConsensusPubKey)) →
  (full = true → ∀ v, v ∈ s.(ValidatorSetSnapshot) → r.(ConsensusPubKey) = v.(av_ConsensusPubKey) → r.(Tombstoned) = false) →
  registry_rel full p (settle_validator a r s).
Proof.
  intros [H1 H2 H3] Hnn Hrec Hkey Hsnap.
  assert (∀ b rb, (settle_validator a r s).(Validators) !! b = Some rb →
    (b = a ∧ rb = r ∧ record_ok p a r) ∨ (b ≠ a ∧ s.(Validators) !! b = Some rb)) as Hcase.
  { intros b rb. unfold settle_validator.
    destruct ((SelfBond r =? 0) && bool_decide (Unbonding r = []) && negb (Tombstoned r)) eqn:Hd; simpl.
    - intros [? ?]%lookup_delete_Some. by right.
    - intros [[<- <-]|[? ?]]%lookup_insert_Some; [|by right]. left. split_and!; [done..|]. apply Hrec.
      rewrite !andb_false_iff, Z.eqb_neq, bool_decide_eq_false, negb_false_iff in Hd. tauto. }
  split.
  - intros b rb [(-> & -> & Hr)|[_ Hb]]%Hcase; [done|by apply H1].
  - intros b c rb rc Hb Hc Hk.
    apply Hcase in Hb as [(-> & -> & _)|[Hnb Hb]]; apply Hcase in Hc as [(-> & -> & _)|[Hnc Hc]]; [done|..].
    + by destruct (Hkey c rc Hnc Hc).
    + by destruct (Hkey b rb Hnb Hb).
    + by apply (H2 b c rb rc).
  - intros Hfull v b rb Hv Hb Hk. replace (ValidatorSetSnapshot (settle_validator a r s)) with (ValidatorSetSnapshot s) in Hv
      by (unfold settle_validator; by case_match).
    apply Hcase in Hb as [(-> & -> & _)|[_ Hb]]; [by eapply Hsnap|by eapply H3].
Qed.

Lemma registry_ok_same full p s s' :
  s'.(Validators) = s.(Validators) → s'.(ValidatorSetSnapshot) = s.(ValidatorSetSnapshot) →
  registry_rel full p s → registry_rel full p s'.
Proof. intros Hv Hs [H1 H2 H3]. split; rewrite ?Hv, ?Hs; done. Qed.

Section tx_facts.
Context `{E : Ed25519}.
Context (s : State) (tx : Tx) (ctx : validatorTxContext).
Context (full : bool) (Hok : ledger_ok s) (Hreg : registry_rel full ctx.(params) s).
Context (Hamt : 0 < tx.(Amount)) (Hfee : 0 ≤ tx.(Fee)) (Hfrom : tx.(From) ≠ "").

Let acc : Account := Get s tx.(From).
Let old : option ValidatorRecord := s.(Validators) !! tx.(From).

Lemma old_nonneg r : old = Some r → record_nonneg r.
Proof. intros Hr. by apply (ok_validators s Hok) in Hr. Qed.

(** What the registry asks of the record a step leaves behind. *)
Definition step_record_ok (rec : ValidatorRecord) : Prop :=
  (rec.(SelfBond) ≠ 0 ∨ rec.(Unbonding) ≠ [] ∨ rec.(Tombstoned) = true → record_ok ctx.(params) tx.(From) rec) ∧
  (∀ b rb, b ≠ tx.(From) → s.(Validators) !! b = Some rb → rb.(ConsensusPubKey) ≠ rec.(ConsensusPubKey)) ∧
  (full = true → ∀ v, v ∈ s.(ValidatorSetSnapshot) → rec.(ConsensusPubKey) = v.(av_ConsensusPubKey) → rec.(Tombstoned) = false).

Lemma profile_lengths mo en :
  validateValidatorProfile mo en = inl tt → slen mo ≤ 64 ∧ slen en ≤ 256.
Proof.
  unfold validateValidatorProfile, maxValidatorMonikerLen, maxValidatorEndpointLen.
  destruct (Z.ltb_spec 64 (slen mo)); [done|]. destruct (Z.ltb_spec 256 (slen en)); [done|]. done.
Qed.

Lemma bond_step_ok rec bal :
  validator_bond s tx ctx.(height) ctx.(params) acc old = inl (rec, bal) → step_record_ok rec.
Proof.
  intros (rec0 & mo & en & Hb & Htb & [Hmo Hen]%profile_lengths & -> & Hmin & _)%validator_bond_inv.
  apply bond_record_inv in Hb as [Hb|(Hnone & key & -> & Hn & Hop)].
  - pose proof (reg_records _ _ _ Hreg _ _ Hb) as Hr. rewrite Hb in Htb. simpl in Htb. split_and!.
    + intros _. destruct (old_nonneg rec0 Hb) as [Hnn _].
      split; simpl in *; try apply Hr; [left; lia|by right; right|].
      destruct (rec_profile _ _ _ Hr). split; case_match; lia.
    + intros b rb Hne Hlb Hk. apply Hne. by eapply (reg_keys _ _ _ Hreg).
    + done.
  - split_and!.
    + intros _. apply normalize_canonical in Hn as (b & -> & Hlen & _).
      split; simpl in *; try done; [by exists b|lia|left; lia|by right; right|].
      split; case_match; unfold slen in *; simpl; lia.
    + intros b rb Hne Hlb Hk. simpl in Hk. apply (reg_records _ _ _ Hreg) in Hlb as Hrb.
      destruct (validatorOperatorForKey_none s key b rb) as [r' Hr']; [done|done|apply Hrb|done|].
      by apply (reg_records _ _ _ Hreg) in Hr' as [].
    + done.
Qed.

(** A step that keeps the identity of a registered validator. *)
Lemma same_identity_ok r rec :
  old = Some r → rec.(Operator) = r.(Operator) → rec.(ConsensusPubKey) = r.(ConsensusPubKey) →
  rec.(Moniker) = r.(Moniker) → rec.(Endpoint) = r.(Endpoint) → rec.(Tombstoned) = r.(Tombstoned) →
  (length rec.(Unbonding) ≤ 16)%nat →
  (rec.(SelfBond) = 0 ∨ rec.(Tombstoned) = true ∨ ctx.(params).(MinSelfBond) ≤ rec.(SelfBond)) →
  step_record_ok rec.
Proof.
  intros Hr Ho Hk Hm He Ht Hlen Hbond. pose proof (reg_records _ _ _ Hreg _ _ Hr) as Hrok. split_and!.
  - intros Halive. split; rewrite ?Ho, ?Hk, ?Hm, ?He; try apply Hrok; done.
  - intros b rb Hne Hlb. rewrite Hk. intros Hk'. apply Hne. by eapply (reg_keys _ _ _ Hreg).
  - intros Hfull v Hv. rewrite Hk, Ht. intros Hk'. by eapply (reg_snapshot _ _ _ Hreg Hfull).
Qed.

Lemma unbond_step_ok rec bal :
  validator_unbond tx ctx.(height) ctx.(params) acc old = inl (rec, bal) → step_record_ok rec.
Proof.
  intros (r & Ho & Hle & Hmin & Hlen & _ & _ & ->)%validator_unbond_inv.
  eapply same_identity_ok; [done..| |]; simpl; [rewrite length_app; simpl; lia|].
  destruct Hmin; [left; lia|by right; right].
Qed.

Lemma withdraw_step_ok rec bal :
  validator_withdraw tx ctx.(height) acc old = inl (rec, bal) → step_record_ok rec.
Proof.
  intros (r & Ho & _ & _ & _ & ->)%validator_withdraw_inv.
  pose proof (reg_records _ _ _ Hreg _ _ Ho) as Hrok.
  eapply same_identity_ok; [done..| |]; simpl; [|apply Hrok].
  etransitivity; [apply length_filter|apply Hrok].
Qed.

(** The state after a registry step. *)
Lemma settle_step rec bal :
  conserves tx acc old rec bal → step_record_ok rec →
  let s' := Set_ tx.(From) (set_AccNonce (u64 (acc.(AccNonce) + 1)) (set_Balance bal acc))
              (settle_validator tx.(From) rec s) in
  ledger_ok s' ∧ registry_rel full ctx.(params) s' ∧ supply s' = supply s - tx.(Fee) ∧ nonce_step tx.(From) s s'.
Proof.
  intros (Hnn & Hbal & Hsum) (H1 & H2 & H3) s'. set (s1 := settle_validator (From tx) rec s).
  assert (s1.(Accounts) = s.(Accounts) ∧ s1.(CitizenStakes) = s.(CitizenStakes)) as [Ha Hc]
    by (unfold s1, settle_validator; by case_match).
  assert (supply s' = supply s - Fee tx) as Hs.
  { unfold s', Set_. rewrite supply_put. fold s1. unfold acct. rewrite Ha. fold (acct s (From tx)).
    unfold s1. rewrite supply_settle. fold old. simpl. change (Balance acc) with (Balance (acct s (From tx))) in Hsum. lia. }
  pose proof (ok_supply s Hok). split_and!; [|by apply (registry_ok_same _ _ s1), registry_settle|done|].
  - apply (ledger_ok_validator_acct s1 s); try done; [|change (supply s' ≤ MaxUint64); lia].
    intros b r [[-> ->]|[_ Hb]]%Validators_settle; [done|by apply (ok_validators s Hok) in Hb].
  - unfold s', Set_. split; [by rewrite acct_put_eq|]. intros b Hb. rewrite acct_put_ne by done.
    unfold acct. fold s1. by rewrite Ha.
Qed.

(** ** Evidence *)

(** The key signed two different blocks for one height of this chain. *)
Definition double_signed (key : string) : Prop :=
  ∃ kind h hashA hashB msgA msgB sigA sigB,
    ctx.(params).(ConsensusFromHeight) ≤ h ≤ ctx.(height) ∧
    isCanonicalBlockHash hashA = true ∧ isCanonicalBlockHash hashB = true ∧ hashA ≠ hashB ∧
    stakeMessage kind ctx.(chainID) h hashA = inl msgA ∧ stakeMessage kind ctx.(chainID) h hashB = inl msgB ∧
    verifyHexSig key msgA sigA = true ∧ verifyHexSig key msgB sigB = true.

Lemma check_evidence_sound key : check_evidence tx ctx = inl key → double_signed key.
Proof.
  unfold check_evidence. destruct (normalizeConsensusPubKey _) as [k|]; [|done].
  destruct (parseTxMetadataUint64 _ _) as [h err]. case_bool_decide; [done|].
  destruct (Z.ltb_spec h (ConsensusFromHeight (params ctx))); [done|].
  destruct (Z.ltb_spec (height ctx) h); [done|]. simpl.
  destruct (isCanonicalBlockHash (metadataValue (Metadata tx) "hash_a")) eqn:HA; [|done].
  destruct (isCanonicalBlockHash (metadataValue (Metadata tx) "hash_b")) eqn:HB; [|done]. simpl.
  case_bool_decide as Hne; [done|].
  destruct (stakeMessage _ _ _ (metadataValue (Metadata tx) "hash_a")) as [mA|] eqn:HmA; [|done].
  destruct (stakeMessage _ _ _ (metadataValue (Metadata tx) "hash_b")) as [mB|] eqn:HmB; [|done].
  destruct (verifyHexSig k mA _) eqn:HsA; [|done]. destruct (verifyHexSig k mB _) eqn:HsB; [|done].
  intros [= <-]. exists (metadataValue (Metadata tx) "kind"), h, (metadataValue (Metadata tx) "hash_a"),
    (metadataValue (Metadata tx) "hash_b"), mA, mB, (metadataValue (Metadata tx) "sig_a"), (metadataValue (Metadata tx) "sig_b").
  done.
Qed.

Context (Hbps : 0 ≤ ctx.(params).(SlashFractionBps) ≤ 10000).
Context (Hrew : 0 ≤ ctx.(params).(ReporterRewardBps) ≤ 10000).

(** What accepted evidence does. *)
Record slashed_state (key : string) (s' : State) : Prop := {
  ev_proof : double_signed key;
  ev_slash : ∃ op r, s.(Validators) !! op = Some r ∧ r.(ConsensusPubKey) = key ∧ r.(Tombstoned) = false ∧
    let '(r', slashed) := slashAndTombstone r ctx.(params).(SlashFractionBps) in
    let reward := slash_cut slashed ctx.(params).(ReporterRewardBps) in
    s'.(Validators) = <[op := r']> s.(Validators) ∧
    supply s' = supply s - tx.(Fee) - (slashed - reward) ∧ 0 ≤ reward ≤ slashed ∧
    (acct s' tx.(From)).(Balance) = (acct s tx.(From)).(Balance) + reward - tx.(Fee);
  ev_snapshot : ∀ v, v ∈ s'.(ValidatorSetSnapshot) ↔ v ∈ s.(ValidatorSetSnapshot) ∧ v.(av_ConsensusPubKey) ≠ key
}.

Lemma registry_slash op r key :
  s.(Validators) !! op = Some r → r.(ConsensusPubKey) = key →
  registry_rel full ctx.(params)
    (set_ValidatorSetSnapshot (drop_key key s.(ValidatorSetSnapshot))
       (put_validator op (slashAndTombstone r ctx.(params).(SlashFractionBps)).1 s)).
Proof.
  intros Hr Hk. pose proof (ok_validators s Hok _ _ Hr) as [Hnn Hu].
  pose proof (validator_stake_le s op r Hok Hr). pose proof (ok_supply s Hok).
  pose proof (spendable_nonneg s Hok). pose proof (citizen_locked_nonneg s Hok).
  pose proof (slashAndTombstone_spec r _ Hbps Hnn Hu ltac:(lia)) as Hsl.
  assert ((slashAndTombstone r (SlashFractionBps (params ctx))).1.(ConsensusPubKey) = key ∧
    ∃ p', record_ok p' op (slashAndTombstone r (SlashFractionBps (params ctx))).1 ∧ p' = params ctx) as [Hk' (p' & Hrec & ->)].
  { revert Hsl. unfold slashAndTombstone. destruct (slash_unbonding _ _ _) as [unb total]. simpl.
    intros (_ & _ & _ & _ & _ & Hlen). split; [done|]. exists (params ctx). split; [|done].
    pose proof (reg_records _ _ _ Hreg _ _ Hr) as Hrok. split; simpl; try apply Hrok; [|by auto..].
    rewrite Hlen. apply Hrok. }
  split; simpl.
  - intros b rb [[<- <-]|[_ ?]]%lookup_insert_Some; [done|by apply (reg_records _ _ _ Hreg)].
  - intros b c rb rc [[<- <-]|[Hb Hlb]]%lookup_insert_Some [[<- <-]|[Hc Hlc]]%lookup_insert_Some He; [done|..].
    + eapply (reg_keys _ _ _ Hreg); [done..|congruence].
    + eapply (reg_keys _ _ _ Hreg); [done..|congruence].
    + by eapply (reg_keys _ _ _ Hreg).
  - intros Hfull v b rb [Hne Hv]%list_elem_of_filter [[<- <-]|[_ Hlb]]%lookup_insert_Some He.
    + congruence.
    + by eapply (reg_snapshot _ _ _ Hreg Hfull).
Qed.

(** The state an accepted evidence transaction leaves. *)
Definition after_slash (op key : string) (r' : ValidatorRecord) (bal : Z) : State :=
  Set_ tx.(From) (set_AccNonce (u64 (acc.(AccNonce) + 1)) (set_Balance bal acc))
    (set_ValidatorSetSnapshot (drop_key key s.(ValidatorSetSnapshot)) (put_validator op r' s)).

Lemma after_slash_ok op key r r' slashed :
  s.(Validators) !! op = Some r → r.(ConsensusPubKey) = key → r.(Tombstoned) = false →
  slashAndTombstone r ctx.(params).(SlashFractionBps) = (r', slashed) →
  tx.(Fee) ≤ acc.(Balance) → double_signed key →
  let s' := after_slash op key r' (acc.(Balance) + slash_cut slashed ctx.(params).(ReporterRewardBps) - tx.(Fee)) in
  ledger_ok s' ∧ registry_rel full ctx.(params) s' ∧ nonce_step tx.(From) s s' ∧ slashed_state key s'.
Proof.
  intros Hr Hk Ht Hs Hf Hds s'. pose proof (ok_validators s Hok _ _ Hr) as [Hnn Hu].
  pose proof (validator_stake_le s op r Hok Hr). pose proof (ok_supply s Hok).
  pose proof (spendable_nonneg s Hok). pose proof (citizen_locked_nonneg s Hok).
  pose proof (slashAndTombstone_spec r _ Hbps Hnn Hu ltac:(lia)) as Hsl. rewrite Hs in Hsl.
  destruct Hsl as (Hz & Hst & Hnn' & Hu' & _ & _).
  pose proof (slash_cut_range slashed _ (proj1 Hz) Hrew) as Hrw.
  assert (supply s' = supply s - Fee tx - (slashed - slash_cut slashed (ReporterRewardBps (params ctx)))) as Hsup.
  { unfold s', after_slash, Set_. rewrite supply_put.
    change (acct (set_ValidatorSetSnapshot _ _) (From tx)) with (acct s (From tx)).
    change (supply (set_ValidatorSetSnapshot _ _)) with (supply (put_validator op r' s)).
    rewrite supply_put_validator, Hr. simpl. lia. }
  split_and!.
  - apply (ledger_ok_validator_acct _ s); try done; [|unfold acc in Hf; simpl in Hf |- *; lia|change (supply s' ≤ MaxUint64); lia].
    intros b rb. simpl. intros [[_ <-]|[_ Hb]]%lookup_insert_Some; [done|by apply (ok_validators s Hok) in Hb].
  - pose proof (registry_slash op r key Hr Hk) as Hrs. rewrite Hs in Hrs. by apply (registry_ok_same _ _ _ s') in Hrs.
  - unfold s', after_slash, Set_. split; [by rewrite acct_put_eq|]. intros b Hb. by rewrite acct_put_ne.
  - split; [done| |].
    + exists op, r. rewrite Hs. split_and!; try done. unfold s', after_slash, Set_. by rewrite acct_put_eq.
    + intros v. unfold s', after_slash. simpl. unfold drop_key. rewrite list_elem_of_filter. tauto.
Qed.

Lemma applyValidatorEvidence_spec :
  wp (applyValidatorEvidence tx ctx)
    (λ _ s', tx.(Nonce) = (acct s tx.(From)).(AccNonce) ∧ ledger_ok s' ∧ registry_rel full ctx.(params) s' ∧
       nonce_step tx.(From) s s' ∧ ∃ key, slashed_state key s')
    (λ _ s', s' = s) s.
Proof.
  unfold applyValidatorEvidence. wp_go; try done.
  match goal with H : empty_str _ = false |- _ => apply bool_decide_eq_false, validatorOperatorForKey_found in H as (r & Hr & Hk) end.
  rewrite Hr in *. cbn [default] in *.
  match goal with H : safeAdd _ _ = inl _ |- _ => apply safeAdd_inl in H as [_ ->] end.
  match goal with H : (_ <? _) = false |- _ => apply Z.ltb_ge in H end.
  match goal with H : negb (Nonce tx =? _) = false |- _ => apply negb_false_iff, Z.eqb_eq in H end.
  split; [done|]. edestruct (after_slash_ok (validatorOperatorForKey s a) a r v z) as (? & ? & ? & ?);
    [done..|by apply check_evidence_sound|].
  split_and!; [done..|by exists a].
Qed.

(** ** All validator transactions *)

Lemma registry_step_ok txType rec bal :
  (if bool_decide (txType = "validator_bond") then validator_bond s tx ctx.(height) ctx.(params) acc old
   else if bool_decide (txType = "validator_unbond") then validator_unbond tx ctx.(height) ctx.(params) acc old
   else if bool_decide (txType = "validator_withdraw") then validator_withdraw tx ctx.(height) acc old
   else inr (Err "unhandled validator tx type")) = inl (rec, bal) →
  conserves tx acc old rec bal ∧ step_record_ok rec.
Proof.
  pose proof old_nonneg. assert (0 ≤ Amount tx) by lia. repeat case_bool_decide; [..|done].
  - intros Hb. split; [by eapply validator_bond_conserves|by eapply bond_step_ok].
  - intros Hb. split; [by eapply validator_unbond_conserves|by eapply unbond_step_ok].
  - intros Hb. split; [by eapply validator_withdraw_conserves|by eapply withdraw_step_ok].
Qed.

Lemma applyValidatorTxCtx_spec txType :
  wp (applyValidatorTxCtx tx txType ctx)
    (λ _ s', tx.(Nonce) = (acct s tx.(From)).(AccNonce) ∧ ledger_ok s' ∧ registry_rel full ctx.(params) s' ∧
       nonce_step tx.(From) s s' ∧ supply s' ≤ supply s - tx.(Fee) ∧
       (txType ≠ "validator_evidence" → supply s' = supply s - tx.(Fee)))
    (λ _ s', s' = s) s.
Proof.
  unfold applyValidatorTxCtx. wp_step fail; cbv beta. wp_step fail; [done|]. cbv beta.
  destruct (decide (txType = "validator_evidence")) as [->|Hty].
  - rewrite bool_decide_eq_true_2 by done. eapply wp_mono; [apply applyValidatorEvidence_spec| |done].
    intros [] s' (? & ? & ? & ? & key & [_ (op & r & _ & _ & _ & Hsl) _]).
    destruct (slashAndTombstone r (SlashFractionBps (params ctx))) as [r' sl].
    cbv zeta in Hsl. split_and!; done || lia.
  - rewrite bool_decide_eq_false_2 by done.
    wp_go; try done.
    match goal with H : _ = inl (_, _) |- _ => apply registry_step_ok in H as [Hc Hs] end.
    destruct (settle_step _ _ Hc Hs) as (? & ? & Hsup & ?).
    match goal with H : negb (Nonce tx =? _) = false |- _ => apply negb_false_iff, Z.eqb_eq in H end.
    split_and!; done || by apply Z.eq_le_incl.
Qed.

End tx_facts.

(* ------------------------------------------------------------------ *)
(** * The active set *)

#[global] Instance active_less_weak : StrictWeak active_less.
Proof.
  unfold active_less. split.
  - intros x. by rewrite Z.eqb_refl, str_lt_irrefl.
  - intros x y z. destruct (Z.eqb_spec (av_Power x) (av_Power y)), (Z.eqb_spec (av_Power y) (av_Power z)),
      (Z.eqb_spec (av_Power x) (av_Power z)); simpl; try lia. apply str_lt_trans.
  - intros x y z. destruct (Z.eqb_spec (av_Power x) (av_Power y)), (Z.eqb_spec (av_Power y) (av_Power z)),
      (Z.eqb_spec (av_Power x) (av_Power z)); simpl; try lia. apply (less_cotrans str_lt).
Qed.

Lemma active_less_total x y :
  active_less x y = false → active_less y x = false → av_Power x = av_Power y ∧ av_Operator x = av_Operator y.
Proof.
  unfold active_less. destruct (Z.eqb_spec (av_Power x) (av_Power y)) as [Hp|], (Z.eqb_spec (av_Power y) (av_Power x));
    simpl; try lia. intros. split; [done|by apply str_lt_total].
Qed.

(** Every node computes the same set: the order in which the map is walked
    does not matter. *)
Lemma active_from_order p s l :
  l ≡ₚ map_to_list s.(Validators) → active_from p l = ActiveValidatorSet s p.
Proof.
  intros Hl. unfold ActiveValidatorSet, active_from.
  replace (sort_slice active_less (active_of <$> filter (λ kv, eligible p kv.2 = true) l))
    with (sort_slice active_less (active_of <$> filter (λ kv, eligible p kv.2 = true) (map_to_list s.(Validators))));
    [done|].
  symmetry. apply (sort_slice_unique active_less); [|by rewrite Hl].
  intros x y ([a ra] & -> & [_ Ha]%list_elem_of_filter)%list_elem_of_fmap
    ([b rb] & -> & [_ Hb]%list_elem_of_filter)%list_elem_of_fmap H1 H2.
  destruct (active_less_total _ _ H1 H2) as [_ Hop]. simpl in Hop. subst b.
  rewrite Hl in Ha, Hb. apply elem_of_map_to_list in Ha. apply elem_of_map_to_list in Hb. congruence.
Qed.

Section active_set.
Context (p : ValidatorStakingParams) (s : State).

Definition all_active : list ActiveValidator :=
  sort_slice active_less (active_of <$> filter (λ kv, eligible p kv.2 = true) (map_to_list s.(Validators))).

Lemma elem_all_active v :
  v ∈ all_active ↔ ∃ a r, s.(Validators) !! a = Some r ∧ eligible p r = true ∧ v = active_of (a, r).
Proof.
  unfold all_active. rewrite sort_slice_perm, list_elem_of_fmap. split.
  - intros ([a r] & -> & [He Ha%elem_of_map_to_list]%list_elem_of_filter). eauto.
  - intros (a & r & Ha & He & ->). exists (a, r). split; [done|]. apply list_elem_of_filter.
    split; [done|by apply elem_of_map_to_list].
Qed.

Lemma ActiveValidatorSet_take :
  ActiveValidatorSet s p = if 0 <? p.(MaxActiveValidators) then take (Z.to_nat p.(MaxActiveValidators)) all_active
                           else all_active.
Proof.
  unfold ActiveValidatorSet, active_from. fold all_active.
  destruct (Z.ltb_spec 0 (MaxActiveValidators p)); simpl; [|done].
  destruct (Z.ltb_spec (MaxActiveValidators p) (Z.of_nat (length all_active))); [done|].
  rewrite take_ge; [done|lia].
Qed.

Lemma elem_take_drop (l : list ActiveValidator) n x y :
  StronglySorted (not_above active_less) l → x ∈ take n l → y ∈ drop n l → active_less y x = false.
Proof.
  intros Hs Hx Hy. rewrite <- (take_drop n l) in Hs. apply StronglySorted_app in Hs as (Hs & _). by apply Hs.
Qed.

(** The set holds registered, untombstoned validators with at least the
    minimum bond; *)
Lemma active_member v :
  0 ≤ p.(MinSelfBond) → v ∈ ActiveValidatorSet s p →
  ∃ a r, s.(Validators) !! a = Some r ∧ v = active_of (a, r) ∧ r.(Tombstoned) = false ∧
    p.(MinSelfBond) ≤ r.(SelfBond) ∧ r.(SelfBond) ≠ 0.
Proof.
  intros Hmin Hv. assert (v ∈ all_active) as (a & r & Ha & He & ->)%elem_all_active.
  { rewrite ActiveValidatorSet_take in Hv. case_match; [|done]. by apply elem_of_take in Hv as (i & ? & _); eapply list_elem_of_lookup_2. }
  exists a, r. unfold eligible in He. rewrite negb_true_iff, orb_false_iff in He. destruct He as [Hb Ht].
  destruct (Z.eqb_spec (MinSelfBond p) 0); apply Z.ltb_ge in Hb; split_and!; try done; lia.
Qed.

(** it respects the cap; *)
Lemma active_cap :
  0 < p.(MaxActiveValidators) → Z.of_nat (length (ActiveValidatorSet s p)) ≤ p.(MaxActiveValidators).
Proof.
  intros Hm. rewrite ActiveValidatorSet_take, (proj2 (Z.ltb_lt _ _)) by done. rewrite length_take. lia.
Qed.

(** and no eligible validator the cap leaves out outranks a member. *)
Lemma active_best v a r :
  v ∈ ActiveValidatorSet s p → s.(Validators) !! a = Some r → eligible p r = true →
  active_of (a, r) ∉ ActiveValidatorSet s p → active_less (active_of (a, r)) v = false.
Proof.
  intros Hv Ha He Hout. assert (active_of (a, r) ∈ all_active) as Hin by (apply elem_all_active; eauto).
  rewrite ActiveValidatorSet_take in Hv, Hout. destruct (0 <? MaxActiveValidators p); [|done].
  eapply elem_take_drop; [apply (sort_slice_sorted active_less)|exact Hv|].
  rewrite <- (take_drop (Z.to_nat (MaxActiveValidators p)) all_active) in Hin.
  apply elem_of_app in Hin as [?|?]; done.
Qed.

End active_set.

(** Accounts, the registry and the snapshot are all that moves. *)
Lemma applyValidatorTxCtx_frame `{E : Ed25519} tx txType ctx s :
  wp (applyValidatorTxCtx tx txType ctx) (λ _ s', s'.(DEXPools) = s.(DEXPools) ∧ s'.(GovernanceProposals) = s.(GovernanceProposals)) (λ _ s', s' = s) s.
Proof.
  unfold applyValidatorTxCtx, applyValidatorEvidence, settle_validator.
  wp_go; try done; simpl.
  by match goal with |- DEXPools (if ?b then _ else _) = _ ∧ _ => destruct b end.
Qed.

(* ------------------------------------------------------------------ *)
(** * Conviction *)

(** [op] holds [key], and every record of that key is tombstoned. *)
Record convicted (op key : string) (s : State) : Prop := {
  cv_record : ∃ r, s.(Validators) !! op = Some r ∧ r.(ConsensusPubKey) = key;
  cv_records : ∀ a r, s.(Validators) !! a = Some r →
    r.(Operator) = a ∧ a ≠ "" ∧ (r.(ConsensusPubKey) = key → r.(Tombstoned) = true)
}.

Lemma convicted_same op key s s' : s'.(Validators) = s.(Validators) → convicted op key s → convicted op key s'.
Proof. intros Hv [? ?]. by split; rewrite Hv. Qed.

Lemma convicted_operator op key s : convicted op key s →
  ∃ r, validatorOperatorForKey s key ≠ "" ∧ s.(Validators) !! validatorOperatorForKey s key = Some r ∧
    r.(ConsensusPubKey) = key ∧ r.(Tombstoned) = true.
Proof.
  intros [(r & Hr & Hk) Hall]. assert (validatorOperatorForKey s key ≠ "") as Hne.
  { intros He. destruct (Hall op r Hr) as (_ & Hop & _). destruct (validatorOperatorForKey_none s key op r) as [r' Hr']; [done..|].
    by destruct (Hall "" r' Hr') as (_ & ? & _). }
  destruct (validatorOperatorForKey_found s key Hne) as (r' & Hr' & Hk'). exists r'. by destruct (Hall _ r' Hr') as (_ & _ & ?); auto.
Qed.

(** Writing a record keeps a conviction unless it hides the convicted one. *)
Lemma convicted_put op key a rec s :
  convicted op key s → rec.(Operator) = a → a ≠ "" → (rec.(ConsensusPubKey) = key → rec.(Tombstoned) = true) →
  (a = op → rec.(ConsensusPubKey) = key) → convicted op key (put_validator a rec s).
Proof.
  intros [(r & Hr & Hk) Hall] Ho Hne Ht Ha. split; simpl.
  - destruct (decide (a = op)) as [->|Hd]; [exists rec; rewrite lookup_insert_eq; auto|exists r; by rewrite lookup_insert_ne].
  - intros b rb [[<- <-]|[_ Hb]]%lookup_insert_Some; [done|by apply Hall].
Qed.

Lemma convicted_settle op key a rec s :
  convicted op key s → rec.(Operator) = a → a ≠ "" → (rec.(ConsensusPubKey) = key → rec.(Tombstoned) = true) →
  (a = op → rec.(ConsensusPubKey) = key) → convicted op key (settle_validator a rec s).
Proof.
  intros Hc Ho Hne Ht Ha. unfold settle_validator. destruct (_ && negb (Tombstoned rec)) eqn:Hd; [|by apply convicted_put].
  apply andb_true_iff in Hd as [_ Hd%negb_true_iff]. destruct Hc as [(r & Hr & Hk) Hall].
  assert (a ≠ op) as Hao by (intros Hao; rewrite (Ht (Ha Hao)) in Hd; done). split; simpl.
  - exists r. by rewrite lookup_delete_ne.
  - intros b rb [_ Hb]%lookup_delete_Some. by apply Hall.
Qed.

(** A registered validator keeps its key and its tombstone; a new one has a
    key nobody has. *)
Lemma registry_step_keys s tx ctx acc old txType rec bal :
  (if bool_decide (txType = "validator_bond") then validator_bond s tx ctx.(height) ctx.(params) acc old
   else if bool_decide (txType = "validator_unbond") then validator_unbond tx ctx.(height) ctx.(params) acc old
   else if bool_decide (txType = "validator_withdraw") then validator_withdraw tx ctx.(height) acc old
   else inr (Err "unhandled validator tx type")) = inl (rec, bal) →
  match old with
  | Some r => rec.(Operator) = r.(Operator) ∧ rec.(ConsensusPubKey) = r.(ConsensusPubKey) ∧ rec.(Tombstoned) = r.(Tombstoned)
  | None => rec.(Operator) = tx.(From) ∧ validatorOperatorForKey s rec.(ConsensusPubKey) = ""
  end.
Proof.
  repeat case_bool_decide; [..|done].
  - unfold validator_bond, bond_record. destruct old as [r|]; simpl; repeat (case_match; try done); intros; simplify_eq; try done.
    split; [done|]. match goal with H : negb (empty_str _) = false |- _ => apply negb_false_iff, bool_decide_eq_true in H; exact H end.
  - unfold validator_unbond. destruct old as [r|]; [|done]. repeat (case_match; try done); intros; simplify_eq; done.
  - unfold validator_withdraw. destruct old as [r|]; [|done]. repeat (case_match; try done); intros; simplify_eq; done.
Qed.

Lemma slashAndTombstone_record r bps :
  (slashAndTombstone r bps).1.(Operator) = r.(Operator) ∧ (slashAndTombstone r bps).1.(ConsensusPubKey) = r.(ConsensusPubKey) ∧
  (slashAndTombstone r bps).1.(Tombstoned) = true.
Proof. unfold slashAndTombstone. by destruct (slash_unbonding _ _ _). Qed.

Lemma convicted_slash op key a r bps s :
  convicted op key s → s.(Validators) !! a = Some r → convicted op key (put_validator a (slashAndTombstone r bps).1 s).
Proof.
  intros Hc Hr. destruct (slashAndTombstone_record r bps) as (Ho & Hk & Ht). destruct (cv_records _ _ _ Hc a r Hr) as (? & ? & _).
  apply convicted_put; [done|congruence|done|auto|]. intros ->. destruct (cv_record _ _ _ Hc) as (r' & Hr' & Hk'). congruence.
Qed.

Section convicted.
Context `{E : Ed25519}.

Lemma applyValidatorTxCtx_convicted op key tx txType ctx s :
  tx.(From) ≠ "" →
  wp (applyValidatorTxCtx tx txType ctx) (λ _ s', convicted op key s → convicted op key s') (λ _ s', s' = s) s.
Proof.
  intros Hne. unfold applyValidatorTxCtx, applyValidatorEvidence. wp_go; try done; intros Hc.
  - match goal with H : empty_str _ = false |- _ => apply bool_decide_eq_false, validatorOperatorForKey_found in H as (r & Hr & _) end.
    match goal with H : slashAndTombstone _ ?b = (?v, _) |- _ =>
      rewrite Hr in H; pose proof (convicted_slash op key _ r b s Hc Hr) as Hp; simpl in H; rewrite H in Hp end.
    refine (convicted_same op key _ _ _ Hp). reflexivity.
  - match goal with H : _ = inl (_, _) |- _ => apply registry_step_keys in H end.
    eapply convicted_same; [|apply (convicted_settle op key tx.(From)); [exact Hc|..]]; [reflexivity|..];
      destruct (s.(Validators) !! tx.(From)) as [r|] eqn:Hr.
    all: try match goal with H : _ ∧ _ ∧ _ |- _ => destruct H as (Ho & Hk & Ht) end; try match goal with H : _ ∧ _ |- _ => destruct H as (Ho & Hk) end.
    all: try destruct (cv_records _ _ _ Hc _ r Hr) as (? & ? & Hall); try destruct (convicted_operator _ _ _ Hc) as (rc & ? & _); try congruence; try done.
    + intros Hk2. rewrite Ht. apply Hall. congruence.
    + intros Hop. destruct (cv_record _ _ _ Hc) as (r' & Hr' & Hk'). congruence.
    + intros Hop. destruct (cv_record _ _ _ Hc) as (r' & Hr' & Hk'). congruence.
Qed.

(** No evidence against a convicted key is accepted. *)
Lemma convicted_refused op key tx ctx s :
  convicted op key s → check_evidence tx ctx = inl key →
  (applyValidatorEvidence tx ctx s).1 = s ∧ (applyValidatorEvidence tx ctx s).2 ≠ inl tt.
Proof.
  intros Hc Hck. destruct (convicted_operator _ _ _ Hc) as (r & Hne & Hr & Hk & Ht).
  assert (wp (applyValidatorEvidence tx ctx) (λ _ _, False) (λ _ s3, s3 = s) s) as Hw.
  { unfold applyValidatorEvidence. wp_go; try done;
      match goal with H : check_evidence _ _ = inl ?a |- _ => rewrite Hck in H; injection H as <- end.
    all: match goal with H : Tombstoned _ = false |- _ => rewrite Hr in H; simpl in H; congruence end. }
  unfold wp in Hw. by destruct (applyValidatorEvidence tx ctx s) as [s3 [[]|e]].
Qed.

End convicted.
