(* ===== verification/Apply.v ===== *)
(** Applying a transaction: [ApplyTx] and [applyCitizenGovernanceTx]
    (internal/chain/core.go), [RequiredFee] and [ApplyTransaction]
    (internal/chain/abci_support.go). *)
From stdpp Require Import base strings list gmap.
From S2P Require Import Prelude GoStd Sha256 Json Types Ledger TxModel Citizen Governance Dex.
From S2P Require Import Dex DexLedger Bridge Staking StakingFacts.

#[local] Open Scope string_scope.
#[local] Open Scope Z_scope.

Definition tx_type (tx : Tx) : string := metadataValue tx.(Metadata) "type".

(** [citizenGovernanceTxTypes], [dexTxTypes] *)
Definition citizenGovernanceTxTypes : list string :=
  ["citizen_stake"; "citizen_unstake"; "citizen_claim_rewards";
   "governance_propose"; "governance_vote"; "governance_execute"].
Definition dexTxTypes : list string :=
  ["asset_issue"; "dex_add_liquidity"; "dex_remove_liquidity"; "dex_swap"].

(* ------------------------------------------------------------------ *)
(** * Citizen and governance transactions *)

Definition governance_propose (tx : Tx) : SM State unit :=
  let '(amount, err) := parseTxMetadataUint64 tx.(Metadata) "amount" in
  fail_if (bool_decide (is_Some err)) (Err "invalid amount in governance_propose metadata");;
  createGovernanceProposal tx.(From) (metadataValue tx.(Metadata) "id")
    (metadataValue tx.(Metadata) "description") amount (metadataValue tx.(Metadata) "recipient").

Definition citizen_action (tx : Tx) (txType : string) : SM State unit :=
  if bool_decide (txType = "citizen_stake") then StakeCitizen tx.(From) tx.(Amount) tx.(Timestamp)
  else if bool_decide (txType = "citizen_unstake") then UnstakeCitizen tx.(From) tx.(Amount)
  else if bool_decide (txType = "citizen_claim_rewards") then
    ClaimCitizenRewards tx.(From) tx.(Timestamp);; mret tt
  else if bool_decide (txType = "governance_propose") then governance_propose tx
  else if bool_decide (txType = "governance_vote") then
    voteGovernance tx.(From) (metadataValue tx.(Metadata) "proposal_id")
      (bool_decide (metadataValue tx.(Metadata) "in_favor" = "true"))
  else if bool_decide (txType = "governance_execute") then
    totalStake ← gets TotalStake;
    executeGovernanceProposal (metadataValue tx.(Metadata) "proposal_id") totalStake
  else throw (Err "unhandled citizen/governance tx type").

(** The fee is taken after the action, from the account as the action left
    it, with no further check. *)
Definition collect_fee (tx : Tx) : SM State unit :=
  settled ← gets (λ s, acct s tx.(From));
  modify (put_acct tx.(From)
    (bump_nonce (set_Balance (u64 (settled.(Balance) - tx.(Fee))) settled))).

(** [applyCitizenGovernanceTx] *)
Definition applyCitizenGovernanceTx (tx : Tx) (txType : string) : SM State unit :=
  acc ← gets (λ s, Get s tx.(From));
  fail_if (negb (tx.(Nonce) =? acc.(AccNonce))) (Err "bad nonce");;
  requiredUpfront ←
    (if bool_decide (txType = "citizen_stake") then
       match safeAdd tx.(Amount) tx.(Fee) with
       | inr _ => throw (Err "amount overflow detected")
       | inl total => mret total
       end
     else mret tx.(Fee));
  fail_if (acc.(Balance) <? requiredUpfront) ErrInsufficientFunds;;
  citizen_action tx txType;;
  collect_fee tx.

(* ------------------------------------------------------------------ *)
(** * Transfers *)

Definition is_native (tx : Tx) : bool := empty_str tx.(AssetID) || bool_decide (tx.(AssetID) = "syn").

Definition inner_circle_short (tx : Tx) : bool :=
  existsb (λ kv, bool_decide (kv.(Key) = "type") && bool_decide (kv.(Value) = "inner_circle_purchase")
                 && (tx.(Amount) <? INNER_CIRCLE_PRICE)) tx.(Metadata).

(** The sender after paying. *)
Definition debit (tx : Tx) (from : Account) : res Account :=
  if is_native tx then
    match safeAdd tx.(Amount) tx.(Fee) with
    | inr _ => inr (Err "amount overflow detected")
    | inl totalAmount =>
        if from.(Balance) <? totalAmount then inr ErrInsufficientFunds
        else inl (set_Balance (from.(Balance) - totalAmount) from)
    end
  else if asset_of from tx.(AssetID) <? tx.(Amount) then inr (Err "insufficient asset balance")
  else if from.(Balance) <? tx.(Fee) then inr ErrInsufficientFunds
  else assets_write (set_Balance (from.(Balance) - tx.(Fee)) from) tx.(AssetID)
         (asset_of from tx.(AssetID) - tx.(Amount)).

(** The recipient after being paid. *)
Definition credit (tx : Tx) (to : Account) : res Account :=
  if is_native tx then
    match safeAdd to.(Balance) tx.(Amount) with
    | inr _ => inr (Err "recipient balance overflow detected")
    | inl nextBalance => inl (set_Balance nextBalance to)
    end
  else
    match safeAdd (asset_of to tx.(AssetID)) tx.(Amount) with
    | inr _ => inr (Err "recipient asset balance overflow detected")
    | inl nextAssetBalance => assets_write to tx.(AssetID) nextAssetBalance
    end.

Section with_ed25519.
Context `{E : Ed25519}.

(** The generic path of [ApplyTx]. Both accounts are read first, and the
    sender is written last. *)
Definition applyTransfer (tx : Tx) : SM State unit :=
  s ← get;
  let from := Get s tx.(From) in
  let to := Get s tx.(To) in
  fail_if (negb (tx.(Nonce) =? from.(AccNonce))) (Err "bad nonce");;
  fail_if (inner_circle_short tx) (Err "insufficient amount for Inner Circle slot");;
  from' ← lift (debit tx from);
  to' ← lift (credit tx to);
  applyImmuneMetadata tx;;
  applyBridgeMetadata tx;;
  modify (Set_ tx.(To) to');;
  modify (Set_ tx.(From) (bump_nonce from')).

(** [ApplyTx] on a transaction whose signature has been checked (and whose
    metadata that check has sorted). *)
Definition applyVerified (tx : Tx) : SM State unit :=
  if bool_decide (tx_type tx ∈ citizenGovernanceTxTypes) then applyCitizenGovernanceTx tx (tx_type tx)
  else if bool_decide (tx_type tx ∈ dexTxTypes) then applyDEXTx tx (tx_type tx)
  else applyTransfer tx.

(** [State.ApplyTx] *)
Definition ApplyTx (tx : Tx) : SM State unit :=
  match Verify tx with
  | (_, inr e) => throw e
  | (tx, inl _) => applyVerified tx
  end.

(* ------------------------------------------------------------------ *)
(** * Transactions in a block *)

Definition FeeModelV2ActivationHeight : Z := 102550.
Definition ErrFeeTooLow : error := Err "transaction fee is below minimum required".

(** [RequiredFee] *)
Definition RequiredFee (tx : Tx) : Z :=
  if empty_str tx.(AssetID) && (empty_str (tx_type tx) || bool_decide (tx_type tx = "transfer")) then
    let ceil := if tx.(Amount) mod 1000 =? 0 then tx.(Amount) / 1000 else tx.(Amount) / 1000 + 1 in
    let fee := if ceil <? 10 then 10 else ceil in
    if 1000 <? fee then 1000 else fee
  else 10.

Record TxContext : Type := mkTxContext {
  tc_Height : Z;
  tc_ChainID : string;
  Staking : ValidatorStakingParams;
  BlockTime : Z
}.

Definition with_block_time (ctx : TxContext) (tx : Tx) : Tx :=
  if ctx.(BlockTime) =? 0 then tx else set_Timestamp ctx.(BlockTime) tx.

(** [ApplyTransaction] *)
Definition ApplyTransaction (tx : Tx) (ctx : TxContext) : SM State unit :=
  fail_if ((FeeModelV2ActivationHeight <=? i64 ctx.(tc_Height)) && (tx.(Fee) <? RequiredFee tx)) ErrFeeTooLow;;
  let tx := with_block_time ctx tx in
  let txType := tx_type tx in
  if IsValidatorTxType txType && EnabledAt ctx.(Staking) ctx.(tc_Height) then
    match Verify tx with
    | (_, inr e) => throw e
    | (tx, inl _) =>
        applyValidatorTxCtx tx txType (mkCtx ctx.(tc_Height) ctx.(Staking) ctx.(tc_ChainID))
    end
  else ApplyTx tx.

End with_ed25519.
