(* ===== verification/ApplyFacts.v ===== *)
(** What a transaction can do to the ledger: it creates native coin in one way
    only, and exactly so much ([minted]), it needs the sender's signature and
    exact nonce, and a rejected transaction leaves every account as it was. *)
From stdpp Require Import base strings list gmap.
From S2P Require Import Prelude GoStd Sha256 Json Types Ledger TxModel Citizen Governance Dex.
From S2P Require Import Dex DexLedger Bridge Staking StakingFacts Apply.

#[local] Open Scope string_scope.
#[local] Open Scope Z_scope.

(** The integer fields of a transaction are [uint64]s. *)
Record tx_fields (tx : Tx) : Prop := {
  tf_amount : in_u64 tx.(Amount);
  tf_fee : in_u64 tx.(Fee);
  tf_nonce : in_u64 tx.(Nonce)
}.

(** The amounts of proposals are [uint64]s. *)
Definition payable (s : State) : Prop := map_Forall (λ _ p, 0 ≤ p.(p_Amount)) s.(GovernanceProposals).

(** The native coin an accepted transaction creates. There is one way:
    [governance_execute], when the treasury pays itself (the proposal's amount
    is added, the debit being overwritten), and when the treasury submits it
    and is left with less than the fee (its balance wraps around). *)
Definition minted (tx : Tx) (s : State) : Z :=
  if bool_decide (tx_type tx = "governance_execute") then
    match s.(GovernanceProposals) !! metadataValue tx.(Metadata) "proposal_id" with
    | None => 0
    | Some p =>
        if bool_decide (p.(p_Recipient) = s.(TreasuryAddress)) then p.(p_Amount)
        else if bool_decide (tx.(From) = s.(TreasuryAddress)) && ((acct s tx.(From)).(Balance) <? p.(p_Amount) + tx.(Fee)) then 2 ^ 64
        else 0
    end
  else 0.

Lemma minted_nonneg tx s : payable s → 0 ≤ minted tx s.
Proof.
  intros Hp. unfold minted. case_bool_decide; [|done]. destruct (_ !! _) as [p|] eqn:Hl; [|done]. apply Hp in Hl. by repeat case_match.
Qed.

(** The treasury has to be the recipient, or to be the sender and short of
    coin. *)
Lemma minted_cases tx s : minted tx s ≠ 0 →
  tx_type tx = "governance_execute" ∧ ∃ p, s.(GovernanceProposals) !! metadataValue tx.(Metadata) "proposal_id" = Some p ∧
    (p.(p_Recipient) = s.(TreasuryAddress) ∧ minted tx s = p.(p_Amount) ∨
     p.(p_Recipient) ≠ s.(TreasuryAddress) ∧ tx.(From) = s.(TreasuryAddress) ∧
     (acct s tx.(From)).(Balance) < p.(p_Amount) + tx.(Fee) ∧ minted tx s = 2 ^ 64).
Proof.
  unfold minted. case_bool_decide as Ht; [|done]. destruct (_ !! _) as [p|]; [|done]. intros Hne. split; [done|]. exists p. split; [done|].
  destruct (bool_decide_reflect (p_Recipient p = TreasuryAddress s)); [by left|]. right.
  destruct (bool_decide_reflect (From tx = TreasuryAddress s)); [|done]. simpl in *.
  destruct (Z.ltb_spec (acct s tx.(From)).(Balance) (p.(p_Amount) + tx.(Fee))); [|done]. done.
Qed.

Lemma minted_other tx s : tx_type tx ≠ "governance_execute" → minted tx s = 0.
Proof. intros Hne. unfold minted. by rewrite bool_decide_eq_false_2. Qed.

(** The registries a plain transaction leaves alone. *)
Definition market_frame (s s' : State) : Prop :=
  s'.(DEXPools) = s.(DEXPools) ∧ s'.(Validators) = s.(Validators) ∧
  s'.(ValidatorSetSnapshot) = s.(ValidatorSetSnapshot).

Lemma citizen_frame_market s s' : citizen_frame s s' → market_frame s s'.
Proof. unfold citizen_frame. intros ->. done. Qed.

Section citizen.
Context (tx : Tx) (s : State) (Hok : ledger_ok s) (Htx : tx_fields tx).

(** What the action of a citizen or governance transaction leaves for the fee
    collection. *)
Definition action_post (s1 : State) : Prop :=
  ledger_ok s1 ∧ supply s1 = supply s ∧ tx.(Fee) ≤ (acct s1 tx.(From)).(Balance) ∧
  (∀ b, (acct s1 b).(AccNonce) = (acct s b).(AccNonce)) ∧ market_frame s s1 ∧ (payable s → payable s1).

Lemma action_post_same s1 :
  tx.(Fee) ≤ (acct s tx.(From)).(Balance) → proposals_frame s s1 → (payable s → payable s1) → action_post s1.
Proof.
  intros Hf Hp Hpay. split_and!; [..|exact Hpay]; rewrite Hp; try done. by apply (ledger_ok_same s).
Qed.

Lemma citizen_frame_payable s1 : citizen_frame s s1 → payable s → payable s1.
Proof. unfold payable. intros ->. done. Qed.

Lemma stake_action now :
  tx.(Amount) + tx.(Fee) ≤ (acct s tx.(From)).(Balance) →
  wp (StakeCitizen tx.(From) tx.(Amount) now) (λ _, action_post) (λ _ s', s' = s) s.
Proof.
  intros Hf. eapply wp_mono; [apply StakeCitizen_spec; [done|apply Htx]| |done].
  intros [] s' (? & ? & ? & ? & Hacc & _ & Ho). split_and!; try done.
  - rewrite Hacc. simpl. lia.
  - intros b. destruct (decide (b = From tx)) as [->|Hb]; [by rewrite Hacc|by destruct (Ho b Hb) as [-> _]].
  - by apply citizen_frame_market.
  - by apply citizen_frame_payable.
Qed.

Lemma unstake_action :
  tx.(Fee) ≤ (acct s tx.(From)).(Balance) →
  wp (UnstakeCitizen tx.(From) tx.(Amount)) (λ _, action_post) (λ _ s', s' = s) s.
Proof.
  intros Hf. pose proof (tf_amount tx Htx) as [Ha _]. eapply wp_mono; [apply UnstakeCitizen_spec; [done|apply Ha]| |done].
  intros [] s' (? & ? & ? & ? & Hacc & _ & Ho). split_and!; try done.
  - rewrite Hacc. simpl. lia.
  - intros b. destruct (decide (b = From tx)) as [->|Hb]; [by rewrite Hacc|by destruct (Ho b Hb) as [-> _]].
  - by apply citizen_frame_market.
  - by apply citizen_frame_payable.
Qed.

Lemma claim_action now :
  tx.(Fee) ≤ (acct s tx.(From)).(Balance) →
  wp (ClaimCitizenRewards tx.(From) now) (λ _, action_post) (λ _ s', s' = s) s.
Proof.
  intros Hf. eapply wp_mono; [by apply ClaimCitizenRewards_spec| |done].
  intros pay s' (? & ? & ? & Hpay & Hbal & _ & Hn). split_and!; try done; [|by apply citizen_frame_market|by apply citizen_frame_payable].
  pose proof (pendingCitizenRewards_range s (From tx) now) as [? _].
  pose proof (acct_balance_range s Hok (TreasuryAddress s)).
  rewrite Hbal, decide_True by done. case_decide; lia.
Qed.

Lemma collect_fee_spec s1 :
  action_post s1 →
  wp (collect_fee tx)
    (λ _ s', ledger_ok s' ∧ supply s' = supply s - tx.(Fee) ∧ nonce_step tx.(From) s s' ∧ market_frame s s' ∧ (payable s → payable s'))
    (λ _ _, False) s1.
Proof.
  intros (Hok1 & Hs & Hf & Hn & Hm & Hpay). unfold collect_fee. wp_go.
  pose proof (acct_balance_range s1 Hok1 (From tx)). pose proof (spendable_le_max s1 Hok1).
  pose proof (tf_fee tx Htx) as [? _]. rewrite u64_small by (split; lia).
  destruct (one_party s1 (From tx) (bump_nonce (set_Balance (Balance (acct s1 (From tx)) - Fee tx) (acct s1 (From tx)))) (Fee tx))
    as (? & Hs' & Hn1 & Hn2); simpl; [done|lia|lia|lia|done|].
  split_and!; [done|lia| |done|done]. split; [by rewrite Hn1, Hn|]. intros b Hb. by rewrite Hn2, Hn.
Qed.

Lemma propose_action :
  tx.(Fee) ≤ (acct s tx.(From)).(Balance) →
  wp (governance_propose tx) (λ _, action_post) (λ _ s', s' = s) s.
Proof.
  intros Hf. unfold governance_propose.
  wp_go_with (eapply wp_mono; [apply createGovernanceProposal_spec| |done]); [done|].
  intros [] s' (_ & _ & _ & ->). apply action_post_same; [done..|]. intros Hpay. apply map_Forall_insert_2; [cbn|exact Hpay].
  pose proof (parseTxMetadataUint64_range tx.(Metadata) "amount") as Hr.
  match goal with H : parseTxMetadataUint64 _ _ = _ |- _ => rewrite H in Hr end. apply Hr.
Qed.

Lemma vote_action id fav :
  tx.(Fee) ≤ (acct s tx.(From)).(Balance) →
  wp (voteGovernance tx.(From) id fav) (λ _, action_post) (λ _ s', s' = s) s.
Proof.
  intros Hf. eapply wp_mono; [apply voteGovernance_spec| |done]. intros [] s' [Hp (p & p' & Hl & Hs' & _ & _ & _ & _ & _ & Ha & _)].
  apply action_post_same; [done..|]. intros Hpay. unfold payable. rewrite Hs'. apply map_Forall_insert_2; [|exact Hpay].
  rewrite Ha. exact (Hpay _ _ Hl).
Qed.

Lemma citizen_action_spec :
  (tx_type tx = "citizen_stake" → tx.(Amount) + tx.(Fee) ≤ (acct s tx.(From)).(Balance)) →
  tx.(Fee) ≤ (acct s tx.(From)).(Balance) → tx_type tx ≠ "governance_execute" →
  wp (citizen_action tx (tx_type tx)) (λ _, action_post) (λ _ s', s' = s) s.
Proof.
  intros Hst Hf Hne. unfold citizen_action.
  repeat (case_bool_decide; [|]); [..|done].
  - by apply stake_action, Hst.
  - by apply unstake_action.
  - apply wp_bind. eapply wp_mono; [by apply claim_action|done|done].
  - by apply propose_action.
  - by apply vote_action.
  - by apply vote_action.
  - done.
Qed.

(** *** Paying out a proposal *)

Definition paid_out (id : string) (p : Proposal) : State :=
  put_acct p.(p_Recipient) (set_Balance ((acct s p.(p_Recipient)).(Balance) + p.(p_Amount)) (acct s p.(p_Recipient)))
    (put_acct s.(TreasuryAddress) (set_Balance ((acct s s.(TreasuryAddress)).(Balance) - p.(p_Amount)) (acct s s.(TreasuryAddress)))
      (put_proposal id (executed_proposal p) s)).

Definition charged (s1 : State) : State :=
  put_acct tx.(From) (bump_nonce (set_Balance (u64 ((acct s1 tx.(From)).(Balance) - tx.(Fee))) (acct s1 tx.(From)))) s1.

Lemma paid_out_supply id p :
  supply (paid_out id p) = supply s + (if bool_decide (p.(p_Recipient) = s.(TreasuryAddress)) then p.(p_Amount) else 0).
Proof.
  unfold paid_out. case_bool_decide; [by apply execute_supply_treasury|]. rewrite Z.add_0_r. by apply execute_supply.
Qed.

(** The sender's balance before the fee is taken. *)
Lemma paid_out_sender id p :
  (acct (paid_out id p) tx.(From)).(Balance) = (acct s tx.(From)).(Balance) +
    (if bool_decide (p.(p_Recipient) = tx.(From)) then p.(p_Amount)
     else if bool_decide (tx.(From) = s.(TreasuryAddress)) then - p.(p_Amount) else 0).
Proof.
  unfold paid_out. rewrite acct_put. destruct (bool_decide_reflect (p_Recipient p = From tx)) as [Hr|Hr].
  - rewrite decide_True by done. by rewrite Hr.
  - rewrite decide_False by done. rewrite acct_put. case_bool_decide as Ht.
    + rewrite decide_True by done. cbn. rewrite Ht. lia.
    + rewrite decide_False by congruence. change (acct (put_proposal _ _ _)) with (acct s). lia.
Qed.

Lemma charged_supply id total p :
  tx_type tx = "governance_execute" → id = metadataValue tx.(Metadata) "proposal_id" →
  executable s id total p → payable s → tx.(Fee) ≤ (acct s tx.(From)).(Balance) →
  supply (charged (paid_out id p)) = supply s - tx.(Fee) + minted tx s.
Proof.
  intros Hty -> Hex Hpay Hf. unfold charged. rewrite supply_put. cbn [bump_nonce Balance set_Balance set_AccNonce].
  rewrite paid_out_supply. unfold minted. rewrite (bool_decide_eq_true_2 (tx_type tx = _)), (ex_found _ _ _ _ Hex) by done.
  pose proof (Hpay _ _ (ex_found _ _ _ _ Hex)) as Ha. cbn in Ha. pose proof (ex_funds _ _ _ _ Hex). pose proof (ex_fits _ _ _ _ Hex).
  pose proof (tf_fee tx Htx) as [? _]. pose proof (acct_balance_range s Hok (From tx)). pose proof (spendable_le_max s Hok).
  pose proof (paid_out_sender (metadataValue (Metadata tx) "proposal_id") p) as Hb. set (b := Balance (acct (paid_out _ _) _)) in *.
  destruct (bool_decide_reflect (p_Recipient p = TreasuryAddress s)) as [Hr|Hr].
  - assert (Fee tx ≤ b ≤ MaxUint64) by (rewrite Hb; repeat case_bool_decide; [rewrite H4 in *; lia|congruence|lia]).
    rewrite u64_small by (split; lia). lia.
  - destruct (bool_decide_reflect (From tx = TreasuryAddress s)) as [Hft|Hft]; cbn [andb].
    + rewrite bool_decide_eq_false_2 in Hb by congruence. rewrite <- Hft in *.
      destruct (Z.ltb_spec (Balance (acct s (From tx))) (p_Amount p + Fee tx)).
      * assert (u64 (b - Fee tx) = b - Fee tx + 2 ^ 64) as ->; [|lia]. unfold u64. rewrite <- (Z.mod_add _ 1) by done.
        rewrite Z.mod_small; unfold MaxUint64 in *; lia.
      * rewrite u64_small by (split; lia). lia.
    + assert (Fee tx ≤ b ≤ MaxUint64) by (rewrite Hb; case_bool_decide as Hx; [rewrite Hx in *; lia|lia]).
      rewrite u64_small by (split; lia). lia.
Qed.

Lemma charged_frame id p : nonce_step tx.(From) s (charged (paid_out id p)) ∧ market_frame s (charged (paid_out id p)).
Proof.
  assert (∀ b, (acct (paid_out id p) b).(AccNonce) = (acct s b).(AccNonce)) as Hn.
  { intros b. unfold paid_out. rewrite !acct_put. repeat case_decide; by subst. }
  split; [|done]. unfold charged. split; [by rewrite acct_put_eq; cbn; rewrite Hn|]. intros b Hb. by rewrite acct_put_ne, Hn.
Qed.

Lemma charged_ok id total p :
  executable s id total p → payable s → supply (charged (paid_out id p)) ≤ MaxUint64 → ledger_ok (charged (paid_out id p)).
Proof.
  intros Hex Hpay Hs. constructor; [|apply Hok..|exact Hs]. pose proof (Hpay _ _ (ex_found _ _ _ _ Hex)) as Ha. cbn in Ha.
  pose proof (ex_funds _ _ _ _ Hex). pose proof (acct_balance_range s Hok (p_Recipient p)). intros b acc. cbn.
  intros [[_ <-]|[_ [[_ <-]|[_ [[_ <-]|[_ ?]]%lookup_insert_Some]]%lookup_insert_Some]]%lookup_insert_Some; cbn; [apply u64_range|lia..|by eapply ok_accounts].
Qed.

(** What a citizen or governance transaction does. *)
Definition citizen_post (s' : State) : Prop :=
  nonce_step tx.(From) s s' ∧ market_frame s s' ∧
  (payable s → payable s' ∧ supply s' = supply s - tx.(Fee) + minted tx s ∧ (supply s + minted tx s ≤ MaxUint64 → ledger_ok s')).

Lemma execute_spec id total :
  tx_type tx = "governance_execute" → id = metadataValue tx.(Metadata) "proposal_id" → tx.(Fee) ≤ (acct s tx.(From)).(Balance) →
  wp (executeGovernanceProposal id total;; collect_fee tx) (λ _, citizen_post) (λ _ s', s' = s) s.
Proof.
  intros Hty Hid Hf. apply wp_bind. eapply wp_mono; [apply executeGovernanceProposal_spec| |done]. intros [] s1 (p & Hex & ->).
  change (put_acct (p_Recipient p) _ _) with (paid_out id p). unfold collect_fee. wp_go. change (put_acct (From tx) _ _) with (charged (paid_out id p)).
  destruct (charged_frame id p) as [Hn Hm]. split; [exact Hn|]. split; [exact Hm|]. intros Hpay.
  pose proof (charged_supply id total p Hty Hid Hex Hpay Hf) as Hs. pose proof (tf_fee tx Htx) as [? _].
  split; [|split; [exact Hs|intros Hfit; apply (charged_ok id total); [done..|lia]]].
  apply map_Forall_insert_2; [|exact Hpay]. exact (Hpay _ _ (ex_found _ _ _ _ Hex)).
Qed.

Lemma applyCitizenGovernanceTx_spec :
  wp (applyCitizenGovernanceTx tx (tx_type tx))
    (λ _ s', tx.(Nonce) = (acct s tx.(From)).(AccNonce) ∧ citizen_post s') (λ _ s', s' = s) s.
Proof.
  unfold applyCitizenGovernanceTx. wp_go; try done.
  all: match goal with H : negb _ = false |- _ => apply negb_false_iff, Z.eqb_eq in H end.
  all: match goal with H : (_ <? _) = false |- _ => apply Z.ltb_ge in H; rewrite Balance_Get in H end.
  all: try match goal with H : safeAdd _ _ = inl _ |- _ => apply safeAdd_inl in H as [_ ->] end.
  all: pose proof (tf_amount tx Htx) as [? _].
  all: destruct (decide (tx_type tx = "governance_execute")) as [Hty|Hty].
  all: try (eapply wp_mono; [apply citizen_action_spec; [intros Ht; try lia; by rewrite bool_decide_eq_true_2 in *|lia|exact Hty]| |done]).
  all: try (intros [] s1 Hs1; eapply wp_mono; [by apply collect_fee_spec| |done];
    intros [] s' (? & ? & ? & ? & ?); split; [done|]; split; [done|]; split; [done|]; intros Hpay; rewrite (minted_other tx s Hty);
    split; [auto|split; [lia|done]]).
  - apply bool_decide_eq_true in Heqb. congruence.
  - assert (citizen_action tx (tx_type tx) = (totalStake ← gets TotalStake; executeGovernanceProposal (metadataValue tx.(Metadata) "proposal_id") totalStake)) as ->
      by (unfold citizen_action; by rewrite Hty).
    apply wp_bind, wp_gets. eapply wp_mono; [exact (wp_bind_inv _ _ _ _ _ (execute_spec _ (TotalStake s) Hty eq_refl ltac:(lia)))| |done].
    intros [] s1 Hs1. eapply wp_mono; [exact Hs1| |done]. intros [] s' ?. by split.
Qed.

End citizen.

(* ------------------------------------------------------------------ *)
(** * Transfers *)

(** The native coin a transfer moves. *)
Definition paid (tx : Tx) : Z := if is_native tx then tx.(Amount) else 0.

Lemma debit_ok tx from from' :
  debit tx from = inl from' →
  from'.(Balance) = from.(Balance) - (paid tx + tx.(Fee)) ∧ paid tx + tx.(Fee) ≤ from.(Balance) ∧
  from'.(AccNonce) = from.(AccNonce) ∧
  (is_native tx = false → tx.(Amount) ≤ asset_of from tx.(AssetID) ∧
     asset_of from' tx.(AssetID) = asset_of from tx.(AssetID) - tx.(Amount)).
Proof.
  unfold debit, paid. destruct (is_native tx).
  - destruct (safeAdd _ _) as [t|] eqn:Ht; [|done]. apply safeAdd_inl in Ht as [_ ->].
    destruct (Z.ltb_spec (Balance from) (Amount tx + Fee tx)); [done|]. intros [= <-]. done.
  - destruct (Z.ltb_spec (asset_of from (AssetID tx)) (Amount tx)); [done|].
    destruct (Z.ltb_spec (Balance from) (Fee tx)); [done|]. intros Hw.
    pose proof (assets_write_of _ _ _ _ Hw). apply assets_write_ok in Hw as (-> & -> & _). simpl.
    split_and!; done || lia.
Qed.

Lemma credit_ok tx to to' :
  credit tx to = inl to' →
  to'.(Balance) = to.(Balance) + paid tx ∧ to'.(AccNonce) = to.(AccNonce) ∧
  (is_native tx = false → asset_of to' tx.(AssetID) = asset_of to tx.(AssetID) + tx.(Amount)).
Proof.
  unfold credit, paid. destruct (is_native tx).
  - destruct (safeAdd _ _) as [t|] eqn:Ht; [|done]. apply safeAdd_inl in Ht as [_ ->]. by intros [= <-].
  - destruct (safeAdd _ _) as [t|] eqn:Ht; [|done]. apply safeAdd_inl in Ht as [_ ->]. intros Hw.
    pose proof (assets_write_of _ _ _ _ Hw). apply assets_write_ok in Hw as (-> & -> & _).
    split_and!; done || lia.
Qed.

(** What a transfer destroys besides its fee: a transfer to oneself writes the
    debited sender over the credited recipient. *)
Definition self_loss (tx : Tx) : Z := if bool_decide (tx.(From) = tx.(To)) then paid tx else 0.

Section transfer.
Context `{E : Ed25519} (tx : Tx) (s : State) (Hok : ledger_ok s) (Htx : tx_fields tx).

Lemma paid_nonneg : 0 ≤ paid tx.
Proof. unfold paid. pose proof (tf_amount tx Htx) as [? _]. case_match; lia. Qed.

Definition after_transfer (from' to' : Account) (s1 : State) : State :=
  Set_ tx.(From) (bump_nonce from') (Set_ tx.(To) to' s1).

Lemma after_transfer_ok from' to' s1 :
  registry_frame s s1 → debit tx (Get s tx.(From)) = inl from' → credit tx (Get s tx.(To)) = inl to' →
  let s' := after_transfer from' to' s1 in
  ledger_ok s' ∧ supply s' = supply s - tx.(Fee) - self_loss tx ∧ nonce_step tx.(From) s s' ∧
  acct s' tx.(From) = norm_acct (bump_nonce from') ∧
  (tx.(To) ≠ tx.(From) → acct s' tx.(To) = norm_acct to') ∧
  (∀ b, b ≠ tx.(From) → b ≠ tx.(To) → acct s' b = acct s b).
Proof.
  intros Hf (Hfb & Hfle & Hfn & _)%debit_ok (Htb & Htn & _)%credit_ok s'.
  destruct (registry_frame_ledger s s1 Hf Hok) as [Hok1 Hs1].
  pose proof paid_nonneg. pose proof (tf_fee tx Htx) as [? _]. pose proof (ok_supply s Hok).
  pose proof (acct_balance_range s Hok (From tx)). pose proof (acct_balance_range s Hok (To tx)).
  rewrite !Balance_Get in *.
  assert (supply s' = supply s - Fee tx - self_loss tx) as Hs'.
  { unfold s', after_transfer, Set_, self_loss. rewrite !supply_put, acct_put, !(registry_frame_acct s s1) by done.
    case_bool_decide as Hd; case_decide; simplify_eq/=; try congruence; rewrite ?Hd in *; lia. }
  split_and!; [|done| | | |].
  - constructor; [|apply Hok1..|unfold self_loss in *; case_bool_decide; lia]. intros b acc. simpl.
    intros [[_ <-]|[_ [[_ <-]|[_ ?]]%lookup_insert_Some]]%lookup_insert_Some; simpl; [lia..|by eapply ok_accounts].
  - unfold s', after_transfer, Set_. split; [by rewrite acct_put_eq; simpl; rewrite Hfn|].
    intros b Hb. rewrite acct_put_ne, acct_put by done.
    case_decide; [subst; simpl; by rewrite Htn|by rewrite (registry_frame_acct s s1)].
  - apply acct_put_eq.
  - intros Hne. unfold s', after_transfer, Set_. by rewrite acct_put_ne, acct_put_eq.
  - intros b Hb1 Hb2. unfold s', after_transfer, Set_. rewrite !acct_put_ne by done. by apply registry_frame_acct.
Qed.

Lemma applyTransfer_spec :
  wp (applyTransfer tx)
    (λ _ s', tx.(Nonce) = (acct s tx.(From)).(AccNonce) ∧ ledger_ok s' ∧
       supply s' = supply s - tx.(Fee) - self_loss tx ∧ nonce_step tx.(From) s s' ∧
       (market_frame s s' ∧ s'.(GovernanceProposals) = s.(GovernanceProposals)) ∧
       ∃ from' to', debit tx (Get s tx.(From)) = inl from' ∧ credit tx (Get s tx.(To)) = inl to' ∧
         acct s' tx.(From) = norm_acct (bump_nonce from') ∧
         (tx.(To) ≠ tx.(From) → acct s' tx.(To) = norm_acct to') ∧
         (∀ b, b ≠ tx.(From) → b ≠ tx.(To) → acct s' b = acct s b))
    (λ _ s', s' = s) s.
Proof.
  unfold applyTransfer. wp_go; try done.
  match goal with H : negb _ = false |- _ => apply negb_false_iff, Z.eqb_eq in H end.
  pose proof (wp_bind_inv _ _ _ _ _ (applyMetadata_spec tx s)) as Hmeta.
  eapply wp_mono; [exact Hmeta| |done]. intros [] s0 Hs0.
  apply wp_bind. eapply wp_mono; [exact Hs0| |done]. intros [] s1 Hs1. wp_go.
  destruct (after_transfer_ok _ _ s1 Hs1 H1 H2) as (? & ? & ? & ? & ? & ?).
  split_and!; try done; [| |by eauto 10]; by destruct Hs1 as (_ & _ & ? & ? & ? & _ & _ & ?).
Qed.

End transfer.

(* ------------------------------------------------------------------ *)
(** * Any transaction *)

(** A pool account has no key, so no transaction is sent from it. *)
Lemma authentic_not_pool `{E : Ed25519} tx id : tx_authentic tx → tx.(From) ≠ PoolAddress id.
Proof.
  intros (h & -> & Hh & _)%authentic_From. unfold PoolAddress. generalize (ToLower (TrimSpace id)).
  intros t Heq. simplify_eq. change ("" +:+ h) with h in Heq. by subst h.
Qed.

Lemma err_frame_market s s' : err_frame s s' → s'.(Validators) = s.(Validators) ∧ s'.(ValidatorSetSnapshot) = s.(ValidatorSetSnapshot).
Proof. intros [->|(id & _ & ->)]; done. Qed.

Lemma err_frame_pools s s' : err_frame s s' → pools_ok s → pools_ok s'.
Proof. intros [->|(id & _ & ->)] Hp; [done|]. apply map_Forall_insert_2; [apply pool_ok_New|done]. Qed.

(** Native coin a transaction destroys on top of its fee. *)
Definition tx_loss (tx : Tx) : Z :=
  if bool_decide (tx_type tx ∈ citizenGovernanceTxTypes ++ dexTxTypes)%list then 0 else self_loss tx.

Section any_tx.
Context `{E : Ed25519}.
Context (tx : Tx) (s : State) (Hok : ledger_ok s) (Hpools : pools_ok s) (Htx : tx_fields tx).

Record applied (s' : State) : Prop := {
  ap_nonce : tx.(Nonce) = (acct s tx.(From)).(AccNonce);
  ap_step : nonce_step tx.(From) s s';
  ap_frame : s'.(Validators) = s.(Validators) ∧ s'.(ValidatorSetSnapshot) = s.(ValidatorSetSnapshot);
  ap_pools : pools_ok s';
  ap_effect : payable s → payable s' ∧ supply s' = supply s - tx.(Fee) - tx_loss tx + minted tx s ∧
    (supply s + minted tx s ≤ MaxUint64 → ledger_ok s')
}.

Lemma tx_loss_nonneg : 0 ≤ tx_loss tx.
Proof. unfold tx_loss, self_loss. pose proof (paid_nonneg tx Htx). repeat case_bool_decide; lia. Qed.

Lemma applyVerified_spec :
  (∀ id, tx.(From) ≠ PoolAddress id) →
  wp (applyVerified tx) (λ _, applied) (λ _, err_frame s) s.
Proof.
  intros Hnp. unfold applyVerified.
  case_bool_decide as Hc; [|case_bool_decide as Hd].
  - eapply wp_mono; [by apply applyCitizenGovernanceTx_spec| |by intros ? s' ->; apply err_frame_refl].
    intros [] s' (? & ? & (Hm & ? & ?) & He). split; try done; [unfold pools_ok; by rewrite Hm|]. intros Hpay.
    unfold tx_loss. rewrite bool_decide_eq_true_2 by (by apply elem_of_app; left). destruct (He Hpay) as (? & ? & ?). split; [done|]. split; [lia|done].
  - eapply wp_mono; [apply (wp_and _ _ _ _ _ _ (applyDEXTx_spec tx s Hok ltac:(apply Htx) ltac:(apply Htx) Hpools (Hnp _) (tx_type tx))
      (applyDEXTx_frame tx (tx_type tx) s))| |by intros ? s' [? _]].
    intros [] s' ((? & (? & ? & ?) & ?) & Hf). split; try done; [by rewrite Hf|]. intros Hpay.
    unfold tx_loss. rewrite bool_decide_eq_true_2 by (by apply elem_of_app; right). rewrite minted_other by (by intros Ht; rewrite Ht in Hc; apply Hc; set_solver).
    split; [unfold payable; by rewrite Hf|]. split; [lia|done].
  - eapply wp_mono; [by apply applyTransfer_spec| |by intros ? s' ->; apply err_frame_refl].
    intros [] s' (? & ? & ? & ? & ((Hm & ? & ?) & Hg) & _). split; try done; [unfold pools_ok; by rewrite Hm|]. intros Hpay.
    unfold tx_loss. rewrite bool_decide_eq_false_2 by (rewrite elem_of_app; tauto). rewrite minted_other by (by intros Ht; rewrite Ht in Hc; apply Hc; set_solver).
    split; [unfold payable; by rewrite Hg|]. split; [lia|done].
Qed.

End any_tx.

Section any_tx_verified.
Context `{E : Ed25519}.
Context (tx : Tx) (s : State) (Hok : ledger_ok s) (Hpools : pools_ok s) (Htx : tx_fields tx).

Lemma ApplyTx_spec :
  wp (ApplyTx tx) (λ _ s', tx_authentic tx ∧ applied (sort_metadata tx) s s') (λ _, err_frame s) s.
Proof.
  unfold ApplyTx. destruct (Verify_ok_case tx) as [[Hv Ha]|(e & Hv & _)].
  - rewrite Hv. eapply wp_mono; [apply (applyVerified_spec (sort_metadata tx)); try done| |done].
    + by destruct Htx.
    + intros id. by apply (authentic_not_pool tx).
    + intros [] s' ?. by split.
  - destruct (Verify tx) as [tx' r]. simpl in Hv. subst r. apply err_frame_refl.
Qed.

End any_tx_verified.

(** ** Through [ApplyTransaction] *)

Section in_block.
Context `{E : Ed25519}.
Context (tx : Tx) (s : State) (Hok : ledger_ok s) (Hpools : pools_ok s) (Htx : tx_fields tx).

Lemma Verify_with_block_time ctx :
  tx_authentic (with_block_time ctx tx) ↔ tx_authentic tx.
Proof. unfold with_block_time. case_match; [done|apply tx_authentic_timestamp]. Qed.

(** Parameters as [Validate] accepts them once stake consensus is on. *)
Definition slash_params_ok (p : ValidatorStakingParams) : Prop :=
  0 ≤ p.(SlashFractionBps) ≤ 10000 ∧ 0 ≤ p.(ReporterRewardBps) ≤ 10000.

Definition block_post (full : bool) (ctx : TxContext) (s' : State) : Prop :=
  tx_authentic tx ∧ tx.(Nonce) = (acct s tx.(From)).(AccNonce) ∧ nonce_step tx.(From) s s' ∧
  pools_ok s' ∧ registry_rel full ctx.(Staking) s' ∧
  (payable s → payable s' ∧ supply s' ≤ supply s - tx.(Fee) + minted (sort_metadata tx) s ∧
     (supply s + minted (sort_metadata tx) s ≤ MaxUint64 → ledger_ok s')).

Lemma validator_case full ctx txType :
  registry_rel full ctx.(Staking) s → slash_params_ok ctx.(Staking) →
  tx_authentic (with_block_time ctx tx) →
  wp (applyValidatorTxCtx (sort_metadata (with_block_time ctx tx)) txType
        (mkCtx ctx.(tc_Height) ctx.(Staking) ctx.(tc_ChainID)))
    (λ _, block_post full ctx) (λ _, err_frame s) s.
Proof.
  intros Hreg [Hs1 Hs2] Ha. pose proof (proj1 (Verify_with_block_time ctx) Ha) as Ha'.
  destruct (authentic_Amount tx Ha') as (Hamt & _ & _ & Hfrom).
  destruct Htx as [[? _] [? _] _]. unfold with_block_time in *.
  set (tx' := sort_metadata _).
  assert (tx'.(From) = tx.(From) ∧ tx'.(Fee) = tx.(Fee) ∧ tx'.(Nonce) = tx.(Nonce) ∧ tx'.(Amount) = tx.(Amount))
    as (Hf & Hfe & Hn & Ham) by (unfold tx'; by case_match).
  eapply wp_mono; [apply (wp_and _ _ _ _ _ _ (applyValidatorTxCtx_spec s tx' (mkCtx ctx.(tc_Height) ctx.(Staking) ctx.(tc_ChainID)) full
      Hok Hreg ltac:(lia) ltac:(lia) ltac:(by rewrite Hf) Hs1 Hs2 txType) (applyValidatorTxCtx_frame tx' txType _ s))| |
    by intros ? s' [-> _]; apply err_frame_refl].
  rewrite Hf, Hfe, Hn. intros [] s' ((? & ? & ? & ? & ? & _) & Hd & Hg).
  split_and!; try done; [unfold pools_ok; by rewrite Hd|]. intros Hpay. pose proof (minted_nonneg (sort_metadata tx) s Hpay).
  split; [unfold payable; by rewrite Hg|]. split; [lia|done].
Qed.

Lemma plain_case full ctx :
  registry_rel full ctx.(Staking) s →
  wp (ApplyTx (with_block_time ctx tx)) (λ _, block_post full ctx) (λ _, err_frame s) s.
Proof.
  intros Hreg. set (tx' := with_block_time ctx tx).
  assert (tx_fields tx' ∧ minted (sort_metadata tx') s = minted (sort_metadata tx) s ∧ tx'.(Fee) = tx.(Fee) ∧ tx'.(From) = tx.(From) ∧ tx'.(Nonce) = tx.(Nonce))
    as (Htx' & Hmint & Hf & Hfr & Hn) by (unfold tx', with_block_time; case_match; by destruct Htx).
  eapply wp_mono; [apply (ApplyTx_spec tx')| |done]; try done.
  intros [] s' (Ha & [Hno Hst [Hv Hs] Hpo He]). cbn [sort_metadata Nonce From Fee] in *.
  pose proof (tx_loss_nonneg (sort_metadata tx') ltac:(by destruct Htx')). change (Nonce (sort_metadata tx')) with (Nonce tx') in *.
  change (From (sort_metadata tx')) with (From tx') in *. change (Fee (sort_metadata tx')) with (Fee tx') in *. rewrite Hn, Hfr, Hf, Hmint in *.
  split_and!; try done; [by apply Verify_with_block_time in Ha|by apply (registry_ok_same _ _ s)|].
  intros (? & ? & ?)%He. split; [done|]. split; [lia|done].
Qed.

Lemma ApplyTransaction_spec full ctx :
  registry_rel full ctx.(Staking) s → slash_params_ok ctx.(Staking) →
  wp (ApplyTransaction tx ctx) (λ _, block_post full ctx) (λ _, err_frame s) s.
Proof.
  intros Hreg Hs. unfold ApplyTransaction.
  apply wp_bind, wp_fail_if; [intros _; apply err_frame_refl|intros _]. cbv zeta.
  case_match.
  - destruct (Verify_ok_case (with_block_time ctx tx)) as [[Hv Ha]|(e & Hv & _)].
    + rewrite Hv. by apply validator_case.
    + destruct (Verify (with_block_time ctx tx)) as [tx' r]. simpl in Hv. subst r. apply err_frame_refl.
  - by apply plain_case.
Qed.

End in_block.

(* ------------------------------------------------------------------ *)
(** * The nonce guard *)

Lemma wp_any {S A} (m : SM S A) Q s : (∀ a s', Q a s') → wp m Q (λ _ _, True) s.
Proof. intros HP. unfold wp. by destruct (m s) as [? []]. Qed.

(** Every kind of transaction checks the nonce before anything else, so
    whatever the state, an accepted transaction carries the sender's nonce. *)
Lemma ApplyTransaction_nonce `{E : Ed25519} tx ctx s :
  wp (ApplyTransaction tx ctx) (λ _ _, tx.(Nonce) = (acct s tx.(From)).(AccNonce)) (λ _ _, True) s.
Proof.
  assert (∀ t, t.(Nonce) = tx.(Nonce) → t.(From) = tx.(From) → negb (Nonce t =? AccNonce (Get s (From t))) = false →
    tx.(Nonce) = (acct s tx.(From)).(AccNonce)) as Hg.
  { intros t <- <- H. by apply negb_false_iff, Z.eqb_eq in H. }
  assert (∀ t, (Verify (with_block_time ctx tx)).1 = t → t.(Nonce) = tx.(Nonce) ∧ t.(From) = tx.(From)) as Hv.
  { intros t <-. unfold with_block_time. destruct (Verify_effect (if BlockTime ctx =? 0 then tx else set_Timestamp (BlockTime ctx) tx)) as [->| ->];
      by case_match. }
  unfold ApplyTransaction, ApplyTx. apply wp_bind, wp_fail_if; [done|intros _]. cbv zeta.
  destruct (Verify (with_block_time ctx tx)) as [t [[]|e]] eqn:He; [|by case_match].
  destruct (Hv t eq_refl) as [Hn Hf]. case_match.
  - unfold applyValidatorTxCtx, applyValidatorEvidence.
    wp_go; try done.
    all: match goal with H : negb (Nonce ?x =? _) = false |- _ => pose proof (Hg x Hn Hf H) end.
    all: by repeat (apply wp_any; intros).
  - unfold applyVerified, applyCitizenGovernanceTx, applyDEXTx, applyTransfer.
    wp_go; try done.
    all: match goal with H : negb (Nonce ?x =? _) = false |- _ => pose proof (Hg x Hn Hf H) end.
    all: by repeat (apply wp_any; intros).
Qed.

(* ------------------------------------------------------------------ *)
(** * The amounts of proposals *)

(** No transaction writes a proposal whose amount is not a [uint64],
    whatever the rest of the state looks like. *)
Definition keeps_payable (s s' : State) : Prop := payable s → payable s'.

Lemma keeps_payable_frame s s' : s'.(GovernanceProposals) = s.(GovernanceProposals) → keeps_payable s s'.
Proof. intros Hg. unfold keeps_payable, payable. by rewrite Hg. Qed.

Lemma citizen_action_payable tx txType s :
  wp (citizen_action tx txType) (λ _, keeps_payable s) (λ _, keeps_payable s) s.
Proof.
  unfold citizen_action, StakeCitizen, UnstakeCitizen, ClaimCitizenRewards, governance_propose, createGovernanceProposal, voteGovernance,
    executeGovernanceProposal.
  wp_go; try done; try (by apply keeps_payable_frame); try (apply keeps_payable_frame; by case_match).
  all: intros Hpay; apply map_Forall_insert_2; cbn; try exact Hpay.
  all: try match goal with H : GovernanceProposals _ !! _ = Some _ |- _ => exact (Hpay _ _ H) end.
  match goal with H : parseTxMetadataUint64 ?md ?k = (?z, _) |- _ => pose proof (parseTxMetadataUint64_range md k) as Hr; rewrite H in Hr end.
  apply Hr.
Qed.

Lemma ApplyTransaction_payable `{E : Ed25519} tx ctx s :
  wp (ApplyTransaction tx ctx) (λ _, keeps_payable s) (λ _, keeps_payable s) s.
Proof.
  unfold ApplyTransaction, ApplyTx. apply wp_bind, wp_fail_if; [by intros _ ?|intros _]. cbv zeta. case_match.
  - destruct (Verify _) as [t [[]|e]]; [|by intros ?].
    eapply wp_mono; [apply applyValidatorTxCtx_frame| |intros ? s' ->; by intros ?]. intros [] s' [_ Hg]. by apply keeps_payable_frame.
  - destruct (Verify _) as [t [[]|e]]; [|by intros ?]. unfold applyVerified. case_bool_decide; [|case_bool_decide].
    + unfold applyCitizenGovernanceTx. wp_go; try by intros ?.
      all: eapply wp_mono; [apply citizen_action_payable| |done]; intros [] s1 Hs1; unfold collect_fee; wp_go; exact Hs1.
    + eapply wp_mono; [apply applyDEXTx_frame| |]; intros ? s' Hf; apply keeps_payable_frame; by rewrite Hf.
    + unfold applyTransfer. wp_go; try by intros ?. pose proof (wp_bind_inv _ _ _ _ _ (applyMetadata_spec t s)) as Hmeta.
      eapply wp_mono; [exact Hmeta| |intros ? s' ->; by intros ?]. intros [] s1 Hs1. apply wp_bind.
      eapply wp_mono; [exact Hs1| |intros ? s' ->; by intros ?]. intros [] s2 (_ & _ & _ & _ & Hg & _). wp_go. by apply keeps_payable_frame.
Qed.

(* ------------------------------------------------------------------ *)
(** * Convictions *)

Lemma citizen_action_validators tx txType s :
  wp (citizen_action tx txType) (λ _ s', s'.(Validators) = s.(Validators)) (λ _ s', s'.(Validators) = s.(Validators)) s.
Proof.
  unfold citizen_action, StakeCitizen, UnstakeCitizen, ClaimCitizenRewards, governance_propose, createGovernanceProposal, voteGovernance,
    executeGovernanceProposal.
  wp_go; try done. all: by case_match.
Qed.

(** No transaction undoes a conviction. *)
Lemma ApplyTransaction_convicted `{E : Ed25519} op key tx ctx s :
  wp (ApplyTransaction tx ctx) (λ _ s', convicted op key s → convicted op key s') (λ _ s', convicted op key s → convicted op key s') s.
Proof.
  unfold ApplyTransaction, ApplyTx. apply wp_bind, wp_fail_if; [done|intros _]. cbv zeta. case_match.
  - destruct (Verify_ok_case (with_block_time ctx tx)) as [[Hv Ha]|(e & Hv & _)].
    + destruct (authentic_Amount _ Ha) as (_ & _ & _ & Hfrom). rewrite Hv.
      eapply wp_mono; [by apply applyValidatorTxCtx_convicted|auto|intros ? s' ->; auto].
    + destruct (Verify _) as [t r]. simpl in Hv. subst r. exact (λ Hc, Hc).
  - destruct (Verify _) as [t [[]|e]]; [|exact (λ Hc, Hc)]. unfold applyVerified. case_bool_decide; [|case_bool_decide].
    + unfold applyCitizenGovernanceTx. wp_go; try done.
      all: eapply wp_mono; [apply citizen_action_validators| |intros ? s' Hs'; by apply convicted_same];
        intros [] s1 Hs1; unfold collect_fee; wp_go; by apply convicted_same.
    + eapply wp_mono; [apply applyDEXTx_frame| |]; intros ? s' Hf; apply convicted_same; by rewrite Hf.
    + unfold applyTransfer. wp_go; try done. pose proof (wp_bind_inv _ _ _ _ _ (applyMetadata_spec t s)) as Hmeta.
      eapply wp_mono; [exact Hmeta| |by intros ? s' ->]. intros [] s1 Hs1. apply wp_bind.
      eapply wp_mono; [exact Hs1| |by intros ? s' ->]. intros [] s2 (_ & _ & Hv & _). wp_go. by apply convicted_same.
Qed.
