(* ===== verification/Fees.v ===== *)
(** Block fees and the fee epoch (internal/chain/abci_support.go and
    [creditProposerFees] of internal/chain/chain.go): how the fees of a block
    are split between burn, proposer and treasury, how votes are recorded and
    how an epoch's pool is paid out; the penalty for double signing reported
    by the consensus engine; bonding a genesis validator. *)
From stdpp Require Import base strings list gmap.
From S2P Require Import Prelude GoStd Json Types Ledger TxModel Staking StakingFacts Apply.

#[local] Open Scope string_scope.
#[local] Open Scope Z_scope.

(** [safeAdd] over the fees of a list of transactions. *)
Fixpoint sum_fees (txs : list Tx) (total : Z) : res Z :=
  match txs with
  | [] => inl total
  | tx :: txs =>
      match safeAdd total tx.(Fee) with
      | inl total => sum_fees txs total
      | inr _ => inr (Err "block fee overflow")
      end
  end.

(** [(totalFees * BURN_PERCENT) / 100] *)
Definition burn_part (totalFees : Z) : Z := u64 (totalFees * BURN_PERCENT) / 100.

(** [creditProposerFees], also [applyBlockEconomics] *)
Definition creditProposerFees (txs : list Tx) (proposerAddr : Address) : SM State unit :=
  totalFees ← lift (sum_fees txs 0);
  if (totalFees =? 0) || empty_str proposerAddr then mret tt
  else
    let rewardAmount := totalFees - burn_part totalFees in
    proposer ← gets (λ s, Get s proposerAddr);
    match safeAdd proposer.(Balance) rewardAmount with
    | inr _ => throw (Err "proposer reward overflow")
    | inl nextBalance => modify (Set_ proposerAddr (set_Balance nextBalance proposer))
    end.

Record FeeSplit : Type := mkFeeSplit {
  TotalFees : Z;
  BurnAmount : Z;
  ToTreasury : Z;
  ToProposer : Z
}.

Definition ErrNoTreasury : error :=
  Err "cannot apply block fees: TreasuryAddress is required from FeeModelV2ActivationHeight onward".

(** [ApplyBlockFees] *)
Definition ApplyBlockFees (appliedTxs : list Tx) (proposer : Address) (height : Z) : SM State FeeSplit :=
  if height <? FeeModelV2ActivationHeight then
    totalFees ← lift (sum_fees appliedTxs 0);
    if (totalFees =? 0) || empty_str proposer then
      creditProposerFees appliedTxs proposer;;
      mret (mkFeeSplit totalFees totalFees 0 0)
    else
      creditProposerFees appliedTxs proposer;;
      mret (mkFeeSplit totalFees (burn_part totalFees) 0 (totalFees - burn_part totalFees))
  else
    totalFees ← lift (sum_fees appliedTxs 0);
    if totalFees =? 0 then mret (mkFeeSplit 0 0 0 0)
    else
      let burnAmount := burn_part totalFees in
      let toTreasury := totalFees - burnAmount in
      T ← gets TreasuryAddress;
      fail_if (empty_str T) ErrNoTreasury;;
      treasury ← gets (λ s, Get s T);
      match safeAdd treasury.(Balance) toTreasury with
      | inr _ => throw (Err "treasury fee deposit overflow")
      | inl nextBalance =>
          modify (Set_ T (set_Balance nextBalance treasury));;
          income ← gets FeeEpochTreasuryIncome;
          match safeAdd income toTreasury with
          | inr _ => throw (Err "fee epoch treasury income overflow")
          | inl newIncome =>
              modify (set_FeeEpochTreasuryIncome newIncome);;
              mret (mkFeeSplit totalFees burnAmount toTreasury 0)
          end
      end.

(* ------------------------------------------------------------------ *)
(** * The fee epoch *)

Definition FeeEpochBlocks : Z := 216000.

(** [RecordFeeEpochVote] *)
Definition RecordFeeEpochVote (op : Address) (power : Z) (committed : bool) (s : State) : State :=
  if power =? 0 then s
  else
    let s := set_FeeEpochTotalPower (u64 (s.(FeeEpochTotalPower) + power)) s in
    if committed && negb (empty_str op) then
      set_FeeEpochSignedPower
        (<[op := u64 (default 0 (s.(FeeEpochSignedPower) !! op) + power)]> s.(FeeEpochSignedPower)) s
    else s.

Record ValidatorPayout : Type := mkPayout {
  po_Operator : Address;
  po_Amount : Z;
  po_Epoch : Z
}.

(** [big.Int] product and quotient, truncated by [Uint64]. *)
Definition mul_div (a b c : Z) : Z := u64 (a * b / c).

Definition epoch_ops (s : State) : list Address :=
  sort_slice str_lt (map fst (map_to_list s.(FeeEpochSignedPower))).

(** Every operator's share of the pool, in operator order. *)
Definition epoch_shares (s : State) : list (Address * Z) :=
  map (λ op, (op, mul_div (s.(FeeEpochTreasuryIncome) / 2)
                    (default 0 (s.(FeeEpochSignedPower) !! op)) s.(FeeEpochTotalPower))) (epoch_ops s).

(** The shares cut to what the treasury holds. *)
Definition scaled_shares (bal : Z) (shares : list (Address * Z)) : list (Address * Z) :=
  let sum := u64 (lsum snd shares) in
  if bal <? sum then map (λ x, (x.1, mul_div x.2 bal sum)) shares else shares.

Definition reset_epoch (s : State) : State :=
  set_FeeEpochSignedPower ∅ (set_FeeEpochTotalPower 0 (set_FeeEpochTreasuryIncome 0 s)).

(** One payment out of the treasury. *)
Definition pay_from_treasury (op : Address) (amt : Z) (s : State) : State :=
  let T := s.(TreasuryAddress) in
  let treasury := Get s T in
  let s1 := Set_ T (set_Balance (treasury.(Balance) - amt) treasury) s in
  let opAcc := Get s1 op in
  Set_ op (set_Balance (u64 (opAcc.(Balance) + amt)) opAcc) s1.

(** What an operator is due, never more than the treasury still holds. *)
Definition due (s : State) (amt : Z) : Z :=
  let bal := (Get s s.(TreasuryAddress)).(Balance) in if bal <? amt then bal else amt.

Fixpoint pay_all (epoch : Z) (shares : list (Address * Z)) (s : State) : State * list ValidatorPayout :=
  match shares with
  | [] => (s, [])
  | (op, amt) :: shares =>
      if amt =? 0 then pay_all epoch shares s
      else
        let amt := due s amt in
        let '(s', l) := pay_all epoch shares (pay_from_treasury op amt s) in
        (s', mkPayout op amt epoch :: l)
  end.

(** [DistributeFeeEpochPayout] *)
Definition DistributeFeeEpochPayout (epoch : Z) (s : State) : State * list ValidatorPayout :=
  let pool := s.(FeeEpochTreasuryIncome) / 2 in
  if (s.(FeeEpochTotalPower) =? 0) || (pool =? 0) || bool_decide (size s.(FeeEpochSignedPower) = 0%nat)
  then (reset_epoch s, [])
  else
    let shares := scaled_shares (Get s s.(TreasuryAddress)).(Balance) (epoch_shares s) in
    let '(s', payouts) := pay_all epoch shares s in
    (reset_epoch s', payouts).

(* ------------------------------------------------------------------ *)
(** * Reports from the consensus engine, genesis bonds *)

(** [ValidatorByConsensusKey] *)
Definition ValidatorByConsensusKey (s : State) (key : string) : ValidatorRecord * bool :=
  match normalizeConsensusPubKey key with
  | inr _ => (ValidatorRecord_zero, false)
  | inl norm =>
      let op := validatorOperatorForKey s norm in
      if empty_str op then (ValidatorRecord_zero, false) else GetValidator s op
  end.

(** [SlashForDoubleSign] *)
Definition SlashForDoubleSign (consensusKey : string) (bps : Z) (s : State) : State * (Z * bool) :=
  let '(rec, ok) := ValidatorByConsensusKey s consensusKey in
  if negb ok || rec.(Tombstoned) then (s, (0, false))
  else
    let '(updated, slashed) := slashAndTombstone rec bps in
    (put_validator rec.(Operator) updated s, (slashed, true)).

(** [ReplaceValidatorSetSnapshot] *)
Definition ReplaceValidatorSetSnapshot (set : list ActiveValidator) (s : State) : State :=
  setValidatorSetSnapshot set s.

Definition ErrGenesisValidator : error := Err "invalid genesis validator".

(** [BondGenesisValidator] *)
Definition BondGenesisValidator (operator : Address) (consensusKey : string) (selfBond : Z)
    (moniker endpoint : string) : SM State unit :=
  key ← lift (normalizeConsensusPubKey consensusKey);
  fail_if (selfBond =? 0) ErrGenesisValidator;;
  lift (validateValidatorProfile moniker endpoint);;
  s ← get;
  fail_if (negb (empty_str (validatorOperatorForKey s key))) ErrValidatorKeyInUse;;
  fail_if (GetValidator s operator).2 ErrGenesisValidator;;
  let acc := Get s operator in
  fail_if (acc.(Balance) <? selfBond) ErrInsufficientFunds;;
  modify (Set_ operator (set_Balance (acc.(Balance) - selfBond) acc));;
  modify (put_validator operator (mkValidator operator key moniker endpoint selfBond 0 [] false)).

(* ------------------------------------------------------------------ *)
(** * Facts *)

Lemma sum_fees_ok txs t total :
  sum_fees txs t = inl total → total = t + lsum Fee txs ∧ (t ≤ MaxUint64 → total ≤ MaxUint64).
Proof.
  revert t. induction txs as [|tx txs IH]; intros t; simpl; [intros [= <-]; split; [lia|done]|].
  destruct (safeAdd t (Fee tx)) as [t'|] eqn:Ht; [|done]. apply safeAdd_inl in Ht as [? ->].
  intros [-> Hle]%IH. split; [lia|]. intros _. by apply Hle.
Qed.

Lemma burn_part_range t : 0 ≤ t → 0 ≤ burn_part t ≤ t.
Proof.
  intros Ht. unfold burn_part, BURN_PERCENT. pose proof (u64_range (t * 50)) as [H0 _]. split; [apply Z.div_pos; lia|].
  apply Z.div_le_upper_bound; [lia|]. pose proof (Z.mod_le (t * 50) 18446744073709551616 ltac:(lia) ltac:(lia)).
  unfold u64 in *. lia.
Qed.

(** Half, rounded down, for any total below 2^64 / 50. *)
Lemma burn_part_half t : 0 ≤ t → t * 50 ≤ MaxUint64 → burn_part t = t / 2.
Proof.
  intros ??. unfold burn_part, BURN_PERCENT. rewrite u64_small by (split; lia).
  change 100 with (2 * 50). by rewrite Z.div_mul_cancel_r.
Qed.

(** What the block fees give back never exceeds what was charged. *)
Definition fee_frame (s s' : State) : Prop :=
  s'.(CitizenStakes) = s.(CitizenStakes) ∧ s'.(Validators) = s.(Validators) ∧
  s'.(DEXPools) = s.(DEXPools) ∧ s'.(ValidatorSetSnapshot) = s.(ValidatorSetSnapshot) ∧
  s'.(GovernanceProposals) = s.(GovernanceProposals) ∧
  ∀ a, (acct s' a).(AccNonce) = (acct s a).(AccNonce).

Lemma fee_frame_refl s : fee_frame s s.
Proof. by repeat split. Qed.

Lemma credit_account s a n :
  ledger_ok s → 0 ≤ n → supply s + n ≤ MaxUint64 →
  let s' := Set_ a (set_Balance ((acct s a).(Balance) + n) (Get s a)) s in
  ledger_ok s' ∧ supply s' = supply s + n ∧ fee_frame s s'.
Proof.
  intros Hok Hn Hmax s'. pose proof (acct_balance_range s Hok a).
  assert (supply s' = supply s + n) as Hs by (unfold s', Set_; rewrite supply_put; simpl; lia).
  split_and!; [|done|].
  - apply ledger_ok_put; [done|simpl; lia|]. change (supply s' ≤ MaxUint64). lia.
  - split_and!; try done. intros b. unfold s', Set_. rewrite acct_put. by case_decide; subst.
Qed.

(** How a split relates the states before and after. *)
Definition split_post (txs : list Tx) (s : State) (split : FeeSplit) (s' : State) : Prop :=
  ledger_ok s' ∧ fee_frame s s' ∧
  split.(TotalFees) = lsum Fee txs ∧
  split.(BurnAmount) + split.(ToTreasury) + split.(ToProposer) = lsum Fee txs ∧
  0 ≤ split.(BurnAmount) ∧ 0 ≤ split.(ToTreasury) ∧ 0 ≤ split.(ToProposer) ∧
  supply s' = supply s + split.(ToTreasury) + split.(ToProposer).

(** The fees were taken out of the supply before; at most that much comes
    back, and the split adds up. *)
Lemma ApplyBlockFees_spec txs proposer height s :
  ledger_ok s → (∀ tx, tx ∈ txs → 0 ≤ tx.(Fee)) → supply s + lsum Fee txs ≤ MaxUint64 →
  wp (ApplyBlockFees txs proposer height) (split_post txs s) (λ _ _, True) s.
Proof.
  intros Hok Hfees Hmax. pose proof (lsum_nonneg Fee txs Hfees) as Hnn.
  assert (∀ t, sum_fees txs 0 = inl t → t = lsum Fee txs) as Hsum by (intros t [-> _]%sum_fees_ok; lia).
  pose proof (burn_part_range (lsum Fee txs) Hnn) as Hb. unfold ApplyBlockFees, creditProposerFees, empty_str.
  wp_go; try done; unfold split_post.
  all: repeat match goal with H : sum_fees _ _ = inl ?x |- _ => apply Hsum in H; subst x end.
  all: repeat match goal with H : safeAdd _ _ = inl ?x |- _ => apply safeAdd_inl in H as [? ->] end.
  all: rewrite ?Balance_Get; cbn [TotalFees BurnAmount ToTreasury ToProposer].
  all: try congruence.
  - split_and!; done || lia.
  - destruct (credit_account s proposer (lsum Fee txs - burn_part (lsum Fee txs))) as (? & ? & ?); [done|lia..|].
    split_and!; done || lia.
  - apply Z.eqb_eq in Heqb0. split_and!; done || lia.
  - destruct (credit_account s (TreasuryAddress s) (lsum Fee txs - burn_part (lsum Fee txs))) as (Hok' & Hs' & Hf); [done|lia..|].
    set (s1 := Set_ _ _ s) in *. split_and!; try done; try lia; [by apply (ledger_ok_same s1)|].
    change (supply s1 = supply s + (lsum Fee txs - burn_part (lsum Fee txs)) + 0). lia.
Qed.

(** ** Payouts *)

Lemma pay_from_treasury_ok op amt s :
  ledger_ok s → 0 ≤ amt ≤ (acct s s.(TreasuryAddress)).(Balance) →
  let s' := pay_from_treasury op amt s in
  ledger_ok s' ∧ supply s' = supply s ∧ fee_frame s s' ∧ s'.(TreasuryAddress) = s.(TreasuryAddress) ∧
  ∀ b, (acct s' b).(Balance) = (acct s b).(Balance) + (if decide (b = op) then amt else 0)
         - (if decide (b = s.(TreasuryAddress)) then amt else 0).
Proof.
  intros Hok Hamt s'. unfold pay_from_treasury in s'. set (T := TreasuryAddress s) in *.
  set (s1 := Set_ T _ s) in s'. pose proof (ok_supply s Hok).
  assert (supply s1 = supply s - amt) as Hs1 by (unfold s1, Set_; rewrite supply_put; simpl; lia).
  assert (ledger_ok s1) as Hok1 by (apply ledger_ok_put; [done|simpl; lia|unfold s1, Set_ in *; lia]).
  pose proof (acct_balance_range s1 Hok1 op). pose proof (citizen_locked_nonneg s1 Hok1).
  pose proof (validator_locked_nonneg s1 Hok1).
  assert (s' = Set_ op (set_Balance (Balance (acct s1 op) + amt) (Get s1 op)) s1) as Hs'.
  { unfold s'. rewrite Balance_Get, u64_small; [done|]. unfold supply in *. split; lia. }
  destruct (credit_account s1 op amt) as (Hok2 & Hs2 & Hf2); [done|lia..|]. rewrite <- Hs' in Hok2, Hs2, Hf2.
  split_and!; [done|lia| |by rewrite Hs'|].
  - destruct Hf2 as (Hc & Hv & Hd & Hn & Hg & Hno). unfold fee_frame. rewrite Hc, Hv, Hd, Hn, Hg. split_and!; try done. intros b. rewrite Hno.
    unfold s1, Set_. rewrite acct_put. by case_decide; subst.
  - intros b. rewrite Hs'. unfold Set_. rewrite acct_put. unfold s1, Set_. rewrite !acct_put.
    repeat case_decide; subst; simpl; try lia; congruence.
Qed.

Lemma due_range s amt :
  ledger_ok s → 0 ≤ amt → 0 ≤ due s amt ≤ (acct s s.(TreasuryAddress)).(Balance) ∧ due s amt ≤ amt.
Proof.
  intros Hok Ha. unfold due. rewrite Balance_Get. pose proof (acct_balance_range s Hok (TreasuryAddress s)).
  destruct (Z.ltb_spec (Balance (acct s (TreasuryAddress s))) amt); lia.
Qed.

Lemma fee_frame_trans s1 s2 s3 : fee_frame s1 s2 → fee_frame s2 s3 → fee_frame s1 s3.
Proof.
  unfold fee_frame. intros (H1 & H2 & H3 & H4 & H5 & H6) (-> & -> & -> & -> & -> & H7). split_and!; try done. intros b. by rewrite H7, H6.
Qed.

(** Payouts move coin, never make it; the treasury pays for all of them. *)
Lemma pay_all_ok epoch shares s :
  ledger_ok s → Forall (λ x, 0 ≤ x.2) shares →
  let '(s', payouts) := pay_all epoch shares s in
  ledger_ok s' ∧ supply s' = supply s ∧ fee_frame s s' ∧ s'.(TreasuryAddress) = s.(TreasuryAddress) ∧
  lsum po_Amount payouts ≤ lsum snd shares ∧ Forall (λ p, 0 ≤ p.(po_Amount)) payouts ∧
  ∀ b, (acct s' b).(Balance) = (acct s b).(Balance)
         + lsum (λ p, if decide (b = p.(po_Operator)) then p.(po_Amount) else 0) payouts
         - (if decide (b = s.(TreasuryAddress)) then lsum po_Amount payouts else 0).
Proof.
  intros Hok Hsh. revert s Hok. induction Hsh as [|[op amt] shares Hamt Hsh IH]; intros s Hok; simpl.
  { split_and!; try done. intros b. case_decide; lia. }
  simpl in Hamt. assert (0 ≤ lsum snd shares).
  { apply lsum_nonneg. by apply Forall_forall. }
  destruct (Z.eqb_spec amt 0) as [->|Hne].
  { specialize (IH s Hok). destruct (pay_all epoch shares s) as [s' l]. simpl.
    destruct IH as (? & ? & ? & ? & ? & ? & ?). split_and!; done || lia. }
  destruct (due_range s amt Hok Hamt) as [Hd Hda].
  destruct (pay_from_treasury_ok op (due s amt) s Hok Hd) as (Hok1 & Hs1 & Hf1 & HT1 & Hb1).
  specialize (IH _ Hok1). destruct (pay_all epoch shares _) as [s' l].
  destruct IH as (? & ? & Hf2 & HT2 & ? & ? & Hb2). rewrite ?lsum_cons. simpl.
  split_and!; [done|lia|by eapply fee_frame_trans|congruence|lia|constructor; [simpl; lia|done]|].
  intros b. rewrite Hb2, Hb1, HT1. repeat case_decide; lia.
Qed.


(** The epoch's counters: signed power is part of the total. *)
Record epoch_ok (s : State) : Prop := {
  ep_income : 0 ≤ s.(FeeEpochTreasuryIncome);
  ep_signed : map_Forall (λ _ p, 0 ≤ p) s.(FeeEpochSignedPower);
  ep_total : msum id s.(FeeEpochSignedPower) ≤ s.(FeeEpochTotalPower) ≤ MaxUint64
}.

Lemma epoch_ok_reset s : epoch_ok (reset_epoch s).
Proof. split; simpl; [lia|apply map_Forall_empty|]. rewrite msum_empty. unfold MaxUint64. lia. Qed.

(** Recording a vote keeps them so, as long as the total does not wrap. *)
Lemma RecordFeeEpochVote_ok op power committed s :
  epoch_ok s → 0 ≤ power → s.(FeeEpochTotalPower) + power ≤ MaxUint64 →
  epoch_ok (RecordFeeEpochVote op power committed s) ∧
  (RecordFeeEpochVote op power committed s).(FeeEpochTotalPower) = s.(FeeEpochTotalPower) + power.
Proof.
  intros [Hi Hs Ht] Hp Hm. unfold RecordFeeEpochVote.
  pose proof (msum_nonneg id (FeeEpochSignedPower s) Hs) as Hnn.
  destruct (Z.eqb_spec power 0) as [->|Hp0]; [split; [by split|lia]|].
  rewrite (u64_small (FeeEpochTotalPower s + power)) by (split; lia). case_match; simpl.
  - split; [|done]. assert (default 0 (FeeEpochSignedPower s !! op) = at_or0 id (FeeEpochSignedPower s) op) as Hd
      by (unfold at_or0; by destruct (FeeEpochSignedPower s !! op)).
    pose proof (at_or0_le id (FeeEpochSignedPower s) op Hs).
    assert (0 ≤ at_or0 id (FeeEpochSignedPower s) op).
    { unfold at_or0. destruct (FeeEpochSignedPower s !! op) eqn:Ho; simpl; [by apply (Hs op)|done]. }
    rewrite Hd, u64_small by (split; lia).
    split; simpl; [done|apply map_Forall_insert_2; [lia|done]|]. rewrite msum_insert.
    change (id (at_or0 id (FeeEpochSignedPower s) op + power)) with (at_or0 id (FeeEpochSignedPower s) op + power). lia.
  - split; [split; simpl; [done..|lia]|done].
Qed.

Lemma mul_div_bound a b c : 0 ≤ a → 0 ≤ b → 0 < c → 0 ≤ mul_div a b c ≤ a * b / c.
Proof.
  intros. unfold mul_div. split; [apply u64_range|]. unfold u64. apply Z.mod_le; [|lia].
  apply Z.div_pos; nia.
Qed.

(** Floors of fractions of [a] with weights summing to at most [c] sum to at
    most [a]. *)
Lemma lsum_shares {A} (w : A → Z) (l : list A) a c :
  0 ≤ a → 0 < c → (∀ x, x ∈ l → 0 ≤ w x) →
  lsum (λ x, mul_div a (w x) c) l * c ≤ a * lsum w l.
Proof.
  intros Ha Hc. induction l as [|x l IH]; intros Hw; simpl; [lia|].
  pose proof (mul_div_bound a (w x) c Ha (Hw x ltac:(left)) Hc) as [_ Hx].
  pose proof (Z.mul_div_le (a * w x) c Hc). specialize (IH ltac:(intros; apply Hw; by right)). nia.
Qed.

Lemma lsum_map {A B} (f : B → Z) (g : A → B) (l : list A) : lsum f (map g l) = lsum (λ x, f (g x)) l.
Proof. induction l as [|x l IH]; [done|]. simpl. by rewrite IH. Qed.

Lemma lsum_epoch_ops s :
  lsum (λ op, default 0 (s.(FeeEpochSignedPower) !! op)) (epoch_ops s) = msum id s.(FeeEpochSignedPower).
Proof.
  unfold epoch_ops. rewrite sort_slice_perm, lsum_map, msum_map_to_list.
  assert (∀ l : list (Address * Z), (∀ x, x ∈ l → s.(FeeEpochSignedPower) !! x.1 = Some x.2) →
    lsum (λ x, default 0 (FeeEpochSignedPower s !! x.1)) l = lsum (id ∘ snd) l) as Hl.
  { induction l as [|x l IH]; intros Hx; [done|]. simpl. rewrite (Hx x) by left. rewrite IH; [done|].
    intros y Hy. apply Hx. by right. }
  apply Hl. intros [k v] Hkv. by apply elem_of_map_to_list in Hkv.
Qed.

Lemma epoch_shares_bound s :
  epoch_ok s → 0 < s.(FeeEpochTotalPower) →
  Forall (λ x, 0 ≤ x.2) (epoch_shares s) ∧ lsum snd (epoch_shares s) ≤ s.(FeeEpochTreasuryIncome) / 2.
Proof.
  intros [Hi Hs Ht] Hpos. set (pool := FeeEpochTreasuryIncome s / 2).
  assert (0 ≤ pool) by (apply Z.div_pos; lia). split.
  - unfold epoch_shares. apply Forall_map, Forall_true. intros op. apply u64_range.
  - unfold epoch_shares. rewrite lsum_map. simpl. fold pool.
    pose proof (lsum_shares (λ op, default 0 (FeeEpochSignedPower s !! op)) (epoch_ops s) pool (FeeEpochTotalPower s)
      ltac:(done) Hpos) as Hl. rewrite lsum_epoch_ops in Hl.
    assert (lsum (λ op, mul_div pool (default 0 (FeeEpochSignedPower s !! op)) (FeeEpochTotalPower s)) (epoch_ops s)
      * FeeEpochTotalPower s ≤ pool * FeeEpochTotalPower s); [|nia].
    etransitivity; [apply Hl|nia]. intros op _. destruct (FeeEpochSignedPower s !! op) eqn:Ho; simpl; [by apply (Hs op)|done].
Qed.

Lemma scaled_shares_bound bal shares :
  0 ≤ bal → Forall (λ x, 0 ≤ x.2) shares →
  Forall (λ x, 0 ≤ x.2) (scaled_shares bal shares) ∧ lsum snd (scaled_shares bal shares) ≤ lsum snd shares.
Proof.
  intros Hb Hsh. unfold scaled_shares. assert (0 ≤ lsum snd shares) as Hnn by (apply lsum_nonneg; by apply Forall_forall).
  destruct (Z.ltb_spec bal (u64 (lsum snd shares))) as [Hlt|]; [|done]. split.
  - apply Forall_map, Forall_true. intros x. apply u64_range.
  - rewrite lsum_map. simpl. apply lsum_le. intros x Hx.
    assert (0 ≤ x.2) as Hx0 by (by apply (proj1 (Forall_forall _ _) Hsh)).
    pose proof (mul_div_bound x.2 bal (u64 (lsum snd shares)) Hx0 Hb ltac:(lia)) as [_ Hm].
    etransitivity; [exact Hm|]. apply Z.div_le_upper_bound; nia.
Qed.

(** An epoch payout moves at most half the epoch's treasury income out of the
    treasury, to validators that signed, creates nothing, and starts a new
    epoch. *)
Lemma DistributeFeeEpochPayout_spec epoch s :
  ledger_ok s → epoch_ok s →
  let '(s', payouts) := DistributeFeeEpochPayout epoch s in
  ledger_ok s' ∧ supply s' = supply s ∧ fee_frame s s' ∧ epoch_ok s' ∧
  s'.(FeeEpochTreasuryIncome) = 0 ∧ s'.(FeeEpochTotalPower) = 0 ∧ s'.(FeeEpochSignedPower) = ∅ ∧
  lsum po_Amount payouts ≤ s.(FeeEpochTreasuryIncome) / 2 ∧ Forall (λ p, 0 ≤ p.(po_Amount)) payouts ∧
  ∀ b, (acct s' b).(Balance) = (acct s b).(Balance)
         + lsum (λ p, if decide (b = p.(po_Operator)) then p.(po_Amount) else 0) payouts
         - (if decide (b = s.(TreasuryAddress)) then lsum po_Amount payouts else 0).
Proof.
  intros Hok Hep. pose proof (ep_income s Hep). pose proof (Z.div_pos (FeeEpochTreasuryIncome s) 2 ltac:(done) ltac:(lia)).
  pose proof (ep_total s Hep) as [Ht _]. pose proof (msum_nonneg id _ (ep_signed s Hep)).
  unfold DistributeFeeEpochPayout.
  destruct ((FeeEpochTotalPower s =? 0) || _ || _) eqn:Hc.
  { split_and!; try done; try apply epoch_ok_reset; [by apply (ledger_ok_same s)|]. intros b.
    change (acct (reset_epoch s) b) with (acct s b). simpl. clear Hc. case_decide; lia. }
  rewrite !orb_false_iff, !Z.eqb_neq in Hc. destruct Hc as [[Hc _] _].
  destruct (epoch_shares_bound s Hep ltac:(lia)) as [Hnn Hle].
  destruct (scaled_shares_bound (Balance (Get s (TreasuryAddress s))) _ (proj1 (acct_balance_range s Hok _)) Hnn) as [Hnn' Hle'].
  pose proof (pay_all_ok epoch _ s Hok Hnn') as Hp. destruct (pay_all _ _ s) as [s' payouts].
  destruct Hp as (? & ? & ? & ? & ? & ? & ?).
  split_and!; try done; try apply epoch_ok_reset; [by apply (ledger_ok_same s')|lia].
Qed.

(** ** Penalties reported by the engine *)

Lemma ValidatorByConsensusKey_found s key rec :
  ValidatorByConsensusKey s key = (rec, true) →
  ∃ norm op, normalizeConsensusPubKey key = inl norm ∧ s.(Validators) !! op = Some rec ∧ rec.(ConsensusPubKey) = norm.
Proof.
  unfold ValidatorByConsensusKey, GetValidator. destruct (normalizeConsensusPubKey key) as [norm|] eqn:Hn; [|done].
  destruct (empty_str (validatorOperatorForKey s norm)) eqn:He; [done|].
  apply bool_decide_eq_false, validatorOperatorForKey_found in He as (r & Hr & Hk). rewrite Hr.
  intros [= <-]. eauto.
Qed.

Lemma ValidatorByConsensusKey_registered full p s key norm op rec :
  registry_rel full p s → normalizeConsensusPubKey key = inl norm →
  s.(Validators) !! op = Some rec → rec.(ConsensusPubKey) = norm → ValidatorByConsensusKey s key = (rec, true).
Proof.
  intros Hreg Hn Hr Hk. unfold ValidatorByConsensusKey, GetValidator. rewrite Hn.
  rewrite (validatorOperatorForKey_unique full p s norm op rec Hreg Hr Hk), Hr.
  destruct (empty_str op) eqn:He; [|done]. apply bool_decide_eq_true in He.
  by apply (reg_records _ p s Hreg) in Hr as [].
Qed.

(** Nor does a penalty undo a conviction. *)
Lemma SlashForDoubleSign_convicted op k key bps s : convicted op k s → convicted op k (SlashForDoubleSign key bps s).1.
Proof.
  intros Hc. unfold SlashForDoubleSign. destruct (ValidatorByConsensusKey s key) as [r [|]] eqn:Hv; simpl; [|done].
  apply ValidatorByConsensusKey_found in Hv as (norm & a & _ & Hr & _). destruct (Tombstoned r); [done|].
  pose proof (convicted_slash op k a r bps s Hc Hr) as Hp. destruct (slashAndTombstone r bps) as [r' n]. cbn in *.
  by destruct (cv_records _ _ _ Hc a r Hr) as (-> & _).
Qed.

(** What the registry looks like after a penalty: the offender's stake is cut
    and it is tombstoned. *)
Lemma SlashForDoubleSign_spec full p key bps s s' slashed :
  ledger_ok s → registry_rel full p s → 0 ≤ bps ≤ 10000 →
  SlashForDoubleSign key bps s = (s', (slashed, true)) →
  ledger_ok s' ∧ supply s' = supply s - slashed ∧ 0 ≤ slashed ∧
  ∃ op r, s.(Validators) !! op = Some r ∧ r.(Tombstoned) = false ∧
    s'.(Validators) = <[op := (slashAndTombstone r bps).1]> s.(Validators) ∧
    inl r.(ConsensusPubKey) = normalizeConsensusPubKey key.
Proof.
  intros Hok Hreg Hb. unfold SlashForDoubleSign.
  destruct (ValidatorByConsensusKey s key) as [r [|]] eqn:Hv; simpl; [|done].
  apply ValidatorByConsensusKey_found in Hv as (norm & op & Hn & Hr & Hk).
  destruct (Tombstoned r) eqn:Ht; [done|].
  pose proof (ok_validators s Hok _ _ Hr) as [Hnn Hu]. pose proof (validator_stake_le s op r Hok Hr).
  pose proof (ok_supply s Hok). pose proof (spendable_nonneg s Hok). pose proof (citizen_locked_nonneg s Hok).
  pose proof (slashAndTombstone_spec r bps Hb Hnn Hu ltac:(lia)) as Hsl.
  destruct (slashAndTombstone r bps) as [r' sl] eqn:Hs. destruct Hsl as (Hz & Hst & Hnn' & Hu' & _ & _).
  rewrite (rec_operator _ _ _ (reg_records _ p s Hreg _ _ Hr)). intros [= <- <-].
  assert (supply (put_validator op r' s) = supply s - sl) as Hsup by (rewrite supply_put_validator, Hr; simpl; lia).
  split_and!; [|done|lia|].
  - constructor; [apply Hok..| |lia]. intros b rb. simpl.
    intros [[_ <-]|[_ ?]]%lookup_insert_Some; [done|by eapply (ok_validators s Hok)].
  - exists op, r. rewrite Hs. split_and!; try done. by rewrite Hk.
Qed.

Lemma slashAndTombstone_key r bps :
  (slashAndTombstone r bps).1.(ConsensusPubKey) = r.(ConsensusPubKey) ∧
  (slashAndTombstone r bps).1.(Tombstoned) = true ∧ (slashAndTombstone r bps).1.(Operator) = r.(Operator).
Proof. unfold slashAndTombstone. by destruct (slash_unbonding _ _ _). Qed.

(** A tombstoned key is never charged again. *)
Lemma SlashForDoubleSign_once full p key bps bps' s s' slashed :
  ledger_ok s → registry_rel full p s → 0 ≤ bps ≤ 10000 →
  SlashForDoubleSign key bps s = (s', (slashed, true)) →
  SlashForDoubleSign key bps' s' = (s', (0, false)).
Proof.
  intros Hok Hreg Hb Hrun. destruct (SlashForDoubleSign_spec full p _ _ _ _ _ Hok Hreg Hb Hrun)
    as (_ & _ & _ & op & r & Hr & Ht & Hv & Hn).
  destruct (slashAndTombstone_key r bps) as (Hk & Htb & Ho).
  unfold SlashForDoubleSign. destruct (ValidatorByConsensusKey s' key) as [r2 [|]] eqn:Hv2; simpl; [|done].
  apply ValidatorByConsensusKey_found in Hv2 as (norm & op2 & Hn2 & Hr2 & Hk2).
  rewrite Hv in Hr2. apply lookup_insert_Some in Hr2 as [[<- <-]|[Hne Hr2]]; [by rewrite Htb|].
  exfalso. apply Hne. eapply (reg_keys _ p s Hreg); [done..|]. congruence.
Qed.

(** Bonding a genesis validator only moves coin into the registry. *)
Lemma BondGenesisValidator_spec p op key bond mo en s :
  ledger_ok s → registry_ok p s → op ≠ "" → 0 ≤ bond → p.(MinSelfBond) ≤ bond →
  wp (BondGenesisValidator op key bond mo en)
    (λ _ s', ledger_ok s' ∧ registry_ok p s' ∧ supply s' = supply s ∧
       bond ≤ (acct s op).(Balance) ∧ (acct s' op).(Balance) = (acct s op).(Balance) - bond)
    (λ _ s', s' = s) s.
Proof.
  intros Hok Hreg Hop Hb Hmin. unfold BondGenesisValidator. wp_go; try done.
  apply Z.eqb_neq in H0. apply negb_false_iff, bool_decide_eq_true in H2. apply Z.ltb_ge in H4. rewrite Balance_Get in *.
  destruct a0. apply profile_lengths in H1 as [? ?]. apply normalize_canonical in H as (b & Hkey & Hlen & _).
  assert (s.(Validators) !! op = None) as Hnone by (unfold GetValidator in H3; by destruct (Validators s !! op)).
  set (r := mkValidator _ _ _ _ _ _ _ _). set (s1 := Set_ op _ s).
  assert (put_validator op r s1 = settle_validator op r s1) as Heq
    by (unfold settle_validator; by rewrite (proj2 (Z.eqb_neq _ _) (H0 : SelfBond r ≠ 0))).
  assert (supply (put_validator op r s1) = supply s) as Hs.
  { rewrite supply_put_validator. change (Validators s1) with (Validators s). rewrite Hnone. simpl.
    unfold s1, Set_. rewrite supply_put. simpl. unfold validator_stake. simpl. lia. }
  pose proof (ok_supply s Hok). split_and!; [| |done|done|].
  - apply (ledger_ok_validator_acct (put_validator op r s) s); try done; [|simpl; lia|].
    + intros c rc. simpl. intros [[_ <-]|[_ ?]]%lookup_insert_Some; [|by eapply (ok_validators s Hok)]. done.
    + change (supply (put_validator op r s1) ≤ MaxUint64). lia.
  - rewrite Heq. apply registry_settle; [by apply (registry_ok_same true p s)|done| | |done].
    + intros _. split; simpl; try done; [by exists b|lia|by left|by right; right].
    + intros c rc Hne Hrc Hk. apply (reg_records _ p s Hreg) in Hrc as Hrec.
      destruct (validatorOperatorForKey_none s a c rc H2 Hrc (rec_named _ _ _ Hrec) Hk) as [r' Hr'].
      by apply (reg_records _ p s Hreg) in Hr' as [].
  - change (acct (put_validator op r s1) op) with (acct s1 op). unfold s1, Set_. by rewrite acct_put_eq.
Qed.
