(* ===== verification/Block.v ===== *)
(** Blocks (internal/chain/block.go) and the genesis description
    (internal/chain/genesis.go). *)
From stdpp Require Import base strings list gmap.
From S2P Require Import Prelude GoStd Sha256 Json Types Ledger TxModel Merkle.

#[local] Open Scope string_scope.
#[local] Open Scope Z_scope.

(* ------------------------------------------------------------------ *)
(** * time.Time *)

(** An instant, in nanoseconds since the zero time (year 1, January 1, UTC),
    and the zone it is shown in, in seconds east of UTC. *)
Record Time : Type := mkTime { instant : Z; zone : Z }.

#[global] Instance Time_eq_dec : EqDecision Time. Proof. solve_decision. Defined.

Definition zero_time : Time := mkTime 0 0.
Definition second : Z := 1000000000.

(** [time.Unix(sec, 0).UTC()]: 1970 began 719162 days after the zero time. *)
Definition Unix (sec : Z) : Time := mkTime ((719162 * 86400 + sec) * second) 0.

Definition IsZero (t : Time) : bool := t.(instant) =? 0.
Definition Before (t u : Time) : bool := t.(instant) <? u.(instant).
Definition After (t u : Time) : bool := u.(instant) <? t.(instant).
Definition Add (t : Time) (d : Z) : Time := mkTime (t.(instant) + d) t.(zone).

(** [Truncate(time.Second)] *)
Definition TruncateSecond (t : Time) : Time := mkTime (t.(instant) / second * second) t.(zone).

(** Year, month and day of a day counted from the zero time (the proleptic
    Gregorian calendar; days are counted from March 1 inside an era of 400
    years). *)
Definition civil (days : Z) : Z * Z * Z :=
  let z := days + 306 in
  let era := z / 146097 in
  let doe := z mod 146097 in
  let yoe := (doe - doe / 1460 + doe / 36524 - doe / 146096) / 365 in
  let doy := doe - (365 * yoe + yoe / 4 - yoe / 100) in
  let mp := (5 * doy + 2) / 153 in
  let d := doy - (153 * mp + 2) / 5 + 1 in
  let m := if mp <? 10 then mp + 3 else mp - 9 in
  (yoe + era * 400 + (if m <=? 2 then 1 else 0), m, d).

(** [n] digits with leading zeros. *)
Fixpoint pad (n : nat) (z : Z) : string :=
  match n with
  | O => ""
  | S n => pad n (z / 10) +:+ String (chr (48 + z mod 10)) ""
  end.

Fixpoint trim_zeros (s : string) : string :=
  match s with
  | EmptyString => ""
  | String c s => let t := trim_zeros s in if empty_str t && (code c =? 48) then "" else String c t
  end.

(** [Time.MarshalJSON]: RFC 3339 with the fraction only when there is one; a
    year or zone that does not fit is an error. *)
Definition time_text (t : Time) : res string :=
  let local := t.(instant) + t.(zone) * second in
  let secs := local / second in
  let nanos := local mod second in
  let days := secs / 86400 in
  let tod := secs mod 86400 in
  let '(y, m, d) := civil days in
  let zabs := Z.abs t.(zone) in
  if (y <? 0) || (9999 <? y) then inr (Err "year outside of range [0,9999]")
  else if 86400 <=? zabs then inr (Err "timezone hour outside of range [0,23]")
  else
    inl (pad 4 y +:+ "-" +:+ pad 2 m +:+ "-" +:+ pad 2 d +:+ "T"
      +:+ pad 2 (tod / 3600) +:+ ":" +:+ pad 2 (tod / 60 mod 60) +:+ ":" +:+ pad 2 (tod mod 60)
      +:+ (if nanos =? 0 then "" else "." +:+ trim_zeros (pad 9 nanos))
      +:+ (if t.(zone) / 60 =? 0 then "Z"
           else (if t.(zone) <? 0 then "-" else "+") +:+ pad 2 (zabs / 3600) +:+ ":" +:+ pad 2 (zabs / 60 mod 60))).

Example time_zero : time_text zero_time = inl "0001-01-01T00:00:00Z".
Proof. reflexivity. Qed.

Example time_unix : time_text (Unix 0) = inl "1970-01-01T00:00:00Z".
Proof. reflexivity. Qed.

Example time_leap : time_text (Add (Unix 1709210096) 120000000) = inl "2024-02-29T12:34:56.12Z".
Proof. vm_compute. reflexivity. Qed.

(* ------------------------------------------------------------------ *)
(** * Blocks *)

Record BlockHeader : Type := mkHeader {
  Height : Z;
  ParentHash : string;
  h_Timestamp : Time;
  ProposerID : string;
  h_TxMerkleRoot : string;
  StateRoot : string;
  ProposerPoCRoot : string
}.

(** [Tx] is [None] for a nil slice. *)
Record Block : Type := mkBlock {
  Header : BlockHeader;
  b_Tx : option (list Tx);
  Hash : string;
  ValidatorVotes : gmap string Z;
  Finalized : bool;
  ProposerSignature : string;
  QuorumSignatures : gmap string string
}.

Definition txs_of (b : Block) : list Tx := default [] b.(b_Tx).

Definition set_Hash (h : string) (b : Block) : Block :=
  mkBlock b.(Header) b.(b_Tx) h b.(ValidatorVotes) b.(Finalized) b.(ProposerSignature) b.(QuorumSignatures).
Definition set_Finalized (f : bool) (b : Block) : Block :=
  mkBlock b.(Header) b.(b_Tx) b.(Hash) b.(ValidatorVotes) f b.(ProposerSignature) b.(QuorumSignatures).
Definition set_b_Tx (l : option (list Tx)) (b : Block) : Block :=
  mkBlock b.(Header) l b.(Hash) b.(ValidatorVotes) b.(Finalized) b.(ProposerSignature) b.(QuorumSignatures).

(** [QuorumApprovalMessage] *)
Definition QuorumApprovalMessage (b : Block) : string := "APPROVE|" +:+ b.(Hash).

Definition header_json (h : BlockHeader) (time : string) : json :=
  JObj (field "height" (JNum h.(Height)) ++ field "parent_hash" (JStr h.(ParentHash))
    ++ field "timestamp" (JStr time) ++ field "proposer_id" (JStr h.(ProposerID))
    ++ field "tx_merkle_root" (JStr h.(h_TxMerkleRoot)) ++ field "state_root" (JStr h.(StateRoot))
    ++ field_str_oe "proposer_poc_root" h.(ProposerPoCRoot)).

(** [CalculateHash]: a nil transaction list above genesis is hashed like an
    empty one. *)
Definition CalculateHash (b : Block) : res string :=
  match time_text b.(Header).(h_Timestamp) with
  | inr e => inr e
  | inl time =>
      let tx :=
        match b.(b_Tx) with
        | Some l => JArr (map tx_json l)
        | None => if 0 <? b.(Header).(Height) then JArr [] else JNull
        end in
      inl (hex0x (sha256 (marshal (JObj (field "header" (header_json b.(Header) time) ++ field "tx" tx)))))
  end.

(** [ComputeHash] *)
Definition ComputeHash (b : Block) : Block * res string :=
  match CalculateHash b with
  | inl h => (set_Hash h b, inl h)
  | inr e => (b, inr e)
  end.

Section with_ed25519.
Context `{E : Ed25519}.

(** One entry of [QuorumSignatures] that counts: its signer has a key of the
    right length and the signature verifies. *)
Definition approval_valid (keys : gmap string string) (msg : string) (kv : string * string) : bool :=
  match keys !! kv.1 with
  | None => false
  | Some key =>
      if slen key =? 32 then
        match decode_fixed kv.2 64 with
        | Some sg => ed_Verify key msg sg
        | None => false
        end
      else false
  end.

(** [verifiedApprovalCount] *)
Definition verifiedApprovalCount (b : Block) (keys : gmap string string) : Z :=
  if bool_decide (size keys = 0%nat) then 0
  else Z.of_nat (length (filter (λ kv, approval_valid keys (QuorumApprovalMessage b) kv = true)
                           (map_to_list b.(QuorumSignatures)))).

End with_ed25519.

(* ------------------------------------------------------------------ *)
(** * Genesis *)

(** A value of [map[string]any] after JSON decoding. A number is a float64,
    kept as its integer value when it has one. *)
Inductive any : Type :=
  | AStr (s : string)
  | AFloat (integral : option Z)
  | AArr (l : list any)
  | AObj (m : list (string * any))
  | AOther.

Record Genesis : Type := mkGenesis {
  g_ChainID : string;
  g_TxChainID : Z;
  Alloc : gmap Address Z;
  g_Metadata : gmap string any
}.

Definition ErrBadGenesis : error := Err "bad genesis".

Module Genesis.

(** [Genesis.Validate] *)
Definition Validate (g : Genesis) : res unit :=
  if empty_str g.(g_ChainID) || bool_decide (size g.(Alloc) = 0%nat) then inr ErrBadGenesis
  else if bool_decide (is_Some (g.(Alloc) !! "")) then inr ErrBadGenesis
  else inl tt.

(** [TransactionChainID], [ValidateTransactionChainID] *)
Definition TransactionChainID (g : Genesis) : Z :=
  if g.(g_TxChainID) =? 0 then 1 else g.(g_TxChainID).

Definition ValidateTransactionChainID (g : Genesis) (id : Z) : res unit :=
  if id =? TransactionChainID g then inl tt else inr (Err "wrong transaction chain ID").

(** [v, _ := x.(string)] *)
Definition as_string (x : option any) : string :=
  match x with Some (AStr s) => s | _ => "" end.

Fixpoint obj_get (m : list (string * any)) (k : string) : option any :=
  match m with
  | [] => None
  | (k', v) :: m => if bool_decide (k' = k) then Some v else obj_get m k
  end.

(** [parseMetadataUint64] *)
Definition parseMetadataUint64 (raw : any) : res Z :=
  match raw with
  | AFloat (Some z) => if (0 <=? z) && (z <=? MaxUint64) then inl z else inr (Err "not a uint64")
  | AFloat None => inr (Err "not a uint64")
  | AStr s => match ParseUint s with (z, None) => inl z | (_, Some e) => inr e end
  | _ => inr (Err "unsupported type")
  end.

Fixpoint bridge_validators (items : list any) (out : gmap string string) : res (gmap string string) :=
  match items with
  | [] => inl out
  | AObj obj :: items =>
      let id0 := as_string (obj_get obj "id") in
      let id := if empty_str id0 then as_string (obj_get obj "validator_id") else id0 in
      let pub := as_string (obj_get obj "public_key") in
      if empty_str id || empty_str pub then inr (Err "bridge validator requires id and public_key")
      else bridge_validators items (<[id := pub]> out)
  | _ :: _ => inr (Err "bridge validator must be an object")
  end.

(** [parseBridgeValidators] *)
Definition parseBridgeValidators (raw : any) : res (gmap string string) :=
  match raw with
  | AArr items => bridge_validators items ∅
  | _ => inr (Err "bridge_validators must be an array")
  end.

Definition alloc_accounts (m : gmap Address Z) : gmap Address Account :=
  (λ bal, mkAccount bal (Some ∅) 0) <$> m.

(** One optional entry of the metadata. *)
Definition with_entry (g : Genesis) (key : string) (f : any → res State) (s : State) : res State :=
  match g.(g_Metadata) !! key with None => inl s | Some x => f x end.

(** [ToState] *)
Definition ToState (g : Genesis) : res State :=
  match Validate g with
  | inr e => inr e
  | inl _ =>
      let s := set_Accounts (alloc_accounts g.(Alloc)) NewState in
      match with_entry g "bridge_validators" (λ x,
          match parseBridgeValidators x with inl m => inl (set_BridgeValidators m s) | inr e => inr e end) s with
      | inr e => inr e
      | inl s =>
      match with_entry g "bridge_quorum" (λ x,
          match parseMetadataUint64 x with inl q => inl (set_BridgeQuorum q s) | inr _ => inr (Err "invalid bridge_quorum") end) s with
      | inr e => inr e
      | inl s =>
      match with_entry g "treasury_address" (λ x,
          let addr := as_string (Some x) in
          if empty_str addr then inr (Err "treasury_address must be a non-empty string")
          else inl (set_TreasuryAddress addr s)) s with
      | inr e => inr e
      | inl s =>
      match with_entry g "citizen_reward_rate_bps_per_year" (λ x,
          match parseMetadataUint64 x with
          | inl q => inl (set_CitizenRewardRateBpsPerYear q s)
          | inr _ => inr (Err "invalid citizen_reward_rate_bps_per_year") end) s with
      | inr e => inr e
      | inl s =>
          with_entry g "founder_address" (λ x,
            let addr := as_string (Some x) in
            if empty_str addr then inr (Err "founder_address must be a non-empty string")
            else inl (set_GovernanceFounder addr s)) s
      end end end end
  end.

(** [PinnedGenesisStateRoot], [PinnedGenesisHash] *)
Definition pinned (g : Genesis) (key : string) : option string :=
  let v := as_string (g.(g_Metadata) !! key) in if empty_str v then None else Some v.
Definition PinnedGenesisStateRoot (g : Genesis) : option string := pinned g "pinned_genesis_state_root".
Definition PinnedGenesisHash (g : Genesis) : option string := pinned g "pinned_genesis_hash".

(** Every coin of the genesis state comes from the allocation. *)
Lemma ToState_supply g s : ToState g = inl s → supply s = msum id g.(Alloc).
Proof.
  unfold ToState. destruct (Validate g); [|done]. unfold with_entry.
  set (s0 := set_Accounts _ NewState).
  assert (supply s0 = msum id g.(Alloc)) as Hs.
  { unfold supply, spendable, citizen_locked, validator_locked, s0, alloc_accounts. simpl.
    rewrite msum_fmap, !msum_empty, !Z.add_0_r. by apply msum_ext. }
  repeat (case_match; try done); intros; simplify_eq; exact Hs.
Qed.

Lemma ToState_proposals g s : ToState g = inl s → s.(GovernanceProposals) = ∅.
Proof.
  unfold ToState. destruct (Validate g); [|done]. unfold with_entry.
  repeat (case_match; try done); intros; simplify_eq; done.
Qed.

(** It is well formed when the allocation is non-negative and fits a
    [uint64]; nothing in the code checks the latter. *)
Lemma ToState_ok g s :
  ToState g = inl s → map_Forall (λ _ b, 0 ≤ b) g.(Alloc) → msum id g.(Alloc) ≤ MaxUint64 →
  ledger_ok s ∧ s.(DEXPools) = ∅ ∧ s.(Validators) = ∅ ∧ s.(ValidatorSetSnapshot) = [].
Proof.
  intros Hg Hpos Hmax. pose proof (ToState_supply g s Hg) as Hsup.
  assert (s.(Accounts) = alloc_accounts g.(Alloc) ∧ s.(CitizenStakes) = ∅ ∧ s.(Validators) = ∅ ∧
    s.(DEXPools) = ∅ ∧ s.(ValidatorSetSnapshot) = []) as (Ha & Hc & Hv & Hd & Hsn).
  { revert Hg. unfold ToState. destruct (Validate g); [|done]. unfold with_entry.
    repeat (case_match; try done); intros; simplify_eq; done. }
  split_and!; try done. split; [| | |lia].
  - intros a acc. rewrite Ha. unfold alloc_accounts. rewrite lookup_fmap_Some. intros (b & <- & Hb). by apply (Hpos a).
  - intros a st. by rewrite Hc, lookup_empty.
  - intros a r. by rewrite Hv, lookup_empty.
Qed.

End Genesis.
