(* ===== verification/Messages.v ===== *)
(** The consensus messages (internal/consensus/messages.go), the producer
    rotation (rotation.go), the checks a validator makes before it votes
    (proposal_processor.go) and message freshness (engine.go). *)
From stdpp Require Import base strings list gmap.
From S2P Require Import Prelude GoStd Types Block.

#[local] Open Scope string_scope.
#[local] Open Scope Z_scope.

(* ------------------------------------------------------------------ *)
(** * Votes *)

Abbreviation VoteStage := string.
Definition VoteStagePrevote : VoteStage := "prevote".
Definition VoteStagePrecommit : VoteStage := "precommit".

Record BlockProposal : Type := mkProposalMsg {
  bp_Block : Block;
  bp_Height : Z;
  bp_Round : Z;
  bp_ValidRound : Z;
  bp_POLRound : Z
}.

(** A vote: 1 accepts, -1 rejects, 0 abstains. *)
Record BlockVote : Type := mkVote {
  v_BlockHash : string;
  v_Height : Z;
  v_Round : Z;
  v_Stage : VoteStage;
  v_VoterID : string;
  v_Vote : Z;
  v_Signature : string
}.

Definition set_Stage (st : VoteStage) (v : BlockVote) : BlockVote :=
  mkVote v.(v_BlockHash) v.(v_Height) v.(v_Round) st v.(v_VoterID) v.(v_Vote) v.(v_Signature).

Definition IsPrevote (v : BlockVote) : bool := bool_decide (v.(v_Stage) = VoteStagePrevote).
Definition IsPrecommit (v : BlockVote) : bool :=
  empty_str v.(v_Stage) || bool_decide (v.(v_Stage) = VoteStagePrecommit).

(* ------------------------------------------------------------------ *)
(** * Rotation *)

(** [ExpectedProposer]: [height + uint64(round)] wraps. *)
Definition ExpectedProposer (validators : list string) (height round : Z) : string :=
  let n := Z.of_nat (length validators) in
  if n =? 0 then "" else
  let round := if round <? 0 then 0 else round in
  default "" (validators !! Z.to_nat (u64 (height + round) mod n)).

(** [CurrentRound] *)
Definition CurrentRound (elapsed roundInterval : Z) : Z :=
  if (roundInterval <=? 0) || (elapsed <=? 0) then 0 else elapsed / roundInterval.

(** [ShouldPropose]: (mine, target height, expected proposer, round). *)
Definition ShouldPropose (selfID : string) (validators : list string) (currentHeight elapsed roundInterval : Z)
  : bool * Z * string * Z :=
  let target := u64 (currentHeight + 1) in
  let round := CurrentRound elapsed roundInterval in
  let expected := ExpectedProposer validators target round in
  (negb (empty_str expected) && bool_decide (expected = selfID), target, expected, round).

(** Who proposes over [k] consecutive slots from [h] on. *)
Definition schedule (validators : list string) (h round : Z) (k : nat) : list string :=
  (λ i, ExpectedProposer validators (h + Z.of_nat i) round) <$> seq 0 k.

Section rotation.
Context (vs : list string).
Let n := Z.of_nat (length vs).

Lemma ExpectedProposer_slot h round :
  vs ≠ [] → 0 ≤ h → 0 ≤ round → h + round ≤ MaxUint64 →
  vs !! Z.to_nat ((h + round) mod n) = Some (ExpectedProposer vs h round).
Proof.
  intros Hne Hh Hr Hm. unfold ExpectedProposer.
  assert (0 < n) as Hn by (unfold n; destruct vs; [done|simpl; lia]). fold n.
  destruct (Z.eqb_spec n 0); [lia|]. destruct (Z.ltb_spec round 0); [lia|].
  rewrite u64_small by (split; lia).
  destruct (lookup_lt_is_Some_2 vs (Z.to_nat ((h + round) mod n))) as [v Hv].
  { pose proof (Z.mod_pos_bound (h + round) n Hn). unfold n in *. lia. }
  by rewrite Hv.
Qed.

(** Over as many consecutive heights as there are validators everyone has
    exactly one turn. *)
Lemma schedule_rotates h round :
  0 ≤ h → 0 ≤ round → h + n + round ≤ MaxUint64 → schedule vs h round (length vs) ≡ₚ vs.
Proof.
  intros Hh Hr Hm. destruct (decide (vs = [])) as [->|Hne]; [done|].
  assert (0 < n) as Hn by (unfold n; destruct vs; [done|simpl; lia]).
  set (k := Z.to_nat ((h + round) mod n)).
  assert (k < length vs)%nat as Hk.
  { pose proof (Z.mod_pos_bound (h + round) n Hn). unfold k, n in *. lia. }
  assert (schedule vs h round (length vs) = (drop k vs ++ take k vs)%list) as ->;
    [|by rewrite Permutation_app_comm, take_drop].
  apply list_eq. intros i. unfold schedule. rewrite list_lookup_fmap.
  destruct (decide (i < length vs)%nat) as [Hi|Hi].
  - rewrite lookup_seq_lt by lia. simpl.
    rewrite <- (ExpectedProposer_slot (h + Z.of_nat i) round) by (done || lia || (unfold n in *; lia)).
    replace (h + Z.of_nat i + round) with (Z.of_nat i + (h + round)) by lia.
    rewrite <- Zplus_mod_idemp_r. replace ((h + round) mod n) with (Z.of_nat k)
      by (unfold k; pose proof (Z.mod_pos_bound (h + round) n Hn); lia).
    destruct (decide (i < length vs - k)%nat) as [Hl|Hl].
    + rewrite lookup_app_l, lookup_drop by (rewrite length_drop; lia). f_equal.
      rewrite Z.mod_small by (unfold n; lia). lia.
    + rewrite lookup_app_r by (rewrite length_drop; lia). rewrite length_drop, lookup_take_lt by lia. f_equal.
      replace ((Z.of_nat i + Z.of_nat k) mod n) with (Z.of_nat i + Z.of_nat k - n); [unfold n; lia|].
      symmetry. rewrite <- (Z.mod_small (Z.of_nat i + Z.of_nat k - n) n) by (unfold n; lia).
      rewrite <- (Z_mod_plus_full (Z.of_nat i + Z.of_nat k - n) 1 n). f_equal. lia.
  - rewrite lookup_seq_ge by lia. simpl. symmetry. apply lookup_ge_None. rewrite length_app, length_drop, length_take. lia.
Qed.

(** A round passes the turn on exactly as a height does. *)
Lemma ExpectedProposer_shift h round d :
  0 ≤ round → 0 ≤ d → ExpectedProposer vs h (round + d) = ExpectedProposer vs (h + d) round.
Proof.
  intros Hr Hd. unfold ExpectedProposer. destruct (_ =? 0); [done|].
  destruct (Z.ltb_spec (round + d) 0); [lia|]. destruct (Z.ltb_spec round 0); [lia|].
  replace (h + (round + d)) with (h + d + round) by lia. done.
Qed.

End rotation.

(* ------------------------------------------------------------------ *)
(** * Checks before voting *)

Record ProposalProcessor : Type := mkProcessor { MaxFutureDrift : Z }.

Definition NewProposalProcessor (drift : Z) : ProposalProcessor :=
  mkProcessor (if drift <=? 0 then 15 * second else drift).

(** [ProcessProposal] *)
Definition ProcessProposal (p : ProposalProcessor) (b : option Block)
    (currentHeight : Z) (currentTipHash : string) (now : Time) : res unit :=
  match b with
  | None => inr (Err "nil proposal block")
  | Some b =>
      if empty_str b.(Hash) then inr (Err "empty proposal block hash")
      else if negb (b.(Header).(Height) =? u64 (currentHeight + 1)) then inr (Err "proposal height mismatch")
      else if (0 <? currentHeight) && negb (empty_str currentTipHash)
              && negb (bool_decide (b.(Header).(ParentHash) = currentTipHash))
           then inr (Err "parent hash continuity broken")
      else if empty_str b.(Header).(ProposerID) then inr (Err "proposal missing proposer ID")
      else if negb (IsZero b.(Header).(h_Timestamp))
              && After b.(Header).(h_Timestamp) (Add now p.(MaxFutureDrift))
           then inr (Err "proposal timestamp exceeds maximum allowable future drift")
      else inl tt
  end.

(** [FreshEnough] *)
Definition FreshEnough (ts now : Time) (skew : Z) : bool :=
  let skew := if skew <=? 0 then 300 * second else skew in
  negb (After ts (Add now skew) || Before ts (Add now (- skew))).
