(* ===== verification/Slashing.v ===== *)
(** The slashing tracker of the consensus engine
    (internal/consensus/slashing.go): portable equivocation evidence, and the
    record of double signing, equivocation, downtime and invalid blocks with
    the penalties it hands out.

    [time.Now()] is an argument. The callback [executeSlash] belongs to
    whoever wires the tracker; an operation returns the calls it makes to it. *)
From stdpp Require Import base strings list gmap.
From S2P Require Import Prelude GoStd Types TxModel Block Messages.

#[local] Open Scope string_scope.
#[local] Open Scope Z_scope.

(* ------------------------------------------------------------------ *)
(** * Evidence *)

Record EquivocationEvidence : Type := mkEvidence {
  ev_ValidatorID : string;
  ev_Height : Z;
  ev_Round : Z;
  VoteA : BlockVote;
  VoteB : BlockVote;
  DiscoveredAt : Time
}.

(** [decodeSig] *)
Definition decodeSig (raw : string) : option string := hexDecode (TrimPrefix raw "0x").

(** One signature of [Verify]. *)
Definition check_vote_sig `{Ed25519} (pubKey : string) (v : BlockVote) : res unit :=
  match decodeSig v.(v_Signature) with
  | None => inr (Err "invalid vote signature")
  | Some sig =>
      if ed_Verify pubKey ("APPROVE|" +:+ v.(v_BlockHash)) sig then inl tt
      else inr (Err "cryptographic verification failed for vote")
  end.

Module EquivocationEvidence.

(** [EquivocationEvidence.Verify] *)
Definition Verify `{Ed25519} (ev : EquivocationEvidence) (pubKey : string) : res unit :=
  let a := ev.(VoteA) in
  let b := ev.(VoteB) in
  if empty_str ev.(ev_ValidatorID) then inr (Err "empty validator id in evidence")
  else if negb (bool_decide (a.(v_VoterID) = ev.(ev_ValidatorID)))
          || negb (bool_decide (b.(v_VoterID) = ev.(ev_ValidatorID))) then inr (Err "voter id mismatch in evidence")
  else if negb (a.(v_Height) =? ev.(ev_Height)) || negb (b.(v_Height) =? ev.(ev_Height))
       then inr (Err "vote height mismatch in evidence")
  else if negb (a.(v_Round) =? ev.(ev_Round)) || negb (b.(v_Round) =? ev.(ev_Round))
       then inr (Err "vote round mismatch in evidence")
  else if bool_decide (a.(v_BlockHash) = b.(v_BlockHash)) && (a.(v_Vote) =? b.(v_Vote))
          && bool_decide (a.(v_Stage) = b.(v_Stage)) then inr (Err "votes do not conflict; identical payload")
  else if negb (slen pubKey =? 32) then inr (Err "invalid public key size")
  else match check_vote_sig pubKey a with inr e => inr e | inl _ => check_vote_sig pubKey b end.

End EquivocationEvidence.

(* ------------------------------------------------------------------ *)
(** * The tracker *)

Inductive SlashingType : Type := DoubleSigning | InvalidBlock | Downtime | Equivocation.

#[global] Instance SlashingType_eq_dec : EqDecision SlashingType.
Proof. solve_decision. Defined.

Record SlashingEvent : Type := mkEvent {
  e_ValidatorID : string;
  EventType : SlashingType;
  e_BlockHeight : Z;
  e_Timestamp : Time;
  e_Evidence : string
}.

Record SlashingParams : Type := mkSlashingParams {
  DoubleSignPenalty : Z;
  InvalidBlockPenalty : Z;
  DowntimePenalty : Z;
  SlashingWindow : Z;
  JailDuration : Z
}.

(** [executeSlash] is whether a callback is wired. *)
Record SlashingTracker : Type := mkTracker {
  st_params : SlashingParams;
  events : list SlashingEvent;
  validatorStakes : gmap string Z;
  jailedUntil : gmap string Time;
  signedBlocks : gmap string (list Z);
  missedBlocks : gmap string Z;
  votedHashes : gmap string (gmap Z string);
  executeSlash : bool
}.

Definition set_events x st := mkTracker st.(st_params) x st.(validatorStakes) st.(jailedUntil) st.(signedBlocks) st.(missedBlocks) st.(votedHashes) st.(executeSlash).
Definition set_validatorStakes x st := mkTracker st.(st_params) st.(events) x st.(jailedUntil) st.(signedBlocks) st.(missedBlocks) st.(votedHashes) st.(executeSlash).
Definition set_jailedUntil x st := mkTracker st.(st_params) st.(events) st.(validatorStakes) x st.(signedBlocks) st.(missedBlocks) st.(votedHashes) st.(executeSlash).
Definition set_signedBlocks x st := mkTracker st.(st_params) st.(events) st.(validatorStakes) st.(jailedUntil) x st.(missedBlocks) st.(votedHashes) st.(executeSlash).
Definition set_missedBlocks x st := mkTracker st.(st_params) st.(events) st.(validatorStakes) st.(jailedUntil) st.(signedBlocks) x st.(votedHashes) st.(executeSlash).
Definition set_votedHashes x st := mkTracker st.(st_params) st.(events) st.(validatorStakes) st.(jailedUntil) st.(signedBlocks) st.(missedBlocks) x st.(executeSlash).
Definition set_executeSlash x st := mkTracker st.(st_params) st.(events) st.(validatorStakes) st.(jailedUntil) st.(signedBlocks) st.(missedBlocks) st.(votedHashes) x.

(** [NewSlashingTracker] *)
Definition NewSlashingTracker (p : SlashingParams) : SlashingTracker :=
  mkTracker
    (mkSlashingParams p.(DoubleSignPenalty) p.(InvalidBlockPenalty) p.(DowntimePenalty)
       (if p.(SlashingWindow) =? 0 then 100 else p.(SlashingWindow))
       (if p.(JailDuration) =? 0 then 86400 * second else p.(JailDuration)))
    [] ∅ ∅ ∅ ∅ ∅ false.

Definition SetExecuteSlash (wired : bool) : SlashingTracker → SlashingTracker := set_executeSlash wired.

Definition SetValidatorStake (id : string) (stake : Z) (st : SlashingTracker) : SlashingTracker :=
  set_validatorStakes (<[id := stake]> st.(validatorStakes)) st.

(** The penalty for an offence. *)
Definition penalty_of (p : SlashingParams) (ty : SlashingType) : Z :=
  match ty with
  | DoubleSigning => p.(DoubleSignPenalty)
  | InvalidBlock => p.(InvalidBlockPenalty)
  | Downtime => p.(DowntimePenalty)
  | Equivocation => p.(DoubleSignPenalty)
  end.

Definition ErrSlashed : error := Err "validator slashed".

(** What a tracker operation returns: the tracker, the calls to
    [executeSlash], and the error if there is one. *)
Abbreviation Outcome := (SlashingTracker * list (string * Z) * option error)%type.

(** [recordSlashingLocked]. It always returns an error, the description of
    the slash. *)
Definition recordSlashing (now : Time) (id : string) (ty : SlashingType) (height : Z) (evidence : string)
    (st : SlashingTracker) : Outcome :=
  let st := set_events (st.(events) ++ [mkEvent id ty height now evidence]) st in
  let penalty := penalty_of st.(st_params) ty in
  let st := match st.(validatorStakes) !! id with
            | Some stake =>
                set_validatorStakes (<[id := if penalty <? stake then stake - penalty else 0]> st.(validatorStakes)) st
            | None => st
            end in
  let st := set_jailedUntil (<[id := Add now st.(st_params).(JailDuration)]> st.(jailedUntil)) st in
  (st, if st.(executeSlash) && (0 <? penalty) && negb (bool_decide (ty = Downtime)) then [(id, penalty)] else [],
   Some ErrSlashed).

(** [DetectDoubleSigning] *)
Definition DetectDoubleSigning (now : Time) (id : string) (height : Z) (st : SlashingTracker) : Outcome :=
  let heights := default [] (st.(signedBlocks) !! id) in
  if bool_decide (height ∈ heights)
  then recordSlashing now id DoubleSigning height ("validator signed multiple blocks at height " +:+ fmt_d height) st
  else (set_signedBlocks (<[id := (heights ++ [height])%list]> st.(signedBlocks)) st, [], None).

(** [RecordMissedBlock] *)
Definition RecordMissedBlock (now : Time) (id : string) (st : SlashingTracker) : Outcome :=
  let missed := u64 (default 0 (st.(missedBlocks) !! id) + 1) in
  let st := set_missedBlocks (<[id := missed]> st.(missedBlocks)) st in
  if 10 <? missed
  then recordSlashing now id Downtime 0 ("validator missed " +:+ fmt_d missed +:+ " blocks") st
  else (st, [], None).

(** [RecordInvalidBlock] *)
Definition RecordInvalidBlock (now : Time) (id : string) (height : Z) (evidence : string) : SlashingTracker → Outcome :=
  recordSlashing now id InvalidBlock height evidence.

(** [RecordEquivocation] *)
Definition RecordEquivocation (now : Time) (id : string) (height : Z) (blockHash : string) (st : SlashingTracker) : Outcome :=
  let byHeight := default ∅ (st.(votedHashes) !! id) in
  match byHeight !! height with
  | None => (set_votedHashes (<[id := <[height := blockHash]> byHeight]> st.(votedHashes)) st, [], None)
  | Some prior =>
      if bool_decide (prior = blockHash) then (st, [], None)
      else recordSlashing now id Equivocation height
             ("validator voted for both " +:+ prior +:+ " and " +:+ blockHash +:+ " at height " +:+ fmt_d height) st
  end.

(** [RecordCryptographicEvidence] *)
Definition RecordCryptographicEvidence `{Ed25519} (now : Time) (ev : EquivocationEvidence) (pubKey : string)
    (st : SlashingTracker) : Outcome :=
  match EquivocationEvidence.Verify ev pubKey with
  | inr _ => (st, [], Some (Err "invalid equivocation evidence"))
  | inl _ =>
      let '(st, calls, _) := recordSlashing now ev.(ev_ValidatorID) Equivocation ev.(ev_Height)
        ("cryptographic equivocation: signed " +:+ ev.(VoteA).(v_BlockHash) +:+ " and " +:+ ev.(VoteB).(v_BlockHash)
         +:+ " at height " +:+ fmt_d ev.(ev_Height) +:+ " round " +:+ fmt_d ev.(ev_Round)) st in
      (st, calls, None)
  end.

(** [ForgetVotesAtHeight] *)
Definition ForgetVotesAtHeight (height : Z) (st : SlashingTracker) : SlashingTracker :=
  set_votedHashes (delete height <$> st.(votedHashes)) st.

(** [CleanupOldSignatures] *)
Definition CleanupOldSignatures (currentHeight : Z) (st : SlashingTracker) : SlashingTracker :=
  let cutoff := i64 (i64 currentHeight - i64 st.(st_params).(SlashingWindow)) in
  if cutoff <=? 0 then st else
  set_missedBlocks ∅
    (set_signedBlocks
       (omap (λ hs, let kept := filter (λ h, cutoff < i64 h) hs in
                    if bool_decide (kept = []) then None else Some kept) st.(signedBlocks)) st).

(** Reports: [SlashCount], [TotalSlashEvents], [HistoryFor], [IsJailed],
    [GetValidatorStake], [GetSlashingHistory]. *)
Definition HistoryFor (id : string) (st : SlashingTracker) : list SlashingEvent :=
  filter (λ e, e.(e_ValidatorID) = id) st.(events).
Definition SlashCount (id : string) (st : SlashingTracker) : Z := Z.of_nat (length (HistoryFor id st)).
Definition TotalSlashEvents (st : SlashingTracker) : Z := Z.of_nat (length st.(events)).
Definition IsJailed (now : Time) (id : string) (st : SlashingTracker) : bool :=
  match st.(jailedUntil) !! id with None => false | Some t => Before now t end.
Definition GetValidatorStake (id : string) (st : SlashingTracker) : Z := default 0 (st.(validatorStakes) !! id).
Definition GetSlashingHistory (st : SlashingTracker) : list SlashingEvent := st.(events).

(* ------------------------------------------------------------------ *)
(** * What is charged, and what evidence proves

    What the slashing tracker charges for: conflicting approvals and nothing
    else, each by the configured penalty; and what its portable evidence
    proves. *)

#[local] Open Scope list_scope.
#[local] Open Scope Z_scope.

(* ------------------------------------------------------------------ *)
(** * One slash *)

Lemma recordSlashing_events now id ty h ev st :
  events (recordSlashing now id ty h ev st).1.1 = events st ++ [mkEvent id ty h now ev].
Proof. unfold recordSlashing. simpl. by destruct (validatorStakes st !! id). Qed.

Lemma recordSlashing_kept now id ty h ev st :
  let st' := (recordSlashing now id ty h ev st).1.1 in
  votedHashes st' = votedHashes st ∧ st_params st' = st_params st ∧ executeSlash st' = executeSlash st.
Proof. unfold recordSlashing. simpl. by destruct (validatorStakes st !! id). Qed.

Lemma recordSlashing_stake now id ty h ev st a :
  0 ≤ penalty_of st.(st_params) ty → 0 ≤ GetValidatorStake a st →
  GetValidatorStake a (recordSlashing now id ty h ev st).1.1 =
    if decide (a = id) then Z.max 0 (GetValidatorStake a st - penalty_of st.(st_params) ty) else GetValidatorStake a st.
Proof.
  intros Hp Ha. unfold recordSlashing, GetValidatorStake in *. simpl.
  destruct (validatorStakes st !! id) as [s|] eqn:Hs; simpl; case_decide as Hd; subst; rewrite ?Hs in *; simpl in *.
  - rewrite lookup_insert_eq. simpl. destruct (Z.ltb_spec (penalty_of (st_params st) ty) s); lia.
  - by rewrite lookup_insert_ne by done.
  - lia.
  - done.
Qed.

Lemma recordSlashing_calls now id ty h ev st :
  (recordSlashing now id ty h ev st).1.2 =
  if st.(executeSlash) && (0 <? penalty_of st.(st_params) ty) && negb (bool_decide (ty = Downtime))
  then [(id, penalty_of st.(st_params) ty)] else [].
Proof. unfold recordSlashing. simpl. by destruct (validatorStakes st !! id). Qed.

(* ------------------------------------------------------------------ *)
(** * Equivocation *)

(** An approval as the engine reports it: who, at which height, for what. *)
Abbreviation approval := (string * Z * string)%type.

(** Reporting a sequence of approvals, with the calls to [executeSlash]. *)
Fixpoint report_all (l : list (Time * approval)) (st : SlashingTracker) : SlashingTracker * list (string * Z) :=
  match l with
  | [] => (st, [])
  | (now, (id, h, hash)) :: l =>
      let '(st, c1, _) := RecordEquivocation now id h hash st in
      let '(st, c2) := report_all l st in (st, c1 ++ c2)
  end.

Definition voted (st : SlashingTracker) (id : string) (h : Z) : option string :=
  default ∅ (st.(votedHashes) !! id) !! h.

(** Approvals of two blocks at one height. *)
Definition equivocates (l : list approval) (id : string) : Prop :=
  ∃ h a b, a ≠ b ∧ (id, h, a) ∈ l ∧ (id, h, b) ∈ l.

Definition slashed (st : SlashingTracker) (id : string) : Prop := ∃ e, e ∈ st.(events) ∧ e.(e_ValidatorID) = id.

(** The tracker [st] after exactly the approvals [l]. *)
Record tracks (l : list approval) (st : SlashingTracker) : Prop := {
  tr_memory : ∀ id h a, voted st id h = Some a → (id, h, a) ∈ l;
  tr_seen : ∀ id h b, (id, h, b) ∈ l → ∃ a, voted st id h = Some a ∧ (a = b ∨ slashed st id);
  tr_guilty : ∀ id, slashed st id → equivocates l id
}.

Lemma equivocates_mono l l' id : l ⊆ l' → equivocates l id → equivocates l' id.
Proof. intros Hs (h & a & b & Hne & Ha & Hb). exists h, a, b. split_and!; [done|by apply Hs..]. Qed.

Lemma tracks_step now id h hash l st :
  tracks l st → tracks (l ++ [(id, h, hash)]) (RecordEquivocation now id h hash st).1.1.
Proof.
  intros [Hm Hs Hg]. assert (l ⊆ l ++ [(id, h, hash)]) as Hl by set_solver. unfold RecordEquivocation.
  change (default ∅ (votedHashes st !! id) !! h) with (voted st id h).
  destruct (voted st id h) as [prior|] eqn:Hv; [case_bool_decide as Hp|].
  - subst prior. simpl. split.
    + intros i k a Ha. set_solver.
    + intros i k b [Hb|Hb]%elem_of_app; [by apply Hs|]. apply list_elem_of_singleton in Hb as [= -> -> ->]. eauto.
    + intros i Hi. eapply equivocates_mono; [done|by apply Hg].
  - set (st' := (recordSlashing _ _ _ _ _ st).1.1).
    assert (∀ i k, voted st' i k = voted st i k) as Hvo.
    { intros i k. unfold voted, st'. by rewrite (proj1 (recordSlashing_kept _ _ _ _ _ _)). }
    assert (∀ i, slashed st i → slashed st' i) as Hsl.
    { intros i (e & He & Hi). exists e. split; [|done]. unfold st'. rewrite recordSlashing_events. set_solver. }
    assert (slashed st' id) as Hid.
    { eexists. split; [|]; [unfold st'; rewrite recordSlashing_events; apply elem_of_app; right; by apply list_elem_of_singleton|done]. }
    split.
    + intros i k a. rewrite Hvo. intros Ha. set_solver.
    + intros i k b [Hb|Hb]%elem_of_app; rewrite Hvo.
      * destruct (Hs i k b Hb) as (a & Ha & [?|?]); exists a; auto.
      * apply list_elem_of_singleton in Hb as [= -> -> ->]. exists prior. auto.
    + intros i (e & He & Hi). unfold st' in He. rewrite recordSlashing_events in He.
      apply elem_of_app in He as [He|He]; [eapply equivocates_mono; [exact Hl|]; apply Hg; by exists e|].
      apply list_elem_of_singleton in He as ->. simpl in Hi. subst i. exists h, prior, hash. split_and!; [done| |set_solver].
      apply Hl. by apply Hm.
  - set (st' := set_votedHashes _ st).
    assert (∀ i k, voted st' i k = if decide (i = id ∧ k = h) then Some hash else voted st i k) as Hvo.
    { intros i k. unfold voted, st'. simpl. destruct (decide (i = id)) as [->|Hi].
      - rewrite lookup_insert_eq. simpl. destruct (decide (k = h)) as [->|Hk].
        + by rewrite lookup_insert_eq, decide_True.
        + by rewrite lookup_insert_ne, decide_False by naive_solver.
      - by rewrite lookup_insert_ne, decide_False by naive_solver. }
    split.
    + intros i k a. rewrite Hvo. case_decide as Hd; [destruct Hd as [-> ->]; intros [= <-]; set_solver|].
      intros Ha. set_solver.
    + intros i k b [Hb|Hb]%elem_of_app; rewrite Hvo.
      * destruct (Hs i k b Hb) as (a & Ha & Hor). case_decide as Hd; [destruct Hd as [-> ->]; congruence|]. eauto.
      * apply list_elem_of_singleton in Hb as [= -> -> ->]. rewrite decide_True by done. eauto.
    + intros i Hi. eapply equivocates_mono; [exact Hl|by apply Hg].
Qed.

Lemma tracks_all l l0 st : tracks l0 st → tracks (l0 ++ l.*2) (report_all l st).1.
Proof.
  revert l0 st. induction l as [|[now [[id h] hash]] l IH]; intros l0 st Ht; simpl; [by rewrite app_nil_r|].
  pose proof (tracks_step now id h hash l0 st Ht) as Ht1.
  destruct (RecordEquivocation now id h hash st) as [[st1 c1] err]. simpl in Ht1.
  pose proof (IH _ _ Ht1) as Ht2. destruct (report_all l st1) as [st2 c2]. simpl in *. by rewrite <- app_assoc in Ht2.
Qed.

(** The tracker finds exactly the equivocators. *)
Lemma tracks_exact l st id : tracks l st → slashed st id ↔ equivocates l id.
Proof.
  intros [Hm Hs Hg]. split; [apply Hg|]. intros (h & a & b & Hne & Ha & Hb).
  destruct (Hs _ _ _ Ha) as (x & Hx & [->|?]); [|done]. destruct (Hs _ _ _ Hb) as (y & Hy & [->|?]); [|done]. congruence.
Qed.

Lemma tracks_fresh p : tracks [] (NewSlashingTracker p).
Proof.
  split; [|by intros id h b ?%elem_of_nil|by intros id (e & ?%elem_of_nil & _)].
  intros id h a. unfold voted. simpl. rewrite lookup_empty. simpl. by rewrite lookup_empty.
Qed.

(** Every slash costs the penalty, and is handed to the callback. *)
Lemma report_all_charges l st id :
  0 ≤ st.(st_params).(DoubleSignPenalty) → 0 ≤ GetValidatorStake id st →
  let p := st.(st_params).(DoubleSignPenalty) in
  let st' := (report_all l st).1 in
  let n := SlashCount id st' - SlashCount id st in
  0 ≤ n ∧ GetValidatorStake id st' = Z.max 0 (GetValidatorStake id st - n * p) ∧
  (st.(executeSlash) = true → 0 < p →
     lsum (λ c, if decide (c.1 = id) then c.2 else 0) (report_all l st).2 = n * p).
Proof.
  intros Hp. cbv zeta. revert st Hp. induction l as [|[now [[a h] hash]] l IH]; intros st Hp Hst; simpl; [split_and!; lia|].
  assert (∀ st1 c1 k, st1.(st_params) = st.(st_params) → st1.(executeSlash) = st.(executeSlash) →
    0 ≤ k → SlashCount id st1 = SlashCount id st + k →
    GetValidatorStake id st1 = Z.max 0 (GetValidatorStake id st - k * st.(st_params).(DoubleSignPenalty)) →
    (st.(executeSlash) = true → 0 < st.(st_params).(DoubleSignPenalty) →
       lsum (λ c, if decide (c.1 = id) then c.2 else 0) c1 = k * st.(st_params).(DoubleSignPenalty)) →
    let r := (let '(st2, c2) := report_all l st1 in (st2, c1 ++ c2)) in
    let n := SlashCount id r.1 - SlashCount id st in
    0 ≤ n ∧ GetValidatorStake id r.1 = Z.max 0 (GetValidatorStake id st - n * st.(st_params).(DoubleSignPenalty)) ∧
    (st.(executeSlash) = true → 0 < st.(st_params).(DoubleSignPenalty) →
       lsum (λ c, if decide (c.1 = id) then c.2 else 0) r.2 = n * st.(st_params).(DoubleSignPenalty))) as Hk.
  { intros st1 c1 k Hpa Hex Hk0 Hk Hs1 Hc. specialize (IH st1). rewrite Hpa, Hex in IH.
    destruct (IH Hp ltac:(lia)) as (Hn & Hs & Hcl). destruct (report_all l st1) as [st2 c2]. cbv zeta. cbn [fst snd] in *.
    split_and!; [lia|nia|]. intros H1 H2. rewrite lsum_app, Hc, Hcl by done. lia. }
  unfold RecordEquivocation. destruct (default ∅ (votedHashes st !! a) !! h) as [prior|] eqn:Hv; [case_bool_decide|].
  - apply (Hk st [] 0); [done..|lia|lia|done].
  - destruct (recordSlashing _ _ _ _ _ _) as [[st1 c1] err] eqn:Hr.
    match type of Hr with ?t = _ => assert (st1 = t.1.1 ∧ c1 = t.1.2) as [-> ->] by (by rewrite Hr) end.
    apply (Hk _ _ (if decide (id = a) then 1 else 0)).
    + apply recordSlashing_kept.
    + apply recordSlashing_kept.
    + case_decide; lia.
    + unfold SlashCount, HistoryFor. rewrite recordSlashing_events, filter_app, length_app, filter_cons, filter_nil. simpl.
      case_decide; [rewrite decide_True by done|rewrite decide_False by done]; simpl; lia.
    + rewrite recordSlashing_stake by done. simpl. case_decide; lia.
    + intros Hex Hpos. rewrite recordSlashing_calls, Hex. simpl. destruct (Z.ltb_spec 0 (DoubleSignPenalty (st_params st))); [|lia].
      simpl. case_decide; [rewrite decide_True by done|rewrite decide_False by done]; lia.
  - apply (Hk _ [] 0); [done..|unfold SlashCount, HistoryFor; simpl; lia|unfold GetValidatorStake in *; simpl; lia|done].
Qed.

(* ------------------------------------------------------------------ *)
(** * Portable evidence *)

Section evidence.
Context `{E : Ed25519}.

Definition signed_approval (pubKey : string) (v : BlockVote) : Prop :=
  ∃ sig, decodeSig v.(v_Signature) = Some sig ∧ ed_Verify pubKey ("APPROVE|" +:+ v.(v_BlockHash)) sig = true.

Lemma check_vote_sig_ok pubKey v : check_vote_sig pubKey v = inl tt ↔ signed_approval pubKey v.
Proof.
  unfold check_vote_sig, signed_approval. destruct (decodeSig _) as [sig|]; [|by split; [|intros (? & ? & ?)]].
  destruct (ed_Verify _ _ sig) eqn:Hv; split; [by intros _; exists sig|done|done|intros (? & [= <-] & ?); congruence].
Qed.

(** What an accepted piece of evidence has established. *)
Lemma evidence_Verify_ok ev pubKey :
  EquivocationEvidence.Verify ev pubKey = inl tt ↔
  ev.(ev_ValidatorID) ≠ "" ∧
  (∀ v, v = ev.(VoteA) ∨ v = ev.(VoteB) →
     v.(v_VoterID) = ev.(ev_ValidatorID) ∧ v.(v_Height) = ev.(ev_Height) ∧ v.(v_Round) = ev.(ev_Round) ∧ signed_approval pubKey v) ∧
  (v_BlockHash ev.(VoteA), v_Vote ev.(VoteA), v_Stage ev.(VoteA))
    ≠ (v_BlockHash ev.(VoteB), v_Vote ev.(VoteB), v_Stage ev.(VoteB)) ∧
  slen pubKey = 32.
Proof.
  unfold EquivocationEvidence.Verify, empty_str. cbv zeta.
  case_bool_decide; [naive_solver|].
  case_bool_decide; simpl; [|naive_solver]. case_bool_decide; simpl; [|naive_solver].
  destruct (Z.eqb_spec (v_Height (VoteA ev)) (ev_Height ev)); simpl; [|naive_solver].
  destruct (Z.eqb_spec (v_Height (VoteB ev)) (ev_Height ev)); simpl; [|naive_solver].
  destruct (Z.eqb_spec (v_Round (VoteA ev)) (ev_Round ev)); simpl; [|naive_solver].
  destruct (Z.eqb_spec (v_Round (VoteB ev)) (ev_Round ev)); simpl; [|naive_solver].
  destruct (bool_decide _ && _ && _) eqn:Hc.
  { rewrite !andb_true_iff, !bool_decide_eq_true, Z.eqb_eq in Hc. destruct Hc as [[Hb Hv] Hs].
    split; [done|]. intros (_ & _ & Hne & _). destruct Hne. by rewrite Hb, Hv, Hs. }
  assert ((v_BlockHash (VoteA ev), v_Vote (VoteA ev), v_Stage (VoteA ev))
    ≠ (v_BlockHash (VoteB ev), v_Vote (VoteB ev), v_Stage (VoteB ev))) as Hne.
  { intros [= Hb Hv Hs]. rewrite Hb, Hv, Hs, !bool_decide_eq_true_2, Z.eqb_refl in Hc by done. done. }
  destruct (Z.eqb_spec (slen pubKey) 32); simpl; [|by split; [|intros (_ & _ & _ & ?)]].
  pose proof (check_vote_sig_ok pubKey (VoteA ev)) as HA. pose proof (check_vote_sig_ok pubKey (VoteB ev)) as HB.
  destruct (check_vote_sig pubKey (VoteA ev)) as [[]|err].
  - rewrite HB. split; [intros Hb|intros (_ & Hv & _); by apply Hv; right].
    split_and!; [done| |done..]. intros v [->| ->]; split_and!; try done. by apply HA.
  - split; [done|]. intros (_ & Hv & _). destruct (Hv (VoteA ev)) as (_ & _ & _ & Hs); [by left|]. by apply HA in Hs.
Qed.

End evidence.
