(* ===== verification/Network.v ===== *)
(** Signed message envelopes (internal/network/envelope.go), the replay cache
    (replay_cache.go), cover traffic (cover_noise.go) and Communicator
    messages (communicator.go). *)
From stdpp Require Import base strings list gmap.
From Stdlib Require Import Ascii.
From S2P Require Import Prelude GoStd Sha256 Json JsonParse TxModel Block.

#[local] Open Scope string_scope.
#[local] Open Scope Z_scope.

(* ------------------------------------------------------------------ *)
(** * Envelopes *)

Record Envelope : Type := mkEnvelope {
  Version : string;
  MessageType : string;
  FromAgentID : string;
  ToAgentID : string;
  Topic : string;
  env_Nonce : string;
  env_Timestamp : Time;
  Payload : string;
  ProofOfComputationRoot : string;
  HardwareIDHash : string;
  env_Signature : string
}.

Definition ErrMissingField : error := Err "missing required field".

(** [HardwareIDHashHex], [NonceHex] *)
Definition HardwareIDHashHex (hardwareID : string) : string := hex0x (sha256 hardwareID).
Definition NonceHex (b : string) : string := hex0x (take_bytes 8 (sha256 b)).

(** How [json.Marshal] copies a [json.RawMessage]: spaces outside strings go,
    and the characters it escapes in any text are escaped. [dr] more bytes
    have been replaced. *)
Fixpoint compact (instr esc : bool) (dr : nat) (s : string) : string :=
  match s with
  | EmptyString => ""
  | String c s' =>
      let instr' := if instr then esc || negb (is_char c 34) else is_char c 34 in
      let esc' := instr && negb esc && is_char c 92 in
      match dr with
      | S dr => compact instr' esc' dr s'
      | O =>
          if is_char c 60 || is_char c 62 || is_char c 38
          then "\u00" +:+ String (hex_digit (code c / 16)) (String (hex_digit (code c mod 16)) (compact instr' esc' 0 s'))
          else if negb instr && is_json_space c then compact instr' esc' 0 s'
          else
            match is_line_sep s with
            | Some t => t +:+ compact instr' esc' 2 s'
            | None => String c (compact instr' esc' 0 s')
            end
      end
  end.

(** A raw message as a member value; an absent one is [null]. *)
Definition raw_json (raw : string) : option string :=
  if empty_str raw then Some "null"
  else match parse_json raw with Some _ => Some (compact false false 0 raw) | None => None end.

Definition member (k text : string) : string := quote k +:+ ":" +:+ text.
Definition member_oe (k s : string) : list string := if empty_str s then [] else [member k (quote s)].

(** [SigningBytes] *)
Definition SigningBytes (e : Envelope) : res string :=
  match time_text e.(env_Timestamp), raw_json e.(Payload) with
  | inl ts, Some payload =>
      inl ("{" +:+ join "," (
        [member "version" (quote e.(Version)); member "message_type" (quote e.(MessageType));
         member "from_agent" (quote e.(FromAgentID))]
        ++ member_oe "to_agent" e.(ToAgentID) ++ member_oe "topic" e.(Topic)
        ++ [member "nonce" (quote e.(env_Nonce)); member "timestamp" (quote ts); member "payload" payload;
            member "proof_of_computation_root" (quote e.(ProofOfComputationRoot));
            member "hardware_id_hash" (quote e.(HardwareIDHash))])%list +:+ "}")
  | inr e, _ => inr e
  | _, None => inr (Err "json: error calling MarshalJSON for type json.RawMessage")
  end.

(** [ValidateBasic] *)
Definition ValidateBasic (e : Envelope) : res unit :=
  if empty_str e.(Version) || empty_str e.(MessageType) || empty_str e.(FromAgentID) || empty_str e.(env_Nonce) then inr ErrMissingField
  else if IsZero e.(env_Timestamp) then inr ErrMissingField
  else if empty_str e.(Payload) then inr ErrMissingField
  else if empty_str e.(ProofOfComputationRoot) || empty_str e.(HardwareIDHash) then inr ErrMissingField
  else if empty_str e.(env_Signature) then inr ErrMissingField
  else inl tt.

(* ------------------------------------------------------------------ *)
(** * The replay cache *)

Record ReplayCache : Type := mkCache {
  entries : gmap string (gmap string Time);
  ttl : Z
}.

(** [NewReplayCache] *)
Definition NewReplayCache (d : Z) : ReplayCache := mkCache ∅ d.

(** [cleanupLocked] *)
Definition cleanup (now : Time) (c : ReplayCache) : ReplayCache :=
  if c.(ttl) <=? 0 then c
  else
    let cutoff := Add now (- c.(ttl)) in
    mkCache (filter (λ kv, kv.2 ≠ ∅) (filter (λ kv, Before kv.2 cutoff = false) <$> c.(entries))) c.(ttl).

Definition seen (c : ReplayCache) (from nonce : string) : option Time := default ∅ (c.(entries) !! from) !! nonce.

(** [SeenBefore] *)
Definition SeenBefore (from nonce : string) (now : Time) (c : ReplayCache) : ReplayCache * bool :=
  let c := cleanup now c in
  let m := default ∅ (c.(entries) !! from) in
  match m !! nonce with
  | Some _ => (c, true)
  | None => (mkCache (<[from := <[nonce := now]> m]> c.(entries)) c.(ttl), false)
  end.

(** What a cleanup forgets: exactly the nonces seen before the cutoff. *)
Lemma seen_cleanup now c from nonce :
  seen (cleanup now c) from nonce =
    match seen c from nonce with
    | Some t => if (0 <? c.(ttl)) && Before t (Add now (- c.(ttl))) then None else Some t
    | None => None
    end.
Proof.
  unfold cleanup, seen. destruct (Z.leb_spec (ttl c) 0) as [Hle|Hgt].
  { destruct (Z.ltb_spec 0 (ttl c)); [lia|]. by destruct (default ∅ (entries c !! from) !! nonce). }
  rewrite (proj2 (Z.ltb_lt _ _)) by done. simpl. rewrite map_lookup_filter, lookup_fmap.
  destruct (entries c !! from) as [m|]; simpl; [|done].
  set (m' := filter (λ kv, Before kv.2 (Add now (- ttl c)) = false) m).
  assert (m' !! nonce = match m !! nonce with Some t => if Before t (Add now (- ttl c)) then None else Some t | None => None end) as Hm.
  { unfold m'. rewrite map_lookup_filter. destruct (m !! nonce) as [t|]; simpl; [|done].
    destruct (Before t (Add now (- ttl c))) eqn:Hb; [by rewrite option_guard_False by congruence|by rewrite option_guard_True]. }
  rewrite <- Hm. destruct (decide (m' ≠ ∅)) as [Hne|He]; [by rewrite option_guard_True|].
  rewrite option_guard_False by done. apply dec_stable in He. by rewrite He.
Qed.

(* ------------------------------------------------------------------ *)
(** * Cover traffic and Communicator messages *)

Definition MessageCoverNoise : string := "cover_noise".
Definition TopicCoverNoise : string := "privacy/cover-noise".
Definition CoverNoiseDomain : string := "synthos.cover_noise.v1".
Definition MaxCoverNoisePaddingLen : Z := 4096.
Definition MessageCommunicator : string := "communicator_message".

Record CoverNoisePayload : Type := mkNoise {
  Domain : string;
  Scope : string;
  NoiseID : string;
  Padding : string;
  cn_CreatedAt : Time
}.

Record CommunicatorPayload : Type := mkCommunicatorPayload { cp_Body : string }.

(** [CoverNoisePayload.Validate] *)
Definition noise_Validate (p : CoverNoisePayload) : res unit :=
  if negb (bool_decide (p.(Domain) = CoverNoiseDomain)) then inr (Err "bad cover-noise domain")
  else if negb (bool_decide (p.(Scope) ∈ ["local_opt_in"; "local_browser"; "testnet"])) then inr (Err "bad cover-noise scope")
  else if empty_str p.(NoiseID) || IsZero p.(cn_CreatedAt) then inr ErrMissingField
  else if MaxCoverNoisePaddingLen <? slen p.(Padding) then inr (Err "cover-noise padding too large")
  else inl tt.

(** [DecodeCoverNoise]; [decoded] is what decoding the payload gives. *)
Definition DecodeCoverNoise (env : Envelope) (decoded : res CoverNoisePayload) : res CoverNoisePayload :=
  if negb (bool_decide (env.(MessageType) = MessageCoverNoise)) then inr (Err "not a cover-noise envelope")
  else if negb (empty_str env.(Topic)) && negb (bool_decide (env.(Topic) = TopicCoverNoise)) then inr (Err "bad cover-noise domain")
  else
    match decoded with
    | inr e => inr e
    | inl p => match noise_Validate p with inr e => inr e | inl _ => inl p end
    end.
