(* ===== verification/Engine.v ===== *)
(** The consensus engine of a node (internal/consensus/engine.go): candidate
    proposals per height and round, votes, quorum and proofs of lock.

    A call that takes the lock twice (a vote is first reported to the slashing
    tracker, then counted) is modelled as its two critical sections in
    sequence. Blocks are values; the maps never hold a nil block, and an
    absent inner map is an empty one. *)
From stdpp Require Import base strings list gmap.
From S2P Require Import Prelude GoStd Types TxModel Block Messages Slashing.

#[local] Open Scope string_scope.
#[local] Open Scope Z_scope.

Record ProofOfLock : Type := mkPOL {
  pol_Height : Z;
  pol_Round : Z;
  pol_BlockHash : string;
  pol_VotesFor : Z;
  pol_TotalPower : Z;
  pol_VotesPower : Z;
  pol_Signatures : gmap string string
}.

Record voteRecord : Type := mkRecord {
  r_BlockHash : string;
  r_Vote : Z;
  r_Signature : string
}.

#[global] Instance voteRecord_eq_dec : EqDecision voteRecord.
Proof. solve_decision. Defined.

Abbreviation ballot := (gmap string voteRecord).

Record Engine : Type := mkEngine {
  totalValidators : Z;
  validators : gset string;
  validatorPowers : gmap string Z;
  totalPower : Z;
  proposalsByHeight : gmap Z Block;
  proposalsByHeightAndRound : gmap Z (gmap Z Block);
  votes : gmap Z ballot;
  votesByHeightAndRound : gmap Z (gmap Z (gmap VoteStage ballot));
  proofsOfLock : gmap Z ProofOfLock;
  slashTracker : option SlashingTracker
}.

Definition set_roster n vs ps tp e := mkEngine n vs ps tp e.(proposalsByHeight) e.(proposalsByHeightAndRound) e.(votes) e.(votesByHeightAndRound) e.(proofsOfLock) e.(slashTracker).
Definition set_proposals x y e := mkEngine e.(totalValidators) e.(validators) e.(validatorPowers) e.(totalPower) x y e.(votes) e.(votesByHeightAndRound) e.(proofsOfLock) e.(slashTracker).
Definition set_votes x y e := mkEngine e.(totalValidators) e.(validators) e.(validatorPowers) e.(totalPower) e.(proposalsByHeight) e.(proposalsByHeightAndRound) x y e.(proofsOfLock) e.(slashTracker).
Definition set_locks x e := mkEngine e.(totalValidators) e.(validators) e.(validatorPowers) e.(totalPower) e.(proposalsByHeight) e.(proposalsByHeightAndRound) e.(votes) e.(votesByHeightAndRound) x e.(slashTracker).
Definition set_tracker x e := mkEngine e.(totalValidators) e.(validators) e.(validatorPowers) e.(totalPower) e.(proposalsByHeight) e.(proposalsByHeightAndRound) e.(votes) e.(votesByHeightAndRound) e.(proofsOfLock) x.

Definition ErrUnknownProposal : error := Err "unknown proposal".
Definition ErrUnknownValidator : error := Err "unknown validator".

Definition NewEngine (n : Z) : Engine := mkEngine n ∅ ∅ (u64 n) ∅ ∅ ∅ ∅ ∅ None.

Definition SetSlashingTracker (t : option SlashingTracker) : Engine → Engine := set_tracker t.

(** [NoteMissedSlot], with the calls it makes to [executeSlash]. *)
Definition NoteMissedSlot (now : Time) (id : string) (e : Engine) : Engine * list (string * Z) :=
  match e.(slashTracker) with
  | None => (e, [])
  | Some t =>
      if empty_str id then (e, [])
      else let '(t, calls, _) := RecordMissedBlock now id t in (set_tracker (Some t) e, calls)
  end.

(* ------------------------------------------------------------------ *)
(** * The validator set *)

(** [SetValidators]: a repeated ID is one validator, and its power is still
    counted once per occurrence in the total. *)
Definition SetValidators (ids : list string) (e : Engine) : Engine :=
  let ids := filter (λ id, id ≠ "") ids in
  let vs := list_to_set ids : gset string in
  set_roster (Z.of_nat (size vs)) vs (list_to_map ((λ id, (id, 1)) <$> ids)) (u64 (Z.of_nat (length ids))) e.

(** [SetValidatorPower] *)
Definition SetValidatorPower (id : string) (power : Z) (e : Engine) : Engine :=
  let vs := {[id]} ∪ e.(validators) in
  let old := default 0 (e.(validatorPowers) !! id) in
  set_roster (Z.of_nat (size vs)) vs (<[id := power]> e.(validatorPowers)) (u64 (u64 (e.(totalPower) - old) + power)) e.

(** [SetValidatorPowers]: validators that are not in [powers] stay
    registered. *)
Definition SetValidatorPowers (powers : gmap string Z) (e : Engine) : Engine :=
  let kept := filter (λ kv, kv.1 ≠ "" ∧ 0 < kv.2) powers in
  let vs := dom kept ∪ e.(validators) in
  set_roster (Z.of_nat (size vs)) vs kept (u64 (msum id kept)) e.

(** [ValidatorPower] *)
Definition ValidatorPower (e : Engine) (id : string) : Z :=
  match e.(validatorPowers) !! id with
  | Some p => p
  | None => if bool_decide (id ∈ e.(validators)) then 1 else 0
  end.

(** [requiredPowerForFinalityLocked]; the product wraps. *)
Definition requiredPowerForFinality (e : Engine) : Z :=
  if e.(totalPower) <=? 0 then 1 else
  let req := u64 (u64 (2 * e.(totalPower)) + 2) / 3 in if req <? 1 then 1 else req.

(** [requiredForFinalityLocked], on an [int]. *)
Definition requiredForFinality (e : Engine) : Z :=
  if e.(totalValidators) <=? 0 then 1 else
  let req := Z.quot (i64 (2 * e.(totalValidators) + 2)) 3 in if req <? 1 then 1 else req.

Definition isRegisteredValidator (e : Engine) (id : string) : bool :=
  bool_decide (e.(validators) = ∅) || bool_decide (id ∈ e.(validators)).

(* ------------------------------------------------------------------ *)
(** * Proposals *)

(** The candidate kept among two: the smaller hash. *)
Definition prefer (b : Block) (existing : option Block) : Block :=
  match existing with
  | Some x => if str_lt b.(Hash) x.(Hash) then b else x
  | None => b
  end.

Definition rounds_at (e : Engine) (h : Z) : gmap Z Block := default ∅ (e.(proposalsByHeightAndRound) !! h).

(** The report of a proposal to the tracker. *)
Definition report_proposal (now : Time) (b : Block) (e : Engine) : Engine * list (string * Z) :=
  match e.(slashTracker) with
  | Some t =>
      if empty_str b.(Header).(ProposerID) then (e, [])
      else let '(t, calls, _) := DetectDoubleSigning now b.(Header).(ProposerID) b.(Header).(Height) t in
           (set_tracker (Some t) e, calls)
  | None => (e, [])
  end.

(** [OnProposal] *)
Definition OnProposal (now : Time) (b : option Block) (e : Engine) : Engine * list (string * Z) :=
  match b with
  | None => (e, [])
  | Some b =>
      if empty_str b.(Hash) then (e, []) else
      let h := b.(Header).(Height) in
      let e := set_proposals (<[h := prefer b (e.(proposalsByHeight) !! h)]> e.(proposalsByHeight))
                 e.(proposalsByHeightAndRound) e in
      let e := set_votes (<[h := default ∅ (e.(votes) !! h)]> e.(votes)) e.(votesByHeightAndRound) e in
      report_proposal now b e
  end.

(** [OnProposalWithRound] (its third argument is not used). *)
Definition OnProposalWithRound (now : Time) (b : option Block) (round : Z) (e : Engine) : Engine * list (string * Z) :=
  match b with
  | None => (e, [])
  | Some b =>
      if empty_str b.(Hash) then (e, []) else
      let h := b.(Header).(Height) in
      let rs := rounds_at e h in
      let e := set_proposals (<[h := prefer b (e.(proposalsByHeight) !! h)]> e.(proposalsByHeight))
                 (<[h := <[round := prefer b (rs !! round)]> rs]> e.(proposalsByHeightAndRound)) e in
      let e := set_votes (<[h := default ∅ (e.(votes) !! h)]> e.(votes)) e.(votesByHeightAndRound) e in
      report_proposal now b e
  end.

(** The votes of a round, by stage. *)
Definition stages_at (e : Engine) (h round : Z) : gmap VoteStage ballot :=
  default ∅ (default ∅ (e.(votesByHeightAndRound) !! h) !! round).
Definition ballot_at (e : Engine) (h round : Z) (stage : VoteStage) : ballot :=
  default ∅ (stages_at e h round !! stage).
Definition legacy_at (e : Engine) (h : Z) : ballot := default ∅ (e.(votes) !! h).

Definition put_stages (h round : Z) (x : gmap VoteStage ballot) (e : Engine) : gmap Z (gmap Z (gmap VoteStage ballot)) :=
  <[h := <[round := x]> (default ∅ (e.(votesByHeightAndRound) !! h))]> e.(votesByHeightAndRound).

(** [RecordOwnProposalWithRound] *)
Definition RecordOwnProposalWithRound (b : option Block) (round : Z) (e : Engine) : Engine :=
  match b with
  | None => e
  | Some b =>
      if empty_str b.(Hash) then e else
      let h := b.(Header).(Height) in
      let e := set_proposals (<[h := b]> e.(proposalsByHeight))
                 (<[h := <[round := b]> (rounds_at e h)]> e.(proposalsByHeightAndRound)) e in
      let e := set_votes (<[h := ∅]> e.(votes)) (put_stages h round (stages_at e h round) e) e in
      set_tracker (ForgetVotesAtHeight h <$> e.(slashTracker)) e
  end.

(** [RecordOwnProposal], [RecordReceivedProposal] *)
Definition RecordOwnProposal (b : option Block) (e : Engine) : Engine := RecordOwnProposalWithRound b 0 e.
Definition RecordReceivedProposal (b : option Block) (e : Engine) : Engine := RecordOwnProposal b e.

(** [ProposalForRound] *)
Definition ProposalForRound (e : Engine) (h round : Z) : option Block :=
  match rounds_at e h !! round with Some b => Some b | None => e.(proposalsByHeight) !! h end.

(** [Proposal]: a candidate with this hash. Go walks the maps in an
    unspecified order; candidates with one hash are one block. *)
Definition Proposal (e : Engine) (hash : string) : option Block :=
  head (filter (λ b, b.(Hash) = hash)
    ((map_to_list e.(proposalsByHeight)).*2 ++ ((map_to_list e.(proposalsByHeightAndRound)).*2 ≫= λ m, (map_to_list m).*2))%list).

(* ------------------------------------------------------------------ *)
(** * Votes *)

(** The voters of a ballot that accept [hash]. *)
Definition approvers (m : ballot) (hash : string) : ballot :=
  filter (λ kv, kv.2.(r_BlockHash) = hash ∧ kv.2.(r_Vote) = 1) m.

Definition votes_for (m : ballot) (hash : string) : Z := Z.of_nat (size (approvers m hash)).

(** A voter without a recorded power counts 1. *)
Definition vote_power (e : Engine) (id : string) : Z :=
  let p := default 0 (e.(validatorPowers) !! id) in if p =? 0 then 1 else p.

Definition votes_power (e : Engine) (m : ballot) (hash : string) : Z :=
  foldl (λ acc kv, u64 (acc + vote_power e kv.1)) 0 (map_to_list (approvers m hash)).

(** Signatures that came with the accepting votes. *)
Definition approval_signatures (m : ballot) (hash : string) : gmap string string :=
  r_Signature <$> filter (λ kv, kv.2.(r_Signature) ≠ "") (approvers m hash).

(** The first vote of a voter stands. *)
Definition cast (id : string) (r : voteRecord) (m : ballot) : ballot :=
  match m !! id with Some _ => m | None => <[id := r]> m end.

(** [FinalityStatus]: (finalized, votes, required, found). *)
Definition FinalityStatus (e : Engine) (hash : string) : bool * Z * Z * bool :=
  let required := requiredForFinality e in
  match list_find (λ kv, kv.2.(Hash) = hash) (map_to_list e.(proposalsByHeight)) with
  | None => (false, 0, required, false)
  | Some (_, (h, _)) =>
      let n := votes_for (legacy_at e h) hash in (required <=? n, n, required, true)
  end.

(** The result of counting a vote. *)
Record VoteResult : Type := mkResult {
  thresholdMet : bool;
  vr_pol : option ProofOfLock;
  votesFor : Z;
  required : Z;
  vr_err : option error
}.

(** The first critical section of [processVoteInternal] and the report to the
    tracker that follows it. *)
Definition report_vote (now : Time) (v : BlockVote) (e : Engine) : Engine * list (string * Z) :=
  match e.(slashTracker) with
  | Some t =>
      if v.(v_Vote) =? 1 then
        let '(t, calls, _) := RecordEquivocation now v.(v_VoterID) v.(v_Height) v.(v_BlockHash) t in
        (set_tracker (Some t) e, calls)
      else (e, [])
  | None => (e, [])
  end.

(** The candidate votes of a round are checked against. *)
Definition canonical (e : Engine) (h round : Z) : option Block := ProposalForRound e h round.

(** Recording a vote, in the ballot of its height (precommits only) and in
    that of its round and stage. *)
Definition record_vote (v : BlockVote) (stage : VoteStage) (e : Engine) : Engine :=
  let h := v.(v_Height) in
  let r := mkRecord v.(v_BlockHash) v.(v_Vote) v.(v_Signature) in
  let vs := if IsPrecommit v then <[h := cast v.(v_VoterID) r (legacy_at e h)]> e.(votes) else e.(votes) in
  set_votes vs (put_stages h v.(v_Round) (<[stage := cast v.(v_VoterID) r (ballot_at e h v.(v_Round) stage)]>
                  (stages_at e h v.(v_Round))) e) e.

(** The number of accepting votes: for a precommit also those of the height's
    ballot, if they are more. *)
Definition count_votes (e : Engine) (v : BlockVote) (stage : VoteStage) : Z :=
  let n := votes_for (ballot_at e v.(v_Height) v.(v_Round) stage) v.(v_BlockHash) in
  if bool_decide (stage = VoteStagePrecommit)
  then let l := votes_for (legacy_at e v.(v_Height)) v.(v_BlockHash) in if n <? l then l else n
  else n.

(** The second critical section: check, record, count. *)
Definition tally_vote (v : BlockVote) (e : Engine) : Engine * VoteResult :=
  match canonical e v.(v_Height) v.(v_Round) with
  | None => (e, mkResult false None 0 (requiredForFinality e) (Some ErrUnknownProposal))
  | Some b =>
      if negb (bool_decide (b.(Hash) = v.(v_BlockHash)))
      then (e, mkResult false None 0 (requiredForFinality e) (Some ErrUnknownProposal))
      else
        let stage := if empty_str v.(v_Stage) then VoteStagePrecommit else v.(v_Stage) in
        let e := record_vote v stage e in
        let requiredCount := requiredForFinality e in
        let stageVotes := ballot_at e v.(v_Height) v.(v_Round) stage in
        let power := votes_power e stageVotes v.(v_BlockHash) in
        let n := count_votes e v stage in
        let met := (requiredCount <=? n)
                   && ((e.(totalPower) =? 0) || (requiredPowerForFinality e <=? power)) in
        if bool_decide (stage = VoteStagePrevote) && met then
          let pol := mkPOL v.(v_Height) v.(v_Round) v.(v_BlockHash) n e.(totalPower) power
                       (approval_signatures stageVotes v.(v_BlockHash)) in
          (set_locks (<[v.(v_Height) := pol]> e.(proofsOfLock)) e, mkResult true (Some pol) n requiredCount None)
        else (e, mkResult met None n requiredCount None)
  end.

(** [processVoteInternal] *)
Definition processVoteInternal (now : Time) (v : BlockVote) (e : Engine) : Engine * list (string * Z) * VoteResult :=
  if negb (isRegisteredValidator e v.(v_VoterID))
  then (e, [], mkResult false None 0 (requiredForFinality e) (Some ErrUnknownValidator))
  else
    let '(e, calls) := report_vote now v e in
    let '(e, r) := tally_vote v e in (e, calls, r).

(** [OnPrevote], [OnPrecommit], [OnVote] *)
Definition OnPrevote (now : Time) (v : BlockVote) := processVoteInternal now (set_Stage VoteStagePrevote v).
Definition OnPrecommit (now : Time) (v : BlockVote) := processVoteInternal now (set_Stage VoteStagePrecommit v).
Definition OnVote (now : Time) (v : BlockVote) :=
  if IsPrevote v then OnPrevote now v else OnPrecommit now v.

(** [Engine.ProofOfLock], [HasProofOfLock], [CollectedPrevoteApprovals],
    [CollectedApprovals] *)
Definition GetProofOfLock (e : Engine) (h : Z) : option ProofOfLock := e.(proofsOfLock) !! h.
Definition HasProofOfLock (e : Engine) (h round : Z) (hash : string) : bool :=
  match e.(proofsOfLock) !! h with
  | None => false
  | Some pol => (pol.(pol_Round) =? round) && bool_decide (pol.(pol_BlockHash) = hash)
  end.
Definition CollectedPrevoteApprovals (e : Engine) (h round : Z) (hash : string) : gmap string string :=
  approval_signatures (ballot_at e h round VoteStagePrevote) hash.
Definition CollectedApprovals (e : Engine) (h : Z) (hash : string) : gmap string string :=
  approval_signatures (legacy_at e h) hash.
