(* ===== verification/EngineFacts.v ===== *)
(** What the engine guarantees: a quorum is a quorum of distinct registered
    validators, the ballot of a round keeps every validator's first vote, so
    one engine never finds a quorum for two blocks in one round, unless its
    roster changes in between; and what a retry in the same round costs. *)
From stdpp Require Import base strings list gmap.
From S2P Require Import Prelude GoStd Types TxModel Block Messages Slashing Engine.

#[local] Open Scope string_scope.
#[local] Open Scope Z_scope.

(* ------------------------------------------------------------------ *)
(** * Voting power *)

(** The power of a set of voters. *)
Definition weight (e : Engine) (X : gset string) : Z := lsum (vote_power e) (elements X).

Lemma weight_union e X Y : X ## Y → weight e (X ∪ Y) = weight e X + weight e Y.
Proof. intros Hd. unfold weight. by rewrite elements_disj_union, lsum_app. Qed.

(** A roster whose powers are positive and add up to the total. *)
Record roster_ok (e : Engine) : Prop := {
  ro_some : e.(validators) ≠ ∅;
  ro_powers : ∀ id p, e.(validatorPowers) !! id = Some p → 0 ≤ p;
  ro_total : e.(totalPower) = weight e e.(validators);
  ro_small : 2 * e.(totalPower) + 2 ≤ MaxUint64
}.

Lemma vote_power_pos e id : roster_ok e → 0 < vote_power e id.
Proof.
  intros [_ Hp _ _]. unfold vote_power. destruct (validatorPowers e !! id) as [p|] eqn:Hl; simpl; [|lia].
  pose proof (Hp id p Hl). destruct (Z.eqb_spec p 0); lia.
Qed.

Lemma weight_nonneg e X : roster_ok e → 0 ≤ weight e X.
Proof. intros Hr. apply lsum_nonneg. intros id _. pose proof (vote_power_pos e id Hr). lia. Qed.

Lemma weight_mono e X Y : roster_ok e → X ⊆ Y → weight e X ≤ weight e Y.
Proof.
  intros Hr Hs. rewrite (union_difference_L X Y Hs), weight_union by set_solver.
  pose proof (weight_nonneg e (Y ∖ X) Hr). lia.
Qed.

Lemma total_pos e : roster_ok e → 0 < e.(totalPower).
Proof.
  intros Hr. rewrite (ro_total e Hr). destruct (set_choose_L e.(validators) (ro_some e Hr)) as [id Hid].
  pose proof (weight_mono e {[id]} e.(validators) Hr ltac:(set_solver)) as Hw.
  pose proof (vote_power_pos e id Hr). unfold weight in Hw at 1. rewrite elements_singleton in Hw. simpl in Hw. lia.
Qed.

(** The power needed is two thirds, rounded up. *)
Lemma requiredPower_exact e : roster_ok e → 2 * e.(totalPower) ≤ 3 * requiredPowerForFinality e ∧ 1 ≤ requiredPowerForFinality e.
Proof.
  intros Hr. pose proof (total_pos e Hr). pose proof (ro_small e Hr). unfold requiredPowerForFinality.
  destruct (Z.leb_spec e.(totalPower) 0); [lia|]. rewrite !u64_small by (split; rewrite ?u64_small by (split; lia); lia).
  pose proof (Z.mul_div_le (2 * e.(totalPower) + 2) 3 ltac:(lia)).
  pose proof (Z.mod_pos_bound (2 * e.(totalPower) + 2) 3 ltac:(lia)). pose proof (Z.div_mod (2 * e.(totalPower) + 2) 3 ltac:(lia)).
  case_match eqn:Hlt; [apply Z.ltb_lt in Hlt; lia|]. apply Z.ltb_ge in Hlt. lia.
Qed.

Lemma elements_dom_list {V} (m : gmap string V) : elements (dom m) ≡ₚ (map_to_list m).*1.
Proof.
  assert (dom m = list_to_set (map_to_list m).*1) as ->; [|apply elements_list_to_set, NoDup_fst_map_to_list].
  apply set_eq. intros id. rewrite elem_of_dom, elem_of_list_to_set, list_elem_of_fmap. split.
  - intros [v Hv]. exists (id, v). split; [done|]. by apply elem_of_map_to_list.
  - intros ([id' v] & -> & Hv%elem_of_map_to_list). by exists v.
Qed.

Lemma votes_power_weight e m hash :
  roster_ok e → dom (approvers m hash) ⊆ e.(validators) → votes_power e m hash = weight e (dom (approvers m hash)).
Proof.
  intros Hr Hs. pose proof (weight_mono e _ _ Hr Hs) as Hw. rewrite <- (ro_total e Hr) in Hw. pose proof (ro_small e Hr).
  unfold votes_power, weight in *. rewrite elements_dom_list in *. revert Hw.
  assert (∀ l acc, 0 ≤ acc → acc + lsum (vote_power e) (l.*1) ≤ MaxUint64 →
    foldl (λ acc (kv : string * voteRecord), u64 (acc + vote_power e kv.1)) acc l = acc + lsum (vote_power e) (l.*1)) as Hf.
  { induction l as [|[id r] l IH]; intros acc Ha Hm; [simpl; lia|]. rewrite fmap_cons, lsum_cons in *; cbn [foldl fst] in *.
    pose proof (vote_power_pos e id Hr).
    assert (0 ≤ lsum (vote_power e) (l.*1)) by (apply lsum_nonneg; intros x _; pose proof (vote_power_pos e x Hr); lia).
    rewrite u64_small by (split; lia). rewrite IH by lia. lia. }
  intros Hw. rewrite Hf; [lia|lia|]. pose proof (total_pos e Hr). lia.
Qed.

(* ------------------------------------------------------------------ *)
(** * Ballots *)

Lemma ballot_put e h r x h' r' s' :
  default ∅ (default ∅ (default ∅ (put_stages h r x e !! h') !! r') !! s') =
  if decide (h = h' ∧ r = r') then default ∅ (x !! s') else ballot_at e h' r' s'.
Proof.
  unfold put_stages, ballot_at, stages_at. destruct (decide (h = h')) as [<-|Hh].
  - rewrite lookup_insert_eq. simpl. destruct (decide (r = r')) as [<-|Hr].
    + rewrite lookup_insert_eq. by rewrite decide_True.
    + rewrite lookup_insert_ne by done. rewrite decide_False by naive_solver. done.
  - rewrite lookup_insert_ne by done. rewrite decide_False by naive_solver. done.
Qed.

Definition vote_record (v : BlockVote) : voteRecord := mkRecord v.(v_BlockHash) v.(v_Vote) v.(v_Signature).

Lemma ballot_record v stage e h r s :
  ballot_at (record_vote v stage e) h r s =
  if decide (v.(v_Height) = h ∧ v.(v_Round) = r ∧ stage = s)
  then cast v.(v_VoterID) (vote_record v) (ballot_at e h r s) else ballot_at e h r s.
Proof.
  unfold record_vote, ballot_at at 1, stages_at at 1. simpl. rewrite ballot_put.
  destruct (decide (v.(v_Height) = h ∧ v.(v_Round) = r)) as [[<- <-]|Hne]; [|rewrite decide_False by naive_solver; done].
  destruct (decide (stage = s)) as [<-|Hs].
  - by rewrite lookup_insert_eq, decide_True.
  - by rewrite lookup_insert_ne, decide_False by naive_solver.
Qed.

Lemma cast_mono id r m : m ⊆ cast id r m.
Proof. unfold cast. destruct (m !! id) eqn:Hl; [done|]. by apply insert_subseteq. Qed.

Lemma dom_cast id r m : dom (cast id r m) ⊆ {[id]} ∪ dom m.
Proof. unfold cast. destruct (m !! id); [set_solver|]. rewrite dom_insert_L. done. Qed.

Lemma approvers_mono m m' hash : m ⊆ m' → approvers m hash ⊆ approvers m' hash.
Proof.
  intros Hs. apply map_subseteq_spec. intros id r [Hl Hp]%map_lookup_filter_Some.
  apply map_lookup_filter_Some. split; [by eapply lookup_weaken|done].
Qed.

Lemma approvers_disjoint m a b : a ≠ b → dom (approvers m a) ## dom (approvers m b).
Proof.
  intros Hne id [r [Hl [Ha _]]%map_lookup_filter_Some]%elem_of_dom [r' [Hl' [Hb _]]%map_lookup_filter_Some]%elem_of_dom.
  simpl in *. congruence.
Qed.

(* ------------------------------------------------------------------ *)
(** * Runs with a fixed roster *)

(** The critical sections an engine goes through, in any interleaving, while
    the roster does not change. *)
Inductive engine_step : Engine → Engine → Prop :=
  | es_proposal now b e : engine_step e (OnProposal now b e).1
  | es_proposal_round now b round e : engine_step e (OnProposalWithRound now b round e).1
  | es_own b round e : engine_step e (RecordOwnProposalWithRound b round e)
  | es_missed now id e : engine_step e (NoteMissedSlot now id e).1
  | es_report now v e : isRegisteredValidator e v.(v_VoterID) = true → engine_step e (report_vote now v e).1
  | es_tally v e : isRegisteredValidator e v.(v_VoterID) = true → engine_step e (tally_vote v e).1.

Definition same_roster (e e' : Engine) : Prop :=
  e'.(totalValidators) = e.(totalValidators) ∧ e'.(validators) = e.(validators) ∧
  e'.(validatorPowers) = e.(validatorPowers) ∧ e'.(totalPower) = e.(totalPower).

(** Ballots only gain votes, of registered validators. *)
Record ballots_grow (e e' : Engine) : Prop := {
  bg_roster : same_roster e e';
  bg_kept : ∀ h r s, ballot_at e h r s ⊆ ballot_at e' h r s;
  bg_voters : ∀ h r s, dom (ballot_at e' h r s) ⊆ dom (ballot_at e h r s) ∪ e.(validators)
}.

#[global] Instance ballots_grow_preorder : PreOrder ballots_grow.
Proof.
  split; [by intros e; split; [|done|set_solver]|].
  intros e1 e2 e3 [(? & ? & ? & ?) K1 V1] [(? & Hv & ? & ?) K2 V2]. split.
  - split_and!; congruence.
  - intros h r s. by transitivity (ballot_at e2 h r s).
  - intros h r s. pose proof (V1 h r s). pose proof (V2 h r s). set_solver.
Qed.

Lemma ballots_grow_same e e' : same_roster e e' → (∀ h r s, ballot_at e' h r s = ballot_at e h r s) → ballots_grow e e'.
Proof. intros Hr Hb. split; [done| |]; intros h r s; rewrite Hb; [done|set_solver]. Qed.

Lemma report_proposal_grow now b e : ballots_grow e (report_proposal now b e).1.
Proof.
  unfold report_proposal. destruct (slashTracker e); [|done]. destruct (empty_str _); [done|].
  destruct (DetectDoubleSigning _ _ _ _) as [[t calls] err]. by apply ballots_grow_same.
Qed.

Lemma record_vote_grow v stage e :
  v.(v_VoterID) ∈ e.(validators) → ballots_grow e (record_vote v stage e).
Proof.
  intros Hv. split; [by repeat split| |]; intros h r s; rewrite ballot_record; case_decide; try done; try set_solver.
  - apply cast_mono.
  - pose proof (dom_cast v.(v_VoterID) (vote_record v) (ballot_at e h r s)). set_solver.
Qed.

Lemma registered_in e id : e.(validators) ≠ ∅ → isRegisteredValidator e id = true → id ∈ e.(validators).
Proof. unfold isRegisteredValidator. rewrite orb_true_iff, !bool_decide_eq_true. naive_solver. Qed.

(** A counted vote has been recorded; everything else about the ballots is as
    [record_vote] leaves it. *)
Lemma tally_cases v e :
  let stage := if empty_str v.(v_Stage) then VoteStagePrecommit else v.(v_Stage) in
  ((tally_vote v e).1 = e ∧ thresholdMet (tally_vote v e).2 = false) ∨
  (ballots_grow (record_vote v stage e) (tally_vote v e).1 ∧
   let e' := record_vote v stage e in
   thresholdMet (tally_vote v e).2 =
     (requiredForFinality e' <=? count_votes e' v stage) &&
     ((e'.(totalPower) =? 0) ||
      (requiredPowerForFinality e' <=? votes_power e' (ballot_at e' v.(v_Height) v.(v_Round) stage) v.(v_BlockHash)))).
Proof.
  intros stage. unfold tally_vote. destruct (canonical e _ _) as [b|]; [|by left].
  case_bool_decide; simpl; [|by left]. fold stage. right.
  set (e' := record_vote v stage e). set (met := (_ <=? _) && _). cbv zeta.
  destruct (bool_decide _ && met) eqn:Hm; simpl.
  - apply andb_true_iff in Hm as [_ Hm]. split; [by apply ballots_grow_same|by rewrite Hm].
  - by split.
Qed.

Lemma own_ballot b round e h r s : ballot_at (RecordOwnProposalWithRound b round e) h r s = ballot_at e h r s.
Proof.
  unfold RecordOwnProposalWithRound. destruct b as [b|]; [|done]. destruct (empty_str _); [done|].
  unfold ballot_at at 1, stages_at at 1. simpl. rewrite ballot_put. case_decide as Hd; [|done]. by destruct Hd as [<- <-].
Qed.

Lemma own_roster b round e : same_roster e (RecordOwnProposalWithRound b round e).
Proof. unfold RecordOwnProposalWithRound. repeat case_match; by repeat split. Qed.

Lemma engine_step_grow e e' : e.(validators) ≠ ∅ → engine_step e e' → ballots_grow e e'.
Proof.
  intros Hne. destruct 1 as [now b e|now b round e|b round e|now id e|now v e Hv|v e Hv].
  - unfold OnProposal. destruct b as [b|]; [|done]. destruct (empty_str _); [done|].
    etrans; [|apply report_proposal_grow]. by apply ballots_grow_same.
  - unfold OnProposalWithRound. destruct b as [b|]; [|done]. destruct (empty_str _); [done|].
    etrans; [|apply report_proposal_grow]. by apply ballots_grow_same.
  - apply ballots_grow_same; [apply own_roster|apply own_ballot].
  - unfold NoteMissedSlot. destruct (slashTracker e); [|done]. destruct (empty_str id); [done|].
    destruct (RecordMissedBlock _ _ _) as [[t calls] err]. by apply ballots_grow_same.
  - unfold report_vote. destruct (slashTracker e); [|done]. destruct (_ =? 1); [|done].
    destruct (RecordEquivocation _ _ _ _ _) as [[t calls] err]. by apply ballots_grow_same.
  - destruct (tally_cases v e) as [[-> _]|[Hg _]]; [done|]. etrans; [|exact Hg].
    by apply record_vote_grow, registered_in.
Qed.

Lemma engine_run_grow e e' : e.(validators) ≠ ∅ → rtc engine_step e e' → ballots_grow e e'.
Proof.
  intros Hne. induction 1 as [|e e1 e' Hs _ IH]; [done|]. pose proof (engine_step_grow _ _ Hne Hs) as Hg.
  etrans; [exact Hg|]. apply IH. destruct Hg as [(_ & -> & _) _ _]. done.
Qed.

(** A whole vote is two of those sections. *)
Lemma OnVote_steps now v e : rtc engine_step e (OnVote now v e).1.1.
Proof.
  assert (∀ v, rtc engine_step e (processVoteInternal now v e).1.1) as Hp.
  { clear v. intros v. unfold processVoteInternal. destruct (isRegisteredValidator e v.(v_VoterID)) eqn:Hr; [|done]. simpl.
    destruct (report_vote now v e) as [e1 calls] eqn:H1. destruct (tally_vote v e1) as [e2 r] eqn:H2. simpl.
    assert (e1 = (report_vote now v e).1) as -> by by rewrite H1.
    eapply rtc_l; [by apply (es_report now v)|]. apply rtc_once. rewrite <- (f_equal fst H2 : _ = e2). apply es_tally.
    unfold report_vote. destruct (slashTracker e); [|done]. destruct (_ =? 1); [|done].
    by destruct (RecordEquivocation _ _ _ _ _) as [[t calls'] err]. }
  unfold OnVote, OnPrevote, OnPrecommit. destruct (IsPrevote v); apply Hp.
Qed.

(** Every recorded voter is registered. *)
Definition voters_ok (e : Engine) : Prop := ∀ h r s, dom (ballot_at e h r s) ⊆ e.(validators).

Lemma voters_ok_grow e e' : ballots_grow e e' → voters_ok e → voters_ok e'.
Proof.
  intros [(_ & Hv & _) _ Hn] Hok h r s. rewrite Hv. pose proof (Hn h r s). pose proof (Hok h r s). set_solver.
Qed.

Lemma roster_ok_same e e' : same_roster e e' → roster_ok e → roster_ok e'.
Proof.
  intros (_ & Hv & Hp & Ht) [? ? Htot ?]. split; rewrite ?Hv, ?Hp, ?Ht; try done.
  unfold weight, vote_power. by rewrite Hp.
Qed.

Lemma weight_same e e' X : same_roster e e' → weight e' X = weight e X.
Proof. intros (_ & _ & Hp & _). unfold weight, vote_power. by rewrite Hp. Qed.

(** A quorum: accepting votes of registered validators with two thirds of the
    power. *)
Definition has_quorum (e : Engine) (h r : Z) (s : VoteStage) (hash : string) : Prop :=
  dom (approvers (ballot_at e h r s) hash) ⊆ e.(validators) ∧
  2 * e.(totalPower) ≤ 3 * weight e (dom (approvers (ballot_at e h r s) hash)).

Definition stage_of (v : BlockVote) : VoteStage := if empty_str v.(v_Stage) then VoteStagePrecommit else v.(v_Stage).

Lemma dom_approvers m hash : dom (approvers m hash) ⊆ dom m.
Proof. apply dom_filter_subseteq. Qed.

Lemma tally_quorum v e :
  roster_ok e → voters_ok e → isRegisteredValidator e v.(v_VoterID) = true →
  thresholdMet (tally_vote v e).2 = true →
  has_quorum (tally_vote v e).1 v.(v_Height) v.(v_Round) (stage_of v) v.(v_BlockHash).
Proof.
  intros Hr Hok Hreg Hmet. pose proof (ro_some e Hr) as Hne.
  pose proof (engine_step_grow e _ Hne (es_tally v e Hreg)) as Hg.
  destruct (tally_cases v e) as [[_ Hf]|[Hg' Ht]]; [by rewrite Hf in Hmet|]. fold (stage_of v) in *.
  pose proof (record_vote_grow v (stage_of v) e (registered_in e _ Hne Hreg)) as Hrg.
  set (e1 := record_vote v (stage_of v) e) in *. pose proof (roster_ok_same e e1 (bg_roster _ _ Hrg) Hr) as Hr1.
  pose proof (voters_ok_grow e e1 Hrg Hok) as Hok1. pose proof (voters_ok_grow _ _ Hg Hok) as Hok2.
  cbv zeta in Ht. rewrite Hmet in Ht. symmetry in Ht. apply andb_true_iff in Ht as [_ Ht].
  rewrite orb_true_iff, Z.eqb_eq, Z.leb_le in Ht. pose proof (total_pos e1 Hr1). destruct Ht as [?|Ht]; [lia|].
  set (m1 := ballot_at e1 _ _ _) in *.
  assert (dom (approvers m1 (v_BlockHash v)) ⊆ validators e1) as Hd.
  { etrans; [apply dom_approvers|apply Hok1]. }
  rewrite (votes_power_weight e1 m1 _ Hr1 Hd) in Ht. pose proof (requiredPower_exact e1 Hr1) as [Hq _].
  destruct Hg' as [Hs Hk _]. pose proof (roster_ok_same e1 _ Hs Hr1) as Hr2.
  split; [etrans; [apply dom_approvers|apply Hok2]|].
  destruct Hs as (? & ? & ? & Htp) eqn:?. rewrite Htp.
  pose proof (weight_mono _ _ _ Hr2 (subseteq_dom _ _ (approvers_mono _ _ (v_BlockHash v) (Hk (v_Height v) (v_Round v) (stage_of v))))) as Hw.
  rewrite (weight_same e1) in Hw by done. fold m1 in Hw. lia.
Qed.

(** Quorums persist, and two of them in one round are for the same block. *)
Lemma has_quorum_grow e e' h r s hash :
  roster_ok e → voters_ok e → ballots_grow e e' → has_quorum e h r s hash → has_quorum e' h r s hash.
Proof.
  intros Hr Hok Hg [_ Hq]. pose proof (voters_ok_grow _ _ Hg Hok) as Hok'. destruct Hg as [Hs Hk _].
  pose proof (roster_ok_same e e' Hs Hr) as Hr'. split; [etrans; [apply dom_approvers|apply Hok']|].
  pose proof (weight_mono e' _ _ Hr' (subseteq_dom _ _ (approvers_mono _ _ hash (Hk h r s)))) as Hw.
  rewrite (weight_same e) in Hw by done. destruct Hs as (_ & _ & _ & ->). lia.
Qed.

Lemma quorum_unique e h r s a b :
  roster_ok e → has_quorum e h r s a → has_quorum e h r s b → a = b.
Proof.
  intros Hr [Ha Hqa] [Hb Hqb]. destruct (decide (a = b)) as [|Hne]; [done|]. exfalso.
  pose proof (weight_mono e (dom (approvers (ballot_at e h r s) a) ∪ dom (approvers (ballot_at e h r s) b)) e.(validators) Hr
    ltac:(set_solver)) as Hw.
  rewrite weight_union in Hw by by apply approvers_disjoint. rewrite <- (ro_total e Hr) in Hw.
  pose proof (total_pos e Hr). lia.
Qed.

(* ------------------------------------------------------------------ *)
(** * What [OnVote] reports *)

(** The vote as it is counted. *)
Definition counted (v : BlockVote) : BlockVote :=
  set_Stage (if IsPrevote v then VoteStagePrevote else VoteStagePrecommit) v.

Lemma OnVote_counted now v e :
  thresholdMet (OnVote now v e).2 = true →
  ∃ e1, rtc engine_step e e1 ∧ isRegisteredValidator e1 v.(v_VoterID) = true ∧
    (OnVote now v e).1.1 = (tally_vote (counted v) e1).1 ∧ thresholdMet (tally_vote (counted v) e1).2 = true.
Proof.
  assert (OnVote now v e = processVoteInternal now (counted v) e) as ->.
  { unfold OnVote, counted. by destruct (IsPrevote v). }
  unfold processVoteInternal. destruct (isRegisteredValidator e _) eqn:Hr; [|done]. simpl.
  destruct (report_vote now (counted v) e) as [e1 calls] eqn:H1. destruct (tally_vote (counted v) e1) as [e2 r] eqn:H2. simpl.
  intros Hm. exists e1. rewrite H2. split_and!; try done.
  - apply rtc_once. rewrite <- (f_equal fst H1 : _ = e1). by apply es_report.
  - revert H1 Hr. unfold report_vote. destruct (slashTracker e); [|by intros [= <- _]].
    destruct (_ =? 1); [|by intros [= <- _]].
    destruct (RecordEquivocation _ _ _ _ _) as [[t calls'] err]. by intros [= <- _].
Qed.

Lemma stage_counted v : stage_of (counted v) = if IsPrevote v then VoteStagePrevote else VoteStagePrecommit.
Proof. unfold stage_of, counted. by destruct (IsPrevote v). Qed.

Lemma run_ok_pair e e' :
  roster_ok e → voters_ok e → rtc engine_step e e' → ballots_grow e e' ∧ roster_ok e' ∧ voters_ok e'.
Proof.
  intros Hr Hok Hs. pose proof (engine_run_grow _ _ (ro_some e Hr) Hs) as Hg.
  split_and!; [done|by eapply roster_ok_same; [apply Hg|]|by eapply voters_ok_grow].
Qed.

Lemma OnVote_quorum now v e :
  roster_ok e → voters_ok e → thresholdMet (OnVote now v e).2 = true →
  has_quorum (OnVote now v e).1.1 v.(v_Height) v.(v_Round) (stage_of (counted v)) v.(v_BlockHash).
Proof.
  intros Hr Hok (e1 & Hs & Hreg & -> & Hm)%OnVote_counted. destruct (run_ok_pair e e1 Hr Hok Hs) as (_ & Hr1 & Hok1).
  exact (tally_quorum (counted v) e1 Hr1 Hok1 Hreg Hm).
Qed.

(** Validators whose vote in a round went to another block are lost to this
    one, whatever happens later. *)
Lemma spent_votes_stuck now v e e' S :
  roster_ok e → voters_ok e → rtc engine_step e e' → IsPrevote v = false →
  (∀ id, id ∈ S → ∃ r, ballot_at e v.(v_Height) v.(v_Round) VoteStagePrecommit !! id = Some r ∧ r.(r_BlockHash) ≠ v.(v_BlockHash)) →
  weight e (e.(validators) ∖ S) < requiredPowerForFinality e →
  thresholdMet (OnVote now v e').2 = false.
Proof.
  intros Hr Hok Hs Hpv HS Hw. apply not_true_is_false. intros Hmet.
  destruct (OnVote_counted now v e' Hmet) as (e1 & Hs1 & Hreg & _ & Hm).
  destruct (run_ok_pair e e1 Hr Hok ltac:(by etrans)) as (Hg1 & Hr1 & Hok1).
  destruct (tally_cases (counted v) e1) as [[_ Hf]|[_ Ht]]; [by rewrite Hf in Hm|]. fold (stage_of (counted v)) in Ht.
  pose proof (record_vote_grow (counted v) (stage_of (counted v)) e1 (registered_in e1 _ (ro_some e1 Hr1) Hreg)) as Hg2.
  set (e2 := record_vote _ _ e1) in *. rewrite stage_counted, Hpv in Ht.
  assert (ballots_grow e e2) as Hg by by etrans. destruct (bg_roster _ _ Hg) as (_ & Hv & Hp & Htp).
  pose proof (roster_ok_same e e2 (bg_roster _ _ Hg) Hr) as Hr2. pose proof (voters_ok_grow e e2 Hg Hok) as Hok2.
  cbv zeta in Ht. rewrite Hm in Ht. symmetry in Ht. apply andb_true_iff in Ht as [_ Ht].
  rewrite orb_true_iff, Z.eqb_eq, Z.leb_le in Ht. pose proof (total_pos e2 Hr2). destruct Ht as [?|Ht]; [lia|].
  set (m := ballot_at e2 _ _ _) in *. change (v_BlockHash (counted v)) with (v_BlockHash v) in *.
  assert (dom (approvers m (v_BlockHash v)) ⊆ e.(validators) ∖ S) as Hd.
  { intros id Hid. apply elem_of_difference. split; [rewrite <- Hv; eapply (Hok2 _ _ _), dom_approvers, Hid|].
    intros HidS. destruct (HS id HidS) as (r & Hl & Hne). apply elem_of_dom in Hid as [r' [Hl' [Heq _]]%map_lookup_filter_Some].
    pose proof (lookup_weaken _ _ _ _ Hl (bg_kept _ _ Hg _ _ _)) as Hl2.
    change (m !! id = Some r) in Hl2. simpl in Heq. congruence. }
  rewrite (votes_power_weight e2 m _ Hr2) in Ht by (rewrite Hv; set_solver).
  pose proof (weight_mono e2 _ _ Hr2 Hd) as Hw2. rewrite (weight_same e e2 (e.(validators) ∖ S)) in Hw2 by apply Hg.
  assert (requiredPowerForFinality e2 = requiredPowerForFinality e) as Hreq by by unfold requiredPowerForFinality; rewrite Htp.
  lia.
Qed.

(* ------------------------------------------------------------------ *)
(** * Runs in which the roster changes *)

(** Everything that happens to a live engine: the critical sections, a vote
    being counted under whatever roster there is by then, and the changes of
    roster and powers. *)
Inductive engine_event : Engine → Engine → Prop :=
  | ev_proposal now b e : engine_event e (OnProposal now b e).1
  | ev_proposal_round now b round e : engine_event e (OnProposalWithRound now b round e).1
  | ev_own b round e : engine_event e (RecordOwnProposalWithRound b round e)
  | ev_missed now id e : engine_event e (NoteMissedSlot now id e).1
  | ev_report now v e : engine_event e (report_vote now v e).1
  | ev_tally v e : engine_event e (tally_vote v e).1
  | ev_tracker t e : engine_event e (SetSlashingTracker t e)
  | ev_validators ids e : engine_event e (SetValidators ids e)
  | ev_power id p e : engine_event e (SetValidatorPower id p e)
  | ev_powers ps e : engine_event e (SetValidatorPowers ps e).

Definition ballots_kept (e e' : Engine) : Prop := ∀ h r s, ballot_at e h r s ⊆ ballot_at e' h r s.

Lemma report_proposal_kept now b e : ballots_kept e (report_proposal now b e).1.
Proof. exact (bg_kept _ _ (report_proposal_grow now b e)). Qed.

Lemma record_vote_kept v stage e : ballots_kept e (record_vote v stage e).
Proof. intros h r s. rewrite ballot_record. case_decide; [apply cast_mono|done]. Qed.

Lemma tally_kept v e : ballots_kept e (tally_vote v e).1.
Proof.
  intros h r s. destruct (tally_cases v e) as [[-> _]|[Hg _]]; [done|].
  etrans; [apply record_vote_kept|]. apply (bg_kept _ _ Hg).
Qed.

(** Whatever happens, no recorded vote is lost or changed. *)
Lemma engine_event_kept e e' : engine_event e e' → ballots_kept e e'.
Proof.
  destruct 1 as [now b e|now b round e|b round e|now id e|now v e|v e|t e|ids e|id p e|ps e]; intros h r s; try done.
  - unfold OnProposal. destruct b as [b|]; [|done]. destruct (empty_str _); [done|]. by etrans; [|apply report_proposal_kept].
  - unfold OnProposalWithRound. destruct b as [b|]; [|done]. destruct (empty_str _); [done|]. by etrans; [|apply report_proposal_kept].
  - by rewrite own_ballot.
  - unfold NoteMissedSlot. destruct (slashTracker e); [|done]. destruct (empty_str id); [done|].
    by destruct (RecordMissedBlock _ _ _) as [[t calls] err].
  - unfold report_vote. destruct (slashTracker e); [|done]. destruct (_ =? 1); [|done].
    by destruct (RecordEquivocation _ _ _ _ _) as [[t calls] err].
  - apply tally_kept.
Qed.

Lemma engine_events_kept e e' : rtc engine_event e e' → ballots_kept e e'.
Proof.
  induction 1 as [|e e1 e' Hs _ IH]; [by intros h r s|]. intros h r s. etrans; [by apply engine_event_kept|apply IH].
Qed.

(** The power counted never exceeds that of the voters. *)
Lemma votes_power_le e m hash : roster_ok e → votes_power e m hash ≤ weight e (dom (approvers m hash)).
Proof.
  intros Hr. unfold votes_power, weight. rewrite elements_dom_list.
  assert (∀ l acc, 0 ≤ acc → foldl (λ acc (kv : string * voteRecord), u64 (acc + vote_power e kv.1)) acc l ≤ acc + lsum (vote_power e) (l.*1)) as Hf;
    [|apply (Hf _ 0); lia].
  induction l as [|[id r] l IH]; intros acc Ha; [simpl; lia|]. rewrite fmap_cons, lsum_cons; cbn [foldl fst].
  pose proof (vote_power_pos e id Hr). pose proof (u64_range (acc + vote_power e id)) as [? _].
  assert (u64 (acc + vote_power e id) ≤ acc + vote_power e id) by (apply Z.mod_le; lia).
  pose proof (IH (u64 (acc + vote_power e id)) ltac:(lia)). lia.
Qed.

(** A met threshold is two thirds of the power there is when it is met, in
    recorded votes of whoever was registered when their votes came in. *)
Lemma OnVote_power now v e :
  roster_ok e → thresholdMet (OnVote now v e).2 = true →
  let e' := (OnVote now v e).1.1 in
  same_roster e e' ∧ ballots_kept e e' ∧
  2 * e'.(totalPower) ≤ 3 * weight e' (dom (approvers (ballot_at e' v.(v_Height) v.(v_Round) (stage_of (counted v))) v.(v_BlockHash))).
Proof.
  intros Hr Hm e'. pose proof (engine_run_grow _ _ (ro_some e Hr) (OnVote_steps now v e)) as [Hsr Hk _]. fold e' in Hsr, Hk.
  split; [exact Hsr|]. split; [exact Hk|].
  destruct (OnVote_counted now v e Hm) as (e1 & Hs & Hreg & He' & Hm'). unfold e' in *. rewrite He'.
  pose proof (roster_ok_same e e1 (bg_roster _ _ (engine_run_grow _ _ (ro_some e Hr) Hs)) Hr) as Hr1.
  destruct (tally_cases (counted v) e1) as [[_ Hf]|[Hg' Ht]]; [by rewrite Hf in Hm'|]. fold (stage_of (counted v)) in *.
  pose proof (record_vote_grow (counted v) (stage_of (counted v)) e1 (registered_in e1 _ (ro_some _ Hr1) Hreg)) as Hrg.
  set (e2 := record_vote (counted v) (stage_of (counted v)) e1) in *. pose proof (roster_ok_same e1 e2 (bg_roster _ _ Hrg) Hr1) as Hr2.
  cbv zeta in Ht. rewrite Hm' in Ht. symmetry in Ht. apply andb_true_iff in Ht as [_ Ht].
  rewrite orb_true_iff, Z.eqb_eq, Z.leb_le in Ht. pose proof (total_pos e2 Hr2). destruct Ht as [?|Ht]; [lia|].
  pose proof (votes_power_le e2 (ballot_at e2 (v_Height (counted v)) (v_Round (counted v)) (stage_of (counted v))) (v_BlockHash (counted v)) Hr2).
  pose proof (requiredPower_exact e2 Hr2) as [Hq _].
  destruct Hg' as [Hs2 Hk2 _]. pose proof (roster_ok_same e2 _ Hs2 Hr2) as Hr3.
  pose proof (weight_mono _ _ _ Hr3 (subseteq_dom _ _ (approvers_mono _ _ (v_BlockHash (counted v)) (Hk2 (v_Height (counted v)) (v_Round (counted v)) (stage_of (counted v)))))) as Hw.
  rewrite (weight_same e2) in Hw by done. destruct Hs2 as (_ & _ & _ & ->).
  change (v_Height (counted v)) with (v_Height v) in *. change (v_Round (counted v)) with (v_Round v) in *.
  change (v_BlockHash (counted v)) with (v_BlockHash v) in *. lia.
Qed.

(** Disjoint quorums leave little to the first one. *)
Lemma quorum_displaced e (A B : gset string) :
  roster_ok e → A ## B → B ⊆ e.(validators) → 2 * e.(totalPower) ≤ 3 * weight e B →
  3 * weight e (A ∩ e.(validators)) ≤ e.(totalPower).
Proof.
  intros Hr Hd Hb Hq. pose proof (weight_mono e ((A ∩ e.(validators)) ∪ B) e.(validators) Hr ltac:(set_solver)) as Hw.
  rewrite weight_union in Hw by set_solver. rewrite <- (ro_total e Hr) in Hw. lia.
Qed.

(** [SetValidators] on distinct IDs gives a sound roster. *)
Lemma SetValidators_ok ids e :
  NoDup ids → (∃ id, id ∈ ids ∧ id ≠ "") → 2 * Z.of_nat (length ids) + 2 ≤ MaxUint64 → roster_ok (SetValidators ids e).
Proof.
  intros Hnd (id & Hid & Hne) Hsm. set (ids' := filter (λ id, id ≠ "") ids).
  assert (length ids' ≤ length ids)%nat as Hlen by apply length_filter.
  assert (NoDup ids') as Hnd' by by apply NoDup_filter.
  assert (∀ x, default 0 ((list_to_map ((λ id, (id, 1)) <$> ids') : gmap string Z) !! x) ∈ [0; 1]) as Hp.
  { intros x. destruct (_ !! x) as [p|] eqn:Hl; simpl; [|set_solver].
    apply elem_of_list_to_map_2, list_elem_of_fmap in Hl as (? & [= _ ->] & _). set_solver. }
  assert (totalPower (SetValidators ids e) = Z.of_nat (length ids')) as Ht.
  { unfold SetValidators. simpl. fold ids'. apply u64_small. split; lia. }
  split.
  - unfold SetValidators. simpl. fold ids'. intros He.
    assert (id ∈ (list_to_set ids' : gset string)) as Hin; [|by rewrite He in Hin; set_solver].
    apply elem_of_list_to_set. by apply list_elem_of_filter.
  - intros x p Hl. specialize (Hp x). unfold SetValidators in Hl. simpl in Hl. fold ids' in Hl. rewrite Hl in Hp. set_solver by lia.
  - rewrite Ht. unfold weight, SetValidators, vote_power. simpl. fold ids'. rewrite (elements_list_to_set ids') by done.
    rewrite (lsum_ext _ (λ _, 1)).
    + clear. induction ids' as [|x l IH]; [done|]. rewrite lsum_cons. simpl length. lia.
    + intros x _. specialize (Hp x). rewrite !elem_of_cons, elem_of_nil in Hp. destruct Hp as [->|[->|[]]]; done.
  - rewrite Ht. lia.
Qed.

(* ------------------------------------------------------------------ *)
(** * The candidate of a height *)

Definition observe (now : Time) (e : Engine) (b : Block) : Engine := (OnProposal now (Some b) e).1.

Definition add_candidate (m : gmap Z Block) (b : Block) : gmap Z Block :=
  if empty_str b.(Hash) then m else <[b.(Header).(Height) := prefer b (m !! b.(Header).(Height))]> m.

Lemma observe_proposals now l e :
  (foldl (observe now) e l).(proposalsByHeight) = foldl add_candidate e.(proposalsByHeight) l.
Proof.
  revert e. induction l as [|b l IH]; intros e; simpl; [done|]. rewrite IH. f_equal.
  unfold observe, OnProposal, add_candidate. destruct (empty_str _); [done|].
  unfold report_proposal. simpl. destruct (slashTracker e); [|done]. destruct (empty_str _); [done|].
  by destruct (DetectDoubleSigning _ _ _ _) as [[t calls] err].
Qed.

(** In [U] a hash identifies a block. *)
Definition hash_unique (U : list Block) : Prop := ∀ a b, a ∈ U → b ∈ U → a.(Hash) = b.(Hash) → a = b.

Lemma prefer_comm U a b o :
  hash_unique U → a ∈ U → b ∈ U → (∀ x, o = Some x → x ∈ U) →
  prefer a (Some (prefer b o)) = prefer b (Some (prefer a o)).
Proof.
  intros Hu Ha Hb Ho. unfold prefer.
  assert (∀ x y, x ∈ U → y ∈ U → str_lt x.(Hash) y.(Hash) = false → str_lt y.(Hash) x.(Hash) = false → x = y) as Htot.
  { intros x y Hx Hy H1 H2. apply Hu; [done..|]. by apply str_lt_total. }
  assert (∀ x y, str_lt x y = true → str_lt y x = false) as Hasym by (intros; by apply (less_asym str_lt)).
  destruct o as [x|].
  - specialize (Ho x eq_refl).
    destruct (str_lt b.(Hash) x.(Hash)) eqn:Hbx, (str_lt a.(Hash) x.(Hash)) eqn:Hax; rewrite ?Hbx, ?Hax; try done;
      destruct (str_lt a.(Hash) b.(Hash)) eqn:Hab; try rewrite (Hasym _ _ Hab); try done.
    + destruct (str_lt b.(Hash) a.(Hash)) eqn:Hba; [done|]. by apply Htot.
    + by rewrite (str_lt_trans _ _ _ Hab Hbx) in Hax.
    + destruct (str_lt b.(Hash) a.(Hash)) eqn:Hba; [|done]. by rewrite (str_lt_trans _ _ _ Hba Hax) in Hbx.
  - destruct (str_lt a.(Hash) b.(Hash)) eqn:Hab; [by rewrite (Hasym _ _ Hab)|].
    destruct (str_lt b.(Hash) a.(Hash)) eqn:Hba; [done|]. symmetry. by apply Htot.
Qed.

Lemma prefer_in (U : list Block) b o : b ∈ U → (∀ x, o = Some x → x ∈ U) → prefer b o ∈ U.
Proof. intros Hb Ho. unfold prefer. destruct o as [x|]; [|done]. destruct (str_lt _ _); [done|by apply Ho]. Qed.

Lemma add_candidate_in (U : list Block) m b : b ∈ U → map_Forall (λ _ x, x ∈ U) m → map_Forall (λ _ x, x ∈ U) (add_candidate m b).
Proof.
  intros Hb Hm. unfold add_candidate. destruct (empty_str _); [done|]. apply map_Forall_insert_2; [|done].
  apply prefer_in; [done|]. intros x Hx. by apply (Hm (Height (Header b))).
Qed.

Lemma add_candidate_comm U m a b :
  hash_unique U → a ∈ U → b ∈ U → map_Forall (λ _ x, x ∈ U) m →
  add_candidate (add_candidate m a) b = add_candidate (add_candidate m b) a.
Proof.
  intros Hu Ha Hb Hm. unfold add_candidate. destruct (empty_str a.(Hash)), (empty_str b.(Hash)); try done.
  destruct (decide (Height (Header a) = Height (Header b))) as [Heq|Hne].
  - rewrite Heq, !lookup_insert_eq, !insert_insert_eq. f_equal. eapply prefer_comm; try done.
    intros x Hx. by apply (Hm (Height (Header b))).
  - rewrite !lookup_insert_ne by done. by rewrite insert_insert_ne.
Qed.

Lemma candidates_order U l1 l2 m :
  hash_unique U → l1 ≡ₚ l2 → Forall (λ b, b ∈ U) l1 → map_Forall (λ _ x, x ∈ U) m →
  foldl add_candidate m l1 = foldl add_candidate m l2.
Proof.
  intros Hu Hp. revert m. induction Hp as [|b l1 l2 Hp IH|a b l|l1 l2 l3 H1 IH1 H2 IH2]; intros m Hl Hm; simpl.
  - done.
  - inversion_clear Hl. apply IH; [done|by apply add_candidate_in].
  - inversion_clear Hl as [|?? Hb Hl']. inversion_clear Hl'. by rewrite (add_candidate_comm U m b a).
  - rewrite IH1, IH2; try done. by rewrite <- H1.
Qed.

Lemma candidates_least l m b :
  (b ∈ l ∧ b.(Hash) ≠ "" ∨ m !! b.(Header).(Height) = Some b) →
  ∃ c, foldl add_candidate m l !! b.(Header).(Height) = Some c ∧ str_lt b.(Hash) c.(Hash) = false.
Proof.
  assert (∀ l m h x, m !! h = Some x →
    ∃ c, foldl add_candidate m l !! h = Some c ∧ str_lt x.(Hash) c.(Hash) = false) as Hkeep.
  { clear. intros l. induction l as [|a l IH]; intros m h x Hx; simpl; [exists x; split; [done|apply str_lt_irrefl]|].
    unfold add_candidate at 2. destruct (empty_str _); [by apply IH|].
    destruct (decide (Height (Header a) = h)) as [<-|Hne]; [|apply IH; by rewrite lookup_insert_ne].
    rewrite Hx. unfold prefer. destruct (str_lt a.(Hash) x.(Hash)) eqn:Hax; [|apply IH; by rewrite lookup_insert_eq].
    destruct (IH (<[Height (Header a) := a]> m) (Height (Header a)) a) as (c & Hc & Hlt); [by rewrite lookup_insert_eq|].
    exists c. split; [done|]. destruct (str_lt x.(Hash) c.(Hash)) eqn:Hxc; [|done].
    by rewrite (str_lt_trans _ _ _ Hax Hxc) in Hlt. }
  intros [[Hb Hne]|Hm]; [|by apply Hkeep]. revert m. induction l as [|a l IH]; intros m; [by apply elem_of_nil in Hb|].
  apply elem_of_cons in Hb as [<-|Hb]; [|by apply IH]. simpl.
  destruct (Hkeep l (add_candidate m b) (Height (Header b)) (prefer b (m !! Height (Header b)))) as (c & Hc & Hlt).
  { unfold add_candidate, empty_str. rewrite bool_decide_eq_false_2 by done. by rewrite lookup_insert_eq. }
  exists c. split; [done|]. unfold prefer in Hlt. destruct (m !! _) as [x|]; [|done].
  destruct (str_lt b.(Hash) x.(Hash)) eqn:Hbx; [done|]. destruct (str_lt b.(Hash) c.(Hash)) eqn:Hbc; [|done].
  destruct (less_cotrans str_lt _ x.(Hash) _ Hbc) as [H|H]; congruence.
Qed.
