(* ===== verification/Chain.v ===== *)
(** The chain (internal/chain/chain.go): finalized blocks, live state and
    mempool; admission, block building, validation and finalization, the
    bounded in-memory window of blocks, and fork choice.

    [time.Now()] is an argument. Blocks are values: the one effect validation
    has on the block it is given, sorting the metadata of the transactions
    whose signatures it checks, is returned. *)
From stdpp Require Import base strings list gmap.
From S2P Require Import Prelude GoStd Sha256 Json Types Ledger TxModel Merkle Dex Staking.
From S2P Require Import Apply Fees Block.

#[local] Open Scope string_scope.
#[local] Open Scope Z_scope.

Record StateCorrection : Type := mkCorrection {
  corr_Height : Z;
  corr_Address : Address;
  Debit : Z
}.

Record Chain : Type := mkChain {
  c_ChainID : string;
  c_TxChainID : Z;
  c_State : State;
  c_DEX : gmap string Pool;
  Blocks : list Block;
  Mempool : gmap string Tx;
  validatorKeys : gmap string string;
  requiredQuorum : Z;
  genesisState : option State;
  authEnforceFromHeight : Z;
  stateRootEnforceFromHeight : Z;
  stateCorrections : list StateCorrection;
  validatorStaking : ValidatorStakingParams;
  hotWindowStart : Z;
  maxHotBlocks : Z;
  coldBlocks : option (Z → option Block);
  hotWindowBaseState : option State;
  hotWindowBaseBlock : option Block
}.

(** Field updates. *)
Definition set_State (x : State) (c : Chain) : Chain :=
  mkChain c.(c_ChainID) c.(c_TxChainID) x c.(c_DEX) c.(Blocks) c.(Mempool) c.(validatorKeys)
    c.(requiredQuorum) c.(genesisState) c.(authEnforceFromHeight) c.(stateRootEnforceFromHeight)
    c.(stateCorrections) c.(validatorStaking) c.(hotWindowStart) c.(maxHotBlocks) c.(coldBlocks)
    c.(hotWindowBaseState) c.(hotWindowBaseBlock).
Definition set_DEX (x : gmap string Pool) (c : Chain) : Chain :=
  mkChain c.(c_ChainID) c.(c_TxChainID) c.(c_State) x c.(Blocks) c.(Mempool) c.(validatorKeys)
    c.(requiredQuorum) c.(genesisState) c.(authEnforceFromHeight) c.(stateRootEnforceFromHeight)
    c.(stateCorrections) c.(validatorStaking) c.(hotWindowStart) c.(maxHotBlocks) c.(coldBlocks)
    c.(hotWindowBaseState) c.(hotWindowBaseBlock).
Definition set_Blocks (x : list Block) (c : Chain) : Chain :=
  mkChain c.(c_ChainID) c.(c_TxChainID) c.(c_State) c.(c_DEX) x c.(Mempool) c.(validatorKeys)
    c.(requiredQuorum) c.(genesisState) c.(authEnforceFromHeight) c.(stateRootEnforceFromHeight)
    c.(stateCorrections) c.(validatorStaking) c.(hotWindowStart) c.(maxHotBlocks) c.(coldBlocks)
    c.(hotWindowBaseState) c.(hotWindowBaseBlock).
Definition set_Mempool (x : gmap string Tx) (c : Chain) : Chain :=
  mkChain c.(c_ChainID) c.(c_TxChainID) c.(c_State) c.(c_DEX) c.(Blocks) x c.(validatorKeys)
    c.(requiredQuorum) c.(genesisState) c.(authEnforceFromHeight) c.(stateRootEnforceFromHeight)
    c.(stateCorrections) c.(validatorStaking) c.(hotWindowStart) c.(maxHotBlocks) c.(coldBlocks)
    c.(hotWindowBaseState) c.(hotWindowBaseBlock).
Definition set_validatorKeys (x : gmap string string) (c : Chain) : Chain :=
  mkChain c.(c_ChainID) c.(c_TxChainID) c.(c_State) c.(c_DEX) c.(Blocks) c.(Mempool) x
    c.(requiredQuorum) c.(genesisState) c.(authEnforceFromHeight) c.(stateRootEnforceFromHeight)
    c.(stateCorrections) c.(validatorStaking) c.(hotWindowStart) c.(maxHotBlocks) c.(coldBlocks)
    c.(hotWindowBaseState) c.(hotWindowBaseBlock).
Definition set_requiredQuorum (x : Z) (c : Chain) : Chain :=
  mkChain c.(c_ChainID) c.(c_TxChainID) c.(c_State) c.(c_DEX) c.(Blocks) c.(Mempool)
    c.(validatorKeys) x c.(genesisState) c.(authEnforceFromHeight) c.(stateRootEnforceFromHeight)
    c.(stateCorrections) c.(validatorStaking) c.(hotWindowStart) c.(maxHotBlocks) c.(coldBlocks)
    c.(hotWindowBaseState) c.(hotWindowBaseBlock).
Definition set_genesisState (x : option State) (c : Chain) : Chain :=
  mkChain c.(c_ChainID) c.(c_TxChainID) c.(c_State) c.(c_DEX) c.(Blocks) c.(Mempool)
    c.(validatorKeys) c.(requiredQuorum) x c.(authEnforceFromHeight) c.(stateRootEnforceFromHeight)
    c.(stateCorrections) c.(validatorStaking) c.(hotWindowStart) c.(maxHotBlocks) c.(coldBlocks)
    c.(hotWindowBaseState) c.(hotWindowBaseBlock).
Definition set_authEnforceFromHeight (x : Z) (c : Chain) : Chain :=
  mkChain c.(c_ChainID) c.(c_TxChainID) c.(c_State) c.(c_DEX) c.(Blocks) c.(Mempool)
    c.(validatorKeys) c.(requiredQuorum) c.(genesisState) x c.(stateRootEnforceFromHeight)
    c.(stateCorrections) c.(validatorStaking) c.(hotWindowStart) c.(maxHotBlocks) c.(coldBlocks)
    c.(hotWindowBaseState) c.(hotWindowBaseBlock).
Definition set_stateRootEnforceFromHeight (x : Z) (c : Chain) : Chain :=
  mkChain c.(c_ChainID) c.(c_TxChainID) c.(c_State) c.(c_DEX) c.(Blocks) c.(Mempool)
    c.(validatorKeys) c.(requiredQuorum) c.(genesisState) c.(authEnforceFromHeight) x
    c.(stateCorrections) c.(validatorStaking) c.(hotWindowStart) c.(maxHotBlocks) c.(coldBlocks)
    c.(hotWindowBaseState) c.(hotWindowBaseBlock).
Definition set_stateCorrections (x : list StateCorrection) (c : Chain) : Chain :=
  mkChain c.(c_ChainID) c.(c_TxChainID) c.(c_State) c.(c_DEX) c.(Blocks) c.(Mempool)
    c.(validatorKeys) c.(requiredQuorum) c.(genesisState) c.(authEnforceFromHeight)
    c.(stateRootEnforceFromHeight) x c.(validatorStaking) c.(hotWindowStart) c.(maxHotBlocks)
    c.(coldBlocks) c.(hotWindowBaseState) c.(hotWindowBaseBlock).
Definition set_validatorStaking (x : ValidatorStakingParams) (c : Chain) : Chain :=
  mkChain c.(c_ChainID) c.(c_TxChainID) c.(c_State) c.(c_DEX) c.(Blocks) c.(Mempool)
    c.(validatorKeys) c.(requiredQuorum) c.(genesisState) c.(authEnforceFromHeight)
    c.(stateRootEnforceFromHeight) c.(stateCorrections) x c.(hotWindowStart) c.(maxHotBlocks)
    c.(coldBlocks) c.(hotWindowBaseState) c.(hotWindowBaseBlock).
Definition set_hotWindowStart (x : Z) (c : Chain) : Chain :=
  mkChain c.(c_ChainID) c.(c_TxChainID) c.(c_State) c.(c_DEX) c.(Blocks) c.(Mempool)
    c.(validatorKeys) c.(requiredQuorum) c.(genesisState) c.(authEnforceFromHeight)
    c.(stateRootEnforceFromHeight) c.(stateCorrections) c.(validatorStaking) x c.(maxHotBlocks)
    c.(coldBlocks) c.(hotWindowBaseState) c.(hotWindowBaseBlock).
Definition set_maxHotBlocks (x : Z) (c : Chain) : Chain :=
  mkChain c.(c_ChainID) c.(c_TxChainID) c.(c_State) c.(c_DEX) c.(Blocks) c.(Mempool)
    c.(validatorKeys) c.(requiredQuorum) c.(genesisState) c.(authEnforceFromHeight)
    c.(stateRootEnforceFromHeight) c.(stateCorrections) c.(validatorStaking) c.(hotWindowStart) x
    c.(coldBlocks) c.(hotWindowBaseState) c.(hotWindowBaseBlock).
Definition set_coldBlocks (x : option (Z → option Block)) (c : Chain) : Chain :=
  mkChain c.(c_ChainID) c.(c_TxChainID) c.(c_State) c.(c_DEX) c.(Blocks) c.(Mempool)
    c.(validatorKeys) c.(requiredQuorum) c.(genesisState) c.(authEnforceFromHeight)
    c.(stateRootEnforceFromHeight) c.(stateCorrections) c.(validatorStaking) c.(hotWindowStart)
    c.(maxHotBlocks) x c.(hotWindowBaseState) c.(hotWindowBaseBlock).
Definition set_hotWindowBaseState (x : option State) (c : Chain) : Chain :=
  mkChain c.(c_ChainID) c.(c_TxChainID) c.(c_State) c.(c_DEX) c.(Blocks) c.(Mempool)
    c.(validatorKeys) c.(requiredQuorum) c.(genesisState) c.(authEnforceFromHeight)
    c.(stateRootEnforceFromHeight) c.(stateCorrections) c.(validatorStaking) c.(hotWindowStart)
    c.(maxHotBlocks) c.(coldBlocks) x c.(hotWindowBaseBlock).
Definition set_hotWindowBaseBlock (x : option Block) (c : Chain) : Chain :=
  mkChain c.(c_ChainID) c.(c_TxChainID) c.(c_State) c.(c_DEX) c.(Blocks) c.(Mempool)
    c.(validatorKeys) c.(requiredQuorum) c.(genesisState) c.(authEnforceFromHeight)
    c.(stateRootEnforceFromHeight) c.(stateCorrections) c.(validatorStaking) c.(hotWindowStart)
    c.(maxHotBlocks) c.(coldBlocks) c.(hotWindowBaseState) x.

Definition ErrNoGenesis : error := Err "genesis not initialized".
Definition ErrBadBlock : error := Err "bad block".
Definition ErrStateRootMismatch : error := Err "bad block: state root mismatch".

(* ------------------------------------------------------------------ *)
(** * Configuration *)

(** [NewChain] *)
Definition genesis_block (g : Genesis) (st : State) : Block :=
  mkBlock (mkHeader 0 "0x0" (Unix 0) "genesis" EmptyTxMerkleRoot
             (default (Root st) (Genesis.PinnedGenesisStateRoot g)) "")
    None "" ∅ true "" ∅.

Definition NewChain (g : Genesis) : res Chain :=
  match Genesis.ToState g with
  | inr e => inr e
  | inl st =>
      let gb := genesis_block g st in
      match (match Genesis.PinnedGenesisHash g with
             | Some h => inl (set_Hash h gb)
             | None => match ComputeHash gb with (gb, inl _) => inl gb | (_, inr e) => inr e end
             end) with
      | inr e => inr e
      | inl gb =>
          inl (mkChain g.(g_ChainID) (Genesis.TransactionChainID g) st (DEX.SyncFromState st) [gb] ∅
                 ∅ 0 (Some (Clone st)) 0 0 [] (mkParams 0 0 0 0 0 0 0 0) 0 0 None None None)
      end
  end.

(** [SetValidatorSet] *)
Definition SetValidatorSet (keys : gmap string string) (quorum : Z) (c : Chain) : Chain :=
  set_requiredQuorum (if quorum <? 1 then 1 else quorum) (set_validatorKeys keys c).

(** [SetAuthEnforceFromHeight], [SetStateRootEnforceFromHeight],
    [SetIrregularStateCorrections], [SetValidatorStakingParams] *)
Definition SetAuthEnforceFromHeight : Z → Chain → Chain := set_authEnforceFromHeight.
Definition SetStateRootEnforceFromHeight : Z → Chain → Chain := set_stateRootEnforceFromHeight.
Definition SetIrregularStateCorrections : list StateCorrection → Chain → Chain := set_stateCorrections.
Definition SetValidatorStakingParams : ValidatorStakingParams → Chain → Chain := set_validatorStaking.

(** [SeedGenesisState] *)
Definition SeedGenesisState (s : option State) (c : Chain) : Chain :=
  match s with None => c | Some s => set_genesisState (Some (Clone s)) c end.

(** [ReapplyGenesisCitizenRewardConfig] *)
Definition reapply_config (g s : State) : State :=
  set_CitizenRewardRateBpsPerYear g.(CitizenRewardRateBpsPerYear)
    (set_TreasuryAddress g.(TreasuryAddress) s).

Definition ReapplyGenesisCitizenRewardConfig (g : option State) (c : Chain) : Chain :=
  match g with
  | None => c
  | Some g =>
      set_hotWindowBaseState (reapply_config g <$> c.(hotWindowBaseState))
        (set_State (reapply_config g c.(c_State)) c)
  end.

(** [transactionChainIDLocked] *)
Definition transactionChainID (c : Chain) : Z := if c.(c_TxChainID) =? 0 then 1 else c.(c_TxChainID).

(** [tipLocked], [heightLocked] *)
Definition tip (c : Chain) : option Block := last c.(Blocks).
Definition chain_height (c : Chain) : Z :=
  match tip c with None => 0 | Some b => b.(Header).(Height) end.

(* ------------------------------------------------------------------ *)
(** * Block state transition *)

Section with_ed25519.
Context `{E : Ed25519}.

(** [applyTxLocked]: the legacy chain sets no block time. *)
Definition applyTx (c : Chain) (tx : Tx) (height : Z) : SM State unit :=
  ApplyTransaction tx (mkTxContext height c.(c_ChainID) c.(validatorStaking) 0).

(** [applyIrregularStateCorrectionsLocked] *)
Definition apply_correction (corr : StateCorrection) (st : State) : State :=
  let acc := Get st corr.(corr_Address) in
  Set_ corr.(corr_Address)
    (set_Balance (if corr.(Debit) <? acc.(Balance) then acc.(Balance) - corr.(Debit) else 0) acc) st.

Definition applyIrregularStateCorrections (c : Chain) (height : Z) (st : State) : State :=
  foldl (λ st corr, if negb (corr.(corr_Height) =? height) then st else apply_correction corr st)
    st c.(stateCorrections).

(** [finishBlockStateLocked] *)
Definition finishBlockState (c : Chain) (height : Z) (st : State) : State :=
  let st := applyIrregularStateCorrections c height st in
  if isSnapshotHeight c.(validatorStaking) height
  then setValidatorSetSnapshot (ActiveValidatorSet st c.(validatorStaking)) st else st.

(** [resolveProposerAddressLocked] *)
Definition resolveProposerAddress (c : Chain) (proposerID : string) : Address :=
  match c.(validatorKeys) !! proposerID with
  | Some pub => if slen pub =? 32 then AddressFromPublicKey pub else ""
  | None => ""
  end.

(** [proposerAddressLocked] *)
Definition proposerAddress (c : Chain) (pre : State) (height : Z) (proposerID : string) : Address :=
  let set := AuthorizingValidatorSet pre in
  if ConsensusActiveAt c.(validatorStaking) height && negb (bool_decide (set = [])) then
    match list_find (λ v, v.(av_ConsensusPubKey) = ToLower proposerID) set with
    | Some (_, v) => v.(av_Operator)
    | None => ""
    end
  else resolveProposerAddress c proposerID.

(** The transactions of a block, in order. *)
Fixpoint applyTxs (c : Chain) (txs : list Tx) (height : Z) : SM State unit :=
  match txs with
  | [] => mret tt
  | tx :: txs => applyTx c tx height;; applyTxs c txs height
  end.

(** The state a block leaves: its transactions, the proposer's reward, the
    end-of-block steps. Shared by validation, finalization and the hot-window
    checkpoint, which all start from a clone. *)
Definition block_transition (c : Chain) (pre : State) (txs : list Tx) (height : Z) (proposerID : string) : SM State unit :=
  applyTxs c txs height;;
  creditProposerFees txs (proposerAddress c pre height proposerID);;
  modify (finishBlockState c height).

(** What block [b] makes of state [pre]. *)
Definition next_state (c : Chain) (pre : State) (b : Block) : State * res unit :=
  block_transition c pre (txs_of b) b.(Header).(Height) b.(Header).(ProposerID) (Clone pre).

(* ------------------------------------------------------------------ *)
(** * The hot window *)

(** [hotWindowBaseStateLocked], [hotWindowBaseBlockLocked] *)
Definition baseState (c : Chain) : option State :=
  if c.(hotWindowStart) =? 0 then c.(genesisState) else c.(hotWindowBaseState).
Definition baseBlock (c : Chain) : option Block :=
  if c.(hotWindowStart) =? 0 then head c.(Blocks) else c.(hotWindowBaseBlock).

(** [advanceCheckpointStateLocked] over the blocks to be evicted. *)
Fixpoint advance_checkpoint (c : Chain) (st : State) (bs : list Block) : res State :=
  match bs with
  | [] => inl st
  | b :: bs =>
      match next_state c st b with
      | (st', inl _) => advance_checkpoint c st' bs
      | (_, inr e) => inr e
      end
  end.

(** [trimHotWindowLocked] *)
Definition trimHotWindow (c : Chain) : Chain :=
  let excess := Z.of_nat (length c.(Blocks)) - c.(maxHotBlocks) in
  if (c.(maxHotBlocks) <=? 0) || (excess <=? 0) then c
  else
    match baseState c with
    | None => c
    | Some base =>
        match advance_checkpoint c (Clone base) (take (Z.to_nat excess) c.(Blocks)) with
        | inr _ => c
        | inl next =>
            set_hotWindowStart (u64 (c.(hotWindowStart) + excess))
              (set_Blocks (drop (Z.to_nat excess) c.(Blocks))
              (set_hotWindowBaseBlock (c.(Blocks) !! Z.to_nat (excess - 1))
              (set_hotWindowBaseState (Some next) c)))
        end
    end.

(** [SetHotWindow] *)
Definition SetHotWindow (maxHot : Z) (cold : option (Z → option Block)) (c : Chain) : Chain :=
  trimHotWindow (set_coldBlocks cold (set_maxHotBlocks maxHot c)).

(** [RestoreHotWindow] *)
Definition RestoreHotWindow (start : Z) (base : option State) (blk : option Block)
    (maxHot : Z) (cold : option (Z → option Block)) (c : Chain) : Chain :=
  let c := set_hotWindowStart start c in
  let c := match base with Some s => set_hotWindowBaseState (Some (Clone s)) c | None => c end in
  let c := match blk with Some b => set_hotWindowBaseBlock (Some b) c | None => c end in
  trimHotWindow (set_coldBlocks cold (set_maxHotBlocks maxHot c)).

(** [blockAtLocked], [BlockAt] *)
Definition blockAt (c : Chain) (height : Z) : option Block * bool :=
  match tip c with
  | None => (None, false)
  | Some t =>
      if t.(Header).(Height) <? height then (None, false)
      else if height <? c.(hotWindowStart) then (None, true)
      else
        match c.(Blocks) !! Z.to_nat (height - c.(hotWindowStart)) with
        | Some b => (Some b, false)
        | None => (None, true)
        end
  end.

Definition BlockAt (c : Chain) (height : Z) : option Block :=
  match blockAt c height, c.(coldBlocks) with
  | (None, true), Some reader => reader height
  | (blk, _), _ => blk
  end.

(** The loop of [BlocksRange] over the archive: [n] heights from [h]. *)
Fixpoint read_cold (reader : Z → option Block) (n : nat) (h : Z) (limit : Z) (out : list Block) : list Block * bool :=
  match n with
  | O => (out, true)
  | S n =>
      if (0 <? limit) && (limit <=? Z.of_nat (length out)) then (out, false)
      else
        match reader h with
        | None => (out, false)
        | Some blk => read_cold reader n (h + 1) limit (out ++ [blk])%list
        end
  end.

(** [BlocksRange] *)
Definition BlocksRange (c : Chain) (from limit : Z) : list Block :=
  let fromHeight := if from <? 0 then 0 else from in
  match tip c with
  | None => []
  | Some t =>
      let tipHeight := t.(Header).(Height) in
      let hotStart := c.(hotWindowStart) in
      if tipHeight <? fromHeight then []
      else
        let available := tipHeight - fromHeight + 1 in
        let want := if (0 <? limit) && (limit <? available) then limit else available in
        let hot :=
          if hotStart <=? fromHeight then
            let rest := drop (Z.to_nat (fromHeight - hotStart)) c.(Blocks) in
            if (0 <? limit) && (want <? Z.of_nat (length rest)) then take (Z.to_nat want) rest else rest
          else
            let coldCount := hotStart - fromHeight in
            if (limit <=? 0) || (coldCount <? want) then
              if (0 <? limit) && (want - coldCount <? Z.of_nat (length c.(Blocks)))
              then take (Z.to_nat (want - coldCount)) c.(Blocks) else c.(Blocks)
            else [] in
        match c.(coldBlocks) with
        | None => hot
        | Some reader =>
            if hotStart <=? fromHeight then hot
            else
              match read_cold reader (Z.to_nat (hotStart - fromHeight)) fromHeight limit [] with
              | (out, false) => out
              | (out, true) =>
                  if (limit <=? 0) || (Z.of_nat (length out) <? limit) then
                    (out ++ (if (0 <? limit) && (limit <? Z.of_nat (length out + length hot))
                             then take (Z.to_nat (limit - Z.of_nat (length out))) hot else hot))%list
                  else out
              end
        end
  end.

(** [BlocksFrom] *)
Definition BlocksFrom (c : Chain) (from : Z) : list Block := BlocksRange c from 0.

(* ------------------------------------------------------------------ *)
(** * Admission *)

Definition MaxCitizenClockSkew : Z := 300.

(** [checkCitizenClock]; the difference wraps like an [int64]. *)
Definition checkCitizenClock (tx : Tx) (now : Z) : res unit :=
  if bool_decide (tx_type tx = "citizen_stake") || bool_decide (tx_type tx = "citizen_claim_rewards") then
    let skew := i64 (tx.(Timestamp) - now) in
    let skew := if skew <? 0 then i64 (- skew) else skew in
    if MaxCitizenClockSkew <? skew then inr (Err "citizen transaction timestamp too far from the current time")
    else inl tt
  else inl tt.

(** [SubmitTx] *)
Definition SubmitTx (now : Z) (tx : Tx) : SM Chain unit :=
  fail_if (empty_str tx.(ID)) (Err "missing transaction ID");;
  match Verify tx with
  | (_, inr e) => throw e
  | (tx, inl _) =>
      c ← get;
      fail_if (negb (tx.(ChainID) =? transactionChainID c)) (Err "wrong transaction chain ID");;
      fail_if (bool_decide (is_Some (c.(Mempool) !! tx.(ID)))) (Err "transaction already in mempool");;
      fail_if (negb (tx.(Nonce) =? GetNextNonce c.(c_State) tx.(From))) (Err "nonce mismatch");;
      lift (checkCitizenClock tx now);;
      modify (λ c, set_Mempool (<[tx.(ID) := tx]> c.(Mempool)) c)
  end.

Record SimulationResult : Type := mkSim {
  TxID : string;
  Applied : bool;
  FromBalanceBefore : Z;
  FromBalanceAfter : Z;
  ToBalanceBefore : Z;
  ToBalanceAfter : Z;
  ResultingStateRoot : string
}.

(** [SimulateTx] *)
Definition SimulateTx (c : Chain) (tx : Tx) : res SimulationResult :=
  match Verify tx with
  | (_, inr e) => inr e
  | (tx, inl _) =>
      if negb (tx.(ChainID) =? transactionChainID c) then inr (Err "wrong transaction chain ID")
      else if negb (tx.(Nonce) =? GetNextNonce c.(c_State) tx.(From)) then inr (Err "nonce mismatch")
      else
        let tmp := Clone c.(c_State) in
        let simHeight := match tip c with Some t => u64 (t.(Header).(Height) + 1) | None => 1 end in
        match applyTx c tx simHeight tmp with
        | (_, inr e) => inr e
        | (tmp', inl _) =>
            inl (mkSim tx.(ID) true (Get tmp tx.(From)).(Balance) (Get tmp' tx.(From)).(Balance)
                   (Get tmp tx.(To)).(Balance) (Get tmp' tx.(To)).(Balance) (Root tmp'))
        end
  end.

(* ------------------------------------------------------------------ *)
(** * Block production *)

(** The order of [BuildBlock]'s candidates: fee descending, then sender, nonce
    and ID. *)
Definition candidate_less (x y : Tx) : bool :=
  if negb (x.(Fee) =? y.(Fee)) then y.(Fee) <? x.(Fee)
  else if negb (bool_decide (x.(From) = y.(From))) then str_lt x.(From) y.(From)
  else if negb (x.(Nonce) =? y.(Nonce)) then x.(Nonce) <? y.(Nonce)
  else str_lt x.(ID) y.(ID).

Definition candidates (c : Chain) : list Tx :=
  sort_slice candidate_less (map snd (map_to_list c.(Mempool))).

(** The loop over the candidates: one that fails is skipped, with whatever it
    left in the scratch state; a panic ends the build. A transaction that
    applies has had its signature checked, hence its metadata sorted. *)
Fixpoint pick_txs (c : Chain) (maxTx height : Z) (cands : list Tx) (txs : list Tx) : SM State (list Tx) :=
  match cands with
  | [] => mret txs
  | tx :: cands =>
      if maxTx <=? Z.of_nat (length txs) then mret txs
      else λ st,
        match applyTx c tx height st with
        | (st, inl _) => pick_txs c maxTx height cands (txs ++ [sort_metadata tx])%list st
        | (st, inr (Panic m)) => (st, inr (Panic m))
        | (st, inr (Err _)) => pick_txs c maxTx height cands txs st
        end
  end.

(** The state [BuildBlock] computes the new block's root from. *)
Definition build_state (c : Chain) (proposerID : string) (maxTx height : Z) : SM State (list Tx) :=
  txs ← pick_txs c (if maxTx <=? 0 then 1000 else maxTx) height (candidates c) [];
  creditProposerFees txs (proposerAddress c c.(c_State) height proposerID);;
  modify (finishBlockState c height);;
  modify (applyIrregularStateCorrections c height);;
  mret txs.

(** [BuildBlock] *)
Definition BuildBlock (now : Time) (proposerID proposerPoCRoot : string) (maxTx : Z) (c : Chain) : res Block :=
  match tip c with
  | None => inr ErrNoGenesis
  | Some parent =>
      let height := u64 (parent.(Header).(Height) + 1) in
      match build_state c proposerID maxTx height (Clone c.(c_State)) with
      | (_, inr e) => inr e
      | (tmp, inl txs) =>
          let b := mkBlock
            (mkHeader height parent.(Hash) (TruncateSecond (mkTime now.(instant) 0)) proposerID
               (TxMerkleRoot txs) (Root tmp) proposerPoCRoot)
            (Some txs) "" ∅ false "" ∅ in
          match ComputeHash b with
          | (b, inl _) => inl b
          | (_, inr e) => inr e
          end
      end
  end.

(* ------------------------------------------------------------------ *)
(** * Authorization *)

(** [stakeAuthoritySetLocked] *)
Definition stakeAuthoritySet (c : Chain) (height : Z) : list ActiveValidator :=
  if (height =? 0) || negb (ConsensusActiveAt c.(validatorStaking) height) then []
  else AuthorizingValidatorSet c.(c_State).

(** [StakeConsensusActiveAt] *)
Definition StakeConsensusActiveAt (c : Chain) (height : Z) : bool :=
  negb (bool_decide (stakeAuthoritySet c height = [])).

Definition by_key (set : list ActiveValidator) : gmap string ActiveValidator :=
  foldl (λ m v, <[v.(av_ConsensusPubKey) := v]> m) ∅ set.

Definition total_power (set : list ActiveValidator) : Z :=
  foldl (λ t v, u64 (t + v.(av_Power))) 0 set.

(** The loop over [QuorumSignatures]: the power of the distinct validators
    with a valid approval. *)
Fixpoint approved_power (byKey : gmap string ActiveValidator) (msg : string)
    (sigs : list (string * string)) (counted : gset string) (approved : Z) : Z :=
  match sigs with
  | [] => approved
  | (signer, sigHex) :: sigs =>
      let key := ToLower signer in
      match byKey !! key with
      | None => approved_power byKey msg sigs counted approved
      | Some v =>
          if bool_decide (key ∈ counted) then approved_power byKey msg sigs counted approved
          else if negb (verifyHexSig v.(av_ConsensusPubKey) msg sigHex)
          then approved_power byKey msg sigs counted approved
          else approved_power byKey msg sigs ({[key]} ∪ counted) (u64 (approved + v.(av_Power)))
      end
  end.

(** [verifyStakeAuthorizationLocked] *)
Definition verifyStakeAuthorization (c : Chain) (b : Block) (set : list ActiveValidator)
    (requireQuorum : bool) : res unit :=
  let byKey := by_key set in
  let height := b.(Header).(Height) in
  match byKey !! ToLower b.(Header).(ProposerID) with
  | None => inr (Err "bad block: proposer is not in the active staked validator set")
  | Some proposer =>
      if negb (verifyHexSig proposer.(av_ConsensusPubKey)
                 (StakeProposalMessage c.(c_ChainID) height b.(Hash)) b.(ProposerSignature))
      then inr (Err "bad block: invalid or missing stake-mode proposer signature")
      else if negb requireQuorum then inl tt
      else
        let approved := approved_power byKey (StakeApprovalMessage c.(c_ChainID) height b.(Hash))
                          (map_to_list b.(QuorumSignatures)) ∅ 0 in
        if u64 (approved * 3) <=? u64 (total_power set * 2)
        then inr (Err "bad block: more than 2/3 of the staked power is required")
        else inl tt
  end.

(** [verifyBlockAuthorizationLocked] *)
Definition verifyBlockAuthorization (c : Chain) (b : Block) (requireQuorum : bool) : res unit :=
  match c.(validatorKeys) !! b.(Header).(ProposerID) with
  | None => inr (Err "bad block: proposer is not a registered validator")
  | Some proposerKey =>
      if negb (slen proposerKey =? 32) then inr (Err "bad block: proposer is not a registered validator")
      else
        let signed := match decode_fixed b.(ProposerSignature) 64 with
                      | Some sg => ed_Verify proposerKey b.(Hash) sg
                      | None => false
                      end in
        if negb signed then inr (Err "bad block: invalid or missing proposer signature")
        else if negb requireQuorum then inl tt
        else
          let seen := filter (λ kv, approval_valid c.(validatorKeys) (QuorumApprovalMessage b) kv = true)
                        (map_to_list b.(QuorumSignatures)) in
          if Z.of_nat (length seen) <? c.(requiredQuorum)
          then inr (Err "bad block: not enough validator approvals")
          else inl tt
  end.

(** The part of [validateBlockLocked] that decides who must have signed. *)
Definition check_authorization (c : Chain) (b : Block) (requireQuorum : bool) : res unit :=
  let height := b.(Header).(Height) in
  match stakeAuthoritySet c height with
  | [] =>
      if (0 <? height) && negb (bool_decide (size c.(validatorKeys) = 0%nat))
         && (c.(authEnforceFromHeight) <=? height)
      then verifyBlockAuthorization c b requireQuorum else inl tt
  | set => verifyStakeAuthorization c b set requireQuorum
  end.

(* ------------------------------------------------------------------ *)
(** * Validation and finalization *)

Definition five_minutes : Z := 300 * second.

(** The timestamp rules of [validateBlockLocked]. *)
Definition check_time (now : Time) (parent b : Block) : res unit :=
  let t := b.(Header).(h_Timestamp) in
  let p := parent.(Header).(h_Timestamp) in
  if IsZero t then inl tt
  else if negb (IsZero p) && Before t p then inr (Err "bad block: block timestamp is before parent timestamp")
  else if After t (Add now five_minutes) then inr (Err "bad block: block timestamp exceeds future drift limit")
  else inl tt.

(** The loop that checks chain IDs and signatures. The list that comes back
    has the metadata of every transaction it verified sorted. *)
Fixpoint verify_txs (c : Chain) (txs : list Tx) : list Tx * res unit :=
  match txs with
  | [] => ([], inl tt)
  | tx :: rest =>
      if negb (tx.(ChainID) =? transactionChainID c)
      then (tx :: rest, inr (Err "wrong transaction chain ID in block"))
      else
        match Verify tx with
        | (tx, inr e) => (tx :: rest, inr e)
        | (tx, inl _) => let '(rest, r) := verify_txs c rest in (tx :: rest, r)
        end
  end.

(** The checks of [validateBlockLocked] before any transaction is looked at. *)
Definition check_header (now : Time) (c : Chain) (b : Block) (requireQuorum : bool) : res unit :=
  if empty_str b.(Hash) then inr ErrBadBlock
  else
    match tip c with
    | None => inr ErrNoGenesis
    | Some parent =>
        if negb (bool_decide (b.(Header).(ParentHash) = parent.(Hash)))
           || negb (b.(Header).(Height) =? u64 (parent.(Header).(Height) + 1))
        then inr ErrBadBlock
        else
          match check_time now parent b with
          | inr e => inr e
          | inl _ =>
              match check_authorization c b requireQuorum with
              | inr e => inr e
              | inl _ =>
                  match CalculateHash b with
                  | inr _ => inr ErrBadBlock
                  | inl h =>
                      if negb (bool_decide (h = b.(Hash))) then inr ErrBadBlock
                      else if negb (bool_decide (TxMerkleRoot (txs_of b) = b.(Header).(h_TxMerkleRoot)))
                      then inr ErrBadBlock
                      else inl tt
                  end
              end
          end
    end.

(** [validateBlockLocked]; [ValidateBlock] and [ValidateProposal] call it with
    and without the quorum. *)
Definition validateBlock (now : Time) (c : Chain) (b : Block) (requireQuorum : bool) : Block * res unit :=
  match check_header now c b requireQuorum with
  | inr e => (b, inr e)
  | inl _ =>
      let '(txs, r) := verify_txs c (txs_of b) in
      let b := set_b_Tx ((λ _, txs) <$> b.(b_Tx)) b in
      match r with
      | inr e => (b, inr e)
      | inl _ =>
          match next_state c c.(c_State) b with
          | (_, inr e) => (b, inr e)
          | (tmp, inl _) =>
              if (c.(stateRootEnforceFromHeight) <=? b.(Header).(Height))
                 && negb (bool_decide (Root tmp = b.(Header).(StateRoot)))
              then (b, inr ErrStateRootMismatch) else (b, inl tt)
          end
      end
  end.

Definition ValidateBlock (now : Time) (c : Chain) (b : Block) : Block * res unit := validateBlock now c b true.
Definition ValidateProposal (now : Time) (c : Chain) (b : Block) : Block * res unit := validateBlock now c b false.

(** What [FinalizeBlock] does to the chain once the next state is known. *)
Definition commit_block (b : Block) (next : State) (c : Chain) : Chain :=
  let c := set_DEX (DEX.SyncFromState next) (set_State next c) in
  let c := set_Mempool (foldl (λ m tx, delete tx.(ID) m) c.(Mempool) (txs_of b)) c in
  trimHotWindow (set_Blocks (c.(Blocks) ++ [set_Finalized true b])%list c).

(** [FinalizeBlock] *)
Definition FinalizeBlock (now : Time) (c : Chain) (b : Block) : Chain * Block * res unit :=
  match validateBlock now c b true with
  | (b, inr e) => (c, b, inr e)
  | (b, inl _) =>
      match next_state c c.(c_State) b with
      | (_, inr e) => (c, b, inr e)
      | (next, inl _) =>
          if (c.(stateRootEnforceFromHeight) <=? b.(Header).(Height))
             && negb (bool_decide (Root next = b.(Header).(StateRoot)))
          then (c, b, inr ErrBadBlock)
          else (commit_block b next c, set_Finalized true b, inl tt)
      end
  end.

(* ------------------------------------------------------------------ *)
(** * Fork choice *)

(** The replay of [TryReorg]: every block through [FinalizeBlock]. *)
Fixpoint replay (now : Time) (scratch : Chain) (bs : list (option Block)) : res Chain :=
  match bs with
  | [] => inl scratch
  | None :: _ => inr ErrBadBlock
  | Some b :: bs =>
      match FinalizeBlock now scratch b with
      | (scratch, _, inl _) => replay now scratch bs
      | (_, _, inr e) => inr e
      end
  end.

(** What [TryReorg] takes from the chain while it holds the lock, and the
    blocks of the two branches. *)
Record ReorgPlan : Type := mkPlan {
  rp_prefix : list Block;
  rp_currentTail : list Block;
  rp_scratch : Chain;
  rp_startLen : nat;
  rp_hotStart : Z
}.

Definition reorg_plan (forkHeight : Z) (candidate : list (option Block)) (c : Chain) : res ReorgPlan :=
  if negb (bool_decide (is_Some c.(genesisState)))
  then inr (Err "reorg unavailable: genesis state not seeded (call SeedGenesisState)")
  else if (forkHeight =? 0) || (chain_height c <? forkHeight) then inr (Err "bad block: invalid fork height")
  else if forkHeight <? c.(hotWindowStart)
  then inr (Err "reorg unavailable: fork height predates the retained hot window")
  else
    match candidate with
    | [] => inr (Err "empty candidate branch")
    | first :: _ =>
        if negb (match first with Some b => b.(Header).(Height) =? forkHeight | None => false end)
        then inr (Err "bad block: candidate branch must start at the fork height")
        else
          let start := if c.(hotWindowStart) =? 0 then 1%nat else 0%nat in
          let stop := Z.to_nat (forkHeight - c.(hotWindowStart)) in
          if (length c.(Blocks) <? stop)%nat then inr (Panic "slice bounds out of range")
          else
            match baseState c, baseBlock c with
            | Some base, Some anchor =>
                inl (mkPlan (drop start (take stop c.(Blocks))) (drop stop c.(Blocks))
                       (mkChain c.(c_ChainID) (transactionChainID c) (Clone base) ∅ [anchor] ∅
                          c.(validatorKeys) c.(requiredQuorum) None 0 0 [] c.(validatorStaking)
                          0 0 None None None)
                       (length c.(Blocks)) c.(hotWindowStart))
            | _, _ => inr (Err "reorg unavailable: hot-window checkpoint not established")
            end
    end.

Definition branch_score (keys : gmap string string) (bs : list (option Block)) : Z :=
  foldl (λ t b, match b with Some b => t + verifiedApprovalCount b keys | None => t end) 0 bs.

(** The fork-choice rule: [true] when the candidate is strictly better. *)
Definition heavier (keys : gmap string string) (candidate : list (option Block)) (current : list Block) : bool :=
  let cs := branch_score keys candidate in
  let ts := branch_score keys (map Some current) in
  negb ((cs <? ts) || ((cs =? ts) && (length candidate <=? length current)%nat)).

(** The swap, on the chain as it is when the lock is taken again. *)
Definition reorg_commit (p : ReorgPlan) (scratch : Chain) (c : Chain) : Chain * res bool :=
  if negb (bool_decide (length c.(Blocks) = p.(rp_startLen))) || negb (c.(hotWindowStart) =? p.(rp_hotStart))
  then (c, inr (Err "chain advanced during reorg replay, aborting"))
  else
    (trimHotWindow (set_State scratch.(c_State)
       (set_Blocks (p.(rp_prefix) ++ drop (1 + length p.(rp_prefix)) scratch.(Blocks))%list c)), inl true).

(** [TryReorg]: [c] is the chain when it is called, [c'] the chain when the
    replay is done. *)
Definition TryReorg (now : Time) (forkHeight : Z) (candidate : list (option Block)) (c c' : Chain) : Chain * res bool :=
  match reorg_plan forkHeight candidate c with
  | inr e => (c', inr e)
  | inl p =>
      if negb (heavier c.(validatorKeys) candidate p.(rp_currentTail)) then (c', inl false)
      else
        match replay now p.(rp_scratch) (map Some p.(rp_prefix) ++ candidate)%list with
        | inr e => (c', inr e)
        | inl scratch => reorg_commit p scratch c'
        end
  end.

(* ------------------------------------------------------------------ *)
(** * Views *)

(** [MempoolSnapshot] and [SnapshotData] (the copies are values here). *)
Definition MempoolSnapshot (c : Chain) : gmap string Tx := c.(Mempool).
Definition SnapshotData (c : Chain) : string * Z * list Block * State :=
  (c.(c_ChainID), transactionChainID c, c.(Blocks), Clone c.(c_State)).

(** [HotWindowInfo], [EarliestHeight] *)
Definition HotWindowInfo (c : Chain) : Z * option State * option Block :=
  (c.(hotWindowStart), Clone <$> baseState c, baseBlock c).
Definition EarliestHeight (c : Chain) : Z := c.(hotWindowStart).

End with_ed25519.
