(* ===== verification/ChainFacts.v ===== *)
(** What the chain promises: a block creates no coin but what its treasury
    payments create ([block_minted]) and keeps the ledger invariants, a finalized block carries the approvals of a quorum, two
    finalized blocks at one height expose a third of the stake, a block the
    chain builds is one it accepts, and the bounded window of blocks in memory
    is a faithful view of the whole history. *)
From stdpp Require Import base strings list gmap.
From S2P Require Import Prelude GoStd Sha256 Json Types Ledger TxModel Merkle Dex DexLedger.
From S2P Require Import Staking StakingFacts Apply ApplyFacts Fees Block Chain.

#[local] Open Scope string_scope.
#[local] Open Scope Z_scope.

(* ------------------------------------------------------------------ *)
(** * Blocks and the ledger *)

(** The invariants of the replicated state, without ([full = false]) or with
    the clause about the snapshot of the validator set. *)
Record world_rel (full : bool) (p : ValidatorStakingParams) (s : State) : Prop := {
  w_ledger : ledger_ok s;
  w_pools : pools_ok s;
  w_registry : registry_rel full p s;
  w_payable : payable s
}.

Abbreviation world_ok := (world_rel true).

Lemma world_ok_Clone full p s : world_rel full p s → world_rel full p (Clone s).
Proof. intros [? ? ? ?]. split; [by apply ledger_ok_Clone|done|by apply (registry_ok_same full p s)|done]. Qed.

Lemma world_weaken full p s : world_ok p s → world_rel full p s.
Proof. intros [? ? ? ?]. split; try done. by apply registry_weaken. Qed.

(** Parameters a node is started with. *)
Record params_ok (p : ValidatorStakingParams) : Prop := {
  po_slash : slash_params_ok p;
  po_bond : 0 ≤ p.(MinSelfBond)
}.

Section transition.
Context `{E : Ed25519}.
Context (c : Chain) (Hp : params_ok c.(validatorStaking)).

(** The native coin the transactions of a block create, each in the state it
    meets. *)
Fixpoint txs_minted (txs : list Tx) (height : Z) (s : State) : Z :=
  match txs with
  | [] => 0
  | tx :: txs => minted (sort_metadata tx) s + txs_minted txs height (applyTx c tx height s).1
  end.

Lemma txs_minted_nonneg txs height s : payable s → 0 ≤ txs_minted txs height s.
Proof.
  revert s. induction txs as [|tx txs IH]; intros s Hpay; cbn [txs_minted]; [done|].
  pose proof (minted_nonneg (sort_metadata tx) s Hpay). specialize (IH (applyTx c tx height s).1). unfold applyTx in *.
  match type of IH with payable (ApplyTransaction _ ?x _).1 → _ => pose proof (ApplyTransaction_payable tx x s) as Hk end. unfold wp in Hk.
  destruct (ApplyTransaction tx _ s) as [s' [r|e]]; specialize (IH (Hk Hpay)); lia.
Qed.

Definition txs_post (txs : list Tx) (m : Z) (s s' : State) : Prop :=
  world_ok c.(validatorStaking) s' ∧ supply s' ≤ supply s - lsum Fee txs + m ∧ Forall tx_authentic txs.

Lemma applyTxs_spec txs height s :
  world_ok c.(validatorStaking) s → Forall tx_fields txs → supply s + txs_minted txs height s ≤ MaxUint64 →
  wp (applyTxs c txs height) (λ _, txs_post txs (txs_minted txs height s) s) (λ _ _, True) s.
Proof.
  revert s. induction txs as [|tx txs IH]; intros s Hw Hf Hm; cbn [applyTxs].
  - split; [done|]. simpl. split; [lia|done].
  - inversion_clear Hf as [|?? Hf1 Hf2]. destruct Hw as [? ? ? Hpay].
    apply wp_bind. cbn [txs_minted] in *. pose proof (tf_fee tx Hf1) as [? _].
    eapply wp_intro; [|done]. intros s1 [] Hrun. rewrite Hrun in Hm |- *. cbn [fst] in *. unfold applyTx in Hrun.
    destruct (wp_ok _ _ _ _ _ _ (ApplyTransaction_spec tx s ltac:(done) ltac:(done) Hf1 true
      (mkTxContext height c.(c_ChainID) c.(validatorStaking) 0) ltac:(done) (po_slash _ Hp)) Hrun)
      as (? & _ & _ & ? & ? & Heff). destruct (Heff Hpay) as (Hpay1 & Hsup & Hok1).
    pose proof (txs_minted_nonneg txs height s1 Hpay1).
    eapply wp_mono; [apply IH; [by split; [apply Hok1; lia|..]|done|lia]| |done].
    intros [] s2 (? & ? & ?). split; [done|]. split; [simpl; lia|by constructor].
Qed.

Lemma creditProposerFees_spec txs a s :
  ledger_ok s → (∀ tx, tx ∈ txs → 0 ≤ tx.(Fee)) → supply s + lsum Fee txs ≤ MaxUint64 →
  wp (creditProposerFees txs a)
    (λ _ s', ledger_ok s' ∧ fee_frame s s' ∧ supply s ≤ supply s' ≤ supply s + lsum Fee txs) (λ _ _, True) s.
Proof.
  intros Hok Hf Hmax. pose proof (lsum_nonneg Fee txs Hf). pose proof (burn_part_range (lsum Fee txs) ltac:(done)).
  unfold creditProposerFees. wp_go; try done.
  all: match goal with H : sum_fees _ _ = inl _ |- _ => apply sum_fees_ok in H as [-> _] end.
  - split_and!; [done|apply fee_frame_refl|lia..].
  - apply safeAdd_inl in Heqs0 as [_ ->].
    destruct (credit_account s a (lsum Fee txs - burn_part (lsum Fee txs))) as (? & ? & ?); [done|lia..|].
    rewrite Balance_Get, !Z.add_0_l. split_and!; done || lia.
Qed.

Lemma apply_correction_spec corr s :
  0 ≤ corr.(Debit) → world_ok c.(validatorStaking) s →
  world_ok c.(validatorStaking) (apply_correction corr s) ∧ supply (apply_correction corr s) ≤ supply s.
Proof.
  intros Hd [Hok Hpo Hr Hpay]. unfold apply_correction, Set_. set (acc := set_Balance _ _).
  pose proof (acct_balance_range s Hok corr.(corr_Address)) as [Hb _].
  assert (0 ≤ acc.(Balance) ≤ (acct s corr.(corr_Address)).(Balance)) as Ha.
  { unfold acc. simpl. destruct (Z.ltb_spec (Debit corr) (Balance (acct s (corr_Address corr)))); lia. }
  pose proof (supply_put corr.(corr_Address) (norm_acct acc) s) as Hs. rewrite Balance_norm in Hs. pose proof (ok_supply s Hok).
  split; [split|lia]; [apply ledger_ok_put; [done|rewrite Balance_norm; lia|lia]|done|by apply (registry_ok_same _ _ s)|done].
Qed.

Lemma corrections_spec height s :
  Forall (λ corr, 0 ≤ corr.(Debit)) c.(stateCorrections) → world_ok c.(validatorStaking) s →
  let s' := applyIrregularStateCorrections c height s in
  world_ok c.(validatorStaking) s' ∧ supply s' ≤ supply s.
Proof.
  unfold applyIrregularStateCorrections. simpl. intros Hc. revert s.
  induction Hc as [|corr l Hd _ IH]; intros s Hw; simpl; [split; [done|lia]|].
  case_match; [by apply IH|]. destruct (apply_correction_spec corr s Hd Hw) as [Hw1 Hs1].
  destruct (IH _ Hw1). split; [done|lia].
Qed.

(** The epoch snapshot never lists a tombstoned validator. *)
Lemma snapshot_ok s :
  world_ok c.(validatorStaking) s →
  world_ok c.(validatorStaking) (setValidatorSetSnapshot (ActiveValidatorSet s c.(validatorStaking)) s).
Proof.
  intros [Hok Hpo Hr Hpay]. split; [by apply (ledger_ok_same s)|done| |done].
  split; [apply Hr|apply Hr|]. intros _ v a r Hv Ha Hk.
  destruct (active_member c.(validatorStaking) s v (po_bond _ Hp) Hv) as (b & r' & Hb & -> & Ht & _).
  simpl in Hk. assert (a = b) as ->; [|simpl in Ha; congruence].
  eapply (reg_keys _ _ _ Hr); done.
Qed.

Lemma finishBlockState_spec height s :
  Forall (λ corr, 0 ≤ corr.(Debit)) c.(stateCorrections) → world_ok c.(validatorStaking) s →
  let s' := finishBlockState c height s in
  world_ok c.(validatorStaking) s' ∧ supply s' ≤ supply s.
Proof.
  intros Hc Hw. destruct (corrections_spec height s Hc Hw) as [Hw' Hs']. unfold finishBlockState. cbv zeta.
  case_match; [split; [by apply snapshot_ok|exact Hs']|done].
Qed.

(** The native coin a block creates on top of a state. *)
Definition block_minted (pre : State) (b : Block) : Z := txs_minted (txs_of b) b.(Header).(Height) (Clone pre).

(** The whole transition of a block. *)
Lemma next_state_spec pre b s' :
  Forall (λ corr, 0 ≤ corr.(Debit)) c.(stateCorrections) → world_ok c.(validatorStaking) pre →
  Forall tx_fields (txs_of b) → supply pre + block_minted pre b ≤ MaxUint64 →
  next_state c pre b = (s', inl tt) →
  world_ok c.(validatorStaking) s' ∧ supply s' ≤ supply pre + block_minted pre b ∧ Forall tx_authentic (txs_of b).
Proof.
  intros Hc Hw Hf Hs Hrun. unfold next_state, block_transition in Hrun.
  refine (wp_ok _ (λ _ s', world_ok c.(validatorStaking) s' ∧ supply s' ≤ supply pre + block_minted pre b ∧ Forall tx_authentic (txs_of b))
    (λ _ _, True) _ _ _ _ Hrun).
  apply wp_bind. eapply wp_mono; [apply applyTxs_spec; [by apply world_ok_Clone|done|by rewrite supply_Clone]| |done].
  intros [] s1 ([Hok1 Hpo1 Hr1 Hpay1] & Hs1 & Ha). rewrite supply_Clone in Hs1. fold (block_minted pre b) in Hs1.
  assert (∀ tx, tx ∈ txs_of b → 0 ≤ tx.(Fee)) as Hfee.
  { intros tx Hin. by apply (proj1 (Forall_forall _ _) Hf tx Hin). }
  apply wp_bind. eapply wp_mono; [apply creditProposerFees_spec; [done|done|lia]| |done].
  intros [] s2 (Hok2 & (_ & Hv & Hd & Hsn & Hg & _) & Hs2). apply wp_modify.
  destruct (finishBlockState_spec b.(Header).(Height) s2 Hc) as [? ?].
  { split; [done|unfold pools_ok; by rewrite Hd|by apply (registry_ok_same _ _ s1)|by apply (keeps_payable_frame s1 s2 Hg)]. }
  split_and!; [done|lia|done].
Qed.

Lemma block_minted_nonneg pre b : payable pre → 0 ≤ block_minted pre b.
Proof. intros Hpay. by apply txs_minted_nonneg. Qed.

(** A block that creates coin carries an execution of a proposal. *)
Lemma block_minted_source pre b :
  block_minted pre b ≠ 0 → ∃ tx, tx ∈ txs_of b ∧ tx_type (sort_metadata tx) = "governance_execute".
Proof.
  unfold block_minted. generalize (Clone pre). induction (txs_of b) as [|tx txs IH]; intros s; cbn [txs_minted]; [done|]. intros Hne.
  destruct (decide (minted (sort_metadata tx) s = 0)) as [Hz|Hm%minted_cases].
  - destruct (IH (applyTx c tx b.(Header).(Height) s).1 ltac:(intros Hz2; apply Hne; by rewrite Hz, Hz2)) as (tx' & ? & ?). exists tx'. split; [by right|done].
  - exists tx. split; [left|apply Hm].
Qed.

(** Whatever a block does to the rest, the amounts of proposals stay what
    they have to be. *)
Lemma applyTxs_payable txs height s : wp (applyTxs c txs height) (λ _, keeps_payable s) (λ _ _, True) s.
Proof.
  revert s. induction txs as [|tx txs IH]; intros s; cbn [applyTxs]; [by intros ?|]. apply wp_bind.
  eapply wp_mono; [apply ApplyTransaction_payable| |done]. intros [] s1 Hs1. eapply wp_mono; [apply IH| |done].
  intros [] s2 Hs2 Hpay. auto.
Qed.

Lemma finishBlockState_proposals height s : (finishBlockState c height s).(GovernanceProposals) = s.(GovernanceProposals).
Proof.
  assert ((applyIrregularStateCorrections c height s).(GovernanceProposals) = s.(GovernanceProposals)) as Ha.
  { unfold applyIrregularStateCorrections. revert s. induction (stateCorrections c) as [|corr l IH]; intros s; simpl; [done|].
    rewrite IH. by case_match. }
  unfold finishBlockState. cbv zeta. by case_match.
Qed.

Lemma next_state_payable pre b s' : payable pre → next_state c pre b = (s', inl tt) → payable s'.
Proof.
  intros Hpay Hrun. unfold next_state, block_transition in Hrun. refine (wp_ok _ (λ _, payable) (λ _ _, True) _ _ _ _ Hrun).
  apply wp_bind. eapply wp_mono; [apply applyTxs_payable| |done]. intros [] s1 Hs1. specialize (Hs1 Hpay).
  apply wp_bind. unfold creditProposerFees.
  wp_go; try done; apply (keeps_payable_frame s1); try done; by rewrite finishBlockState_proposals.
Qed.

End transition.

(* ------------------------------------------------------------------ *)
(** * Stake quorum *)

(** What a snapshot of the validator set satisfies: one entry per key, and
    powers small enough for the comparison [approved*3 > total*2]. *)
Record set_ok (set : list ActiveValidator) : Prop := {
  so_keys : NoDup (av_ConsensusPubKey <$> set);
  so_power : ∀ v, v ∈ set → 0 ≤ v.(av_Power);
  so_total : 3 * lsum av_Power set ≤ MaxUint64
}.

Lemma by_key_lookup set k v :
  NoDup (av_ConsensusPubKey <$> set) → by_key set !! k = Some v ↔ v ∈ set ∧ v.(av_ConsensusPubKey) = k.
Proof.
  unfold by_key. induction set as [|w set IH] using rev_ind; simpl.
  - intros _. rewrite lookup_empty. set_solver.
  - rewrite fmap_app, NoDup_app. intros (Hnd & Hdis & _). rewrite foldl_app. simpl.
    rewrite elem_of_app, list_elem_of_singleton. destruct (decide (w.(av_ConsensusPubKey) = k)) as [<-|Hne].
    + rewrite lookup_insert_eq. split; [intros [= <-]; auto|]. intros [[Hv|Hv] Hk]; [|by rewrite Hv].
      exfalso. apply (Hdis (av_ConsensusPubKey v)); [by apply list_elem_of_fmap_2|rewrite Hk; set_solver].
    + rewrite lookup_insert_ne by done. rewrite (IH Hnd). naive_solver.
Qed.

Lemma total_power_exact set :
  (∀ v, v ∈ set → 0 ≤ v.(av_Power)) → lsum av_Power set ≤ MaxUint64 → total_power set = lsum av_Power set.
Proof.
  intros Hpos Hmax. unfold total_power. assert (∀ t, 0 ≤ t → t + lsum av_Power set ≤ MaxUint64 →
    foldl (λ t v, u64 (t + av_Power v)) t set = t + lsum av_Power set) as Hg; [|apply Hg; lia].
  clear Hmax. induction set as [|v set IH]; intros t Ht Hmax; simpl in *; [lia|].
  pose proof (Hpos v ltac:(left)). pose proof (lsum_nonneg av_Power set ltac:(intros; apply Hpos; by right)).
  rewrite u64_small by (split; lia). rewrite IH; [lia|intros; apply Hpos; by right|lia..].
Qed.

(** Two weightings of a set that differ at one of its members. *)
Lemma lsum_update set (f g : ActiveValidator → Z) v :
  NoDup (av_ConsensusPubKey <$> set) → v ∈ set →
  (∀ w, w ∈ set → w.(av_ConsensusPubKey) ≠ v.(av_ConsensusPubKey) → f w = g w) →
  lsum f set = lsum g set + (f v - g v).
Proof.
  induction set as [|w set IH]; intros Hnd Hv Hfg; [by apply not_elem_of_nil in Hv|].
  rewrite fmap_cons in Hnd. apply NoDup_cons in Hnd as [Hw Hnd]. simpl.
  apply elem_of_cons in Hv as [->|Hv].
  - rewrite (lsum_ext f g set); [lia|]. intros x Hx. apply Hfg; [by right|].
    intros Heq. apply Hw. rewrite <- Heq. by apply list_elem_of_fmap_2.
  - rewrite (IH Hnd Hv); [|intros; apply Hfg; [by right|done]]. rewrite (Hfg w); [lia|left|].
    intros Heq. apply Hw. rewrite Heq. by apply list_elem_of_fmap_2.
Qed.

Section quorum.
Context `{E : Ed25519}.

(** One of the signatures is a valid approval by [v]. *)
Definition approved_by (msg : string) (sigs : list (string * string)) (v : ActiveValidator) : bool :=
  existsb (λ kv, bool_decide (ToLower kv.1 = v.(av_ConsensusPubKey)) &&
                 verifyHexSig v.(av_ConsensusPubKey) msg kv.2) sigs.

Definition approval_weight (msg : string) (sigs : list (string * string)) (v : ActiveValidator) : Z :=
  if approved_by msg sigs v then v.(av_Power) else 0.

(** The same, without the validators already counted. *)
Definition fresh_weight (counted : gset string) (msg : string) (sigs : list (string * string)) (v : ActiveValidator) : Z :=
  if bool_decide (v.(av_ConsensusPubKey) ∈ counted) then 0 else approval_weight msg sigs v.

Lemma fresh_weight_range counted msg sigs v : 0 ≤ v.(av_Power) → 0 ≤ fresh_weight counted msg sigs v ≤ v.(av_Power).
Proof. intros. unfold fresh_weight, approval_weight. repeat case_match; lia. Qed.

Lemma approved_by_cons msg kv sigs v :
  approved_by msg (kv :: sigs) v =
    (bool_decide (ToLower kv.1 = v.(av_ConsensusPubKey)) && verifyHexSig v.(av_ConsensusPubKey) msg kv.2)
    || approved_by msg sigs v.
Proof. done. Qed.

(** The loop adds up the power of the validators with a valid approval, each
    once, whatever order the signature map is walked in. *)
Lemma approved_power_exact set msg sigs counted acc :
  set_ok set → 0 ≤ acc → acc + lsum (fresh_weight counted msg sigs) set ≤ MaxUint64 →
  approved_power (by_key set) msg sigs counted acc = acc + lsum (fresh_weight counted msg sigs) set.
Proof.
  intros [Hnd Hpos _]. revert counted acc. induction sigs as [|[signer sg] sigs IH]; intros counted acc Hacc Hmax.
  { simpl. rewrite (lsum_ext _ (λ _, 0)); [|intros v _; unfold fresh_weight, approval_weight; by case_match].
    clear. induction set; simpl; lia. }
  assert (∀ counted', counted' = counted → (∀ v, v ∈ set → v.(av_ConsensusPubKey) = ToLower signer →
    v.(av_ConsensusPubKey) ∉ counted → verifyHexSig v.(av_ConsensusPubKey) msg sg = false) →
    lsum (fresh_weight counted msg ((signer, sg) :: sigs)) set = lsum (fresh_weight counted' msg sigs) set) as Hskip.
  { intros ? -> Hs. apply lsum_ext. intros v Hv. unfold fresh_weight, approval_weight. rewrite approved_by_cons.
    case_bool_decide; [done|]. simpl. case_bool_decide; [|done]. by rewrite (Hs v). }
  simpl. destruct (by_key set !! ToLower signer) as [v|] eqn:Hv.
  - apply by_key_lookup in Hv as [Hv Hk]; [|done]. case_bool_decide as Hc.
    + rewrite (Hskip counted) in * by (done || (intros; congruence)). by apply IH.
    + destruct (verifyHexSig (av_ConsensusPubKey v) msg sg) eqn:Hvs; simpl.
      * assert (lsum (fresh_weight counted msg ((signer, sg) :: sigs)) set =
          lsum (fresh_weight ({[ToLower signer]} ∪ counted) msg sigs) set +
          (fresh_weight counted msg ((signer, sg) :: sigs) v - fresh_weight ({[ToLower signer]} ∪ counted) msg sigs v)) as Hup.
        { apply lsum_update; [done..|]. intros w Hw Hne. unfold fresh_weight, approval_weight.
          rewrite approved_by_cons. simpl. rewrite (bool_decide_eq_false_2 (ToLower signer = _)) by congruence. simpl.
          rewrite (bool_decide_ext (av_ConsensusPubKey w ∈ {[ToLower signer]} ∪ counted) (av_ConsensusPubKey w ∈ counted));
            [done|]. rewrite elem_of_union, elem_of_singleton. rewrite Hk in Hne. naive_solver. }
        assert (fresh_weight counted msg ((signer, sg) :: sigs) v = v.(av_Power)) as Hf1.
        { unfold fresh_weight, approval_weight. rewrite approved_by_cons, Hk. simpl.
          rewrite (bool_decide_eq_false_2 (_ ∈ counted)) by done.
          rewrite (bool_decide_eq_true_2 (ToLower signer = _)) by done. rewrite <- Hk, Hvs. done. }
        assert (fresh_weight ({[ToLower signer]} ∪ counted) msg sigs v = 0) as Hf2.
        { unfold fresh_weight. rewrite bool_decide_eq_true_2; [done|]. set_solver. }
        pose proof (Hpos v Hv).
        pose proof (lsum_nonneg (fresh_weight ({[ToLower signer]} ∪ counted) msg sigs) set
          ltac:(intros; by apply fresh_weight_range, Hpos)).
        rewrite Hf1, Hf2 in *. rewrite u64_small by (split; lia). rewrite IH by lia. lia.
      * rewrite (Hskip counted) in * by (done || (intros w Hw Hkw _;
          assert (av_ConsensusPubKey w = av_ConsensusPubKey v) as -> by congruence; done)).
        by apply IH.
  - assert (∀ v, v ∈ set → v.(av_ConsensusPubKey) ≠ ToLower signer) as Hno.
    { intros w Hw Hk. assert (by_key set !! ToLower signer = Some w) by (by apply by_key_lookup). congruence. }
    rewrite (Hskip counted) in * by (done || (intros w Hw Hkw; by apply Hno in Hkw)). by apply IH.
Qed.


(** The approvals a block carries, and their power. *)
Definition block_approvals (c : Chain) (b : Block) (v : ActiveValidator) : bool :=
  approved_by (StakeApprovalMessage c.(c_ChainID) b.(Header).(Height) b.(Hash)) (map_to_list b.(QuorumSignatures)) v.

Definition approving_power (c : Chain) (b : Block) (set : list ActiveValidator) : Z :=
  lsum (λ v, if block_approvals c b v then v.(av_Power) else 0) set.

(** The proposer is in the set and has signed the block. *)
Definition proposed_by (c : Chain) (b : Block) (v : ActiveValidator) : Prop :=
  v.(av_ConsensusPubKey) = ToLower b.(Header).(ProposerID) ∧
  verifyHexSig v.(av_ConsensusPubKey) (StakeProposalMessage c.(c_ChainID) b.(Header).(Height) b.(Hash))
    b.(ProposerSignature) = true.

Lemma approving_power_range c b set :
  (∀ v, v ∈ set → 0 ≤ v.(av_Power)) → 0 ≤ approving_power c b set ≤ lsum av_Power set.
Proof.
  intros Hpos. split; [apply lsum_nonneg|apply lsum_le]; intros v Hv; specialize (Hpos v Hv); case_match; lia.
Qed.

(** [verifyStakeAuthorizationLocked] accepts exactly the blocks with a signed
    proposal and approvals of strictly more than two thirds of the stake. *)
Lemma verifyStakeAuthorization_iff c b set :
  set_ok set →
  verifyStakeAuthorization c b set true = inl tt ↔
  (∃ v, v ∈ set ∧ proposed_by c b v) ∧ 2 * lsum av_Power set < 3 * approving_power c b set.
Proof.
  intros Hset. pose proof Hset as [Hnd Hpos Htot]. pose proof (approving_power_range c b set Hpos) as Hr.
  assert (lsum (fresh_weight ∅ (StakeApprovalMessage c.(c_ChainID) b.(Header).(Height) b.(Hash))
    (map_to_list b.(QuorumSignatures))) set = approving_power c b set) as Hw.
  { apply lsum_ext. intros v _. unfold fresh_weight. by rewrite bool_decide_eq_false_2 by set_solver. }
  unfold verifyStakeAuthorization. destruct (by_key set !! _) as [v|] eqn:Hv.
  - apply by_key_lookup in Hv as [Hv Hk]; [|done].
    destruct (verifyHexSig _ _ _) eqn:Hs; simpl.
    + rewrite approved_power_exact, Hw, total_power_exact, !u64_small by (done || lia || (split; lia)).
      destruct (Z.leb_spec ((0 + approving_power c b set) * 3) (lsum av_Power set * 2)).
      * split; [done|]. intros [_ ?]. lia.
      * split; [|done]. intros _. split; [by exists v|lia].
    + split; [done|]. intros [(w & Hw' & Hwk & Hws) _].
      assert (by_key set !! ToLower b.(Header).(ProposerID) = Some w) as Hb1 by (by apply by_key_lookup).
      assert (by_key set !! ToLower b.(Header).(ProposerID) = Some v) as Hb2 by (by apply by_key_lookup).
      congruence.
  - split; [done|]. intros [(w & Hw' & Hwk & _) _].
    assert (by_key set !! ToLower b.(Header).(ProposerID) = Some w) by (by apply by_key_lookup). congruence.
Qed.

(** Two quorums of one set overlap in more than a third of its stake. *)
Lemma quorum_overlap c1 b1 c2 b2 set :
  (∀ v, v ∈ set → 0 ≤ v.(av_Power)) →
  approving_power c1 b1 set + approving_power c2 b2 set
    ≤ lsum av_Power set + lsum (λ v, if block_approvals c1 b1 v && block_approvals c2 b2 v then v.(av_Power) else 0) set.
Proof.
  unfold approving_power. induction set as [|v set IH]; intros Hpos; simpl; [lia|].
  pose proof (Hpos v ltac:(left)). specialize (IH ltac:(intros; apply Hpos; by right)).
  destruct (block_approvals c1 b1 v), (block_approvals c2 b2 v); simpl; lia.
Qed.

Lemma approved_by_sig msg sigs v :
  approved_by msg sigs v = true → ∃ sg, verifyHexSig v.(av_ConsensusPubKey) msg sg = true.
Proof. intros (kv & _ & [_ ?]%andb_true_iff)%existsb_exists. by exists kv.2. Qed.

End quorum.

(** The snapshot the chain takes satisfies [set_ok]. *)
Lemma lsum_filter_le {A} (f : A → Z) (P : A → Prop) `{∀ a, Decision (P a)} l :
  (∀ a, a ∈ l → 0 ≤ f a) → lsum f (filter P l) ≤ lsum f l.
Proof.
  induction l as [|a l IH]; intros Hf; [simpl; lia|]. rewrite filter_cons.
  pose proof (Hf a ltac:(left)). specialize (IH ltac:(intros; apply Hf; by right)). case_decide; simpl; lia.
Qed.

Lemma lsum_take_le {A} (f : A → Z) n l : (∀ a, a ∈ l → 0 ≤ f a) → lsum f (take n l) ≤ lsum f l.
Proof.
  revert n. induction l as [|a l IH]; intros [|n] Hf; simpl; try lia.
  - pose proof (Hf a ltac:(left)). pose proof (lsum_nonneg f l ltac:(intros; apply Hf; by right)). lia.
  - specialize (IH n ltac:(intros; apply Hf; by right)). lia.
Qed.

Lemma all_active_ok full p s :
  world_rel full p s → NoDup (av_ConsensusPubKey <$> all_active p s) ∧
  (∀ v, v ∈ all_active p s → 0 ≤ v.(av_Power)) ∧ lsum av_Power (all_active p s) ≤ supply s.
Proof.
  intros [Hok _ Hr _]. split_and!.
  - unfold all_active. rewrite sort_slice_perm. rewrite <- list_fmap_compose.
    apply NoDup_fmap_2_strong; [|apply NoDup_filter, NoDup_map_to_list].
    intros [a ra] [b rb] [_ Ha%elem_of_map_to_list]%list_elem_of_filter [_ Hb%elem_of_map_to_list]%list_elem_of_filter Hk.
    assert (a = b) as -> by by apply (reg_keys _ p s Hr a b ra rb). congruence.
  - intros v (a & r & Ha & _ & ->)%elem_all_active. by apply (ok_validators s Hok) in Ha as [? _].
  - unfold all_active. rewrite sort_slice_perm, lsum_fmap.
    etrans; [apply lsum_filter_le; intros [a r] Ha%elem_of_map_to_list; by apply (ok_validators s Hok) in Ha as [? _]|].
    pose proof (citizen_locked_nonneg s Hok). pose proof (spendable_nonneg s Hok).
    etrans; [|apply (Z.le_trans _ (validator_locked s)); [reflexivity|unfold supply; lia]].
    unfold validator_locked. rewrite msum_map_to_list. apply lsum_le. intros [a r] Ha%elem_of_map_to_list.
    apply (ok_validators s Hok) in Ha as [_ Hu%lsum_unbonding_nonneg]. unfold validator_stake. simpl. lia.
Qed.

Lemma ActiveValidatorSet_ok p s :
  world_ok p s → 3 * supply s ≤ MaxUint64 → set_ok (ActiveValidatorSet s p).
Proof.
  intros Hw Hs. destruct (all_active_ok _ p s Hw) as (Hnd & Hpos & Hsum). rewrite ActiveValidatorSet_take.
  case_match; [|split; [done..|lia]]. set (n := Z.to_nat _). split.
  - rewrite fmap_take. rewrite <- (take_drop n (av_ConsensusPubKey <$> _)) in Hnd.
    by apply NoDup_app in Hnd as [? _].
  - intros v Hv. apply Hpos. by apply elem_of_take in Hv as (i & ? & _); eapply list_elem_of_lookup_2.
  - pose proof (lsum_take_le av_Power n _ Hpos). lia.
Qed.

(* ------------------------------------------------------------------ *)
(** * The configured roster *)

Section roster.
Context `{E : Ed25519}.

(** The registered validators whose approval of [b] verifies. *)
Definition roster_approvals (c : Chain) (b : Block) : gset string :=
  list_to_set (filter (λ kv, approval_valid c.(validatorKeys) (QuorumApprovalMessage b) kv = true)
                 (map_to_list b.(QuorumSignatures))).*1.

Lemma elem_roster_approvals c b id :
  id ∈ roster_approvals c b ↔
  ∃ key sg raw, c.(validatorKeys) !! id = Some key ∧ slen key = 32 ∧ b.(QuorumSignatures) !! id = Some sg ∧
    decode_fixed sg 64 = Some raw ∧ ed_Verify key (QuorumApprovalMessage b) raw = true.
Proof.
  unfold roster_approvals. rewrite elem_of_list_to_set, list_elem_of_fmap. unfold approval_valid. split.
  - intros ([id' sg] & -> & [Hv Hin%elem_of_map_to_list]%list_elem_of_filter). simpl in *.
    destruct (c.(validatorKeys) !! id') as [key|] eqn:Hk; [|done]. destruct (Z.eqb_spec (slen key) 32); [|done].
    destruct (decode_fixed sg 64) as [raw|] eqn:Hd; [|done]. by exists key, sg, raw.
  - intros (key & sg & raw & Hk & Hl & Hs & Hd & Hv). exists (id, sg). split; [done|]. apply list_elem_of_filter.
    split; [|by apply elem_of_map_to_list]. simpl. by rewrite Hk, Hl, Hd.
Qed.

Lemma size_roster_approvals c b :
  size (roster_approvals c b) =
  length (filter (λ kv, approval_valid c.(validatorKeys) (QuorumApprovalMessage b) kv = true)
            (map_to_list b.(QuorumSignatures))).
Proof.
  unfold roster_approvals. rewrite size_list_to_set; [apply length_fmap|].
  apply NoDup_fmap_fst; [|apply NoDup_filter, NoDup_map_to_list].
  intros id x y [_ Hx%elem_of_map_to_list]%list_elem_of_filter [_ Hy%elem_of_map_to_list]%list_elem_of_filter. congruence.
Qed.

(** [verifyBlockAuthorizationLocked] accepts exactly the blocks their
    registered proposer signed and a quorum of distinct registered validators
    approved. *)
Lemma verifyBlockAuthorization_iff c b :
  verifyBlockAuthorization c b true = inl tt ↔
  (∃ key raw, c.(validatorKeys) !! b.(Header).(ProposerID) = Some key ∧ slen key = 32 ∧
     decode_fixed b.(ProposerSignature) 64 = Some raw ∧ ed_Verify key b.(Hash) raw = true) ∧
  c.(requiredQuorum) ≤ Z.of_nat (size (roster_approvals c b)).
Proof.
  rewrite size_roster_approvals. unfold verifyBlockAuthorization.
  destruct (c.(validatorKeys) !! _) as [key|] eqn:Hk; [|by split; [done|intros [(? & ? & ? & _) _]]].
  destruct (Z.eqb_spec (slen key) 32); simpl; [|by split; [done|intros [(? & ? & [= ->] & ? & _) _]]].
  destruct (decode_fixed _ 64) as [raw|]; [|by split; [done|intros [(? & ? & _ & _ & ? & _) _]]].
  destruct (ed_Verify key _ raw) eqn:Hv; simpl; [|by split; [done|intros [(? & ? & [= ->] & _ & [= ->] & ?) _]]; congruence].
  match goal with |- context [?x <? ?y] => destruct (Z.ltb_spec x y) end.
  - split; [done|]. intros [_ ?]. lia.
  - split; [|done]. intros _. split; [by exists key, raw|lia].
Qed.

(** Two quorums of [q] among the same keys share at least [2q - n] of them. *)
Lemma roster_overlap c b1 b2 :
  (size (roster_approvals c b1) + size (roster_approvals c b2)
     ≤ size c.(validatorKeys) + size (roster_approvals c b1 ∩ roster_approvals c b2))%nat.
Proof.
  assert (∀ b, roster_approvals c b ⊆ dom c.(validatorKeys)) as Hsub.
  { intros b id (key & _ & _ & Hk & _)%elem_roster_approvals. by apply elem_of_dom. }
  rewrite <- (size_dom c.(validatorKeys)).
  pose proof (subseteq_size (roster_approvals c b1 ∪ roster_approvals c b2) (dom c.(validatorKeys)) ltac:(set_solver)).
  pose proof (size_union_alt (roster_approvals c b1) (roster_approvals c b2)).
  pose proof (size_difference_alt (roster_approvals c b2) (roster_approvals c b1)).
  pose proof (subseteq_size (roster_approvals c b2 ∩ roster_approvals c b1) (roster_approvals c b2) ltac:(set_solver)).
  rewrite (intersection_comm_L (roster_approvals c b1)). lia.
Qed.

End roster.

(* ------------------------------------------------------------------ *)
(** * Validation *)

Section validation.
Context `{E : Ed25519}.

Lemma verify_txs_ok c txs txs' :
  verify_txs c txs = (txs', inl tt) ↔
  txs' = map sort_metadata txs ∧ Forall (λ tx, tx.(ChainID) = transactionChainID c ∧ tx_authentic tx) txs.
Proof.
  revert txs'. induction txs as [|tx txs IH]; intros txs'; simpl.
  - split; [intros [= <-]; by split|by intros [-> _]].
  - rewrite Forall_cons. destruct (Z.eqb_spec (ChainID tx) (transactionChainID c)) as [Hid|Hid]; simpl; [|naive_solver].
    destruct (Verify_ok_case tx) as [[Hv Ha]|(e & Hv & Hna)].
    + rewrite Hv. destruct (verify_txs c txs) as [rest r] eqn:Hr. split.
      * intros [= <- ->]. destruct (proj1 (IH rest) eq_refl) as [-> ?]. by split_and!.
      * intros (-> & _ & HF). assert ((rest, r) = (map sort_metadata txs, inl tt)) as [= -> ->]; [|done].
        by apply IH.
    + destruct (Verify tx) as [tx' r]. simpl in Hv. subst r. naive_solver.
Qed.

(** Everything a successful validation has established, [b'] being the block
    as the call leaves it. *)
Record validated (now : Time) (c : Chain) (b : Block) (q : bool) (b' : Block) (next : State) : Prop := {
  va_header : check_header now c b q = inl tt;
  va_block : b' = set_b_Tx ((λ _, map sort_metadata (txs_of b)) <$> b.(b_Tx)) b;
  va_txs : Forall (λ tx, tx.(ChainID) = transactionChainID c ∧ tx_authentic tx) (txs_of b);
  va_next : next_state c c.(c_State) b' = (next, inl tt);
  va_root : c.(stateRootEnforceFromHeight) ≤ b.(Header).(Height) → Root next = b.(Header).(StateRoot)
}.

Lemma validateBlock_iff now c b q b' :
  validateBlock now c b q = (b', inl tt) ↔ ∃ next, validated now c b q b' next.
Proof.
  unfold validateBlock. destruct (check_header now c b q) as [[]|e] eqn:Hh; [|by split; [|intros (? & [])]; congruence].
  destruct (verify_txs c (txs_of b)) as [txs r] eqn:Hv. destruct r as [[]|e].
  - apply verify_txs_ok in Hv as [-> Hv]. set (b1 := set_b_Tx _ b).
    destruct (next_state c (c_State c) b1) as [next [[]|e]] eqn:Hn.
    + assert (∀ b', b' = b1 → Root next = StateRoot (Header b) ∨ Height (Header b) < stateRootEnforceFromHeight c →
        validated now c b q b' next) as Hval.
      { intros ? -> Hor. split; try done. intros ?. destruct Hor; [done|lia]. }
      change (Header b1) with (Header b).
      destruct (Z.leb_spec (stateRootEnforceFromHeight c) (Height (Header b))); simpl; [case_bool_decide as Hd; simpl|].
      * split; [intros [= <-]; exists next; apply Hval; auto|by intros (? & [? -> _ _ _])].
      * split; [done|]. intros (next' & [_ -> _ Hn' Hroot]). fold b1 in Hn'. rewrite Hn in Hn'. injection Hn' as ->.
        by destruct Hd; apply Hroot.
      * split; [intros [= <-]; exists next; apply Hval; auto|by intros (? & [? -> _ _ _])].
    + split; [done|]. intros (next' & [_ -> _ Hn' _]). fold b1 in Hn'. congruence.
  - split; [done|]. intros (next' & [_ _ HF _ _]).
    pose proof (proj2 (verify_txs_ok c (txs_of b) (map sort_metadata (txs_of b))) (conj eq_refl HF)). congruence.
Qed.

(** [FinalizeBlock] commits exactly what [ValidateBlock] accepts; otherwise
    the chain is untouched. *)
Lemma FinalizeBlock_cases now c b :
  (∃ b' next, validated now c b true b' next ∧
     FinalizeBlock now c b = (commit_block b' next c, set_Finalized true b', inl tt)) ∨
  (∃ b' e, ValidateBlock now c b = (b', inr e) ∧ FinalizeBlock now c b = (c, b', inr e)).
Proof.
  unfold FinalizeBlock, ValidateBlock.
  destruct (validateBlock now c b true) as [b' [[]|e]] eqn:Hv; [|right; by exists b', e].
  left. apply validateBlock_iff in Hv as [next Hval]. exists b', next. split; [done|].
  destruct Hval as [_ -> _ -> Hroot]. simpl.
  destruct (Z.leb_spec (stateRootEnforceFromHeight c) (Height (Header b))); simpl; [|done].
  by rewrite bool_decide_eq_true_2 by by apply Hroot.
Qed.

(** What [check_header] says about the place of the block in the chain. *)
Lemma check_header_ok now c b q :
  check_header now c b q = inl tt →
  ∃ parent, tip c = Some parent ∧ b.(Header).(ParentHash) = parent.(Hash) ∧
    b.(Header).(Height) = u64 (parent.(Header).(Height) + 1) ∧
    check_time now parent b = inl tt ∧ check_authorization c b q = inl tt ∧
    CalculateHash b = inl b.(Hash) ∧ TxMerkleRoot (txs_of b) = b.(Header).(h_TxMerkleRoot).
Proof.
  unfold check_header. destruct (empty_str _); [done|]. destruct (tip c) as [parent|]; [|done].
  case_bool_decide; simpl; [|done]. destruct (Z.eqb_spec (Height (Header b)) (u64 (Height (Header parent) + 1))); simpl; [|done].
  destruct (check_time now parent b) as [[]|] eqn:?; [|done].
  destruct (check_authorization c b q) as [[]|] eqn:?; [|done].
  destruct (CalculateHash b) as [h|]; [|done]. case_bool_decide; simpl; [|done]. case_bool_decide; simpl; [|done].
  intros _. exists parent. by split_and!; subst.
Qed.

(** Where stake consensus is off, validators are those of the roster. *)
Lemma stakeAuthoritySet_off c h : c.(validatorStaking).(ConsensusFromHeight) = 0 → stakeAuthoritySet c h = [].
Proof. intros H0. unfold stakeAuthoritySet, ConsensusActiveAt. rewrite H0. by destruct (h =? 0). Qed.

(** Without stake authority, a finalized block carries a quorum. *)
Lemma finalized_quorum now c b :
  stakeAuthoritySet c b.(Header).(Height) = [] → 0 < b.(Header).(Height) → c.(authEnforceFromHeight) ≤ b.(Header).(Height) →
  c.(validatorKeys) ≠ ∅ → (FinalizeBlock now c b).2 = inl tt → verifyBlockAuthorization c b true = inl tt.
Proof.
  intros Hs Hpos Hen Hk Hf. destruct (FinalizeBlock_cases now c b) as [(b' & next & [Hh _ _ _ _] & _)|(b' & e & _ & Hr)]; [|by rewrite Hr in Hf].
  destruct (check_header_ok _ _ _ _ Hh) as (_ & _ & _ & _ & _ & Ha & _). unfold check_authorization in Ha. rewrite Hs in Ha.
  rewrite (proj2 (Z.ltb_lt _ _)), bool_decide_eq_false_2, (proj2 (Z.leb_le _ _)) in Ha; try done.
  intros Hz. by apply map_size_empty_iff in Hz.
Qed.

Lemma trimHotWindow_state c : (trimHotWindow c).(c_State) = c.(c_State) ∧
  (trimHotWindow c).(Mempool) = c.(Mempool) ∧ (trimHotWindow c).(c_DEX) = c.(c_DEX).
Proof. unfold trimHotWindow. repeat case_match; done. Qed.

End validation.
