(* ===== verification/ChainBuild.v ===== *)
(** The mempool and block production: what admission guarantees about the
    transactions that wait, and that a block the chain builds from them is one
    every node with the same state and configuration accepts. *)
From stdpp Require Import base strings list gmap.
From S2P Require Import Prelude GoStd Sha256 Json Types Ledger TxModel Merkle Dex DexLedger.
From S2P Require Import Staking StakingFacts Apply ApplyFacts Fees Block Chain ChainFacts.

#[local] Open Scope string_scope.
#[local] Open Scope Z_scope.

Section mempool.
Context `{E : Ed25519}.

(** Every waiting transaction is filed under its own ID, signed, for this
    chain, and has its metadata in order. *)
Definition mempool_ok (c : Chain) : Prop :=
  ∀ id tx, c.(Mempool) !! id = Some tx →
    tx.(ID) = id ∧ tx_authentic tx ∧ sort_metadata tx = tx ∧ tx.(ChainID) = transactionChainID c.

(** What [SubmitTx] asks of a transaction. *)
Record admissible (now : Z) (tx : Tx) (c : Chain) : Prop := {
  ad_id : tx.(ID) ≠ "";
  ad_authentic : tx_authentic tx;
  ad_chain : tx.(ChainID) = transactionChainID c;
  ad_new : c.(Mempool) !! tx.(ID) = None;
  ad_nonce : tx.(Nonce) = GetNextNonce c.(c_State) tx.(From);
  ad_clock : checkCitizenClock (sort_metadata tx) now = inl tt
}.

Lemma tx_authentic_sorted t : tx_authentic (sort_metadata t) ↔ tx_authentic t.
Proof. unfold tx_authentic. by rewrite payload_bytes_sorted. Qed.

Definition admit_tx (tx : Tx) (c : Chain) : Chain := set_Mempool (<[tx.(ID) := sort_metadata tx]> c.(Mempool)) c.

Lemma SubmitTx_cases now tx c :
  (admissible now tx c ∧ SubmitTx now tx c = (admit_tx tx c, inl tt)) ∨
  (¬ admissible now tx c ∧ ∃ e, SubmitTx now tx c = (c, inr e)).
Proof.
  unfold SubmitTx, empty_str. case_bool_decide; [right; split; [by intros []|by eexists]|].
  unfold fail_if, mbind, SM_bind at 1.
  destruct (Verify_ok_case tx) as [[Hv Ha]|(e & Hv & Hna)].
  2: { right. split; [by intros []|]. destruct (Verify tx) as [t r]. simpl in Hv. subst r. by exists e. }
  rewrite Hv. unfold get, modify, lift, mbind, SM_bind.
  destruct (Z.eqb_spec (ChainID (sort_metadata tx)) (transactionChainID c)) as [Hc|Hc]; simpl;
    [|right; split; [by intros []|by eexists]].
  case_bool_decide as Hm; [right; split; [intros []; destruct Hm; congruence|by eexists]|].
  destruct (Z.eqb_spec (Nonce tx) (GetNextNonce (c_State c) (From tx))) as [Hn|Hn]; simpl;
    [|right; split; [by intros []|by eexists]].
  destruct (checkCitizenClock (sort_metadata tx) now) as [[]|] eqn:Hk; [|right; split; [by intros []; congruence|by eexists]].
  left. split; [|done]. split; try done. by apply eq_None_not_Some.
Qed.

Lemma admit_tx_ok now tx c : mempool_ok c → admissible now tx c → mempool_ok (admit_tx tx c).
Proof.
  intros Hm [] id t. simpl. intros [[<- <-]|[_ Ht]]%lookup_insert_Some; [|by apply Hm].
  split_and!; [done|by apply tx_authentic_sorted|apply sort_metadata_idemp|done].
Qed.

Lemma elem_candidates c tx : tx ∈ candidates c → ∃ id, c.(Mempool) !! id = Some tx.
Proof.
  unfold candidates. rewrite sort_slice_perm. intros ([id t] & -> & Hin%elem_of_map_to_list)%list_elem_of_fmap. by exists id.
Qed.

(** A check for the invariant. *)
Definition mempool_okb (c : Chain) : bool :=
  bool_decide (map_Forall (λ id tx, tx.(ID) = id ∧ (Verify tx).2 = inl tt ∧ sort_metadata tx = tx ∧
    tx.(ChainID) = transactionChainID c) c.(Mempool)).

Lemma mempool_okb_ok c : mempool_okb c = true → mempool_ok c.
Proof.
  unfold mempool_okb. rewrite bool_decide_eq_true. intros Hm id tx (? & Hv & ? & ?)%Hm. split_and!; try done.
  destruct (Verify_ok_case tx) as [[_ ?]|(e & He & _)]; [done|congruence].
Qed.

(** What finalization takes out of the mempool. *)
Lemma mempool_ok_commit b next c : mempool_ok c → mempool_ok (commit_block b next c).
Proof.
  intros Hm. unfold commit_block. set (c1 := set_Blocks _ _).
  assert (transactionChainID (trimHotWindow c1) = transactionChainID c) as Hid.
  { unfold trimHotWindow. by repeat case_match. }
  intros id tx. rewrite (proj1 (proj2 (trimHotWindow_state c1))), Hid. simpl. intros Hl. apply Hm. revert Hl.
  clear. generalize (Mempool c). generalize (txs_of b). intros l0. clear. induction l0 as [|t l IH]; intros m; simpl; [done|].
  intros Hl%IH. by apply lookup_delete_Some in Hl as [_ ?].
Qed.

End mempool.

(* ------------------------------------------------------------------ *)
(** * Building a block *)

Section build.
Context `{E : Ed25519}.

(** No skipped candidate leaves a trace in the scratch state. (The one that
    can is a failing [dex_add_liquidity], which may leave an empty pool.) *)
Fixpoint clean_skips (c : Chain) (cands : list Tx) (height : Z) (st : State) : Prop :=
  match cands with
  | [] => True
  | tx :: cands =>
      ((applyTx c tx height st).2 ≠ inl tt → (applyTx c tx height st).1 = st) ∧
      clean_skips c cands height (applyTx c tx height st).1
  end.

Lemma applyTxs_app c l1 l2 height st :
  applyTxs c (l1 ++ l2)%list height st =
  match applyTxs c l1 height st with
  | (st, inl _) => applyTxs c l2 height st
  | r => r
  end.
Proof.
  revert st. induction l1 as [|tx l1 IH]; intros st; [done|]. simpl. unfold mbind, SM_bind.
  destruct (applyTx c tx height st) as [st' [[]|e]]; [apply IH|done].
Qed.

(** The picked transactions, applied in order, give the scratch state. *)
Lemma pick_txs_replay c maxTx height cands acc st st' txs :
  (∀ tx, tx ∈ cands → sort_metadata tx = tx) → clean_skips c cands height st →
  pick_txs c maxTx height cands acc st = (st', inl txs) →
  ∃ picked, txs = (acc ++ picked)%list ∧ (∀ tx, tx ∈ picked → tx ∈ cands) ∧
    (Z.of_nat (length acc) ≤ maxTx → Z.of_nat (length txs) ≤ maxTx) ∧
    applyTxs c picked height st = (st', inl tt).
Proof.
  revert acc st. induction cands as [|tx cands IH]; intros acc st Hsort Hclean; simpl.
  { intros [= <- <-]. exists []. rewrite app_nil_r. split_and!; [done|set_solver|lia|done]. }
  destruct Hclean as [Hskip Hclean]. destruct (Z.leb_spec maxTx (Z.of_nat (length acc))).
  { intros [= <- <-]. exists []. rewrite app_nil_r. split_and!; [done|set_solver|lia|done]. }
  destruct (applyTx c tx height st) as [st1 r] eqn:Hrun. simpl in *. destruct r as [[]|[m|m]].
  - intros Hp. destruct (IH _ _ ltac:(intros; apply Hsort; by right) Hclean Hp) as (picked & -> & Hin & Hlen & Happ).
    exists (tx :: picked). rewrite (Hsort tx) in * by left. split_and!.
    + by rewrite <- app_assoc.
    + set_solver.
    + intros _. apply Hlen. rewrite length_app. simpl. lia.
    + simpl. unfold mbind, SM_bind. by rewrite Hrun.
  - rewrite Hskip in * by done. intros Hp.
    destruct (IH _ _ ltac:(intros; apply Hsort; by right) Hclean Hp) as (picked & -> & Hin & Hlen & Happ).
    exists picked. split_and!; [done|set_solver|done|done].
  - done.
Qed.

Lemma no_correction c height st :
  Forall (λ corr, corr.(corr_Height) ≠ height) c.(stateCorrections) →
  applyIrregularStateCorrections c height st = st.
Proof.
  unfold applyIrregularStateCorrections. induction 1 as [|corr l Hne _ IH] in st |- *; simpl; [done|].
  rewrite (proj2 (Z.eqb_neq _ _) Hne). simpl. apply IH.
Qed.

(** A proposer signs the block it has built. *)
Definition sign_proposal (sg : string) (b : Block) : Block :=
  mkBlock b.(Header) b.(b_Tx) b.(Hash) b.(ValidatorVotes) b.(Finalized) sg b.(QuorumSignatures).

Lemma build_state_replay c id maxTx height st' txs :
  mempool_ok c → clean_skips c (candidates c) height (Clone c.(c_State)) →
  Forall (λ corr, corr.(corr_Height) ≠ height) c.(stateCorrections) →
  build_state c id maxTx height (Clone c.(c_State)) = (st', inl txs) →
  block_transition c c.(c_State) txs height id (Clone c.(c_State)) = (st', inl tt) ∧
  Forall (λ tx, tx.(ChainID) = transactionChainID c ∧ tx_authentic tx ∧ sort_metadata tx = tx) txs ∧
  Z.of_nat (length txs) ≤ (if maxTx <=? 0 then 1000 else maxTx).
Proof.
  intros Hm Hclean Hcorr. unfold build_state, block_transition, mbind, SM_bind.
  destruct (pick_txs _ _ _ _ _ _) as [st1 [picked|e]] eqn:Hp; [|done].
  destruct (pick_txs_replay _ _ _ _ _ _ _ _ ltac:(intros tx [i Hi]%elem_candidates; by apply Hm in Hi as (_ & _ & ? & _))
    Hclean Hp) as (x & -> & Hin & Hlen & Happ).
  simpl in Hlen |- *. intros Hrun.
  assert (Z.of_nat (length x) ≤ (if maxTx <=? 0 then 1000 else maxTx)) as Hle.
  { apply Hlen. destruct (Z.leb_spec maxTx 0); lia. }
  destruct (creditProposerFees x _ st1) as [st2 [[]|e]] eqn:Hcr; [|done].
  unfold modify, mret, SM_ret in *. simpl in Hrun. injection Hrun as <- <-. split_and!; [|apply Forall_forall|done].
  - rewrite Happ, Hcr. unfold finishBlockState. rewrite no_correction by done. by case_match; rewrite !no_correction by done.
  - intros tx Htx. destruct (elem_candidates c tx (Hin tx Htx)) as [i Hi]. by apply Hm in Hi as (_ & ? & ? & ?).
Qed.

Lemma map_sorted txs : Forall (λ tx, sort_metadata tx = tx) txs → map sort_metadata txs = txs.
Proof. induction 1 as [|tx l H _ IH]; simpl; [done|]. by rewrite H, IH. Qed.

Lemma hex0x_nonempty s : empty_str (hex0x s) = false.
Proof. done. Qed.

Lemma CalculateHash_nonempty b h : CalculateHash b = inl h → empty_str h = false.
Proof. unfold CalculateHash. destruct (time_text _); [|done]. by intros [= <-]. Qed.

(** Signatures and the hash itself are not hashed. *)
Lemma CalculateHash_signed sg h b : CalculateHash (sign_proposal sg (set_Hash h b)) = CalculateHash b.
Proof. done. Qed.

(** The transactions of a built block are the ones the scratch run picked. *)
Lemma BuildBlock_inv now id poc maxTx c b parent :
  tip c = Some parent → BuildBlock now id poc maxTx c = inl b →
  ∃ tmp, build_state c id maxTx (u64 (parent.(Header).(Height) + 1)) (Clone c.(c_State)) = (tmp, inl (txs_of b)).
Proof.
  intros Htip. unfold BuildBlock. rewrite Htip. set (height := u64 _).
  destruct (build_state c id maxTx height (Clone c.(c_State))) as [tmp [txs|e]]; [|done].
  set (b0 := mkBlock _ _ _ _ _ _ _). unfold ComputeHash.
  assert (b_Tx b0 = Some txs) as Hb0 by done. clearbody b0.
  destruct (CalculateHash b0) as [h|e]; [|done]. intros [= <-]. exists tmp. unfold txs_of. cbn [set_Hash b_Tx]. by rewrite Hb0.
Qed.

Lemma BuildBlock_proposal now now' id poc maxTx c b sg parent :
  mempool_ok c → tip c = Some parent →
  let height := u64 (parent.(Header).(Height) + 1) in
  clean_skips c (candidates c) height (Clone c.(c_State)) →
  Forall (λ corr, corr.(corr_Height) ≠ height) c.(stateCorrections) →
  Before b.(Header).(h_Timestamp) parent.(Header).(h_Timestamp) = false → now.(instant) ≤ now'.(instant) →
  BuildBlock now id poc maxTx c = inl b →
  check_authorization c (sign_proposal sg b) false = inl tt →
  ValidateProposal now' c (sign_proposal sg b) = (sign_proposal sg b, inl tt).
Proof.
  intros Hm Htip height Hclean Hcorr Hbefore Hnow. unfold BuildBlock. rewrite Htip. fold height.
  destruct (build_state c id maxTx height (Clone c.(c_State))) as [tmp [txs|e]] eqn:Hb; [|done].
  destruct (build_state_replay _ _ _ _ _ _ Hm Hclean Hcorr Hb) as (Hrun & Htxs & _).
  set (b0 := mkBlock _ _ _ _ _ _ _). unfold ComputeHash.
  destruct (CalculateHash b0) as [h|e] eqn:Hh; [|done]. intros [= <-] Hauth.
  assert (map sort_metadata txs = txs) as Hms by (apply map_sorted; eapply Forall_impl; [exact Htxs|naive_solver]).
  unfold ValidateProposal. apply validateBlock_iff. exists tmp. split.
  - unfold check_header. cbn [Hash Header ParentHash Height sign_proposal set_Hash b0].
    rewrite (CalculateHash_nonempty _ _ Hh), Htip.
    rewrite bool_decide_eq_true_2 by done. change (u64 (Height (Header parent) + 1)) with height. rewrite Z.eqb_refl. cbn [negb orb].
    unfold check_time. cbn [Header h_Timestamp sign_proposal set_Hash b0] in *. rewrite Hbefore, andb_false_r, Hauth.
    assert (After (TruncateSecond (mkTime (instant now) 0)) (Add now' five_minutes) = false) as ->.
    { unfold After, TruncateSecond, Add, five_minutes, second. simpl. apply Z.ltb_ge.
      pose proof (Z.mul_div_le (instant now) 1000000000). lia. }
    rewrite CalculateHash_signed, Hh.
    rewrite !bool_decide_eq_true_2 by done. by destruct (IsZero _).
  - simpl. unfold txs_of. simpl. by rewrite Hms.
  - unfold txs_of. simpl. eapply Forall_impl; [exact Htxs|]. naive_solver.
  - exact Hrun.
  - intros _. reflexivity.
Qed.

End build.
