(* ===== verification/ChainWindow.v ===== *)
(** The bounded window of blocks in memory. Against the whole history as the
    abstract state: [BlockAt] and [BlocksRange] answer from memory and archive
    together exactly what the history holds, finalization appends to it, and
    the checkpoint kept at the edge of the window is the state from which the
    retained blocks replay to the live one. *)
From stdpp Require Import base strings list gmap.
From S2P Require Import Prelude GoStd Sha256 Json Types Ledger TxModel Merkle Dex DexLedger.
From S2P Require Import Staking StakingFacts Apply ApplyFacts Fees Block Chain ChainFacts.

#[local] Open Scope string_scope.
#[local] Open Scope list_scope.
#[local] Open Scope Z_scope.

(* ------------------------------------------------------------------ *)
(** * The history behind a chain *)

(** [H] is the history of [c]: one block per height from genesis, of which
    the chain holds those from [hotWindowStart] on. *)
Record window_ok (H : list Block) (c : Chain) : Prop := {
  wo_heights : ∀ i b, H !! i = Some b → b.(Header).(Height) = Z.of_nat i;
  wo_start : 0 ≤ c.(hotWindowStart) < Z.of_nat (length H);
  wo_blocks : c.(Blocks) = drop (Z.to_nat c.(hotWindowStart)) H;
  wo_small : Z.of_nat (length H) < MaxUint64
}.

(** The archive serves every block that has left the window. *)
Definition archive_ok (H : list Block) (c : Chain) : Prop :=
  ∃ reader, c.(coldBlocks) = Some reader ∧ ∀ h, 0 ≤ h < c.(hotWindowStart) → reader h = H !! Z.to_nat h.

(** The answer the history gives to a range query. *)
Definition history_range (H : list Block) (from limit : Z) : list Block :=
  let l := drop (Z.to_nat from) H in if 0 <? limit then take (Z.to_nat limit) l else l.

Section view.
Context `{E : Ed25519} (H : list Block) (c : Chain) (Hw : window_ok H c).

Lemma window_tip : ∃ t, tip c = Some t ∧ last H = Some t ∧ t.(Header).(Height) = Z.of_nat (length H) - 1.
Proof.
  destruct Hw as [Hh [Hs1 Hs2] Hb _].
  assert (∃ t, last H = Some t) as [t Ht] by (apply last_is_Some; intros ->; simpl in *; lia).
  exists t. split_and!; [|done|].
  - unfold tip. rewrite Hb, last_lookup, lookup_drop, length_drop. rewrite last_lookup in Ht. rewrite <- Ht. f_equal. lia.
  - rewrite last_lookup in Ht. rewrite (Hh _ _ Ht). lia.
Qed.

Lemma length_window : Z.of_nat (length c.(Blocks)) = Z.of_nat (length H) - c.(hotWindowStart).
Proof. destruct Hw as [_ ? -> _]. rewrite length_drop. lia. Qed.

Lemma BlockAt_view h : archive_ok H c → 0 ≤ h → BlockAt c h = H !! Z.to_nat h.
Proof.
  intros (reader & Hc & Hr) Hh. destruct window_tip as (t & Ht & _ & Hth). destruct Hw as [_ Hs Hb _].
  unfold BlockAt, blockAt. rewrite Ht, Hc, Hth, Hb.
  destruct (Z.ltb_spec (Z.of_nat (length H) - 1) h); [symmetry; apply lookup_ge_None; lia|].
  destruct (Z.ltb_spec h c.(hotWindowStart)); [apply Hr; lia|].
  rewrite lookup_drop. replace (Z.to_nat c.(hotWindowStart) + Z.to_nat (h - c.(hotWindowStart)))%nat with (Z.to_nat h) by lia.
  destruct (H !! Z.to_nat h) eqn:He; [done|]. apply lookup_ge_None in He. lia.
Qed.

(** The archive loop: [n] blocks from [h], or as many as the limit allows. *)
Lemma read_cold_view reader n h limit out :
  0 ≤ h → h + Z.of_nat n ≤ Z.of_nat (length H) →
  (∀ i, h ≤ i < h + Z.of_nat n → reader i = H !! Z.to_nat i) →
  (0 < limit → Z.of_nat (length out) ≤ limit) →
  let seg := take n (drop (Z.to_nat h) H) in
  read_cold reader n h limit out =
  if (0 <? limit) && (limit <? Z.of_nat (length out + n))
  then (out ++ take (Z.to_nat limit - length out) seg, false) else (out ++ seg, true).
Proof.
  intros Hh Hn Hr Hl. simpl. revert h out Hh Hn Hr Hl. induction n as [|n IH]; intros h out Hh Hn Hr Hl; simpl.
  - rewrite app_nil_r, Nat.add_0_r. destruct (Z.ltb_spec 0 limit); simpl; [|done].
    destruct (Z.ltb_spec limit (Z.of_nat (length out))); [specialize (Hl ltac:(done)); lia|done].
  - assert (∃ b, H !! Z.to_nat h = Some b) as [b Hb] by (apply lookup_lt_is_Some; lia).
    rewrite (drop_S _ _ _ Hb). simpl.
    destruct (Z.ltb_spec 0 limit); simpl.
    + destruct (Z.leb_spec limit (Z.of_nat (length out))).
      { destruct (Z.ltb_spec limit (Z.of_nat (length out + S n))); [|lia].
        replace (Z.to_nat limit - length out)%nat with 0%nat by lia. by rewrite app_nil_r. }
      rewrite (Hr h) by lia. rewrite Hb, IH; [|lia|lia|intros i Hi; apply Hr; lia|rewrite length_app; simpl; lia].
      rewrite length_app. simpl. replace (Z.to_nat (h + 1)) with (S (Z.to_nat h)) by lia.
      replace (length out + 1 + n)%nat with (length out + S n)%nat by lia.
      destruct (Z.ltb_spec limit (Z.of_nat (length out + S n))), (Z.ltb_spec 0 limit); simpl; try lia.
      * replace (Z.to_nat limit - length out)%nat with (S (Z.to_nat limit - (length out + 1))) by lia.
        by rewrite <- app_assoc.
      * by rewrite <- app_assoc.
    + rewrite (Hr h) by lia. rewrite Hb, IH; [|lia|lia|intros i Hi; apply Hr; lia|lia].
      destruct (Z.ltb_spec 0 limit); [lia|]. simpl. replace (Z.to_nat (h + 1)) with (S (Z.to_nat h)) by lia.
      by rewrite <- app_assoc.
Qed.

(** The part of a query that the window alone answers. *)
Lemma hot_range from limit :
  c.(hotWindowStart) ≤ from < Z.of_nat (length H) →
  let want := if (0 <? limit) && (limit <? Z.of_nat (length H) - 1 - from + 1) then limit
              else Z.of_nat (length H) - 1 - from + 1 in
  let rest := drop (Z.to_nat (from - c.(hotWindowStart))) c.(Blocks) in
  (if (0 <? limit) && (want <? Z.of_nat (length rest)) then take (Z.to_nat want) rest else rest)
  = history_range H from limit.
Proof.
  intros Hf want rest. destruct Hw as [_ Hs Hb _].
  assert (rest = drop (Z.to_nat from) H) as Hrest.
  { unfold rest. rewrite Hb, drop_drop. f_equal. lia. }
  assert (length rest = (length H - Z.to_nat from)%nat) as Hlen by (by rewrite Hrest, length_drop).
  unfold history_range. rewrite <- Hrest. unfold want.
  destruct (Z.ltb_spec 0 limit); simpl; [|done].
  destruct (Z.ltb_spec limit (Z.of_nat (length H) - 1 - from + 1)).
  - destruct (Z.ltb_spec limit (Z.of_nat (length rest))); [done|]. rewrite take_ge; [done|lia].
  - destruct (Z.ltb_spec (Z.of_nat (length H) - 1 - from + 1) (Z.of_nat (length rest))); [lia|].
    rewrite take_ge; [done|lia].
Qed.

Lemma history_split from :
  0 ≤ from ≤ c.(hotWindowStart) →
  drop (Z.to_nat from) H = take (Z.to_nat (c.(hotWindowStart) - from)) (drop (Z.to_nat from) H) ++ c.(Blocks).
Proof.
  intros Hf. destruct Hw as [_ Hs Hb _]. rewrite Hb.
  rewrite <- (take_drop (Z.to_nat (c.(hotWindowStart) - from)) (drop (Z.to_nat from) H)) at 1.
  f_equal. rewrite drop_drop. f_equal. lia.
Qed.

(** [BlocksRange] is the range of the history, wherever the blocks are. *)
Lemma BlocksRange_view from limit :
  archive_ok H c → BlocksRange c from limit = history_range H (Z.max from 0) limit.
Proof.
  intros (reader & Hc & Hr). destruct window_tip as (t & Ht & _ & Hth). pose proof length_window as Hlen.
  pose proof Hw as [_ Hs Hb _]. unfold BlocksRange. rewrite Ht, Hth, Hc.
  replace (if from <? 0 then 0 else from) with (Z.max from 0) by (destruct (Z.ltb_spec from 0); lia).
  set (f := Z.max from 0). assert (0 ≤ f) as Hf by lia.
  destruct (Z.ltb_spec (Z.of_nat (length H) - 1) f) as [Hlt|Hge].
  { unfold history_range. rewrite drop_ge by lia. case_match; [by rewrite take_nil|done]. }
  destruct (Z.leb_spec (hotWindowStart c) f); [by apply hot_range; lia|].
  rewrite (read_cold_view reader _ f limit []); [|done|lia|intros i Hi; apply Hr; lia|simpl; lia].
  pose proof (history_split f ltac:(lia)) as Hsp. set (seg := take _ _) in *.
  assert (length seg = Z.to_nat (hotWindowStart c - f)) as Hseg by (unfold seg; rewrite length_take, length_drop; lia).
  unfold history_range. rewrite Hsp. simpl.
  destruct (Z.ltb_spec 0 limit) as [Hl|Hl]; simpl.
  - destruct (Z.leb_spec limit 0); [lia|]. simpl.
    destruct (Z.ltb_spec limit (Z.of_nat (Z.to_nat (hotWindowStart c - f)))) as [Hshort|Hlong].
    { rewrite Nat.sub_0_r, take_app_le by lia. done. }
    rewrite take_app, (take_ge seg), Hseg by lia.
    destruct (Z.ltb_spec (Z.of_nat (Z.to_nat (hotWindowStart c - f))) limit) as [Hmore|Heq].
    + destruct (Z.ltb_spec (hotWindowStart c - f) (if limit <? Z.of_nat (length H) - 1 - f + 1 then limit else Z.of_nat (length H) - 1 - f + 1)) as [_|Hbad];
        [|destruct (Z.ltb_spec limit (Z.of_nat (length H) - 1 - f + 1)); lia].
      f_equal. destruct (Z.ltb_spec limit (Z.of_nat (length H) - 1 - f + 1)) as [Hlim|Hlim].
      * destruct (Z.ltb_spec (limit - (hotWindowStart c - f)) (Z.of_nat (length (Blocks c)))); [|lia].
        rewrite length_take. match goal with |- context [limit <? ?x] => destruct (Z.ltb_spec limit x); [lia|] end. f_equal. lia.
      * destruct (Z.ltb_spec (Z.of_nat (length H) - 1 - f + 1 - (hotWindowStart c - f)) (Z.of_nat (length (Blocks c)))); [lia|].
        match goal with |- context [limit <? ?x] => destruct (Z.ltb_spec limit x); [lia|] end. rewrite take_ge; [done|lia].
    + replace (Z.to_nat limit - Z.to_nat (hotWindowStart c - f))%nat with 0%nat by lia. by rewrite take_0, app_nil_r.
  - destruct (Z.leb_spec limit 0); [|lia]. done.
Qed.

End view.

(* ------------------------------------------------------------------ *)
(** * Trimming *)

Section trim.
Context `{E : Ed25519}.

(** What trimming can do: nothing, or move [excess] blocks out of the window
    and the checkpoint past them. *)
Lemma trimHotWindow_cases c :
  trimHotWindow c = c ∨
  ∃ n base next, (0 < n)%nat ∧ Z.of_nat (length c.(Blocks)) - c.(maxHotBlocks) = Z.of_nat n ∧ 0 < c.(maxHotBlocks) ∧
    baseState c = Some base ∧ advance_checkpoint c (Clone base) (take n c.(Blocks)) = inl next ∧
    trimHotWindow c = set_hotWindowStart (u64 (c.(hotWindowStart) + Z.of_nat n))
      (set_Blocks (drop n c.(Blocks)) (set_hotWindowBaseBlock (c.(Blocks) !! (n - 1)%nat) (set_hotWindowBaseState (Some next) c))).
Proof.
  unfold trimHotWindow. set (excess := _ - _).
  destruct (Z.leb_spec c.(maxHotBlocks) 0); [by left|]. destruct (Z.leb_spec excess 0); [by left|]. simpl.
  destruct (baseState c) as [base|] eqn:Hb; [|by left].
  destruct (advance_checkpoint c (Clone base) _) as [next|e] eqn:Ha; [|by left].
  right. exists (Z.to_nat excess), base, next. split_and!; try done; [lia|lia|].
  rewrite Z2Nat.id by lia. do 3 f_equal. replace (Z.to_nat excess - 1)%nat with (Z.to_nat (excess - 1)) by lia. done.
Qed.

Lemma window_ok_trim H c : window_ok H c → window_ok H (trimHotWindow c).
Proof.
  intros Hw. destruct (trimHotWindow_cases c) as [->|(n & base & next & Hn & Hex & Hm & _ & _ & ->)]; [done|].
  pose proof (length_window H c Hw) as Hlen. destruct Hw as [Hh Hs Hb Hsm].
  assert (u64 (c.(hotWindowStart) + Z.of_nat n) = c.(hotWindowStart) + Z.of_nat n) as Hu by (apply u64_small; split; lia).
  split; simpl; rewrite ?Hu; [done|lia| |done]. rewrite Hb, drop_drop. f_equal. lia.
Qed.

(** The chain with the new block, before trimming. *)
Definition extended (b : Block) (next : State) (c : Chain) : Chain :=
  set_Blocks (c.(Blocks) ++ [set_Finalized true b])
    (set_Mempool (foldl (λ m tx, delete tx.(ID) m) c.(Mempool) (txs_of b))
      (set_DEX (DEX.SyncFromState next) (set_State next c))).

Lemma commit_extended b next c : commit_block b next c = trimHotWindow (extended b next c).
Proof. done. Qed.

Lemma window_ok_extended H c b next :
  window_ok H c → Z.of_nat (length H) + 1 < MaxUint64 →
  b.(Header).(Height) = Z.of_nat (length H) → window_ok (H ++ [set_Finalized true b]) (extended b next c).
Proof.
  intros [Hh Hs Hb _] Hsm Hht. split; simpl; rewrite ?length_app; simpl; [|lia| |lia].
  - intros i b' [Hi|[Hi Hb']]%lookup_app_Some; [by apply Hh|]. apply list_lookup_singleton_Some in Hb' as [? <-].
    simpl. rewrite Hht. lia.
  - rewrite Hb, drop_app_le by lia. done.
Qed.

(** Finalizing a block appends it to the history. *)
Lemma window_ok_commit H c b next :
  window_ok H c → Z.of_nat (length H) + 1 < MaxUint64 →
  b.(Header).(Height) = Z.of_nat (length H) → window_ok (H ++ [set_Finalized true b]) (commit_block b next c).
Proof. intros. rewrite commit_extended. by apply window_ok_trim, window_ok_extended. Qed.

(** The transition depends on the chain's configuration only. *)
Definition same_rules (c c' : Chain) : Prop := ∀ st b, next_state c st b = next_state c' st b.

Lemma same_rules_config c c' :
  c.(c_ChainID) = c'.(c_ChainID) → c.(validatorStaking) = c'.(validatorStaking) →
  c.(stateCorrections) = c'.(stateCorrections) → c.(validatorKeys) = c'.(validatorKeys) → same_rules c c'.
Proof.
  intros Hi Hs Hc Hk st b. unfold next_state, block_transition, mbind, SM_bind.
  assert (∀ txs h s, applyTxs c txs h s = applyTxs c' txs h s) as ->.
  { intros txs h. induction txs as [|tx txs IH]; intros s; simpl; [done|]. unfold mbind, SM_bind, applyTx. rewrite Hi, Hs.
    by destruct (ApplyTransaction _ _ s) as [? [[]|]]. }
  unfold proposerAddress, resolveProposerAddress, finishBlockState, applyIrregularStateCorrections, modify.
  by rewrite Hs, Hc, Hk.
Qed.

Lemma advance_checkpoint_rules c c' st bs : same_rules c c' → advance_checkpoint c st bs = advance_checkpoint c' st bs.
Proof. intros Hr. revert st. induction bs as [|b bs IH]; intros st; simpl; [done|]. rewrite Hr. destruct (next_state c' st b) as [? []]; [apply IH|done]. Qed.

Lemma same_rules_trim c : same_rules (trimHotWindow c) c.
Proof. destruct (trimHotWindow_cases c) as [->|(n & base & next & _ & _ & _ & _ & _ & ->)]; by apply same_rules_config. Qed.

Lemma advance_checkpoint_app c st l1 l2 :
  advance_checkpoint c st (l1 ++ l2) =
  match advance_checkpoint c st l1 with inl st => advance_checkpoint c st l2 | inr e => inr e end.
Proof.
  revert st. induction l1 as [|b l1 IH]; intros st; simpl; [done|].
  destruct (next_state c st b) as [st' [[]|e]]; [apply IH|done].
Qed.

(** A transition starts from a clone, so the nil maps a clone normalises do
    not matter to it. *)
Lemma next_state_Clone c s t b : Clone s = Clone t → next_state c s b = next_state c t b.
Proof.
  intros Hst. unfold next_state. rewrite Hst. assert (AuthorizingValidatorSet s = AuthorizingValidatorSet t) as Hs.
  { change (AuthorizingValidatorSet (Clone s) = AuthorizingValidatorSet (Clone t)). by rewrite Hst. }
  unfold block_transition, proposerAddress. by rewrite Hs.
Qed.

Lemma advance_checkpoint_Clone c s t b bs :
  Clone s = Clone t → advance_checkpoint c s (b :: bs) = advance_checkpoint c t (b :: bs).
Proof. intros Hst. simpl. by rewrite (next_state_Clone c s t b Hst). Qed.

(** The checkpoint is the state from which the retained blocks replay to the
    live one (up to the nil maps a clone normalises). *)
Definition checkpoint_ok (c : Chain) : Prop :=
  c.(Blocks) ≠ [] ∧
  ∃ base s, baseState c = Some base ∧ advance_checkpoint c (Clone base) c.(Blocks) = inl s ∧ Clone s = Clone c.(c_State).

Lemma checkpoint_ok_trim H c : window_ok H c → checkpoint_ok c → checkpoint_ok (trimHotWindow c).
Proof.
  intros Hw [Hne (base & s & Hb & Ha & Hs)]. pose proof (window_ok_trim H c Hw) as Hw'.
  pose proof (same_rules_trim c) as Hr.
  destruct (trimHotWindow_cases c) as [->|(n & base' & next & Hn & Hex & Hm & Hb' & Hnext & Heq)];
    [split; [done|by exists base, s]|].
  rewrite Heq in *. pose proof Hw' as [_ Hstart _ _]. rewrite Hb in Hb'. injection Hb' as <-.
  assert (length (drop n c.(Blocks)) > 0)%nat as Hlen by (rewrite length_drop; lia).
  destruct (drop n c.(Blocks)) as [|b0 bs0] eqn:Hd; [simpl in Hlen; lia|].
  split; [done|]. exists next, s. simpl in Hstart. split_and!; [|rewrite (advance_checkpoint_rules _ c _ _ Hr)|done].
  - unfold baseState. simpl. destruct (Z.eqb_spec (u64 (c.(hotWindowStart) + Z.of_nat n)) 0) as [He|]; [|done].
    destruct Hw as [_ Hs0 Hb0 Hsm]. rewrite u64_small in He; [lia|]. split; [lia|].
    assert (length c.(Blocks) ≤ length H)%nat by (rewrite Hb0, length_drop; lia).
    pose proof (f_equal length Hb0) as Hl. rewrite length_drop in Hl. lia.
  - rewrite <- (take_drop n c.(Blocks)), advance_checkpoint_app, Hnext, Hd in Ha.
    cbn [Blocks set_hotWindowStart set_Blocks].
    by rewrite (advance_checkpoint_Clone c (Clone next) next) by apply Clone_idemp.
Qed.

Lemma checkpoint_ok_commit H c b next :
  window_ok H c → Z.of_nat (length H) + 1 < MaxUint64 → b.(Header).(Height) = Z.of_nat (length H) →
  checkpoint_ok c → next_state c c.(c_State) b = (next, inl tt) → checkpoint_ok (commit_block b next c).
Proof.
  intros Hw Hsm Hht [Hne (base & s & Hb & Ha & Hs)] Hn. rewrite commit_extended.
  eapply checkpoint_ok_trim; [by apply window_ok_extended|]. split; [intros []%app_nil; by destruct (Blocks c)|].
  exists base, next. split_and!; [exact Hb| |done].
  rewrite (advance_checkpoint_rules (extended b next c) c) by by apply same_rules_config. simpl. rewrite advance_checkpoint_app, Ha. simpl.
  change (next_state c s (set_Finalized true b)) with (next_state c s b).
  by rewrite (next_state_Clone c s c.(c_State) b Hs), Hn.
Qed.

End trim.

(* ------------------------------------------------------------------ *)
(** * Fork choice *)

Section reorg.
Context `{E : Ed25519}.

(** An unbounded chain appends what it finalizes. *)
Lemma FinalizeBlock_appends now c b c' b' :
  c.(maxHotBlocks) = 0 → FinalizeBlock now c b = (c', b', inl tt) →
  c'.(maxHotBlocks) = 0 ∧ c'.(Blocks) = c.(Blocks) ++ [b'] ∧ b'.(Header) = b.(Header).
Proof.
  intros Hm. destruct (FinalizeBlock_cases now c b) as [(b1 & next & [_ -> _ _ _] & ->)|(b1 & e & _ & ->)]; [|done].
  intros [= <- <-]. unfold commit_block, trimHotWindow. simpl. by rewrite Hm.
Qed.

Lemma replay_blocks now scratch bs s' :
  scratch.(maxHotBlocks) = 0 → replay now scratch bs = inl s' →
  ∃ new, s'.(Blocks) = scratch.(Blocks) ++ new ∧
    Forall2 (λ o b, ∃ b0, o = Some b0 ∧ b.(Header) = b0.(Header)) bs new.
Proof.
  revert scratch. induction bs as [|[b|] bs IH]; intros scratch Hm; simpl; [|
    destruct (FinalizeBlock now scratch b) as [[s1 b1] [[]|e]] eqn:Hf; [|done]|done].
  - intros [= <-]. exists []. by rewrite app_nil_r.
  - destruct (FinalizeBlock_appends _ _ _ _ _ Hm Hf) as (Hm1 & Hb1 & Hh). intros (new & Hn & HF)%IH; [|done].
    exists (b1 :: new). rewrite Hn, Hb1, <- app_assoc. split; [done|]. constructor; [by exists b|done].
Qed.

(** What a plan is made of when the chain still starts at genesis. *)
Lemma reorg_plan_genesis forkHeight candidate c p :
  c.(hotWindowStart) = 0 → reorg_plan forkHeight candidate c = inl p →
  p.(rp_prefix) = drop 1 (take (Z.to_nat forkHeight) c.(Blocks)) ∧ p.(rp_scratch).(maxHotBlocks) = 0 ∧
  (∃ anchor, p.(rp_scratch).(Blocks) = [anchor]) ∧ 0 < forkHeight ≤ Z.of_nat (length c.(Blocks)) ∧
  ∃ b rest, candidate = Some b :: rest ∧ b.(Header).(Height) = forkHeight.
Proof.
  intros Hs. unfold reorg_plan. case_bool_decide; simpl; [|done].
  destruct (Z.eqb_spec forkHeight 0) as [|Hz]; [done|]. destruct (_ <? forkHeight); simpl; [done|]. rewrite Hs.
  destruct (Z.ltb_spec forkHeight 0); [done|].
  destruct candidate as [|[b|] rest]; simpl; [done| |done].
  destruct (Z.eqb_spec b.(Header).(Height) forkHeight); simpl; [|done]. rewrite Z.sub_0_r.
  destruct (Nat.ltb_spec (length c.(Blocks)) (Z.to_nat forkHeight)); [done|].
  destruct (baseState c); [|done]. destruct (baseBlock c) as [anchor|]; [|done].
  intros [= <-]. simpl. split_and!; [done|done|by exists anchor|lia|lia|]. by exists b, rest.
Qed.

(** After a reorg on a chain that has never been trimmed, position 0 of the
    block list, which readers take for genesis, holds the block of height 1. *)
Lemma reorg_shifts H now forkHeight candidate c c' :
  window_ok H c → c.(hotWindowStart) = 0 → c.(maxHotBlocks) = 0 →
  TryReorg now forkHeight candidate c c = (c', inl true) →
  c'.(hotWindowStart) = 0 ∧ ∃ b, c'.(Blocks) !! 0%nat = Some b ∧ b.(Header).(Height) = 1.
Proof.
  intros Hw Hs Hm. unfold TryReorg. destruct (reorg_plan forkHeight candidate c) as [p|] eqn:Hp; [|done].
  destruct (reorg_plan_genesis _ _ _ _ Hs Hp) as (Hpre & Hm0 & [anchor Hanc] & Hz & b0 & rest & -> & Hb0).
  case_match; [done|]. destruct (replay now _ _) as [scratch|] eqn:Hr; [|done].
  unfold reorg_commit. case_match; [done|]. intros [= <-].
  destruct (replay_blocks _ _ _ _ Hm0 Hr) as (new & Hn & HF). rewrite Hanc in Hn.
  unfold trimHotWindow. simpl. rewrite Hm. simpl. split; [done|]. rewrite Hn. simpl.
  apply Forall2_app_inv_l in HF as (n1 & n2 & HF1 & HF2 & ->).
  pose proof (Forall2_length _ _ _ HF1) as Hl. rewrite length_map in Hl.
  replace (drop (length (rp_prefix p)) (n1 ++ n2)) with n2 by (by rewrite drop_app_length').
  destruct Hw as [Hh Hst Hbl _]. rewrite Hs, drop_0 in Hbl. destruct (rp_prefix p) as [|b1 pre].
  - inversion HF2 as [|o bn l l' Hbn Hrest]; subst. destruct Hbn as (b2 & [= <-] & Hbn).
    exists bn. split; [done|]. rewrite Hbn.
    pose proof (f_equal length Hpre) as Hlen. rewrite length_drop, length_take in Hlen. simpl in Hlen. lia.
  - exists b1. split; [done|]. apply (Hh 1%nat). rewrite <- Hbl.
    assert ((b1 :: pre) !! 0%nat = Some b1) as Hl1 by done. rewrite Hpre, lookup_drop in Hl1.
    by apply lookup_take_Some in Hl1 as [? _].
Qed.

End reorg.
