(* ===== verification/ChainRun.v ===== *)
(** Runs of a node: a chain is created from a genesis description and
    configured, and then transactions are submitted, blocks offered for
    finalization, heavier branches offered, the roster refreshed and the hot
    window resized, in any order. The invariants of the development hold along every such run. And
    accountability: the approvals two conflicting blocks carry are, for every
    validator in both quorums, evidence the chain's own double-sign check
    (internal/chain/validator_staking.go) accepts. *)
From stdpp Require Import base strings list gmap.
From Stdlib Require Import Ascii.
From S2P Require Import Prelude GoStd Sha256 Json Types Ledger TxModel Dex DexLedger Merkle.
From S2P Require Import Staking StakingFacts Apply ApplyFacts Fees Block Chain ChainFacts.
From S2P Require Import ChainBuild ChainWindow.

#[local] Open Scope string_scope.
#[local] Open Scope list_scope.
#[local] Open Scope Z_scope.

Section run.
Context `{E : Ed25519}.

(** A new chain holds the genesis state and the genesis block. *)
Lemma NewChain_inv g c :
  NewChain g = inl c → ∃ st gb, Genesis.ToState g = inl st ∧
    Header gb = Header (genesis_block g st) ∧ b_Tx gb = None ∧
    c = mkChain g.(g_ChainID) (Genesis.TransactionChainID g) st (DEX.SyncFromState st) [gb] ∅
          ∅ 0 (Some (Clone st)) 0 0 [] (mkParams 0 0 0 0 0 0 0 0) 0 0 None None None.
Proof.
  intros Hg. unfold NewChain in Hg. destruct (Genesis.ToState g) as [st|]; [|done]. exists st.
  destruct (Genesis.PinnedGenesisHash g) as [h|]; [|unfold ComputeHash in Hg; destruct (CalculateHash _) as [h|]; [|done]];
    injection Hg as <-; exists (set_Hash h (genesis_block g st)); by split_and!.
Qed.

(** A chain that has been created and configured, and not used yet. *)
Inductive started (g : Genesis) : Chain → Prop :=
  | started_new c : NewChain g = inl c → started g c
  | started_roster keys quorum c : started g c → started g (SetValidatorSet keys quorum c)
  | started_auth h c : started g c → started g (SetAuthEnforceFromHeight h c)
  | started_root h c : started g c → started g (SetStateRootEnforceFromHeight h c)
  | started_corrections l c :
      Forall (λ corr, 0 ≤ corr.(Debit)) l → started g c → started g (SetIrregularStateCorrections l c)
  | started_staking p c : params_ok p → started g c → started g (SetValidatorStakingParams p c)
  | started_window n cold c : started g c → started g (SetHotWindow n cold c).

(** *** The coin a node's executions create *)

(** Moving the checkpoint past blocks executes them again on its state, *)
Fixpoint advance_minted (c : Chain) (st : State) (bs : list Block) : Z :=
  match bs with
  | [] => 0
  | b :: bs => block_minted c st b + match next_state c st b with (st', inl _) => advance_minted c st' bs | _ => 0 end
  end.

Definition trim_minted (c : Chain) : Z :=
  let excess := Z.of_nat (length c.(Blocks)) - c.(maxHotBlocks) in
  if (c.(maxHotBlocks) <=? 0) || (excess <=? 0) then 0
  else match baseState c with Some base => advance_minted c (Clone base) (take (Z.to_nat excess) c.(Blocks)) | None => 0 end.

(** and a reorganisation executes a branch on a copy of it. *)
Fixpoint replay_minted (now : Time) (scratch : Chain) (bs : list (option Block)) : Z :=
  match bs with
  | Some b :: bs =>
      match FinalizeBlock now scratch b with
      | (scratch', b', inl _) => block_minted scratch scratch.(c_State) b' + replay_minted now scratch' bs
      | _ => 0
      end
  | _ => 0
  end.

Definition reorg_minted (now : Time) (h : Z) (cand : list (option Block)) (c : Chain) : Z :=
  match reorg_plan h cand c with inl p => replay_minted now p.(rp_scratch) (map Some p.(rp_prefix) ++ cand) | inr _ => 0 end.

(** The chain with a branch swapped in, before trimming. *)
Definition swapped (p : ReorgPlan) (scratch c : Chain) : Chain :=
  set_State scratch.(c_State) (set_Blocks (p.(rp_prefix) ++ drop (1 + length p.(rp_prefix)) scratch.(Blocks)) c).

(** What a node does afterwards. [run c0 H m k c]: from [c0] the chain has come
    to [c]; [H] is every block it ever held, unless it has switched branches;
    [m] is the native coin that the executions behind its state created, and
    [k] that of its checkpoint, which has to leave the coin in 64 bits. *)
Inductive run (c0 : Chain) : option (list Block) → Z → Z → Chain → Prop :=
  | run_start : run c0 (Some c0.(Blocks)) 0 0 c0
  | run_submit H m k c now tx : run c0 H m k c → run c0 H m k (SubmitTx now tx c).1
  | run_finalize H m k c now b c' b' :
      run c0 H m k c → FinalizeBlock now c b = (c', b', inl tt) → Forall tx_fields (txs_of b') →
      (∀ l, H = Some l → Z.of_nat (length l) + 1 < MaxUint64) →
      let m' := m + block_minted c c.(c_State) b' in
      let k' := k + trim_minted (extended b' c'.(c_State) c) in
      supply c0.(c_State) + m' ≤ MaxUint64 → supply c0.(c_State) + k' ≤ MaxUint64 →
      run c0 ((λ l, l ++ [b']) <$> H) m' k' c'
  | run_reject H m k c now b e : run c0 H m k c → (FinalizeBlock now c b).2 = inr e → run c0 H m k (FinalizeBlock now c b).1.1
  | run_roster H m k c keys quorum : run c0 H m k c → run c0 H m k (SetValidatorSet keys quorum c)
  | run_window H m k c n cold :
      run c0 H m k c →
      let k' := k + trim_minted (set_coldBlocks cold (set_maxHotBlocks n c)) in
      supply c0.(c_State) + k' ≤ MaxUint64 → run c0 H m k' (SetHotWindow n cold c)
  | run_reorg H m k c H1 m1 k1 c1 now h cand p scratch c' :
      run c0 H m k c → run c0 H1 m1 k1 c1 → TryReorg now h cand c1 c = (c', inl true) →
      Forall (λ o, ∀ b, o = Some b → Forall tx_fields (txs_of b)) cand →
      reorg_plan h cand c1 = inl p → replay now p.(rp_scratch) (map Some p.(rp_prefix) ++ cand) = inl scratch →
      let m' := k1 + reorg_minted now h cand c1 in
      let k' := k + trim_minted (swapped p scratch c) in
      supply c0.(c_State) + m' ≤ MaxUint64 → supply c0.(c_State) + k' ≤ MaxUint64 →
      run c0 None m' k' c'.

(** Every block but the first extends the one before it, and its transactions
    are authentic and committed to. *)
Definition linked (H : list Block) : Prop :=
  ∀ i p b, H !! i = Some p → H !! S i = Some b →
    b.(Header).(ParentHash) = p.(Hash) ∧ Forall tx_authentic (txs_of b).

(** What holds of the state and of everything it may be replaced by. *)
Record chain_inv (g m k : Z) (c : Chain) : Prop := {
  ci_params : params_ok c.(validatorStaking);
  ci_corrections : Forall (λ corr, 0 ≤ corr.(Debit)) c.(stateCorrections);
  ci_world : world_ok c.(validatorStaking) c.(c_State);
  ci_supply : supply c.(c_State) ≤ g + m;
  ci_base : ∀ s, c.(genesisState) = Some s ∨ c.(hotWindowBaseState) = Some s →
    world_ok c.(validatorStaking) s ∧ supply s ≤ g + k;
  ci_created : 0 ≤ k;
  ci_fields : Forall (λ b, Forall tx_fields (txs_of b)) c.(Blocks);
  ci_mempool : mempool_ok c
}.

(** What holds of the blocks while there was no reorganisation. *)
Definition history_inv (H : option (list Block)) (c : Chain) : Prop :=
  ∀ l, H = Some l → window_ok l c ∧ linked l.

Lemma baseState_cases c s : baseState c = Some s → c.(genesisState) = Some s ∨ c.(hotWindowBaseState) = Some s.
Proof. unfold baseState. case_match; auto. Qed.

Lemma advance_minted_nonneg c st bs : payable st → 0 ≤ advance_minted c st bs.
Proof.
  revert st. induction bs as [|b bs IH]; intros st Hp; cbn [advance_minted]; [done|]. pose proof (block_minted_nonneg c st b Hp).
  destruct (next_state c st b) as [st' [[]|e]] eqn:Hn; [|lia]. pose proof (IH st' (next_state_payable c st b st' Hp Hn)). lia.
Qed.

Lemma advance_checkpoint_spec c st bs next :
  params_ok c.(validatorStaking) → Forall (λ corr, 0 ≤ corr.(Debit)) c.(stateCorrections) → world_ok c.(validatorStaking) st →
  Forall (λ b, Forall tx_fields (txs_of b)) bs → supply st + advance_minted c st bs ≤ MaxUint64 →
  advance_checkpoint c st bs = inl next →
  world_ok c.(validatorStaking) next ∧ supply next ≤ supply st + advance_minted c st bs.
Proof.
  intros Hp Hc. revert st. induction bs as [|b bs IH]; intros st Hw Hf Hs; cbn [advance_checkpoint advance_minted] in *.
  { intros [= <-]. split; [done|lia]. }
  inversion_clear Hf as [|?? Hf1 Hf2]. destruct (next_state c st b) as [st' [[]|e]] eqn:Hn; [|done].
  pose proof (next_state_payable c st b st' (w_payable _ _ _ Hw) Hn) as Hp'. pose proof (advance_minted_nonneg c st' bs Hp').
  assert (supply st + block_minted c st b ≤ MaxUint64) as Hs1 by lia.
  destruct (next_state_spec c Hp st b st' Hc Hw Hf1 Hs1 Hn) as (Hw' & Hs' & _). intros Hadv.
  destruct (IH st' Hw' Hf2 ltac:(lia) Hadv). split; [done|lia].
Qed.

Lemma trimHotWindow_config c :
  (trimHotWindow c).(validatorStaking) = c.(validatorStaking) ∧
  (trimHotWindow c).(stateCorrections) = c.(stateCorrections) ∧
  transactionChainID (trimHotWindow c) = transactionChainID c.
Proof. destruct (trimHotWindow_cases c) as [->|(n & base & next & _ & _ & _ & _ & _ & ->)]; done. Qed.

Lemma trim_minted_moves c n base :
  Z.of_nat (length c.(Blocks)) - c.(maxHotBlocks) = Z.of_nat n → (0 < n)%nat → 0 < c.(maxHotBlocks) → baseState c = Some base →
  trim_minted c = advance_minted c (Clone base) (take n c.(Blocks)).
Proof.
  intros Hex Hn Hm Hb. unfold trim_minted. cbv zeta. rewrite Hex, Hb, (proj2 (Z.leb_gt _ _) Hm), (proj2 (Z.leb_gt (Z.of_nat n) 0)), Nat2Z.id by lia. done.
Qed.

Lemma trim_minted_nonneg c : (∀ s, baseState c = Some s → payable s) → 0 ≤ trim_minted c.
Proof.
  intros Hb. unfold trim_minted. cbv zeta. case_match; [done|]. destruct (baseState c) as [base|]; [|done].
  apply advance_minted_nonneg. exact (Hb base eq_refl).
Qed.

Lemma chain_inv_trim g m k c :
  chain_inv g m k c → g + (k + trim_minted c) ≤ MaxUint64 → chain_inv g m (k + trim_minted c) (trimHotWindow c).
Proof.
  intros [Hp Hc Hw Hs Hb Hk Hf Hm] Hmax. assert (0 ≤ trim_minted c) as Hnn.
  { apply trim_minted_nonneg. intros s Hbs%baseState_cases%Hb. apply Hbs. }
  assert (∀ s, genesisState c = Some s ∨ hotWindowBaseState c = Some s → world_ok (validatorStaking c) s ∧ supply s ≤ g + (k + trim_minted c)) as Hb'
    by (intros s Hbs%Hb; split; [apply Hbs|lia]).
  destruct (trimHotWindow_cases c) as [->|(n & base & next & Hn & Hex & Hmax0 & Hbase & Hadv & Heq)]; [by split; try done; lia|].
  destruct (Hb base (baseState_cases c base Hbase)) as [Hwb Hsb].
  pose proof (trim_minted_moves c n base Hex Hn Hmax0 Hbase) as Ht. rewrite Ht in *.
  assert (Forall (λ b, Forall tx_fields (txs_of b)) (take n (Blocks c))) as Hft by by apply Forall_take.
  destruct (advance_checkpoint_spec c (Clone base) _ next Hp Hc (world_ok_Clone _ _ _ Hwb) Hft ltac:(rewrite supply_Clone; lia) Hadv)
    as (Hwn & Hsn). rewrite supply_Clone in Hsn. rewrite Heq. split; cbn; try done; [|lia|by apply Forall_drop].
  intros s [Hg|[= <-]]; [apply Hb'; by left|]. split; [done|lia].
Qed.

Lemma history_inv_trim H c : history_inv H c → history_inv H (trimHotWindow c).
Proof. intros Hh l Hl. destruct (Hh l Hl). split; [by apply window_ok_trim|done]. Qed.

(** A started chain still holds the genesis state and nothing but the genesis
    block. *)
Record fresh (g : Genesis) (c : Chain) : Prop := {
  fr_state : Genesis.ToState g = inl c.(c_State);
  fr_base : ∀ s, c.(genesisState) = Some s ∨ c.(hotWindowBaseState) = Some s → s = Clone c.(c_State);
  fr_blocks : ∃ gb, c.(Blocks) = [gb] ∧ gb.(Header).(Height) = 0 ∧ gb.(b_Tx) = None;
  fr_start : c.(hotWindowStart) = 0;
  fr_mempool : c.(Mempool) = ∅;
  fr_params : params_ok c.(validatorStaking);
  fr_corrections : Forall (λ corr, 0 ≤ corr.(Debit)) c.(stateCorrections)
}.

Lemma trimHotWindow_single c b : c.(Blocks) = [b] → trimHotWindow c = c.
Proof.
  intros Hb. destruct (trimHotWindow_cases c) as [->|(n & base & next & Hn & Hl & Hm & _)]; [done|].
  rewrite Hb in Hl. simpl in Hl. lia.
Qed.

Lemma started_fresh g c : started g c → fresh g c.
Proof.
  induction 1 as [c Hg|keys quorum c _ IH|h c _ IH|h c _ IH|l c Hl _ IH|p c Hp _ IH|n cold c _ IH];
    try destruct IH as [Hs Hba Hb Hst Hm Hpa Hco]; try by split.
  - apply NewChain_inv in Hg as (st & gb & Hs & Hh & Htx & ->).
    split; simpl; try done; [by intros s [[= <-]|]|]. by exists gb; rewrite Hh.
  - destruct Hb as (gb & Hb & Hg). unfold SetHotWindow. rewrite (trimHotWindow_single _ gb) by done.
    split; try done. by exists gb.
Qed.

Lemma started_inv g c :
  started g c → map_Forall (λ _ b, 0 ≤ b) g.(Alloc) → msum id g.(Alloc) ≤ MaxUint64 →
  chain_inv (msum id g.(Alloc)) 0 0 c ∧ history_inv (Some c.(Blocks)) c.
Proof.
  intros [Hs Hba (gb & Hb & Hh & Htx) Hst Hm Hp Hc]%started_fresh Hpos Hmax.
  destruct (Genesis.ToState_ok g _ Hs Hpos Hmax) as (Hok & Hd & Hv & Hsn).
  assert (world_ok c.(validatorStaking) c.(c_State)) as Hw.
  { split; [done|unfold pools_ok; rewrite Hd; apply map_Forall_empty|by apply registry_ok_empty|].
    unfold payable. rewrite (Genesis.ToState_proposals g _ Hs). apply map_Forall_empty. }
  pose proof (Genesis.ToState_supply g _ Hs) as Hsup. split; [split; try done|intros l [= <-]; split].
  - lia.
  - intros s ->%Hba. rewrite supply_Clone. split; [by apply world_ok_Clone|lia].
  - rewrite Hb. constructor; [|done]. unfold txs_of. by rewrite Htx.
  - intros id tx. by rewrite Hm, lookup_empty.
  - split; rewrite ?Hst, ?Hb; [|simpl; lia|done|vm_compute; done].
    intros [|i] b; simpl; [by intros [= <-]|done].
  - rewrite Hb. by intros i p b.
Qed.

(** Finalizing a block keeps every invariant, and accounts for the coin. *)
Lemma finalize_inv now c b c' b' g m k :
  chain_inv g m k c → FinalizeBlock now c b = (c', b', inl tt) → Forall tx_fields (txs_of b') →
  g + (m + block_minted c c.(c_State) b') ≤ MaxUint64 → g + (k + trim_minted (extended b' c'.(c_State) c)) ≤ MaxUint64 →
  chain_inv g (m + block_minted c c.(c_State) b') (k + trim_minted (extended b' c'.(c_State) c)) c' ∧
  Forall tx_authentic (txs_of b').
Proof.
  intros [Hp Hc Hw Hs Hb Hk Hfs Hm] Hrun Hf Hmax Hmaxk.
  destruct (FinalizeBlock_cases now c b) as [(b1 & next & Hv & Heq)|(b1 & e & _ & Heq)]; rewrite Heq in Hrun; [|done].
  injection Hrun as <- <-. destruct Hv as [Hh -> Htx Hn _].
  change (block_minted c (c_State c) (set_Finalized true ?x)) with (block_minted c (c_State c) x) in *.
  assert (supply (c_State c) + block_minted c (c_State c) (set_b_Tx ((λ _, map sort_metadata (txs_of b)) <$> b_Tx b) b) ≤ MaxUint64) as Hms by lia.
  destruct (next_state_spec c Hp c.(c_State) _ next Hc Hw Hf Hms Hn) as (Hw' & Hs' & Ha).
  change (block_minted c (c_State c) (set_Finalized true ?x)) with (block_minted c (c_State c) x) in Hs'.
  set (b1 := set_b_Tx _ b) in *. assert (supply next ≤ g + (m + block_minted c (c_State c) b1)) as Hsn by lia.
  assert (mempool_ok (commit_block b1 next c)) as Hmp by by apply mempool_ok_commit.
  rewrite commit_extended in *. rewrite (proj1 (trimHotWindow_state _)) in *. cbn [c_State extended] in *.
  change (extended (set_Finalized true b1) (c_State (extended b1 next c)) c) with (extended b1 next c) in *.
  split; [|exact Ha]. apply chain_inv_trim; [|done]. split; try done; [by apply Forall_app_2; [|constructor]|].
  intros id tx. specialize (Hmp id tx). destruct (trimHotWindow_state (extended b1 next c)) as (_ & Hme & _).
  destruct (trimHotWindow_config (extended b1 next c)) as (_ & _ & Hid). rewrite Hme, Hid in Hmp. exact Hmp.
Qed.

Lemma finalize_history now c b c' b' l :
  window_ok l c → linked l → FinalizeBlock now c b = (c', b', inl tt) → Forall tx_authentic (txs_of b') →
  Z.of_nat (length l) + 1 < MaxUint64 → window_ok (l ++ [b']) c' ∧ linked (l ++ [b']).
Proof.
  intros Hwin Hl Hrun Ha Hsm.
  destruct (FinalizeBlock_cases now c b) as [(b1 & next & Hv & Heq)|(b1 & e & _ & Heq)]; rewrite Heq in Hrun; [|done].
  injection Hrun as <- <-. destruct Hv as [Hh -> Htx Hn _].
  destruct (check_header_ok _ _ _ _ Hh) as (parent & Hpar & Hph & Hht & _).
  destruct (window_tip l c Hwin) as (t & Ht & Hlast & Hth). rewrite Hpar in Ht. injection Ht as <-.
  rewrite Hth, Z.sub_add, u64_small in Hht by (split; lia).
  split; [by apply window_ok_commit|]. intros i p b2 Hi [HSi|[Hi' Hb2]]%lookup_app_Some.
  - rewrite lookup_app_l in Hi by (apply lookup_lt_Some in HSi; lia). by apply (Hl i).
  - apply list_lookup_singleton_Some in Hb2 as [Hlen <-]. split; [|exact Ha].
    rewrite lookup_app_l in Hi by lia. rewrite last_lookup in Hlast.
    replace (pred (length l)) with i in Hlast by lia. rewrite Hi in Hlast. by injection Hlast as ->.
Qed.

(** A chain that a branch is replayed on. *)
Record scratch_inv (bound : Z) (p : ValidatorStakingParams) (c : Chain) : Prop := {
  si_params : c.(validatorStaking) = p ∧ params_ok p;
  si_corrections : Forall (λ corr, 0 ≤ corr.(Debit)) c.(stateCorrections);
  si_world : world_ok p c.(c_State);
  si_supply : supply c.(c_State) ≤ bound;
  si_window : c.(maxHotBlocks) = 0;
  si_fields : ∃ a l, c.(Blocks) = a :: l ∧ Forall (λ b, Forall tx_fields (txs_of b)) l
}.

Lemma FinalizeBlock_fields now c b : Forall tx_fields (txs_of b) → Forall tx_fields (txs_of (FinalizeBlock now c b).1.2) ∨ (FinalizeBlock now c b).2 ≠ inl tt.
Proof.
  intros Hf. destruct (FinalizeBlock_cases now c b) as [(b1 & next & [_ -> _ _ _] & ->)|(b1 & e & _ & ->)]; [left|by right].
  simpl. unfold txs_of in *. cbn. destruct (b_Tx b); [|done]. simpl in *. apply Forall_map. eapply Forall_impl; [exact Hf|]. intros tx [? ?]. by split.
Qed.

Lemma replay_minted_nonneg now c bs : payable c.(c_State) → 0 ≤ replay_minted now c bs.
Proof.
  revert c. induction bs as [|[b|] bs IH]; intros c Hp; cbn [replay_minted]; try done.
  destruct (FinalizeBlock now c b) as [[c' b'] [[]|e]] eqn:Hr; [|done].
  pose proof (block_minted_nonneg c c.(c_State) b' Hp). cut (payable c'.(c_State)); [intros Hc'; specialize (IH c' Hc'); lia|].
  destruct (FinalizeBlock_cases now c b) as [(b1 & next & [_ _ _ Hn _] & Heq)|(b1 & e & _ & Heq)]; rewrite Heq in Hr; [|done].
  injection Hr as <- <-. unfold commit_block. rewrite (proj1 (trimHotWindow_state _)). by eapply next_state_payable.
Qed.

Lemma replay_inv now bound p c bs c' :
  scratch_inv bound p c → Forall (λ o, ∀ b, o = Some b → Forall tx_fields (txs_of b)) bs →
  bound + replay_minted now c bs ≤ MaxUint64 → replay now c bs = inl c' →
  scratch_inv (bound + replay_minted now c bs) p c'.
Proof.
  revert bound c. induction bs as [|[b|] bs IH]; intros bound c Hi Hf Hmax; cbn [replay replay_minted] in *; [|..|done].
  { intros [= <-]. destruct Hi. split; try done. lia. }
  inversion_clear Hf as [|?? Hf1 Hf2]. pose proof (FinalizeBlock_fields now c b (Hf1 b eq_refl)) as Hfb.
  destruct (FinalizeBlock now c b) as [[c1 b1] [[]|e]] eqn:Hr; [|done]. simpl in Hfb.
  destruct Hfb as [Hfb|[]]; [|done]. intros Hrep. destruct Hi as [[Hv Hp] Hc Hw Hs Hm (a & l & Hbl & Hbf)].
  pose proof (block_minted_nonneg c c.(c_State) b1 (w_payable _ _ _ Hw)) as Hbm.
  destruct (FinalizeBlock_cases now c b) as [(b2 & next & [_ -> _ Hn _] & Heq)|(b2 & e & _ & Heq)]; rewrite Heq in Hr; [|done].
  set (bs2 := set_b_Tx _ b) in *. injection Hr as Hc1 Hb1. subst p. rewrite commit_extended in Hc1.
  assert (trimHotWindow (extended bs2 next c) = extended bs2 next c) as Htrim.
  { destruct (trimHotWindow_cases (extended bs2 next c)) as [|(n & ? & ? & _ & _ & Hz & _)]; [done|]. cbn in Hz. lia. }
  rewrite Htrim in Hc1. assert (block_minted c c.(c_State) b1 = block_minted c c.(c_State) bs2) as Hbe by by subst b1.
  assert (Forall tx_fields (txs_of bs2)) as Hfb2 by by subst b1.
  pose proof (next_state_payable c _ _ _ (w_payable _ _ _ Hw) Hn) as Hpn.
  assert (0 ≤ replay_minted now c1 bs) as Hr0 by (apply replay_minted_nonneg; by subst c1).
  assert (supply c.(c_State) + block_minted c c.(c_State) bs2 ≤ MaxUint64) as Hms by lia.
  destruct (next_state_spec c Hp c.(c_State) _ next Hc Hw Hfb2 Hms Hn) as (Hw' & Hs' & _).
  assert (supply next ≤ bound + block_minted c c.(c_State) b1) as Hsn by lia.
  rewrite Z.add_assoc. apply IH; [|done|lia|done]. subst c1. split; try done.
  exists a, (l ++ [b1]). rewrite <- Hb1. simpl. rewrite Hbl. split; [done|]. apply Forall_app_2; [done|]. by constructor.
Qed.

Lemma reorg_plan_inv h cand c p :
  reorg_plan h cand c = inl p →
  ∃ base anchor, baseState c = Some base ∧
    p.(rp_scratch) = mkChain c.(c_ChainID) (transactionChainID c) (Clone base) ∅ [anchor] ∅
      c.(validatorKeys) c.(requiredQuorum) None 0 0 [] c.(validatorStaking) 0 0 None None None ∧
    ∀ b, b ∈ p.(rp_prefix) → b ∈ c.(Blocks).
Proof.
  unfold reorg_plan. repeat (case_match; try done); intros [= <-]; eexists _, _; (split_and!; [done..|]);
    intros bb Hb; cbn in Hb; apply list_elem_of_lookup in Hb as [i Hi]; rewrite lookup_drop in Hi;
    apply lookup_take_Some in Hi as [Hi _]; by eapply list_elem_of_lookup_2.
Qed.

Lemma baseState_inv g m k c base : chain_inv g m k c → baseState c = Some base → world_ok c.(validatorStaking) base ∧ supply base ≤ g + k.
Proof. intros Hi Hb%baseState_cases. by apply (ci_base _ _ _ _ Hi). Qed.

(** A replay from the checkpoint of a chain. *)
Lemma reorg_scratch now h cand c p scratch g m k :
  chain_inv g m k c → reorg_plan h cand c = inl p → Forall (λ o, ∀ b, o = Some b → Forall tx_fields (txs_of b)) cand →
  g + (k + reorg_minted now h cand c) ≤ MaxUint64 → replay now p.(rp_scratch) (map Some p.(rp_prefix) ++ cand) = inl scratch →
  scratch_inv (g + (k + reorg_minted now h cand c)) c.(validatorStaking) scratch ∧
  Forall (λ b, Forall tx_fields (txs_of b)) p.(rp_prefix).
Proof.
  intros Hi Hplan Hf Hmax Hrep. unfold reorg_minted in *. rewrite Hplan in *.
  destruct (reorg_plan_inv h cand c p Hplan) as (base & anchor & Hbase & Hscr & Hpre).
  destruct (baseState_inv _ _ _ _ _ Hi Hbase) as [Hwb Hsb]. pose proof (ci_fields _ _ _ _ Hi) as Hbf.
  assert (Forall (λ b, Forall tx_fields (txs_of b)) p.(rp_prefix)) as Hpf.
  { apply Forall_forall. intros b Hb%Hpre. by apply (proj1 (Forall_forall _ _) Hbf). }
  split; [|done]. rewrite Z.add_assoc. apply (replay_inv now (g + k)); [|apply Forall_app_2; [|done]|lia|done].
  - rewrite Hscr. split; cbn; try done; [split; [done|apply Hi]|by apply world_ok_Clone|by rewrite supply_Clone|by exists anchor, []].
  - apply Forall_map. eapply Forall_impl; [exact Hpf|]. by intros b Hb b' [= <-].
Qed.

Lemma reorg_inv now h cand c1 c p scratch c' g m k m1 k1 :
  chain_inv g m1 k1 c1 → chain_inv g m k c → c1.(validatorStaking) = c.(validatorStaking) →
  TryReorg now h cand c1 c = (c', inl true) → Forall (λ o, ∀ b, o = Some b → Forall tx_fields (txs_of b)) cand →
  reorg_plan h cand c1 = inl p → replay now p.(rp_scratch) (map Some p.(rp_prefix) ++ cand) = inl scratch →
  g + (k1 + reorg_minted now h cand c1) ≤ MaxUint64 → g + (k + trim_minted (swapped p scratch c)) ≤ MaxUint64 →
  chain_inv g (k1 + reorg_minted now h cand c1) (k + trim_minted (swapped p scratch c)) c'.
Proof.
  intros Hi1 Hi Hv Hr Hf Hplan Hrep Hm Hk. destruct (reorg_scratch _ _ _ _ _ _ _ _ _ Hi1 Hplan Hf Hm Hrep) as [Hs Hpf].
  unfold TryReorg in Hr. rewrite Hplan, Hrep in Hr. destruct (heavier _ _ _); [|done]. unfold reorg_commit in Hr. simpl in Hr.
  case_match; [done|]. injection Hr as <-. apply (chain_inv_trim _ _ k (swapped p scratch c)); [|done].
  destruct Hi as [Hp Hc Hw Hsu Hb Hk0 Hbf Hme]. destruct Hs as [_ _ Hws Hss _ (a & l & Hbl & Hlf)].
  split; try done; [change (world_ok c.(validatorStaking) scratch.(c_State)); by rewrite <- Hv|].
  change (Forall (λ b, Forall tx_fields (txs_of b)) (p.(rp_prefix) ++ drop (1 + length p.(rp_prefix)) scratch.(Blocks))).
  apply Forall_app_2; [done|]. rewrite Hbl. cbn [drop Nat.add]. by apply Forall_drop.
Qed.

(** The configuration does not change in a run. *)
Lemma run_config c0 H m k c :
  run c0 H m k c → c.(validatorStaking) = c0.(validatorStaking) ∧ c.(stateCorrections) = c0.(stateCorrections).
Proof.
  induction 1 as [|H m k c now tx _ IH|H m k c now b c' b' _ IH Hrun _ _ _ _ _ _|H m k c now b e _ IH He|H m k c keys q _ IH
    |H m k c n cold _ IH|H m k c H1 m1 k1 c1 now h cand p scratch c' _ IH _ _ Hr _ _ _ _ _ _ _]; try done.
  - by destruct (SubmitTx_cases now tx c) as [[Ha ->]|[_ [e ->]]].
  - destruct (FinalizeBlock_cases now c b) as [(b1 & next & _ & Heq)|(b1 & e & _ & Heq)]; rewrite Heq in Hrun; [|done].
    injection Hrun as <- <-. rewrite commit_extended. by destruct (trimHotWindow_config (extended b1 next c)) as (-> & -> & _).
  - destruct (FinalizeBlock_cases now c b) as [(b1 & next & _ & Hr)|(b1 & e' & _ & ->)]; [by rewrite Hr in He|done].
  - unfold SetHotWindow. by destruct (trimHotWindow_config (set_coldBlocks cold (set_maxHotBlocks n c))) as (-> & -> & _).
  - unfold TryReorg in Hr. destruct (reorg_plan _ _ _); [|done]. destruct (negb _); [done|]. destruct (replay _ _ _); [|done].
    unfold reorg_commit in Hr. case_match; [done|]. injection Hr as <-.
    match goal with |- context [trimHotWindow ?x] => destruct (trimHotWindow_config x) as (-> & -> & _) end. done.
Qed.

Lemma run_inv c0 H m k c :
  chain_inv (supply c0.(c_State)) 0 0 c0 → history_inv (Some c0.(Blocks)) c0 → run c0 H m k c →
  chain_inv (supply c0.(c_State)) m k c ∧ history_inv H c.
Proof.
  intros H0 Hh0 Hrun. induction Hrun as [|H m k c now tx _ IH|H m k c now b c' b' _ IH Hrun Hf Hsm m' k' Hm Hk|H m k c now b e _ IH He|H m k c keys q _ IH
    |H m k c n cold _ IH k' Hk|H m k c H1 m1 k1 c1 now h cand p scratch c' Hrun IH Hrun1 IH1 Hr Hf Hplan Hrep m' k' Hm Hk]; [done|..].
  - destruct IH as [IH Hh]. destruct (SubmitTx_cases now tx c) as [[Ha ->]|[_ [e ->]]]; [|done]. simpl. split.
    + destruct IH. split; try done. by eapply admit_tx_ok.
    + intros l Hl. destruct (Hh l Hl) as [[? ? ? ?] ?]. by split.
  - destruct IH as [IH Hh]. destruct (finalize_inv _ _ _ _ _ _ _ _ IH Hrun Hf Hm Hk) as [Hi Ha]. split; [done|].
    intros l' (l & -> & ->)%fmap_Some. destruct (Hh l eq_refl). by eapply finalize_history; [..|apply Hsm].
  - destruct (FinalizeBlock_cases now c b) as [(b1 & next & _ & Hr)|(b1 & e' & _ & ->)]; [by rewrite Hr in He|done].
  - destruct IH as [IH Hh]. split; [by destruct IH; split|]. intros l Hl. destruct (Hh l Hl) as [[? ? ? ?] ?]. by split.
  - destruct IH as [IH Hh]. split.
    + apply (chain_inv_trim _ _ k); [|done]. by destruct IH; split.
    + apply history_inv_trim. intros l Hl. destruct (Hh l Hl) as [[? ? ? ?] ?]. by split.
  - destruct IH as [IH _], IH1 as [IH1 _]. split; [|done]. eapply reorg_inv; try done.
    by rewrite (proj1 (run_config _ _ _ _ _ Hrun)), (proj1 (run_config _ _ _ _ _ Hrun1)).
Qed.

End run.

(* ------------------------------------------------------------------ *)
(** * Accountability *)

(* ------------------------------------------------------------------ *)
(** * Canonical hex *)

Lemma code_hex_digit z : 0 ≤ z < 16 →
  (48 <=? code (hex_digit z)) && (code (hex_digit z) <=? 57)
  || (97 <=? code (hex_digit z)) && (code (hex_digit z) <=? 102) = true.
Proof.
  intros ?. assert (z = 0 ∨ z = 1 ∨ z = 2 ∨ z = 3 ∨ z = 4 ∨ z = 5 ∨ z = 6 ∨ z = 7 ∨ z = 8 ∨ z = 9
    ∨ z = 10 ∨ z = 11 ∨ z = 12 ∨ z = 13 ∨ z = 14 ∨ z = 15) as Hz by lia.
  repeat destruct Hz as [->|Hz]; [reflexivity..|]. by rewrite Hz.
Qed.

Lemma all_lower_hex_hexEncode s : all_lower_hex (hexEncode s) = true.
Proof.
  induction s as [|c s IH]; [done|]. cbn [hexEncode all_lower_hex]. pose proof (code_range c).
  rewrite !code_hex_digit, IH; [done|apply Z.mod_pos_bound; lia|].
  split; [apply Z.div_pos; lia|apply Z.div_lt_upper_bound; lia].
Qed.

Lemma isCanonicalBlockHash_hash x : isCanonicalBlockHash (hex0x (sha256 x)) = true.
Proof.
  unfold isCanonicalBlockHash, hex0x, slen, HasPrefix.
  change ("0x" +:+ hexEncode (sha256 x)) with (String "0"%char (String "x"%char (hexEncode (sha256 x)))). cbn [String.length sdrop].
  rewrite length_hexEncode, length_sha256, all_lower_hex_hexEncode. simpl. by destruct (hexEncode (sha256 x)).
Qed.

Lemma all_lower_hex_char c s : all_lower_hex (String c s) = true → lower_char c = c ∧ is_space c = false ∧ all_lower_hex s = true.
Proof.
  cbn [all_lower_hex]. intros [Hc ?]%andb_true_iff. split_and!; [| |done].
  - unfold lower_char. destruct (Z.leb_spec 65 (code c)), (Z.leb_spec (code c) 90); simpl; try done.
    destruct (Z.leb_spec (code c) 57), (Z.leb_spec 97 (code c)), (Z.leb_spec 48 (code c)), (Z.leb_spec (code c) 102); simpl in *; try done; lia.
  - unfold is_space. destruct (Z.eqb_spec (code c) 32), (Z.leb_spec (code c) 13), (Z.leb_spec 9 (code c)); simpl; try done;
    destruct (Z.leb_spec (code c) 57), (Z.leb_spec 97 (code c)), (Z.leb_spec 48 (code c)), (Z.leb_spec (code c) 102); simpl in *; try done; lia.
Qed.

Lemma ToLower_lower_hex s : all_lower_hex s = true → ToLower s = s.
Proof.
  induction s as [|c s IH]; [done|]. intros (Hc & _ & Hs)%all_lower_hex_char. unfold ToLower in *. cbn [smap]. by rewrite Hc, IH.
Qed.

Lemma TrimRight_lower_hex s : all_lower_hex s = true → TrimRight s = s.
Proof.
  induction s as [|c s IH]; [done|]. intros (_ & Hc & Hs)%all_lower_hex_char. cbn [TrimRight]. rewrite (IH Hs), Hc.
  by destruct s.
Qed.

(** A registered key is its own normal form. *)
Lemma normalize_hex0x b : slen b = 32 → normalizeConsensusPubKey (hex0x b) = inl (hex0x b).
Proof.
  intros Hb. pose proof (all_lower_hex_hexEncode b) as Hh. unfold normalizeConsensusPubKey.
  assert (TrimSpace (hex0x b) = hex0x b) as ->.
  { unfold TrimSpace, hex0x. change (TrimLeft ("0x" +:+ hexEncode b)) with ("0x" +:+ hexEncode b).
    change ("0x" +:+ hexEncode b) with (String "0"%char (String "x"%char (hexEncode b))). cbn [TrimRight].
    rewrite TrimRight_lower_hex by done. by destruct (hexEncode b). }
  assert (ToLower (hex0x b) = hex0x b) as ->.
  { unfold hex0x. change ("0x" +:+ hexEncode b) with (String "0"%char (String "x"%char (hexEncode b))).
    unfold ToLower. cbn [smap]. f_equal. f_equal. by apply ToLower_lower_hex. }
  rewrite TrimPrefix_hex0x, hexDecode_hexEncode. pose proof (length_hexEncode b) as Hl.
  unfold slen in *. destruct (hexEncode b) eqn:He; [simpl in Hl; lia|]. cbn [empty_str]. rewrite Hb. simpl. unfold hex0x. by rewrite He.
Qed.

(* ------------------------------------------------------------------ *)
(** * Evidence from two approvals *)

Section evidence.
Context `{E : Ed25519}.

(** The metadata of a [validator_evidence] transaction, as [signingBytes]
    orders it. *)
Definition evidence_metadata (key kind : string) (h : Z) (hashA hashB sigA sigB : string) : list KeyValuePair :=
  [mkKV "consensus_pub_key" key; mkKV "evidence_height" (fmt_d h); mkKV "hash_a" hashA; mkKV "hash_b" hashB;
   mkKV "kind" kind; mkKV "sig_a" sigA; mkKV "sig_b" sigB; mkKV "type" "validator_evidence"].

Lemma check_evidence_complete tx ctx key b h hashA hashB sigA sigB :
  key = hex0x b → slen b = 32 → in_u64 h →
  ctx.(params).(ConsensusFromHeight) ≤ h ≤ ctx.(height) →
  isCanonicalBlockHash hashA = true → isCanonicalBlockHash hashB = true → hashA ≠ hashB →
  verifyHexSig key (StakeApprovalMessage ctx.(chainID) h hashA) sigA = true →
  verifyHexSig key (StakeApprovalMessage ctx.(chainID) h hashB) sigB = true →
  tx.(Metadata) = evidence_metadata key "approve" h hashA hashB sigA sigB →
  check_evidence tx ctx = inl key.
Proof.
  intros -> Hb Hh Hr HA HB Hne HsA HsB Hmd. unfold check_evidence. rewrite Hmd.
  change (metadataValue (evidence_metadata _ _ _ _ _ _ _) "consensus_pub_key") with (hex0x b).
  rewrite normalize_hex0x by done. unfold parseTxMetadataUint64.
  change (metadataValue (evidence_metadata _ _ _ _ _ _ _) "evidence_height") with (fmt_d h).
  destruct (ParseUint_fmt_d h Hh) as [Hp Hf]. unfold empty_str. rewrite bool_decide_eq_false_2, Hp by done.
  rewrite bool_decide_eq_false_2 by by intros [].
  destruct (Z.ltb_spec h (ConsensusFromHeight (params ctx))); [lia|].
  destruct (Z.ltb_spec (height ctx) h); [lia|]. cbn [orb].
  change (metadataValue (evidence_metadata _ _ _ _ _ _ _) "hash_a") with hashA.
  change (metadataValue (evidence_metadata _ _ _ _ _ _ _) "hash_b") with hashB.
  rewrite HA, HB, bool_decide_eq_false_2 by done. cbn [negb orb].
  change (metadataValue (evidence_metadata _ _ _ _ _ _ _) "kind") with "approve".
  change (metadataValue (evidence_metadata _ _ _ _ _ _ _) "sig_a") with sigA.
  change (metadataValue (evidence_metadata _ _ _ _ _ _ _) "sig_b") with sigB.
  unfold stakeMessage. cbn [bool_decide decide_rel String.eqb]. simpl. by rewrite HsA, HsB.
Qed.

(** The validators that approved both of two blocks. *)
Definition double_voters (c1 : Chain) (b1 : Block) (c2 : Chain) (b2 : Block) (set : list ActiveValidator) : list ActiveValidator :=
  filter (λ v, block_approvals c1 b1 v && block_approvals c2 b2 v = true) set.

Lemma double_voters_power c1 b1 c2 b2 set :
  lsum av_Power (double_voters c1 b1 c2 b2 set) =
  lsum (λ v, if block_approvals c1 b1 v && block_approvals c2 b2 v then v.(av_Power) else 0) set.
Proof.
  unfold double_voters. induction set as [|v set IH]; [done|]. rewrite filter_cons. simpl.
  destruct (block_approvals c1 b1 v && block_approvals c2 b2 v); simpl; lia.
Qed.

Lemma CalculateHash_canonical b h : CalculateHash b = inl h → isCanonicalBlockHash h = true.
Proof. unfold CalculateHash. destruct (time_text _); [|done]. intros [= <-]. apply isCanonicalBlockHash_hash. Qed.

(** Both blocks passed the header checks of chains with the same ID and the
    same authorizing set: more than a third of the stake signed both, and each
    of those validators can be convicted. *)
Lemma conflict_overlap now1 now2 c1 c2 b1 b2 set :
  check_header now1 c1 b1 true = inl tt → check_header now2 c2 b2 true = inl tt →
  stakeAuthoritySet c1 b1.(Header).(Height) = set → stakeAuthoritySet c2 b2.(Header).(Height) = set →
  set ≠ [] → set_ok set →
  lsum av_Power set < 3 * lsum av_Power (double_voters c1 b1 c2 b2 set).
Proof.
  intros (? & _ & _ & _ & _ & H1 & _)%check_header_ok (? & _ & _ & _ & _ & H2 & _)%check_header_ok Hs1 Hs2 Hne Hset.
  unfold check_authorization in H1, H2. rewrite Hs1 in H1. rewrite Hs2 in H2.
  destruct set as [|v set]; [done|]. apply (verifyStakeAuthorization_iff c1 b1 _ Hset) in H1 as [_ H1].
  apply (verifyStakeAuthorization_iff c2 b2 _ Hset) in H2 as [_ H2].
  pose proof (quorum_overlap c1 b1 c2 b2 _ (so_power _ Hset)). rewrite double_voters_power. lia.
Qed.

Lemma conflict_convicts now1 now2 c1 c2 b1 b2 set v kb h ctx :
  check_header now1 c1 b1 true = inl tt → check_header now2 c2 b2 true = inl tt →
  c1.(c_ChainID) = ctx.(chainID) → c2.(c_ChainID) = ctx.(chainID) →
  b1.(Header).(Height) = h → b2.(Header).(Height) = h → b1.(Hash) ≠ b2.(Hash) → in_u64 h →
  ctx.(params).(ConsensusFromHeight) ≤ h ≤ ctx.(height) →
  v ∈ double_voters c1 b1 c2 b2 set → v.(av_ConsensusPubKey) = hex0x kb → slen kb = 32 →
  ∃ sigA sigB, ∀ tx,
    tx.(Metadata) = evidence_metadata v.(av_ConsensusPubKey) "approve" h b1.(Hash) b2.(Hash) sigA sigB →
    check_evidence tx ctx = inl v.(av_ConsensusPubKey).
Proof.
  intros (? & _ & _ & _ & _ & _ & Hh1 & _)%check_header_ok (? & _ & _ & _ & _ & _ & Hh2 & _)%check_header_ok
    Hc1 Hc2 Hht1 Hht2 Hne Hh Hr [[Ha1 Ha2]%andb_true_iff _]%list_elem_of_filter Hk Hkb.
  unfold block_approvals in Ha1, Ha2. rewrite Hc1, Hht1 in Ha1. rewrite Hc2, Hht2 in Ha2.
  apply approved_by_sig in Ha1 as [sigA HsA]. apply approved_by_sig in Ha2 as [sigB HsB].
  exists sigA, sigB. intros tx. apply (check_evidence_complete tx ctx _ kb h); try done; by eapply CalculateHash_canonical.
Qed.

End evidence.
