(* ===== verification/Agent.v ===== *)
(** Agents (internal/agent/agent.go): identity and signing keys, the log of
    computation proofs, signed envelopes, their verification with freshness
    and replay checks, reputation and roles. Random nonces and the clock are
    arguments.

    After the definitions, what the envelope checks promise: a message is
    accepted at most once, and what an agent sends is accepted by a receiver
    that has not seen it. *)
From stdpp Require Import base strings list gmap sorting.
From Stdlib Require Import Ascii.
From S2P Require Import Prelude GoStd Sha256 Json JsonParse Types TxModel Base64 Governance.
From S2P Require Import Block Messages Slashing Network Chain.

#[local] Open Scope string_scope.
#[local] Open Scope Z_scope.

Definition ReputationBase : Z := 10.
Definition ReputationPerFinalizedBlock : Z := 2.
Definition ReputationPerGovernanceVote : Z := 1.
Definition ReputationPerSlashEvent : Z := 100.

Definition coreRoles : list string :=
  ["immune_node"; "economist"; "governor"; "communicator"; "simulator"; "enforcer"; "citizen"].

Record Identity : Type := mkIdentity {
  AgentID : string;
  id_PublicKey : string;
  PrivateKeyHash : string;
  HardwareID : string;
  id_ProofRoot : string;
  id_CreatedAt : Time;
  id_Stake : Z;
  Reputation : Z;
  BlocksValidated : Z;
  ProposalsVoted : Z
}.

Record ProofOfComputation : Type := mkProof {
  pc_HardwareID : string;
  pc_Nonce : string;
  pc_Payload : gmap string json;
  pc_Timestamp : Time;
  pc_Hash : string
}.

(** The key pair is absent until keys are attached. *)
Record KeyPair : Type := mkKeys { Public : string; Private : string }.

Record Agent : Type := mkAgent {
  ag_Identity : Identity;
  NetworkID : string;
  ProofLog : list ProofOfComputation;
  keys : option KeyPair;
  replayCache : option ReplayCache
}.

Definition set_Identity (x : Identity) (a : Agent) : Agent :=
  mkAgent x a.(NetworkID) a.(ProofLog) a.(keys) a.(replayCache).
Definition set_cache (x : option ReplayCache) (a : Agent) : Agent :=
  mkAgent a.(ag_Identity) a.(NetworkID) a.(ProofLog) a.(keys) x.

(* ------------------------------------------------------------------ *)
(** * Computation proofs *)

(** The text of a value [json.Marshal] refuses is empty: the error is
    dropped. *)
Definition time_json (t : Time) : option json :=
  match time_text t with inl s => Some (JStr s) | inr _ => None end.

(** [hashProof] *)
Definition hashProof (p : ProofOfComputation) : string :=
  let data :=
    match time_json p.(pc_Timestamp) with
    | None => ""
    | Some ts =>
        marshal (JObj (field "hardware_id" (JStr p.(pc_HardwareID)) ++ field "nonce" (JStr p.(pc_Nonce))
                       ++ field "payload" (jmap id p.(pc_Payload)) ++ field "timestamp" ts)%list)
    end in
  hex0x (sha256 data).

Definition compacted (p : ProofOfComputation) : option json :=
  (λ ts, JObj (field "hardware_id" (JStr p.(pc_HardwareID)) ++ field "hash" (JStr p.(pc_Hash)) ++ field "timestamp" ts)%list)
    <$> time_json p.(pc_Timestamp).

(** [recomputeProofRoot] *)
Definition proof_root (log : list ProofOfComputation) : string :=
  match log with
  | [] => ""
  | _ =>
      let data := match mapM compacted log with Some l => marshal (JArr l) | None => "" end in
      hex0x (take_bytes 16 (sha256 data))
  end.

Definition set_root (r : string) (i : Identity) : Identity :=
  mkIdentity i.(AgentID) i.(id_PublicKey) i.(PrivateKeyHash) i.(HardwareID) r i.(id_CreatedAt) i.(id_Stake)
    i.(Reputation) i.(BlocksValidated) i.(ProposalsVoted).

(** [RecordComputation] *)
Definition RecordComputation (now : Time) (nonce : string) (payload : gmap string json) (a : Agent) : Agent * ProofOfComputation :=
  let p := mkProof a.(ag_Identity).(HardwareID) nonce payload now "" in
  let p := mkProof p.(pc_HardwareID) nonce payload now (hashProof p) in
  let log := (a.(ProofLog) ++ [p])%list in
  (mkAgent (set_root (proof_root log) a.(ag_Identity)) a.(NetworkID) log a.(keys) a.(replayCache), p).

(** [ProofRoot], [VerifyProof] *)
Definition ProofRoot (a : Agent) : string := a.(ag_Identity).(id_ProofRoot).
Definition VerifyProof (a : Agent) (p : ProofOfComputation) : bool :=
  bool_decide (p.(pc_HardwareID) = a.(ag_Identity).(HardwareID)) && bool_decide (p.(pc_Hash) = hashProof p).

(* ------------------------------------------------------------------ *)
(** * Identity *)

(** [NewAgent] *)
Definition NewAgent (now : Time) (agentID publicKey privateKeyHash hardwareID : string) (initialStake : Z) : Agent :=
  mkAgent (mkIdentity agentID publicKey privateKeyHash hardwareID "" now initialStake 100 0 0)
    "synthos_mainnet" [] None (Some (NewReplayCache (600 * second))).

(** [AttachKeys] *)
Definition AttachKeys (k : KeyPair) (a : Agent) : Agent * res unit :=
  if negb (slen k.(Private) =? 64) then (a, inr (Err "invalid public key format"))
  else if negb (slen k.(Public) =? 32) then (a, inr (Err "invalid public key format"))
  else
    let i := a.(ag_Identity) in
    (mkAgent (mkIdentity i.(AgentID) (hex0x k.(Public)) (hex0x (sha256 k.(Private))) i.(HardwareID) i.(id_ProofRoot) i.(id_CreatedAt)
                i.(id_Stake) i.(Reputation) i.(BlocksValidated) i.(ProposalsVoted))
       a.(NetworkID) a.(ProofLog) (Some k) a.(replayCache), inl tt).

(** [hexToBytes], [synthoscrypto.PublicKeyBytes] *)
Definition hexToBytes (s : string) : option string := hexDecode (TrimPrefix s "0x").

(** [selfAddress] *)
Definition selfAddress (a : Agent) : option Address := AddressFromPublicKey <$> hexToBytes a.(ag_Identity).(id_PublicKey).

Definition ErrInvalidPublicKey : error := Err "invalid public key format".
Definition ErrInsufficientReputation : error := Err "insufficient reputation for role".

(** [VerifyIdentity] *)
Definition VerifyIdentity (a : Agent) : res unit :=
  let i := a.(ag_Identity) in
  if negb (match hexToBytes i.(id_PublicKey) with Some b => slen b =? 32 | None => false end) then inr ErrInvalidPublicKey
  else if empty_str i.(AgentID) then inr (Err "agent id does not match public key")
  else if empty_str i.(HardwareID) || empty_str i.(id_ProofRoot) then inr (Err "invalid proof of computation")
  else if i.(Reputation) <? 0 then inr ErrInsufficientReputation
  else inl tt.

(** The reputation a role asks for; [None] for a role that does not exist. *)
Definition role_threshold (role : string) : option Z :=
  if bool_decide (role = "immune_node") then Some 100
  else if bool_decide (role = "governor") then Some 200
  else if bool_decide (role = "economist") then Some 50
  else if bool_decide (role ∈ ["enforcer"; "security_watcher"]) then Some 150
  else if bool_decide (role = "simulator") then Some 100
  else if bool_decide (role ∈ ["communicator"; "citizen"]) then Some 0
  else if bool_decide (role = "registry_keeper") then Some 100
  else None.

(** [CanPerformRole] *)
Definition CanPerformRole (a : Agent) (role : string) : res unit :=
  match VerifyIdentity a with
  | inr e => inr e
  | inl _ =>
      match role_threshold role with
      | None => inr (Err "unknown role")
      | Some t => if a.(ag_Identity).(Reputation) <? t then inr ErrInsufficientReputation else inl tt
      end
  end.

(** Blocks in memory that this agent proposed and that were finalized. *)
Definition blocks_finalized (id : string) (bs : list Block) : Z :=
  Z.of_nat (length (filter (λ b, b.(Finalized) = true ∧ b.(Header).(ProposerID) = id) bs)).

(** [RefreshReputation]; [gov] is the state governance reads, if configured. *)
Definition RefreshReputation (c : option Chain) (gov : option State) (slashing : option SlashingTracker) (a : Agent) : Agent * Z :=
  let i := a.(ag_Identity) in
  let blocks := match c with Some c => Some (blocks_finalized i.(AgentID) c.(Blocks)) | None => None end in
  let votes := match gov with Some s => (GovernanceVotesCastBy s) <$> selfAddress a | None => None end in
  let score := ReputationBase + default 0 blocks * ReputationPerFinalizedBlock + default 0 votes * ReputationPerGovernanceVote
               - match slashing with Some t => SlashCount i.(AgentID) t * ReputationPerSlashEvent | None => 0 end in
  let score := if score <? 0 then 0 else score in
  (set_Identity (mkIdentity i.(AgentID) i.(id_PublicKey) i.(PrivateKeyHash) i.(HardwareID) i.(id_ProofRoot) i.(id_CreatedAt) i.(id_Stake)
      score (default i.(BlocksValidated) blocks) (default i.(ProposalsVoted) votes)) a, score).

(* ------------------------------------------------------------------ *)
(** * Envelopes *)

Definition ErrNoKeys : error := Err "agent has no signing keys attached".
Definition ErrReplay : error := Err "replay detected".
Definition ErrStaleEnvelope : error := Err "envelope timestamp outside freshness window".
Definition ErrBadSignature : error := Err "bad signature".
Definition ErrBadEnvelope : error := Err "invalid envelope".

Section with_ed25519.
Context `{E : Ed25519}.

(** [SignRaw] *)
Definition SignRaw (a : Agent) (data : string) : res string :=
  match a.(keys) with None => inr ErrNoKeys | Some k => inl (ed_Sign k.(Private) data) end.

(** The randomness and clock readings of one [BuildEnvelope]. *)
Record SendEnv : Type := mkSendEnv { se_proof_nonce : string; se_proof_time : Time; se_nonce : string; se_time : Time }.

(** [BuildEnvelope]; [printed] is the printed payload. *)
Definition BuildEnvelope (r : SendEnv) (messageType toAgentID topic : string) (printed : res string) (a : Agent) : Agent * res Envelope :=
  match a.(keys) with
  | None => (a, inr ErrNoKeys)
  | Some k =>
      let '(a, _) := RecordComputation r.(se_proof_time) r.(se_proof_nonce)
        (<["action" := JStr "network_send"]> (<["message_type" := JStr messageType]>
          (<["to_agent" := JStr toAgentID]> (<["topic" := JStr topic]> ∅)))) a in
      match printed with
      | inr e => (a, inr e)
      | inl payload =>
          let env := mkEnvelope "v1" messageType a.(ag_Identity).(AgentID) toAgentID topic ("0x" +:+ r.(se_nonce)) r.(se_time) payload
                       (ProofRoot a) (HardwareIDHashHex a.(ag_Identity).(HardwareID)) "" in
          match SigningBytes env with
          | inr e => (a, inr e)
          | inl bytes =>
              (a, inl (mkEnvelope env.(Version) env.(MessageType) env.(FromAgentID) env.(ToAgentID) env.(Topic) env.(env_Nonce) env.(env_Timestamp)
                         env.(Payload) env.(ProofOfComputationRoot) env.(HardwareIDHash) ("0x" +:+ b64_encode (ed_Sign k.(Private) bytes))))
          end
      end
  end.

(** The signature check at the end of [VerifyEnvelope]. *)
Definition check_signature (env : Envelope) (pub : string) : res unit :=
  if empty_str env.(HardwareIDHash) then inr ErrBadEnvelope
  else
    match SigningBytes env with
    | inr _ => inr ErrBadEnvelope
    | inl bytes =>
        match b64_decode (TrimPrefix env.(env_Signature) "0x") with
        | None => inr ErrBadSignature
        | Some sg => if negb (ed_Verify pub bytes sg) then inr ErrBadSignature else inl tt
        end
    end.

(** [VerifyEnvelope] on the replay cache. *)
Definition verify_envelope (env : Envelope) (pub : string) (now : Time) (c : option ReplayCache) : option ReplayCache * res unit :=
  match ValidateBasic env with
  | inr _ => (c, inr ErrBadEnvelope)
  | inl _ =>
      if negb (FreshEnough env.(env_Timestamp) now 0) then (c, inr ErrStaleEnvelope)
      else
        match c with
        | None => (None, check_signature env pub)
        | Some cache =>
            let '(cache, replay) := SeenBefore env.(FromAgentID) env.(env_Nonce) now cache in
            if replay then (Some cache, inr ErrReplay) else (Some cache, check_signature env pub)
        end
  end.

(** [VerifyEnvelope] *)
Definition VerifyEnvelope (env : Envelope) (pub : string) (now : Time) (a : Agent) : Agent * res unit :=
  let '(c, r) := verify_envelope env pub now a.(replayCache) in (set_cache c a, r).

End with_ed25519.

(* ------------------------------------------------------------------ *)
(** * Facts *)

Section with_ed25519.
Context `{E : Ed25519}.

(** A message as it arrives: the envelope, the key it is checked with, and
    the time. *)
Record arrival : Type := mkArrival { ar_env : Envelope; ar_pub : string; ar_now : Time }.

(** One agent checking messages one after the other. *)
Fixpoint verify_all (l : list arrival) (a : Agent) : Agent * list (res unit) :=
  match l with
  | [] => (a, [])
  | x :: l =>
      let '(a, r) := VerifyEnvelope x.(ar_env) x.(ar_pub) x.(ar_now) a in
      let '(a, rs) := verify_all l a in (a, r :: rs)
  end.

Definition replay_ttl : Z := 600 * second.

(** What is remembered of a message first seen at [t1], now that it is [now]:
    its nonce, unless ten minutes have passed. *)
Definition remembered (from nonce : string) (t1 now : Z) (a : Agent) : Prop :=
  ∃ c, a.(replayCache) = Some c ∧ c.(ttl) = replay_ttl ∧
    ((∃ t, seen c from nonce = Some t ∧ t1 ≤ t.(instant)) ∨ t1 + replay_ttl < now).

Lemma seen_SeenBefore from nonce now c :
  let '(c', r) := SeenBefore from nonce now c in
  c'.(ttl) = c.(ttl) ∧ (r = true ↔ is_Some (seen (cleanup now c) from nonce)) ∧
  (∀ f n, seen c' f n = if decide (r = false ∧ f = from ∧ n = nonce) then Some now else seen (cleanup now c) f n).
Proof.
  assert ((cleanup now c).(ttl) = c.(ttl)) as Ht by (unfold cleanup; by case_match).
  unfold SeenBefore. cbv zeta. change (default ∅ (entries (cleanup now c) !! from) !! nonce) with (seen (cleanup now c) from nonce).
  destruct (seen (cleanup now c) from nonce) as [t|] eqn:Hs.
  - split_and!; [done|by split; [eauto|]|]. intros f n. rewrite decide_False; [done|]. by intros [? _].
  - split_and!; [done|split; [done|by intros [? ?]]|]. intros f n. unfold seen at 1. simpl.
    destruct (decide (f = from)) as [->|Hf].
    + rewrite lookup_insert_eq. simpl. destruct (decide (n = nonce)) as [->|Hn].
      * by rewrite lookup_insert_eq, decide_True.
      * rewrite lookup_insert_ne, decide_False by naive_solver. done.
    + rewrite lookup_insert_ne, decide_False by naive_solver. done.
Qed.

Lemma seen_kept now c from nonce t1 last :
  c.(ttl) = replay_ttl → last ≤ now.(instant) →
  ((∃ t, seen c from nonce = Some t ∧ t1 ≤ t.(instant)) ∨ t1 + replay_ttl < last) →
  (∃ t, seen (cleanup now c) from nonce = Some t ∧ t1 ≤ t.(instant)) ∨ t1 + replay_ttl < now.(instant).
Proof.
  intros Ht Hle [(t & Hs & Hge)|Hlt]; [|right; lia]. rewrite seen_cleanup, Hs, Ht.
  unfold Before. simpl. destruct (Z.ltb_spec (instant t) (instant now + - replay_ttl)); [right; lia|left; eauto].
Qed.

(** Any later check keeps the memory. *)
Lemma remembered_step from nonce t1 last x a :
  last ≤ x.(ar_now).(instant) → t1 ≤ x.(ar_now).(instant) → remembered from nonce t1 last a →
  remembered from nonce t1 x.(ar_now).(instant) (VerifyEnvelope x.(ar_env) x.(ar_pub) x.(ar_now) a).1.
Proof.
  intros Hle H1 (c & Hc & Ht & Hm). unfold VerifyEnvelope, verify_envelope. rewrite Hc.
  assert (remembered from nonce t1 (instant (ar_now x)) (set_cache (Some c) a)) as Hsame.
  { exists c. split_and!; [done|done|]. destruct Hm as [?|?]; [by left|right; lia]. }
  destruct (ValidateBasic (ar_env x)) as [[]|]; [|exact Hsame]. destruct (FreshEnough _ _ _); [|exact Hsame]. cbn [negb].
  pose proof (seen_SeenBefore (FromAgentID (ar_env x)) (env_Nonce (ar_env x)) (ar_now x) c) as Hsb.
  destruct (SeenBefore _ _ _ c) as [c' r]. destruct Hsb as (Ht' & _ & Hs').
  pose proof (seen_kept (ar_now x) c from nonce t1 last Ht Hle Hm) as Hk.
  assert (remembered from nonce t1 (instant (ar_now x)) (set_cache (Some c') a)) as Hnew.
  { exists c'. split_and!; [done|congruence|]. destruct Hk as [(t & Hk & Hge)|Hk]; [left|by right].
    rewrite Hs'. destruct (decide _); [by exists (ar_now x)|by exists t]. }
  by destruct r.
Qed.

Lemma fresh_bounds ts now : FreshEnough ts now 0 = true → now.(instant) - 300 * second ≤ ts.(instant) ≤ now.(instant) + 300 * second.
Proof.
  unfold FreshEnough, After, Before. simpl. rewrite negb_true_iff, orb_false_iff, !Z.ltb_ge. lia.
Qed.

(** An accepted message is remembered. *)
Lemma accepted_remembered x a a' :
  (∃ c, a.(replayCache) = Some c ∧ c.(ttl) = replay_ttl) →
  VerifyEnvelope x.(ar_env) x.(ar_pub) x.(ar_now) a = (a', inl tt) →
  remembered x.(ar_env).(FromAgentID) x.(ar_env).(env_Nonce) x.(ar_now).(instant) x.(ar_now).(instant) a' ∧
  FreshEnough x.(ar_env).(env_Timestamp) x.(ar_now) 0 = true.
Proof.
  intros (c & Hc & Ht). unfold VerifyEnvelope, verify_envelope. rewrite Hc.
  destruct (ValidateBasic (ar_env x)) as [[]|]; [|done]. destruct (FreshEnough _ _ _) eqn:Hf; [|done]. simpl.
  pose proof (seen_SeenBefore (FromAgentID (ar_env x)) (env_Nonce (ar_env x)) (ar_now x) c) as Hsb.
  destruct (SeenBefore _ _ _ c) as [c' r]. destruct Hsb as (Ht' & _ & Hs'). destruct r; [done|]. intros [= <- _].
  split; [|done]. exists c'. split_and!; [done|congruence|]. left. exists (ar_now x). rewrite Hs', decide_True by done. done.
Qed.

(** A remembered message is not accepted again while it is fresh. *)
Lemma remembered_rejects x t1 last a a' :
  remembered x.(ar_env).(FromAgentID) x.(ar_env).(env_Nonce) t1 last a → last ≤ x.(ar_now).(instant) →
  x.(ar_env).(env_Timestamp).(instant) ≤ t1 + 300 * second →
  VerifyEnvelope x.(ar_env) x.(ar_pub) x.(ar_now) a = (a', inl tt) → False.
Proof.
  intros (c & Hc & Ht & Hm) Hle Hts. unfold VerifyEnvelope, verify_envelope. rewrite Hc.
  destruct (ValidateBasic (ar_env x)) as [[]|]; [|done]. destruct (FreshEnough _ _ _) eqn:Hf; [|done]. simpl.
  apply fresh_bounds in Hf. pose proof (seen_kept (ar_now x) c _ _ t1 last Ht Hle Hm) as Hk.
  pose proof (seen_SeenBefore (FromAgentID (ar_env x)) (env_Nonce (ar_env x)) (ar_now x) c) as Hsb.
  destruct (SeenBefore _ _ _ c) as [c' r]. destruct Hsb as (_ & Hr & _).
  destruct Hk as [(t & Hk & _)|Hk]; [|unfold replay_ttl in Hk; lia]. rewrite (proj2 Hr) by eauto. done.
Qed.

Lemma later_rejected l last t1 a j y :
  StronglySorted Z.le (last :: (instant ∘ ar_now <$> l)) → t1 ≤ last →
  remembered y.(ar_env).(FromAgentID) y.(ar_env).(env_Nonce) t1 last a →
  y.(ar_env).(env_Timestamp).(instant) ≤ t1 + 300 * second →
  l !! j = Some y → (verify_all l a).2 !! j = Some (inl tt) → False.
Proof.
  intros Hs H1 Hm Hts. revert last a j Hs H1 Hm. induction l as [|x l IH]; intros last a j Hs H1 Hm Hl Hr; [done|].
  rewrite fmap_cons in Hs. inversion_clear Hs as [|?? Hs' Hall]. inversion_clear Hall as [|?? Hx _]. simpl in Hx.
  cbn [verify_all] in Hr. destruct (VerifyEnvelope (ar_env x) (ar_pub x) (ar_now x) a) as [a1 r] eqn:Hv.
  destruct (verify_all l a1) as [a2 rs] eqn:Hva. destruct j as [|j].
  - injection Hl as ->. injection Hr as ->. by eapply remembered_rejects.
  - pose proof (remembered_step _ _ t1 last x a Hx ltac:(lia) Hm) as Hm'. rewrite Hv in Hm'.
    eapply (IH (instant (ar_now x)) a1 j Hs'); [lia|exact Hm'|exact Hl|by rewrite Hva].
Qed.

Definition has_cache (a : Agent) : Prop := ∃ c, a.(replayCache) = Some c ∧ c.(ttl) = replay_ttl.

Lemma has_cache_step x a : has_cache a → has_cache (VerifyEnvelope x.(ar_env) x.(ar_pub) x.(ar_now) a).1.
Proof.
  intros (c & Hc & Ht). unfold VerifyEnvelope, verify_envelope. rewrite Hc.
  destruct (ValidateBasic (ar_env x)) as [[]|]; [|by exists c]. destruct (FreshEnough _ _ _); [|by exists c]. cbn [negb].
  pose proof (seen_SeenBefore (FromAgentID (ar_env x)) (env_Nonce (ar_env x)) (ar_now x) c) as Hsb.
  destruct (SeenBefore _ _ _ c) as [c' r]. destruct Hsb as (Ht' & _). assert (has_cache (set_cache (Some c') a)) by (exists c'; split; [done|congruence]).
  by destruct r.
Qed.

(** Of the arrivals of one message at most one is accepted. *)
Lemma accepted_once l a i j x y :
  has_cache a → StronglySorted Z.le (instant ∘ ar_now <$> l) → (i < j)%nat → l !! i = Some x → l !! j = Some y →
  x.(ar_env).(FromAgentID) = y.(ar_env).(FromAgentID) → x.(ar_env).(env_Nonce) = y.(ar_env).(env_Nonce) →
  x.(ar_env).(env_Timestamp) = y.(ar_env).(env_Timestamp) →
  (verify_all l a).2 !! i = Some (inl tt) → (verify_all l a).2 !! j = Some (inl tt) → False.
Proof.
  revert a i j. induction l as [|z l IH]; intros a i j Hc Hs Hij Hi Hj Hf Hn Ht Ri Rj; [done|].
  destruct j as [|j]; [lia|]. pose proof (has_cache_step z a Hc) as Hc1. cbn [verify_all] in Ri, Rj.
  destruct (VerifyEnvelope (ar_env z) (ar_pub z) (ar_now z) a) as [a1 r] eqn:Hv. destruct (verify_all l a1) as [a2 rs] eqn:Hva.
  destruct i as [|i].
  - injection Hi as ->. injection Ri as ->. destruct (accepted_remembered x a a1 Hc Hv) as [Hm Hfr]. rewrite Hf, Hn in Hm.
    apply fresh_bounds in Hfr. eapply (later_rejected l (instant (ar_now x)) (instant (ar_now x)) a1 j y);
      [done|lia|done|rewrite <- Ht; lia|done|by rewrite Hva].
  - eapply (IH a1 i j); try done; [|lia|by rewrite Hva|by rewrite Hva]. rewrite fmap_cons in Hs. by inversion_clear Hs.
Qed.

End with_ed25519.

(* ------------------------------------------------------------------ *)
(** * Sending *)

Lemma TrimPrefix_0x t : TrimPrefix ("0x" +:+ t) "0x" = t.
Proof. unfold TrimPrefix, HasPrefix. destruct t; reflexivity. Qed.

Section sending.
Context `{E : Ed25519} `{!Ed25519Correct E}.

Lemma BuildEnvelope_accepted r mt dst topic payload a a' env k b now c :
  a.(keys) = Some k → k.(Public) = ed_Public k.(Private) →
  BuildEnvelope r mt dst topic (inl payload) a = (a', inl env) →
  mt ≠ "" → a.(ag_Identity).(AgentID) ≠ "" → payload ≠ "" → IsZero r.(se_time) = false →
  FreshEnough r.(se_time) now 0 = true → b.(replayCache) = Some c →
  seen (cleanup now c) a.(ag_Identity).(AgentID) ("0x" +:+ r.(se_nonce)) = None →
  (VerifyEnvelope env k.(Public) now b).2 = inl tt ∧ env.(FromAgentID) = a.(ag_Identity).(AgentID) ∧
  env.(Payload) = payload ∧ env.(env_Nonce) = "0x" +:+ r.(se_nonce).
Proof.
  intros Hk Hpub Hb Hmt Hid Hpl Hz Hfr Hc Hns. unfold BuildEnvelope in Hb. rewrite Hk in Hb.
  destruct (RecordComputation _ _ _ a) as [a1 pf] eqn:Hrc.
  assert (ag_Identity a1 = set_root (ProofRoot a1) (ag_Identity a) ∧ empty_str (ProofRoot a1) = false) as [Hid1 Hroot].
  { unfold RecordComputation in Hrc. injection Hrc as <- _. split; [done|]. unfold ProofRoot. cbn [ag_Identity set_root id_ProofRoot].
    unfold proof_root. by destruct (ProofLog a). }
  cbv zeta in Hb. rewrite Hid1 in Hb. cbn [set_root AgentID HardwareID] in Hb. set (e0 := mkEnvelope _ _ _ _ _ _ _ _ _ _ _) in *.
  destruct (SigningBytes e0) as [bytes|] eqn:Hsb; [|done]. injection Hb as <- <-. split; [|done].
  assert (∀ s, s ≠ "" → empty_str s = false) as Hne by (intros; by apply bool_decide_eq_false_2).
  unfold VerifyEnvelope, verify_envelope, ValidateBasic. cbn [Version MessageType FromAgentID env_Nonce env_Timestamp Payload
    ProofOfComputationRoot HardwareIDHash env_Signature e0]. rewrite !Hne by done. rewrite Hz, Hroot. cbn [orb]. rewrite Hfr, Hc. cbn [negb].
  unfold HardwareIDHashHex. cbn [orb].
  pose proof (seen_SeenBefore (AgentID (ag_Identity a)) ("0x" +:+ se_nonce r) now c) as Hs.
  destruct (SeenBefore _ _ _ c) as [c' rp]. destruct Hs as (_ & Hrp & _). destruct rp; [by destruct (proj1 Hrp eq_refl) as [? ?]; congruence|].
  cbn [snd]. unfold check_signature. change (SigningBytes (mkEnvelope _ _ _ _ _ _ _ _ _ _ _)) with (SigningBytes e0). rewrite Hsb.
  cbn [HardwareIDHash env_Signature]. change (empty_str (hex0x _)) with false. cbv iota.
  rewrite TrimPrefix_0x, b64_roundtrip, Hpub, ed_verify_sign. done.
Qed.

End sending.
