(* ===== verification/Node.v ===== *)
(** A node (internal/node/node.go): an agent, its chain and its consensus
    engine, the vote lock, the proposal and vote handlers, local penalties and
    the dispatch of incoming messages.

    The slashing tracker of the node is the one its engine holds. Calls of the
    tracker's [executeSlash] callback are carried out on the chain after the
    tracker operation that makes them. The transport, the persistence hook
    and the rate limiter (which computes with [float64]) are arguments, and so
    are the decoders of message payloads. A node without a chain, engine or
    agent is not modelled. *)
From stdpp Require Import base strings list gmap.
From S2P Require Import Prelude GoStd Sha256 Json Types Ledger TxModel Governance Block.
From S2P Require Import Messages Slashing Network Engine Chain.
From S2P Require Import ChainBuild Agent.

#[local] Open Scope string_scope.
#[local] Open Scope Z_scope.

(** [TreasuryGovernance] reads the chain's current state. *)
Record TreasuryGovernance : Type := mkTreasuryGovernance { FounderAddress : Address; TreasuryAddr : Address }.
Definition tg_Get (c : Chain) (proposalID : string) : option Types.Proposal := GetGovernanceProposal c.(c_State) proposalID.
Definition tg_Snapshot (c : Chain) : list Types.Proposal := SnapshotGovernanceProposals c.(c_State).
Definition tg_Passed (c : Chain) (proposalID : string) (totalStake : Z) : res bool := GovernanceProposalPassed c.(c_State) proposalID totalStake.
Definition tg_VotesCastBy (c : Chain) (voter : Address) : Z := GovernanceVotesCastBy c.(c_State) voter.

Record CommunicatorMessage : Type := mkMessage { cm_From : string; cm_Body : string; cm_ReceivedAt : Time }.

Definition maxInboxSize : nat := 200.

Record Node : Type := mkNode {
  n_Agent : Agent;
  n_Chain : Chain;
  n_Engine : Engine;
  Peers : gmap string string;
  n_Validators : gset string;
  PeerHardwareHash : gmap string string;
  n_Governance : option TreasuryGovernance;
  inbox : list CommunicatorMessage;
  voteLockHeight : Z;
  voteLockProposer : string;
  voteLockAt : Time;
  voteLockTimeout : Z
}.

Definition set_n_Agent x n := mkNode x n.(n_Chain) n.(n_Engine) n.(Peers) n.(n_Validators) n.(PeerHardwareHash) n.(n_Governance) n.(inbox) n.(voteLockHeight) n.(voteLockProposer) n.(voteLockAt) n.(voteLockTimeout).
Definition set_n_Chain x n := mkNode n.(n_Agent) x n.(n_Engine) n.(Peers) n.(n_Validators) n.(PeerHardwareHash) n.(n_Governance) n.(inbox) n.(voteLockHeight) n.(voteLockProposer) n.(voteLockAt) n.(voteLockTimeout).
Definition set_n_Engine x n := mkNode n.(n_Agent) n.(n_Chain) x n.(Peers) n.(n_Validators) n.(PeerHardwareHash) n.(n_Governance) n.(inbox) n.(voteLockHeight) n.(voteLockProposer) n.(voteLockAt) n.(voteLockTimeout).
Definition set_Peers x n := mkNode n.(n_Agent) n.(n_Chain) n.(n_Engine) x n.(n_Validators) n.(PeerHardwareHash) n.(n_Governance) n.(inbox) n.(voteLockHeight) n.(voteLockProposer) n.(voteLockAt) n.(voteLockTimeout).
Definition set_n_Validators x n := mkNode n.(n_Agent) n.(n_Chain) n.(n_Engine) n.(Peers) x n.(PeerHardwareHash) n.(n_Governance) n.(inbox) n.(voteLockHeight) n.(voteLockProposer) n.(voteLockAt) n.(voteLockTimeout).
Definition set_hardware x n := mkNode n.(n_Agent) n.(n_Chain) n.(n_Engine) n.(Peers) n.(n_Validators) x n.(n_Governance) n.(inbox) n.(voteLockHeight) n.(voteLockProposer) n.(voteLockAt) n.(voteLockTimeout).
Definition set_n_Governance x n := mkNode n.(n_Agent) n.(n_Chain) n.(n_Engine) n.(Peers) n.(n_Validators) n.(PeerHardwareHash) x n.(inbox) n.(voteLockHeight) n.(voteLockProposer) n.(voteLockAt) n.(voteLockTimeout).
Definition set_inbox x n := mkNode n.(n_Agent) n.(n_Chain) n.(n_Engine) n.(Peers) n.(n_Validators) n.(PeerHardwareHash) n.(n_Governance) x n.(voteLockHeight) n.(voteLockProposer) n.(voteLockAt) n.(voteLockTimeout).
Definition set_lock h p t n := mkNode n.(n_Agent) n.(n_Chain) n.(n_Engine) n.(Peers) n.(n_Validators) n.(PeerHardwareHash) n.(n_Governance) n.(inbox) h p t n.(voteLockTimeout).
Definition set_timeout d n := mkNode n.(n_Agent) n.(n_Chain) n.(n_Engine) n.(Peers) n.(n_Validators) n.(PeerHardwareHash) n.(n_Governance) n.(inbox) n.(voteLockHeight) n.(voteLockProposer) n.(voteLockAt) d.

Definition selfID (n : Node) : string := n.(n_Agent).(ag_Identity).(AgentID).

(** [NewNode]: the penalties of its tracker. *)
Definition node_penalties : SlashingParams := mkSlashingParams 1000 250 50 0 0.

Definition NewNode (a : Agent) (c : Chain) (e : Engine) : Node :=
  let t := SetExecuteSlash true (NewSlashingTracker node_penalties) in
  mkNode a c (SetSlashingTracker (Some t) e) ∅ ∅ ∅ None [] 0 "" zero_time 0.

(* ------------------------------------------------------------------ *)
(** * Peers and validators *)

(** [appendInbox], [Inbox] *)
Definition appendInbox (msg : CommunicatorMessage) (n : Node) : Node :=
  let l := (n.(inbox) ++ [msg])%list in
  set_inbox (if (maxInboxSize <? length l)%nat then drop (length l - maxInboxSize) l else l) n.
Definition Inbox (n : Node) : list CommunicatorMessage := n.(inbox).

(** [AddPeer], [HasPeer], [PeerPublicKey] *)
Definition AddPeer (agentID pubKeyHex : string) (n : Node) : Node * res unit :=
  match hexToBytes pubKeyHex with
  | None => (n, inr (Err "encoding/hex: invalid byte"))
  | Some b => (set_Peers (<[agentID := b]> n.(Peers)) n, inl tt)
  end.
Definition HasPeer (n : Node) (agentID : string) : bool := bool_decide (is_Some (n.(Peers) !! agentID)).
Definition PeerPublicKey (n : Node) (agentID : string) : option string := n.(Peers) !! agentID.

(** [IsValidator], [SetValidators] *)
Definition IsValidator (n : Node) (agentID : string) : bool := bool_decide (agentID ∈ n.(n_Validators)).
Definition node_SetValidators (ids : list string) (n : Node) : Node :=
  set_n_Engine (SetValidators ids n.(n_Engine)) (set_n_Validators (list_to_set ids) n).

(** [InitGovernance] *)
Definition InitGovernance (founder treasury : Address) (n : Node) : Node :=
  let s := set_GovernanceFounder founder n.(n_Chain).(c_State) in
  let s := if negb (empty_str treasury) then set_TreasuryAddress treasury s else s in
  set_n_Governance (Some (mkTreasuryGovernance founder treasury)) (set_n_Chain (set_State s n.(n_Chain)) n).

(** [addressForAgentID] *)
Definition addressForAgentID (n : Node) (agentID : string) : option Address :=
  if bool_decide (selfID n = agentID) then AddressFromPublicKey <$> hexToBytes n.(n_Agent).(ag_Identity).(id_PublicKey)
  else AddressFromPublicKey <$> n.(Peers) !! agentID.

(** The [executeSlash] callback wired by [NewNode]: it edits this node's own
    state, outside any block. *)
Definition execute_slash (n : Node) (call : string * Z) : Node :=
  let c := n.(n_Chain) in
  if StakeConsensusActiveAt c (u64 (chain_height c + 1)) then n
  else
    match addressForAgentID n call.1 with
    | None => n
    | Some addr =>
        let acc := Get c.(c_State) addr in
        let bal := if call.2 <? acc.(Balance) then acc.(Balance) - call.2 else 0 in
        set_n_Chain (set_State (Set_ addr (set_Balance bal acc) c.(c_State)) c) n
    end.

Definition run_slashes (calls : list (string * Z)) (n : Node) : Node := foldl execute_slash n calls.

(** [RefreshReputation] *)
Definition node_RefreshReputation (n : Node) : Node * Z :=
  let '(a, score) := RefreshReputation (Some n.(n_Chain)) (match n.(n_Governance) with Some _ => Some n.(n_Chain).(c_State) | None => None end)
                       n.(n_Engine).(slashTracker) n.(n_Agent) in
  (set_n_Agent a n, score).

(** [NoteMissedSlot] *)
Definition node_NoteMissedSlot (now : Time) (expectedProposerID : string) (n : Node) : Node :=
  let '(e, calls) := NoteMissedSlot now expectedProposerID n.(n_Engine) in run_slashes calls (set_n_Engine e n).

(* ------------------------------------------------------------------ *)
(** * The vote lock *)

(** [SetProducerRotationLockTimeout] *)
Definition SetProducerRotationLockTimeout (timeout : Z) (n : Node) : Node := set_timeout timeout n.

(** [checkAndUpdateVoteLock] *)
Definition checkAndUpdateVoteLock (now : Time) (height : Z) (proposerID : string) (n : Node) : Node * res unit :=
  if n.(voteLockTimeout) <=? 0 then (n, inl tt)
  else if (n.(voteLockHeight) =? height) && negb (empty_str n.(voteLockProposer)) && negb (bool_decide (n.(voteLockProposer) = proposerID))
          && (now.(instant) - n.(voteLockAt).(instant) <? n.(voteLockTimeout))
  then (n, inr (Err "locked to another proposer at this height"))
  else (set_lock height proposerID now n, inl tt).

(* ------------------------------------------------------------------ *)
(** * Proposals and votes *)

Section with_ed25519.
Context `{E : Ed25519}.

(** The approval of a block. *)
Definition approval (n : Node) (b : Block) (sg : string) : BlockVote :=
  mkVote b.(Hash) b.(Header).(Height) 0 "" (selfID n) 1 sg.

(** The report of an invalid proposal. *)
Definition report_invalid (now : Time) (b : Block) (err : error) (evidence : string) (n : Node) : Node :=
  match n.(n_Engine).(slashTracker) with
  | Some t =>
      if bool_decide (err = ErrStateRootMismatch) then n
      else
        let '(t, calls, _) := RecordInvalidBlock now b.(Header).(ProposerID) b.(Header).(Height) evidence t in
        run_slashes calls (set_n_Engine (set_tracker (Some t) n.(n_Engine)) n)
  | None => n
  end.

Definition error_text (e : error) : string := match e with Err s => s | Panic s => s end.

(** [HandleProposal] *)
Definition HandleProposal (now : Time) (b : option Block) (n : Node) : Node * res BlockVote :=
  match b with
  | None => (n, inr (Err "missing block"))
  | Some b =>
      if negb (IsValidator n b.(Header).(ProposerID)) then (n, inr (Err "proposer is not a registered validator"))
      else if negb (b.(Header).(Height) =? u64 (chain_height n.(n_Chain) + 1)) then (n, inr (Err "proposal height mismatch"))
      else
        match ValidateProposal now n.(n_Chain) b with
        | (b, inr e) => (report_invalid now b e (error_text e) n, inr e)
        | (b, inl _) =>
            match checkAndUpdateVoteLock now b.(Header).(Height) b.(Header).(ProposerID) n with
            | (n, inr e) => (n, inr e)
            | (n, inl _) =>
                let n := set_n_Engine (RecordReceivedProposal (Some b) n.(n_Engine)) n in
                if negb (IsValidator n (selfID n)) then (n, inr (Err "this node is not a validator, cannot vote"))
                else
                  match SignRaw n.(n_Agent) (QuorumApprovalMessage b) with
                  | inr e => (n, inr e)
                  | inl sg => (n, inl (approval n b (hex0x sg)))
                  end
            end
        end
  end.

(** [HandleVote] *)
Definition HandleVote (now : Time) (v : BlockVote) (n : Node) : Node * (bool * option error) :=
  let '(e, calls, r) := OnVote now v n.(n_Engine) in
  (run_slashes calls (set_n_Engine e n), (r.(thresholdMet), r.(vr_err))).

Definition set_QuorumSignatures (m : gmap string string) (b : Block) : Block :=
  mkBlock b.(Header) b.(b_Tx) b.(Hash) b.(ValidatorVotes) b.(Finalized) b.(ProposerSignature) m.

(** [TryFinalize]; [hook] is what [OnFinalize] returns, if it is set. *)
Definition TryFinalize (now : Time) (hook : Chain → option error) (blockHash : string) (n : Node) : Node * res unit :=
  match Engine.Proposal n.(n_Engine) blockHash with
  | None => (n, inl tt)
  | Some b =>
      let '(finalized, _, _, ok) := FinalityStatus n.(n_Engine) blockHash in
      if negb ok || negb finalized then (n, inl tt)
      else if match tip n.(n_Chain) with Some t => bool_decide (t.(Hash) = blockHash) | None => false end then (n, inl tt)
      else
        let b := set_QuorumSignatures (CollectedApprovals n.(n_Engine) b.(Header).(Height) blockHash) b in
        match FinalizeBlock now n.(n_Chain) b with
        | (_, _, inr e) => (n, inr e)
        | (c, _, inl _) =>
            let '(n, _) := node_RefreshReputation (set_n_Chain c n) in
            (n, match hook c with Some e => inr e | None => inl tt end)
        end
  end.

(** [signProposalBlock] *)
Definition signProposalBlock (n : Node) (b : Block) : res Block :=
  match SignRaw n.(n_Agent) b.(Hash) with inr e => inr e | inl sg => inl (sign_proposal (hex0x sg) b) end.

(** [BuildAndSignProposal] *)
Definition BuildAndSignProposal (now : Time) (n : Node) : Node * res Block :=
  if negb (IsValidator n (selfID n)) then (n, inr (Err "not a validator"))
  else
    match BuildBlock now (selfID n) (ProofRoot n.(n_Agent)) 1000 n.(n_Chain) with
    | inr e => (n, inr e)
    | inl b =>
        match signProposalBlock n b with
        | inr e => (n, inr e)
        | inl b => (set_n_Engine (RecordOwnProposal (Some b) n.(n_Engine)) n, inl b)
        end
    end.

(** [SelfVote] *)
Definition SelfVote (now : Time) (b : Block) (n : Node) : Node * res BlockVote :=
  match SignRaw n.(n_Agent) (QuorumApprovalMessage b) with
  | inr e => (n, inr e)
  | inl sg =>
      let v := approval n b (hex0x sg) in
      match HandleVote now v n with
      | (n, (_, Some e)) => (n, inr e)
      | (n, (_, None)) => (n, inl v)
      end
  end.

(* ------------------------------------------------------------------ *)
(** * Messages *)

Definition TopicProposals : string := "consensus/proposals".
Definition TopicVotes : string := "consensus/votes".

(** [json.Marshal] of a vote. *)
Definition vote_text (v : BlockVote) : string :=
  marshal (JObj (field "block_hash" (JStr v.(v_BlockHash)) ++ field "height" (JNum v.(v_Height)) ++ field_num_oe "round" v.(v_Round)
    ++ field_str_oe "stage" v.(v_Stage) ++ field "voter_id" (JStr v.(v_VoterID)) ++ field "vote" (JNum v.(v_Vote))
    ++ field_str_oe "signature" v.(v_Signature))%list).

(** [json.Unmarshal] of the payloads. *)
Record Decoders : Type := mkDecoders {
  dec_proposal : string → res BlockProposal;
  dec_vote : string → res BlockVote;
  dec_noise : string → res CoverNoisePayload;
  dec_communicator : string → res CommunicatorPayload
}.

(** What one incoming message meets: the clock, the rate limiter's verdict,
    the randomness of a reply, the hook and the decoders. *)
Record Arrival : Type := mkArrivalEnv {
  at_now : Time;
  at_allowed : bool;
  at_send : SendEnv;
  at_hook : Chain → option error;
  at_dec : Decoders
}.

(** The checks of [handleRaw] before the message type matters: the sender is
    known, within its rate, has signed the envelope, and has not changed its
    hardware. *)
Definition authenticate (w : Arrival) (env : Envelope) (n : Node) : Node * bool :=
  match n.(Peers) !! env.(FromAgentID) with
  | None => (n, false)
  | Some pub =>
      if negb w.(at_allowed) then (n, false)
      else
        match VerifyEnvelope env pub w.(at_now) n.(n_Agent) with
        | (a, inr _) => (set_n_Agent a n, false)
        | (a, inl _) =>
            let n := set_n_Agent a n in
            match n.(PeerHardwareHash) !! env.(FromAgentID) with
            | None => (set_hardware (<[env.(FromAgentID) := env.(HardwareIDHash)]> n.(PeerHardwareHash)) n, true)
            | Some prev => (n, bool_decide (prev = env.(HardwareIDHash)))
            end
        end
  end.

(** The case "block_proposal": the reply, if the vote could be signed. *)
Definition on_proposal_message (w : Arrival) (env : Envelope) (n : Node) : Node * option Envelope :=
  if negb (IsValidator n env.(FromAgentID)) then (n, None)
  else
    match w.(at_dec).(dec_proposal) env.(Payload) with
    | inr _ => (n, None)
    | inl prop =>
        let b := prop.(bp_Block) in
        if negb (bool_decide (b.(Header).(ProposerID) = env.(FromAgentID))) then (n, None)
        else
          match HandleProposal w.(at_now) (Some b) n with
          | (n, inr _) => (n, None)
          | (n, inl vote) =>
              match BuildEnvelope w.(at_send) "block_vote" "" TopicVotes (inl (vote_text vote)) n.(n_Agent) with
              | (a, inl out) => (set_n_Agent a n, Some out)
              | (a, inr _) => (set_n_Agent a n, None)
              end
          end
    end.

(** The case "block_vote". *)
Definition on_vote_message (w : Arrival) (env : Envelope) (n : Node) : Node :=
  if negb (IsValidator n env.(FromAgentID)) then n
  else
    match w.(at_dec).(dec_vote) env.(Payload) with
    | inr _ => n
    | inl v =>
        if negb (bool_decide (v.(v_VoterID) = env.(FromAgentID))) then n
        else
          match HandleVote w.(at_now) v n with
          | (n, (true, _)) => (TryFinalize w.(at_now) w.(at_hook) v.(v_BlockHash) n).1
          | (n, (false, _)) => n
          end
    end.

(** [handleRaw]; [env] is what decoding the raw bytes gave. The envelope
    returned is broadcast. *)
Definition handleRaw (w : Arrival) (env : option Envelope) (n : Node) : Node * option Envelope :=
  match env with
  | None => (n, None)
  | Some env =>
      match authenticate w env n with
      | (n, false) => (n, None)
      | (n, true) =>
          if bool_decide (env.(MessageType) = MessageCoverNoise) then (n, None)
          else if bool_decide (env.(MessageType) = "block_proposal") then on_proposal_message w env n
          else if bool_decide (env.(MessageType) = "block_vote") then (on_vote_message w env n, None)
          else if bool_decide (env.(MessageType) = MessageCommunicator) then
            match w.(at_dec).(dec_communicator) env.(Payload) with
            | inr _ => (n, None)
            | inl p => (appendInbox (mkMessage env.(FromAgentID) p.(cp_Body) w.(at_now)) n, None)
            end
          else (n, None)
      end
  end.

(** [json.Marshal] of a block and of a proposal; a time that cannot be printed
    is an error. *)
Definition block_json (b : Block) : option json :=
  match time_text b.(Header).(h_Timestamp) with
  | inr _ => None
  | inl time =>
      Some (JObj (field "header" (header_json b.(Header) time)
        ++ field "tx" (match b.(b_Tx) with Some l => JArr (map tx_json l) | None => JNull end)
        ++ field "hash" (JStr b.(Hash))
        ++ (if bool_decide (size b.(ValidatorVotes) = 0%nat) then [] else field "validator_votes" (jmap JNum b.(ValidatorVotes)))
        ++ field "finalized" (JBool b.(Finalized))
        ++ field_str_oe "proposer_signature" b.(ProposerSignature)
        ++ (if bool_decide (size b.(QuorumSignatures) = 0%nat) then [] else field "quorum_signatures" (jmap JStr b.(QuorumSignatures))))%list)
  end.

Definition proposal_text (p : BlockProposal) : res string :=
  match block_json p.(bp_Block) with
  | None => inr (Err "json: error calling MarshalJSON for type time.Time")
  | Some bj =>
      inl (marshal (JObj (field "block" bj ++ field "height" (JNum p.(bp_Height)) ++ field_num_oe "round" p.(bp_Round)
     ++ field_num_oe "valid_round" p.(bp_ValidRound) ++ field_num_oe "pol_round" p.(bp_POLRound))%list))
  end.

(** What sending meets: the clock, randomness, the hook, and whether the
    transport takes the message. *)
Record Outgoing : Type := mkOutgoing {
  og_now : Time;
  og_proposal : SendEnv;
  og_vote : SendEnv;
  og_hook : Chain → option error;
  og_send : Envelope → option error
}.

(** [BuildEnvelope] then [SendEnvelope]. *)
Definition send_message (w : Outgoing) (r : SendEnv) (mt topic : string) (printed : res string) (n : Node) : Node * res unit :=
  match BuildEnvelope r mt "" topic printed n.(n_Agent) with
  | (a, inr e) => (set_n_Agent a n, inr e)
  | (a, inl env) => (set_n_Agent a n, match w.(og_send) env with Some e => inr e | None => inl tt end)
  end.

(** [voteAndFinalizeSelfProposal] *)
Definition voteAndFinalizeSelfProposal (w : Outgoing) (b : Block) (n : Node) : Node * res unit :=
  let sg := match SignRaw n.(n_Agent) (QuorumApprovalMessage b) with inl sg => hex0x sg | inr _ => "" end in
  let v := approval n b sg in
  let '(n, (finalized, _)) := HandleVote w.(og_now) v n in
  match (if finalized then TryFinalize w.(og_now) w.(og_hook) b.(Hash) n else (n, inl tt)) with
  | (n, inr e) => (n, inr e)
  | (n, inl _) => send_message w w.(og_vote) "block_vote" TopicVotes (inl (vote_text v)) n
  end.

(** [ProposeBlockHash]; [ProposeBlock] is the same without the hash. *)
Definition ProposeBlockHash (w : Outgoing) (n : Node) : Node * res string :=
  let height := u64 (chain_height n.(n_Chain) + 1) in
  match BuildAndSignProposal w.(og_now) n with
  | (n, inr e) => (n, inr e)
  | (n, inl b) =>
      match send_message w w.(og_proposal) "block_proposal" TopicProposals (proposal_text (mkProposalMsg b height 0 0 0)) n with
      | (n, inr e) => (n, inr e)
      | (n, inl _) =>
          match voteAndFinalizeSelfProposal w b n with
          | (n, inr e) => (n, inr e)
          | (n, inl _) => (n, inl b.(Hash))
          end
      end
  end.

Definition ProposeBlock (w : Outgoing) (n : Node) : Node * res unit :=
  let '(n, r) := ProposeBlockHash w n in (n, match r with inl _ => inl tt | inr e => inr e end).

End with_ed25519.
