(* ===== verification/NodeFacts.v ===== *)
(** What a node's handlers promise: it approves only blocks its own chain
    validates, a local penalty only ever lowers one balance, and the vote lock
    keeps approvals for different producers apart. *)
From stdpp Require Import base strings list gmap sorting.
From S2P Require Import Prelude GoStd Sha256 Json Types Ledger TxModel Governance Block.
From S2P Require Import Messages Slashing Network Engine Chain.
From S2P Require Import Dex DexLedger Staking StakingFacts ApplyFacts Fees ChainFacts.
From S2P Require Import ChainBuild Agent Node.

#[local] Open Scope string_scope.
#[local] Open Scope Z_scope.

(* ------------------------------------------------------------------ *)
(** * Local penalties *)

(** How a node relates to itself after penalties: only its chain's ledger may
    have changed. *)
Record slashed_node (n n' : Node) : Prop := {
  sn_state : set_n_Chain n.(n_Chain) n' = n;
  sn_chain : set_State n.(n_Chain).(c_State) n'.(n_Chain) = n.(n_Chain);
  sn_world : ∀ p, world_ok p n.(n_Chain).(c_State) →
    world_ok p n'.(n_Chain).(c_State) ∧ supply n'.(n_Chain).(c_State) ≤ supply n.(n_Chain).(c_State);
  sn_stake : StakeConsensusActiveAt n.(n_Chain) (u64 (chain_height n.(n_Chain) + 1)) = true → n' = n
}.

Lemma slashed_node_refl n : slashed_node n n.
Proof. split; [by destruct n|by destruct (n_Chain n)|intros p Hw; split; [done|lia]|done]. Qed.

Lemma execute_slash_ok n call : 0 ≤ call.2 → slashed_node n (execute_slash n call).
Proof.
  intros Hc. unfold execute_slash. destruct (StakeConsensusActiveAt _ _) eqn:Hs; [apply slashed_node_refl|].
  destruct (addressForAgentID n call.1) as [addr|]; [|apply slashed_node_refl]. cbv zeta. set (bal := if _ <? _ then _ else _).
  split; simpl; [by destruct n|by destruct (n_Chain n)| |by intros ?; congruence].
  intros p [Hok Hpo Hr Hpay]. pose proof (acct_balance_range (c_State (n_Chain n)) Hok addr) as [Hb _].
  set (s := c_State (n_Chain n)) in *. set (acc := set_Balance bal (Get s addr)).
  assert (0 ≤ acc.(Balance) ≤ (acct s addr).(Balance)) as Ha.
  { unfold acc, bal. simpl. destruct (Z.ltb_spec call.2 (Balance (acct s addr))); lia. }
  pose proof (supply_put addr (norm_acct acc) s) as Hsup. rewrite Balance_norm in Hsup. pose proof (ok_supply s Hok).
  unfold Set_. split; [|lia]. split; [apply ledger_ok_put; [done|rewrite Balance_norm; lia|lia]|done|by apply (registry_ok_same _ _ s)|done].
Qed.

Lemma slashed_node_frame n n' : slashed_node n n' →
  chain_height n'.(n_Chain) = chain_height n.(n_Chain) ∧ n'.(n_Engine) = n.(n_Engine) ∧ n'.(n_Agent) = n.(n_Agent) ∧
  n'.(n_Validators) = n.(n_Validators) ∧ n'.(voteLockHeight) = n.(voteLockHeight) ∧ n'.(voteLockProposer) = n.(voteLockProposer) ∧
  n'.(voteLockAt) = n.(voteLockAt) ∧ n'.(voteLockTimeout) = n.(voteLockTimeout).
Proof.
  intros [Hs Hc _ _]. split_and!.
  - pose proof (f_equal Blocks Hc) as Hb. cbn in Hb. unfold chain_height, tip. by rewrite Hb.
  - exact (f_equal n_Engine Hs).
  - exact (f_equal n_Agent Hs).
  - exact (f_equal n_Validators Hs).
  - exact (f_equal voteLockHeight Hs).
  - exact (f_equal voteLockProposer Hs).
  - exact (f_equal voteLockAt Hs).
  - exact (f_equal voteLockTimeout Hs).
Qed.

(** Without a penalty or with at most one call, which is all a tracker
    operation makes. *)
Lemma run_slashes_ok calls n :
  (length calls ≤ 1)%nat → Forall (λ c : string * Z, 0 ≤ c.2) calls → slashed_node n (run_slashes calls n).
Proof.
  intros Hl Hc. destruct calls as [|c [|d calls]]; simpl in Hl; [apply slashed_node_refl| |lia].
  inversion_clear Hc. by apply execute_slash_ok.
Qed.

Lemma RecordInvalidBlock_calls now id h ev t :
  let '(t', calls, _) := RecordInvalidBlock now id h ev t in (length calls ≤ 1)%nat ∧ Forall (λ c : string * Z, 0 ≤ c.2) calls.
Proof.
  unfold RecordInvalidBlock, recordSlashing. cbv zeta. case_match eqn:Hc; simpl; [|split; [lia|constructor]].
  split; [lia|]. rewrite !andb_true_iff in Hc. destruct Hc as [[_ Hp%Z.ltb_lt] _]. constructor; [simpl in *; lia|constructor].
Qed.

(* ------------------------------------------------------------------ *)
(** * Handling a proposal *)

Section with_ed25519.
Context `{E : Ed25519}.

Lemma validateBlock_frame now c b q :
  (validateBlock now c b q).1.(Header) = b.(Header) ∧ (validateBlock now c b q).1.(Hash) = b.(Hash).
Proof. unfold validateBlock. repeat case_match; done. Qed.

Lemma report_invalid_ok now b e ev n :
  ∃ t', slashed_node (set_n_Engine (set_tracker t' n.(n_Engine)) n) (report_invalid now b e ev n) ∧
    (e = ErrStateRootMismatch → report_invalid now b e ev n = n).
Proof.
  unfold report_invalid. destruct (slashTracker (n_Engine n)) as [t|] eqn:Ht.
  - case_bool_decide as Hd.
    + exists (Some t). split; [|done]. replace (set_n_Engine (set_tracker (Some t) (n_Engine n)) n) with n; [apply slashed_node_refl|].
      rewrite <- Ht. by destruct n as [? ? [] ? ? ? ? ? ? ? ? ?].
    + pose proof (RecordInvalidBlock_calls now (ProposerID (Header b)) (Height (Header b)) ev t) as Hc.
      destruct (RecordInvalidBlock _ _ _ _ t) as [[t' calls] r]. exists (Some t'). split; [apply run_slashes_ok; apply Hc|done].
  - exists None. split; [|done]. replace (set_n_Engine (set_tracker None (n_Engine n)) n) with n; [apply slashed_node_refl|].
    rewrite <- Ht. by destruct n as [? ? [] ? ? ? ? ? ? ? ? ?].
Qed.

(** How a call ends: refused without effect, refused with a report against
    the proposer, or recorded (and then signed or not). *)
Inductive handled (now : Time) (b : Block) (n : Node) : Node → res BlockVote → Prop :=
  | handled_refused e : handled now b n n (inr e)
  | handled_invalid b' e :
      ValidateProposal now n.(n_Chain) b = (b', inr e) →
      handled now b n (report_invalid now b' e (error_text e) n) (inr e)
  | handled_recorded b' n1 r :
      IsValidator n b.(Header).(ProposerID) = true → b.(Header).(Height) = u64 (chain_height n.(n_Chain) + 1) →
      ValidateProposal now n.(n_Chain) b = (b', inl tt) →
      checkAndUpdateVoteLock now b.(Header).(Height) b.(Header).(ProposerID) n = (n1, inl tt) →
      (∀ v, r = inl v → IsValidator n (selfID n) = true ∧
         ∃ sg, SignRaw n.(n_Agent) (QuorumApprovalMessage b) = inl sg ∧ v = approval n b (hex0x sg)) →
      handled now b n (set_n_Engine (RecordReceivedProposal (Some b') n.(n_Engine)) n1) r.

Lemma checkAndUpdateVoteLock_frame now h p n :
  ∃ h' p' t', (checkAndUpdateVoteLock now h p n).1 = set_lock h' p' t' n.
Proof.
  unfold checkAndUpdateVoteLock. assert (n = set_lock n.(voteLockHeight) n.(voteLockProposer) n.(voteLockAt) n) as Hn by by destruct n.
  repeat case_match; simpl; eauto.
Qed.

Lemma HandleProposal_handled now b n : handled now b n (HandleProposal now (Some b) n).1 (HandleProposal now (Some b) n).2.
Proof.
  unfold HandleProposal. destruct (IsValidator n (ProposerID (Header b))) eqn:Hv; [|apply handled_refused]. cbn [negb].
  destruct (Z.eqb_spec (Height (Header b)) (u64 (chain_height (n_Chain n) + 1))) as [Hh|]; [|apply handled_refused]. cbn [negb].
  destruct (validateBlock_frame now (n_Chain n) b false) as [Hhd Hha]. fold (ValidateProposal now (n_Chain n) b) in *.
  destruct (ValidateProposal now (n_Chain n) b) as [b' [[]|e]] eqn:Hval; [|by apply handled_invalid]. cbn [fst] in *.
  rewrite Hhd. pose proof (checkAndUpdateVoteLock_frame now (Height (Header b)) (ProposerID (Header b)) n) as (h' & p' & t' & Hlk).
  destruct (checkAndUpdateVoteLock _ _ _ n) as [n1 [[]|e]] eqn:Hl; cbn [fst] in Hlk.
  2: { unfold checkAndUpdateVoteLock in Hl. repeat case_match; try done. injection Hl as <- _. apply handled_refused. }
  subst n1. set (n2 := set_n_Engine _ _). assert (QuorumApprovalMessage b' = QuorumApprovalMessage b) as Hq
    by (unfold QuorumApprovalMessage; by rewrite Hha).
  assert (∀ r, (∀ v, r = inl v → IsValidator n (selfID n) = true ∧
         ∃ sg, SignRaw n.(n_Agent) (QuorumApprovalMessage b) = inl sg ∧ v = approval n b (hex0x sg)) → handled now b n n2 r) as Hrec.
  { intros r Hr. by eapply (handled_recorded now b n b' (set_lock h' p' t' n)). }
  change (IsValidator n2 (selfID n2)) with (IsValidator n (selfID n)). destruct (IsValidator n (selfID n)) eqn:Hself; cbn [negb]; [|by apply Hrec].
  rewrite Hq. change (n_Agent n2) with (n_Agent n). destruct (SignRaw (n_Agent n) (QuorumApprovalMessage b)) as [sg|e] eqn:Hsg; [|by apply Hrec].
  apply Hrec. intros v [= <-]. split; [done|]. exists sg. split; [done|]. unfold approval. by rewrite Hha, Hhd.
Qed.

(* ------------------------------------------------------------------ *)
(** * The vote lock *)

(** One node asked to vote on one proposal after the other. *)
Fixpoint handle_all (l : list (Time * Block)) (n : Node) : Node * list (res BlockVote) :=
  match l with
  | [] => (n, [])
  | (now, b) :: l =>
      let '(n, r) := HandleProposal now (Some b) n in
      let '(n, rs) := handle_all l n in (n, r :: rs)
  end.

(** A vote for [p] at height [h] was cast at [t1]: the lock still names [p],
    or the timeout has passed since. *)
Record held (h : Z) (p : string) (t1 last d : Z) (n : Node) : Prop := {
  hd_height : u64 (chain_height n.(n_Chain) + 1) = h;
  hd_timeout : n.(voteLockTimeout) = d;
  hd_lock : n.(voteLockHeight) = h;
  hd_last : n.(voteLockAt).(instant) ≤ last;
  hd_held : n.(voteLockProposer) = p ∧ t1 ≤ n.(voteLockAt).(instant) ∨ t1 + d ≤ n.(voteLockAt).(instant)
}.

Lemma HandleProposal_lock now b n n' r :
  HandleProposal now (Some b) n = (n', r) → 0 < n.(voteLockTimeout) →
  chain_height n'.(n_Chain) = chain_height n.(n_Chain) ∧ n'.(voteLockTimeout) = n.(voteLockTimeout) ∧
  ((n'.(voteLockHeight) = n.(voteLockHeight) ∧ n'.(voteLockProposer) = n.(voteLockProposer) ∧ n'.(voteLockAt) = n.(voteLockAt) ∧ ∃ e, r = inr e) ∨
   (b.(Header).(Height) = u64 (chain_height n.(n_Chain) + 1) ∧
    n'.(voteLockHeight) = b.(Header).(Height) ∧ n'.(voteLockProposer) = b.(Header).(ProposerID) ∧ n'.(voteLockAt) = now ∧
    (n.(voteLockHeight) = b.(Header).(Height) → n.(voteLockProposer) ≠ "" → n.(voteLockProposer) ≠ b.(Header).(ProposerID) →
     n.(voteLockTimeout) ≤ now.(instant) - n.(voteLockAt).(instant)))).
Proof.
  intros Hrun Hpos. pose proof (HandleProposal_handled now b n) as Hh. rewrite Hrun in Hh. cbn [fst snd] in Hh.
  destruct Hh as [e|b' e Hv|b' n1 r Hv Hht Hval Hlk Hr].
  - split_and!; [done..|]. left. split_and!; [done..|by eexists].
  - destruct (report_invalid_ok now b' e (error_text e) n) as (t' & Hs & _).
    destruct (slashed_node_frame _ _ Hs) as (H1 & _ & _ & _ & H2 & H3 & H4 & H5). split_and!; [done..|].
    left. split_and!; [done..|by eexists].
  - unfold checkAndUpdateVoteLock in Hlk. destruct (Z.leb_spec (voteLockTimeout n) 0); [lia|].
    destruct (_ && _ && _ && _) eqn:Hc; [done|]. injection Hlk as <-. split_and!; [done..|]. right. split_and!; try done.
    intros Heq Hne Hnp. rewrite Heq, Z.eqb_refl in Hc. unfold empty_str in Hc. rewrite !bool_decide_eq_false_2 in Hc by done. simpl in Hc.
    apply Z.ltb_ge in Hc. lia.
Qed.

Lemma held_step h p t1 last d now b n n' r :
  p ≠ "" → 0 < d → t1 ≤ now.(instant) → last ≤ now.(instant) → held h p t1 last d n →
  HandleProposal now (Some b) n = (n', r) →
  held h p t1 now.(instant) d n' ∧
  (∀ v, r = inl v → b.(Header).(ProposerID) ≠ p → t1 + d ≤ now.(instant)).
Proof.
  intros Hp Hd H1 Hle [Hh Ht Hl Hla Hhe] Hrun. destruct (HandleProposal_lock now b n n' r Hrun ltac:(lia)) as (Hch & Hti & Hcase).
  destruct Hcase as [(E1 & E2 & E3 & e & ->)|(Hbh & E1 & E2 & E3 & Hlock)].
  - split; [|done]. split; [congruence|congruence|congruence|rewrite E3; lia|rewrite E2, E3; done].
  - assert (b.(Header).(ProposerID) ≠ p → t1 + d ≤ now.(instant)) as Hfar.
    { intros Hne. destruct Hhe as [[Hpr Hge]|Hge]; [|lia].
      specialize (Hlock ltac:(congruence) ltac:(congruence) ltac:(congruence)). lia. }
    split; [|auto]. split; [congruence|congruence|congruence|rewrite E3; lia|]. rewrite E2, E3.
    destruct (decide (ProposerID (Header b) = p)) as [->|Hne]; [by left|right; auto].
Qed.

Lemma held_later l h p t1 last d n j now b v :
  p ≠ "" → 0 < d → StronglySorted Z.le (last :: (instant ∘ fst <$> l)) → t1 ≤ last → held h p t1 last d n →
  l !! j = Some (now, b) → (handle_all l n).2 !! j = Some (inl v) → b.(Header).(ProposerID) ≠ p → t1 + d ≤ now.(instant).
Proof.
  intros Hp Hd. revert last n j. induction l as [|[now0 b0] l IH]; intros last n j Hs H1 Hh Hl Hr Hne; [done|].
  rewrite fmap_cons in Hs. inversion_clear Hs as [|?? Hs' Hall]. inversion_clear Hall as [|?? Hx _]. simpl in Hx.
  cbn [handle_all] in Hr. destruct (HandleProposal now0 (Some b0) n) as [n1 r] eqn:Hrun. destruct (handle_all l n1) as [n2 rs] eqn:Hall.
  destruct (held_step h p t1 last d now0 b0 n n1 r Hp Hd ltac:(lia) Hx Hh Hrun) as [Hh1 Hfar]. destruct j as [|j].
  - injection Hl as -> ->. injection Hr as ->. by eapply Hfar.
  - eapply (IH (instant now0) n1 j Hs'); [lia|done|done|by rewrite Hall|done].
Qed.

(** Approvals for different producers are at least the timeout apart. *)
Lemma lock_separates l n i j t1 b1 v1 t2 b2 v2 :
  0 < n.(voteLockTimeout) → StronglySorted Z.le (instant ∘ fst <$> l) → (i < j)%nat →
  l !! i = Some (t1, b1) → l !! j = Some (t2, b2) →
  (handle_all l n).2 !! i = Some (inl v1) → (handle_all l n).2 !! j = Some (inl v2) →
  b1.(Header).(ProposerID) ≠ "" → b2.(Header).(ProposerID) ≠ b1.(Header).(ProposerID) →
  t1.(instant) + n.(voteLockTimeout) ≤ t2.(instant).
Proof.
  revert n i j. induction l as [|[now b] l IH]; intros n i j Hd Hs Hij Hi Hj Ri Rj Hp Hne; [done|].
  destruct j as [|j]; [lia|]. cbn [handle_all] in Ri, Rj.
  destruct (HandleProposal now (Some b) n) as [n1 r] eqn:Hrun. destruct (handle_all l n1) as [n2 rs] eqn:Hall.
  destruct (HandleProposal_lock now b n n1 r Hrun Hd) as (Hch & Hti & Hcase). destruct i as [|i].
  - injection Hi as -> ->. injection Ri as ->. destruct Hcase as [(_ & _ & _ & e & ?)|(Hbh & E1 & E2 & E3 & _)]; [done|].
    eapply (held_later l (u64 (chain_height (n_Chain n) + 1)) (ProposerID (Header b1)) (instant t1) (instant t1) (voteLockTimeout n) n1 j t2 b2 v2);
      [done|done|done|lia| |done|by rewrite Hall|done].
    split; [congruence|done|congruence|rewrite E3; lia|]. rewrite E2, E3. left. split; [done|lia].
  - rewrite <- Hti. eapply (IH n1 i j); try done; [lia| |lia|by rewrite Hall|by rewrite Hall]. rewrite fmap_cons in Hs. by inversion_clear Hs.
Qed.

End with_ed25519.
