(* ===== verification/Rpc.v ===== *)
(** The RPC server's side of the network (internal/rpc/server.go): handlers
    that change the chain, and catching up with peers over HTTP.

    A server serves the chain of its node, or a chain of its own when it has
    no node; both are one object in the program and one field here. What
    peers answer and what the clock shows is a [PeerNet]: an arbitrary answer
    to the n-th request. Saving to the store is best effort and pushing to
    peers is sent off without waiting; an operation returns these effects in
    order. [CatchUpOnce] loops as long as a peer keeps it busy, so its model
    takes fuel. *)
From stdpp Require Import base strings list gmap.
From S2P Require Import Prelude GoStd Types TxModel Block Messages Chain Network Engine Agent.
From S2P Require Import Node.

#[local] Open Scope string_scope.
#[local] Open Scope Z_scope.

(* ------------------------------------------------------------------ *)
(** * The server *)

Inductive Backend : Type :=
  | ChainOnly (c : Chain)
  | WithNode (n : Node).

Record Server : Type := mkServer {
  backend : Backend;
  hasStore : bool;
  PeerURLs : list string;
  ConsensusPeerURLs : list string;
  MailboxRelayPeers : list string;
  RegistryURL : string;
  CommunicatorToken : string;
  ProposeBlockToken : string;
  ConsensusToken : string;
  ConsensusPeerTokens : gmap string string
}.

Definition s_Chain (s : Server) : Chain :=
  match s.(backend) with ChainOnly c => c | WithNode n => n.(n_Chain) end.
Definition s_Node (s : Server) : option Node :=
  match s.(backend) with ChainOnly _ => None | WithNode n => Some n end.

Definition set_backend (x : Backend) (s : Server) : Server :=
  mkServer x s.(hasStore) s.(PeerURLs) s.(ConsensusPeerURLs) s.(MailboxRelayPeers) s.(RegistryURL) s.(CommunicatorToken)
    s.(ProposeBlockToken) s.(ConsensusToken) s.(ConsensusPeerTokens).
Definition set_s_Chain (c : Chain) (s : Server) : Server :=
  set_backend (match s.(backend) with ChainOnly _ => ChainOnly c | WithNode n => WithNode (set_n_Chain c n) end) s.
Definition set_s_Node (n : Node) : Server → Server := set_backend (WithNode n).

(** [NewServer] *)
Definition NewServer (b : Backend) (store : bool) : Server := mkServer b store [] [] [] "" "" "" "" ∅.

(** [sanitizePeerURLs] *)
Fixpoint sanitize_urls (urls seen : list string) : list string :=
  match urls with
  | [] => []
  | url :: urls =>
      let url := trim_right_slash (TrimSpace url) in
      if empty_str url || bool_decide (url ∈ seen) then sanitize_urls urls seen
      else if HasPrefix url "http://" || HasPrefix url "https://" then url :: sanitize_urls urls (url :: seen)
      else sanitize_urls urls seen
  end.
Definition sanitizePeerURLs (urls : list string) : list string := sanitize_urls urls [].

(** [sanitizeMailboxRelayPeers] (mailbox_relay.go) *)
Fixpoint sanitize_ids (ids seen : list string) : list string :=
  match ids with
  | [] => []
  | id :: ids =>
      let id := TrimSpace id in
      if empty_str id || bool_decide (id ∈ seen) then sanitize_ids ids seen
      else id :: sanitize_ids ids (id :: seen)
  end.
Definition sanitizeMailboxRelayPeers (ids : list string) : list string := sanitize_ids ids [].

(** [SetPeerURLs], [SetConsensusPeerURLs], [SetMailboxRelayPeers]; the
    snapshots return what was set. *)
Definition SetPeerURLs (urls : list string) (s : Server) : Server :=
  mkServer s.(backend) s.(hasStore) (sanitizePeerURLs urls) s.(ConsensusPeerURLs) s.(MailboxRelayPeers) s.(RegistryURL)
    s.(CommunicatorToken) s.(ProposeBlockToken) s.(ConsensusToken) s.(ConsensusPeerTokens).
Definition SetConsensusPeerURLs (urls : list string) (s : Server) : Server :=
  mkServer s.(backend) s.(hasStore) s.(PeerURLs) (sanitizePeerURLs urls) s.(MailboxRelayPeers) s.(RegistryURL)
    s.(CommunicatorToken) s.(ProposeBlockToken) s.(ConsensusToken) s.(ConsensusPeerTokens).
Definition SetMailboxRelayPeers (ids : list string) (s : Server) : Server :=
  mkServer s.(backend) s.(hasStore) s.(PeerURLs) s.(ConsensusPeerURLs) (sanitizeMailboxRelayPeers ids) s.(RegistryURL)
    s.(CommunicatorToken) s.(ProposeBlockToken) s.(ConsensusToken) s.(ConsensusPeerTokens).

(** What leaves the server. *)
Inductive Effect : Type :=
  | Saved (c : Chain)
  | Pushed (b : Block).

Definition save (s : Server) : list Effect := if s.(hasStore) then [Saved (s_Chain s)] else [].

(** [pushBlockToPeers] *)
Definition pushBlockToPeers (b : option Block) (s : Server) : list Effect :=
  match b, s.(PeerURLs) with
  | Some b, _ :: _ => [Pushed b]
  | _, _ => []
  end.

(** The answer of a handler: a value, or a status and an error. *)
Definition Reply (A : Type) : Type := A + (Z * error).

Definition StatusBadRequest : Z := 400.
Definition StatusUnauthorized : Z := 401.
Definition StatusMethodNotAllowed : Z := 405.
Definition StatusRequestEntityTooLarge : Z := 413.
Definition StatusServiceUnavailable : Z := 503.

(** The error of a handler that dereferences a nil pointer. *)
Definition ErrNil : error := Panic "invalid memory address or nil pointer dereference".

Definition is_panic (e : error) : bool := match e with Panic _ => true | Err _ => false end.

Section with_ed25519.
Context `{E : Ed25519}.

(* ------------------------------------------------------------------ *)
(** * Handlers *)

(** [handleSubmitTx]; [body] is the decoded request. *)
Definition handleSubmitTx (now : Z) (post : bool) (body : res Tx) (s : Server) : Server * list Effect * Reply string :=
  if negb post then (s, [], inr (StatusMethodNotAllowed, Err "method not allowed"))
  else
    match body with
    | inr e =>
        if bool_decide (e = Err "http: request body too large")
        then (s, [], inr (StatusRequestEntityTooLarge, Err "request body too large"))
        else (s, [], inr (StatusBadRequest, e))
    | inl tx =>
        match SubmitTx now tx (s_Chain s) with
        | (c, inr e) => (set_s_Chain c s, [], inr (StatusBadRequest, e))
        | (c, inl _) => let s := set_s_Chain c s in (s, save s, inl tx.(ID))
        end
    end.

(** [handleProposeBlock]; [given] is the token header. *)
Definition handleProposeBlock (w : Outgoing) (post : bool) (given : string) (s : Server) : Server * list Effect * Reply string :=
  if negb post then (s, [], inr (StatusMethodNotAllowed, Err "method not allowed"))
  else if empty_str s.(ProposeBlockToken) then (s, [], inr (StatusServiceUnavailable, Err "propose-block is disabled for this deployment"))
  else if empty_str given || negb (bool_decide (given = s.(ProposeBlockToken)))
  then (s, [], inr (StatusUnauthorized, Err "unauthorized: missing or incorrect X-Propose-Block-Token"))
  else
    match s_Node s with
    | None => (s, [], inr (StatusServiceUnavailable, Err "node not available"))
    | Some n =>
        match ProposeBlockHash w n with
        | (n, inr e) => (set_s_Node n s, [], inr (StatusBadRequest, e))
        | (n, inl hash) =>
            let s := set_s_Node n s in
            (s, (save s ++ pushBlockToPeers (tip (s_Chain s)) s)%list, inl hash)
        end
    end.

(** [applyPeerBlock] *)
Definition applyPeerBlock (now : Time) (b : option Block) (s : Server) : Server * list Effect * res bool :=
  match b with
  | None => (s, [], inr (Err "missing block"))
  | Some b =>
      let c := s_Chain s in
      if match tip c with Some t => b.(Header).(Height) <=? t.(Header).(Height) | None => false end
      then
        if match BlockAt c b.(Header).(Height) with Some x => bool_decide (x.(Hash) = b.(Hash)) | None => false end
        then (s, [], inl false)
        else
          match TryReorg now b.(Header).(Height) [Some b] c c with
          | (c, inl true) => let s := set_s_Chain c s in (s, save s, inl true)
          | (c, inl false) => (set_s_Chain c s, [], inl false)
          | (c, inr e) => (set_s_Chain c s, [], inr e)
          end
      else
        match FinalizeBlock now c b with
        | (c, _, inl _) => let s := set_s_Chain c s in (s, save s, inl true)
        | (c, _, inr e) => (set_s_Chain c s, [], inr e)
        end
  end.

(** [handleGossipBlock]: whether the block was applied, the height and the
    tip. *)
Definition handleGossipBlock (now : Time) (post : bool) (body : res (option Block)) (s : Server)
  : Server * list Effect * Reply (bool * Z * string) :=
  if negb post then (s, [], inr (StatusMethodNotAllowed, Err "method not allowed"))
  else
    match body with
    | inr e => (s, [], inr (StatusBadRequest, e))
    | inl b =>
        match applyPeerBlock now b s with
        | (s, out, inr e) => (s, out, inr (StatusBadRequest, e))
        | (s, out, inl applied) =>
            match tip (s_Chain s) with
            | None => (s, out, inr (0, ErrNil))
            | Some t => (s, out, inl (applied, chain_height (s_Chain s), t.(Hash)))
            end
        end
    end.

(* ------------------------------------------------------------------ *)
(** * Catching up *)

Record peerStatus : Type := mkPeerStatus {
  ps_Height : Z;
  ps_EarliestHeight : Z;
  ps_ChainID : string;
  ps_Tip : string;
  ps_StateRoot : string;
  ps_ImmuneCapable : bool;
  ps_Capabilities : list string
}.

(** What the network answers: [peerStatus] and [peerBlocks] (from, limit) by
    the number of the request, and the clock. *)
Record PeerNet : Type := mkPeerNet {
  pn_status : nat → string → res peerStatus;
  pn_blocks : nat → string → Z → Z → res (list (option Block));
  pn_now : nat → Time
}.

Record Sync : Type := mkSync { sy_srv : Server; sy_tick : nat; sy_out : list Effect }.

Definition sy_Chain (y : Sync) : Chain := s_Chain y.(sy_srv).
Definition tick (y : Sync) : Sync := mkSync y.(sy_srv) (S y.(sy_tick)) y.(sy_out).

Definition catchUpBatchSize : Z := 250.

Context (w : PeerNet).

Definition apply_one (b : option Block) (y : Sync) : Sync * res bool :=
  let '(s, out, r) := applyPeerBlock (w.(pn_now) y.(sy_tick)) b y.(sy_srv) in
  (mkSync s (S y.(sy_tick)) (y.(sy_out) ++ out)%list, r).

(** The loop over a page: how many blocks were applied, the height, and
    whether a block was rejected. A panic ends the process. *)
Fixpoint apply_page (blocks : list (option Block)) (applied myHeight : Z) (y : Sync) : Sync * res (Z * Z * bool) :=
  match blocks with
  | [] => (y, inl (applied, myHeight, false))
  | b :: blocks =>
      match apply_one b y with
      | (y, inr e) => (y, if is_panic e then inr e else inl (applied, myHeight, true))
      | (y, inl true) => apply_page blocks (applied + 1) (chain_height (sy_Chain y)) y
      | (y, inl false) => apply_page blocks applied myHeight y
      end
  end.

(** The search for a fork point at most three blocks back: the new height if
    the chain was switched. *)
Fixpoint find_fork (n : nat) (back : Z) (peer : string) (myHeight : Z) (y : Sync) : Sync * res (option Z) :=
  match n with
  | O => (y, inl None)
  | S n =>
      let forkH := myHeight - back in
      if (back <=? myHeight) && (EarliestHeight (sy_Chain y) <=? forkH) && negb (forkH =? 0) then
        let answer := w.(pn_blocks) y.(sy_tick) peer (i64 forkH) catchUpBatchSize in
        let y := tick y in
        match answer with
        | inl (None :: _) => (y, inr ErrNil)
        | inl ((Some b0 :: _) as cand) =>
            if (b0.(Header).(Height) =? forkH)
               && match BlockAt (sy_Chain y) forkH with Some cur => negb (bool_decide (cur.(Hash) = b0.(Hash))) | None => false end
            then
              match TryReorg (w.(pn_now) y.(sy_tick)) forkH cand (sy_Chain y) (sy_Chain y) with
              | (c, inl true) =>
                  let s := set_s_Chain c y.(sy_srv) in
                  (mkSync s (S y.(sy_tick)) (y.(sy_out) ++ save s)%list, inl (Some (chain_height c)))
              | (_, inr e) => if is_panic e then (y, inr e) else find_fork n (back + 1) peer myHeight (tick y)
              | (_, inl false) => find_fork n (back + 1) peer myHeight (tick y)
              end
            else find_fork n (back + 1) peer myHeight y
        | _ => find_fork n (back + 1) peer myHeight y
        end
      else (y, inl None)
  end.

Inductive outcome : Type :=
  | Done (anyApplied : bool) (myHeight : Z)
  | Crashed (e : error)
  | OutOfFuel.

(** The loop over the pages of one peer. *)
Fixpoint catch_up_peer (fuel : nat) (peer : string) (anyApplied : bool) (myHeight : Z) (y : Sync) : Sync * outcome :=
  match fuel with
  | O => (y, OutOfFuel)
  | S fuel =>
      let answer := w.(pn_blocks) y.(sy_tick) peer (i64 (u64 (myHeight + 1))) catchUpBatchSize in
      let y := tick y in
      match answer with
      | inr _ | inl [] => (y, Done anyApplied myHeight)
      | inl blocks =>
          match apply_page blocks 0 myHeight y with
          | (y, inr e) => (y, Crashed e)
          | (y, inl (applied, myHeight, stop)) =>
              let anyApplied := anyApplied || (0 <? applied) in
              if stop && (applied =? 0) && (0 <? myHeight) then
                match find_fork 4 0 peer myHeight y with
                | (y, inr e) => (y, Crashed e)
                | (y, inl (Some myHeight)) => catch_up_peer fuel peer true myHeight y
                | (y, inl None) => (y, Done anyApplied myHeight)
                end
              else if stop || (Z.of_nat (length blocks) <? catchUpBatchSize) then (y, Done anyApplied myHeight)
              else catch_up_peer fuel peer anyApplied myHeight y
          end
      end
  end.

(** The loop over the peers. *)
Fixpoint catch_up (fuel : nat) (peers : list string) (myHeight : Z) (y : Sync) : Sync * outcome :=
  match peers with
  | [] => (y, Done false myHeight)
  | peer :: peers =>
      let status := w.(pn_status) y.(sy_tick) peer in
      let y := tick y in
      match status with
      | inr _ => catch_up fuel peers myHeight y
      | inl st =>
          if st.(ps_Height) <=? myHeight then catch_up fuel peers myHeight y
          else
            match catch_up_peer fuel peer false myHeight y with
            | (y, Done false myHeight) => catch_up fuel peers myHeight y
            | r => r
            end
      end
  end.

(** [CatchUpOnce] *)
Definition CatchUpOnce (fuel : nat) (y : Sync) : Sync * outcome :=
  catch_up fuel y.(sy_srv).(PeerURLs) (chain_height (sy_Chain y)) y.

End with_ed25519.
