(* ===== verification/RpcFacts.v ===== *)
(** What catching up with peers can and cannot do: the chain only ever moves
    by blocks it has verified itself, a peer that serves a valid extension is
    followed to its tip, and a peer that never stops answering is never left. *)
From stdpp Require Import base strings list gmap relations.
From S2P Require Import Prelude GoStd Types TxModel Staking Block Messages Chain ChainFacts.
From S2P Require Import ChainWindow Network Engine Agent Node Rpc.

#[local] Open Scope string_scope.
#[local] Open Scope list_scope.
#[local] Open Scope Z_scope.

Lemma s_Chain_set c s : s_Chain (set_s_Chain c s) = c.
Proof. unfold s_Chain, set_s_Chain. by destruct (backend s). Qed.

Section facts.
Context `{E : Ed25519}.

(** Who may authorize blocks of a chain. *)
Definition policy (c : Chain) : gmap string string * Z * ValidatorStakingParams :=
  (c.(validatorKeys), c.(requiredQuorum), c.(validatorStaking)).

Lemma trimHotWindow_policy c : policy (trimHotWindow c) = policy c.
Proof. unfold trimHotWindow, policy. repeat case_match; done. Qed.

Lemma trimHotWindow_tip c : tip (trimHotWindow c) = tip c.
Proof.
  destruct (trimHotWindow_cases c) as [->|(n & base & next & Hn & Hl & Hm & _ & _ & ->)]; [done|].
  unfold tip. simpl. rewrite !last_lookup, lookup_drop, length_drop. f_equal. lia.
Qed.

Lemma FinalizeBlock_tip now c b c' b' :
  FinalizeBlock now c b = (c', b', inl tt) →
  tip c' = Some b' ∧ b'.(Header) = b.(Header) ∧ policy c' = policy c ∧
  ∃ parent, tip c = Some parent ∧ b.(Header).(Height) = u64 (parent.(Header).(Height) + 1).
Proof.
  destruct (FinalizeBlock_cases now c b) as [(b1 & next & [Hh -> _ _ _] & ->)|(b1 & e & _ & ->)]; [|done].
  intros [= <- <-]. unfold commit_block. rewrite trimHotWindow_tip, trimHotWindow_policy.
  unfold tip at 1. cbn. rewrite last_snoc.
  apply check_header_ok in Hh as (parent & Ht & _ & Hh & _). split_and!; try done. by exists parent.
Qed.

Lemma last_branch (prefix : list Block) anchor new :
  (length prefix < length new)%nat → last (prefix ++ drop (1 + length prefix) ([anchor] ++ new)) = last ([anchor] ++ new).
Proof.
  intros Hl. rewrite !last_lookup, !length_app, length_drop, length_app. simpl.
  rewrite lookup_app_r by lia. rewrite lookup_drop, lookup_cons_ne_0 by lia. f_equal. lia.
Qed.

(** The last block of a replay was finalized by the scratch chain. *)
Lemma replay_tip now scratch bs s' :
  replay now scratch bs = inl s' → bs ≠ [] →
  ∃ c0 b0 t, FinalizeBlock now c0 b0 = (s', t, inl tt) ∧ policy c0 = policy scratch.
Proof.
  revert scratch. induction bs as [|[b|] bs IH]; intros scratch; simpl; [done| |done].
  destruct (FinalizeBlock now scratch b) as [[s1 b1] [[]|e]] eqn:Hf; [|done]. intros Hr _.
  destruct (FinalizeBlock_tip _ _ _ _ _ Hf) as (_ & _ & Hp & _).
  destruct bs as [|o bs]; [injection Hr as <-; by exists scratch, b, b1|].
  destruct (IH s1 Hr ltac:(done)) as (c0 & b0 & t & ? & ?). exists c0, b0, t. split; [done|congruence].
Qed.

(** The two ways in which catching up moves a chain. *)
Inductive sync_step (c c' : Chain) : Prop :=
  | sync_block now b b' : FinalizeBlock now c b = (c', b', inl tt) → sync_step c c'
  | sync_reorg now h cand : TryReorg now h cand c c = (c', inl true) → sync_step c c'.

(** [t] was finalized, with all its checks, by a chain with the rules of [c]. *)
Definition vouched (c : Chain) (t : Block) : Prop :=
  ∃ now c0 b0 c1, FinalizeBlock now c0 b0 = (c1, t, inl tt) ∧ policy c0 = policy c ∧
    (c0.(authEnforceFromHeight) = 0 ∨ c0.(authEnforceFromHeight) = c.(authEnforceFromHeight)).

Lemma commit_auth b next c : (commit_block b next c).(authEnforceFromHeight) = c.(authEnforceFromHeight).
Proof. unfold commit_block, trimHotWindow. repeat case_match; done. Qed.

Lemma FinalizeBlock_auth now c b c' b' :
  FinalizeBlock now c b = (c', b', inl tt) → c'.(authEnforceFromHeight) = c.(authEnforceFromHeight).
Proof.
  destruct (FinalizeBlock_cases now c b) as [(b1 & next & _ & ->)|(b1 & e & _ & ->)]; [|done].
  intros [= <- <-]. apply commit_auth.
Qed.

Lemma replay_auth now scratch bs s' :
  replay now scratch bs = inl s' → s'.(authEnforceFromHeight) = scratch.(authEnforceFromHeight).
Proof.
  revert scratch. induction bs as [|[b|] bs IH]; intros scratch; simpl; [congruence| |done].
  destruct (FinalizeBlock now scratch b) as [[s1 b1] [[]|e]] eqn:Hf; [|done]. intros Hr%IH.
  by rewrite Hr, (FinalizeBlock_auth _ _ _ _ _ Hf).
Qed.

Lemma reorg_plan_scratch h cand c p :
  reorg_plan h cand c = inl p →
  policy p.(rp_scratch) = policy c ∧ p.(rp_scratch).(authEnforceFromHeight) = 0 ∧ p.(rp_scratch).(maxHotBlocks) = 0 ∧
  (∃ anchor, p.(rp_scratch).(Blocks) = [anchor]) ∧ cand ≠ [].
Proof.
  unfold reorg_plan. repeat (case_match; try done); intros [= <-]; (split_and!; try done; by eexists).
Qed.

Lemma TryReorg_tip now h cand c c' :
  TryReorg now h cand c c = (c', inl true) →
  policy c' = policy c ∧ c'.(authEnforceFromHeight) = c.(authEnforceFromHeight) ∧
  ∃ t, tip c' = Some t ∧ vouched c t.
Proof.
  unfold TryReorg. destruct (reorg_plan h cand c) as [p|e] eqn:Hp; [|done].
  destruct (heavier _ _ _); simpl; [|done]. destruct (replay now _ _) as [s|e] eqn:Hr; [|done].
  unfold reorg_commit. case_match; [done|]. intros [= <-].
  destruct (reorg_plan_scratch _ _ _ _ Hp) as (Hpol & Ha & Hm & (anchor & Hb) & Hc).
  destruct (replay_blocks _ _ _ _ Hm Hr) as (new & Hnew & HF).
  pose proof (Forall2_length _ _ _ HF) as Hlen. rewrite length_app, length_map in Hlen.
  assert (map Some p.(rp_prefix) ++ cand ≠ []) as Hne by (by intros [_ ?]%app_nil).
  destruct (replay_tip _ _ _ _ Hr Hne) as (c0 & b0 & t & Hf & Hc0).
  destruct (FinalizeBlock_tip _ _ _ _ _ Hf) as (Ht & _).
  assert (0 < length cand)%nat by (destruct cand; simpl; [done|lia]).
  split; [by rewrite trimHotWindow_policy|]. split; [unfold trimHotWindow; repeat case_match; done|].
  exists t. rewrite trimHotWindow_tip. split.
  - unfold tip in *. cbn. rewrite Hnew, Hb in Ht |- *. by rewrite (last_branch _ anchor new) by lia.
  - exists now, c0, b0, s. split; [done|]. split; [by rewrite Hc0|]. left.
    rewrite <- (FinalizeBlock_auth _ _ _ _ _ Hf), (replay_auth _ _ _ _ Hr). done.
Qed.

Lemma sync_step_tip c c' :
  sync_step c c' → policy c' = policy c ∧ c'.(authEnforceFromHeight) = c.(authEnforceFromHeight) ∧
  ∃ t, tip c' = Some t ∧ vouched c t.
Proof.
  intros [now b b' Hf|now h cand Hr]; [|by apply TryReorg_tip in Hr].
  destruct (FinalizeBlock_tip _ _ _ _ _ Hf) as (Ht & _ & Hp & _).
  split_and!; [done|by apply (FinalizeBlock_auth _ _ _ _ _ Hf)|].
  exists b'. split; [done|]. exists now, c, b, c'. auto.
Qed.

Lemma vouched_policy c c' t :
  policy c' = policy c → c'.(authEnforceFromHeight) = c.(authEnforceFromHeight) → vouched c' t → vouched c t.
Proof. intros Hp Ha (now & c0 & b0 & c1 & ? & ? & ?). exists now, c0, b0, c1. by rewrite <- Hp, <- Ha. Qed.

Lemma sync_steps_tip c c' :
  rtc sync_step c c' →
  policy c' = policy c ∧ c'.(authEnforceFromHeight) = c.(authEnforceFromHeight) ∧
  (c' = c ∨ ∃ t, tip c' = Some t ∧ vouched c t).
Proof.
  induction 1 as [c|c c1 c' Hs _ (Hp & Ha & Ht)]; [by auto|].
  apply sync_step_tip in Hs as (Hp1 & Ha1 & t1 & Ht1 & Hv1). rewrite Hp, Ha. split_and!; [done..|].
  right. destruct Ht as [->|(t & Ht & Hv)]; [by exists t1|]. exists t. split; [done|]. by apply (vouched_policy c c1).
Qed.

(** What a vouched block is worth in roster mode. *)
Lemma vouched_roster c t :
  vouched c t → c.(validatorKeys) ≠ ∅ → c.(validatorStaking).(ConsensusFromHeight) = 0 →
  c.(authEnforceFromHeight) ≤ t.(Header).(Height) → 0 < t.(Header).(Height) →
  c.(requiredQuorum) ≤ Z.of_nat (size (roster_approvals c t)) ∧
  ∃ key raw, c.(validatorKeys) !! t.(Header).(ProposerID) = Some key ∧
    decode_fixed t.(ProposerSignature) 64 = Some raw ∧ ed_Verify key t.(Hash) raw = true.
Proof.
  intros (now & c0 & b0 & c1 & Hf & Hp & Ha) Hk Hs He Hpos. unfold policy in Hp. injection Hp as Hpk Hpq Hps.
  destruct (FinalizeBlock_cases now c0 b0) as [(b' & next & [Hh -> _ _ _] & Hr)|(b' & e & _ & Hr)]; rewrite Hr in Hf; [|done].
  injection Hf as <- <-. simpl in He, Hpos.
  destruct (check_header_ok _ _ _ _ Hh) as (_ & _ & _ & _ & _ & Hauth & _). unfold check_authorization in Hauth.
  assert (stakeAuthoritySet c0 b0.(Header).(Height) = []) as Hset.
  { unfold stakeAuthoritySet, ConsensusActiveAt. by rewrite Hps, Hs, orb_true_r. }
  rewrite Hset, (proj2 (Z.ltb_lt _ _)), bool_decide_eq_false_2, (proj2 (Z.leb_le _ _)) in Hauth; [|lia| |done].
  2:{ rewrite Hpk. by intros ?%map_size_empty_iff. }
  apply verifyBlockAuthorization_iff in Hauth as [(key & raw & ? & _ & ? & ?) Hq].
  rewrite <- Hpq, <- Hpk. unfold roster_approvals in *. simpl. rewrite <- Hpk. split; [exact Hq|]. by exists key, raw.
Qed.

(* ------------------------------------------------------------------ *)
(** * A pass only takes such steps *)

(** [y'] comes from [y] by moving the chain, saving only chains on the way. *)
Record moved (y y' : Sync) : Prop := {
  mv_steps : rtc sync_step (sy_Chain y) (sy_Chain y');
  mv_srv : y'.(sy_srv) = set_s_Chain (sy_Chain y') y.(sy_srv);
  mv_out : ∃ l, y'.(sy_out) = y.(sy_out) ++ l ∧
    Forall (λ e, match e with Saved c => rtc sync_step (sy_Chain y) c | Pushed _ => False end) l
}.

Lemma set_s_Chain_self s : set_s_Chain (s_Chain s) s = s.
Proof. destruct s as [[c|[]] ? ? ? ? ? ? ? ? ?]; done. Qed.

Lemma set_s_Chain_twice c c' s : set_s_Chain c (set_s_Chain c' s) = set_s_Chain c s.
Proof. destruct s as [[c0|[]] ? ? ? ? ? ? ? ? ?]; done. Qed.

Lemma moved_refl y : moved y y.
Proof. split; [done|symmetry; apply set_s_Chain_self|]. exists []. by rewrite app_nil_r. Qed.

Lemma moved_trans y1 y2 y3 : moved y1 y2 → moved y2 y3 → moved y1 y3.
Proof.
  intros [H1 Hs1 (l1 & Ho1 & HF1)] [H2 Hs2 (l2 & Ho2 & HF2)]. split; [by etrans|by rewrite Hs2, Hs1, set_s_Chain_twice|].
  exists (l1 ++ l2). rewrite Ho2, Ho1, app_assoc. split; [done|]. apply Forall_app. split; [done|].
  eapply Forall_impl; [exact HF2|]. intros [c|b]; simpl; [|done]. intros ?. by etrans.
Qed.

Lemma moved_tick y : moved y (tick y).
Proof. split; [done|symmetry; apply set_s_Chain_self|]. exists []. by rewrite app_nil_r. Qed.

Lemma moved_step y c t l :
  c = sy_Chain y ∨ sync_step (sy_Chain y) c → l = [] ∨ l = [Saved c] →
  moved y (mkSync (set_s_Chain c y.(sy_srv)) t (y.(sy_out) ++ l)).
Proof.
  intros Hc Hl. assert (rtc sync_step (sy_Chain y) c) as Hr by (destruct Hc as [->|?]; [done|by apply rtc_once]).
  unfold sy_Chain in *. split; unfold sy_Chain; simpl; rewrite ?s_Chain_set; [done|done|]. exists l. split; [done|].
  destruct Hl as [->| ->]; by repeat constructor.
Qed.

Lemma save_set c s : save (set_s_Chain c s) = [] ∨ save (set_s_Chain c s) = [Saved c].
Proof. unfold save. rewrite s_Chain_set. destruct (hasStore _); auto. Qed.

Lemma TryReorg_same now h cand c c' r : TryReorg now h cand c c = (c', r) → r ≠ inl true → c' = c.
Proof. unfold TryReorg, reorg_commit. repeat case_match; intros [= <- <-]; done. Qed.

Lemma TryReorg_error now h cand c c' e : TryReorg now h cand c c = (c', inr e) → c' = c.
Proof. intros H. by apply (TryReorg_same _ _ _ _ _ _ H). Qed.

Lemma FinalizeBlock_error now c b c' b' e : FinalizeBlock now c b = (c', b', inr e) → c' = c.
Proof. destruct (FinalizeBlock_cases now c b) as [(b1 & next & _ & ->)|(b1 & e1 & _ & ->)]; [done|by intros [= <- _ _]]. Qed.

Lemma applyPeerBlock_moves now b s s' out r :
  applyPeerBlock now b s = (s', out, r) →
  ∃ c, s' = set_s_Chain c s ∧ (c = s_Chain s ∨ sync_step (s_Chain s) c) ∧ (out = [] ∨ out = [Saved c]).
Proof.
  assert (∀ o, (s, [], o) = (s', out, r) → ∃ c, s' = set_s_Chain c s ∧ (c = s_Chain s ∨ sync_step (s_Chain s) c) ∧ (out = [] ∨ out = [Saved c])) as Hid.
  { intros o [= <- <- _]. exists (s_Chain s). rewrite set_s_Chain_self. auto. }
  unfold applyPeerBlock. destruct b as [b|]; [|apply Hid].
  destruct (match tip (s_Chain s) with Some t => _ | None => _ end).
  - destruct (match BlockAt _ _ with Some x => _ | None => _ end); [apply Hid|].
    destruct (TryReorg now _ _ _ _) as [c [[]|e]] eqn:Hr; intros [= <- <- <-]; exists c.
    + split_and!; [done|right; by eapply sync_reorg|apply save_set].
    + apply TryReorg_same in Hr as ->; [auto|done].
    + apply TryReorg_error in Hr as ->. auto.
  - destruct (FinalizeBlock now (s_Chain s) b) as [[c b'] [[]|e]] eqn:Hf; intros [= <- <- <-]; exists c.
    + split_and!; [done|right; by eapply sync_block|apply save_set].
    + apply FinalizeBlock_error in Hf as ->. auto.
Qed.

Context (w : PeerNet).

Lemma apply_one_moves b y y' r : apply_one w b y = (y', r) → moved y y'.
Proof.
  unfold apply_one. destruct (applyPeerBlock _ _ _) as [[s out] r0] eqn:Ha. intros [= <- _].
  apply applyPeerBlock_moves in Ha as (c & -> & Hc & Ho). by apply moved_step.
Qed.

Lemma apply_page_moves blocks applied my y y' r : apply_page w blocks applied my y = (y', r) → moved y y'.
Proof.
  revert applied my y. induction blocks as [|b blocks IH]; intros applied my y; simpl; [by intros [= <- _]; apply moved_refl|].
  destruct (apply_one w b y) as [y1 [[]|e]] eqn:Ha; apply apply_one_moves in Ha.
  - intros ?%IH. by eapply moved_trans.
  - intros ?%IH. by eapply moved_trans.
  - by intros [= <- _].
Qed.

Lemma find_fork_moves n back peer my y y' r : find_fork w n back peer my y = (y', r) → moved y y'.
Proof.
  revert back y. induction n as [|n IH]; intros back y; simpl; [by intros [= <- _]; apply moved_refl|].
  destruct (_ && _ && _); [|by intros [= <- _]; apply moved_refl].
  pose proof (moved_tick y) as Ht.
  assert (∀ z, moved y z → ∀ k, find_fork w n k peer my z = (y', r) → moved y y') as Hgo.
  { intros z Hz k ?%IH. by eapply moved_trans. }
  destruct (pn_blocks w _ _ _ _) as [[|[b0|] cand]|e]; [by eapply Hgo| |by intros [= <- _]|by eapply Hgo].
  destruct (_ && _); [|by eapply Hgo].
  destruct (TryReorg _ _ _ _ _) as [c [[]|e]] eqn:Hr.
  - intros [= <- _]. eapply moved_trans; [exact Ht|]. apply (moved_step (tick y)); [right; by eapply sync_reorg|apply save_set].
  - eapply Hgo. eapply moved_trans; [exact Ht|apply moved_tick].
  - destruct (is_panic e); [by intros [= <- _]|]. eapply Hgo. eapply moved_trans; [exact Ht|apply moved_tick].
Qed.

Lemma catch_up_peer_moves fuel peer any my y y' r : catch_up_peer w fuel peer any my y = (y', r) → moved y y'.
Proof.
  revert any my y. induction fuel as [|fuel IH]; intros any my y; cbn [catch_up_peer]; [by intros [= <- _]; apply moved_refl|cbv zeta].
  pose proof (moved_tick y) as Ht.
  destruct (pn_blocks w _ _ _ _) as [[|b blocks]|e]; [by intros [= <- _]| |by intros [= <- _]].
  destruct (apply_page w (b :: blocks) 0 my (tick y)) as [y1 [[[applied my1] stop]|e]] eqn:Hp; apply apply_page_moves in Hp;
    [|intros [= <- _]; by eapply moved_trans].
  assert (moved y y1) as Hy1 by by eapply moved_trans.
  assert (∀ z, moved y z → ∀ a m, catch_up_peer w fuel peer a m z = (y', r) → moved y y') as Hgo.
  { intros z Hz a m ?%IH. by eapply moved_trans. }
  destruct (_ && (0 <? my1)).
  - destruct (find_fork w 4 0 peer my1 y1) as [y2 [[m|]|e]] eqn:Hf; apply find_fork_moves in Hf;
      [eapply Hgo|intros [= <- _]|intros [= <- _]]; by eapply moved_trans.
  - destruct (_ || _); [by intros [= <- _]|by eapply Hgo].
Qed.

Lemma catch_up_moves fuel peers my y y' r : catch_up w fuel peers my y = (y', r) → moved y y'.
Proof.
  revert my y. induction peers as [|peer peers IH]; intros my y; simpl; [by intros [= <- _]; apply moved_refl|].
  pose proof (moved_tick y) as Ht.
  assert (∀ z, moved y z → ∀ m, catch_up w fuel peers m z = (y', r) → moved y y') as Hgo.
  { intros z Hz m ?%IH. by eapply moved_trans. }
  destruct (pn_status w _ _) as [st|e]; [|by eapply Hgo]. destruct (_ <=? my); [by eapply Hgo|].
  destruct (catch_up_peer w fuel peer false my (tick y)) as [y1 o] eqn:Hp. apply catch_up_peer_moves in Hp.
  assert (moved y y1) as Hy1 by by eapply moved_trans.
  destruct o as [[] m|e|]; [by intros [= <- _]|by eapply Hgo|by intros [= <- _]..].
Qed.

End facts.

(* ------------------------------------------------------------------ *)
(** * Progress

    Progress of catching up: which answers of a peer bring the chain to the
    peer's tip, and which keep or stop the loop. *)

(** Equal results whose integer components agree. *)
Ltac args_lia := repeat first [reflexivity | lia | f_equal].

Section live.
Context `{E : Ed25519} (w : PeerNet).

(** [bs] extends [c] to [c'], whatever the clock shows while it is applied. *)
Inductive extends : Chain → list Block → Chain → Prop :=
  | extends_nil c : extends c [] c
  | extends_cons c b bs c1 c2 :
      (∀ t, ∃ b', FinalizeBlock (w.(pn_now) t) c b = (c1, b', inl tt)) → extends c1 bs c2 → extends c (b :: bs) c2.

(** Heights stay below what [int] and [uint64] hold. *)
Definition room (c : Chain) (bs : list Block) : Prop :=
  0 ≤ chain_height c ∧ chain_height c + Z.of_nat (length bs) + 1 < 9223372036854775808.

Lemma extends_app c l1 l2 c' : extends c (l1 ++ l2) c' → ∃ c1, extends c l1 c1 ∧ extends c1 l2 c'.
Proof.
  revert c. induction l1 as [|b l1 IH]; intros c He; simpl in *; [exists c; split; [constructor|done]|].
  inversion He as [|? ? ? c1 ? Hf He1]; subst. destruct (IH _ He1) as (c2 & ? & ?). exists c2. split; [by econstructor|done].
Qed.

Lemma finalize_height now c b c' b' :
  room c [b] → FinalizeBlock now c b = (c', b', inl tt) →
  chain_height c' = chain_height c + 1 ∧ match tip c with Some t => b.(Header).(Height) <=? t.(Header).(Height) | None => false end = false.
Proof.
  intros [H0 H1] Hf. destruct (FinalizeBlock_tip _ _ _ _ _ Hf) as (Ht & Hh & _ & parent & Hp & Hb).
  unfold chain_height in *. rewrite Ht, Hp, Hh in *. cbn [length] in *. rewrite u64_small in Hb by (split; unfold MaxUint64; lia).
  split; [lia|]. apply Z.leb_gt. lia.
Qed.

Lemma room_cons now c b bs c' b' :
  room c (b :: bs) → FinalizeBlock now c b = (c', b', inl tt) → room c' bs.
Proof.
  intros [H0 H1] Hf. cbn [length] in *. destruct (finalize_height now c b c' b') as [Hh _]; [split; simpl; lia|done|]. split; lia.
Qed.

Lemma extends_height c bs c' : room c bs → extends c bs c' → chain_height c' = chain_height c + Z.of_nat (length bs).
Proof.
  intros Hr He. induction He as [c|c b bs c1 c2 Hf _ IH]; [simpl; lia|]. destruct (Hf 0%nat) as [b' Hf0].
  rewrite (IH (room_cons _ _ _ _ _ _ Hr Hf0)). cbn [length].
  destruct (finalize_height (pn_now w 0%nat) c b c1 b') as [-> _]; [|done|lia].
  destruct Hr. split; cbn [length] in *; lia.
Qed.

Lemma apply_one_extends b y c1 :
  room (sy_Chain y) [b] → (∀ t, ∃ b', FinalizeBlock (w.(pn_now) t) (sy_Chain y) b = (c1, b', inl tt)) →
  ∃ y1, apply_one w (Some b) y = (y1, inl true) ∧ sy_Chain y1 = c1.
Proof.
  intros Hr Hf. destruct (Hf (sy_tick y)) as [b' Hb]. unfold apply_one, applyPeerBlock, sy_Chain in *.
  destruct (finalize_height _ _ _ _ _ Hr Hb) as [_ ->]. rewrite Hb. eexists. split; [done|]. apply s_Chain_set.
Qed.

Lemma apply_page_extends bs a my y c' :
  room (sy_Chain y) bs → extends (sy_Chain y) bs c' → my = chain_height (sy_Chain y) →
  ∃ y', apply_page w (map Some bs) a my y = (y', inl (a + Z.of_nat (length bs), my + Z.of_nat (length bs), false)) ∧ sy_Chain y' = c'.
Proof.
  revert a my y. induction bs as [|b bs IH]; intros a my y Hr He ->.
  { inversion He; subst. exists y. simpl. by rewrite !Z.add_0_r. }
  inversion He as [|? ? ? c1 ? Hf He1]; subst. destruct (Hf 0%nat) as [b' Hf0].
  assert (room (sy_Chain y) [b]) as Hr1 by (destruct Hr; split; cbn [length] in *; lia).
  destruct (apply_one_extends b y c1 Hr1 Hf) as (y1 & Ha & Hc1). destruct (finalize_height _ _ _ _ _ Hr1 Hf0) as [Hh _].
  cbn [map apply_page]. rewrite Ha. subst c1.
  destruct (IH (a + 1) (chain_height (sy_Chain y1)) y1) as (y' & -> & Hc'); [by eapply room_cons|done|done|].
  exists y'. split; [|done]. rewrite Hh. cbn [length]. args_lia.
Qed.

(** A peer that serves [bs] above height [h], page by page. *)
Definition serves (peer : string) (h : Z) (bs : list Block) : Prop :=
  ∀ t k, (k ≤ length bs)%nat →
    w.(pn_blocks) t peer (h + 1 + Z.of_nat k) catchUpBatchSize = inl (map Some (take 250 (drop k bs))).

Lemma serves_drop peer h bs k : (k ≤ length bs)%nat → serves peer h bs → serves peer (h + Z.of_nat k) (drop k bs).
Proof.
  intros Hk Hs t j Hj. rewrite length_drop in Hj. rewrite drop_drop. specialize (Hs t (k + j)%nat ltac:(lia)).
  rewrite <- Hs. f_equal. lia.
Qed.

Lemma catch_up_peer_extends fuel peer any my y bs c' :
  room (sy_Chain y) bs → extends (sy_Chain y) bs c' → my = chain_height (sy_Chain y) → serves peer my bs →
  (length bs < 250 * fuel)%nat →
  ∃ y', catch_up_peer w fuel peer any my y = (y', Done (any || (0 <? Z.of_nat (length bs))) (my + Z.of_nat (length bs))) ∧ sy_Chain y' = c'.
Proof.
  revert any my y bs. induction fuel as [|fuel IH]; intros any my y bs Hr He Hmy Hs Hlen; [lia|].
  cbn [catch_up_peer]. cbv zeta.
  assert (i64 (u64 (my + 1)) = my + 1) as ->.
  { destruct Hr. rewrite u64_small by (split; unfold MaxUint64; lia). apply i64_small. lia. }
  pose proof (Hs (sy_tick y) 0%nat ltac:(lia)) as Hp. rewrite Z.add_0_r, drop_0 in Hp. rewrite Hp. clear Hp.
  destruct (decide (bs = [])) as [->|Hne].
  { inversion He; subst. simpl. exists (tick y). rewrite orb_false_r. split; [args_lia|done]. }
  assert (0 < length bs)%nat by (destruct bs; simpl; [done|lia]).
  pose proof (length_take bs 250) as Htk. rewrite <- (take_drop 250 bs) in He.
  apply extends_app in He as (c1 & He1 & He2). set (page := take 250 bs) in *.
  assert (room (sy_Chain (tick y)) page) as Hr1 by (destruct Hr; split; [done|]; change (sy_Chain (tick y)) with (sy_Chain y); lia).
  destruct (apply_page_extends page 0 my (tick y) c1 Hr1 He1 Hmy) as (y1 & Hpage & Hc1).
  destruct (map Some page) as [|o l] eqn:Hm; [apply (f_equal length) in Hm; rewrite length_map in Hm; simpl in Hm; lia|].
  rewrite Hpage. rewrite <- Hm, length_map. simpl.
  rewrite Z.add_0_l, (proj2 (Z.ltb_lt 0 (Z.of_nat (length page)))), orb_true_r by lia.
  rewrite (proj2 (Z.ltb_lt 0 (Z.of_nat (length bs)))), orb_true_r by lia.
  unfold catchUpBatchSize. destruct (Z.ltb_spec (Z.of_nat (length page)) 250) as [Hlt|Hge].
  - assert (drop 250 bs = []) as Hd by (apply drop_ge; lia). rewrite Hd in He2. inversion He2; subst.
    exists y1. split; [|done]. args_lia.
  - destruct (IH true (my + Z.of_nat (length page)) y1 (drop 250 bs)) as (y' & -> & Hc'); rewrite ?length_drop.
    + rewrite Hc1. pose proof (extends_height _ _ _ Hr1 He1) as Hh. change (sy_Chain (tick y)) with (sy_Chain y) in Hh.
      destruct Hr. split; rewrite ?length_drop; lia.
    + by rewrite Hc1.
    + rewrite Hc1, (extends_height _ _ _ Hr1 He1). by rewrite Hmy.
    + replace (length page) with 250%nat by lia. apply serves_drop; [lia|done].
    + lia.
    + exists y'. split; [|done]. simpl. args_lia.
Qed.

(** A peer that has nothing to offer to a chain at height [h]. *)
Definition dull (h : Z) (peer : string) : Prop :=
  ∀ t, match w.(pn_status) t peer with inl st => st.(ps_Height) ≤ h | inr _ => True end.

Lemma catch_up_dull fuel pre peers my y :
  Forall (dull my) pre → ∃ n, catch_up w fuel (pre ++ peers) my y = catch_up w fuel peers my (Nat.iter n tick y).
Proof.
  intros HF. induction HF as [|p pre Hp _ IH] in y |- *; [by exists 0%nat|]. simpl.
  destruct (IH (tick y)) as [n Hn]. specialize (Hp (sy_tick y)).
  assert (catch_up w fuel (pre ++ peers) my (tick y) = catch_up w fuel peers my (Nat.iter (S n) tick y)) as Hgo.
  { rewrite Hn. f_equal. clear. induction n; simpl; [done|]. by f_equal. }
  exists (S n). destruct (pn_status w (sy_tick y) p) as [st|]; [|exact Hgo].
  rewrite (proj2 (Z.leb_le _ _)) by done. exact Hgo.
Qed.

Lemma iter_tick n y : sy_Chain (Nat.iter n tick y) = sy_Chain y ∧ sy_srv (Nat.iter n tick y) = sy_srv y.
Proof. induction n as [|n [IH1 IH2]]; simpl; [done|]. by split. Qed.

(* ------------------------------------------------------------------ *)
(** * A peer that repeats a known block, and one that answers null *)

Lemma apply_known b y :
  BlockAt (sy_Chain y) b.(Header).(Height) = Some b → b.(Header).(Height) ≤ chain_height (sy_Chain y) → tip (sy_Chain y) ≠ None →
  apply_one w (Some b) y = (mkSync y.(sy_srv) (S y.(sy_tick)) (y.(sy_out) ++ []), inl false).
Proof.
  unfold apply_one, applyPeerBlock, sy_Chain, chain_height. intros Hb Hh Ht.
  destruct (tip (s_Chain _)) as [t|]; [|done]. rewrite (proj2 (Z.leb_le _ _)), Hb, bool_decide_eq_true_2 by done. done.
Qed.

Lemma apply_page_known b n a my y :
  BlockAt (sy_Chain y) b.(Header).(Height) = Some b → b.(Header).(Height) ≤ chain_height (sy_Chain y) → tip (sy_Chain y) ≠ None →
  ∃ y', apply_page w (replicate n (Some b)) a my y = (y', inl (a, my, false)) ∧ sy_srv y' = sy_srv y ∧ sy_out y' = sy_out y.
Proof.
  intros Hb Hh Ht. induction n as [|n IH] in y, Hb, Hh, Ht |- *; [by exists y|].
  cbn [replicate apply_page]. rewrite apply_known by done. rewrite app_nil_r.
  destruct (IH (mkSync y.(sy_srv) (S y.(sy_tick)) y.(sy_out))) as (y' & -> & ? & ?); [done..|]. by exists y'.
Qed.

Lemma catch_up_peer_known fuel peer b any my y :
  BlockAt (sy_Chain y) b.(Header).(Height) = Some b → b.(Header).(Height) ≤ chain_height (sy_Chain y) → tip (sy_Chain y) ≠ None →
  (∀ t from, w.(pn_blocks) t peer from catchUpBatchSize = inl (replicate 250 (Some b))) →
  ∃ y', catch_up_peer w fuel peer any my y = (y', OutOfFuel) ∧ sy_srv y' = sy_srv y ∧ sy_out y' = sy_out y.
Proof.
  intros Hb Hh Ht Hp. induction fuel as [|fuel IH] in any, y, Hb, Hh, Ht |- *; [by exists y|].
  cbn [catch_up_peer]. cbv zeta. rewrite Hp.
  destruct (apply_page_known b 250 0 my (tick y) Hb Hh Ht) as (y1 & Hpg & Hs1 & Ho1).
  change (replicate 250 (Some b)) with (Some b :: replicate 249 (Some b)) in *. cbv iota. rewrite Hpg.
  cbn [andb orb]. change (Z.of_nat (length (Some b :: replicate 249 (Some b))) <? catchUpBatchSize) with false. cbv iota.
  assert (sy_Chain y1 = sy_Chain y) as Hc1 by (unfold sy_Chain; by rewrite Hs1).
  destruct (IH (any || (0 <? 0)) y1) as (y' & -> & Hs' & Ho'); [by rewrite Hc1..|].
  exists y'. by rewrite Hs', Ho', Hs1, Ho1.
Qed.

Lemma catch_up_peer_null fuel peer any my y :
  0 < my → EarliestHeight (sy_Chain y) ≤ my →
  (∀ t from, w.(pn_blocks) t peer from catchUpBatchSize = inl [None]) →
  (catch_up_peer w (S fuel) peer any my y).2 = Crashed ErrNil.
Proof.
  intros Hmy He Hp. cbn [catch_up_peer]. cbv zeta. rewrite Hp. cbn [apply_page apply_one applyPeerBlock is_panic].
  unfold apply_one, applyPeerBlock. cbn [is_panic]. rewrite Z.eqb_refl, (proj2 (Z.ltb_lt 0 my) Hmy). cbn [andb].
  cbn [find_fork]. rewrite Z.sub_0_r, (proj2 (Z.leb_le 0 my)) by lia. unfold sy_Chain in *. cbn.
  rewrite (proj2 (Z.leb_le _ _) He), (proj2 (Z.eqb_neq my 0)) by lia. cbn. by rewrite Hp.
Qed.

End live.
