(* ===== verification/RpcRound.v ===== *)
(** Consensus rounds over HTTP (internal/rpc/server.go, mailbox_relay.go; the
    relay listener of cmd/synthosd/mailbox_relay.go): a producer proposes,
    asks its peers for votes, directly or through the registry's mailbox,
    counts those whose signatures it can check, and finalizes when they are a
    quorum.

    The answers of peers, what each poll of the mailbox returns until the
    deadline, and the order in which concurrent answers arrive are arguments;
    so is the decoder of mailbox payloads. *)
From stdpp Require Import base strings list gmap.
From S2P Require Import Prelude GoStd Types TxModel Block Messages Chain ChainBuild Network.
From S2P Require Import Engine Agent Node Rpc.

#[local] Open Scope string_scope.
#[local] Open Scope Z_scope.

Record mailboxEnvelope : Type := mkMail {
  mb_ID : string;
  mb_Type : string;
  mb_From : string;
  mb_Payload : string;
  mb_CreatedAt : Z
}.

(** What a round meets. [rd_order] is the order in which the verified votes
    come out of the channel. *)
Record Round : Type := mkRound {
  rd_build : Time;
  rd_self : Time;
  rd_answer : string → res BlockVote;
  rd_polls : list (res (list mailboxEnvelope));
  rd_decode : string → res BlockVote;
  rd_order : list BlockVote → list BlockVote;
  rd_count : nat → Time;
  rd_final : Time;
  rd_hook : Chain → option error
}.

(** The token [requestConsensusVote] sends to a peer. *)
Definition outbound_token (s : Server) (peer : string) : option string :=
  let own := if empty_str s.(ConsensusToken) then None else Some s.(ConsensusToken) in
  match s.(ConsensusPeerTokens) !! peer with
  | Some tok => if empty_str tok then own else Some tok
  | None => own
  end.

Section with_ed25519.
Context `{E : Ed25519}.

(** [verifyPeerVote] *)
Definition verifyPeerVote (v : BlockVote) (b : Block) (n : Node) : bool :=
  if negb (v.(v_Vote) =? 1) || negb (bool_decide (v.(v_BlockHash) = b.(Hash))) || negb (v.(v_Height) =? b.(Header).(Height))
     || empty_str v.(v_Signature) then false
  else
    match PeerPublicKey n v.(v_VoterID) with
    | None => false
    | Some pub =>
        if negb (slen pub =? 32) then false
        else
          match hexDecode (TrimPrefix v.(v_Signature) "0x") with
          | None => false
          | Some sg => (slen sg =? 64) && ed_Verify pub (QuorumApprovalMessage b) sg
          end
    end.

(** One poll of the mailbox: the validators that have answered and the votes
    taken so far. *)
Fixpoint take_mail (decode : string → res BlockVote) (want : list string) (b : Block) (n : Node)
    (mail : list mailboxEnvelope) (answered : list string) (out : list BlockVote) : list string * list BlockVote :=
  match mail with
  | [] => (answered, out)
  | m :: mail =>
      if negb (bool_decide (m.(mb_Type) = "consensus_vote")) || negb (bool_decide (m.(mb_From) ∈ want)) || bool_decide (m.(mb_From) ∈ answered)
      then take_mail decode want b n mail answered out
      else
        match decode m.(mb_Payload) with
        | inr _ => take_mail decode want b n mail answered out
        | inl v =>
            if negb (verifyPeerVote v b n) then take_mail decode want b n mail answered out
            else take_mail decode want b n mail (m.(mb_From) :: answered) (out ++ [v])%list
        end
  end.

(** The polls until everybody has answered or the deadline has passed. *)
Fixpoint poll_mail (decode : string → res BlockVote) (want : list string) (b : Block) (n : Node)
    (polls : list (res (list mailboxEnvelope))) (answered : list string) (out : list BlockVote) : list BlockVote :=
  match polls with
  | [] => out
  | poll :: polls =>
      let '(answered, out) := take_mail decode want b n (match poll with inl mail => mail | inr _ => [] end) answered out in
      if (length want <=? length answered)%nat then out else poll_mail decode want b n polls answered out
  end.

(** [collectMailboxVotes] *)
Definition collectMailboxVotes (w : Round) (b : Block) (s : Server) (n : Node) : list BlockVote :=
  match s.(MailboxRelayPeers) with
  | [] => []
  | relay => if empty_str s.(RegistryURL) then [] else poll_mail w.(rd_decode) relay b n w.(rd_polls) [] []
  end.

(** The votes that reach the tally. *)
Definition peer_votes (w : Round) (b : Block) (s : Server) (n : Node) : list BlockVote :=
  omap (λ peer, match w.(rd_answer) peer with inl v => if verifyPeerVote v b n then Some v else None | inr _ => None end)
    s.(ConsensusPeerURLs).

(** Feeding votes to the engine: whether one of them met the threshold. *)
Fixpoint tally_votes (now : nat → Time) (i : nat) (vs : list BlockVote) (n : Node) (finalized : bool) : Node * bool :=
  match vs with
  | [] => (n, finalized)
  | v :: vs =>
      match HandleVote (now i) v n with
      | (n, (_, Some _)) => tally_votes now (S i) vs n finalized
      | (n, (f, None)) => tally_votes now (S i) vs n (finalized || f)
      end
  end.

(** [collectConsensusVotes] *)
Definition collectConsensusVotes (w : Round) (b : Block) (s : Server) (n : Node) : Node * bool :=
  tally_votes w.(rd_count) 0 (w.(rd_order) (peer_votes w b s n ++ collectMailboxVotes w b s n)%list) n false.

(** [ProposeBlockWithConsensus]: the hash, whether the block is final, and
    the error. *)
Definition ProposeBlockWithConsensus (w : Round) (s : Server) : Server * list Effect * (string * bool * option error) :=
  match s_Node s with
  | None => (s, [], ("", false, Some (Err "node not available")))
  | Some n =>
      match BuildAndSignProposal w.(rd_build) n with
      | (n, inr e) => (set_s_Node n s, [], ("", false, Some e))
      | (n, inl b) =>
          match SelfVote w.(rd_self) b n with
          | (n, inr e) => (set_s_Node n s, [], (b.(Hash), false, Some e))
          | (n, inl _) =>
              match collectConsensusVotes w b s n with
              | (n, false) => (set_s_Node n s, [], (b.(Hash), false, None))
              | (n, true) =>
                  match TryFinalize w.(rd_final) w.(rd_hook) b.(Hash) n with
                  | (n, inr e) => (set_s_Node n s, [], (b.(Hash), false, Some e))
                  | (n, inl _) =>
                      let s := set_s_Node n s in
                      if match tip n.(n_Chain) with Some t => bool_decide (t.(Hash) = b.(Hash)) | None => false end
                      then (s, (save s ++ pushBlockToPeers (tip n.(n_Chain)) s)%list, (b.(Hash), true, None))
                      else (s, [], (b.(Hash), false, None))
                  end
              end
          end
      end
  end.

(** [handleConsensusPropose]; [given] is the token header. *)
Definition handleConsensusPropose (now : Time) (post : bool) (given : string) (body : res BlockProposal) (s : Server)
  : Server * Reply BlockVote :=
  if negb post then (s, inr (StatusMethodNotAllowed, Err "method not allowed"))
  else if empty_str s.(ConsensusToken) then (s, inr (StatusServiceUnavailable, Err "consensus is disabled for this deployment"))
  else if empty_str given || negb (bool_decide (given = s.(ConsensusToken)))
  then (s, inr (StatusUnauthorized, Err "unauthorized: missing or incorrect X-Consensus-Token"))
  else
    match s_Node s with
    | None => (s, inr (StatusServiceUnavailable, Err "node not available"))
    | Some n =>
        match body with
        | inr e => (s, inr (StatusBadRequest, e))
        | inl p =>
            match HandleProposal now (Some p.(bp_Block)) n with
            | (n, inr e) => (set_s_Node n s, inr (StatusBadRequest, e))
            | (n, inl vote) => (set_s_Node n s, inl vote)
            end
        end
    end.

(** The other side of the mailbox: the listener of a validator without a
    public address. The votes it posts back, with their addressees. *)
Fixpoint relay_mail (now : nat → Time) (decode : string → res BlockProposal) (i : nat) (mail : list mailboxEnvelope) (n : Node)
  : Node * list (string * BlockVote) :=
  match mail with
  | [] => (n, [])
  | m :: mail =>
      if negb (bool_decide (m.(mb_Type) = "consensus_proposal")) then relay_mail now decode (S i) mail n
      else
        match decode m.(mb_Payload) with
        | inr _ => relay_mail now decode (S i) mail n
        | inl p =>
            match HandleProposal (now i) (Some p.(bp_Block)) n with
            | (n, inr _) => relay_mail now decode (S i) mail n
            | (n, inl vote) =>
                let '(n, out) := relay_mail now decode (S i) mail n in
                (n, if empty_str m.(mb_From) then out else (m.(mb_From), vote) :: out)
            end
        end
  end.

End with_ed25519.
