(* ===== verification/RpcRoundFacts.v ===== *)
(** Why a round with enough honest answers finalizes: whatever else arrives,
    verified approvals of one candidate only ever add to its ballots, nobody
    is charged for them, and the last honest one meets the threshold. *)
From stdpp Require Import base strings list gmap relations.
From S2P Require Import Prelude GoStd Types Ledger TxModel Staking Merkle Block Messages.
From S2P Require Import Slashing Engine EngineFacts Chain ChainFacts ChainBuild Network Agent.
From S2P Require Import Node Rpc.
From S2P Require Import RpcFacts RpcRound.

#[local] Open Scope string_scope.
#[local] Open Scope list_scope.
#[local] Open Scope Z_scope.

(** A vote that accepts [b], in whatever round and stage. *)
Definition accepts (b : Block) (v : BlockVote) : Prop :=
  v.(v_Vote) = 1 ∧ v.(v_BlockHash) = b.(Hash) ∧ v.(v_Height) = b.(Header).(Height).

(** A plain precommit of round 0, as [SelfVote] and [HandleProposal] cast it. *)
Definition plain (v : BlockVote) : Prop := v.(v_Round) = 0 ∧ IsPrevote v = false.

Section counting.
Context (b : Block) (good : string → string → Prop) (e0 : Engine).
Let h := b.(Header).(Height).

Definition ballot_good (m : ballot) : Prop :=
  ∀ id r, m !! id = Some r → r.(r_BlockHash) = b.(Hash) ∧ r.(r_Vote) = 1 ∧ good id r.(r_Signature).

(** [e] is [e0] after counting acceptances of [b]. *)
Record counting (e : Engine) : Prop := {
  cn_roster : same_roster e0 e;
  cn_heights : e.(proposalsByHeight) = e0.(proposalsByHeight);
  cn_rounds : e.(proposalsByHeightAndRound) = e0.(proposalsByHeightAndRound);
  cn_tracker : ∀ t id x, e.(slashTracker) = Some t → default ∅ (t.(votedHashes) !! id) !! h = Some x → x = b.(Hash);
  cn_ballot : ballot_good (ballot_at e h 0 VoteStagePrecommit);
  cn_legacy : ballot_good (legacy_at e h);
  cn_voters : dom (ballot_at e h 0 VoteStagePrecommit) ⊆ e.(validators)
}.

(** How far counting has come. *)
Definition counted_in (e : Engine) (id : string) : Prop :=
  id ∈ dom (ballot_at e h 0 VoteStagePrecommit) ∧ id ∈ dom (legacy_at e h).

Definition enough (X : gset string) : Prop :=
  requiredForFinality e0 ≤ Z.of_nat (size X) ∧ requiredPowerForFinality e0 ≤ weight e0 X.

Lemma approvers_good m : ballot_good m → approvers m b.(Hash) = m.
Proof. intros Hm. apply map_filter_id. intros id r Hr. destruct (Hm id r Hr) as (? & ? & _). done. Qed.

Lemma cast_good id r m :
  ballot_good m → r.(r_BlockHash) = b.(Hash) → r.(r_Vote) = 1 → good id r.(r_Signature) → ballot_good (cast id r m).
Proof.
  intros Hm Hh Hv Hg. unfold cast. destruct (m !! id) eqn:Hl; [done|].
  intros id' r' [[<- <-]|[_ Hr]]%lookup_insert_Some; [done|by apply Hm].
Qed.

Lemma cast_dom id r m : id ∈ dom (cast id r m).
Proof. unfold cast. destruct (m !! id) eqn:Hl; [by apply elem_of_dom|]. rewrite dom_insert. set_solver. Qed.

(** The report to the tracker makes no calls. *)
Lemma report_counting now v e :
  counting e → accepts b v → ∃ e', report_vote now v e = (e', []) ∧ counting e' ∧
    ballot_at e' h 0 VoteStagePrecommit = ballot_at e h 0 VoteStagePrecommit ∧ legacy_at e' h = legacy_at e h.
Proof.
  intros Hc (Hv & Hh & Hht). unfold report_vote. destruct (slashTracker e) as [t|] eqn:Ht; [|by exists e].
  rewrite Hv, Hh, Hht. simpl. fold h. unfold RecordEquivocation.
  destruct (default ∅ (t.(votedHashes) !! v.(v_VoterID)) !! h) as [x|] eqn:Hx.
  - rewrite bool_decide_eq_true_2 by by apply (cn_tracker e Hc t v.(v_VoterID)).
    eexists. split; [done|]. split; [|done]. destruct Hc as [? ? ? Htr ? ? ?]. split; try done.
    intros t' id y [= <-]. by apply Htr.
  - eexists. split; [done|]. split; [|done]. destruct Hc as [? ? ? Htr ? ? ?]. split; try done.
    intros t' id y [= <-]. simpl. destruct (decide (v.(v_VoterID) = id)) as [<-|Hne].
    + rewrite lookup_insert_eq. simpl. rewrite lookup_insert_eq. congruence.
    + rewrite lookup_insert_ne by done. by apply Htr.
Qed.

Lemma legacy_record v stage e h' :
  legacy_at (record_vote v stage e) h' =
  if IsPrecommit v && bool_decide (v.(v_Height) = h') then cast v.(v_VoterID) (vote_record v) (legacy_at e h') else legacy_at e h'.
Proof.
  unfold record_vote, legacy_at at 1. simpl. destruct (IsPrecommit v); [|done]. simpl. case_bool_decide as Hd.
  - subst h'. by rewrite lookup_insert_eq.
  - by rewrite lookup_insert_ne.
Qed.

Lemma record_counting v stage e :
  counting e → accepts b v → v.(v_VoterID) ∈ e.(validators) → good v.(v_VoterID) v.(v_Signature) →
  counting (record_vote v stage e).
Proof.
  intros [Hr Hp1 Hp2 Ht Hb Hl Hv] (Hvo & Hh & Hht) Hreg Hg. split; try done.
  - rewrite ballot_record. destruct (decide _); [|done]. by apply cast_good.
  - rewrite legacy_record. destruct (_ && _); [|done]. by apply cast_good.
  - rewrite ballot_record. destruct (decide _); [|done]. change (validators (record_vote v stage e)) with (validators e).
    pose proof (dom_cast v.(v_VoterID) (vote_record v) (ballot_at e h 0 VoteStagePrecommit)). set_solver.
Qed.

Lemma lock_counting x e : counting e → counting (set_locks x e).
Proof. by intros []. Qed.

(** The second critical section. *)
Lemma tally_counting v e e' r :
  counting e → accepts b v → v.(v_VoterID) ∈ e.(validators) → good v.(v_VoterID) v.(v_Signature) →
  tally_vote v e = (e', r) →
  counting e' ∧ ballot_at e h 0 VoteStagePrecommit ⊆ ballot_at e' h 0 VoteStagePrecommit ∧ legacy_at e h ⊆ legacy_at e' h.
Proof.
  intros Hc Ha Hreg Hg. unfold tally_vote.
  destruct (canonical e _ _) as [x|]; [|by intros [= <- _]]. case_bool_decide; simpl; [|by intros [= <- _]].
  set (stage := if empty_str _ then _ else _). set (e1 := record_vote v stage e).
  assert (counting e1) as Hc1 by by apply record_counting.
  assert (ballot_at e h 0 VoteStagePrecommit ⊆ ballot_at e1 h 0 VoteStagePrecommit ∧ legacy_at e h ⊆ legacy_at e1 h) as [Hs1 Hs2].
  { subst e1. rewrite ballot_record, legacy_record. split; [destruct (decide _)|destruct (_ && _)]; try done; apply cast_mono. }
  destruct (_ && _); intros [= <- _]; [|done]. split; [by apply lock_counting|done].
Qed.

Hypothesis Hok : roster_ok e0.
Hypothesis Hcand : rounds_at e0 h !! 0 = Some b.

(** A plain vote is counted, and meets the threshold when it completes a
    sufficient set of voters. *)
Lemma tally_plain v e e' r X :
  counting e → accepts b v → v.(v_VoterID) ∈ e.(validators) → good v.(v_VoterID) v.(v_Signature) →
  v.(v_Round) = 0 → v.(v_Stage) = VoteStagePrecommit → tally_vote v e = (e', r) →
  counted_in e' v.(v_VoterID) ∧ r.(vr_err) = None ∧
  (enough X → (∀ id, id ∈ X → counted_in e' id) → r.(thresholdMet) = true).
Proof.
  intros Hc Ha Hreg Hg Hr Hst. pose proof Ha as (Hvo & Hh & Hht). unfold tally_vote, canonical, ProposalForRound.
  assert (rounds_at e (v_Height v) !! v.(v_Round) = Some b) as ->.
  { unfold rounds_at in *. by rewrite (cn_rounds e Hc), Hht, Hr. }
  rewrite bool_decide_eq_true_2 by done. cbn [negb]. rewrite Hst. cbn [empty_str]. change (empty_str VoteStagePrecommit) with false.
  cbv iota. set (e1 := record_vote v VoteStagePrecommit e).
  rewrite (bool_decide_eq_false_2 (VoteStagePrecommit = VoteStagePrevote)) by done. cbn [andb]. intros [= <- <-]. cbn [vr_err thresholdMet].
  assert (counting e1) as Hc1 by by apply record_counting. pose proof Hc1 as [Hs _ _ _ Hb Hl Hv].
  split; [|split; [done|]].
  - unfold counted_in. subst e1. rewrite ballot_record, legacy_record, decide_True by done.
    unfold IsPrecommit. rewrite Hst, (bool_decide_eq_true_2 (v_Height v = h)) by done. simpl. split; apply cast_dom.
  - intros [Hn Hw] HX. rewrite Hht, Hr, Hh. fold h. unfold count_votes, votes_for. rewrite Hht, Hr, Hh. fold h.
    rewrite !approvers_good by done. rewrite bool_decide_eq_true_2 by done.
    rewrite votes_power_weight; rewrite ?approvers_good by done; [|by eapply roster_ok_same|done].
    pose proof (subseteq_size X (dom (ballot_at e1 h 0 VoteStagePrecommit)) ltac:(intros id Hid; by apply HX)) as Hsz.
    pose proof (weight_mono e0 X (dom (ballot_at e1 h 0 VoteStagePrecommit)) Hok ltac:(intros id Hid; by apply HX)) as Hwt.
    rewrite size_dom in Hsz. rewrite (weight_same e0) by done.
    assert (requiredForFinality e1 = requiredForFinality e0) as -> by (unfold requiredForFinality; by destruct Hs as (-> & _)).
    assert (requiredPowerForFinality e1 = requiredPowerForFinality e0) as -> by (unfold requiredPowerForFinality; by destruct Hs as (_ & _ & _ & ->)).
    rewrite (proj2 (Z.leb_le (requiredPowerForFinality e0) _)), orb_true_r, andb_true_r by lia. apply Z.leb_le.
    case_match eqn:Hlt; [apply Z.ltb_lt in Hlt|]; lia.
Qed.

(** A whole vote. *)
Lemma OnVote_counting now v e X :
  counting e → accepts b v → (v.(v_VoterID) ∈ e0.(validators) → good v.(v_VoterID) v.(v_Signature)) →
  ∃ e' r, OnVote now v e = (e', [], r) ∧ counting e' ∧ (∀ id, counted_in e id → counted_in e' id) ∧
    (plain v → v.(v_VoterID) ∈ e0.(validators) →
     counted_in e' v.(v_VoterID) ∧ r.(vr_err) = None ∧ (enough X → (∀ id, id ∈ X → counted_in e' id) → r.(thresholdMet) = true)).
Proof.
  intros Hc Ha Hg. assert (OnVote now v e = processVoteInternal now (counted v) e) as ->.
  { unfold OnVote, counted. by destruct (IsPrevote v). }
  assert (accepts b (counted v)) as Ha' by done. pose proof (cn_roster e Hc) as (_ & Hvs & _).
  unfold processVoteInternal. change (v_VoterID (counted v)) with (v_VoterID v).
  destruct (isRegisteredValidator e (v_VoterID v)) eqn:Hreg; cbn [negb]; [|exists e; eexists; split_and!; [done..|]].
  2:{ intros _ Hin. unfold isRegisteredValidator in Hreg. rewrite Hvs, (bool_decide_eq_true_2 (_ ∈ _)), orb_true_r in Hreg by done. done. }
  apply registered_in in Hreg; [|rewrite Hvs; by apply ro_some].
  destruct (report_counting now (counted v) e Hc Ha') as (e1 & -> & Hc1 & Hb1 & Hl1).
  destruct (tally_vote (counted v) e1) as [e2 r] eqn:Ht. exists e2, r. split; [done|].
  pose proof (cn_roster e1 Hc1) as (_ & Hvs1 & _).
  assert (v_VoterID (counted v) ∈ validators e1) as Hreg1 by (cbn; by rewrite Hvs1, <- Hvs).
  assert (good (v_VoterID (counted v)) (v_Signature (counted v))) as Hg1 by (apply Hg; by rewrite <- Hvs).
  destruct (tally_counting _ _ _ _ Hc1 Ha' Hreg1 Hg1 Ht) as (Hc2 & Hs1 & Hs2). split_and!; [done| |].
  - intros id [H1 H2]. rewrite <- Hb1 in H1. rewrite <- Hl1 in H2. split; [by eapply subseteq_dom|by eapply subseteq_dom].
  - intros [Hr Hp] _. eapply (tally_plain _ _ _ _ X Hc1 Ha' Hreg1 Hg1); [done| |done]. cbn. by rewrite Hp.
Qed.

(* ------------------------------------------------------------------ *)
(** * On a node *)

Definition on_engine (n0 : Node) (e : Engine) : Node := set_n_Engine e n0.

Context `{E : Ed25519} (n0 : Node).

Lemma HandleVote_counting now v e X :
  counting e → accepts b v → (v.(v_VoterID) ∈ e0.(validators) → good v.(v_VoterID) v.(v_Signature)) →
  ∃ e' met err, HandleVote now v (on_engine n0 e) = (on_engine n0 e', (met, err)) ∧ counting e' ∧
    (∀ id, counted_in e id → counted_in e' id) ∧
    (plain v → v.(v_VoterID) ∈ e0.(validators) →
     counted_in e' v.(v_VoterID) ∧ err = None ∧ (enough X → (∀ id, id ∈ X → counted_in e' id) → met = true)).
Proof.
  intros Hc Ha Hg. destruct (OnVote_counting now v e X Hc Ha Hg) as (e' & r & Hrun & Hc' & Hk & Hp).
  exists e', r.(thresholdMet), r.(vr_err). unfold HandleVote. change (n_Engine (on_engine n0 e)) with e. by rewrite Hrun.
Qed.

Lemma tally_votes_true now i vs n : (tally_votes now i vs n true).2 = true.
Proof.
  revert i n. induction vs as [|v vs IH]; intros i n; [done|]. cbn [tally_votes].
  destruct (HandleVote _ _ _) as [n' [f [err|]]]; apply IH.
Qed.

Definition votes_ok (vs : list BlockVote) : Prop :=
  Forall (λ v, accepts b v ∧ (v.(v_VoterID) ∈ e0.(validators) → good v.(v_VoterID) v.(v_Signature))) vs.

(** Whatever the order of the votes, counting them keeps the invariant, and
    if every member of a sufficient set has been counted or votes plainly,
    and somebody still does, the threshold is met. *)
Lemma tally_votes_counting now i vs e fin :
  counting e → votes_ok vs →
  ∃ e' fin', tally_votes now i vs (on_engine n0 e) fin = (on_engine n0 e', fin') ∧ counting e' ∧
    (∀ id, counted_in e id → counted_in e' id) ∧
    ∀ X, X ⊆ e0.(validators) → (∀ id, id ∈ X → counted_in e id ∨ ∃ v, v ∈ vs ∧ plain v ∧ v.(v_VoterID) = id) →
      (∀ id, id ∈ X → counted_in e' id) ∧
      (enough X → (∃ v, v ∈ vs ∧ plain v ∧ v.(v_VoterID) ∈ X) → fin' = true).
Proof.
  intros Hc Hvs. induction Hvs as [|v vs [Ha Hg] Hvs IH] in i, e, fin, Hc |- *.
  { exists e, fin. split_and!; try done. intros X _ HX. split; [|by intros _ (v & ?%elem_of_nil & _)].
    intros id [?|(v & ?%elem_of_nil & _)]%HX; done. }
  cbn [tally_votes].
  destruct (HandleVote_counting (now i) v e ∅ Hc Ha Hg) as (e1 & met & err & Hrun & Hc1 & Hk1 & _). rewrite Hrun.
  set (fin1 := match err with Some _ => fin | None => fin || met end).
  destruct (IH (S i) e1 fin1 Hc1) as (e2 & fin2 & Htl & Hc2 & Hk2 & HX2).
  exists e2, fin2. split; [by destruct err|]. split; [done|]. split; [by auto|]. intros X Hsub HX.
  assert (∀ id, id ∈ X → counted_in e1 id ∨ ∃ v, v ∈ vs ∧ plain v ∧ v.(v_VoterID) = id) as HX1.
  { intros id Hid. destruct (HX id Hid) as [?|(u & [->|Hu]%elem_of_cons & Hpl & Heq)]; [by auto| |by eauto].
    left. subst id. destruct (HandleVote_counting (now i) v e ∅ Hc Ha Hg) as (e1' & met' & err' & Hrun' & _ & _ & Hp').
    rewrite Hrun in Hrun'. injection Hrun' as -> -> ->. apply Hp'; [done|by apply Hsub]. }
  destruct (HX2 X Hsub HX1) as [Hall Hfin]. split; [done|]. intros Hen (u & Hu & Hpl & Hin).
  destruct (decide (Exists (λ v, plain v ∧ v.(v_VoterID) ∈ X) vs)) as [(u' & ? & ? & ?)%Exists_exists|Hno]; [apply Hfin; eauto|].
  assert (u = v) as ->.
  { apply elem_of_cons in Hu as [|Hu]; [done|]. destruct Hno. apply Exists_exists. eauto. }
  assert (∀ id, id ∈ X → counted_in e1 id) as Hdone.
  { intros id Hid. destruct (HX1 id Hid) as [|(u' & Hu' & Hp' & Heq)]; [done|]. destruct Hno. apply Exists_exists. exists u'. by subst id. }
  destruct (HandleVote_counting (now i) v e X Hc Ha Hg) as (e1' & met' & err' & Hrun' & _ & _ & Hp').
  rewrite Hrun in Hrun'. injection Hrun' as -> -> ->. destruct (Hp' Hpl (Hsub _ Hin)) as (_ & -> & Hmet).
  subst fin1. rewrite (Hmet Hen Hdone), orb_true_r in Htl.
  rewrite <- (tally_votes_true now (S i) vs (on_engine n0 e1')). by rewrite Htl.
Qed.
End counting.

(* ------------------------------------------------------------------ *)
(** * What a round leaves of the chain *)

Section kept.
Context `{E : Ed25519}.

(** Local penalties only edit balances. *)
Definition ledger_only (c c' : Chain) : Prop := set_State c.(c_State) c' = c.

Lemma ledger_only_refl c : ledger_only c c.
Proof. by destruct c. Qed.

Lemma ledger_only_trans c1 c2 c3 : ledger_only c1 c2 → ledger_only c2 c3 → ledger_only c1 c3.
Proof. unfold ledger_only. intros H1 H2. etrans; [|exact H1]. rewrite <- H2. by destruct c3. Qed.

Lemma execute_slash_chain n call : ledger_only n.(n_Chain) (execute_slash n call).(n_Chain).
Proof.
  unfold execute_slash. destruct (StakeConsensusActiveAt _ _); [apply ledger_only_refl|].
  destruct (addressForAgentID n call.1); [|apply ledger_only_refl]. unfold ledger_only. by destruct (n_Chain n).
Qed.

Lemma run_slashes_chain calls n : ledger_only n.(n_Chain) (run_slashes calls n).(n_Chain).
Proof.
  unfold run_slashes. induction calls as [|c calls IH] in n |- *; [apply ledger_only_refl|].
  simpl. eapply ledger_only_trans; [apply execute_slash_chain|apply IH].
Qed.

Lemma HandleVote_chain now v n : ledger_only n.(n_Chain) (HandleVote now v n).1.(n_Chain).
Proof.
  unfold HandleVote. destruct (OnVote now v n.(n_Engine)) as [[e calls] r]. cbn [fst].
  apply (run_slashes_chain calls (set_n_Engine e n)).
Qed.

Lemma tally_votes_chain now i vs n fin : ledger_only n.(n_Chain) (tally_votes now i vs n fin).1.(n_Chain).
Proof.
  induction vs as [|v vs IH] in i, n, fin |- *; [apply ledger_only_refl|]. cbn [tally_votes].
  pose proof (HandleVote_chain (now i) v n) as Hc. destruct (HandleVote (now i) v n) as [n' [f [e|]]]; cbn [fst] in Hc;
    (eapply ledger_only_trans; [exact Hc|apply IH]).
Qed.

Lemma SelfVote_chain now b n : ledger_only n.(n_Chain) (SelfVote now b n).1.(n_Chain).
Proof.
  unfold SelfVote. destruct (SignRaw _ _) as [sg|]; [|apply ledger_only_refl].
  pose proof (HandleVote_chain now (approval n b (hex0x sg)) n) as Hc.
  by destruct (HandleVote _ _ _) as [n' [f [e|]]].
Qed.

Lemma BuildAndSign_chain now n : (BuildAndSignProposal now n).1.(n_Chain) = n.(n_Chain).
Proof. unfold BuildAndSignProposal. repeat case_match; done. Qed.

Lemma Proposal_hash e hash b : Engine.Proposal e hash = Some b → b.(Hash) = hash.
Proof.
  unfold Engine.Proposal. destruct (filter _ _) as [|x l] eqn:Hf; [done|]. intros [= <-].
  assert (x ∈ x :: l) as Hx by left. rewrite <- Hf in Hx. by apply list_elem_of_filter in Hx as [? _].
Qed.

(** [TryFinalize] does nothing to the chain, or finalizes the named block. *)
Lemma TryFinalize_cases now hook hash n n' r :
  TryFinalize now hook hash n = (n', r) →
  n'.(n_Chain) = n.(n_Chain) ∨ ∃ b t, FinalizeBlock now n.(n_Chain) b = (n'.(n_Chain), t, inl tt) ∧ t.(Hash) = hash.
Proof.
  unfold TryFinalize. destruct (Engine.Proposal _ _) as [b|] eqn:Hp; [|intros [= <- _]; by left].
  destruct (FinalityStatus _ _) as [[[f x] y] ok]. destruct (_ || _); [intros [= <- _]; by left|].
  destruct (match tip _ with Some t => _ | None => _ end); [intros [= <- _]; by left|].
  destruct (FinalizeBlock _ _ _) as [[c b'] [[]|e]] eqn:Hf; [|intros [= <- _]; by left].
  unfold node_RefreshReputation. destruct (RefreshReputation _ _ _ _) as [a score]. intros [= <- _]. right.
  exists (set_QuorumSignatures (CollectedApprovals n.(n_Engine) b.(Header).(Height) hash) b), b'. split; [exact Hf|].
  destruct (FinalizeBlock_cases now n.(n_Chain) (set_QuorumSignatures (CollectedApprovals n.(n_Engine) b.(Header).(Height) hash) b))
    as [(b1 & next & [_ -> _ _ _] & Hr)|(b1 & e1 & _ & Hr)]; rewrite Hr in Hf; [|done].
  injection Hf as _ <-. cbn. by eapply Proposal_hash.
Qed.

Lemma collect_chain w b s n : ledger_only n.(n_Chain) (collectConsensusVotes w b s n).1.(n_Chain).
Proof. apply tally_votes_chain. Qed.

Lemma round_cases w s s' out hash fin err :
  ProposeBlockWithConsensus w s = (s', out, (hash, fin, err)) →
  (∃ c1, ledger_only (s_Chain s) c1 ∧
     (s_Chain s' = c1 ∨ ∃ b t, FinalizeBlock w.(rd_final) c1 b = (s_Chain s', t, inl tt) ∧ t.(Hash) = hash)) ∧
  (fin = true → err = None ∧ ∃ t, tip (s_Chain s') = Some t ∧ t.(Hash) = hash ∧ out = save s' ++ pushBlockToPeers (Some t) s') ∧
  (fin = false → out = []).
Proof.
  unfold ProposeBlockWithConsensus. destruct (s_Node s) as [n|] eqn:Hn.
  2:{ intros [= <- <- <- <- <-]. split; [exists (s_Chain s); split; [apply ledger_only_refl|by left]|done]. }
  assert (s_Chain s = n.(n_Chain)) as -> by (unfold s_Node, s_Chain in *; destruct (backend s); [done|congruence]).
  assert (∀ x : Node, s_Chain (set_s_Node x s) = x.(n_Chain)) as Hset by done.
  pose proof (BuildAndSign_chain w.(rd_build) n) as Hb. destruct (BuildAndSignProposal _ n) as [n1 [b|e]]; cbn [fst] in Hb.
  2:{ intros [= <- <- <- <- <-]. split; [|done]. exists n.(n_Chain). split; [apply ledger_only_refl|]. rewrite Hset, Hb. by left. }
  pose proof (SelfVote_chain w.(rd_self) b n1) as Hv. rewrite Hb in Hv. destruct (SelfVote _ b n1) as [n2 [v|e]]; cbn [fst] in Hv.
  2:{ intros [= <- <- <- <- <-]. split; [|done]. exists n2.(n_Chain). split; [done|]. by left. }
  pose proof (collect_chain w b s n2) as Hc. destruct (collectConsensusVotes w b s n2) as [n3 f]; cbn [fst] in Hc.
  pose proof (ledger_only_trans _ _ _ Hv Hc) as Hl. destruct f.
  2:{ intros [= <- <- <- <- <-]. split; [|done]. exists n3.(n_Chain). split; [done|]. by left. }
  destruct (TryFinalize _ _ _ n3) as [n4 r] eqn:Hf. apply TryFinalize_cases in Hf.
  assert (∃ c1, ledger_only n.(n_Chain) c1 ∧ (n4.(n_Chain) = c1 ∨
    ∃ b0 t, FinalizeBlock w.(rd_final) c1 b0 = (n4.(n_Chain), t, inl tt) ∧ t.(Hash) = b.(Hash))) as Hfin by (exists n3.(n_Chain); auto).
  destruct r as [[]|e]; [|by intros [= <- <- <- <- <-]].
  destruct (tip n4.(n_Chain)) as [t|] eqn:Ht; [|by intros [= <- <- <- <- <-]].
  case_bool_decide as Hh; intros [= <- <- <- <- <-]; (split; [done|split; [|done]]); [|done].
  intros _. split; [done|]. by exists t.
Qed.

Lemma ledger_only_policy c c1 : ledger_only c c1 → policy c1 = policy c ∧ c1.(authEnforceFromHeight) = c.(authEnforceFromHeight).
Proof. intros H. rewrite <- H. done. Qed.

End kept.

(* ------------------------------------------------------------------ *)
(** * A whole round

    A consensus round from the proposal to the finalized block: the block the
    chain builds, the approvals it collects, and the chain that accepts it. *)

Section live.
Context `{E : Ed25519}.

(* ------------------------------------------------------------------ *)
(** * The engine, before and after *)

(** The candidates an engine holds. *)
Definition stored (e : Engine) (x : Block) : Prop :=
  (∃ h, e.(proposalsByHeight) !! h = Some x) ∨ (∃ h m r, e.(proposalsByHeightAndRound) !! h = Some m ∧ m !! r = Some x).

Lemma counting_start good e b :
  b.(Hash) ≠ "" → ballot_at e b.(Header).(Height) 0 VoteStagePrecommit = ∅ →
  counting b good (RecordOwnProposal (Some b) e) (RecordOwnProposal (Some b) e) ∧
  rounds_at (RecordOwnProposal (Some b) e) b.(Header).(Height) !! 0 = Some b.
Proof.
  intros Hh Hb. pose proof (own_ballot (Some b) 0 e b.(Header).(Height) 0 VoteStagePrecommit) as Hob. rewrite Hb in Hob.
  unfold RecordOwnProposal. split; [split; try done|].
  - intros t id x. unfold RecordOwnProposalWithRound, empty_str. rewrite bool_decide_eq_false_2 by done. cbn.
    destruct (slashTracker e) as [t0|]; [|done]. intros [= <-]. cbn. rewrite lookup_fmap.
    destruct (votedHashes t0 !! id); cbn; [by rewrite lookup_delete_eq|by rewrite lookup_empty].
  - rewrite Hob. by intros id r ?%lookup_empty_Some.
  - unfold RecordOwnProposalWithRound, empty_str, legacy_at. rewrite bool_decide_eq_false_2 by done. cbn.
    rewrite lookup_insert_eq. cbn. by intros id r ?%lookup_empty_Some.
  - rewrite Hob, dom_empty_L. set_solver.
  - unfold RecordOwnProposalWithRound, empty_str, rounds_at at 1. rewrite bool_decide_eq_false_2 by done. cbn.
    rewrite lookup_insert_eq. cbn. by rewrite lookup_insert_eq.
Qed.

Lemma own_proposals e b :
  b.(Hash) ≠ "" →
  (RecordOwnProposal (Some b) e).(proposalsByHeight) = <[b.(Header).(Height) := b]> e.(proposalsByHeight) ∧
  (RecordOwnProposal (Some b) e).(proposalsByHeightAndRound) =
    <[b.(Header).(Height) := <[0 := b]> (rounds_at e b.(Header).(Height))]> e.(proposalsByHeightAndRound).
Proof. intros Hh. unfold RecordOwnProposal, RecordOwnProposalWithRound, empty_str. by rewrite bool_decide_eq_false_2. Qed.

Lemma own_stored e b x : b.(Hash) ≠ "" → stored (RecordOwnProposal (Some b) e) x → x = b ∨ stored e x.
Proof.
  intros Hh. destruct (own_proposals e b Hh) as [Hp Hr]. unfold stored at 1. rewrite Hp, Hr.
  intros [(h & [[<- <-]|[_ Hl]]%lookup_insert_Some)|(h & m & r & [[<- <-]|[_ Hl]]%lookup_insert_Some & Hr')].
  - by left.
  - right. left. by exists h.
  - apply lookup_insert_Some in Hr' as [[<- <-]|[_ Hr']]; [by left|]. right. right. unfold rounds_at in Hr'.
    destruct (proposalsByHeightAndRound e !! _) as [m'|] eqn:Hm; [|cbn in Hr'; by apply lookup_empty_Some in Hr']. by exists b.(Header).(Height), m', r.
  - right. right. by exists h, m, r.
Qed.

Lemma Proposal_unique e b :
  stored e b → (∀ x, stored e x → x.(Hash) = b.(Hash) → x = b) → Engine.Proposal e b.(Hash) = Some b.
Proof.
  intros Hs Hu. unfold Engine.Proposal. set (l := (_ ++ _)%list).
  assert (∀ x, x ∈ l ↔ stored e x) as Hl.
  { intros x. subst l. rewrite elem_of_app, list_elem_of_fmap, list_elem_of_bind. unfold stored. split.
    - intros [([h y] & -> & Hin%elem_of_map_to_list)|(m & Hx & ([h m'] & -> & Hm%elem_of_map_to_list)%list_elem_of_fmap)]; [left; by exists h|].
      apply list_elem_of_fmap in Hx as ([r y] & -> & Hy%elem_of_map_to_list). right. by exists h, m', r.
    - intros [(h & Hh)|(h & m & r & Hm & Hr)]; [left; exists (h, x); split; [done|by apply elem_of_map_to_list]|].
      right. exists m. split; apply list_elem_of_fmap; [exists (r, x)|exists (h, m)]; (split; [done|by apply elem_of_map_to_list]). }
  destruct (filter (λ x, x.(Hash) = b.(Hash)) l) as [|x l'] eqn:Hf.
  - assert (b ∈ filter (λ x, x.(Hash) = b.(Hash)) l) as Hin by (apply list_elem_of_filter; split; [done|by apply Hl]).
    rewrite Hf in Hin. by apply elem_of_nil in Hin.
  - assert (x ∈ filter (λ x, x.(Hash) = b.(Hash)) l) as [Hx Hin]%list_elem_of_filter by (rewrite Hf; left).
    simpl. f_equal. apply Hu; [by apply Hl|done].
Qed.

Lemma FinalityStatus_legacy e b :
  e.(proposalsByHeight) !! b.(Header).(Height) = Some b →
  (∀ h x, e.(proposalsByHeight) !! h = Some x → x.(Hash) = b.(Hash) → h = b.(Header).(Height)) →
  FinalityStatus e b.(Hash) =
    (requiredForFinality e <=? votes_for (legacy_at e b.(Header).(Height)) b.(Hash),
     votes_for (legacy_at e b.(Header).(Height)) b.(Hash), requiredForFinality e, true).
Proof.
  intros Hb Hu. unfold FinalityStatus. destruct (list_find _ _) as [[i [h x]]|] eqn:Hf.
  - apply list_find_Some in Hf as (Hin & Hx & _). apply list_elem_of_lookup_2, elem_of_map_to_list in Hin.
    by rewrite (Hu h x Hin Hx).
  - exfalso. apply list_find_None in Hf. rewrite Forall_forall in Hf.
    apply (Hf (b.(Header).(Height), b)); [by apply elem_of_map_to_list|done].
Qed.

(* ------------------------------------------------------------------ *)
(** * The chain accepts the approved block *)

Lemma validated_quorum now c b b1 m next :
  validated now c b false b1 next → check_authorization c (set_QuorumSignatures m b) true = inl tt →
  validated now c (set_QuorumSignatures m b) true (set_QuorumSignatures m b1) next.
Proof.
  intros [Hh -> Ht Hn Hr] Ha. split; [|done|done|exact Hn|done].
  unfold check_header in *. cbn [Hash Header set_QuorumSignatures] in *.
  change (check_time now) with (λ p x : Block, check_time now p (set_QuorumSignatures m x)) in Hh. cbv beta in Hh.
  change (CalculateHash (set_QuorumSignatures m b)) with (CalculateHash b). change (txs_of (set_QuorumSignatures m b)) with (txs_of b).
  destruct (empty_str _); [done|]. destruct (tip c) as [p|]; [|done]. destruct (negb _ || negb _); [done|].
  destruct (check_time _ _ _) as [[]|]; [|done]. rewrite Ha. by destruct (check_authorization c b false) as [[]|].
Qed.

Lemma FinalizeBlock_approved now c b m :
  ValidateProposal now c b = (b, inl tt) → check_authorization c (set_QuorumSignatures m b) true = inl tt →
  ∃ c', FinalizeBlock now c (set_QuorumSignatures m b) = (c', set_Finalized true (set_QuorumSignatures m b), inl tt).
Proof.
  intros [next Hv]%validateBlock_iff Ha. pose proof (validated_quorum _ _ _ _ m _ Hv Ha) as Hv'.
  destruct (FinalizeBlock_cases now c (set_QuorumSignatures m b)) as [(b' & nx & Hval & ->)|(b' & e & He & _)].
  - exists (commit_block b' nx c). destruct Hval as [_ Hb' _ _ _], Hv' as [_ Hb _ _ _]. congruence.
  - assert (ValidateBlock now c (set_QuorumSignatures m b) = (set_QuorumSignatures m b, inl tt)) as Hok by (apply validateBlock_iff; by exists next).
    congruence.
Qed.

(* ------------------------------------------------------------------ *)
(** * Verified votes *)

(** A signature the chain counts as the approval of [b] by [id]. *)
Definition approves (c : Chain) (V : gset string) (b : Block) (id sg : string) : Prop :=
  id ∈ V → sg ≠ "" ∧ approval_valid c.(validatorKeys) (QuorumApprovalMessage b) (id, sg) = true.

Lemma verifyPeerVote_accepts c V b n v :
  (∀ id pub, id ∈ V → n.(Peers) !! id = Some pub → c.(validatorKeys) !! id = Some pub) →
  verifyPeerVote v b n = true → accepts b v ∧ approves c V b v.(v_VoterID) v.(v_Signature).
Proof.
  intros Hk. unfold verifyPeerVote, PeerPublicKey, empty_str.
  destruct (Z.eqb_spec v.(v_Vote) 1); [|done]. destruct (bool_decide_reflect (v.(v_BlockHash) = b.(Hash))); [|done].
  destruct (Z.eqb_spec v.(v_Height) b.(Header).(Height)); [|done]. destruct (bool_decide_reflect (v.(v_Signature) = "")); [done|]. cbn.
  destruct (n.(Peers) !! v.(v_VoterID)) as [pub|] eqn:Hp; [|done]. destruct (slen pub =? 32) eqn:Hl; [|done]. cbn.
  destruct (hexDecode _) as [sg|] eqn:Hd; [|done]. intros [Hs Hv]%andb_prop. split; [done|]. intros Hin. split; [done|].
  unfold approval_valid. cbn. rewrite (Hk _ _ Hin Hp), Hl. unfold decode_fixed. by rewrite Hd, Hs.
Qed.

(** Everything that comes out of the mailbox has been verified. *)
Lemma take_mail_verified decode want b n mail answered out :
  Forall (λ v, verifyPeerVote v b n = true) out →
  Forall (λ v, verifyPeerVote v b n = true) (take_mail decode want b n mail answered out).2.
Proof.
  revert answered out. induction mail as [|m mail IH]; intros answered out Ho; simpl; [done|].
  destruct (_ || _); [by apply IH|]. destruct (decode _) as [v|]; [|by apply IH].
  destruct (verifyPeerVote v b n) eqn:Hv; apply IH; [|done]. apply Forall_app; split; [done|]. by constructor.
Qed.

Lemma poll_mail_verified decode want b n polls answered out :
  Forall (λ v, verifyPeerVote v b n = true) out →
  Forall (λ v, verifyPeerVote v b n = true) (poll_mail decode want b n polls answered out).
Proof.
  revert answered out. induction polls as [|p polls IH]; intros answered out Ho; simpl; [done|].
  pose proof (take_mail_verified decode want b n (match p with inl mail => mail | inr _ => [] end) answered out Ho) as Ht.
  destruct (take_mail _ _ _ _ _ _ _) as [answered' out']. destruct (_ <=? _)%nat; [done|by apply IH].
Qed.

Lemma round_votes_verified w b s n :
  (∀ l, w.(rd_order) l ≡ₚ l) →
  Forall (λ v, verifyPeerVote v b n = true) (w.(rd_order) (peer_votes w b s n ++ collectMailboxVotes w b s n)).
Proof.
  intros ->. apply Forall_app. split.
  - apply Forall_forall. unfold peer_votes. intros v (peer & _ & Hv)%list_elem_of_omap.
    destruct (rd_answer w peer) as [u|]; [|done]. destruct (verifyPeerVote u b n) eqn:Hu; [|done]. by injection Hv as <-.
  - unfold collectMailboxVotes. destruct (MailboxRelayPeers s); [done|]. destruct (empty_str _); [done|]. by apply poll_mail_verified.
Qed.

Lemma peer_votes_elem w b s n peer v :
  peer ∈ s.(ConsensusPeerURLs) → w.(rd_answer) peer = inl v → verifyPeerVote v b n = true → v ∈ peer_votes w b s n.
Proof. intros Hp Ha Hv. unfold peer_votes. apply list_elem_of_omap. exists peer. by rewrite Ha, Hv. Qed.

(* ------------------------------------------------------------------ *)
(** * The producer *)

(** When a round can succeed: the node is a registered producer with its keys
    attached, the block [d] it builds is one every node accepts, its engine
    starts the height afresh, and [V] is a set of validators whose approvals
    suffice for the engine and for the chain. *)
Record producer_ready (w : Round) (n : Node) (k : KeyPair) (d : Block) (V : gset string) : Prop := {
  pr_keys : n.(n_Agent).(keys) = Some k;
  pr_public : k.(Public) = ed_Public k.(Private);
  pr_validator : IsValidator n (selfID n) = true;
  pr_build : BuildBlock w.(rd_build) (selfID n) (ProofRoot n.(n_Agent)) 1000 n.(n_Chain) = inl d;
  pr_mempool : mempool_ok n.(n_Chain);
  pr_tip : ∃ parent, tip n.(n_Chain) = Some parent ∧ parent.(Hash) ≠ d.(Hash) ∧
    clean_skips n.(n_Chain) (candidates n.(n_Chain)) (u64 (parent.(Header).(Height) + 1)) (Clone n.(n_Chain).(c_State)) ∧
    Forall (λ corr, corr.(corr_Height) ≠ u64 (parent.(Header).(Height) + 1)) n.(n_Chain).(stateCorrections) ∧
    Before d.(Header).(h_Timestamp) parent.(Header).(h_Timestamp) = false;
  pr_clock : w.(rd_build).(instant) ≤ w.(rd_final).(instant);
  pr_legacy : stakeAuthoritySet n.(n_Chain) d.(Header).(Height) = [];
  pr_registered : n.(n_Chain).(validatorKeys) !! selfID n = Some k.(Public);
  pr_quorum : n.(n_Chain).(requiredQuorum) ≤ Z.of_nat (size V);
  pr_roster : roster_ok n.(n_Engine);
  pr_ballot : ballot_at n.(n_Engine) d.(Header).(Height) 0 VoteStagePrecommit = ∅;
  pr_new : ∀ x, stored n.(n_Engine) x → x.(Hash) ≠ d.(Hash);
  pr_self : selfID n ∈ V;
  pr_known : V ⊆ n.(n_Engine).(validators);
  pr_enough : enough n.(n_Engine) V;
  pr_agree : ∀ id pub, id ∈ V → n.(Peers) !! id = Some pub → n.(n_Chain).(validatorKeys) !! id = Some pub
}.

Lemma BuildBlock_shape now id poc maxTx c d :
  BuildBlock now id poc maxTx c = inl d → d.(Hash) ≠ "" ∧ d.(Header).(ProposerID) = id.
Proof.
  unfold BuildBlock. destruct (tip c) as [p|]; [|done]. destruct (build_state _ _ _ _ _) as [tmp [txs|e]]; [|done].
  unfold ComputeHash. destruct (CalculateHash _) as [h|e] eqn:Hh; [|done]. intros [= <-]. cbn. split; [|done].
  intros Hz. apply CalculateHash_nonempty in Hh. subst h. done.
Qed.

Context {EC : Ed25519Correct E}.

(** The block as it is proposed. *)
Definition proposed (k : KeyPair) (d : Block) : Block := sign_proposal (hex0x (ed_Sign k.(Private) d.(Hash))) d.

Lemma roster_authorization c id k d m q (V : gset string) :
  stakeAuthoritySet c d.(Header).(Height) = [] → d.(Header).(ProposerID) = id →
  c.(validatorKeys) !! id = Some k.(Public) → k.(Public) = ed_Public k.(Private) →
  (q = true → c.(requiredQuorum) ≤ Z.of_nat (size V) ∧
     ∀ id, id ∈ V → ∃ sg, m !! id = Some sg ∧ approves c V d id sg) →
  check_authorization c (set_QuorumSignatures m (proposed k d)) q = inl tt.
Proof.
  intros Hs Hid Hk Hpub Hq. unfold check_authorization. cbn [Header set_QuorumSignatures proposed sign_proposal]. rewrite Hs.
  destruct (_ && _); [|done].
  assert ((∃ key raw, c.(validatorKeys) !! (set_QuorumSignatures m (proposed k d)).(Header).(ProposerID) = Some key ∧ slen key = 32 ∧
     decode_fixed (set_QuorumSignatures m (proposed k d)).(ProposerSignature) 64 = Some raw ∧
     ed_Verify key (set_QuorumSignatures m (proposed k d)).(Hash) raw = true)) as Hsig.
  { exists k.(Public), (ed_Sign k.(Private) d.(Hash)). cbn. rewrite Hid. split_and!; [done| | |].
    - unfold slen. by rewrite Hpub, ed_public_len.
    - apply decode_fixed_hex0x. unfold slen. by rewrite ed_sign_len.
    - by rewrite Hpub, ed_verify_sign. }
  destruct q.
  - apply verifyBlockAuthorization_iff. split; [exact Hsig|]. destruct (Hq eq_refl) as [Hle Hall]. etrans; [exact Hle|].
    apply inj_le, subseteq_size. intros x Hx. destruct (Hall x Hx) as (sg & Hm & Ha). destruct (Ha Hx) as [_ Hv].
    apply elem_roster_approvals. unfold approval_valid in Hv. cbn in Hv.
    destruct (c.(validatorKeys) !! x) as [key|] eqn:Hkx; [|done]. destruct (Z.eqb_spec (slen key) 32); [|done].
    destruct (decode_fixed sg 64) as [raw|] eqn:Hd; [|done]. by exists key, sg, raw.
  - destruct Hsig as (key & raw & H1 & H2 & H3 & H4). unfold verifyBlockAuthorization. rewrite H1, H2, H3, H4. done.
Qed.

Section ready.
Context (w : Round) (n : Node) (k : KeyPair) (d : Block) (V : gset string) (Hr : producer_ready w n k d V).
Let b := proposed k d.
Let c := n.(n_Chain).
Let e0 := RecordOwnProposal (Some b) n.(n_Engine).

Lemma ready_build : BuildAndSignProposal w.(rd_build) n = (set_n_Engine e0 n, inl b).
Proof.
  unfold BuildAndSignProposal. rewrite (pr_validator _ _ _ _ _ Hr), (pr_build _ _ _ _ _ Hr). cbn [negb].
  unfold signProposalBlock, SignRaw. by rewrite (pr_keys _ _ _ _ _ Hr).
Qed.

Lemma ready_hash : b.(Hash) ≠ "".
Proof. apply (BuildBlock_shape _ _ _ _ _ _ (pr_build _ _ _ _ _ Hr)). Qed.

Lemma ready_counting : counting b (approves c V b) e0 e0 ∧ rounds_at e0 b.(Header).(Height) !! 0 = Some b ∧ roster_ok e0 ∧ enough e0 V ∧ V ⊆ e0.(validators).
Proof.
  destruct (counting_start (approves c V b) n.(n_Engine) b ready_hash (pr_ballot _ _ _ _ _ Hr)) as [Hc Hb].
  pose proof (own_roster (Some b) 0 n.(n_Engine)) as Hs. change (RecordOwnProposalWithRound (Some b) 0 _) with e0 in Hs.
  split_and!; [done|done|by eapply roster_ok_same, (pr_roster _ _ _ _ _ Hr)| |].
  - destruct (pr_enough _ _ _ _ _ Hr) as [H1 H2]. unfold enough. rewrite (weight_same n.(n_Engine)) by done.
    unfold requiredForFinality, requiredPowerForFinality in *. by destruct Hs as (-> & _ & _ & ->).
  - destruct Hs as (_ & -> & _). apply (pr_known _ _ _ _ _ Hr).
Qed.

Lemma ready_own_vote sg :
  sg = hex0x (ed_Sign k.(Private) (QuorumApprovalMessage b)) →
  accepts b (approval n b sg) ∧ plain (approval n b sg) ∧ approves c V b (selfID n) sg.
Proof.
  intros ->. split; [done|]. split; [done|]. intros _. split; [done|]. unfold approval_valid. cbn [fst snd].
  unfold c. rewrite (pr_registered _ _ _ _ _ Hr), (pr_public _ _ _ _ _ Hr).
  unfold slen at 1. rewrite ed_public_len. change (Z.of_nat 32 =? 32) with true. cbv iota.
  rewrite decode_fixed_hex0x by (unfold slen; by rewrite ed_sign_len). apply ed_verify_sign.
Qed.

Lemma ready_self_vote :
  ∃ e1 v, SelfVote w.(rd_self) b (set_n_Engine e0 n) = (set_n_Engine e1 n, inl v) ∧
    counting b (approves c V b) e0 e1 ∧ counted_in b e1 (selfID n).
Proof.
  destruct ready_counting as (Hc & Hb & Hro & Hen & Hsub).
  unfold SelfVote, SignRaw. change (n_Agent (set_n_Engine e0 n)) with n.(n_Agent). rewrite (pr_keys _ _ _ _ _ Hr).
  set (sg := hex0x _). change (approval (set_n_Engine e0 n) b sg) with (approval n b sg).
  destruct (ready_own_vote sg eq_refl) as (Ha & Hp & Hg).
  destruct (HandleVote_counting b (approves c V b) e0 Hro Hb n w.(rd_self) (approval n b sg) e0 ∅ Hc Ha (λ _, Hg))
    as (e1 & met & err & Hrun & Hc1 & _ & Hpl).
  destruct (Hpl Hp (Hsub _ (pr_self _ _ _ _ _ Hr))) as (Hin & -> & _).
  exists e1, (approval n b sg). unfold on_engine in Hrun. by rewrite Hrun.
Qed.

Lemma ready_stored e : counting b (approves c V b) e0 e → ∀ x, stored e x → x = b ∨ stored n.(n_Engine) x.
Proof.
  intros Hc x Hx. apply (own_stored _ _ _ ready_hash). unfold stored in *. by rewrite (cn_heights _ _ _ _ Hc), (cn_rounds _ _ _ _ Hc) in Hx.
Qed.

Lemma ready_collected e id :
  counting b (approves c V b) e0 e → id ∈ V → counted_in b e id →
  ∃ sg, CollectedApprovals e b.(Header).(Height) b.(Hash) !! id = Some sg ∧ approves c V b id sg.
Proof.
  intros Hc Hid [_ [r Hl]%elem_of_dom]. destruct (cn_legacy _ _ _ _ Hc id r Hl) as (_ & _ & Hg). destruct (Hg Hid) as [Hne Hv].
  exists r.(r_Signature). split; [|done]. unfold CollectedApprovals, approval_signatures.
  rewrite (approvers_good b (approves c V b)) by apply (cn_legacy _ _ _ _ Hc).
  apply lookup_fmap_Some. exists r. split; [done|]. by apply map_lookup_filter_Some.
Qed.

Lemma ready_valid : ValidateProposal w.(rd_final) c b = (b, inl tt).
Proof.
  destruct (pr_tip _ _ _ _ _ Hr) as (parent & Ht & _ & Hcl & Hco & Hbe).
  destruct (BuildBlock_shape _ _ _ _ _ _ (pr_build _ _ _ _ _ Hr)) as [_ Hid].
  apply (BuildBlock_proposal w.(rd_build) _ _ _ _ _ _ _ _ (pr_mempool _ _ _ _ _ Hr) Ht Hcl Hco Hbe (pr_clock _ _ _ _ _ Hr) (pr_build _ _ _ _ _ Hr)).
  apply (roster_authorization _ _ k d b.(QuorumSignatures) false V (pr_legacy _ _ _ _ _ Hr) Hid); [apply (pr_registered _ _ _ _ _ Hr)|apply (pr_public _ _ _ _ _ Hr)|done].
Qed.

Lemma ready_finalize e :
  (∀ c, w.(rd_hook) c = None) → counting b (approves c V b) e0 e → (∀ id, id ∈ V → counted_in b e id) →
  ∃ n' t, TryFinalize w.(rd_final) w.(rd_hook) b.(Hash) (set_n_Engine e n) = (n', inl tt) ∧
    tip n'.(n_Chain) = Some t ∧ t.(Hash) = b.(Hash).
Proof.
  intros Hhook Hc Hall. destruct ready_counting as (_ & Hb & _ & [Hq _] & _).
  destruct (pr_tip _ _ _ _ _ Hr) as (parent & Ht & Hne & _). pose proof (own_proposals n.(n_Engine) b ready_hash) as [Hph Hpr].
  unfold TryFinalize. cbn [n_Engine n_Chain set_n_Engine].
  rewrite (Proposal_unique e b).
  2:{ left. exists b.(Header).(Height). rewrite (cn_heights _ _ _ _ Hc). unfold e0. rewrite Hph. apply lookup_insert_eq. }
  2:{ intros x [->|Hx]%(ready_stored e Hc) Heq; [done|]. destruct (pr_new _ _ _ _ _ Hr x Hx). exact Heq. }
  rewrite (FinalityStatus_legacy e b).
  2:{ rewrite (cn_heights _ _ _ _ Hc). unfold e0. rewrite Hph. apply lookup_insert_eq. }
  2:{ rewrite (cn_heights _ _ _ _ Hc). unfold e0. rewrite Hph. intros h x [[<- _]|[_ Hl]]%lookup_insert_Some Heq; [done|].
      destruct (pr_new _ _ _ _ _ Hr x); [left; by exists h|exact Heq]. }
  assert (requiredForFinality e <=? votes_for (legacy_at e b.(Header).(Height)) b.(Hash) = true) as ->.
  { apply Z.leb_le. unfold votes_for. rewrite (approvers_good b (approves c V b)) by apply (cn_legacy _ _ _ _ Hc).
    pose proof (subseteq_size V (dom (legacy_at e b.(Header).(Height))) ltac:(intros id Hid; by apply Hall)) as Hsz. rewrite size_dom in Hsz.
    assert (requiredForFinality e = requiredForFinality e0) as ->; [|lia].
    unfold requiredForFinality. by destruct (cn_roster _ _ _ _ Hc) as (-> & _). }
  cbn [negb orb]. rewrite Ht, bool_decide_eq_false_2 by exact Hne.
  destruct (BuildBlock_shape _ _ _ _ _ _ (pr_build _ _ _ _ _ Hr)) as [_ Hid].
  destruct (FinalizeBlock_approved w.(rd_final) c b (CollectedApprovals e b.(Header).(Height) b.(Hash)) ready_valid) as (c' & Hf).
  { apply (roster_authorization _ _ _ _ _ _ V (pr_legacy _ _ _ _ _ Hr) Hid (pr_registered _ _ _ _ _ Hr) (pr_public _ _ _ _ _ Hr)).
    intros _. split; [apply (pr_quorum _ _ _ _ _ Hr)|]. intros id Hin. by apply ready_collected; [..|apply Hall]. }
  unfold c in Hf. rewrite Hf. destruct (FinalizeBlock_tip _ _ _ _ _ Hf) as (Htip & _).
  unfold node_RefreshReputation. destruct (RefreshReputation _ _ _ _) as [a score]. rewrite Hhook.
  by eexists (set_n_Agent a (set_n_Chain c' (set_n_Engine e n))), _.
Qed.

(** The whole round. *)
Lemma ready_round s :
  s.(backend) = WithNode n → (∀ l, w.(rd_order) l ≡ₚ l) → (∀ c, w.(rd_hook) c = None) →
  V ≠ {[selfID n]} →
  (∀ id, id ∈ V → id ≠ selfID n → ∃ peer v, peer ∈ s.(ConsensusPeerURLs) ∧ w.(rd_answer) peer = inl v ∧
     verifyPeerVote v b n = true ∧ plain v ∧ v.(v_VoterID) = id) →
  ∃ s' out t, ProposeBlockWithConsensus w s = (s', out, (d.(Hash), true, None)) ∧
    tip (s_Chain s') = Some t ∧ t.(Hash) = d.(Hash).
Proof.
  intros Hs Hord Hhook Hmore Hans. destruct ready_counting as (_ & Hb & Hro & Hen & Hsub).
  unfold ProposeBlockWithConsensus, s_Node. rewrite Hs, ready_build.
  destruct ready_self_vote as (e1 & v1 & -> & Hc1 & Hself). unfold collectConsensusVotes.
  set (n1 := set_n_Engine e1 n). set (vs := rd_order w _).
  assert (votes_ok b (approves c V b) e0 vs) as Hvs.
  { eapply Forall_impl; [apply (round_votes_verified w b s n1 Hord)|]. intros v Hv. cbn in Hv.
    destruct (verifyPeerVote_accepts c V b n1 v (pr_agree _ _ _ _ _ Hr) Hv). auto. }
  assert (∀ id, id ∈ V → id ≠ selfID n → ∃ v, v ∈ vs ∧ plain v ∧ v.(v_VoterID) = id) as Hvote.
  { intros id Hid Hne. destruct (Hans id Hid Hne) as (peer & v & Hp & Ha & Hv & Hpl & Heq). exists v. split; [|done].
    subst vs. rewrite Hord. apply elem_of_app. left. by eapply peer_votes_elem. }
  destruct (tally_votes_counting b (approves c V b) e0 Hro Hb n w.(rd_count) 0 vs e1 false Hc1 Hvs)
    as (e2 & fin & Htl & Hc2 & _ & HX). unfold on_engine in Htl. fold n1 in Htl. rewrite Htl.
  destruct (HX V Hsub) as [Hall Hfin].
  { intros id Hid. destruct (decide (id = selfID n)) as [->|Hne]; [by left|]. right. by apply Hvote. }
  rewrite Hfin; [|done|].
  - destruct (ready_finalize e2 Hhook Hc2 Hall) as (n' & t & Hf & Ht & Hth). change (Hash b) with (Hash d) in *. rewrite Hf, Ht.
    rewrite bool_decide_eq_true_2 by done. by eexists _, _, t.
  - destruct (decide (Exists (λ id, id ≠ selfID n) (elements V))) as [(id & Hid%elem_of_elements & Hne)%Exists_exists|Hno].
    + destruct (Hvote id Hid Hne) as (v & ? & ? & <-). by exists v.
    + destruct Hmore. apply set_eq. intros id. rewrite elem_of_singleton. split; [|intros ->; apply (pr_self _ _ _ _ _ Hr)].
      intros Hid. destruct (decide (id = selfID n)); [done|]. destruct Hno. apply Exists_exists. exists id. by rewrite elem_of_elements.
Qed.

End ready.
End live.
