(* ===== verification/Comet.v ===== *)
(** The CometBFT application (cometapp/app/app.go): how decided blocks change
    the ledger, how validator stake becomes voting power, and what is made
    durable. CometBFT itself is not part of the repository; its address
    function is a parameter and its requests are arguments. *)
From stdpp Require Import base strings list gmap.
From S2P Require Import Prelude GoStd Sha256 Json JsonParse Types Ledger TxModel TxDecode.
From S2P Require Import Merkle.
From S2P Require Import Staking Apply Fees Block Chain.

#[local] Open Scope string_scope.
#[local] Open Scope list_scope.
#[local] Open Scope Z_scope.

(** [cmted25519.PubKey.Address]: the 20 bytes CometBFT names a key by. *)
Class CometAddress : Type := { comet_address : string → string }.

(* ------------------------------------------------------------------ *)
(** * Genesis *)

Record GenesisValidator : Type := mkGenesisValidator {
  gv_Operator : Address;
  gv_ConsensusPubKey : string;
  gv_SelfBond : Z;
  gv_Moniker : string;
  gv_Endpoint : string
}.

(** The decoded [app_state]. *)
Record AppGenesis : Type := mkAppGenesis {
  ag_Chain : Genesis;
  ag_Staking : ValidatorStakingParams;
  ag_Validators : list GenesisValidator;
  InitialState : option State;
  InitialStateRoot : string
}.

(** [startState] *)
Definition startState (g : AppGenesis) : res State :=
  match g.(InitialState) with
  | None => Genesis.ToState g.(ag_Chain)
  | Some st => inl (Clone st)
  end.

(** The part of [Validate] about where the state comes from. *)
Definition validate_source (g : AppGenesis) : res unit :=
  match g.(InitialState) with
  | None =>
      if negb (empty_str g.(InitialStateRoot)) then inr (Err "initial_state_root is set but initial_state is missing")
      else Genesis.Validate g.(ag_Chain)
  | Some st =>
      if empty_str g.(ag_Chain).(g_ChainID) then inr (Err "chain.chain_id is required")
      else if negb (bool_decide (size g.(ag_Chain).(Alloc) = 0%nat)) || negb (bool_decide (size g.(ag_Chain).(g_Metadata) = 0%nat))
      then inr (Err "chain.alloc and chain.metadata must be empty when initial_state is given")
      else if negb (bool_decide (Root st = g.(InitialStateRoot))) then inr (Err "the genesis file is damaged or was edited")
      else if negb (bool_decide (size st.(Validators) = 0%nat)) || negb (bool_decide (length st.(ValidatorSetSnapshot) = 0%nat))
      then inr (Err "initial_state must not carry validators")
      else inl tt
  end.

(** [Genesis.Validate] of the application. *)
Definition Genesis_Validate (g : AppGenesis) : res unit :=
  match validate_source g with
  | inr e => inr e
  | inl _ =>
      let p := g.(ag_Staking) in
      if negb (p.(EnabledFromHeight) =? 1) then inr (Err "staking.enabled_from_height must be 1")
      else if negb (p.(ConsensusFromHeight) =? 0) then inr (Err "staking.consensus_from_height must be 0")
      else if p.(EpochBlocks) =? 0 then inr (Err "staking.epoch_blocks must be greater than zero")
      else if (p.(SlashFractionBps) =? 0) || (10000 <? p.(SlashFractionBps))
      then inr (Err "staking.slash_fraction_bps must be between 1 and 10000")
      else if bool_decide (length g.(ag_Validators) = 0%nat) then inr (Err "genesis needs at least one validator")
      else Staking.Validate p
  end.

(* ------------------------------------------------------------------ *)
(** * Validators as CometBFT sees them *)

(** [abcitypes.ValidatorUpdate] *)
Record ValidatorUpdate : Type := mkUpdate { vu_PubKey : string; vu_Power : Z }.

Definition PubKeySize : Z := 32.

(** [update] *)
Definition update (keyHex : string) (power : Z) : res ValidatorUpdate :=
  match hexDecode (TrimPrefix keyHex "0x") with
  | None => inr (Err "bad consensus key")
  | Some pub =>
      if negb (slen pub =? PubKeySize) then inr (Err "bad consensus key")
      else if 2 ^ 60 <? power then inr (Err "voting power too large")
      else inl (mkUpdate pub (i64 power))
  end.

(** The validators of [to] that are new or whose power changed. *)
Fixpoint changed_updates (old : gmap string Z) (to : list ActiveValidator) : res (list ValidatorUpdate) :=
  match to with
  | [] => inl []
  | v :: to =>
      if bool_decide (old !! v.(av_ConsensusPubKey) = Some v.(av_Power)) then changed_updates old to
      else
        match update v.(av_ConsensusPubKey) v.(av_Power) with
        | inr e => inr e
        | inl u => match changed_updates old to with inr e => inr e | inl out => inl (u :: out) end
        end
  end.

(** The validators of [from] that are dropped. *)
Fixpoint removed_updates (keep : gmap string bool) (from : list ActiveValidator) : res (list ValidatorUpdate) :=
  match from with
  | [] => inl []
  | v :: from =>
      if default false (keep !! v.(av_ConsensusPubKey)) then removed_updates keep from
      else
        match update v.(av_ConsensusPubKey) 0 with
        | inr e => inr e
        | inl u => match removed_updates keep from with inr e => inr e | inl out => inl (u :: out) end
        end
  end.

(** The maps [validatorUpdates] builds first. *)
Definition old_powers (from : list ActiveValidator) : gmap string Z :=
  foldl (λ m v, <[v.(av_ConsensusPubKey) := v.(av_Power)]> m) ∅ from.
Definition kept_keys (to : list ActiveValidator) : gmap string bool :=
  foldl (λ m v, <[v.(av_ConsensusPubKey) := true]> m) ∅ to.

(** [validatorUpdates] *)
Definition validatorUpdates (from to : list ActiveValidator) : res (list ValidatorUpdate) :=
  match changed_updates (old_powers from) to with
  | inr e => inr e
  | inl changed =>
      match removed_updates (kept_keys to) from with
      | inr e => inr e
      | inl removed => inl (changed ++ removed)
      end
  end.

(** [ValidatorRecords]: every record, in the order a map iteration yields. *)
Definition ValidatorRecords (s : State) : list ValidatorRecord := (map_to_list s.(Validators)).*2.

Section with_address.
Context `{A : CometAddress}.

(** [ConsensusAddress] *)
Definition ConsensusAddress (consensusKeyHex : string) : res string :=
  match hexDecode (TrimPrefix (ToLower consensusKeyHex) "0x") with
  | None => inr (Err "bad consensus key")
  | Some pub => if negb (slen pub =? PubKeySize) then inr (Err "bad consensus key") else inl (comet_address pub)
  end.

(** The search of [consensusKeyForAddress] through records in some order. *)
Fixpoint key_for_address (addr : string) (recs : list ValidatorRecord) : option string :=
  match recs with
  | [] => None
  | rec :: recs =>
      match ConsensusAddress rec.(ConsensusPubKey) with
      | inl a => if bool_decide (a = addr) then Some rec.(ConsensusPubKey) else key_for_address addr recs
      | inr _ => key_for_address addr recs
      end
  end.

(** [consensusKeyForAddress] *)
Definition consensusKeyForAddress (st : State) (addr : string) : option string :=
  key_for_address addr (ValidatorRecords st).

(** [operatorForConsensusAddress] *)
Definition operatorForConsensusAddress (st : State) (addr : string) : Address :=
  match consensusKeyForAddress st addr with
  | None => ""
  | Some key => (ValidatorByConsensusKey st key).1.(Operator)
  end.

End with_address.

(* ------------------------------------------------------------------ *)
(** * The application *)

(** What [Commit] hands to the disk. *)
Record persisted : Type := mkPersisted {
  ps_ChainID : string;
  ps_TxChainID : Z;
  ps_Staking : ValidatorStakingParams;
  ps_Height : Z;
  ps_AppHash : string;
  ps_State : option State
}.

Record App : Type := mkApp {
  dataDir : string;
  a_chainID : string;
  txChainID : Z;
  staking : ValidatorStakingParams;
  committed : option State;
  a_height : Z;
  appHash : string;
  pending : option State;
  pendingHeight : Z;
  pendingAppHash : string;
  check : option State
}.

Definition zero_params : ValidatorStakingParams := mkParams 0 0 0 0 0 0 0 0.

(** [&App{dataDir: dataDir}] *)
Definition empty_app (dir : string) : App := mkApp dir "" 0 zero_params None 0 "" None 0 "" None.

(** [decodeRoot] *)
Definition decodeRoot (root : string) : res string :=
  match hexDecode (TrimPrefix root "0x") with Some b => inl b | None => inr (Err "bad state root") end.

(** What reading and decoding the state file gave. *)
Inductive state_file : Type :=
  | FileMissing
  | FileError (e : error)
  | FileRead (p : persisted).

(** [New], after the directory has been made. *)
Definition New (dir : string) (file : state_file) : res App :=
  if empty_str dir then inl (empty_app dir)
  else
    match file with
    | FileMissing => inl (empty_app dir)
    | FileError e => inr e
    | FileRead p =>
        match decodeRoot p.(ps_AppHash) with
        | inr e => inr e
        | inl hash =>
            match p.(ps_State) with
            | None => inr (Panic "nil pointer dereference")
            | Some st =>
                if negb (bool_decide (Root st = p.(ps_AppHash))) then inr (Err "synthos-app-state.json is corrupt")
                else if (FeeModelV2ActivationHeight <=? p.(ps_Height)) && empty_str st.(TreasuryAddress)
                then inr (Err "cannot start app: TreasuryAddress is required from FeeModelV2ActivationHeight onward")
                else
                  inl (mkApp dir p.(ps_ChainID) p.(ps_TxChainID) p.(ps_Staking) (Some st) p.(ps_Height) hash
                         None 0 "" (Some (Clone st)))
            end
        end
    end.

(** [t.Unix()] *)
Definition unix_seconds (t : Time) : Z := t.(instant) / second - 719162 * 86400.

(** [txContext] *)
Definition txContext (a : App) (height : Z) (blockTime : Time) : TxContext :=
  mkTxContext (u64 height) a.(a_chainID) a.(staking) (if IsZero blockTime then 0 else unix_seconds blockTime).

(** [Info] *)
Definition Info (a : App) : Z * string := (a.(a_height), a.(appHash)).

(** The genesis validators bond in order. *)
Fixpoint bond_all (vs : list GenesisValidator) : SM State unit :=
  match vs with
  | [] => mret tt
  | v :: vs =>
      BondGenesisValidator v.(gv_Operator) v.(gv_ConsensusPubKey) v.(gv_SelfBond) v.(gv_Moniker) v.(gv_Endpoint);;
      bond_all vs
  end.

(** The state, the first updates and the app hash of a genesis. *)
Definition genesis_world (g : AppGenesis) : res (State * list ValidatorUpdate * string) :=
  match Genesis_Validate g with
  | inr e => inr e
  | inl _ =>
      match startState g with
      | inr e => inr e
      | inl st =>
          match bond_all g.(ag_Validators) st with
          | (_, inr e) => inr e
          | (st, inl _) =>
              let set := ActiveValidatorSet st g.(ag_Staking) in
              if bool_decide (length set = 0%nat) then inr (Err "no genesis validator meets staking.min_self_bond")
              else
                let st := ReplaceValidatorSetSnapshot set st in
                match validatorUpdates [] set with
                | inr e => inr e
                | inl updates =>
                    match decodeRoot (Root st) with inr e => inr e | inl hash => inl (st, updates, hash) end
                end
          end
      end
  end.

(** [InitChain]; [g] is what decoding [req.AppStateBytes] gave. *)
Definition InitChain (a : App) (chainId : string) (g : res AppGenesis) : App * res (list ValidatorUpdate * string) :=
  match g with
  | inr e => (a, inr e)
  | inl g =>
      if negb (bool_decide (g.(ag_Chain).(g_ChainID) = chainId)) then (a, inr (Err "app_state chain.chain_id does not match CometBFT chain_id"))
      else
        match genesis_world g with
        | inr e => (a, inr e)
        | inl (st, updates, hash) =>
            let txid := g.(ag_Chain).(g_TxChainID) in
            (mkApp a.(dataDir) chainId (if txid =? 0 then 1 else txid) g.(ag_Staking) (Some st) 0 hash
               a.(pending) a.(pendingHeight) a.(pendingAppHash) (Some (Clone st)), inl (updates, hash))
        end
  end.

(** [decodeTx] *)
Definition decodeTx (a : App) (raw : string) : res Tx :=
  match unmarshal_tx raw with
  | None => inr (Err "not a SYNTHOS transaction")
  | Some tx => if negb (tx.(ChainID) =? a.(txChainID)) then inr (Err "wrong transaction chain ID") else inl tx
  end.

Definition set_check (st : option State) (a : App) : App :=
  mkApp a.(dataDir) a.(a_chainID) a.(txChainID) a.(staking) a.(committed) a.(a_height) a.(appHash)
    a.(pending) a.(pendingHeight) a.(pendingAppHash) st.

Definition set_pending (st : State) (height : Z) (hash : string) (a : App) : App :=
  mkApp a.(dataDir) a.(a_chainID) a.(txChainID) a.(staking) a.(committed) a.(a_height) a.(appHash)
    (Some st) height hash a.(check).

(* ------------------------------------------------------------------ *)
(** * Requests *)

Record VoteInfo : Type := mkVoteInfo { vi_Address : string; vi_Power : Z; vi_Committed : bool }.

Record RequestFinalizeBlock : Type := mkFinalize {
  rf_Height : Z;
  rf_Time : Time;
  rf_Txs : list string;
  rf_Proposer : string;
  rf_Votes : list VoteInfo;
  rf_Misbehavior : list string
}.

Inductive Event : Type :=
  | fee_split (total burn treasury : Z)
  | validator_fee_payout (p : ValidatorPayout).

Record ResponseFinalizeBlock : Type := mkResponse {
  Events : list Event;
  TxResults : list (res unit);
  ValidatorUpdates : list ValidatorUpdate;
  AppHash : string
}.

Section with_crypto.
Context `{E : Ed25519} `{A : CometAddress}.

(** [CheckTx]; [now] is the node's clock. *)
Definition CheckTx (now : Time) (raw : string) (a : App) : App * res unit :=
  match a.(check) with
  | None => (a, inr (Err "chain not initialized"))
  | Some st =>
      match decodeTx a raw with
      | inr e => (a, inr e)
      | inl tx =>
          match ApplyTransaction tx (txContext a (i64 (a.(a_height) + 1)) now) (Clone st) with
          | (_, inr e) => (a, inr e)
          | (next, inl _) => (set_check (Some next) a, inl tt)
          end
      end
  end.

(** One transaction of a block: it changes the state or it fails. *)
Definition exec_tx (a : App) (ctx : TxContext) (raw : string) (st : State) : State * res Tx :=
  match decodeTx a raw with
  | inr e => (st, inr e)
  | inl tx =>
      match ApplyTransaction tx ctx (Clone st) with
      | (_, inr e) => (st, inr e)
      | (next, inl _) => (next, inl tx)
      end
  end.

(** The transaction loop of [FinalizeBlock]. *)
Fixpoint exec_txs (a : App) (ctx : TxContext) (raws : list string) (st : State) : State * (list (res unit) * list Tx) :=
  match raws with
  | [] => (st, ([], []))
  | raw :: raws =>
      let '(st, r) := exec_tx a ctx raw st in
      let '(st, (results, applied)) := exec_txs a ctx raws st in
      match r with
      | inl tx => (st, (inl tt :: results, tx :: applied))
      | inr e => (st, (inr e :: results, applied))
      end
  end.

(** The votes of the last commit, counted for the fee epoch. *)
Definition record_vote (v : VoteInfo) (st : State) : State :=
  if 0 <? v.(vi_Power)
  then RecordFeeEpochVote (operatorForConsensusAddress st v.(vi_Address)) (u64 v.(vi_Power)) v.(vi_Committed) st
  else st.

Definition record_votes (vs : list VoteInfo) (st : State) : State := foldl (λ st v, record_vote v st) st vs.

(** The fee epoch's part of [FinalizeBlock]. *)
Definition fee_epoch (height : Z) (votes : list VoteInfo) (split : FeeSplit) (st : State) : State * list Event :=
  if height <? FeeModelV2ActivationHeight then (st, [])
  else
    let st := record_votes votes st in
    let ev := fee_split split.(TotalFees) split.(BurnAmount) split.(ToTreasury) in
    if u64 (i64 (height - FeeModelV2ActivationHeight + 1)) mod FeeEpochBlocks =? 0 then
      let epoch := u64 (height - FeeModelV2ActivationHeight) / FeeEpochBlocks in
      let '(st, payouts) := DistributeFeeEpochPayout epoch st in
      (st, ev :: map validator_fee_payout payouts)
    else (st, [ev]).

(** The misbehavior loop. *)
Fixpoint slash_all (bps : Z) (addrs : list string) (st : State) : State * bool :=
  match addrs with
  | [] => (st, false)
  | addr :: addrs =>
      match consensusKeyForAddress st addr with
      | None => slash_all bps addrs st
      | Some key =>
          let '(st, (_, ok)) := SlashForDoubleSign key bps st in
          let '(st, any) := slash_all bps addrs st in
          (st, ok || any)
      end
  end.

(** The new validator set, when there is one. *)
Definition next_set (p : ValidatorStakingParams) (height : Z) (slashedAny : bool) (st : State)
    : State * res (list ValidatorUpdate) :=
  if negb slashedAny && (p.(EpochBlocks) =? 0) then (st, inr (Panic "integer divide by zero"))
  else if slashedAny || (u64 height mod p.(EpochBlocks) =? 0) then
    let next := ActiveValidatorSet st p in
    if bool_decide (length next = 0%nat) then (st, inl [])
    else
      match validatorUpdates (AuthorizingValidatorSet st) next with
      | inr e => (st, inr e)
      | inl updates => (ReplaceValidatorSetSnapshot next st, inl updates)
      end
  else (st, inl []).

(** The body of [FinalizeBlock] on the copy of the committed state. *)
Definition finalize_state (a : App) (req : RequestFinalizeBlock) : SM State ResponseFinalizeBlock :=
  let ctx := txContext a req.(rf_Height) req.(rf_Time) in
  proposer ← gets (λ st, operatorForConsensusAddress st req.(rf_Proposer));
  '(results, applied) ← (λ st, let '(st, r) := exec_txs a ctx req.(rf_Txs) st in (st, inl r));
  T ← gets TreasuryAddress;
  fail_if ((FeeModelV2ActivationHeight <=? req.(rf_Height)) && empty_str T)
    (Err "cannot finalize block: TreasuryAddress is required from FeeModelV2ActivationHeight onward");;
  split ← ApplyBlockFees applied proposer req.(rf_Height);
  events ← (λ st, let '(st, ev) := fee_epoch req.(rf_Height) req.(rf_Votes) split st in (st, inl ev));
  slashedAny ← (λ st, let '(st, any) := slash_all a.(staking).(SlashFractionBps) req.(rf_Misbehavior) st in (st, inl any));
  updates ← next_set a.(staking) req.(rf_Height) slashedAny;
  st ← get;
  hash ← lift (decodeRoot (Root st));
  mret (mkResponse events results updates hash).

(** [FinalizeBlock] *)
Definition FinalizeBlock (req : RequestFinalizeBlock) (a : App) : App * res ResponseFinalizeBlock :=
  match a.(committed) with
  | None => (a, inr (Err "FinalizeBlock before InitChain"))
  | Some st =>
      match finalize_state a req (Clone st) with
      | (_, inr e) => (a, inr e)
      | (st, inl resp) => (set_pending st req.(rf_Height) resp.(AppHash) a, inl resp)
      end
  end.

(** What [persistLocked] writes, unless the state is kept in memory. *)
Definition persistLocked (a : App) : option persisted :=
  if empty_str a.(dataDir) then None
  else Some (mkPersisted a.(a_chainID) a.(txChainID) a.(staking) a.(a_height) (hex0x a.(appHash)) a.(committed)).

(** [Commit]: the application, and what the state file then holds ([None]:
    not touched). [io] is the error of the write-then-rename, if any. *)
Definition Commit (io : option error) (a : App) : App * res (option persisted) :=
  match a.(pending) with
  | None => (a, inr (Err "Commit without FinalizeBlock"))
  | Some st =>
      let a := mkApp a.(dataDir) a.(a_chainID) a.(txChainID) a.(staking) (Some st) a.(pendingHeight) a.(pendingAppHash)
                 None a.(pendingHeight) a.(pendingAppHash) (Some (Clone st)) in
      match persistLocked a, io with
      | None, _ => (a, inl None)
      | Some _, Some e => (a, inr e)
      | Some file, None => (a, inl (Some file))
      end
  end.

(* ------------------------------------------------------------------ *)
(** * Read-only requests *)

Inductive query_body : Type :=
  | QAccount (acc : Account)
  | QValidators (registered : list ValidatorRecord) (active current : list ActiveValidator)
  | QStatus (height : Z) (app_hash chain_id : string).

(** [Query], up to the encoding of its answer. *)
Definition Query (path data : string) (a : App) : res query_body :=
  match a.(committed) with
  | None => inr (Err "chain not initialized")
  | Some st =>
      let p := trim_right_slash (trim_left_slash path) in
      if bool_decide (p = "account") then inl (QAccount (Get st data))
      else if bool_decide (p = "validators")
      then inl (QValidators (ValidatorRecords st) (ActiveValidatorSet st a.(staking)) (AuthorizingValidatorSet st))
      else if bool_decide (p = "status") then inl (QStatus a.(a_height) (hex0x a.(appHash)) a.(a_chainID))
      else inr (Err "unknown query path")
  end.

(** [Simulate] *)
Definition Simulate (now : Time) (tx : Tx) (a : App) : res SimulationResult :=
  match a.(committed) with
  | None => inr (Err "chain not initialized")
  | Some st =>
      if negb (tx.(ChainID) =? a.(txChainID)) then inr (Err "wrong transaction chain ID")
      else
        let tmp := Clone st in
        match ApplyTransaction tx (txContext a (i64 (a.(a_height) + 1)) now) tmp with
        | (_, inr e) => inr e
        | (tmp', inl _) =>
            inl (mkSim tx.(ID) true (Get tmp tx.(From)).(Balance) (Get tmp' tx.(From)).(Balance)
                   (Get tmp tx.(To)).(Balance) (Get tmp' tx.(To)).(Balance) (Root tmp'))
        end
  end.

End with_crypto.
