(* ===== verification/CometFacts.v ===== *)
(** Facts about the CometBFT application: the validator updates are exactly
    the difference of two sets, a finalized block keeps the ledger's
    invariants, and what [Commit] writes is what a restart resumes from. *)
From stdpp Require Import base strings list gmap.
From S2P Require Import Prelude GoStd Sha256 Json JsonParse Types Ledger TxModel TxDecode.
From S2P Require Import Merkle Dex DexLedger.
From S2P Require Import Staking StakingFacts Apply ApplyFacts Fees Block Chain ChainFacts.
From S2P Require Import Comet.

#[local] Open Scope string_scope.
#[local] Open Scope list_scope.
#[local] Open Scope Z_scope.

(* ------------------------------------------------------------------ *)
(** * Validator updates *)

(** What CometBFT does with an update: power 0 removes the key. *)
Definition comet_apply (m : gmap string Z) (u : ValidatorUpdate) : gmap string Z :=
  if u.(vu_Power) =? 0 then delete u.(vu_PubKey) m else <[u.(vu_PubKey) := u.(vu_Power)]> m.

Definition key_bytes (key : string) : string := default "" (hexDecode (TrimPrefix key "0x")).

(** A validator set as CometBFT holds it: raw keys to powers. *)
Definition set_map (set : list ActiveValidator) : gmap string Z :=
  list_to_map (map (λ v, (key_bytes v.(av_ConsensusPubKey), v.(av_Power))) set).

Definition canonical_key (k : string) : Prop := ∃ b, k = hex0x b ∧ slen b = 32.

Record wf_set (set : list ActiveValidator) : Prop := {
  ws_nodup : NoDup (av_ConsensusPubKey <$> set);
  ws_key : ∀ v, v ∈ set → canonical_key v.(av_ConsensusPubKey);
  ws_power : ∀ v, v ∈ set → 0 < v.(av_Power)
}.

Lemma key_bytes_hex0x b : key_bytes (hex0x b) = b.
Proof. unfold key_bytes. by rewrite TrimPrefix_hex0x, hexDecode_hexEncode. Qed.

Lemma key_bytes_inj k k' : canonical_key k → canonical_key k' → key_bytes k = key_bytes k' → k = k'.
Proof. intros (b & -> & _) (b' & -> & _). by rewrite !key_bytes_hex0x; intros ->. Qed.

Lemma update_ok key power u :
  0 ≤ power → update key power = inl u → u = mkUpdate (key_bytes key) power.
Proof.
  intros Hp. unfold update, key_bytes. destruct (hexDecode _) as [b|]; [|done]. simpl. case_match; [done|].
  destruct (Z.ltb_spec (2 ^ 60) power) as [|Hle]; [done|]. intros [= <-]. f_equal. change (2 ^ 60) with 1152921504606846976 in Hle.
  unfold i64. Z.to_euclidean_division_equations. lia.
Qed.

Definition upd (v : ActiveValidator) : ValidatorUpdate := mkUpdate (key_bytes v.(av_ConsensusPubKey)) v.(av_Power).
Definition rem (v : ActiveValidator) : ValidatorUpdate := mkUpdate (key_bytes v.(av_ConsensusPubKey)) 0.

Lemma changed_updates_filter old to out :
  (∀ v, v ∈ to → 0 < v.(av_Power)) → changed_updates old to = inl out →
  out = upd <$> filter (λ v, old !! v.(av_ConsensusPubKey) ≠ Some v.(av_Power)) to.
Proof.
  revert out. induction to as [|v to IH]; intros out Hpos; cbn [changed_updates]; [by intros [= <-]|].
  assert (∀ w, w ∈ to → 0 < av_Power w) as Hpos' by (intros; apply Hpos; by right).
  rewrite filter_cons. case_bool_decide as Hd; [rewrite decide_False by tauto; by apply IH|rewrite decide_True by done].
  destruct (update _ _) as [u|] eqn:Hu; [|done]. apply update_ok in Hu as ->; [|specialize (Hpos v ltac:(left)); lia].
  destruct (changed_updates old to) as [out'|]; [|done]. intros [= <-]. by rewrite (IH out').
Qed.

Lemma removed_updates_filter keep from out :
  removed_updates keep from = inl out → out = rem <$> filter (λ v, keep !! v.(av_ConsensusPubKey) ≠ Some true) from.
Proof.
  revert out. induction from as [|v from IH]; intros out; cbn [removed_updates]; [by intros [= <-]|].
  rewrite filter_cons. destruct (keep !! av_ConsensusPubKey v) as [[|]|] eqn:Hk; cbn [default from_option id].
  1: rewrite decide_False by tauto; by apply IH.
  all: rewrite decide_True by done; destruct (update _ _) as [u|] eqn:Hu; [|done]; apply update_ok in Hu as ->; [|lia];
    destruct (removed_updates keep from) as [out'|]; [|done]; intros [= <-]; by rewrite (IH out').
Qed.

Lemma kept_keys_lookup to k : kept_keys to !! k = Some true ↔ k ∈ av_ConsensusPubKey <$> to.
Proof.
  unfold kept_keys. induction to as [|v to IH] using rev_ind; [cbn [foldl fmap list_fmap]; by rewrite lookup_empty, elem_of_nil|].
  rewrite foldl_app, fmap_app, elem_of_app. cbn [foldl fmap list_fmap]. rewrite list_elem_of_singleton.
  destruct (decide (av_ConsensusPubKey v = k)) as [<-|Hne].
  - rewrite lookup_insert_eq. split; [by right|done].
  - rewrite lookup_insert_ne by done. rewrite IH. split; [by left|by intros [?| ->]].
Qed.

Lemma old_powers_lookup from k p : NoDup (av_ConsensusPubKey <$> from) →
  old_powers from !! k = Some p ↔ ∃ v, v ∈ from ∧ v.(av_ConsensusPubKey) = k ∧ v.(av_Power) = p.
Proof.
  unfold old_powers. induction from as [|v from IH] using rev_ind; intros Hnd.
  - cbn [foldl]. rewrite lookup_empty. split; [done|]. by intros (v & Hv%not_elem_of_nil & _).
  - rewrite fmap_app, NoDup_app in Hnd. destruct Hnd as (Hnd & Hdis & _). specialize (IH Hnd).
    rewrite foldl_app. cbn [foldl]. setoid_rewrite elem_of_app. setoid_rewrite list_elem_of_singleton.
    destruct (decide (av_ConsensusPubKey v = k)) as [<-|Hne].
    + rewrite lookup_insert_eq. split; [intros [= <-]; by exists v; auto|].
      intros (w & [Hw| ->] & Hk & <-); [|done]. exfalso. apply (Hdis (av_ConsensusPubKey v)); [rewrite <- Hk; by apply list_elem_of_fmap_2|by left].
    + rewrite lookup_insert_ne by done. rewrite IH. split; [intros (w & ? & ? & ?); exists w; auto|].
      intros (w & [Hw| ->] & ? & ?); [by exists w|done].
Qed.

(** Updates with different keys do not interfere. *)
Lemma comet_apply_all m ups k :
  NoDup (vu_PubKey <$> ups) →
  foldl comet_apply m ups !! k =
    match list_find (λ u, u.(vu_PubKey) = k) ups with
    | Some (_, u) => if u.(vu_Power) =? 0 then None else Some u.(vu_Power)
    | None => m !! k
    end.
Proof.
  revert m. induction ups as [|u ups IH]; intros m Hnd; [done|]. rewrite fmap_cons, NoDup_cons in Hnd. destruct Hnd as [Hni Hnd].
  cbn [foldl]. rewrite IH by done. cbn [list_find]. destruct (decide (vu_PubKey u = k)) as [<-|Hne].
  - destruct (list_find _ ups) as [[i w]|] eqn:Hf.
    + apply list_find_Some in Hf as (Hw & Hk & _). destruct Hni. rewrite <- Hk. apply list_elem_of_fmap_2. by eapply list_elem_of_lookup_2.
    + unfold comet_apply. case_match; [by rewrite lookup_delete_eq|by rewrite lookup_insert_eq].
  - destruct (list_find _ ups) as [[i w]|]; [done|]. simpl.
    unfold comet_apply. case_match; [by rewrite lookup_delete_ne|by rewrite lookup_insert_ne].
Qed.

Lemma wf_bytes_nodup set : wf_set set → NoDup (key_bytes <$> (av_ConsensusPubKey <$> set)).
Proof.
  intros Hw. apply NoDup_fmap_2_strong; [|apply Hw].
  intros k k' (v & -> & Hv)%list_elem_of_fmap (v' & -> & Hv')%list_elem_of_fmap. apply key_bytes_inj; by apply Hw.
Qed.

Lemma set_map_lookup set k p : wf_set set →
  set_map set !! k = Some p ↔ ∃ v, v ∈ set ∧ key_bytes v.(av_ConsensusPubKey) = k ∧ v.(av_Power) = p.
Proof.
  intros Hw. unfold set_map. rewrite <- elem_of_list_to_map.
  - rewrite list_elem_of_fmap. split; [intros (v & [= -> ->] & Hv); by exists v|intros (v & Hv & <- & <-); by exists v].
  - pose proof (wf_bytes_nodup set Hw) as Hnd. rewrite <- list_fmap_compose in Hnd. change (map ?f ?l) with (f <$> l). rewrite <- list_fmap_compose. exact Hnd.
Qed.

(** What a successful [validatorUpdates] returns. *)
Definition updates_of (from to : list ActiveValidator) : list ValidatorUpdate :=
  (upd <$> filter (λ v, old_powers from !! v.(av_ConsensusPubKey) ≠ Some v.(av_Power)) to) ++
  (rem <$> filter (λ v, kept_keys to !! v.(av_ConsensusPubKey) ≠ Some true) from).

Lemma validatorUpdates_ok from to ups :
  (∀ v, v ∈ to → 0 < v.(av_Power)) → validatorUpdates from to = inl ups → ups = updates_of from to.
Proof.
  intros Hpos. unfold validatorUpdates, updates_of. destruct (changed_updates _ _) as [c|] eqn:Hc; [|done].
  destruct (removed_updates _ _) as [r|] eqn:Hr; [|done]. intros [= <-].
  by rewrite <- (changed_updates_filter _ _ _ Hpos Hc), <- (removed_updates_filter _ _ _ Hr).
Qed.

Section updates.
Context (from to : list ActiveValidator) (Hf : wf_set from) (Ht : wf_set to).

Lemma elem_updates u : u ∈ updates_of from to ↔
  (∃ v, v ∈ to ∧ old_powers from !! v.(av_ConsensusPubKey) ≠ Some v.(av_Power) ∧ u = upd v) ∨
  (∃ v, v ∈ from ∧ v.(av_ConsensusPubKey) ∉ av_ConsensusPubKey <$> to ∧ u = rem v).
Proof.
  unfold updates_of. rewrite elem_of_app, !list_elem_of_fmap. setoid_rewrite list_elem_of_filter. setoid_rewrite kept_keys_lookup.
  split; (intros [(v & ? & ?)|(v & ? & ?)]; [left|right]; exists v; tauto).
Qed.

(** No key is updated twice. *)
Lemma updates_nodup : NoDup (vu_PubKey <$> updates_of from to).
Proof.
  unfold updates_of. rewrite fmap_app, <- !list_fmap_compose.
  assert (∀ set (P : ActiveValidator → Prop) `{∀ v, Decision (P v)}, wf_set set →
    NoDup ((λ v, key_bytes v.(av_ConsensusPubKey)) <$> filter P set)) as Hnd.
  { intros set P ? Hw. pose proof (wf_bytes_nodup set Hw) as Hnd. rewrite <- list_fmap_compose in Hnd.
    apply NoDup_fmap_2_strong; [|apply NoDup_filter; by apply NoDup_fmap_1 in Hnd].
    intros x y [_ Hx]%list_elem_of_filter [_ Hy]%list_elem_of_filter Hk.
    apply list_elem_of_lookup in Hx as [i Hi], Hy as [j Hj].
    assert (i = j) as ->; [|congruence]. eapply (NoDup_lookup _ i j _ Hnd); rewrite list_lookup_fmap, ?Hi, ?Hj; simpl; [done|by f_equal]. }
  apply NoDup_app. split_and!; [by apply (Hnd to)| |by apply (Hnd from)].
  intros k (v & -> & [_ Hv]%list_elem_of_filter)%list_elem_of_fmap (w & Hk & [Hkeep Hw]%list_elem_of_filter)%list_elem_of_fmap.
  apply Hkeep, kept_keys_lookup. simpl in Hk. rewrite <- (key_bytes_inj _ _ (ws_key _ Ht v Hv) (ws_key _ Hf w Hw) Hk).
  by apply list_elem_of_fmap_2.
Qed.

(** Applying them to the old set gives the new one. *)
Lemma updates_apply : foldl comet_apply (set_map from) (updates_of from to) = set_map to.
Proof.
  apply map_eq. intros k. rewrite comet_apply_all by apply updates_nodup.
  destruct (list_find _ _) as [[i u]|] eqn:Hfind.
  - apply list_find_Some in Hfind as (Hu%list_elem_of_lookup_2 & <- & _).
    apply elem_updates in Hu as [(v & Hv & _ & ->)|(v & Hv & Hni & ->)]; simpl; symmetry.
    + pose proof (ws_power _ Ht v Hv). rewrite (proj2 (Z.eqb_neq _ _)) by lia. apply set_map_lookup; [done|]. by exists v.
    + destruct (set_map to !! _) as [p|] eqn:Hp; [|done]. apply set_map_lookup in Hp as (w & Hw & Hk & _); [|done].
      destruct Hni. rewrite <- (key_bytes_inj _ _ (ws_key _ Ht w Hw) (ws_key _ Hf v Hv) Hk). by apply list_elem_of_fmap_2.
  - apply list_find_None in Hfind. rewrite Forall_forall in Hfind.
    assert (∀ w, w ∈ to → key_bytes w.(av_ConsensusPubKey) = k → old_powers from !! w.(av_ConsensusPubKey) = Some w.(av_Power)) as Hsame.
    { intros w Hw Hk. apply dec_stable. intros Hne. apply (Hfind (upd w)); [|done]. apply elem_updates. left. by exists w. }
    apply option_eq. intros p. rewrite !set_map_lookup by done. split.
    + intros (v & Hv & Hk & Hp). destruct (decide (av_ConsensusPubKey v ∈ av_ConsensusPubKey <$> to)) as [(w & Hkw & Hw)%list_elem_of_fmap|Hni].
      * exists w. split_and!; [done|by rewrite <- Hkw|]. pose proof (Hsame w Hw ltac:(by rewrite <- Hkw)) as Ho.
        assert (old_powers from !! av_ConsensusPubKey w = Some p) as Ho'; [|congruence].
        apply old_powers_lookup; [apply Hf|]. by exists v.
      * exfalso. apply (Hfind (rem v)); [|done]. apply elem_updates. right. by exists v.
    + intros (w & Hw & Hk & Hp). pose proof (Hsame w Hw Hk) as Ho. apply old_powers_lookup in Ho as (v & Hv & Hkv & Hpv); [|apply Hf].
      exists v. rewrite Hkv. split_and!; [done|done|congruence].
Qed.

(** CometBFT refuses the removal of a key it does not have. *)
Lemma updates_removals u : u ∈ updates_of from to → 0 ≤ u.(vu_Power) ∧ (u.(vu_Power) = 0 → is_Some (set_map from !! u.(vu_PubKey))).
Proof.
  intros [(v & Hv & _ & ->)|(v & Hv & _ & ->)]%elem_updates; simpl; [pose proof (ws_power _ Ht v Hv); split; lia|].
  split; [done|]. intros _. exists v.(av_Power). apply set_map_lookup; [done|]. by exists v.
Qed.

End updates.

(* ------------------------------------------------------------------ *)
(** * Blocks and the ledger

    Blocks under CometBFT and the ledger: a finalized block keeps the
    invariants of the state and never creates coin, whatever bytes CometBFT
    hands over as transactions. *)

(* ------------------------------------------------------------------ *)
(** * Decoded transactions *)

Lemma get_uint64_range old v n : in_u64 old → get_uint64 old v = Some n → in_u64 n.
Proof.
  intros Ho. unfold get_uint64. destruct v as [| |raw| | |]; try done; [by intros [= <-]|].
  pose proof (ParseUint_range raw) as Hr. destruct (ParseUint raw) as [m [|]]; [done|]. by intros [= <-].
Qed.

Lemma put_tx_fields i v d d' : tx_fields d.(d_tx) → put_tx i v d = Some d' → tx_fields d'.(d_tx).
Proof.
  intros [Ha Hf Hn] Hp. unfold put_tx in Hp. cbv zeta in Hp.
  do 11 (destruct i as [|i]; [cbv iota in Hp; first
    [apply bind_Some in Hp as (x & Hx & [= <-]); split; simpl; first [done|eapply get_uint64_range; [|exact Hx]; done]
    |unfold put_metadata in Hp; destruct v as [| | | |[|]|]; try done;
       [injection Hp as <-|injection Hp as <-|apply bind_Some in Hp as (x & Hx & [= <-])]; by split]|]).
  apply bind_Some in Hp as (x & Hx & [= <-]). by split.
Qed.

(** Whatever was on the wire, a decoded transaction holds machine integers. *)
Lemma unmarshal_tx_fields raw tx : unmarshal_tx raw = Some tx → tx_fields tx.
Proof.
  unfold unmarshal_tx. intros (j & _ & (d & Hd & [= <-])%bind_Some)%bind_Some.
  assert (tx_fields zero_tx) as Hz by (split; split; vm_compute; discriminate).
  unfold get_struct in Hd. destruct j as [| | | | |l]; try done; [by injection Hd as <-|].
  assert (∀ s, tx_fields s.(d_tx) → ∀ s', set_fields tx_names put_tx l s = Some s' → tx_fields s'.(d_tx)) as Hl; [|by eapply Hl; [|exact Hd]].
  clear Hd Hz d. induction l as [|[k v] l IH]; intros s Hs s'; cbn [set_fields]; [by intros [= <-]|].
  destruct (field_index tx_names k) as [i|]; [|by apply IH].
  intros (s1 & Hs1 & Hrest)%bind_Some. eapply IH; [|exact Hrest]. by eapply put_tx_fields.
Qed.

Lemma decodeTx_fields a raw tx : decodeTx a raw = inl tx → tx_fields tx ∧ tx.(ChainID) = a.(txChainID).
Proof.
  unfold decodeTx. destruct (unmarshal_tx raw) as [t|] eqn:Hu; [|done]. destruct (Z.eqb_spec (ChainID t) (txChainID a)); [|done].
  intros [= <-]. split; [by eapply unmarshal_tx_fields|done].
Qed.

(* ------------------------------------------------------------------ *)
(** * Transactions *)

Section with_ed25519.
Context `{E : Ed25519}.

(** With stake consensus off no transaction touches the snapshot. *)
Lemma ApplyTransaction_snapshot tx ctx s :
  ledger_ok s → pools_ok s → tx_fields tx → ctx.(Staking).(ConsensusFromHeight) = 0 →
  wp (ApplyTransaction tx ctx) (λ _ s', s'.(ValidatorSetSnapshot) = s.(ValidatorSetSnapshot)) (λ _ _, True) s.
Proof.
  intros Hok Hpo Htx Hoff. unfold ApplyTransaction. apply wp_bind, wp_fail_if; [done|intros _]. cbv zeta. case_match.
  - destruct (Verify (with_block_time ctx tx)) as [t [[]|e]]; [|done].
    unfold applyValidatorTxCtx, applyValidatorEvidence, settle_validator. simpl. wp_go; try done; simpl.
    2: by match goal with |- ValidatorSetSnapshot (if ?b then _ else _) = _ => destruct b end.
    all: match goal with H : negb (ConsensusActiveAt _ _) = false |- _ => unfold ConsensusActiveAt in H; simpl in H; rewrite Hoff in H; done end.
  - eapply wp_mono; [apply ApplyTx_spec; try done| |done].
    + unfold with_block_time. case_match; [done|]. by destruct Htx.
    + intros [] s' (_ & [_ _ [_ ?] _ _]). done.
Qed.

Context `{A : CometAddress}.

(** The native coin the accepted transactions of a block create, each in the
    state it meets. *)
Fixpoint exec_minted (a : App) (ctx : TxContext) (raws : list string) (st : State) : Z :=
  match raws with
  | [] => 0
  | raw :: raws =>
      match exec_tx a ctx raw st with
      | (st', inl tx) => minted (sort_metadata tx) (Clone st) + exec_minted a ctx raws st'
      | (st', inr _) => exec_minted a ctx raws st'
      end
  end.

(** What a block of transactions leaves, [m] being the coin it created. *)
Record exec_post (full : bool) (p : ValidatorStakingParams) (m : Z) (st st' : State) (applied : list Tx) : Prop := {
  ex_world : world_rel full p st';
  ex_supply : supply st' ≤ supply st - lsum Fee applied + m;
  ex_auth : Forall tx_authentic applied;
  ex_fields : Forall tx_fields applied;
  ex_snapshot : st'.(ValidatorSetSnapshot) = st.(ValidatorSetSnapshot);
  ex_created : 0 ≤ m
}.

Section block.
Context (a : App) (ctx : TxContext) (full : bool) (p : ValidatorStakingParams).
Context (Hctx : ctx.(Staking) = p) (Hp : params_ok p) (Hoff : p.(ConsensusFromHeight) = 0).

Lemma exec_tx_payable raw st : payable st → payable (exec_tx a ctx raw st).1.
Proof.
  intros Hpay. unfold exec_tx. destruct (decodeTx a raw) as [tx|e]; [|done].
  pose proof (ApplyTransaction_payable tx ctx (Clone st)) as Hk. unfold wp in Hk.
  destruct (ApplyTransaction tx ctx (Clone st)) as [st' [[]|e]]; [|done]. by apply Hk.
Qed.

Lemma exec_minted_nonneg raws st : payable st → 0 ≤ exec_minted a ctx raws st.
Proof.
  revert st. induction raws as [|raw raws IH]; intros st Hpay; cbn [exec_minted]; [done|].
  pose proof (exec_tx_payable raw st Hpay) as Hp1. destruct (exec_tx a ctx raw st) as [st' [tx|e]]; cbn [fst] in *; [|by apply IH].
  specialize (IH st' Hp1). pose proof (minted_nonneg (sort_metadata tx) (Clone st) Hpay). lia.
Qed.

Lemma exec_tx_spec raw st :
  world_rel full p st →
  match exec_tx a ctx raw st with
  | (st', inl tx) => supply st + minted (sort_metadata tx) (Clone st) ≤ MaxUint64 → exec_post full p (minted (sort_metadata tx) (Clone st)) st st' [tx]
  | (st', inr _) => st' = st
  end.
Proof.
  intros Hw. unfold exec_tx. destruct (decodeTx a raw) as [tx|e] eqn:Hd; [|done].
  destruct (decodeTx_fields a raw tx Hd) as [Hf _]. destruct (world_ok_Clone full p st Hw) as [Hok Hpo Hr Hpay].
  rewrite <- Hctx in Hr. pose proof (po_slash _ Hp) as Hsl. rewrite <- Hctx in Hsl.
  destruct (ApplyTransaction tx ctx (Clone st)) as [st' [[]|e]] eqn:Hrun; [|done]. intros Hmax.
  destruct (wp_ok _ _ _ _ _ _ (ApplyTransaction_spec tx (Clone st) Hok Hpo Hf full ctx Hr Hsl) Hrun)
    as (Ha & _ & _ & ? & Hreg & Heff). destruct (Heff Hpay) as (Hpay' & Hsup & Hok'). rewrite Hctx in Hreg.
  pose proof (wp_ok _ _ _ _ _ _ (ApplyTransaction_snapshot tx ctx (Clone st) Hok Hpo Hf ltac:(by rewrite Hctx)) Hrun) as Hsn.
  rewrite supply_Clone in *. split; [split; try done; by apply Hok'|simpl; lia|by constructor..|exact Hsn|by apply minted_nonneg].
Qed.

Lemma exec_txs_spec raws st :
  world_rel full p st → supply st + exec_minted a ctx raws st ≤ MaxUint64 →
  let '(st', (results, applied)) := exec_txs a ctx raws st in
  exec_post full p (exec_minted a ctx raws st) st st' applied ∧ length results = length raws.
Proof.
  revert st. induction raws as [|raw raws IH]; intros st Hw Hs; cbn [exec_txs exec_minted] in *.
  - split; [|done]. split; try done. simpl. lia.
  - pose proof (exec_tx_spec raw st Hw) as H1. pose proof (exec_tx_payable raw st (w_payable _ _ _ Hw)) as Hp1.
    destruct (exec_tx a ctx raw st) as [st1 [tx|e]]; cbn [fst] in Hp1.
    + pose proof (exec_minted_nonneg raws st1 Hp1) as Hnn. destruct (H1 ltac:(lia)) as [Hw1 Hsup1 Ha1 Hf1 Hsn1 Hm1].
      inversion_clear Ha1. inversion_clear Hf1 as [|?? Hf _]. pose proof (tf_fee tx Hf) as [? _]. simpl lsum in Hsup1.
      specialize (IH st1 Hw1 ltac:(lia)).
      destruct (exec_txs a ctx raws st1) as [st2 [rs ap]]. destruct IH as [[? ? ? ? ? ?] ?].
      split; [|cbn; by f_equal]. split; [done|simpl lsum; lia|by constructor..|congruence|lia].
    + subst st1. specialize (IH st Hw Hs). destruct (exec_txs a ctx raws st) as [st2 [rs ap]]. cbn. by destruct IH as [? ->].
Qed.

End block.

(* ------------------------------------------------------------------ *)
(** * Fees *)

(** What the fee steps leave alone. *)
Definition quiet (s s' : State) : Prop :=
  ledger_ok s' ∧ fee_frame s s' ∧ s'.(TreasuryAddress) = s.(TreasuryAddress).

Lemma quiet_trans s1 s2 s3 : quiet s1 s2 → quiet s2 s3 → quiet s1 s3.
Proof. intros (? & ? & ?) (? & ? & ?). split_and!; [done|by eapply fee_frame_trans|congruence]. Qed.

Lemma record_votes_same vs st : ledger_ok st → quiet st (record_votes vs st) ∧ supply (record_votes vs st) = supply st.
Proof.
  unfold record_votes. revert st. induction vs as [|v vs IH]; intros st Hok; cbn [foldl].
  { split; [|done]. split_and!; [done|apply fee_frame_refl|done]. }
  assert (quiet st (record_vote v st) ∧ supply (record_vote v st) = supply st) as [Hq Hs].
  { unfold record_vote, RecordFeeEpochVote. cbv zeta. repeat case_match; (split; [|done]); split_and!; try done;
      try apply fee_frame_refl; by apply (ledger_ok_same st). }
  destruct (IH (record_vote v st) (proj1 Hq)) as [Hq' Hs']. split; [by eapply quiet_trans|by rewrite Hs'].
Qed.

(** Whatever the counters say, a payout only moves coin. *)
Lemma payout_quiet epoch st : ledger_ok st →
  quiet st (DistributeFeeEpochPayout epoch st).1 ∧ supply (DistributeFeeEpochPayout epoch st).1 = supply st.
Proof.
  intros Hok. unfold DistributeFeeEpochPayout. case_match.
  { split; [|done]. split_and!; [by apply (ledger_ok_same st)|by repeat split|done]. }
  assert (Forall (λ x : Address * Z, 0 ≤ x.2) (scaled_shares (Balance (Get st (TreasuryAddress st))) (epoch_shares st))) as Hnn.
  { unfold scaled_shares. cbv zeta. case_match; [apply Forall_map, Forall_true; intros; apply u64_range|].
    unfold epoch_shares. apply Forall_map, Forall_true. intros. apply u64_range. }
  pose proof (pay_all_ok epoch _ st Hok Hnn) as Hp. destruct (pay_all _ _ st) as [s' l]. cbn [fst].
  destruct Hp as (Hok' & Hs & Hf & HT & _). split; [|exact Hs].
  split_and!; [by apply (ledger_ok_same s')|by apply (fee_frame_trans _ s'); [|repeat split]|done].
Qed.

Lemma fee_epoch_spec height votes split st : ledger_ok st →
  quiet st (fee_epoch height votes split st).1 ∧ supply (fee_epoch height votes split st).1 = supply st.
Proof.
  intros Hok. unfold fee_epoch. case_match; [split; [|done]; by split_and!; [|apply fee_frame_refl|]|]. cbv zeta.
  destruct (record_votes_same votes st Hok) as [Hq Hs]. case_match; [|done].
  destruct (payout_quiet (u64 (height - FeeModelV2ActivationHeight) / FeeEpochBlocks) _ (proj1 Hq)) as [Hq' Hs'].
  destruct (DistributeFeeEpochPayout _ _) as [st' l]. split; [by eapply quiet_trans|cbn [fst] in *; by rewrite Hs', Hs].
Qed.

Lemma ApplyBlockFees_treasury txs proposer height st :
  wp (ApplyBlockFees txs proposer height) (λ _ s', s'.(TreasuryAddress) = st.(TreasuryAddress)) (λ _ _, True) st.
Proof. unfold ApplyBlockFees, creditProposerFees. wp_go; done. Qed.

Lemma world_quiet full p s s' : world_rel full p s → quiet s s' → world_rel full p s'.
Proof.
  intros [Hok Hpo Hr Hpay] (? & (_ & Hv & Hd & Hs & Hg & _) & _).
  split; [done|unfold pools_ok; by rewrite Hd|by apply (registry_ok_same full p s)|unfold payable; by rewrite Hg].
Qed.

(* ------------------------------------------------------------------ *)
(** * Misbehavior and the next set *)

(** A penalty breaks the clause about the snapshot until the set is
    replaced. *)
Lemma world_core full p s : world_rel full p s → world_rel false p s.
Proof. intros [? ? [H1 H2 _] ?]. by split; try done; split. Qed.

Definition slash_frame (s s' : State) : Prop :=
  s'.(ValidatorSetSnapshot) = s.(ValidatorSetSnapshot) ∧ s'.(TreasuryAddress) = s.(TreasuryAddress) ∧ supply s' ≤ supply s.

Section penalties.
Context (p : ValidatorStakingParams) (Hp : params_ok p).

Lemma SlashForDoubleSign_shape key bps st :
  SlashForDoubleSign key bps st = (st, (0, false)) ∨
  ∃ op r n, SlashForDoubleSign key bps st = (put_validator op r st, (n, true)).
Proof.
  unfold SlashForDoubleSign.
  destruct (ValidatorByConsensusKey st key) as [rec ok]. destruct (negb ok || Tombstoned rec); [by left|].
  destruct (slashAndTombstone rec bps) as [rec' n]. right. by exists (Operator rec), rec', n.
Qed.

Lemma SlashForDoubleSign_core key st :
  world_rel false p st →
  let '(st', (_, ok)) := SlashForDoubleSign key p.(SlashFractionBps) st in
  world_rel false p st' ∧ slash_frame st st' ∧ (ok = false → st' = st).
Proof.
  intros [Hok Hpo Hreg Hpay]. destruct (po_slash _ Hp) as [Hb _].
  destruct (SlashForDoubleSign_shape key (SlashFractionBps p) st) as [->|(op & r & n & Hrun)]; [by split_and!|rewrite Hrun].
  destruct (SlashForDoubleSign_spec false p key _ _ _ _ Hok Hreg Hb Hrun) as (Hok' & Hs & Hnn & op' & r' & Hr & _ & Hv & _).
  destruct (registry_slash st (mkCtx 0 p "") false Hok Hreg Hb op' r' _ Hr eq_refl) as [Hr1 Hr2 _].
  split_and!; [split; try done|split_and!; try done; lia|done].
  split; [rewrite Hv; exact Hr1|rewrite Hv; exact Hr2|done].
Qed.

Lemma slash_all_core addrs st :
  world_rel false p st →
  let '(st', any) := slash_all p.(SlashFractionBps) addrs st in
  world_rel false p st' ∧ slash_frame st st' ∧ (any = false → st' = st).
Proof.
  revert st. induction addrs as [|addr addrs IH]; intros st Hc; cbn [slash_all]; [by split_and!|].
  destruct (consensusKeyForAddress st addr) as [key|]; [|by apply IH].
  pose proof (SlashForDoubleSign_core key st Hc) as H1. destruct (SlashForDoubleSign key _ st) as [st1 [sl ok]].
  destruct H1 as (Hc1 & (Hf1 & Hf2 & Hf3) & Hn1). specialize (IH st1 Hc1). destruct (slash_all _ addrs st1) as [st2 any].
  destruct IH as (Hc2 & (? & ? & ?) & Hn2). split; [done|split; [split_and!; [congruence..|lia]|]]. intros [? ?]%orb_false_iff. rewrite Hn2, Hn1; done.
Qed.

(** A set computed from the registry is one CometBFT can take. *)
Lemma active_wf st : world_rel false p st → wf_set (ActiveValidatorSet st p).
Proof.
  intros Hw. destruct (all_active_ok _ p _ Hw) as (Hnd & _ & _). pose proof (active_member p st) as Hm.
  destruct Hw as [Hok Hpo Hreg _]. split.
  - rewrite ActiveValidatorSet_take. case_match; [|done]. rewrite fmap_take.
    rewrite <- (take_drop (Z.to_nat (MaxActiveValidators p)) (av_ConsensusPubKey <$> _)) in Hnd. by apply NoDup_app in Hnd as [? _].
  - intros v (b & r & Hr & -> & _)%Hm; [|apply Hp]. apply (reg_records _ _ _ Hreg b r Hr).
  - intros v (b & r & Hr & -> & _ & _ & Hne)%Hm; [|apply Hp]. apply (ok_validators st Hok) in Hr as [? _]. simpl. lia.
Qed.

Lemma snapshot_core full st : world_rel false p st → world_rel full p (ReplaceValidatorSetSnapshot (ActiveValidatorSet st p) st).
Proof.
  intros [Hok Hpo Hreg Hpay]. split; [by apply (ledger_ok_same st)|done| |done].
  split; [apply Hreg|apply Hreg|]. intros _ v b r Hv Hb Hk.
  destruct (active_member p st v (po_bond _ Hp) Hv) as (b' & r' & Hb' & -> & Ht & _).
  simpl in Hk. assert (b = b') as ->; [|simpl in Hb; congruence]. by eapply (reg_keys _ _ _ Hreg).
Qed.

End penalties.
End with_ed25519.
