(* ===== verification/CometRun.v ===== *)
(** Runs of the CometBFT application: InitChain, then mempool checks,
    finalized and committed blocks, failed writes and restarts in any order. *)
From stdpp Require Import base strings list gmap.
From S2P Require Import Prelude GoStd Sha256 Json JsonParse Types Ledger TxModel TxDecode.
From S2P Require Import Merkle Dex DexLedger.
From S2P Require Import Staking StakingFacts Apply ApplyFacts Fees Block Chain ChainFacts.
From S2P Require Import Comet CometFacts.

#[local] Open Scope string_scope.
#[local] Open Scope list_scope.
#[local] Open Scope Z_scope.

(* ------------------------------------------------------------------ *)
(** * One block *)

(** How the updates of a block relate the sets before and after. *)
Record set_change (from to : list ActiveValidator) (ups : list ValidatorUpdate) : Prop := {
  sc_apply : foldl comet_apply (set_map from) ups = set_map to;
  sc_nodup : NoDup (vu_PubKey <$> ups);
  sc_removals : ∀ u, u ∈ ups → 0 ≤ u.(vu_Power) ∧ (u.(vu_Power) = 0 → is_Some (set_map from !! u.(vu_PubKey)))
}.

Lemma set_change_refl set : set_change set set [].
Proof. split; [done|constructor|]. by intros u Hu%elem_of_nil. Qed.

Lemma set_change_updates from to ups :
  wf_set from → wf_set to → validatorUpdates from to = inl ups → set_change from to ups.
Proof.
  intros Hf Ht Hu. apply validatorUpdates_ok in Hu as ->; [|apply Ht].
  split; [by apply updates_apply|by apply updates_nodup|]. intros u. by apply updates_removals.
Qed.

Section with_crypto.
Context `{E : Ed25519} `{A : CometAddress}.

(** What holds of a state the application may commit; without the clause
    about the snapshot once [full] is lost. *)
Record state_inv (full : bool) (p : ValidatorStakingParams) (bound height : Z) (hash : string) (s : State) : Prop := {
  si_world : world_rel full p s;
  si_supply : supply s ≤ bound;
  si_set : wf_set s.(ValidatorSetSnapshot);
  si_hash : decodeRoot (Root s) = inl hash;
  si_treasury : FeeModelV2ActivationHeight ≤ height → s.(TreasuryAddress) ≠ ""
}.

Lemma world_less full full' p s : world_rel full p s → (full' = true → full = true) → world_rel full' p s.
Proof. intros Hw Hf. destruct full'; [by rewrite Hf in Hw|by eapply world_core]. Qed.

Lemma state_inv_less full full' p bound bound' height hash s :
  state_inv full p bound height hash s → (full' = true → full = true) → bound ≤ bound' → state_inv full' p bound' height hash s.
Proof. intros [? ? ? ? ?] ? ?. split; try done; [by eapply world_less|lia]. Qed.

Section block.
Context (p : ValidatorStakingParams) (Hp : params_ok p) (Hoff : p.(ConsensusFromHeight) = 0).

(** The active set of a state is not empty. *)
Definition active (st : State) : bool := bool_decide (ActiveValidatorSet st p ≠ []).

Lemma next_set_spec full height any st st' ups :
  world_rel false p st → wf_set st.(ValidatorSetSnapshot) → (any = false → world_rel full p st) →
  next_set p height any st = (st', inl ups) →
  world_rel (full && active st') p st' ∧ supply st' = supply st ∧ st'.(TreasuryAddress) = st.(TreasuryAddress) ∧
  wf_set st'.(ValidatorSetSnapshot) ∧ set_change st.(ValidatorSetSnapshot) st'.(ValidatorSetSnapshot) ups.
Proof.
  intros Hc Hwf Hreg. unfold next_set. case_match; [done|].
  destruct (any || _) eqn:Hany; [|intros [= <- <-]; apply orb_false_iff in Hany as [-> _]; split_and!; try done; [|apply set_change_refl]].
  2: { eapply world_less; [by apply Hreg|]. by intros [? _]%andb_true_iff. }
  cbv zeta. case_bool_decide as Hl.
  { intros [= <- <-]. split_and!; try done; [|apply set_change_refl]. eapply world_less; [exact Hc|].
    intros [_ Ha%bool_decide_eq_true]%andb_true_iff. by destruct (ActiveValidatorSet st p). }
  destruct (validatorUpdates _ _) as [u|] eqn:Hu; [|done]. intros [= <- <-]. pose proof (active_wf p Hp st Hc) as Hwf'.
  split_and!; try done; [by apply snapshot_core|by apply set_change_updates].
Qed.

(** What a finalized block leaves, [m] being the coin it created. *)
Record finalize_post (full : bool) (m : Z) (st : State) (req : RequestFinalizeBlock) (resp : ResponseFinalizeBlock) (st' : State) : Prop := {
  fp_world : world_rel (full && active st') p st';
  fp_supply : supply st' ≤ supply st + m;
  fp_set : wf_set st'.(ValidatorSetSnapshot);
  fp_change : set_change st.(ValidatorSetSnapshot) st'.(ValidatorSetSnapshot) resp.(ValidatorUpdates);
  fp_hash : decodeRoot (Root st') = inl resp.(AppHash);
  fp_treasury : FeeModelV2ActivationHeight ≤ req.(rf_Height) → st'.(TreasuryAddress) ≠ "";
  fp_results : length resp.(TxResults) = length req.(rf_Txs)
}.

(** The coin a block creates on top of the committed state. *)
Definition req_minted (a : App) (req : RequestFinalizeBlock) (st : State) : Z :=
  exec_minted a (txContext a req.(rf_Height) req.(rf_Time)) req.(rf_Txs) st.

Lemma finalize_state_spec full a req st :
  a.(staking) = p → world_rel full p st → wf_set st.(ValidatorSetSnapshot) → supply st + req_minted a req st ≤ MaxUint64 →
  wp (finalize_state a req) (finalize_post full (req_minted a req st) st req) (λ _ _, True) st.
Proof.
  intros Ha Hw Hwf Hs. unfold finalize_state. cbv zeta. apply wp_bind, wp_gets, wp_bind. unfold req_minted in *. set (ctx := txContext _ _ _) in *.
  pose proof (exec_txs_spec a ctx full p Ha Hp Hoff (rf_Txs req) st Hw Hs) as Hex. unfold wp at 1.
  destruct (exec_txs a ctx (rf_Txs req) st) as [st1 [results applied]]. destruct Hex as [[Hw1 Hs1 Hau Hf Hsn1 Hm] Hlen]. cbv beta.
  apply wp_bind, wp_gets, wp_bind, wp_fail_if; [done|intros HT].
  assert (∀ tx, tx ∈ applied → 0 ≤ tx.(Fee)) as Hfee by (intros tx Hin; by apply (proj1 (Forall_forall _ _) Hf tx Hin)).
  pose proof (lsum_nonneg Fee applied Hfee) as Hnn.
  apply wp_bind. eapply wp_mono; [apply wp_and; [apply ApplyBlockFees_spec; [apply Hw1|done|lia]|apply ApplyBlockFees_treasury]| |done].
  intros split st2 [(Hok2 & Hfr2 & _ & Hsum & ? & ? & ? & Hs2) HT2]. assert (quiet st1 st2) as Hq2 by by split_and!.
  apply wp_bind. unfold wp at 1. destruct (fee_epoch_spec (rf_Height req) (rf_Votes req) split st2 Hok2) as [Hq3 Hs3].
  destruct (fee_epoch _ _ _ st2) as [st3 events]. cbn [fst] in *. pose proof (quiet_trans _ _ _ Hq2 Hq3) as Hq.
  pose proof (world_quiet full p _ _ Hw1 Hq) as Hw3. destruct Hq as (_ & (_ & _ & _ & Hsn3 & _) & HT3).
  apply wp_bind. unfold wp at 1. rewrite Ha. pose proof (slash_all_core p Hp (rf_Misbehavior req) st3 (world_core _ _ _ Hw3)) as Hsl.
  destruct (slash_all _ _ st3) as [st4 any]. destruct Hsl as (Hc4 & (Hsn4 & HT4 & Hs4) & Hany).
  apply wp_bind. apply wp_intro; [|done]. intros st5 ups Hnext.
  destruct (next_set_spec full (rf_Height req) any st4 st5 ups Hc4 ltac:(rewrite Hsn4, Hsn3, Hsn1; done)
    ltac:(intros Hf0; rewrite (Hany Hf0); apply Hw3) Hnext) as (Hc5 & Hs5 & HT5 & Hwf5 & Hch).
  apply wp_bind, wp_get, wp_bind, wp_lift; [|done]. intros hash Hh. apply wp_ret.
  rewrite Hsn4, Hsn3, Hsn1 in Hch. split; simpl; try done; [lia|].
  intros Hge. rewrite HT5, HT4, HT3. apply (proj2 (Z.leb_le _ _)) in Hge. rewrite Hge in HT. simpl in HT. by apply bool_decide_eq_false in HT.
Qed.

End block.

(* ------------------------------------------------------------------ *)
(** * Genesis *)

(** The coin a genesis describes, and when its numbers make sense. *)
Definition genesis_coin (g : AppGenesis) : Z :=
  match g.(InitialState) with None => msum id g.(ag_Chain).(Alloc) | Some st => supply st end.

Record genesis_sane (g : AppGenesis) : Prop := {
  gs_params : params_ok g.(ag_Staking);
  gs_state :
    match g.(InitialState) with
    | None => map_Forall (λ _ b, 0 ≤ b) g.(ag_Chain).(Alloc) ∧ msum id g.(ag_Chain).(Alloc) ≤ MaxUint64
    | Some st => ledger_ok st ∧ pools_ok st ∧ payable st
    end;
  gs_validators : Forall (λ v, v.(gv_Operator) ≠ "" ∧ g.(ag_Staking).(MinSelfBond) ≤ v.(gv_SelfBond)) g.(ag_Validators)
}.

Lemma BondGenesisValidator_frame op key bond mo en st :
  wp (BondGenesisValidator op key bond mo en)
    (λ _ s', s'.(DEXPools) = st.(DEXPools) ∧ s'.(ValidatorSetSnapshot) = st.(ValidatorSetSnapshot) ∧
      s'.(GovernanceProposals) = st.(GovernanceProposals)) (λ _ _, True) st.
Proof. unfold BondGenesisValidator. wp_go; done. Qed.

Lemma bond_all_spec p vs st :
  world_ok p st → st.(ValidatorSetSnapshot) = [] → 0 ≤ p.(MinSelfBond) →
  Forall (λ v, v.(gv_Operator) ≠ "" ∧ p.(MinSelfBond) ≤ v.(gv_SelfBond)) vs →
  wp (bond_all vs) (λ _ s', world_ok p s' ∧ supply s' = supply st ∧ s'.(ValidatorSetSnapshot) = []) (λ _ _, True) st.
Proof.
  intros Hw Hsn Hmin Hvs. revert st Hw Hsn. induction Hvs as [|v vs [Hop Hb] _ IH]; intros st Hw Hsn; [done|].
  destruct Hw as [Hok Hpo Hr Hpay]. cbn [bond_all]. apply wp_bind.
  eapply wp_mono; [apply wp_and; [by apply (BondGenesisValidator_spec p); [..|lia|]|apply BondGenesisValidator_frame]| |done].
  intros [] s1 [(Hok1 & Hr1 & Hs1 & _) (Hd1 & Hsn1 & Hg1)]. eapply wp_mono; [apply IH| |done].
  - split; [done|unfold pools_ok; by rewrite Hd1|done|unfold payable; by rewrite Hg1].
  - by rewrite Hsn1.
  - intros [] s2 (? & ? & ?). split_and!; [done|congruence|done].
Qed.

Lemma Genesis_Validate_ok g : Genesis_Validate g = inl tt →
  validate_source g = inl tt ∧ g.(ag_Staking).(ConsensusFromHeight) = 0.
Proof.
  unfold Genesis_Validate. destruct (validate_source g) as [[]|]; [|done]. case_match; [done|]. case_match eqn:Hc; [done|].
  apply negb_false_iff, Z.eqb_eq in Hc. done.
Qed.

Lemma startState_spec g st :
  genesis_sane g → validate_source g = inl tt → startState g = inl st →
  world_ok g.(ag_Staking) st ∧ supply st = genesis_coin g ∧ st.(ValidatorSetSnapshot) = [].
Proof.
  intros [_ Hst _] Hval. unfold startState, genesis_coin, validate_source in *. destruct (InitialState g) as [s0|].
  - repeat (case_match; [done|]). apply orb_false_iff in H2 as [Hv%negb_false_iff Hsn%negb_false_iff].
    apply bool_decide_eq_true, map_size_empty_iff in Hv. apply bool_decide_eq_true, nil_length_inv in Hsn.
    destruct Hst as (Hok & Hpo & Hpay). intros [= <-]. rewrite supply_Clone. split_and!; [|done|done].
    apply world_ok_Clone. split; [done|done|by apply registry_ok_empty|done].
  - intros Hs. destruct Hst as [Hpos Hmax]. destruct (Genesis.ToState_ok _ _ Hs Hpos Hmax) as (Hok & Hd & Hv & Hsn).
    split_and!; [|by apply Genesis.ToState_supply|done].
    split; [done|unfold pools_ok; rewrite Hd; apply map_Forall_empty|by apply registry_ok_empty|].
    unfold payable. rewrite (Genesis.ToState_proposals _ _ Hs). apply map_Forall_empty.
Qed.

Lemma genesis_world_spec g st ups hash :
  genesis_sane g → genesis_world g = inl (st, ups, hash) →
  state_inv true g.(ag_Staking) (genesis_coin g) 0 hash st ∧ set_change [] st.(ValidatorSetSnapshot) ups ∧
  g.(ag_Staking).(ConsensusFromHeight) = 0.
Proof.
  intros Hg Hrun. unfold genesis_world in Hrun. destruct (Genesis_Validate g) as [[]|] eqn:Hv; [|done].
  apply Genesis_Validate_ok in Hv as [Hv Hoff]. destruct (startState g) as [st0|] eqn:Hs; [|done].
  destruct (startState_spec g st0 Hg Hv Hs) as (Hw & Hsup & Hsn). pose proof (gs_params g Hg) as Hp.
  pose proof (bond_all_spec _ (ag_Validators g) st0 Hw Hsn (po_bond _ Hp) (gs_validators g Hg)) as Hb. unfold wp in Hb.
  destruct (bond_all (ag_Validators g) st0) as [st1 [[]|]]; [|done]. destruct Hb as (Hw1 & Hs1 & _). cbv zeta in Hrun.
  case_match; [done|]. destruct (validatorUpdates [] _) as [u|] eqn:Hu; [|done].
  destruct (decodeRoot _) as [h|] eqn:Hh; [|done]. injection Hrun as <- <- <-.
  pose proof (active_wf _ Hp _ (world_core _ _ _ Hw1)) as Hwf. split_and!; [|apply set_change_updates; try done|done].
  - split; [by eapply snapshot_core, world_core| |done|done|unfold FeeModelV2ActivationHeight; lia].
    change (supply st1 ≤ genesis_coin g). lia.
  - split; [constructor|..]; by intros v Hin%elem_of_nil.
Qed.

(* ------------------------------------------------------------------ *)
(** * Runs *)

(** [comet_run g m full a disk]: started from genesis [g], the application has
    come to [a], and the state file holds [disk]. [m] is the native coin the
    blocks it executed created, which has to leave the total within 64 bits,
    and [full] is lost by a block that leaves no validator active: the
    application then keeps the old set. *)
Inductive comet_run (g : AppGenesis) : Z → bool → App → option persisted → Prop :=
  | run_init dir chainId a resp : InitChain (empty_app dir) chainId (inl g) = (a, inl resp) → comet_run g 0 true a None
  | run_check m full now raw a disk : comet_run g m full a disk → comet_run g m full (CheckTx now raw a).1 disk
  | run_finalize m full req st st' a a' resp disk :
      comet_run g m full a disk → a.(committed) = Some st →
      let m' := m + req_minted a req (Clone st) in
      genesis_coin g + m' ≤ MaxUint64 →
      FinalizeBlock req a = (a', inl resp) → a'.(pending) = Some st' →
      comet_run g m' (full && active a.(staking) st') a' disk
  | run_refuse m full req a e disk : comet_run g m full a disk → (FinalizeBlock req a).2 = inr e → comet_run g m full (FinalizeBlock req a).1 disk
  | run_commit m full io a a' file disk :
      comet_run g m full a disk → Commit io a = (a', inl file) →
      comet_run g m full a' (match file with Some f => Some f | None => disk end)
  | run_write_failed m full io a a' e disk : comet_run g m full a disk → Commit io a = (a', inr e) → comet_run g m full a' disk
  | run_restart m full a a' f :
      comet_run g m full a (Some f) → New a.(dataDir) (FileRead f) = inl a' → comet_run g m full a' (Some f).

Definition file_app (full : bool) (g : AppGenesis) (bound : Z) (f : persisted) : Prop :=
  f.(ps_Staking) = g.(ag_Staking) ∧
  ∃ s hash, f.(ps_State) = Some s ∧ f.(ps_AppHash) = hex0x hash ∧
    state_inv full g.(ag_Staking) bound f.(ps_Height) hash s.

Record app_inv (full : bool) (g : AppGenesis) (bound : Z) (a : App) (disk : option persisted) : Prop := {
  ai_staking : a.(staking) = g.(ag_Staking);
  ai_committed : ∃ s, a.(committed) = Some s ∧ state_inv full g.(ag_Staking) bound a.(a_height) a.(appHash) s;
  ai_pending : ∀ s, a.(pending) = Some s → state_inv full g.(ag_Staking) bound a.(pendingHeight) a.(pendingAppHash) s;
  ai_disk : ∀ f, disk = Some f → a.(dataDir) ≠ "" ∧ file_app full g bound f
}.

Lemma app_inv_less full full' g bound bound' a disk :
  app_inv full g bound a disk → (full' = true → full = true) → bound ≤ bound' → app_inv full' g bound' a disk.
Proof.
  intros [Hsk (s & Hs & Hi) Hpe Hd] Hf Hb. split; [done|exists s; split; [done|by eapply state_inv_less]|intros s' Hs'; by eapply state_inv_less; [apply Hpe|..]|].
  intros f Hf'. destruct (Hd f Hf') as (? & ? & s' & hash & ? & ? & ?). split; [done|]. split; [done|]. exists s', hash. split_and!; [done..|by eapply state_inv_less].
Qed.

Lemma decodeRoot_hex0x b : decodeRoot (hex0x b) = inl b.
Proof. unfold decodeRoot. by rewrite TrimPrefix_hex0x, hexDecode_hexEncode. Qed.

Lemma Root_of_hash s hash : decodeRoot (Root s) = inl hash → Root s = hex0x hash.
Proof. unfold Root. rewrite decodeRoot_hex0x. by intros [= <-]. Qed.

(** A file that [Commit] wrote is always accepted, and gives back what was
    committed. *)
Lemma resume full g bound dir f :
  dir ≠ "" → file_app full g bound f →
  ∃ a, New dir (FileRead f) = inl a ∧ a.(staking) = g.(ag_Staking) ∧ a.(committed) = f.(ps_State) ∧
    a.(a_chainID) = f.(ps_ChainID) ∧ a.(txChainID) = f.(ps_TxChainID) ∧
    a.(a_height) = f.(ps_Height) ∧ hex0x a.(appHash) = f.(ps_AppHash) ∧ a.(pending) = None ∧ a.(dataDir) = dir.
Proof.
  intros Hdir (Hst & s & hash & Hs & Hh & [_ _ _ Hroot HT]). unfold New, empty_str. rewrite bool_decide_eq_false_2 by done.
  rewrite Hh, decodeRoot_hex0x, Hs, bool_decide_eq_true_2 by by apply Root_of_hash. simpl.
  destruct (Z.leb_spec FeeModelV2ActivationHeight (ps_Height f)) as [Hle|Hgt]; simpl.
  - rewrite bool_decide_eq_false_2 by auto. eexists. split; [done|]. by split_and!.
  - eexists. split; [done|]. by split_and!.
Qed.

Lemma FinalizeBlock_inv full g bound a disk req st a' resp :
  genesis_sane g → g.(ag_Staking).(ConsensusFromHeight) = 0 → app_inv full g bound a disk → a.(committed) = Some st →
  bound + req_minted a req (Clone st) ≤ MaxUint64 → FinalizeBlock req a = (a', inl resp) →
  ∃ st', a' = set_pending st' req.(rf_Height) resp.(AppHash) a ∧ supply st ≤ bound ∧ 0 ≤ req_minted a req (Clone st) ∧
    finalize_post g.(ag_Staking) full (req_minted a req (Clone st)) (Clone st) req resp st'.
Proof.
  intros Hg Hoff [Hsk (s & Hs & [Hw Hsup Hwf _ _]) _ _] Hst Hmax. unfold FinalizeBlock. rewrite Hst in *. injection Hs as <-.
  pose proof (finalize_state_spec _ (gs_params g Hg) Hoff full a req (Clone st) Hsk (world_ok_Clone _ _ _ Hw) Hwf ltac:(rewrite supply_Clone; lia)) as Hfin.
  unfold wp in Hfin. destruct (finalize_state a req (Clone st)) as [st' [r|]]; [|done]. intros [= <- <-]. exists st'. split_and!; try done.
  apply exec_minted_nonneg. apply (w_payable _ _ _ Hw).
Qed.

Lemma comet_run_off g m full a disk : comet_run g m full a disk → genesis_sane g → g.(ag_Staking).(ConsensusFromHeight) = 0.
Proof.
  induction 1 as [dir cid a resp Hi| | | | | |]; auto. intros Hg. unfold InitChain in Hi. case_match; [done|].
  destruct (genesis_world g) as [[[st ups] hash]|] eqn:Hw; [|done]. by apply genesis_world_spec in Hw as (_ & _ & ?).
Qed.

Lemma Commit_inv full g bound io a disk a' r : app_inv full g bound a disk → Commit io a = (a', r) →
  app_inv full g bound a' disk ∧ (∀ f, r = inl (Some f) → a'.(dataDir) ≠ "" ∧ file_app full g bound f) ∨ a' = a ∧ ∃ e, r = inr e.
Proof.
  intros [Hsk Hc Hpe Hd]. unfold Commit. destruct (pending a) as [st|] eqn:Hp; [|intros [= <- <-]; right; split; [done|by eexists]].
  specialize (Hpe st eq_refl). cbv zeta. set (a1 := mkApp _ _ _ _ _ _ _ _ _ _ _). intros Hrun. left.
  assert (a' = a1 ∧ (∀ f, r = inl (Some f) → persistLocked a1 = Some f)) as [-> Hr].
  { destruct (persistLocked a1), io; injection Hrun as <- <-; split; done || by intros ? [= <-]. }
  split; [split; [done|by exists st|done|done]|]. intros f Hf. specialize (Hr f Hf). unfold persistLocked in Hr. case_match eqn:He; [done|].
  injection Hr as <-. apply bool_decide_eq_false in He. split; [done|]. split; [done|]. by exists st, (pendingAppHash a).
Qed.

Lemma comet_run_inv g m full a disk : genesis_sane g → comet_run g m full a disk → app_inv full g (genesis_coin g + m) a disk.
Proof.
  intros Hg Hrun. pose proof (comet_run_off g m full a disk Hrun Hg) as Hoff.
  induction Hrun as [dir cid a resp Hi|m full now raw a disk _ IH|m full req st st' a a' resp disk _ IH Hst m' Hmax Hf Hp|m full req a e disk _ IH He
    |m full io a a' file disk _ IH Hc|m full io a a' e disk _ IH Hc|m full a a' f _ IH Hn].
  - unfold InitChain in Hi. case_match; [done|]. destruct (genesis_world g) as [[[st ups] hash]|] eqn:Hw; [|done].
    apply genesis_world_spec in Hw as (Hs & _ & _); [|done]. injection Hi as <- _. rewrite Z.add_0_r. split; [done|by exists st|done|done].
  - destruct IH as [? ? ? ?]. unfold CheckTx. repeat case_match; by split.
  - subst m'. rewrite Z.add_assoc in *.
    destruct (FinalizeBlock_inv full g _ a disk req st a' resp Hg Hoff IH Hst Hmax Hf) as (s' & -> & Hb & Hm & [Hcore Hsup Hwf _ Hh HT _]).
    injection Hp as ->. rewrite supply_Clone in Hsup. rewrite (ai_staking _ _ _ _ _ IH).
    eapply (app_inv_less _ (full && active g.(ag_Staking) st') _ _ (genesis_coin g + m + req_minted a req (Clone st))) in IH; [|by intros [? _]%andb_true_iff|lia].
    destruct IH as [Hsk Hcm _ Hd]. split; [done|exact Hcm| |done]. intros s1 [= <-]. split; try done. lia.
  - unfold FinalizeBlock in *. by repeat case_match.
  - destruct (Commit_inv full g _ io a disk a' _ IH Hc) as [[Hi Hf]|[-> [e He]]]; [|done].
    destruct file as [f|]; [|done]. specialize (Hf f eq_refl). destruct Hi as [? ? ? ?]. split; [done..|]. by intros f' [= <-].
  - destruct (Commit_inv full g _ io a disk a' _ IH Hc) as [[Hi _]|[-> _]]; done.
  - destruct (ai_disk _ _ _ a _ IH f eq_refl) as [Hdir Hf]. destruct (resume full g _ (dataDir a) f Hdir Hf) as (a1 & Hn' & Hsk & Hcm & _ & _ & Hht & Hh & Hpe & Hdd).
    assert (a1 = a') as <- by congruence. destruct Hf as (Hst & s & hash & Hs & Hah & Hinv).
    rewrite Hah in Hh. apply hex0x_inj in Hh. split; [done| |by rewrite Hpe|].
    + exists s. rewrite Hcm, Hs, Hht, Hh. done.
    + intros f' [= <-]. rewrite Hdd. split; [done|]. split; [done|]. by exists s, hash.
Qed.

End with_crypto.
