(* ===== verification/Examples.v ===== *)
(** Concrete data the witnesses of the theorems run on: a stand-in for
    Ed25519 that satisfies what the development assumes of it, keys, signed
    transactions and small ledgers; a small chain (three registered validators,
    a genesis with two accounts, one waiting transfer, and the block built,
    signed and finalized from it) with its stake-mode counterpart; and the
    nodes of that chain with the blocks they propose. *)
From stdpp Require Import base strings list gmap.
From S2P Require Import Prelude GoStd Sha256 Json Types Ledger TxModel Dex DexLedger Merkle.
From S2P Require Import Staking StakingFacts Apply ApplyFacts Fees Block Messages Network.
From S2P Require Import Engine Chain ChainFacts ChainBuild ChainWindow ChainRun Agent Node.

#[local] Open Scope string_scope.
#[local] Open Scope Z_scope.

(** A deterministic scheme in which the tag is a digest of the public key and
    the message. It has the functional behaviour of Ed25519 and none of its
    security, which the theorems do not rely on. *)
#[global] Instance ToyEd25519 : Ed25519 := {|
  ed_Public priv := sha256 priv;
  ed_Sign priv msg := sha256 (sha256 priv +:+ msg) +:+ sha256 (msg +:+ sha256 priv);
  ed_Verify pub msg sg := bool_decide (sg = sha256 (pub +:+ msg) +:+ sha256 (msg +:+ pub))
|}.

Lemma length_append s t : String.length (s +:+ t) = (String.length s + String.length t)%nat.
Proof. induction s as [|c s IH]; [done|]. change (String c s +:+ t) with (String c (s +:+ t)). simpl. by rewrite IH. Qed.

#[global] Instance ToyEd25519Correct : Ed25519Correct ToyEd25519.
Proof.
  split; simpl; intros.
  - apply length_sha256.
  - by rewrite length_append, !length_sha256.
  - by rewrite bool_decide_eq_true.
Qed.

(* ------------------------------------------------------------------ *)
(** * Keys and transactions *)

Definition key_of (name : string) : string := ed_Public name.
Definition addr_of (name : string) : Address := AddressFromPublicKey (key_of name).

Definition alice : Address := Eval vm_compute in addr_of "alice".
Definition bob : Address := Eval vm_compute in addr_of "bob".

(** A transaction of [name], not yet signed. *)
Definition draft (name : string) (to : Address) (amount fee nonce : Z) (asset : string)
    (md : list KeyValuePair) : Tx :=
  mkTx "" 7 (addr_of name) to amount fee nonce (hex0x (key_of name)) "" asset md 1000.

Definition signed (name : string) (t : Tx) : Tx := (Sign name t).1.

Definition transfer_tx : Tx := Eval vm_compute in signed "alice" (draft "alice" bob 500 10 0 "" []).

(* ------------------------------------------------------------------ *)
(** * Ledgers *)

Definition ledger0 : State :=
  set_Accounts (<[alice := mkAccount 1000000 None 0]> (<[bob := mkAccount 2000 None 0]> ∅)) NewState.

Definition ctx0 : TxContext := mkTxContext 5 "synthos-test" (mkParams 0 0 0 0 0 0 0 0) 1700000000.

(** Checkable forms of the invariants. *)
Definition ledger_okb (s : State) : bool :=
  bool_decide (map_Forall (λ _ a, 0 ≤ a.(Balance)) s.(Accounts)) &&
  bool_decide (map_Forall (λ _ c, 0 ≤ c.(cs_Amount)) s.(CitizenStakes)) &&
  bool_decide (map_Forall (λ _ r, 0 ≤ r.(SelfBond) ∧ Forall (λ e, 0 ≤ e.(ub_Amount)) r.(Unbonding)) s.(Validators)) &&
  (supply s <=? MaxUint64).

Lemma ledger_okb_ok s : ledger_okb s = true → ledger_ok s.
Proof.
  unfold ledger_okb. rewrite !andb_true_iff, !bool_decide_eq_true, Z.leb_le. intros [[[H1 H2] H3] H4].
  by split.
Qed.

(** A run that ends normally, by its outcome alone. *)
Lemma run_ok {S A} (m : SM S A) s a : (m s).2 = inl a → m s = ((m s).1, inl a).
Proof. destruct (m s) as [s' r]. by simpl; intros ->. Qed.

Lemma run_err {S A} (m : SM S A) s e : (m s).2 = inr e → m s = ((m s).1, inr e).
Proof. destruct (m s) as [s' r]. by simpl; intros ->. Qed.

Example transfer_runs : (ApplyTransaction transfer_tx ctx0 ledger0).2 = inl tt.
Proof. vm_compute. reflexivity. Qed.

(* ------------------------------------------------------------------ *)
(** * A small chain *)

Definition genesis0 : Genesis :=
  mkGenesis "synthos-test" 7 (<[alice := 1000000]> (<[bob := 2000]> ∅)) ∅.

Definition chain_or (r : res Chain) (d : Chain) : Chain := match r with inl c => c | inr _ => d end.

Definition no_chain : Chain :=
  mkChain "" 0 NewState ∅ [] ∅ ∅ 0 None 0 0 [] (mkParams 0 0 0 0 0 0 0 0) 0 0 None None None.

Definition chain0 : Chain := Eval vm_compute in chain_or (NewChain genesis0) no_chain.

(** Three validators, two approvals needed. *)
Definition roster : gmap string string :=
  Eval vm_compute in <["v1" := key_of "v1"]> (<["v2" := key_of "v2"]> (<["v3" := key_of "v3"]> ∅)).

Definition clock : Time := Unix 1700000000.

Definition chain1 : Chain :=
  Eval vm_compute in (SubmitTx 1700000000 transfer_tx (SetValidatorSet roster 2 chain0)).1.

Definition block_or (r : res Block) : Block :=
  match r with inl b => b | inr _ => genesis_block genesis0 NewState end.

Definition draft1 : Block := Eval vm_compute in block_or (BuildBlock clock "v1" "" 10 chain1).

Definition proposal1 : Block := Eval vm_compute in sign_proposal (hex0x (ed_Sign "v1" draft1.(Hash))) draft1.

(** The approvals of the validators [names]. *)
Definition approve (names : list string) (b : Block) : Block :=
  mkBlock b.(Header) b.(b_Tx) b.(Hash) b.(ValidatorVotes) b.(Finalized) b.(ProposerSignature)
    (list_to_map (map (λ n, (n, hex0x (ed_Sign n (QuorumApprovalMessage b)))) names)).

Definition block1 : Block := Eval vm_compute in approve ["v1"; "v2"] proposal1.

Example block1_finalizes : (FinalizeBlock clock chain1 block1).2 = inl tt.
Proof. vm_compute. reflexivity. Qed.

(** One approval is not enough. *)
Example one_approval : (FinalizeBlock clock chain1 (approve ["v1"; "mallory"] proposal1)).2
  = inr (Err "bad block: not enough validator approvals").
Proof. vm_compute. reflexivity. Qed.

(* ------------------------------------------------------------------ *)
(** * Stake mode *)

Definition stake_params : ValidatorStakingParams := mkParams 1 100 10 21 1 50 500 1000.

Definition staked (name : string) (power : Z) : ActiveValidator :=
  mkActive (addr_of name) (hex0x (key_of name)) name "" power.

Definition stake_set : list ActiveValidator :=
  Eval vm_compute in [staked "v1" 4000; staked "v2" 3000; staked "v3" 3000].

Definition stake_chain : Chain :=
  Eval vm_compute in
    set_State (set_ValidatorSetSnapshot stake_set chain1.(c_State)) (set_validatorStaking stake_params chain1).

(** The block [name] proposes, with the approvals of [names], in stake mode. *)
Definition stake_block (name : string) (names : list string) (maxTx : Z) (c : Chain) : Block :=
  let b := block_or (BuildBlock clock (hex0x (key_of name)) "" maxTx c) in
  let h := b.(Header).(Height) in
  mkBlock b.(Header) b.(b_Tx) b.(Hash) b.(ValidatorVotes) b.(Finalized)
    (hex0x (ed_Sign name (StakeProposalMessage c.(c_ChainID) h b.(Hash))))
    (list_to_map (map (λ n, (hex0x (key_of n), hex0x (ed_Sign n (StakeApprovalMessage c.(c_ChainID) h b.(Hash))))) names)).

Definition stake_block_a : Block := Eval vm_compute in stake_block "v1" ["v1"; "v2"] 10 stake_chain.
Definition stake_block_b : Block :=
  Eval vm_compute in stake_block "v1" ["v1"; "v3"] 10 (set_Mempool ∅ stake_chain).

Example stake_a_finalizes : (FinalizeBlock clock stake_chain stake_block_a).2 = inl tt.
Proof. vm_compute. reflexivity. Qed.

Example stake_b_finalizes : (FinalizeBlock clock stake_chain stake_block_b).2 = inl tt.
Proof. vm_compute. reflexivity. Qed.

(* ------------------------------------------------------------------ *)
(** * Production, window, fork choice *)

(** Bob offers more than he has: admitted (only the nonce is checked), then
    skipped when the block is built. *)
Definition poor_tx : Tx := Eval vm_compute in signed "bob" (draft "bob" alice 5000 20 0 "" []).

Definition chain1p : Chain := Eval vm_compute in (SubmitTx 1700000000 poor_tx chain1).1.

Definition draft1p : Block := Eval vm_compute in block_or (BuildBlock clock "v1" "" 10 chain1p).
Definition sig1p : string := Eval vm_compute in hex0x (ed_Sign "v1" draft1p.(Hash)).

(** The chain after [block1], with a window of one block and its archive. *)
Definition chain2 : Chain := Eval vm_compute in (FinalizeBlock clock chain1 block1).1.1.
Definition history2 : list Block := Eval vm_compute in chain2.(Blocks).
Definition chain2w : Chain :=
  Eval vm_compute in SetHotWindow 1 (Some (λ h, history2 !! Z.to_nat h)) chain2.

Example window_moved : hotWindowStart chain2w = 1 ∧ length chain2w.(Blocks) = 1%nat.
Proof. split; reflexivity. Qed.

(** The same block with a third approval. *)
Definition block1_all : Block := Eval vm_compute in approve ["v1"; "v2"; "v3"] proposal1.

(* ------------------------------------------------------------------ *)
(** * Nodes of that chain *)

Definition agent_of (name : string) : Agent :=
  mkAgent (mkIdentity name (hex0x (key_of name)) "" ("hw-" +:+ name) "" clock 0 100 0 0) "synthos_mainnet" []
    (Some (mkKeys (key_of name) name)) (Some (NewReplayCache (600 * second))).

(** A validator of the three-validator roster, with the vote lock on. *)
Definition node_of (name : string) (c : Chain) : Node :=
  SetProducerRotationLockTimeout (60 * second)
    (node_SetValidators ["v1"; "v2"; "v3"] (NewNode (agent_of name) c (NewEngine 0))).

(** What [id] proposes on top of [c]. *)
Definition proposed_by (id : string) (c : Chain) : Block :=
  let b := block_or (BuildBlock clock id "" 10 c) in sign_proposal (hex0x (ed_Sign id b.(Hash))) b.

(** The same producer's second candidate, without the waiting transfer, and
    another producer's. *)
Definition proposal_empty : Block := Eval vm_compute in proposed_by "v1" (set_Mempool ∅ chain1).
Definition proposal_v2 : Block := Eval vm_compute in proposed_by "v2" chain1.

Definition later (s : Z) : Time := Add clock (s * second).

Definition offers : list (Time * Block) := [(clock, proposal1); (later 5, proposal_v2); (later 61, proposal_v2)].
