(* ===== verification/ChainTheorems.v ===== *)
(** The main theorems about the chain, each with a witness on a concrete
    chain. *)
From stdpp Require Import base strings list gmap.
From S2P Require Import Prelude GoStd Sha256 Json Types Ledger TxModel Merkle Dex DexLedger.
From S2P Require Import Staking StakingFacts Apply ApplyFacts Fees Block Chain ChainFacts.
From S2P Require Import ChainBuild ChainWindow ChainRun Examples.

#[local] Open Scope string_scope.
#[local] Open Scope Z_scope.

(** A finalized block in the place where the chain's results are read. *)
Lemma finalized_run now c b : (FinalizeBlock now c b).2 = inl tt →
  FinalizeBlock now c b = ((FinalizeBlock now c b).1.1, (FinalizeBlock now c b).1.2, inl tt).
Proof. destruct (FinalizeBlock now c b) as [[c' b'] r]. by simpl; intros ->. Qed.





Lemma block1_fields : Forall tx_fields (txs_of (FinalizeBlock clock chain1 block1).1.2).
Proof. vm_compute; repeat constructor; vm_compute; discriminate. Qed.


Lemma block1_mints_nothing : block_minted chain1 chain1.(c_State) (FinalizeBlock clock chain1 block1).1.2 = 0.
Proof. vm_compute. reflexivity. Qed.


(** (C6) Finalization: [FinalizeBlock] commits exactly the blocks
    [ValidateBlock] accepts and otherwise leaves the chain as it was. A
    committed block extends the tip by one height, every transaction in it is
    signed by its sender and meant for this chain, the native supply grows by
    at most the coin its treasury executions create (C1; none if no
    transaction of it is a [governance_execute]), and, while that fits 64
    bits, the ledger, pool and registry invariants hold again. *)
Theorem FinalizeBlock_safe `{E : Ed25519} now c b c' b' r :
  params_ok c.(validatorStaking) → Forall (λ corr, 0 ≤ corr.(Debit)) c.(stateCorrections) →
  world_ok c.(validatorStaking) c.(c_State) → Forall tx_fields (txs_of b') →
  let m := block_minted c c.(c_State) b' in
  FinalizeBlock now c b = (c', b', r) →
  (r = inl tt ↔ (ValidateBlock now c b).2 = inl tt) ∧
  (r = inl tt →
     (∃ parent, tip c = Some parent ∧ b.(Header).(ParentHash) = parent.(Hash) ∧
        b.(Header).(Height) = u64 (parent.(Header).(Height) + 1)) ∧
     Forall (λ tx, tx.(ChainID) = transactionChainID c ∧ tx_authentic tx) (txs_of b) ∧
     (supply c.(c_State) + m ≤ MaxUint64 →
        world_ok c.(validatorStaking) c'.(c_State) ∧ supply c'.(c_State) ≤ supply c.(c_State) + m)) ∧
  (m ≠ 0 → ∃ tx, tx ∈ txs_of b' ∧ tx_type (sort_metadata tx) = "governance_execute") ∧
  (r ≠ inl tt → c' = c).
Proof.
  intros Hp Hc Hw Hf m Hrun. pose proof (block_minted_source c (c_State c) b') as Hsrc. revert Hrun.
  destruct (FinalizeBlock_cases now c b) as [(b1 & next & Hv & ->)|(b1 & e & Hv & ->)].
  - intros [= <- <- <-]. pose proof (proj2 (validateBlock_iff now c b true b1) (ex_intro _ next Hv)) as Hval.
    unfold ValidateBlock. rewrite Hval. split_and!; [done| |exact Hsrc|done]. intros _.
    destruct Hv as [Hh -> Htx Hn _]. destruct (check_header_ok _ _ _ _ Hh) as (parent & ? & ? & ? & _).
    split_and!; [by exists parent|done|]. intros Hm.
    destruct (next_state_spec c Hp c.(c_State) _ next Hc Hw Hf Hm Hn) as (? & ? & _).
    unfold commit_block. rewrite (proj1 (trimHotWindow_state _)). by split.
  - intros [= <- <- <-]. rewrite Hv. by split_and!.
Qed.

Lemma world_ok_okb p s :
  ledger_okb s = true → s.(DEXPools) = ∅ → s.(Validators) = ∅ → s.(ValidatorSetSnapshot) = [] → s.(GovernanceProposals) = ∅ → world_ok p s.
Proof.
  intros ? ? ? ? Hg. split; [by apply ledger_okb_ok|by apply pools_ok_empty|by apply registry_ok_empty|].
  unfold payable. rewrite Hg. apply map_Forall_empty.
Qed.

Lemma FinalizeBlock_safe_witness :
  supply (FinalizeBlock clock chain1 block1).1.1.(c_State) ≤ supply chain1.(c_State) ∧
  world_ok chain1.(validatorStaking) (FinalizeBlock clock chain1 block1).1.1.(c_State).
Proof.
  destruct (FinalizeBlock_safe clock chain1 block1 _ (FinalizeBlock clock chain1 block1).1.2 (inl tt)
    ltac:(split; [split; split; vm_compute; discriminate|vm_compute; discriminate]) ltac:(constructor)
    ltac:(apply world_ok_okb; reflexivity)
    block1_fields (finalized_run _ _ _ block1_finalizes)) as (_ & H & _).
  destruct (H eq_refl) as (_ & _ & Hw). rewrite block1_mints_nothing, Z.add_0_r in Hw.
  destruct (Hw ltac:(vm_compute; discriminate)) as [Hok Hs]. split; [exact Hs|exact Hok].
Defined.

(** (C5) Accountable safety in stake mode: if two blocks with different hashes
    are both finalized at one height by chains with the same ID and the same
    authorizing set, then validators holding more than a third of that set's
    stake approved both, and for each of them the two approvals form a
    [validator_evidence] transaction that the chain's double-sign check
    accepts. *)
Theorem finality_accountable `{E : Ed25519} now1 now2 c1 c2 b1 b2 set h ctx :
  (FinalizeBlock now1 c1 b1).2 = inl tt → (FinalizeBlock now2 c2 b2).2 = inl tt →
  c1.(c_ChainID) = ctx.(chainID) → c2.(c_ChainID) = ctx.(chainID) →
  b1.(Header).(Height) = h → b2.(Header).(Height) = h → b1.(Hash) ≠ b2.(Hash) → in_u64 h →
  ctx.(params).(ConsensusFromHeight) ≤ h ≤ ctx.(height) →
  stakeAuthoritySet c1 h = set → stakeAuthoritySet c2 h = set → set ≠ [] → set_ok set →
  (∀ v, v ∈ set → ∃ kb, v.(av_ConsensusPubKey) = hex0x kb ∧ slen kb = 32) →
  lsum av_Power set < 3 * lsum av_Power (double_voters c1 b1 c2 b2 set) ∧
  ∀ v, v ∈ double_voters c1 b1 c2 b2 set → v ∈ set ∧
    ∃ sigA sigB, ∀ tx,
      tx.(Metadata) = evidence_metadata v.(av_ConsensusPubKey) "approve" h b1.(Hash) b2.(Hash) sigA sigB →
      check_evidence tx ctx = inl v.(av_ConsensusPubKey).
Proof.
  intros Hf1 Hf2 Hc1 Hc2 Hh1 Hh2 Hne Hin Hr Hs1 Hs2 Hset Hok Hkeys.
  assert (∀ now c b, (FinalizeBlock now c b).2 = inl tt → check_header now c b true = inl tt) as Hhdr.
  { intros now c b Hf. destruct (FinalizeBlock_cases now c b) as [(b' & next & [Hh _ _ _ _] & _)|(b' & e & _ & Hr')]; [done|].
    rewrite Hr' in Hf. done. }
  split.
  - apply (conflict_overlap now1 now2); auto; congruence.
  - intros v Hv. pose proof Hv as [_ Hvs]%list_elem_of_filter. split; [done|].
    destruct (Hkeys v Hvs) as (kb & Hk & Hl). eapply (conflict_convicts now1 now2); eauto.
Qed.

Lemma stake_set_ok : set_ok stake_set.
Proof.
  split; [apply (bool_decide_unpack _); vm_compute; reflexivity| |vm_compute; discriminate].
  intros v Hv. apply (proj1 (Forall_forall (λ v, 0 ≤ v.(av_Power)) stake_set)); [|exact Hv].
  repeat constructor; vm_compute; discriminate.
Qed.

Lemma stake_set_keys : ∀ v, v ∈ stake_set → ∃ kb, v.(av_ConsensusPubKey) = hex0x kb ∧ slen kb = 32.
Proof.
  intros v Hv. unfold stake_set in Hv. rewrite !elem_of_cons, elem_of_nil in Hv.
  destruct Hv as [->|[->|[->|[]]]];
    [exists (key_of "v1")|exists (key_of "v2")|exists (key_of "v3")]; split; vm_compute; reflexivity.
Qed.

Lemma finality_accountable_witness :
  lsum av_Power stake_set < 3 * lsum av_Power (double_voters stake_chain stake_block_a stake_chain stake_block_b stake_set).
Proof.
  destruct (finality_accountable clock clock stake_chain stake_chain stake_block_a stake_block_b stake_set 1
    (mkCtx 9 stake_params "synthos-test") stake_a_finalizes stake_b_finalizes eq_refl eq_refl eq_refl eq_refl
    ltac:(vm_compute; discriminate) ltac:(split; vm_compute; discriminate) ltac:(split; vm_compute; discriminate)
    eq_refl eq_refl ltac:(vm_compute; discriminate) stake_set_ok stake_set_keys) as [H _].
  exact H.
Defined.

(** Roster mode: a finalized block was signed by its registered proposer
    and approved by [requiredQuorum] distinct registered validators; two
    blocks finalized under one roster of [n] validators share at least
    [2 * requiredQuorum - n] approvers. *)
Theorem roster_quorum `{E : Ed25519} now1 now2 c b1 b2 :
  (∀ b, b = b1 ∨ b = b2 → stakeAuthoritySet c b.(Header).(Height) = [] ∧ 0 < b.(Header).(Height) ∧
     c.(authEnforceFromHeight) ≤ b.(Header).(Height)) →
  c.(validatorKeys) ≠ ∅ →
  (FinalizeBlock now1 c b1).2 = inl tt → (FinalizeBlock now2 c b2).2 = inl tt →
  (∃ key raw, c.(validatorKeys) !! b1.(Header).(ProposerID) = Some key ∧
     decode_fixed b1.(ProposerSignature) 64 = Some raw ∧ ed_Verify key b1.(Hash) raw = true) ∧
  c.(requiredQuorum) ≤ Z.of_nat (size (roster_approvals c b1)) ∧
  (∀ id, id ∈ roster_approvals c b1 → ∃ key sg raw, c.(validatorKeys) !! id = Some key ∧
     b1.(QuorumSignatures) !! id = Some sg ∧ decode_fixed sg 64 = Some raw ∧
     ed_Verify key (QuorumApprovalMessage b1) raw = true) ∧
  2 * c.(requiredQuorum) - Z.of_nat (size c.(validatorKeys))
    ≤ Z.of_nat (size (roster_approvals c b1 ∩ roster_approvals c b2)).
Proof.
  intros Hb Hk Hf1 Hf2.
  assert (∀ now b, b = b1 ∨ b = b2 → (FinalizeBlock now c b).2 = inl tt → verifyBlockAuthorization c b true = inl tt) as Hauth
    by (intros now b (Hs & Hpos & Hen)%Hb Hf; by eapply finalized_quorum).
  destruct (proj1 (verifyBlockAuthorization_iff c b1) (Hauth now1 b1 ltac:(auto) Hf1)) as [(key & raw & ? & _ & ? & ?) Hq1].
  destruct (proj1 (verifyBlockAuthorization_iff c b2) (Hauth now2 b2 ltac:(auto) Hf2)) as [_ Hq2].
  pose proof (roster_overlap c b1 b2). split_and!; [by exists key, raw|done| |lia].
  intros id (k & sg & rw & ? & _ & ? & ? & ?)%elem_roster_approvals. by exists k, sg, rw.
Qed.

Definition block1' : Block := Eval vm_compute in approve ["v2"; "v3"] proposal1.

Example block1'_finalizes : (FinalizeBlock clock chain1 block1').2 = inl tt.
Proof. vm_compute. reflexivity. Qed.

Lemma roster_quorum_witness :
  2 ≤ Z.of_nat (size (roster_approvals chain1 block1)) ∧
  1 ≤ Z.of_nat (size (roster_approvals chain1 block1 ∩ roster_approvals chain1 block1')).
Proof.
  destruct (roster_quorum clock clock chain1 block1 block1'
    ltac:(intros b [->| ->]; split_and!; [reflexivity|vm_compute; reflexivity|vm_compute; discriminate|reflexivity|vm_compute; reflexivity|vm_compute; discriminate])
    ltac:(vm_compute; discriminate) block1_finalizes block1'_finalizes) as (_ & Hq & _ & Ho).
  split; [exact Hq|exact Ho].
Defined.

(** Production: whatever waits in the mempool, the block [BuildBlock]
    assembles carries at most [maxTx] transactions and, once signed by an
    authorized proposer, is accepted by [ValidateProposal] on any node with
    the same chain, provided no irregular correction is configured for that
    height and the candidates it skipped left the scratch state alone. *)
Theorem BuildBlock_accepted `{E : Ed25519} now now' id poc maxTx c b sg parent :
  mempool_ok c → tip c = Some parent →
  let height := u64 (parent.(Header).(Height) + 1) in
  clean_skips c (candidates c) height (Clone c.(c_State)) →
  Forall (λ corr, corr.(corr_Height) ≠ height) c.(stateCorrections) →
  Before b.(Header).(h_Timestamp) parent.(Header).(h_Timestamp) = false → now.(instant) ≤ now'.(instant) →
  BuildBlock now id poc maxTx c = inl b →
  check_authorization c (sign_proposal sg b) false = inl tt →
  ValidateProposal now' c (sign_proposal sg b) = (sign_proposal sg b, inl tt) ∧
  Z.of_nat (length (txs_of b)) ≤ (if maxTx <=? 0 then 1000 else maxTx).
Proof.
  intros Hm Ht height Hcl Hco Hbe Hnow Hb Hau. split; [by eapply (BuildBlock_proposal now now')|].
  destruct (BuildBlock_inv _ _ _ _ _ _ _ Ht Hb) as [tmp Hbs].
  by destruct (build_state_replay _ _ _ _ _ _ Hm Hcl Hco Hbs) as (_ & _ & Hlen).
Qed.

Lemma chain1p_mempool : mempool_ok chain1p.
Proof. apply mempool_okb_ok. vm_compute. reflexivity. Qed.

Lemma BuildBlock_accepted_witness :
  ValidateProposal clock chain1p (sign_proposal sig1p draft1p) = (sign_proposal sig1p draft1p, inl tt).
Proof.
  destruct (BuildBlock_accepted clock clock "v1" "" 10 chain1p draft1p sig1p (default draft1p (tip chain1p))
    chain1p_mempool eq_refl
    ltac:(vm_compute; split; [intros _; reflexivity|split; [intros H; destruct (H eq_refl)|exact I]])
    ltac:(constructor) eq_refl (Z.le_refl _) ltac:(vm_compute; reflexivity) ltac:(vm_compute; reflexivity)) as [H _].
  exact H.
Defined.

(** Reads: with an archive that serves what has left memory, [BlockAt]
    and [BlocksRange] answer from the complete history of the chain, whatever
    the size of the in-memory window. *)
Theorem chain_reads_history `{E : Ed25519} H c :
  window_ok H c → archive_ok H c →
  (∀ h, 0 ≤ h → BlockAt c h = H !! Z.to_nat h) ∧
  (∀ from limit, BlocksRange c from limit = history_range H (Z.max from 0) limit).
Proof. intros Hw Ha. split; intros; [by apply BlockAt_view|by apply BlocksRange_view]. Qed.

Lemma chain2w_window : window_ok history2 chain2w.
Proof.
  split; [|split; vm_compute; (discriminate || reflexivity)|reflexivity|vm_compute; reflexivity].
  intros [|[|i]] b; cbn; intros [= <-]; reflexivity.
Qed.

Lemma chain2w_archive : archive_ok history2 chain2w.
Proof. exists (λ h, history2 !! Z.to_nat h). split; reflexivity. Qed.

Lemma chain_reads_history_witness :
  BlockAt chain2w 0 = history2 !! 0%nat ∧ BlocksRange chain2w 0 0 = history2.
Proof.
  destruct (chain_reads_history history2 chain2w chain2w_window chain2w_archive) as [H1 H2].
  split; [exact (H1 0 (Z.le_refl 0))|exact (H2 0 0)].
Defined.

(** The checkpoint: finalizing a block appends it to the history of the
    chain and keeps the checkpoint at the edge of the window exact, also when
    blocks are evicted: replaying the retained blocks from the checkpoint
    gives the live state. *)
Theorem FinalizeBlock_history `{E : Ed25519} H now c b c' b' :
  window_ok H c → checkpoint_ok c → Z.of_nat (length H) + 1 < MaxUint64 →
  FinalizeBlock now c b = (c', b', inl tt) →
  window_ok (H ++ [b'])%list c' ∧ checkpoint_ok c'.
Proof.
  intros Hw Hck Hsm. destruct (FinalizeBlock_cases now c b) as [(b1 & next & Hv & ->)|(b1 & e & _ & ->)]; [|done].
  intros [= <- <-]. destruct Hv as [Hh -> _ Hn _]. destruct (check_header_ok _ _ _ _ Hh) as (parent & Hp & _ & Hht & _).
  destruct (window_tip H c Hw) as (t & Ht & _ & Hth). rewrite Hp in Ht. injection Ht as <-.
  rewrite Hth, Z.sub_add, u64_small in Hht by (split; lia).
  split; [by apply window_ok_commit|by eapply checkpoint_ok_commit].
Qed.

Definition genesis_history : list Block := Eval vm_compute in chain1.(Blocks).

Lemma chain1_window : window_ok genesis_history chain1.
Proof.
  split; [|split; vm_compute; (discriminate || reflexivity)|reflexivity|vm_compute; reflexivity].
  intros [|i] b; cbn; intros [= <-]; reflexivity.
Qed.

Lemma chain1_checkpoint : checkpoint_ok chain1.
Proof.
  split; [vm_compute; discriminate|]. exists chain1.(c_State), (Clone chain1.(c_State)).
  split_and!; vm_compute; reflexivity.
Qed.

Lemma FinalizeBlock_history_witness : checkpoint_ok (FinalizeBlock clock chain1 block1).1.1.
Proof.
  destruct (FinalizeBlock_history genesis_history clock chain1 block1 _ _ chain1_window chain1_checkpoint
    ltac:(vm_compute; reflexivity) (finalized_run _ _ _ block1_finalizes)) as [_ H].
  exact H.
Defined.

(** Admission: [SubmitTx] accepts exactly the signed transactions for
    this chain that are new, carry the sender's next nonce and, for the two
    citizen transactions that read the clock, a timestamp within five minutes;
    it then files the transaction under its ID and changes nothing else; a
    refused one changes nothing. The mempool invariant is kept. *)
Theorem SubmitTx_admission `{E : Ed25519} now tx c c' r :
  mempool_ok c → SubmitTx now tx c = (c', r) →
  (r = inl tt ↔ admissible now tx c) ∧
  (r = inl tt → c' = set_Mempool (<[tx.(ID) := sort_metadata tx]> c.(Mempool)) c) ∧
  (r ≠ inl tt → c' = c) ∧ mempool_ok c'.
Proof.
  intros Hm. destruct (SubmitTx_cases now tx c) as [[Ha ->]|[Hna [e ->]]]; intros [= <- <-].
  - split_and!; [done..|]. by eapply admit_tx_ok.
  - split_and!; [done..|]. done.
Qed.

Example poor_admitted : (SubmitTx 1700000000 poor_tx chain1).2 = inl tt.
Proof. vm_compute. reflexivity. Qed.

Lemma SubmitTx_admission_witness :
  admissible 1700000000 poor_tx chain1 ∧ mempool_ok (SubmitTx 1700000000 poor_tx chain1).1.
Proof.
  assert (mempool_ok chain1) as Hm by (apply mempool_okb_ok; vm_compute; reflexivity).
  destruct (SubmitTx_admission 1700000000 poor_tx chain1 _ _ Hm (run_ok _ _ _ poor_admitted)) as (H1 & _ & _ & H2).
  split; [exact (proj1 H1 eq_refl)|exact H2].
Defined.

(** Fork choice: [TryReorg] either leaves the chain as it is or installs
    a branch that starts at the contested height, has strictly more verified
    approvals than the current one over that range (or as many and more
    blocks), and has been replayed block by block through [FinalizeBlock]
    from the checkpoint; the live state is then the replayed one. *)
Theorem TryReorg_rule `{E : Ed25519} now h candidate c c' r :
  TryReorg now h candidate c c = (c', r) →
  (r ≠ inl true → c' = c) ∧
  (r = inl true → ∃ p scratch,
     reorg_plan h candidate c = inl p ∧
     (branch_score c.(validatorKeys) (map Some p.(rp_currentTail)) < branch_score c.(validatorKeys) candidate ∨
      branch_score c.(validatorKeys) (map Some p.(rp_currentTail)) = branch_score c.(validatorKeys) candidate ∧
      (length p.(rp_currentTail) < length candidate)%nat) ∧
     replay now p.(rp_scratch) (map Some p.(rp_prefix) ++ candidate)%list = inl scratch ∧
     c'.(c_State) = scratch.(c_State)).
Proof.
  unfold TryReorg. destruct (reorg_plan h candidate c) as [p|e] eqn:Hp; [|by intros [= <- <-]].
  destruct (heavier _ _ _) eqn:Hh; simpl; [|by intros [= <- <-]].
  destruct (replay now _ _) as [scratch|e] eqn:Hr; [|by intros [= <- <-]].
  unfold reorg_commit. case_match; intros [= <- <-]; [done|]. split; [done|]. intros _. exists p, scratch.
  rewrite (proj1 (trimHotWindow_state _)). split_and!; try done.
  unfold heavier in Hh. rewrite negb_true_iff, orb_false_iff, andb_false_iff in Hh.
  destruct Hh as [Hlt%Z.ltb_ge Hor]. destruct Hor as [?%Z.eqb_neq|Hlen%Nat.leb_gt]; lia.
Qed.

Example reorg_runs : (TryReorg clock 1 [Some block1_all] chain2 chain2).2 = inl true.
Proof. vm_compute. reflexivity. Qed.

Lemma reorg_result : TryReorg clock 1 [Some block1_all] chain2 chain2 =
  ((TryReorg clock 1 [Some block1_all] chain2 chain2).1, inl true).
Proof. rewrite <- reorg_runs. apply surjective_pairing. Qed.

Lemma TryReorg_rule_witness : ∃ p scratch,
  reorg_plan 1 [Some block1_all] chain2 = inl p ∧
  replay clock p.(rp_scratch) (map Some p.(rp_prefix) ++ [Some block1_all])%list = inl scratch.
Proof.
  destruct (TryReorg_rule clock 1 [Some block1_all] chain2 _ _ reorg_result) as [_ H].
  destruct (H eq_refl) as (p & scratch & Hp & _ & Hr & _). exists p, scratch. split; [exact Hp|exact Hr].
Defined.

(** A defect of the fork choice: on a chain that has never been trimmed
    (and without a window bound), a successful [TryReorg] drops the genesis
    block from the block list without moving the start of the window, so that
    afterwards [BlockAt] answers a request for height 0 with the block of
    height 1. *)
Theorem TryReorg_loses_genesis `{E : Ed25519} H now h candidate c c' :
  window_ok H c → c.(hotWindowStart) = 0 → c.(maxHotBlocks) = 0 →
  TryReorg now h candidate c c = (c', inl true) →
  1 ≤ chain_height c' →
  ∃ b, BlockAt c' 0 = Some b ∧ b.(Header).(Height) = 1.
Proof.
  intros Hw Hs Hm Hr Hht. destruct (reorg_shifts H now h candidate c c' Hw Hs Hm Hr) as (Hs' & b & Hb & Hh).
  exists b. split; [|done]. unfold BlockAt, blockAt, chain_height in *.
  destruct (tip c') as [t|]; [|lia]. destruct (Z.ltb_spec t.(Header).(Height) 0); [lia|]. rewrite Hs'.
  change (0 <? 0) with false. change (Z.to_nat (0 - 0)) with 0%nat. cbv iota. by rewrite Hb.
Qed.

Lemma chain2_window : window_ok history2 chain2.
Proof.
  split; [|split; vm_compute; (discriminate || reflexivity)|reflexivity|vm_compute; reflexivity].
  intros [|[|i]] b; cbn; intros [= <-]; reflexivity.
Qed.

Lemma TryReorg_loses_genesis_witness :
  ∃ b, BlockAt (TryReorg clock 1 [Some block1_all] chain2 chain2).1 0 = Some b ∧ b.(Header).(Height) = 1.
Proof.
  apply (TryReorg_loses_genesis history2 clock 1 [Some block1_all] chain2 _ chain2_window eq_refl eq_refl reorg_result).
  vm_compute. discriminate.
Defined.
