(* ===== verification/Theorems.v ===== *)
(** The main theorems about transactions, each with a witness that applies it
    to a concrete ledger. *)
From stdpp Require Import base strings list gmap.
From S2P Require Import Prelude GoStd Sha256 Json Types Ledger TxModel Citizen Governance Dex.
From S2P Require Import Dex DexLedger Bridge Merkle Staking StakingFacts Apply ApplyFacts.
From S2P Require Import Examples.

#[local] Open Scope string_scope.
#[local] Open Scope Z_scope.

(** (C1) The coin of an accepted transaction: the native coin in balances,
    citizen stakes and validator bonds together shrinks by at least the fee,
    except for the coin [minted] names: it is created only by a
    [governance_execute] of a proposal on record that pays the treasury (the
    proposal's amount) or that the treasury sends while it holds less than
    amount and fee (2^64, its balance wraps around). Pools, proposals and the
    validator registry stay well formed, and so does the ledger while its coin
    fits 64 bits. *)
Theorem ApplyTransaction_coin `{E : Ed25519} tx ctx s s' :
  ledger_ok s → pools_ok s → payable s → registry_ok ctx.(Staking) s → slash_params_ok ctx.(Staking) → tx_fields tx →
  ApplyTransaction tx ctx s = (s', inl tt) →
  let m := minted (sort_metadata tx) s in
  supply s' ≤ supply s - tx.(Fee) + m ∧ 0 ≤ m ∧
  (m ≠ 0 → tx_type (sort_metadata tx) = "governance_execute" ∧
     ∃ p, s.(GovernanceProposals) !! metadataValue (sort_metadata tx).(Metadata) "proposal_id" = Some p ∧
       (p.(p_Recipient) = s.(TreasuryAddress) ∧ m = p.(p_Amount) ∨
        p.(p_Recipient) ≠ s.(TreasuryAddress) ∧ tx.(From) = s.(TreasuryAddress) ∧
        (acct s tx.(From)).(Balance) < p.(p_Amount) + tx.(Fee) ∧ m = 2 ^ 64)) ∧
  pools_ok s' ∧ payable s' ∧ registry_ok ctx.(Staking) s' ∧ (supply s + m ≤ MaxUint64 → ledger_ok s').
Proof.
  intros Hok Hp Hpay Hr Hs Htx Hrun m.
  destruct (wp_ok _ _ _ _ _ _ (ApplyTransaction_spec tx s Hok Hp Htx true ctx Hr Hs) Hrun) as (_ & _ & _ & ? & ? & Heff).
  destruct (Heff Hpay) as (? & ? & ?).
  split_and!; try done; [by apply minted_nonneg|]. intros Hm. by destruct (minted_cases _ _ Hm) as (? & p & ? & ?); eauto.
Qed.

Lemma transfer_fields : tx_fields transfer_tx.
Proof. split; vm_compute; split; discriminate. Qed.

Lemma ApplyTransaction_coin_witness :
  let s' := (ApplyTransaction transfer_tx ctx0 ledger0).1 in supply s' ≤ supply ledger0 - 10 ∧ ledger_ok s'.
Proof.
  destruct (ApplyTransaction_coin transfer_tx ctx0 ledger0 _
    ltac:(apply ledger_okb_ok; vm_compute; reflexivity) ltac:(by apply pools_ok_empty) ltac:(by apply map_Forall_empty)
    ltac:(by apply registry_ok_empty) ltac:(split; simpl; lia) transfer_fields
    (run_ok _ _ _ transfer_runs)) as (H1 & _ & _ & _ & _ & _ & H2).
  split; [exact H1|apply H2; vm_compute; discriminate].
Defined.

(** (C2) Authorisation and replay: an accepted transaction is signed by the
    key its sender address is derived from and carries exactly the sender's
    nonce; that nonce advances by one, nobody else's moves, and the same
    transaction is rejected in the state it leaves, and in every later one as
    long as the sender's nonce is not back at the same value. *)
Theorem ApplyTransaction_no_replay `{E : Ed25519} tx ctx ctx' s s' :
  ledger_ok s → pools_ok s → registry_ok ctx.(Staking) s → slash_params_ok ctx.(Staking) → tx_fields tx →
  ApplyTransaction tx ctx s = (s', inl tt) →
  tx_authentic tx ∧ tx.(Nonce) = (acct s tx.(From)).(AccNonce) ∧ nonce_step tx.(From) s s' ∧
  (∃ e, (ApplyTransaction tx ctx' s').2 = inr e) ∧
  ∀ s2, (acct s2 tx.(From)).(AccNonce) ≠ tx.(Nonce) → ∃ e, (ApplyTransaction tx ctx' s2).2 = inr e.
Proof.
  intros Hok Hp Hr Hs Htx Hrun.
  destruct (wp_ok _ _ _ _ _ _ (ApplyTransaction_spec tx s Hok Hp Htx true ctx Hr Hs) Hrun)
    as (Ha & Hn & Hstep & _).
  assert (∀ s2, (acct s2 tx.(From)).(AccNonce) ≠ tx.(Nonce) → ∃ e, (ApplyTransaction tx ctx' s2).2 = inr e) as Hrej.
  { intros s2 Hne. pose proof (ApplyTransaction_nonce tx ctx' s2) as Hg. unfold wp in Hg.
    destruct (ApplyTransaction tx ctx' s2) as [s3 [[]|e]]; [congruence|by exists e]. }
  split_and!; [done..| |done]. apply Hrej. destruct Hstep as [-> _]. rewrite <- Hn.
  apply not_eq_sym, u64_succ_ne, Htx.
Qed.

Lemma ApplyTransaction_no_replay_witness :
  tx_authentic transfer_tx ∧
  ∃ e, (ApplyTransaction transfer_tx ctx0 (ApplyTransaction transfer_tx ctx0 ledger0).1).2 = inr e.
Proof.
  destruct (ApplyTransaction_no_replay transfer_tx ctx0 ctx0 ledger0 _
    ltac:(apply ledger_okb_ok; vm_compute; reflexivity) ltac:(by apply pools_ok_empty)
    ltac:(by apply registry_ok_empty) ltac:(split; simpl; lia) transfer_fields
    (run_ok _ _ _ transfer_runs)) as (H1 & _ & _ & H2 & _).
  split; [exact H1|exact H2].
Defined.

(** (C35) A rejected transaction leaves the ledger alone: the state is
    unchanged, except that a failed [dex_add_liquidity] may leave an empty
    pool record behind. *)
Theorem ApplyTransaction_rejected `{E : Ed25519} tx ctx s s' e :
  ledger_ok s → pools_ok s → registry_ok ctx.(Staking) s → slash_params_ok ctx.(Staking) → tx_fields tx →
  ApplyTransaction tx ctx s = (s', inr e) →
  s' = s ∨ ∃ id, s.(DEXPools) !! id = None ∧ s' = put_pool id (NewPool id) s.
Proof.
  intros Hok Hp Hr Hs Htx Hrun.
  exact (wp_err _ _ _ _ _ _ (ApplyTransaction_spec tx s Hok Hp Htx true ctx Hr Hs) Hrun).
Qed.

(** The same transfer with a nonce that is not due. *)
Definition early_tx : Tx := Eval vm_compute in signed "alice" (draft "alice" bob 500 10 3 "" []).

Example early_runs : (ApplyTransaction early_tx ctx0 ledger0).2 = inr (Err "bad nonce").
Proof. vm_compute. reflexivity. Qed.

Lemma ApplyTransaction_rejected_witness :
  let s' := (ApplyTransaction early_tx ctx0 ledger0).1 in
  s' = ledger0 ∨ ∃ id, ledger0.(DEXPools) !! id = None ∧ s' = put_pool id (NewPool id) ledger0.
Proof.
  apply (ApplyTransaction_rejected early_tx ctx0 ledger0 _ (Err "bad nonce")
    ltac:(apply ledger_okb_ok; vm_compute; reflexivity) ltac:(by apply pools_ok_empty)
    ltac:(by apply registry_ok_empty) ltac:(split; simpl; lia)
    ltac:(split; vm_compute; split; discriminate)
    (run_err _ _ _ early_runs)).
Defined.

(** Time: once a block carries its own time, the timestamp a sender or a
    relay put on the (unsigned) field changes neither the verdict nor the
    resulting state. *)
Theorem ApplyTransaction_timestamp `{E : Ed25519} tx ctx ts s :
  ctx.(BlockTime) ≠ 0 →
  ApplyTransaction (set_Timestamp ts tx) ctx s = ApplyTransaction tx ctx s.
Proof.
  intros Hbt. unfold ApplyTransaction.
  assert (with_block_time ctx (set_Timestamp ts tx) = with_block_time ctx tx) as ->; [|done].
  unfold with_block_time. by rewrite (proj2 (Z.eqb_neq _ _) Hbt).
Qed.

Lemma ApplyTransaction_timestamp_witness :
  ApplyTransaction (set_Timestamp 99 transfer_tx) ctx0 ledger0 = ApplyTransaction transfer_tx ctx0 ledger0.
Proof. apply ApplyTransaction_timestamp. vm_compute. discriminate. Defined.
