(* ===== verification/LedgerTheorems.v ===== *)
(** The main theorems about the ledger's components (transfers, signatures,
    citizen staking, governance, exchange, bridge, Merkle commitments), each
    with a witness. *)
From stdpp Require Import base strings list gmap.
From S2P Require Import Prelude GoStd Sha256 Json Types Ledger TxModel Citizen Governance Dex.
From S2P Require Import Dex DexLedger Bridge Merkle Staking StakingFacts Apply ApplyFacts.
From S2P Require Import Examples.

#[local] Open Scope string_scope.
#[local] Open Scope Z_scope.

(** A transfer moves exactly what it says: the sender loses amount and
    fee, the recipient gains the amount (in native coin or in the named
    asset), no other account changes, and a failing transfer changes nothing.
    The native supply shrinks by the fee; a transfer to oneself also destroys
    the amount. *)
Theorem applyTransfer_exact `{E : Ed25519} tx s s' r :
  ledger_ok s → tx_fields tx → applyTransfer tx s = (s', r) →
  (r ≠ inl tt → s' = s) ∧
  (r = inl tt →
     supply s' = supply s - tx.(Fee) - (if bool_decide (tx.(From) = tx.(To)) then paid tx else 0) ∧
     (acct s' tx.(From)).(Balance) = (acct s tx.(From)).(Balance) - paid tx - tx.(Fee) ∧
     (tx.(To) ≠ tx.(From) → (acct s' tx.(To)).(Balance) = (acct s tx.(To)).(Balance) + paid tx) ∧
     (is_native tx = false →
        asset_of (acct s' tx.(From)) tx.(AssetID) = asset_of (acct s tx.(From)) tx.(AssetID) - tx.(Amount) ∧
        (tx.(To) ≠ tx.(From) →
           asset_of (acct s' tx.(To)) tx.(AssetID) = asset_of (acct s tx.(To)) tx.(AssetID) + tx.(Amount))) ∧
     (∀ b, b ≠ tx.(From) → b ≠ tx.(To) → acct s' b = acct s b)).
Proof.
  intros Hok Htx Hrun. pose proof (applyTransfer_spec tx s Hok Htx) as Hw. unfold wp in Hw. rewrite Hrun in Hw.
  destruct r as [[]|e]; [split; [done|]|by split]. intros _.
  destruct Hw as (_ & _ & Hs & _ & _ & f' & t' & (Hfb & _ & _ & Hfa)%debit_ok & (Htb & _ & Hta)%credit_ok & Hf & Ht & Ho).
  rewrite Hf. split_and!; [done|simpl; rewrite Hfb, Balance_Get; lia| | |done].
  - intros Hne. by rewrite (Ht Hne), Balance_norm, Htb.
  - intros Hn. destruct (Hfa Hn) as [_ Hfa']. split; [done|]. intros Hne. by rewrite (Ht Hne), asset_of_norm, (Hta Hn).
Qed.

Example transfer_plain : (applyTransfer transfer_tx ledger0).2 = inl tt.
Proof. vm_compute. reflexivity. Qed.

Lemma applyTransfer_exact_witness :
  (acct (applyTransfer transfer_tx ledger0).1 alice).(Balance) = 1000000 - 500 - 10.
Proof.
  destruct (applyTransfer_exact transfer_tx ledger0 _ _ ltac:(apply ledger_okb_ok; vm_compute; reflexivity)
    ltac:(split; vm_compute; split; discriminate) (run_ok _ _ _ transfer_plain)) as [_ H].
  destruct (H eq_refl) as (_ & Hb & _). exact Hb.
Defined.

(** Signatures: [Verify] accepts exactly the authentic transactions (the
    key hashes to the sender's address, the signature over the canonical
    payload verifies, the ID is the payload's hash), and what [Sign] produces
    with the sender's key is authentic. *)
Theorem sign_verify_roundtrip `{E : Ed25519} `{!Ed25519Correct E} :
  (∀ t t', Verify t = (t', inl tt) ↔ t' = sort_metadata t ∧ tx_authentic t) ∧
  (∀ priv t t', t.(PublicKey) = hex0x (ed_Public priv) → Sign priv t = (t', inl tt) →
     Verify t' = (t', inl tt) ∧ AddressFromPublicKey (ed_Public priv) = t'.(From)).
Proof.
  split; [apply Verify_spec|]. intros priv t t' Hk Hs. pose proof (Sign_authentic priv t t' Hk Hs) as Ha.
  apply Sign_ok in Hs as (_ & Hf & ->). split; [|done]. apply Verify_spec. split; [|done].
  unfold sort_metadata. simpl. by rewrite (sort_slice_idemp kv_less).
Qed.

Lemma sign_verify_roundtrip_witness : Verify transfer_tx = (transfer_tx, inl tt).
Proof.
  refine (proj1 (proj2 (@sign_verify_roundtrip ToyEd25519 _) "alice" (draft "alice" bob 500 10 0 "" []) transfer_tx eq_refl _)).
  vm_compute. reflexivity.
Defined.

(** Citizen staking moves coin between balance and stake and nothing
    else: staking and unstaking keep the supply, move exactly the amount,
    touch no other account or stake, and fail without effect. *)
Theorem citizen_stake_conserves a amount now s :
  ledger_ok s → 0 ≤ amount →
  wp (StakeCitizen a amount now)
    (λ _ s', ledger_ok s' ∧ supply s' = supply s ∧
       (acct s' a).(Balance) = (acct s a).(Balance) - amount ∧ (stake_at s' a).(cs_Amount) = (stake_at s a).(cs_Amount) + amount ∧
       ∀ b, b ≠ a → acct s' b = acct s b ∧ stake_at s' b = stake_at s b)
    (λ _ s', s' = s) s ∧
  wp (UnstakeCitizen a amount)
    (λ _ s', ledger_ok s' ∧ supply s' = supply s ∧ amount ≤ (stake_at s a).(cs_Amount) ∧
       (acct s' a).(Balance) = (acct s a).(Balance) + amount ∧ (stake_at s' a).(cs_Amount) = (stake_at s a).(cs_Amount) - amount ∧
       ∀ b, b ≠ a → acct s' b = acct s b ∧ stake_at s' b = stake_at s b)
    (λ _ s', s' = s) s.
Proof.
  intros Hok Ha. split.
  - eapply wp_mono; [by apply StakeCitizen_spec| |done]. intros [] s' (? & ? & _ & _ & Hb & ? & ?). by rewrite Hb.
  - eapply wp_mono; [by apply UnstakeCitizen_spec| |done]. intros [] s' (? & ? & _ & ? & Hb & ? & ?). by rewrite Hb.
Qed.

Lemma citizen_stake_conserves_witness :
  supply (StakeCitizen alice 400 5 ledger0).1 = supply ledger0.
Proof.
  destruct (citizen_stake_conserves alice 400 5 ledger0 ltac:(apply ledger_okb_ok; vm_compute; reflexivity)
    ltac:(vm_compute; discriminate)) as [H _].
  exact (proj1 (proj2 H)).
Defined.

(** Citizen rewards: a claim pays the smaller of the accrued reward and
    the treasury's balance, out of the treasury; it creates no coin and moves
    no other balance and no stake. As long as stake times rate times seconds
    fits a [uint64], the accrued reward is the exact pro-rata amount. *)
Theorem citizen_claim_exact a now s :
  ledger_ok s →
  wp (ClaimCitizenRewards a now)
    (λ payout s', ledger_ok s' ∧ supply s' = supply s ∧
       payout = Z.min (pendingCitizenRewards s a now) (acct s s.(TreasuryAddress)).(Balance) ∧
       ∀ b, (acct s' b).(Balance) = (acct s b).(Balance) + (if decide (b = a) then payout else 0)
              - (if decide (b = s.(TreasuryAddress)) then payout else 0) ∧
            (stake_at s' b).(cs_Amount) = (stake_at s b).(cs_Amount))
    (λ _ s', s' = s) s ∧
  ∀ st, s.(CitizenStakes) !! a = Some st → 0 ≤ s.(CitizenRewardRateBpsPerYear) →
    0 ≤ now - st.(cs_LastClaimAt) < 9223372036854775808 →
    st.(cs_Amount) * s.(CitizenRewardRateBpsPerYear) * (now - st.(cs_LastClaimAt)) ≤ MaxUint64 →
    pendingCitizenRewards s a now =
      st.(cs_Amount) * s.(CitizenRewardRateBpsPerYear) * (now - st.(cs_LastClaimAt)) / (10000 * SecondsPerYear).
Proof.
  intros Hok. split.
  - eapply wp_mono; [by apply ClaimCitizenRewards_spec| |done].
    intros pay s' (? & ? & _ & ? & Hb & Hst & _). split; [done|]. split; [done|]. split; [done|].
    intros b. split; [apply Hb|apply Hst].
  - intros st Hst Hr He Hm. apply (pendingCitizenRewards_exact s a now st Hst); try done. by apply (ok_citizens s Hok a).
Qed.

(** A citizen with a stake, and a treasury to pay from. *)
Definition citizen_ledger : State :=
  set_CitizenRewardRateBpsPerYear 650 (set_TreasuryAddress bob
    (set_CitizenStakes (<[alice := mkCitizenStake 100000 0 0]> ∅) ledger0)).

Lemma citizen_claim_exact_witness :
  pendingCitizenRewards citizen_ledger alice 31536000 = 6500 ∧
  supply (ClaimCitizenRewards alice 31536000 citizen_ledger).1 = supply citizen_ledger.
Proof.
  destruct (citizen_claim_exact alice 31536000 citizen_ledger
    ltac:(apply ledger_okb_ok; vm_compute; reflexivity)) as [H1 H2].
  split; [|exact (proj1 (proj2 H1))].
  exact (H2 (mkCitizenStake 100000 0 0) eq_refl ltac:(vm_compute; discriminate)
    ltac:(split; vm_compute; (discriminate || reflexivity)) ltac:(vm_compute; discriminate)).
Defined.

(** Governance: a proposal is executed only when it is active, not yet
    executed, approved by a strict majority that reaches the quorum, and
    covered by the treasury; execution pays exactly its amount, closes it (so
    that no second execution can succeed), and keeps the supply unless the
    recipient is the treasury itself, in which case the amount is created. *)
Theorem governance_execution id total s s' :
  executeGovernanceProposal id total s = (s', inl tt) →
  ∃ p, executable s id total p ∧
    s'.(GovernanceProposals) !! id = Some (executed_proposal p) ∧
    (∀ b, b ≠ p.(p_Recipient) → b ≠ s.(TreasuryAddress) → acct s' b = acct s b) ∧
    (p.(p_Recipient) ≠ s.(TreasuryAddress) →
       (acct s' p.(p_Recipient)).(Balance) = (acct s p.(p_Recipient)).(Balance) + p.(p_Amount) ∧
       (acct s' s.(TreasuryAddress)).(Balance) = (acct s s.(TreasuryAddress)).(Balance) - p.(p_Amount)) ∧
    supply s' = supply s + (if decide (p.(p_Recipient) = s.(TreasuryAddress)) then p.(p_Amount) else 0) ∧
    ∀ total' s2, s2.(GovernanceProposals) !! id = Some (executed_proposal p) →
      (executeGovernanceProposal id total' s2).1 = s2 ∧ (executeGovernanceProposal id total' s2).2 ≠ inl tt.
Proof.
  intros Hrun. destruct (wp_ok _ _ _ _ _ _ (executeGovernanceProposal_spec id total s) Hrun) as (p & Hex & ->).
  exists p. split_and!; [done|simpl; by rewrite lookup_insert_eq| | | |].
  - intros b H1 H2. by rewrite !acct_put_ne.
  - intros Hne. split; [by rewrite acct_put_eq|by rewrite acct_put_ne, acct_put_eq].
  - case_decide as Hd; [by rewrite execute_supply_treasury|rewrite execute_supply by done; lia].
  - intros total' s2 Hp. pose proof (executeGovernanceProposal_spec id total' s2) as Hw. unfold wp in Hw.
    destruct (executeGovernanceProposal id total' s2) as [s3 [[]|e]]; [|by split].
    destruct Hw as (p2 & Hex2 & _). pose proof (ex_found _ _ _ _ Hex2). pose proof (ex_fresh _ _ _ _ Hex2) as Hf.
    rewrite Hp in *. by simplify_eq.
Qed.

Definition governance_ledger : State :=
  set_GovernanceProposals (<["p1" := mkProposal "p1" "grant" 300 alice 900000 10 true false ∅]> ∅) citizen_ledger.

Example execution_runs : (executeGovernanceProposal "p1" 1000000 governance_ledger).2 = inl tt.
Proof. vm_compute. reflexivity. Qed.

Lemma governance_execution_witness :
  ∃ p, (executeGovernanceProposal "p1" 1000000 governance_ledger).1.(GovernanceProposals) !! "p1" = Some (executed_proposal p).
Proof.
  destruct (governance_execution "p1" 1000000 governance_ledger _ (run_ok _ _ _ execution_runs)) as (p & _ & Hp & _).
  exists p. exact Hp.
Defined.

(* ------------------------------------------------------------------ *)
(** * The exchange *)

(** (C40) Quotes: [GetAmountOut] succeeds exactly when both reserves and the
    input are positive and the formula's products fit a [uint64]; the quote is
    then the constant-product formula with a 0.3% fee on unbounded integers,
    smaller than the reserve it is paid from, and the product of the reserves
    does not fall. *)
Theorem GetAmountOut_constant_product a rin rout out :
  0 ≤ a → 0 ≤ rin → 0 ≤ rout →
  (GetAmountOut a rin rout = inl out ↔
     0 < a ∧ 0 < rin ∧ 0 < rout ∧ a * 997 * rout ≤ MaxUint64 ∧ rin * 1000 + a * 997 ≤ MaxUint64 ∧
     out = a * 997 * rout / (rin * 1000 + a * 997)) ∧
  (GetAmountOut a rin rout = inl out → 0 ≤ out < rout ∧ rin * rout ≤ (rin + a) * (rout - out)).
Proof. intros Ha Hi Ho. split; [by apply GetAmountOut_inl|by apply GetAmountOut_safe]. Qed.

Lemma GetAmountOut_constant_product_witness : 5000 * 8000 ≤ (5000 + 100) * (8000 - 156).
Proof.
  destruct (GetAmountOut_constant_product 100 5000 8000 156 ltac:(lia) ltac:(lia) ltac:(lia)) as [_ H].
  exact (proj2 (H eq_refl)).
Defined.

(** [sqrtUint64], which sizes the first liquidity shares of a pool,
    terminates with the integer square root for every [uint64] but the
    largest; on that one it divides by zero. *)
Theorem sqrtUint64_correct x :
  in_u64 x →
  sqrtUint64 x = if x =? MaxUint64 then inr (Panic "integer divide by zero") else inl (Z.sqrt x).
Proof.
  intros [H0 Hm]. destruct (Z.eqb_spec x MaxUint64) as [->|Hne]; [apply sqrtUint64_max|apply sqrtUint64_exact; lia].
Qed.

Lemma sqrtUint64_correct_witness : sqrtUint64 1000000 = inl 1000.
Proof. exact (sqrtUint64_correct 1000000 ltac:(split; vm_compute; discriminate)). Defined.

(** The exchange on the ledger: a liquidity or swap transaction takes
    its fee out of the supply and nothing else, leaves the traded pool's
    record in step with the coins and tokens its account holds, keeps the
    liquidity shares adding up to the total, and touches no other pool; a
    failing one changes no account. *)
Theorem dex_pool_synced tx s txType :
  ledger_ok s → pools_ok s → 0 ≤ tx.(Fee) → in_u64 tx.(Amount) → tx.(From) ≠ PoolAddress (dex_asset_id tx) →
  txType ∈ ["dex_add_liquidity"; "dex_remove_liquidity"; "dex_swap"] →
  wp (applyDEXTx tx txType)
    (λ _ s', ledger_ok s' ∧ supply s' = supply s - tx.(Fee) ∧ pool_synced (dex_asset_id tx) s' ∧ pools_ok s' ∧
       (∀ id, id ≠ dex_asset_id tx → s'.(DEXPools) !! id = s.(DEXPools) !! id))
    (λ _ s', s'.(Accounts) = s.(Accounts)) s.
Proof.
  intros Hok Hp Hf Ha Hne Hty.
  assert (∀ m : SM State unit, wp m (λ _, pool_post tx s (dex_asset_id tx)) (λ _, err_frame s) s →
    wp m (λ _ s', ledger_ok s' ∧ supply s' = supply s - tx.(Fee) ∧ pool_synced (dex_asset_id tx) s' ∧ pools_ok s' ∧
       (∀ id, id ≠ dex_asset_id tx → s'.(DEXPools) !! id = s.(DEXPools) !! id)) (λ _ s', s'.(Accounts) = s.(Accounts)) s) as Hm.
  { intros m Hw. eapply wp_mono; [exact Hw| |by intros ? s' ?%err_frame_Accounts].
    intros [] s' ((? & ? & _) & ? & ? & ?). done. }
  unfold applyDEXTx. apply wp_bind, wp_gets, wp_bind, wp_fail_if; [done|]. intros _.
  rewrite !elem_of_cons, elem_of_nil in Hty. destruct Hty as [->|[->|[->|[]]]]; apply Hm.
  - by apply dex_add_liquidity_spec.
  - by apply dex_remove_liquidity_spec.
  - by apply dex_swap_spec.
Qed.

Definition lp_tx : Tx :=
  draft "alice" bob 1 10 0 "GOLD" [mkKV "type" "dex_add_liquidity"; mkKV "syn_amount" "400"; mkKV "asset_amount" "900"].

Definition lp_ledger : State :=
  set_Accounts (<[alice := mkAccount 1000000 (Some {["GOLD" := 5000]}) 0]> ∅) NewState.

Example lp_runs : (applyDEXTx lp_tx "dex_add_liquidity" lp_ledger).2 = inl tt.
Proof. vm_compute. reflexivity. Qed.

Lemma dex_pool_synced_witness : pool_synced "GOLD" (applyDEXTx lp_tx "dex_add_liquidity" lp_ledger).1.
Proof.
  refine (proj1 (proj2 (proj2 (wp_ok _ _ _ _ _ _ (dex_pool_synced lp_tx lp_ledger "dex_add_liquidity"
    ltac:(apply ledger_okb_ok; vm_compute; reflexivity) ltac:(by apply pools_ok_empty) ltac:(vm_compute; discriminate)
    ltac:(split; vm_compute; discriminate) ltac:(vm_compute; discriminate) ltac:(set_solver))
    (run_ok _ _ _ lp_runs))))).
Defined.

(* ------------------------------------------------------------------ *)
(** * The bridge *)

(** (C38) A bridge release goes through only when at least the required number
    of distinct registered bridge validators (by default two thirds of them,
    rounded up) signed exactly this release, and only once: its message is
    marked processed, no bridge operation ever unmarks it, and a second
    release of the same message fails whatever proof comes with it. *)
Theorem bridge_release_once `{E : Ed25519} tx s :
  0 ≤ s.(BridgeQuorum) →
  wp (bridge_release tx)
    (λ _ s', release_approved s tx (metadataValue tx.(Metadata) "source_chain_id")
               (metadataValue tx.(Metadata) "source_event_id") (tx_asset tx) ∧
       s.(ProcessedBridgeEvents) !! release_id tx ≠ Some true ∧
       s'.(ProcessedBridgeEvents) !! release_id tx = Some true ∧ s'.(Accounts) = s.(Accounts))
    (λ _ s', s' = s) s ∧
  (∀ tx' s1, wp (applyBridgeMetadata tx')
     (λ _ s2, s1.(ProcessedBridgeEvents) !! release_id tx = Some true → s2.(ProcessedBridgeEvents) !! release_id tx = Some true)
     (λ _ s2, s2 = s1) s1) ∧
  (∀ tx' s1, release_id tx' = release_id tx → s1.(ProcessedBridgeEvents) !! release_id tx = Some true →
     (bridge_release tx' s1).1 = s1 ∧ (bridge_release tx' s1).2 ≠ inl tt).
Proof.
  intros Hq. split_and!.
  - eapply wp_mono; [by apply bridge_release_spec| |done]. intros [] s' (Hf & ? & ? & ->).
    rewrite lookup_insert_eq. by destruct Hf as [-> _].
  - intros tx' s1. eapply wp_mono; [apply applyBridgeMetadata_spec| |done]. intros [] s2 [_ Hg]. apply Hg.
  - intros tx' s1 Hid Hp. rewrite <- Hid in Hp. pose proof (bridge_release_replay tx' s1 Hp) as Hw. unfold wp in Hw.
    by destruct (bridge_release tx' s1) as [s2 [[]|e]].
Qed.

(** Two bridge validators and a release both signed. *)
Definition bridge_ledger : State :=
  Eval vm_compute in
    set_BridgeValidators (<["b1" := hex0x (key_of "b1")]> (<["b2" := hex0x (key_of "b2")]> ∅)) ledger0.

Definition release_signature (name : string) : json :=
  JObj (field "validator_id" (JStr name) ++
        field "signature" (JStr (hex0x (ed_Sign name (BridgeReleaseSigningMessage "eth" "ev1" bob "syn" 500)))))%list.

Definition release_tx : Tx :=
  Eval vm_compute in
    draft "alice" bob 500 10 0 "" [mkKV "source_chain_id" "eth"; mkKV "source_event_id" "ev1";
      mkKV "type" "bridge_release_native";
      mkKV "validator_signatures" (marshal (JArr [release_signature "b1"; release_signature "b2"]))].

Example release_runs : (bridge_release release_tx bridge_ledger).2 = inl tt.
Proof. vm_compute. reflexivity. Qed.

Lemma bridge_release_once_witness :
  (bridge_release release_tx bridge_ledger).1.(ProcessedBridgeEvents) !! release_id release_tx = Some true ∧
  (bridge_release release_tx (bridge_release release_tx bridge_ledger).1).2 ≠ inl tt.
Proof.
  destruct (bridge_release_once release_tx bridge_ledger (Z.le_refl 0)) as (H1 & _ & H3).
  pose proof (wp_ok _ _ _ _ _ _ H1 (run_ok _ _ _ release_runs)) as (_ & _ & Hp & _).
  split; [exact Hp|exact (proj2 (H3 release_tx _ eq_refl Hp))].
Defined.

(* ------------------------------------------------------------------ *)
(** * Commitments *)

(** The transaction root commits to the transactions: two lists of the
    same length with one root have the same serialized transactions in the
    same order, or else a collision of SHA-256 can be read off the two lists.
    Without the length, the root does not tell an odd list from the one whose
    last transaction is repeated. *)
Theorem TxMerkleRoot_binding :
  (∀ l1 l2, length l1 = length l2 → TxMerkleRoot l1 = TxMerkleRoot l2 →
     tx_bytes <$> l1 = tx_bytes <$> l2 ∨
     ∃ x y, tx_collision l1 l2 = Some (x, y) ∧ x ≠ y ∧ sha256 x = sha256 y) ∧
  (∀ a b c, TxMerkleRoot [a; b; c] = TxMerkleRoot [a; b; c; c]).
Proof. split; [apply TxMerkleRoot_binding_aux|]. done. Qed.

Lemma TxMerkleRoot_binding_witness :
  TxMerkleRoot [transfer_tx; transfer_tx; transfer_tx] = TxMerkleRoot [transfer_tx; transfer_tx; transfer_tx; transfer_tx].
Proof. exact (proj2 TxMerkleRoot_binding transfer_tx transfer_tx transfer_tx). Defined.

(** The state root does not depend on the order in which Go walks its
    maps, and is a function of accounts, bridge, validators and fee-epoch
    counters alone: citizen stakes, governance proposals and exchange pools
    are not committed to. *)
Theorem Root_deterministic s :
  (∀ l, l ≡ₚ map_to_list s.(Accounts) →
     map (λ kv, LeafHash kv.1 kv.2) (sort_slice key_less l) = account_leaves s) ∧
  (∀ stakes props pools,
     Root (set_CitizenStakes stakes (set_GovernanceProposals props (set_DEXPools pools s))) = Root s).
Proof.
  split; [|done]. intros l Hl. unfold account_leaves, sorted_accounts. by rewrite (sort_map_order _ l Hl).
Qed.

Lemma Root_deterministic_witness : Root governance_ledger = Root (set_GovernanceProposals ∅ governance_ledger).
Proof.
  symmetry. exact (proj2 (Root_deterministic governance_ledger) governance_ledger.(CitizenStakes) ∅ governance_ledger.(DEXPools)).
Defined.
