(* ===== verification/StakingTheorems.v ===== *)
(** The main theorems about validator staking, fees and genesis, each with a
    witness. *)
From stdpp Require Import base strings list gmap.
From S2P Require Import Prelude GoStd Sha256 Json Types Ledger TxModel Dex DexLedger Merkle.
From S2P Require Import Staking StakingFacts Apply ApplyFacts Fees Block Chain ChainFacts.
From S2P Require Import ChainBuild ChainWindow ChainRun Examples.

#[local] Open Scope string_scope.
#[local] Open Scope Z_scope.

(** (C37) The validator registry: a bond, unbond or withdraw transaction moves
    coin between balance, self-bond and unbonding queue without creating any
    (only the fee leaves), evidence only ever burns on top of that, and every
    one of them keeps the registry well formed: records under their operator,
    unique canonical consensus keys, minimum bonds, at most sixteen pending
    unbondings, and no tombstoned validator in the authorizing set. *)
Theorem validator_registry_safe `{E : Ed25519} s tx ctx txType :
  ledger_ok s → registry_ok ctx.(params) s → 0 < tx.(Amount) → 0 ≤ tx.(Fee) → tx.(From) ≠ "" →
  slash_params_ok ctx.(params) →
  wp (applyValidatorTxCtx tx txType ctx)
    (λ _ s', ledger_ok s' ∧ registry_ok ctx.(params) s' ∧ nonce_step tx.(From) s s' ∧
       (txType ≠ "validator_evidence" → supply s' = supply s - tx.(Fee)) ∧
       (txType = "validator_evidence" → supply s' ≤ supply s - tx.(Fee)))
    (λ _ s', s' = s) s.
Proof.
  intros Hok Hr Ha Hf Hn [Hs1 Hs2]. eapply wp_mono; [by apply (applyValidatorTxCtx_spec s tx ctx true)| |done].
  intros [] s' (_ & ? & ? & ? & ? & ?). done.
Qed.

Definition bond_ctx : validatorTxContext := mkCtx 20 (mkParams 1 100 10 21 50 50 500 1000) "synthos-test".
Definition bond_tx : Tx :=
  Eval vm_compute in draft "alice" alice 600 10 0 "" [mkKV "consensus_pub_key" (hex0x (key_of "v1")); mkKV "type" "validator_bond"].

Example bond_runs : (applyValidatorTxCtx bond_tx "validator_bond" bond_ctx ledger0).2 = inl tt.
Proof. vm_compute. reflexivity. Qed.

Lemma validator_registry_safe_witness :
  registry_ok bond_ctx.(params) (applyValidatorTxCtx bond_tx "validator_bond" bond_ctx ledger0).1 ∧
  supply (applyValidatorTxCtx bond_tx "validator_bond" bond_ctx ledger0).1 = supply ledger0 - 10.
Proof.
  pose proof (wp_ok _ _ _ _ _ _ (validator_registry_safe ledger0 bond_tx bond_ctx "validator_bond"
    ltac:(apply ledger_okb_ok; vm_compute; reflexivity) ltac:(by apply registry_ok_empty) ltac:(vm_compute; reflexivity)
    ltac:(vm_compute; discriminate) ltac:(vm_compute; discriminate) ltac:(split; split; vm_compute; discriminate))
    (run_ok _ _ _ bond_runs)) as (_ & Hr & _ & Hs & _).
  split; [exact Hr|]. apply Hs. discriminate.
Defined.

(** What a ledger may go through afterwards: transactions, accepted or not,
    penalties reported by the consensus engine, and steps that leave the
    records of validators alone (fees, corrections, snapshots, ...). *)
Inductive later `{E : Ed25519} (s : State) : State → Prop :=
  | later_now : later s s
  | later_tx s1 tx ctx : later s s1 → later s (ApplyTransaction tx ctx s1).1
  | later_penalty s1 key bps : later s s1 → later s (SlashForDoubleSign key bps s1).1
  | later_other s1 s2 : later s s1 → s2.(Validators) = s1.(Validators) → later s s2.

Lemma later_convicted `{E : Ed25519} op key s s2 : convicted op key s → later s s2 → convicted op key s2.
Proof.
  intros Hc. induction 1 as [|s1 tx ctx _ IH|s1 k bps _ IH|s1 s2 _ IH Hv]; [done| |by apply SlashForDoubleSign_convicted|by eapply convicted_same].
  pose proof (ApplyTransaction_convicted op key tx ctx s1) as Hw. unfold wp in Hw. destruct (ApplyTransaction tx ctx s1) as [s2 [r|e]]; by apply Hw.
Qed.

(** (C36) Slashing on evidence: an accepted [validator_evidence] transaction
    proves that a registered, not yet tombstoned validator signed two
    different blocks at one height. Its bond and each of its pending
    unbondings lose their fraction, [amount * bps mod 2^64 / 10000] (the
    product is taken in 64 bits), it is tombstoned and leaves the authorizing
    set, nobody else's record changes; the reporter is paid its fraction of
    the cut and the rest is burned. The record then stays, with its key and
    tombstoned, through whatever transactions, penalties and other steps come
    later, and no evidence against the key is accepted in any such state. *)
Theorem evidence_slashes_once `{E : Ed25519} s tx ctx s' :
  ledger_ok s → registry_ok ctx.(params) s → 0 ≤ tx.(Fee) → slash_params_ok ctx.(params) →
  applyValidatorEvidence tx ctx s = (s', inl tt) →
  let part bps x := (x * bps) mod 2 ^ 64 / 10000 in
  let cut := part ctx.(params).(SlashFractionBps) in
  ∃ key op r, double_signed ctx key ∧ s.(Validators) !! op = Some r ∧ r.(ConsensusPubKey) = key ∧ r.(Tombstoned) = false ∧
    s'.(Validators) = <[op := mkValidator r.(Operator) r.(ConsensusPubKey) r.(Moniker) r.(Endpoint) (r.(SelfBond) - cut r.(SelfBond))
      r.(FirstBondHeight) (map (λ e, mkUnbonding (e.(ub_Amount) - cut e.(ub_Amount)) e.(CompleteAtHeight)) r.(Unbonding)) true]> s.(Validators) ∧
    (let total := cut r.(SelfBond) + lsum (λ e, cut e.(ub_Amount)) r.(Unbonding) in
     let reward := part ctx.(params).(ReporterRewardBps) total in
     0 ≤ reward ≤ total ∧ (acct s' tx.(From)).(Balance) = (acct s tx.(From)).(Balance) + reward - tx.(Fee) ∧
     supply s' = supply s - tx.(Fee) - (total - reward)) ∧
    (∀ v, v ∈ s'.(ValidatorSetSnapshot) ↔ v ∈ s.(ValidatorSetSnapshot) ∧ v.(av_ConsensusPubKey) ≠ key) ∧
    ∀ s2, later s' s2 →
      (∃ r2, s2.(Validators) !! op = Some r2 ∧ r2.(ConsensusPubKey) = key ∧ r2.(Tombstoned) = true) ∧
      ∀ tx2 ctx2, check_evidence tx2 ctx2 = inl key →
        (applyValidatorEvidence tx2 ctx2 s2).1 = s2 ∧ (applyValidatorEvidence tx2 ctx2 s2).2 ≠ inl tt.
Proof.
  intros Hok Hr Hf [Hs1 Hs2] Hrun part cut.
  destruct (wp_ok _ _ _ _ _ _ (applyValidatorEvidence_spec s tx ctx true Hok Hr Hf Hs1 Hs2) Hrun)
    as (_ & _ & Hr' & _ & key & [Hd (op & r & Hop & Hk & Ht & Hsl) Hsn]).
  exists key, op, r. pose proof (slashAndTombstone_closed r ctx.(params).(SlashFractionBps)) as Hcl.
  pose proof (ok_validators s Hok _ _ Hop) as [Hnn Hu]. pose proof (validator_stake_le s op r Hok Hop) as Hvs. pose proof (ok_supply s Hok).
  pose proof (slashed_total_ok r _ Hs1 Hnn Hu ltac:(pose proof (spendable_nonneg s Hok); pose proof (citizen_locked_nonneg s Hok); lia)) as Htot.
  destruct (slashAndTombstone r _) as [r' sl]. destruct Hsl as (Hv & Hsup & Hrew & Hbal). simpl in Hcl, Htot. subst r' sl.
  split_and!; try done. intros s2 Hlater.
  assert (convicted op key s') as Hc.
  { split; [eexists; rewrite Hv, lookup_insert_eq; split; [done|exact Hk]|].
    intros a ra Ha. destruct (reg_records _ _ _ Hr' a ra Ha) as [? ? ?]. split_and!; try done. intros Hka.
    assert (a = op) as -> by (eapply (reg_keys _ _ _ Hr'); [exact Ha|by rewrite Hv, lookup_insert_eq|simpl; congruence]).
    rewrite Hv, lookup_insert_eq in Ha. by injection Ha as <-. }
  pose proof (later_convicted op key s' s2 Hc Hlater) as Hc2. split.
  - destruct (cv_record _ _ _ Hc2) as (r2 & Hr2 & Hk2). exists r2. by destruct (cv_records _ _ _ Hc2 op r2 Hr2) as (_ & _ & ?); auto.
  - intros tx2 ctx2 Hck. by apply (convicted_refused op key).
Qed.

(** A registered validator and proof that it approved two blocks. *)
Definition evidence_ledger : State :=
  Eval vm_compute in (applyValidatorTxCtx bond_tx "validator_bond" bond_ctx ledger0).1.

Definition hash_a : string := Eval vm_compute in hex0x (sha256 "a").
Definition hash_b : string := Eval vm_compute in hex0x (sha256 "b").
Definition evidence_ctx : validatorTxContext := mkCtx 60 (mkParams 1 100 10 21 50 50 500 1000) "synthos-test".
Definition evidence_tx : Tx :=
  Eval vm_compute in draft "bob" bob 1 10 0 ""
    [mkKV "consensus_pub_key" (hex0x (key_of "v1")); mkKV "evidence_height" "55"; mkKV "hash_a" hash_a; mkKV "hash_b" hash_b;
     mkKV "kind" "approve"; mkKV "sig_a" (hex0x (ed_Sign "v1" (StakeApprovalMessage "synthos-test" 55 hash_a)));
     mkKV "sig_b" (hex0x (ed_Sign "v1" (StakeApprovalMessage "synthos-test" 55 hash_b)));
     mkKV "type" "validator_evidence"].

Example evidence_runs : (applyValidatorEvidence evidence_tx evidence_ctx evidence_ledger).2 = inl tt.
Proof. vm_compute. reflexivity. Qed.

Lemma evidence_registry : registry_ok evidence_ctx.(params) evidence_ledger.
Proof.
  pose proof (wp_ok _ _ _ _ _ _ (applyValidatorTxCtx_spec ledger0 bond_tx bond_ctx true
    ltac:(apply ledger_okb_ok; vm_compute; reflexivity) ltac:(by apply registry_ok_empty) ltac:(vm_compute; reflexivity)
    ltac:(vm_compute; discriminate) ltac:(vm_compute; discriminate) ltac:(split; vm_compute; discriminate)
    ltac:(split; vm_compute; discriminate) "validator_bond")
    (run_ok _ _ _ bond_runs)) as (_ & _ & Hr & _).
  exact (eq_ind _ (registry_ok evidence_ctx.(params)) Hr evidence_ledger ltac:(vm_compute; reflexivity)).
Qed.

Lemma evidence_slashes_once_witness :
  ∃ key op, double_signed evidence_ctx key ∧
    ∀ s2, later (applyValidatorEvidence evidence_tx evidence_ctx evidence_ledger).1 s2 →
      ∃ r2, s2.(Validators) !! op = Some r2 ∧ r2.(ConsensusPubKey) = key ∧ r2.(Tombstoned) = true.
Proof.
  destruct (evidence_slashes_once evidence_ledger evidence_tx evidence_ctx _
    ltac:(apply ledger_okb_ok; vm_compute; reflexivity) evidence_registry ltac:(vm_compute; discriminate)
    ltac:(split; split; vm_compute; discriminate) (run_ok _ _ _ evidence_runs))
    as (key & op & r & Hd & _ & _ & _ & _ & _ & _ & Hlater).
  exists key, op. split; [exact Hd|]. intros s2 Hs2. exact (proj1 (Hlater s2 Hs2)).
Defined.

(** The active validator set: it is the same whatever order the registry
    is walked in, holds only registered, untombstoned validators with at least
    the minimum bond, respects the cap, and no eligible validator it leaves
    out has more power than a member (or equal power and a smaller operator
    address). *)
Theorem active_set_best p s :
  0 ≤ p.(MinSelfBond) →
  (∀ l, l ≡ₚ map_to_list s.(Validators) → active_from p l = ActiveValidatorSet s p) ∧
  (∀ v, v ∈ ActiveValidatorSet s p → ∃ r, s.(Validators) !! v.(av_Operator) = Some r ∧ v.(av_Power) = r.(SelfBond) ∧
     v.(av_ConsensusPubKey) = r.(ConsensusPubKey) ∧ r.(Tombstoned) = false ∧ p.(MinSelfBond) ≤ r.(SelfBond)) ∧
  (0 < p.(MaxActiveValidators) → Z.of_nat (length (ActiveValidatorSet s p)) ≤ p.(MaxActiveValidators)) ∧
  (∀ v a r, v ∈ ActiveValidatorSet s p → s.(Validators) !! a = Some r → eligible p r = true →
     active_of (a, r) ∉ ActiveValidatorSet s p → active_less (active_of (a, r)) v = false).
Proof.
  intros Hm. split_and!.
  - intros l Hl. by apply active_from_order.
  - intros v Hv. destruct (active_member p s v Hm Hv) as (a & r & Ha & -> & ? & ? & _). by exists r.
  - apply active_cap.
  - apply active_best.
Qed.

Lemma active_set_best_witness : Z.of_nat (length (ActiveValidatorSet evidence_ledger bond_ctx.(params))) ≤ 21.
Proof.
  destruct (active_set_best bond_ctx.(params) evidence_ledger ltac:(vm_compute; discriminate)) as (_ & _ & H & _).
  apply H. vm_compute. reflexivity.
Defined.

(** Block fees: burn, treasury share and proposer share add up to the
    fees of the block, what is given back never exceeds them, and nothing but
    balances moves. *)
Theorem ApplyBlockFees_split txs proposer height s :
  ledger_ok s → (∀ tx, tx ∈ txs → 0 ≤ tx.(Fee)) → supply s + lsum Fee txs ≤ MaxUint64 →
  wp (ApplyBlockFees txs proposer height)
    (λ split s', ledger_ok s' ∧ fee_frame s s' ∧
       split.(TotalFees) = lsum Fee txs ∧
       split.(BurnAmount) + split.(ToTreasury) + split.(ToProposer) = lsum Fee txs ∧
       0 ≤ split.(BurnAmount) ∧ 0 ≤ split.(ToTreasury) ∧ 0 ≤ split.(ToProposer) ∧
       supply s' = supply s + split.(ToTreasury) + split.(ToProposer))
    (λ _ _, True) s.
Proof. intros Hok Hf Hm. by apply ApplyBlockFees_spec. Qed.

Example fees_run : (ApplyBlockFees [transfer_tx; transfer_tx] alice 5 ledger0).2 = inl (mkFeeSplit 20 10 0 10).
Proof. vm_compute. reflexivity. Qed.

Lemma ApplyBlockFees_split_witness :
  supply (ApplyBlockFees [transfer_tx; transfer_tx] alice 5 ledger0).1 = supply ledger0 + 0 + 10.
Proof.
  pose proof (wp_ok _ _ _ _ _ _ (ApplyBlockFees_split [transfer_tx; transfer_tx] alice 5 ledger0
    ltac:(apply ledger_okb_ok; vm_compute; reflexivity)
    ltac:(intros tx; rewrite !elem_of_cons, elem_of_nil; intros [->|[->|[]]]; vm_compute; discriminate)
    ltac:(vm_compute; discriminate))
    (run_ok _ _ _ fees_run)) as (_ & _ & _ & _ & _ & _ & _ & Hs).
  exact Hs.
Defined.

(** The fee-epoch payout: it moves at most half of the epoch's treasury
    income from the treasury to operators that signed, creates no coin,
    touches no other account, and resets the epoch's counters. *)
Theorem fee_epoch_payout epoch s :
  ledger_ok s → epoch_ok s →
  let '(s', payouts) := DistributeFeeEpochPayout epoch s in
  ledger_ok s' ∧ supply s' = supply s ∧ epoch_ok s' ∧
  s'.(FeeEpochTreasuryIncome) = 0 ∧ s'.(FeeEpochTotalPower) = 0 ∧ s'.(FeeEpochSignedPower) = ∅ ∧
  lsum po_Amount payouts ≤ s.(FeeEpochTreasuryIncome) / 2 ∧
  ∀ b, (acct s' b).(Balance) = (acct s b).(Balance)
         + lsum (λ p, if decide (b = p.(po_Operator)) then p.(po_Amount) else 0) payouts
         - (if decide (b = s.(TreasuryAddress)) then lsum po_Amount payouts else 0).
Proof.
  intros Hok He. pose proof (DistributeFeeEpochPayout_spec epoch s Hok He) as H.
  destruct (DistributeFeeEpochPayout epoch s) as [s' payouts]. destruct H as (? & ? & _ & ? & ? & ? & ? & ? & _ & ?). done.
Qed.

Definition epoch_ledger : State :=
  set_FeeEpochSignedPower (<[alice := 30]> ∅) (set_FeeEpochTotalPower 40
    (set_FeeEpochTreasuryIncome 1000 (set_TreasuryAddress bob ledger0))).

Lemma fee_epoch_payout_witness : supply (DistributeFeeEpochPayout 3 epoch_ledger).1 = supply epoch_ledger.
Proof.
  pose proof (fee_epoch_payout 3 epoch_ledger ltac:(apply ledger_okb_ok; vm_compute; reflexivity)
    ltac:(split; [vm_compute; discriminate|apply (bool_decide_unpack _); vm_compute; reflexivity|split; vm_compute; discriminate])) as H.
  destruct (DistributeFeeEpochPayout 3 epoch_ledger) as [s' l]. exact (proj1 (proj2 H)).
Defined.

(** Double signing reported by the consensus engine: the penalty burns
    exactly what it reports, tombstones the validator with that key, and is
    charged at most once per key. *)
Theorem SlashForDoubleSign_safe p key bps s s' slashed :
  ledger_ok s → registry_ok p s → 0 ≤ bps ≤ 10000 →
  SlashForDoubleSign key bps s = (s', (slashed, true)) →
  ledger_ok s' ∧ supply s' = supply s - slashed ∧ 0 ≤ slashed ∧
  (∃ op r, s.(Validators) !! op = Some r ∧ r.(Tombstoned) = false ∧ inl r.(ConsensusPubKey) = normalizeConsensusPubKey key ∧
     s'.(Validators) = <[op := (slashAndTombstone r bps).1]> s.(Validators) ∧
     (slashAndTombstone r bps).1.(Tombstoned) = true) ∧
  ∀ bps', SlashForDoubleSign key bps' s' = (s', (0, false)).
Proof.
  intros Hok Hr Hb Hrun. destruct (SlashForDoubleSign_spec true p _ _ _ _ _ Hok Hr Hb Hrun) as (? & ? & ? & op & r & ? & ? & ? & ?).
  split_and!; [done..| |].
  - exists op, r. split_and!; try done. apply slashAndTombstone_key.
  - intros bps'. exact (SlashForDoubleSign_once true p key bps bps' s s' slashed Hok Hr Hb Hrun).
Qed.

Lemma SlashForDoubleSign_safe_witness :
  supply (SlashForDoubleSign (hex0x (key_of "v1")) 500 evidence_ledger).1 = supply evidence_ledger - 30.
Proof.
  destruct (SlashForDoubleSign_safe evidence_ctx.(params) (hex0x (key_of "v1")) 500 evidence_ledger
    (SlashForDoubleSign (hex0x (key_of "v1")) 500 evidence_ledger).1 30
    ltac:(apply ledger_okb_ok; vm_compute; reflexivity) evidence_registry ltac:(split; vm_compute; discriminate)
    ltac:(vm_compute; reflexivity)) as (_ & Hs & _).
  exact Hs.
Defined.

(** A new chain: the genesis supply is exactly the allocation, and every
    invariant of this development holds at the start (ledger, pools, registry,
    mempool, window and checkpoint), provided the allocation is non-negative
    and fits a [uint64]. *)
Theorem NewChain_initial `{E : Ed25519} g c :
  NewChain g = inl c → map_Forall (λ _ b, 0 ≤ b) g.(Alloc) → msum id g.(Alloc) ≤ MaxUint64 →
  supply c.(c_State) = msum id g.(Alloc) ∧ world_ok c.(validatorStaking) c.(c_State) ∧
  chain_height c = 0 ∧ window_ok c.(Blocks) c ∧ checkpoint_ok c ∧ mempool_ok c.
Proof.
  intros (st & gb & Hs & Hh & Ht & ->)%NewChain_inv Hpos Hmax.
  destruct (Genesis.ToState_ok g st Hs Hpos Hmax) as (Hok & Hd & Hv & Hsn).
  assert (Height (Header gb) = 0) as Hht by by rewrite Hh.
  split_and!.
  - by apply Genesis.ToState_supply.
  - split; [done|unfold pools_ok; simpl; rewrite Hd; apply map_Forall_empty|by apply registry_ok_empty|].
    unfold payable. simpl. rewrite (Genesis.ToState_proposals g st Hs). apply map_Forall_empty.
  - unfold chain_height, tip. simpl. done.
  - split; simpl; [|lia|done|vm_compute; done]. intros [|i] b; simpl; [by intros [= <-]|done].
  - split; [done|]. exists (Clone st), (Clone (Clone (Clone st))). split_and!; [done| |by rewrite !Clone_idemp].
    cbn [advance_checkpoint Blocks]. unfold next_state, txs_of. by rewrite Ht.
  - intros id tx. simpl. by rewrite lookup_empty.
Qed.

Definition tiny_genesis : Genesis := mkGenesis "synthos-test" 7 {[alice := 1000]} ∅.

Lemma NewChain_initial_witness : ∃ c, NewChain tiny_genesis = inl c ∧ supply c.(c_State) = 1000.
Proof.
  destruct (NewChain tiny_genesis) as [c|e] eqn:Hc; [|vm_compute in Hc; discriminate].
  exists c. split; [reflexivity|].
  refine (proj1 (NewChain_initial tiny_genesis c Hc ltac:(apply (bool_decide_unpack _); vm_compute; reflexivity)
    ltac:(vm_compute; discriminate))).
Defined.
