(* ===== verification/OrderBook.v ===== *)
(** The order book (internal/chain/orderbook.go): limit orders matched by
    price, then time.

    Orders are values: an order is placed once, and the caller's copy of it is
    the one returned. [time.Now()] is an argument. Any side but [Buy] is
    handled as [Sell]. *)
From stdpp Require Import base strings list gmap sorting.
From S2P Require Import Prelude GoStd Types.

#[local] Open Scope string_scope.
#[local] Open Scope list_scope.
#[local] Open Scope Z_scope.

Inductive Side : Type := Buy | Sell.

Record Order : Type := mkOrder {
  o_ID : string;
  o_Owner : Address;
  o_AssetPair : string;
  o_Side : Side;
  Price : Z;
  o_Amount : Z;
  Filled : Z;
  o_Timestamp : Z
}.

Record Trade : Type := mkTrade { MakerID : string; TakerID : string; t_Price : Z; t_Amount : Z }.

Record OrderBook : Type := mkBook { AssetPair : string; Bids : list Order; Asks : list Order }.

Definition NewOrderBook (pair : string) : OrderBook := mkBook pair [] [].

Definition set_Filled (f : Z) (o : Order) : Order :=
  mkOrder o.(o_ID) o.(o_Owner) o.(o_AssetPair) o.(o_Side) o.(Price) o.(o_Amount) f o.(o_Timestamp).
Definition set_o_Timestamp (t : Z) (o : Order) : Order :=
  mkOrder o.(o_ID) o.(o_Owner) o.(o_AssetPair) o.(o_Side) o.(Price) o.(o_Amount) o.(Filled) t.

(** The orders of the two [sort.Slice] calls. *)
Definition bid_less (x y : Order) : bool :=
  if x.(Price) =? y.(Price) then x.(o_Timestamp) <? y.(o_Timestamp) else y.(Price) <? x.(Price).
Definition ask_less (x y : Order) : bool :=
  if x.(Price) =? y.(Price) then x.(o_Timestamp) <? y.(o_Timestamp) else x.(Price) <? y.(Price).

(** [min] *)
Definition min_u64 (a b : Z) : Z := if a <? b then a else b.

(** The loop of [matchBuy] and [matchSell] over the resting orders; [stop]
    is the test that ends it. A filled order is cut out of the slice, one
    that is left open is stepped over. *)
Fixpoint match_side (stop : Order → Order → bool) (resting : list Order) (order : Order)
  : list Order * Order * list Trade :=
  match resting with
  | [] => ([], order, [])
  | maker :: rest =>
      if negb (order.(Filled) <? order.(o_Amount)) || stop order maker then (resting, order, [])
      else
        let fill := min_u64 (u64 (order.(o_Amount) - order.(Filled))) (u64 (maker.(o_Amount) - maker.(Filled))) in
        let order := set_Filled (u64 (order.(Filled) + fill)) order in
        let maker := set_Filled (u64 (maker.(Filled) + fill)) maker in
        let trade := mkTrade maker.(o_ID) order.(o_ID) maker.(Price) fill in
        let '(rest, order, trades) := match_side stop rest order in
        ((if maker.(Filled) =? maker.(o_Amount) then rest else maker :: rest), order, trade :: trades)
  end.

Definition buy_stop (order ask : Order) : bool := order.(Price) <? ask.(Price).
Definition sell_stop (order bid : Order) : bool := bid.(Price) <? order.(Price).

(** [matchBuy], [matchSell] *)
Definition matchBuy (ob : OrderBook) (order : Order) : OrderBook * Order * list Trade :=
  let '(asks, order, trades) := match_side buy_stop ob.(Asks) order in
  (mkBook ob.(AssetPair) ob.(Bids) asks, order, trades).
Definition matchSell (ob : OrderBook) (order : Order) : OrderBook * Order * list Trade :=
  let '(bids, order, trades) := match_side sell_stop ob.(Bids) order in
  (mkBook ob.(AssetPair) bids ob.(Asks), order, trades).

(** [PlaceOrder], with the order as it leaves it. *)
Definition PlaceOrder (now : Z) (order : Order) (ob : OrderBook) : OrderBook * Order * list Trade :=
  let order := set_o_Timestamp now order in
  match order.(o_Side) with
  | Buy =>
      let '(ob, order, trades) := matchBuy ob order in
      if order.(Filled) <? order.(o_Amount)
      then (mkBook ob.(AssetPair) (sort_slice bid_less (ob.(Bids) ++ [order])) ob.(Asks), order, trades)
      else (ob, order, trades)
  | Sell =>
      let '(ob, order, trades) := matchSell ob order in
      if order.(Filled) <? order.(o_Amount)
      then (mkBook ob.(AssetPair) ob.(Bids) (sort_slice ask_less (ob.(Asks) ++ [order])), order, trades)
      else (ob, order, trades)
  end.

(* ------------------------------------------------------------------ *)
(** * Matching *)

(** What is left of an order. *)
Definition open (o : Order) : Z := o.(o_Amount) - o.(Filled).

Definition order_ok (o : Order) : Prop := 0 ≤ o.(Filled) ≤ o.(o_Amount) ∧ o.(o_Amount) ≤ MaxUint64.
Definition resting_ok (o : Order) : Prop := 0 ≤ o.(Filled) < o.(o_Amount) ∧ o.(o_Amount) ≤ MaxUint64.

(** The trade that takes [q] from [maker]. *)
Definition take_from (taker : Order) (maker : Order) (q : Z) : Trade := mkTrade maker.(o_ID) taker.(o_ID) maker.(Price) q.

(** Resting orders that come before [m] are at least as good as it. *)
Definition best_first (stop : Order → Order → bool) (resting : list Order) : Prop :=
  ∀ o, StronglySorted (λ m m', stop o m = true → stop o m' = true) resting.

(** The reference: matching fills the resting orders completely, in their
    order, up to one that it may fill in part, and leaves the rest alone. *)
Inductive matched (stop : Order → Order → bool) (taker : Order)
  : list Order → list Order → Z → list Trade → Prop :=
  | matched_full gone rest :
      Forall (λ m, stop taker m = false) gone →
      lsum open gone ≤ open taker →
      (lsum open gone = open taker ∨ Forall (λ m, stop taker m = true) (take 1 rest)) →
      matched stop taker (gone ++ rest) rest (lsum open gone) ((λ m, take_from taker m (open m)) <$> gone)
  | matched_part gone m rest q :
      Forall (λ m, stop taker m = false) gone → stop taker m = false →
      0 < q < open m → lsum open gone + q = open taker →
      matched stop taker (gone ++ m :: rest) (set_Filled (m.(Filled) + q) m :: rest) (open taker)
        (((λ m, take_from taker m (open m)) <$> gone) ++ [take_from taker m q]).

Section matching.
Context (stop : Order → Order → bool).
Context (stop_fill : ∀ f o m, stop (set_Filled f o) m = stop o m).

Lemma set_Filled_twice f g o : set_Filled f (set_Filled g o) = set_Filled f o.
Proof. done. Qed.

Lemma matched_skip taker m gone_open resting rest q trades :
  stop taker m = false → open m = gone_open → gone_open ≤ open taker → 0 ≤ taker.(Filled) → 0 < gone_open →
  matched stop (set_Filled (taker.(Filled) + gone_open) taker) resting rest q trades →
  matched stop taker (m :: resting) rest (gone_open + q) (take_from taker m gone_open :: trades).
Proof.
  intros Hs Hm Hle Hf Hpos. set (t' := set_Filled _ taker).
  assert (open t' = open taker - gone_open) as Ho by (unfold open, t'; simpl; lia).
  assert (∀ l, Forall (λ m, stop t' m = false) l → Forall (λ m, stop taker m = false) l) as Hall.
  { intros l Hl. eapply Forall_impl; [exact Hl|]. intros x Hx. unfold t' in Hx. by rewrite stop_fill in Hx. }
  destruct 1 as [gone rest Hg Hsum Hend|gone m' rest q Hg Hs' Hq Hsum].
  - subst gone_open. apply (matched_full stop taker (m :: gone) rest); [by constructor; [|apply Hall]|simpl; lia|].
    destruct Hend as [?|Hr]; [left; simpl; lia|right]. eapply Forall_impl; [exact Hr|].
    intros x Hx. unfold t' in Hx. by rewrite stop_fill in Hx.
  - replace (gone_open + open t') with (open taker) by lia. subst gone_open.
    apply (matched_part stop taker (m :: gone) m' rest q); [by constructor; [|apply Hall]| |done|simpl; lia].
    unfold t' in Hs'. by rewrite stop_fill in Hs'.
Qed.

(** The loop does what the reference says. *)
Lemma match_side_matched resting taker :
  order_ok taker → Forall resting_ok resting →
  ∃ q, matched stop taker resting (match_side stop resting taker).1.1 q (match_side stop resting taker).2 ∧
    (match_side stop resting taker).1.2 = set_Filled (taker.(Filled) + q) taker.
Proof.
  intros Ht Hr. revert taker Ht. induction Hr as [|m resting Hm Hr IH]; intros taker Ht.
  - exists 0. split; [|destruct taker; simpl; by rewrite Z.add_0_r].
    apply (matched_full stop taker [] []); [done| |by right]. unfold order_ok, open in *; simpl; lia.
  - simpl. destruct (Z.ltb_spec taker.(Filled) taker.(o_Amount)) as [Hopen|Hfull]; simpl.
    2: { exists 0. split; [|destruct taker; simpl in *; by rewrite Z.add_0_r].
         apply (matched_full stop taker [] (m :: resting)); [done|..]; unfold order_ok, open in *; simpl; [lia|left; lia]. }
    destruct (stop taker m) eqn:Hs.
    { exists 0. split; [|destruct taker; simpl in *; by rewrite Z.add_0_r].
      apply (matched_full stop taker [] (m :: resting)); [done|..]; [unfold order_ok, open in *; simpl; lia|].
      right. by repeat constructor. }
    unfold order_ok, resting_ok in *. rewrite !(u64_small (_ - _)) by (split; lia). fold (open taker) (open m).
    assert (open taker = taker.(o_Amount) - taker.(Filled) ∧ open m = m.(o_Amount) - m.(Filled)) as [Eo Em] by done.
    unfold min_u64. destruct (Z.ltb_spec (open taker) (open m)) as [Hpart|Hall].
    + set (o' := set_Filled (u64 (Filled taker + open taker)) taker).
      assert (Filled o' = o_Amount o') as Hfull by (unfold o'; simpl; rewrite u64_small by (split; lia); lia).
      assert (match_side stop resting o' = (resting, o', [])) as ->.
      { clearbody o'. destruct resting as [|x l]; [done|]. simpl. destruct (Z.ltb_spec (Filled o') (o_Amount o')); [lia|done]. }
      simpl. rewrite u64_small by (split; lia). rewrite (proj2 (Z.eqb_neq _ _)) by lia.
      exists (open taker). split; [|unfold o'; by rewrite u64_small by (split; lia)].
      apply (matched_part stop taker [] m resting (open taker)); try done; simpl; lia.
    + rewrite (u64_small (Filled m + _)) by (split; lia). rewrite (u64_small (Filled taker + _)) by (split; lia).
      set (o' := set_Filled (Filled taker + open m) taker).
      destruct (IH o') as (q & Hmt & Ho); [unfold order_ok, o'; simpl; lia|].
      destruct (match_side stop resting o') as [[rest o''] trades]. cbn [fst snd] in *. subst o''.
      simpl. rewrite (proj2 (Z.eqb_eq _ _)) by lia.
      exists (open m + q). split; [|unfold o'; rewrite set_Filled_twice; f_equal; simpl; lia].
      apply matched_skip; try done; lia.
Qed.

(** The volume executed is all that the limit allows. *)
Lemma matched_volume taker resting rest q trades :
  best_first stop resting → Forall resting_ok resting → matched stop taker resting rest q trades →
  q = Z.min (open taker) (lsum open (filter (λ m, stop taker m = false) resting)) ∧ lsum t_Amount trades = q ∧
  lsum open rest = lsum open resting - q.
Proof.
  intros Hb Hr Hm. assert (∀ l, lsum t_Amount ((λ m, take_from taker m (open m)) <$> l) = lsum open l) as Hl.
  { intros l. rewrite lsum_fmap. apply lsum_ext. done. }
  assert (∀ l, Forall resting_ok l → 0 ≤ lsum open l) as Hpos.
  { intros l H. apply lsum_nonneg. intros o Ho. rewrite Forall_forall in H. destruct (H o Ho). unfold open. lia. }
  assert (∀ l, Forall resting_ok l → Forall resting_ok (filter (λ m, stop taker m = false) l)) as Hfr.
  { intros l. rewrite !Forall_forall. intros H x [_ Hx]%list_elem_of_filter. by apply H. }
  assert (∀ l, Forall (λ m, stop taker m = false) l → filter (λ m, stop taker m = false) l = l) as Hf.
  { clear. induction 1 as [|x l Hx _ IH]; [done|]. by rewrite filter_cons_True, IH by done. }
  destruct Hm as [gone rest Hg Hsum Hend|gone m rest q Hg Hs Hq Hsum]; apply Forall_app in Hr as [Hrg Hrr];
    rewrite filter_app, (Hf gone), !lsum_app by done.
  - pose proof (Hpos (filter (λ m, stop taker m = false) rest) ltac:(by apply Hfr)). split_and!; [|apply Hl|lia].
    destruct Hend as [->|Hstop]; [lia|]. assert (filter (λ m, stop taker m = false) rest = []) as ->; [|simpl; lia].
    specialize (Hb taker). apply StronglySorted_app in Hb as (_ & _ & Hb). destruct rest as [|x rest]; [done|].
    inversion_clear Hstop as [|?? Hx _]. inversion_clear Hb as [|?? _ Hb'].
    rewrite filter_cons_False by congruence. clear -Hb' Hx. induction Hb' as [|y l Hy _ IH]; [done|].
    by rewrite filter_cons_False by (rewrite Hy; done).
  - inversion_clear Hrr as [|?? Hrm Hrr']. rewrite filter_cons_True by done.
    pose proof (Hpos (filter (λ m, stop taker m = false) rest) ltac:(by apply Hfr)).
    rewrite Hl, !lsum_cons, lsum_nil. cbn [t_Amount take_from]. unfold open in *. simpl. lia.
Qed.

(** The orders left are the ones that were there, with less open. *)
Lemma matched_rest taker resting rest q trades :
  Forall resting_ok resting → matched stop taker resting rest q trades →
  Forall resting_ok rest ∧ ∃ gone rest0, resting = gone ++ rest0 ∧ set_Filled 0 <$> rest0 = set_Filled 0 <$> rest.
Proof.
  intros Hr. destruct 1 as [gone rest _ _ _|gone m rest q _ _ Hq _]; apply Forall_app in Hr as [_ Hr]; [by split; [|eauto]|].
  inversion_clear Hr as [|?? Hm Hr']. split; [|by exists gone, (m :: rest)].
  constructor; [|done]. unfold resting_ok, open in *. simpl. lia.
Qed.

Lemma matched_trades taker resting rest q trades :
  Forall resting_ok resting → matched stop taker resting rest q trades →
  Forall (λ t, ∃ m, m ∈ resting ∧ t = take_from taker m t.(t_Amount) ∧ stop taker m = false ∧ 0 < t.(t_Amount) ≤ open m) trades.
Proof.
  clear stop_fill. intros Hr Hm. assert (∀ gone rest, Forall resting_ok (gone ++ rest) → Forall (λ m, stop taker m = false) gone →
    Forall (λ t, ∃ m, m ∈ gone ++ rest ∧ t = take_from taker m t.(t_Amount) ∧ stop taker m = false ∧ 0 < t.(t_Amount) ≤ open m)
      ((λ m, take_from taker m (open m)) <$> gone)) as Hfull.
  { clear. intros gone rest Hr Hg. apply Forall_forall. intros t (m & -> & Hin)%list_elem_of_fmap.
    assert (m ∈ gone ++ rest) as Hin' by (apply elem_of_app; by left).
    exists m. rewrite Forall_forall in Hg, Hr. destruct (Hr m Hin') as [? ?]. split_and!; try done; [by apply Hg|unfold open; simpl; lia..]. }
  destruct Hm as [gone rest Hg _ _|gone m rest q Hg Hs Hq _]; [by apply Hfull|].
  apply Forall_app. split; [by apply Hfull|]. constructor; [|done]. exists m. simpl. split_and!; try done; [set_solver|lia..].
Qed.

(** A match that leaves the taker open has taken everything acceptable. *)
Lemma matched_open taker resting rest q trades :
  best_first stop resting → matched stop taker resting rest q trades → q < open taker →
  Forall (λ m, stop taker m = true) rest.
Proof.
  intros Hb. destruct 1 as [gone rest Hg Hsum Hend|gone m rest q Hg Hs Hq Hsum]; [|lia]. intros Hlt.
  destruct Hend as [?|Hstop]; [lia|]. specialize (Hb taker). apply StronglySorted_app in Hb as (_ & _ & Hb).
  destruct rest as [|x rest]; [done|]. inversion_clear Hstop as [|?? Hx _]. inversion_clear Hb as [|?? _ Hb'].
  constructor; [done|]. eapply Forall_impl; [exact Hb'|]. auto.
Qed.

End matching.

(* ------------------------------------------------------------------ *)
(** * The book *)

#[global] Instance bid_less_weak : StrictWeak bid_less.
Proof.
  unfold bid_less. split; intros *; repeat match goal with |- context [?a =? ?b] => destruct (Z.eqb_spec a b) end;
    rewrite ?Z.ltb_lt, ?Z.ltb_ge; lia.
Qed.

#[global] Instance ask_less_weak : StrictWeak ask_less.
Proof.
  unfold ask_less. split; intros *; repeat match goal with |- context [?a =? ?b] => destruct (Z.eqb_spec a b) end;
    rewrite ?Z.ltb_lt, ?Z.ltb_ge; lia.
Qed.

(** The orders an incoming order on side [s] is matched with, its own side,
    and the test that ends matching. *)
Definition facing (s : Side) (ob : OrderBook) : list Order := match s with Buy => ob.(Asks) | Sell => ob.(Bids) end.
Definition own (s : Side) (ob : OrderBook) : list Order := match s with Buy => ob.(Bids) | Sell => ob.(Asks) end.
Definition side_less (s : Side) : Order → Order → bool := match s with Buy => bid_less | Sell => ask_less end.
Definition stop_for (s : Side) : Order → Order → bool := match s with Buy => buy_stop | Sell => sell_stop end.
Definition opposite (s : Side) : Side := match s with Buy => Sell | Sell => Buy end.

#[global] Instance side_less_weak s : StrictWeak (side_less s).
Proof. destruct s; apply _. Qed.

(** One side of a book: open orders, in price-time priority. *)
Definition side_ok (s : Side) (l : list Order) : Prop :=
  Forall resting_ok l ∧ StronglySorted (not_above (side_less s)) l.

(** A sound book is sorted and not crossed. *)
Record book_ok (ob : OrderBook) : Prop := {
  bk_bids : side_ok Buy ob.(Bids);
  bk_asks : side_ok Sell ob.(Asks);
  bk_uncrossed : ∀ b a, b ∈ ob.(Bids) → a ∈ ob.(Asks) → b.(Price) < a.(Price)
}.

Lemma book_ok_sides ob s : book_ok ob → side_ok s (own s ob) ∧ side_ok (opposite s) (facing s ob).
Proof. by intros []; destruct s. Qed.

Lemma stop_for_fill s f o m : stop_for s (set_Filled f o) m = stop_for s o m.
Proof. by destruct s. Qed.

Lemma side_best_first s l : side_ok (opposite s) l → best_first (stop_for s) l.
Proof.
  intros [_ Hs] o. induction Hs as [|m l _ IH Hm]; constructor; [done|]. eapply Forall_impl; [exact Hm|].
  intros m'. unfold not_above. destruct s; simpl; unfold bid_less, ask_less, buy_stop, sell_stop;
    destruct (Z.eqb_spec (Price m') (Price m)); rewrite ?Z.ltb_lt, ?Z.ltb_ge; lia.
Qed.

(** Taking orders off the front, and filling the one at the edge in part,
    leaves a sound side. *)
Lemma side_ok_rest s stop taker resting rest q trades :
  side_ok s resting → matched stop taker resting rest q trades → side_ok s rest.
Proof.
  intros [Hr Hs] Hm. destruct (matched_rest _ _ _ _ _ _ Hr Hm) as [Hr' (gone & rest0 & -> & Heq)]. split; [done|].
  apply StronglySorted_app in Hs as (_ & _ & Hs). clear -Hs Heq. revert rest Heq.
  induction Hs as [|x l Hs IH Hx]; intros rest Heq; destruct rest as [|y rest]; try done; [constructor|].
  rewrite !fmap_cons in Heq. injection Heq as H1 H2 H3 H4 H5 H6 H7 Hl. specialize (IH rest Hl).
  constructor; [done|]. assert (∀ l rest, set_Filled 0 <$> l = set_Filled 0 <$> rest →
    Forall (not_above (side_less s) x) l → Forall (not_above (side_less s) y) rest) as Ha; [|by eapply Ha].
  clear -H5 H7. induction l as [|a l IH]; intros [|b rest] Heq Hf; try done. rewrite !fmap_cons in Heq.
  injection Heq as E1 E2 E3 E4 E5 E6 E7 El. inversion_clear Hf as [|?? Ha Hf']. constructor; [|by apply IH].
  unfold not_above in *. destruct s; simpl in *; unfold bid_less, ask_less in *; by rewrite <- E5, <- E7, <- H5, <- H7.
Qed.

(** What [PlaceOrder] does, for either side. *)
Lemma PlaceOrder_side now o ob :
  let taker := set_o_Timestamp now o in
  let s := o.(o_Side) in
  let '(rest, o', trades) := match_side (stop_for s) (facing s ob) taker in
  let '(ob', o'', trades') := PlaceOrder now o ob in
  o'' = o' ∧ trades' = trades ∧ facing s ob' = rest ∧ AssetPair ob' = AssetPair ob ∧
  own s ob' = if o'.(Filled) <? o'.(o_Amount) then sort_slice (side_less s) (own s ob ++ [o']) else own s ob.
Proof.
  unfold PlaceOrder, matchBuy, matchSell. simpl. destruct (o_Side o); simpl;
    destruct (match_side _ _ _) as [[rest o'] trades]; destruct (Filled o' <? o_Amount o'); by split_and!.
Qed.

Lemma book_ok_from s ob ob' :
  side_ok s (own s ob') → side_ok (opposite s) (facing s ob') →
  (∀ x y, x ∈ own s ob' → y ∈ facing s ob' → match s with Buy => x.(Price) < y.(Price) | Sell => y.(Price) < x.(Price) end) →
  book_ok ob → book_ok ob'.
Proof. intros ? ? Hx _. destruct s; split; try done; intros b a Hb Ha; by apply Hx. Qed.

Lemma sort_side_ok s l : Forall resting_ok l → side_ok s (sort_slice (side_less s) l).
Proof. intros Hl. split; [by rewrite sort_slice_perm|apply sort_slice_sorted, _]. Qed.

(** A fresh book is sound. *)
Lemma NewOrderBook_ok pair : book_ok (NewOrderBook pair).
Proof. split; simpl; [by repeat constructor..|]. intros b a Hb. by apply elem_of_nil in Hb. Qed.

Lemma matched_prices stop taker resting rest q trades x :
  Forall resting_ok resting → matched stop taker resting rest q trades → x ∈ rest →
  ∃ m, m ∈ resting ∧ m.(Price) = x.(Price).
Proof.
  intros Hr Hm Hx. destruct (matched_rest _ _ _ _ _ _ Hr Hm) as [_ (gone & rest0 & -> & Heq)].
  assert (set_Filled 0 x ∈ set_Filled 0 <$> rest) as Hin by by apply list_elem_of_fmap_2.
  rewrite <- Heq in Hin. apply list_elem_of_fmap in Hin as (m & Hm' & Hin). exists m.
  split; [apply elem_of_app; by right|]. by injection Hm' as _ _ _ _ -> _ _.
Qed.

(** (C39) Matching: on a sound book (sorted by price then time, not crossed) an
    incoming order trades with the other side in its order, at the resting
    orders' prices, filling each completely before the next; it executes
    exactly the smaller of what it wants and what rests at prices it accepts;
    what it gains the others lose; only its unfilled part comes to rest on its
    own side; and the book is sound again. *)
Theorem PlaceOrder_price_time now o ob :
  book_ok ob → order_ok o →
  let s := o.(o_Side) in
  let '(ob', o', trades) := PlaceOrder now o ob in
  let q := Z.min (open o) (lsum open (filter (λ m, stop_for s o m = false) (facing s ob))) in
  matched (stop_for s) (set_o_Timestamp now o) (facing s ob) (facing s ob') q trades ∧
  o' = set_Filled (o.(Filled) + q) (set_o_Timestamp now o) ∧
  lsum t_Amount trades = q ∧ lsum open (facing s ob') = lsum open (facing s ob) - q ∧
  own s ob' ≡ₚ own s ob ++ (if q <? open o then [o'] else []) ∧
  book_ok ob'.
Proof.
  intros Hok Ho s. pose proof (PlaceOrder_side now o ob) as Hp. cbv zeta in Hp. fold s in Hp.
  set (taker := set_o_Timestamp now o) in *.
  destruct (book_ok_sides ob s Hok) as [[Hown Hsort] Hface]. pose proof (side_best_first s _ Hface) as Hb.
  destruct (match_side_matched (stop_for s) (stop_for_fill s) (facing s ob) taker Ho (proj1 Hface)) as (q & Hm & Heq).
  destruct (match_side _ _ taker) as [[rest o1] trades]. cbn [fst snd] in *.
  destruct (PlaceOrder now o ob) as [[ob' o'] trades']. destruct Hp as (-> & -> & Hf & _ & Ho').
  destruct (matched_volume _ taker _ _ _ _ Hb (proj1 Hface) Hm) as (Hq & Ht & Hrest).
  assert (∀ m, stop_for s taker m = stop_for s o m) as Hst by (intros m; by destruct s).
  assert (filter (λ m, stop_for s taker m = false) (facing s ob) = filter (λ m, stop_for s o m = false) (facing s ob)) as Hfl
    by (apply list_filter_iff; intros m; by rewrite Hst).
  rewrite Hfl in Hq. change (open taker) with (open o) in *. cbv zeta. rewrite <- Hq, Hf.
  assert ((o1.(Filled) <? o1.(o_Amount)) = (q <? open o)) as Hopen.
  { rewrite Heq. unfold open. simpl. destruct (Z.ltb_spec (Filled o + q) (o_Amount o)), (Z.ltb_spec q (o_Amount o - Filled o)); lia. }
  assert (0 ≤ q) as Hq0.
  { rewrite <- Ht. apply lsum_nonneg. intros t Hin. pose proof (matched_trades _ _ _ _ _ _ (proj1 Hface) Hm) as Hall.
    rewrite Forall_forall in Hall. destruct (Hall t Hin) as (? & _ & _ & _ & ?). lia. }
  rewrite Hopen in Ho'. split_and!; try done.
  - rewrite Ho'. destruct (q <? open o); [by rewrite sort_slice_perm|by rewrite app_nil_r].
  - apply (book_ok_from s ob); [|rewrite Hf; by eapply side_ok_rest| |done].
    + rewrite Ho'. destruct (Z.ltb_spec q (open o)); [|done]. apply sort_side_ok. apply Forall_app. split; [done|].
      constructor; [|done]. rewrite Heq. unfold resting_ok, order_ok, open in *. simpl. lia.
    + rewrite Hf, Ho'. intros x y Hx Hy. destruct (matched_prices _ _ _ _ _ _ y (proj1 Hface) Hm Hy) as (m & Hin & Hpr).
      assert (x ∈ own s ob ∨ x = o1 ∧ q < open o) as [Hx'|[-> Hlt]].
      { destruct (Z.ltb_spec q (open o)); [rewrite sort_slice_perm in Hx|by left].
        apply elem_of_app in Hx as [?|Hx]; [by left|]. apply list_elem_of_singleton in Hx. by right. }
      * rewrite <- Hpr. destruct Hok as [_ _ Hun]. destruct s; by apply Hun.
      * pose proof (matched_open _ _ _ _ _ _ Hb Hm Hlt) as Hall. rewrite Forall_forall in Hall. specialize (Hall y Hy).
        rewrite Heq. clear -Hall. destruct s; simpl in *; unfold buy_stop, sell_stop in Hall; by apply Z.ltb_lt in Hall.
Qed.

Definition ask (id : string) (price amount time : Z) : Order := mkOrder id "maker" "SYN/GOLD" Sell price amount 0 time.
Definition book0 : OrderBook := mkBook "SYN/GOLD" [] [ask "a" 10 5 1; ask "b" 10 5 2; ask "c" 12 5 3].
Definition taker0 : Order := mkOrder "t" "taker" "SYN/GOLD" Buy 11 12 0 0.

Example taker0_trades : (PlaceOrder 9 taker0 book0).2 = [mkTrade "a" "t" 10 5; mkTrade "b" "t" 10 5].
Proof. reflexivity. Qed.

Lemma book0_ok : book_ok book0.
Proof.
  split; [by repeat constructor| |by intros b a ?%elem_of_nil].
  split; repeat constructor; vm_compute; (reflexivity || discriminate).
Qed.

Lemma PlaceOrder_price_time_witness : book_ok (PlaceOrder 9 taker0 book0).1.1.
Proof.
  pose proof (PlaceOrder_price_time 9 taker0 book0 book0_ok ltac:(split; [split|]; vm_compute; discriminate)) as H.
  exact (proj2 (proj2 (proj2 (proj2 (proj2 H))))).
Defined.
