(* ===== verification/ConsensusTheorems.v ===== *)
(** The main theorems about the consensus engine, its slashing tracker and the
    producer rotation, each with a witness. *)
From stdpp Require Import base strings list gmap.
From S2P Require Import Prelude GoStd Types TxModel Block Messages Slashing.
From S2P Require Import Engine EngineFacts Examples.

#[local] Open Scope string_scope.
#[local] Open Scope Z_scope.

(* ------------------------------------------------------------------ *)
(** * Quorums *)

(** (C8) Quorum certificates. When a vote meets the threshold at an engine
    whose roster is sound and whose recorded voters are registered, distinct
    registered validators with at least two thirds of the power have accepted
    that block in that round and stage. After any proposals, retries, votes
    and changes of roster or powers since, with a sound roster again, their
    recorded votes still stand, and if the threshold is met in the same round
    and stage for another block, then either votes of validators that are not
    registered any more were counted, or the first quorum's validators that
    still are hold at most a third of the power there is by then. While the
    roster does not change (and voters are checked as [OnVote] does), the
    second block is the first. *)
Theorem engine_quorum_unique now1 now2 v1 v2 e e' :
  roster_ok e → voters_ok e → thresholdMet (OnVote now1 v1 e).2 = true →
  let e1 := (OnVote now1 v1 e).1.1 in
  let e2 := (OnVote now2 v2 e').1.1 in
  let quorum1 := dom (approvers (ballot_at e1 v1.(v_Height) v1.(v_Round) (stage_of (counted v1))) v1.(v_BlockHash)) in
  let quorum2 := dom (approvers (ballot_at e2 v2.(v_Height) v2.(v_Round) (stage_of (counted v2))) v2.(v_BlockHash)) in
  has_quorum e1 v1.(v_Height) v1.(v_Round) (stage_of (counted v1)) v1.(v_BlockHash) ∧
  (rtc engine_event e1 e' → roster_ok e' → thresholdMet (OnVote now2 v2 e').2 = true →
   v1.(v_Height) = v2.(v_Height) → v1.(v_Round) = v2.(v_Round) → IsPrevote v1 = IsPrevote v2 →
   2 * e2.(totalPower) ≤ 3 * weight e2 quorum2 ∧
   (v1.(v_BlockHash) = v2.(v_BlockHash) ∨
    quorum1 ## quorum2 ∧ (¬ quorum2 ⊆ e2.(validators) ∨ 3 * weight e2 (quorum1 ∩ e2.(validators)) ≤ e2.(totalPower)))) ∧
  (rtc engine_step e1 e' → thresholdMet (OnVote now2 v2 e').2 = true →
   v1.(v_Height) = v2.(v_Height) → v1.(v_Round) = v2.(v_Round) → IsPrevote v1 = IsPrevote v2 →
   v1.(v_BlockHash) = v2.(v_BlockHash)).
Proof.
  intros Hr Hok Hm1 e1 e2 q1 q2. pose proof (OnVote_quorum now1 v1 e Hr Hok Hm1) as Hq1. split; [done|]. split.
  - intros Hs Hr' Hm2 Hh Hrd Hst. destruct (OnVote_power now2 v2 e' Hr' Hm2) as (Hsr & Hk2 & Hq2). split; [exact Hq2|].
    destruct (decide (v1.(v_BlockHash) = v2.(v_BlockHash))) as [|Hne]; [by left|right].
    assert (q1 ## q2) as Hd.
    { unfold q1, q2. rewrite !stage_counted, <- Hh, <- Hrd, <- Hst.
      assert (ballots_kept e1 e2) as Hk by (intros h r s; etrans; [by apply engine_events_kept|apply Hk2]).
      pose proof (subseteq_dom _ _ (approvers_mono _ _ v1.(v_BlockHash)
        (Hk v1.(v_Height) v1.(v_Round) (if IsPrevote v1 then VoteStagePrevote else VoteStagePrecommit)))) as Hsub.
      pose proof (approvers_disjoint (ballot_at e2 v1.(v_Height) v1.(v_Round) (if IsPrevote v1 then VoteStagePrevote else VoteStagePrecommit))
        _ _ Hne) as Hd. set_solver. }
    split; [exact Hd|]. destruct (decide (q2 ⊆ e2.(validators))) as [Hsub|]; [right|by left].
    by eapply quorum_displaced; [eapply roster_ok_same|..].
  - intros Hs Hm2 Hh Hrd Hst. destruct (run_ok_pair e _ Hr Hok (OnVote_steps now1 v1 e)) as (_ & Hr1 & Hok1).
    destruct (run_ok_pair _ e' Hr1 Hok1 Hs) as (Hg' & Hr' & Hok').
    pose proof (OnVote_quorum now2 v2 e' Hr' Hok' Hm2) as Hq2.
    destruct (run_ok_pair e' _ Hr' Hok' (OnVote_steps now2 v2 e')) as (Hg2 & Hr2 & _).
    pose proof (has_quorum_grow _ _ _ _ _ _ Hr' Hok' Hg2 (has_quorum_grow _ _ _ _ _ _ Hr1 Hok1 Hg' Hq1)) as Hq1'.
    rewrite stage_counted in Hq1', Hq2. rewrite Hh, Hrd, Hst in Hq1'. by eapply quorum_unique.
Qed.

(** Four validators, and two candidates for height 5. *)
Definition four : list string := ["v1"; "v2"; "v3"; "v4"].
Definition candidate (hash : string) : Block :=
  mkBlock (mkHeader 5 "0xparent" zero_time "v1" "" "" "") None hash ∅ false "" ∅.
Definition approve_vote (id hash : string) : BlockVote := mkVote hash 5 0 "" id 1 ("0xsig_" +:+ id).
Definition vote_all (ids : list string) (hash : string) (e : Engine) : Engine :=
  foldl (λ e id, (OnVote zero_time (approve_vote id hash) e).1.1) e ids.
Definition engine0 : Engine :=
  SetSlashingTracker (Some (NewSlashingTracker (mkSlashingParams 1000 250 50 0 0))) (SetValidators four (NewEngine 4)).
Definition engine_a : Engine := RecordOwnProposal (Some (candidate "0xaaaa")) engine0.

Lemma engine0_roster : roster_ok engine0.
Proof.
  refine (roster_ok_same (SetValidators four (NewEngine 4)) engine0 _ _); [by repeat split|].
  apply SetValidators_ok; [apply (bool_decide_unpack _); vm_compute; reflexivity| |vm_compute; discriminate].
  exists "v1". split; [by left|done].
Qed.

Lemma engine0_voters : voters_ok engine0.
Proof. intros h r s. unfold ballot_at, stages_at. simpl. rewrite lookup_empty. simpl. rewrite lookup_empty. simpl. rewrite lookup_empty. set_solver. Qed.

Lemma vote_all_run ids hash e : rtc engine_step e (vote_all ids hash e).
Proof.
  revert e. induction ids as [|id ids IH]; intros e; simpl; [done|]. etrans; [apply OnVote_steps|apply IH].
Qed.

Lemma engine_a_run ids hash : rtc engine_step engine0 (vote_all ids hash engine_a).
Proof. eapply rtc_l; [apply (es_own (Some (candidate "0xaaaa")) 0)|apply vote_all_run]. Qed.

(** The engine once two of the four have voted. *)
Definition engine_two : Engine := vote_all ["v1"; "v2"] "0xaaaa" engine_a.

Example third_vote : thresholdMet (OnVote zero_time (approve_vote "v3" "0xaaaa") engine_two).2 = true.
Proof. vm_compute. reflexivity. Qed.

Lemma engine_two_ok : roster_ok engine_two ∧ voters_ok engine_two.
Proof. exact (proj2 (run_ok_pair _ _ engine0_roster engine0_voters (engine_a_run _ _))). Qed.

(** The roster is replaced, and new validators vote for another block. *)
Definition others : list string := ["w1"; "w2"; "w3"].
Definition engine_swapped : Engine :=
  vote_all ["w1"] "0xbbbb" (RecordOwnProposal (Some (candidate "0xbbbb")) (SetValidators others
    (OnVote zero_time (approve_vote "v3" "0xaaaa") engine_two).1.1)).

Example swapped_quorum : thresholdMet (OnVote zero_time (approve_vote "w2" "0xbbbb") engine_swapped).2 = true.
Proof. vm_compute. reflexivity. Qed.

Lemma engine_swapped_run : rtc engine_event (OnVote zero_time (approve_vote "v3" "0xaaaa") engine_two).1.1 engine_swapped.
Proof.
  eapply rtc_l; [apply (ev_validators others)|]. eapply rtc_l; [apply (ev_own (Some (candidate "0xbbbb")) 0)|].
  set (e := RecordOwnProposalWithRound _ _ _).
  assert (engine_swapped = (tally_vote (counted (approve_vote "w1" "0xbbbb")) (report_vote zero_time (counted (approve_vote "w1" "0xbbbb")) e).1).1) as ->
    by (vm_compute; reflexivity).
  eapply rtc_l; [apply (ev_report zero_time)|]. apply rtc_once, ev_tally.
Qed.

Lemma engine_swapped_roster : roster_ok engine_swapped.
Proof.
  refine (roster_ok_same (SetValidators others (NewEngine 4)) engine_swapped _ _).
  - split_and!; vm_compute; reflexivity.
  - apply SetValidators_ok; [apply (bool_decide_unpack _); vm_compute; reflexivity| |vm_compute; discriminate].
    exists "w1". split; [by left|done].
Qed.

(** A defect of roster changes: recorded votes of validators that have been
    removed keep counting, with power 1. Two of the first four voted; of the
    new roster only one has. *)
Example removed_votes_count :
  thresholdMet (OnVote zero_time (approve_vote "v3" "0xaaaa") (SetValidators ["v3"; "v4"; "v5"; "v6"] engine_two)).2 = true.
Proof. vm_compute. reflexivity. Qed.

Lemma engine_quorum_unique_witness :
  has_quorum (OnVote zero_time (approve_vote "v3" "0xaaaa") engine_two).1.1 5 0 VoteStagePrecommit "0xaaaa" ∧
  2 * (OnVote zero_time (approve_vote "w2" "0xbbbb") engine_swapped).1.1.(totalPower) ≤
    3 * weight (OnVote zero_time (approve_vote "w2" "0xbbbb") engine_swapped).1.1
      (dom (approvers (ballot_at (OnVote zero_time (approve_vote "w2" "0xbbbb") engine_swapped).1.1 5 0 VoteStagePrecommit) "0xbbbb")).
Proof.
  destruct (engine_quorum_unique zero_time zero_time (approve_vote "v3" "0xaaaa") (approve_vote "w2" "0xbbbb")
    engine_two engine_swapped (proj1 engine_two_ok) (proj2 engine_two_ok) third_vote) as (H1 & H2 & _).
  split; [exact H1|exact (proj1 (H2 engine_swapped_run engine_swapped_roster swapped_quorum eq_refl eq_refl eq_refl))].
Defined.

(** A defect of retries: [RecordOwnProposal] promises to clear the votes
    of the abandoned candidate, but the ballot of the round keeps them. If
    validators whose power is needed for a quorum had precommitted the old
    candidate in round 0, no later vote for the new one meets the threshold,
    even after every validator has approved it. *)
Theorem retry_loses_votes now b e e' v (voters : gset string) :
  roster_ok e → voters_ok e → rtc engine_step (RecordOwnProposal (Some b) e) e' →
  v.(v_Round) = 0 → v.(v_BlockHash) = b.(Hash) → IsPrevote v = false →
  (∀ id, id ∈ voters → ∃ r, ballot_at e v.(v_Height) 0 VoteStagePrecommit !! id = Some r ∧ r.(r_BlockHash) ≠ b.(Hash)) →
  weight e (e.(validators) ∖ voters) < requiredPowerForFinality e →
  thresholdMet (OnVote now v e').2 = false.
Proof.
  intros Hr Hok Hs Hv0 Hb Hp Hvo Hw. eapply spent_votes_stuck; try done.
  - eapply rtc_l; [apply (es_own (Some b) 0)|exact Hs].
  - by rewrite Hv0, Hb.
Qed.

(** Two votes went to the first candidate; all four go to the second. *)
Definition engine_retry : Engine :=
  vote_all ["v1"; "v2"; "v3"] "0xbbbb" (RecordOwnProposal (Some (candidate "0xbbbb")) engine_two).

(** By the count of the height's ballot the second candidate is final. *)
Example retry_counted :
  FinalityStatus (OnVote zero_time (approve_vote "v4" "0xbbbb") engine_retry).1.1 "0xbbbb" = (true, 4, 3, true).
Proof. vm_compute. reflexivity. Qed.

Lemma retry_loses_votes_witness :
  thresholdMet (OnVote zero_time (approve_vote "v4" "0xbbbb") engine_retry).2 = false.
Proof.
  apply (retry_loses_votes zero_time (candidate "0xbbbb") engine_two engine_retry (approve_vote "v4" "0xbbbb") {["v1"; "v2"]}
    (proj1 engine_two_ok) (proj2 engine_two_ok) (vote_all_run _ _ _) eq_refl eq_refl eq_refl).
  - intros id. rewrite elem_of_union, !elem_of_singleton.
    intros [->| ->]; [exists (mkRecord "0xaaaa" 1 "0xsig_v1")|exists (mkRecord "0xaaaa" 1 "0xsig_v2")]; (split; [vm_compute; reflexivity|]);
      intros H; discriminate H.
  - vm_compute. reflexivity.
Defined.

(* ------------------------------------------------------------------ *)
(** * Candidates and rotation *)

(** The candidate of a height does not depend on the order in which
    proposals arrive: nodes that have seen the same proposals (whose hashes
    identify them) keep the same candidates, and each is a proposal with the
    smallest hash among those of its height. *)
Theorem OnProposal_order now n l1 l2 :
  l1 ≡ₚ l2 → hash_unique l1 →
  (foldl (observe now) (NewEngine n) l1).(proposalsByHeight) = (foldl (observe now) (NewEngine n) l2).(proposalsByHeight) ∧
  ∀ b, b ∈ l1 → b.(Hash) ≠ "" →
    ∃ c, (foldl (observe now) (NewEngine n) l2).(proposalsByHeight) !! b.(Header).(Height) = Some c ∧
      str_lt b.(Hash) c.(Hash) = false.
Proof.
  intros Hp Hu. rewrite !observe_proposals. split.
  - eapply (candidates_order l1); [done|done|by apply Forall_forall|apply map_Forall_empty].
  - intros b Hb Hne. apply candidates_least. left. by rewrite <- Hp.
Qed.

Lemma OnProposal_order_witness :
  (foldl (observe zero_time) (NewEngine 4) [candidate "0xbbbb"; candidate "0xaaaa"]).(proposalsByHeight) =
  (foldl (observe zero_time) (NewEngine 4) [candidate "0xaaaa"; candidate "0xbbbb"]).(proposalsByHeight).
Proof.
  apply (OnProposal_order zero_time 4 [candidate "0xbbbb"; candidate "0xaaaa"] [candidate "0xaaaa"; candidate "0xbbbb"]).
  - apply perm_swap.
  - intros a b. rewrite !elem_of_cons, !elem_of_nil. intros [->|[->|[]]] [->|[->|[]]] Hh; try reflexivity; vm_compute in Hh; discriminate Hh.
Defined.

(** The producer rotation is fair and single: over as many consecutive
    heights as there are validators, at any fixed round, each has exactly one
    turn; a failed round passes the turn on as a new height would, so over as
    many rounds everyone gets a turn as well; and at one height and elapsed
    time at most one identity is told to propose. *)
Theorem rotation_fair vs h round :
  0 ≤ h → 0 ≤ round → h + Z.of_nat (length vs) + round ≤ MaxUint64 →
  schedule vs h round (length vs) ≡ₚ vs ∧
  ((λ i, ExpectedProposer vs h (round + Z.of_nat i)) <$> seq 0 (length vs)) ≡ₚ vs ∧
  ∀ a b el iv, (ShouldPropose a vs h el iv).1.1.1 = true → (ShouldPropose b vs h el iv).1.1.1 = true → a = b ∧ a ∈ vs.
Proof.
  intros Hh Hr Hm. pose proof (schedule_rotates vs h round Hh Hr Hm) as Hs. split; [done|]. split.
  - rewrite <- Hs at 2. unfold schedule. apply Permutation_refl'. apply list_fmap_ext. intros i x Hx.
    by rewrite ExpectedProposer_shift by lia.
  - intros a b el iv. unfold ShouldPropose. cbn [fst]. rewrite !andb_true_iff, !bool_decide_eq_true, negb_true_iff.
    intros [He <-] [_ <-]. split; [done|]. unfold ExpectedProposer in *.
    destruct (_ =? 0) eqn:Hz in *; [done|]. destruct (vs !! _) as [x|] eqn:Hl; [|done].
    by apply list_elem_of_lookup_2 in Hl.
Qed.

Lemma rotation_fair_witness : schedule four 10 1 4 ≡ₚ four.
Proof. apply (rotation_fair four 10 1); vm_compute; discriminate. Defined.

(* ------------------------------------------------------------------ *)
(** * Slashing *)

(** Equivocation: over any sequence of reported approvals a fresh tracker
    charges exactly the validators that approved two different blocks at one
    height; repeating a vote costs nothing; each charge takes the configured
    penalty off the recorded stake, down to zero, and hands the same amount to
    the wired callback. *)
Theorem equivocation_charged p l id stake :
  0 < p.(DoubleSignPenalty) → 0 ≤ stake →
  let st := SetValidatorStake id stake (SetExecuteSlash true (NewSlashingTracker p)) in
  let '(st', calls) := report_all l st in
  (0 < SlashCount id st' ↔ equivocates l.*2 id) ∧
  GetValidatorStake id st' = Z.max 0 (stake - SlashCount id st' * p.(DoubleSignPenalty)) ∧
  lsum (λ c, if decide (c.1 = id) then c.2 else 0) calls = SlashCount id st' * p.(DoubleSignPenalty).
Proof.
  intros Hp Hs st. pose proof (tracks_all l [] st) as Ht. pose proof (report_all_charges l st id) as Hc.
  destruct (report_all l st) as [st' calls]. cbn [fst snd] in *.
  assert (tracks [] st) as Ht0 by by destruct (tracks_fresh p); split. specialize (Ht Ht0). simpl in Ht.
  assert (GetValidatorStake id st = stake) as Hst.
  { unfold GetValidatorStake, st, SetValidatorStake. simpl. by rewrite lookup_insert_eq. }
  rewrite Hst in Hc. change (SlashCount id st) with 0 in Hc. rewrite Z.sub_0_r in Hc.
  change (DoubleSignPenalty (st_params st)) with (DoubleSignPenalty p) in Hc.
  destruct (Hc ltac:(lia) Hs) as (_ & Hs' & Hcl). split_and!; [|done|by apply Hcl].
  rewrite <- (tracks_exact _ _ id Ht). unfold SlashCount, HistoryFor, slashed. split.
  - destruct (filter _ (events st')) as [|e es] eqn:He; [done|]. intros _. exists e.
    assert (e ∈ filter (λ e, e_ValidatorID e = id) (events st')) as [? ?]%list_elem_of_filter by (rewrite He; by left). done.
  - intros (e & He & Hi). assert (e ∈ filter (λ e, e_ValidatorID e = id) (events st')) as Hin by by apply list_elem_of_filter.
    destruct (filter _ _); [by apply elem_of_nil in Hin|simpl; lia].
Qed.

Definition two_faced : list (Time * approval) :=
  [(zero_time, ("v1", 5, "0xaaaa")); (zero_time, ("v2", 5, "0xaaaa")); (zero_time, ("v2", 5, "0xaaaa"));
   (zero_time, ("v1", 5, "0xbbbb"))].

Lemma equivocation_charged_witness : equivocates two_faced.*2 "v1".
Proof.
  pose proof (equivocation_charged (mkSlashingParams 1000 250 50 0 0) two_faced "v1" 600 ltac:(vm_compute; reflexivity)
    ltac:(vm_compute; discriminate)) as H.
  apply (proj1 (proj1 H)). vm_compute. reflexivity.
Defined.

(** Portable evidence, and a defect of it: [Verify] accepts exactly two
    votes of one validator, height and round whose approval signatures are
    both valid and which differ in block, value or stage. The signature covers
    the block only, so every validator that has once approved a block is
    convicted, at any height and round, by that one signature presented as a
    prevote and as a precommit of the same block. *)
Theorem evidence_convicts_honest `{E : Ed25519} ev pubKey :
  (EquivocationEvidence.Verify ev pubKey = inl tt ↔
   ev.(ev_ValidatorID) ≠ "" ∧
   (∀ v, v = ev.(VoteA) ∨ v = ev.(VoteB) →
      v.(v_VoterID) = ev.(ev_ValidatorID) ∧ v.(v_Height) = ev.(ev_Height) ∧ v.(v_Round) = ev.(ev_Round) ∧ signed_approval pubKey v) ∧
   (v_BlockHash ev.(VoteA), v_Vote ev.(VoteA), v_Stage ev.(VoteA)) ≠ (v_BlockHash ev.(VoteB), v_Vote ev.(VoteB), v_Stage ev.(VoteB)) ∧
   slen pubKey = 32) ∧
  (∀ v h r at_, v.(v_VoterID) ≠ "" → slen pubKey = 32 → signed_approval pubKey v →
     let vote := λ stage, mkVote v.(v_BlockHash) h r stage v.(v_VoterID) 1 v.(v_Signature) in
     EquivocationEvidence.Verify (mkEvidence v.(v_VoterID) h r (vote VoteStagePrevote) (vote VoteStagePrecommit) at_) pubKey = inl tt).
Proof.
  split; [apply evidence_Verify_ok|]. intros v h r t Hid Hlen Hsig vote. apply evidence_Verify_ok.
  split_and!; [done| |done|done]. intros w [->| ->]; by split_and!.
Qed.

Definition honest_vote : BlockVote :=
  Eval vm_compute in mkVote "0xaaaa" 5 0 VoteStagePrecommit "v1" 1 (hex0x (ed_Sign "v1" "APPROVE|0xaaaa")).

Lemma evidence_convicts_honest_witness :
  EquivocationEvidence.Verify
    (mkEvidence "v1" 99 7 (mkVote "0xaaaa" 99 7 VoteStagePrevote "v1" 1 honest_vote.(v_Signature))
       (mkVote "0xaaaa" 99 7 VoteStagePrecommit "v1" 1 honest_vote.(v_Signature)) zero_time) (key_of "v1") = inl tt.
Proof.
  refine (proj2 (evidence_convicts_honest (mkEvidence "v1" 5 0 honest_vote honest_vote zero_time) (key_of "v1"))
    honest_vote 99 7 zero_time _ _ _); [discriminate|vm_compute; reflexivity|].
  eexists. split; [vm_compute; reflexivity|vm_compute; reflexivity].
Defined.
