(* ===== verification/CometTheorems.v ===== *)
(** The main theorems about the CometBFT application and the transactions on
    the wire, each with a witness on a concrete chain. *)
From stdpp Require Import base strings list gmap.
From S2P Require Import Prelude GoStd Sha256 Json JsonParse JsonRound Types Ledger TxModel.
From S2P Require Import TxDecode Merkle Dex DexLedger.
From S2P Require Import Staking StakingFacts Apply ApplyFacts Fees Block Chain ChainFacts.
From S2P Require Import Comet CometFacts CometRun Examples.

#[local] Open Scope string_scope.
#[local] Open Scope list_scope.
#[local] Open Scope Z_scope.

(* ------------------------------------------------------------------ *)
(** * A concrete chain *)

#[global] Instance ToyAddress : CometAddress := {| comet_address pub := take_bytes 20 (sha256 pub) |}.

Definition comet_params : ValidatorStakingParams := mkParams 1 100 10 21 0 2 500 1000.

Definition comet_genesis : AppGenesis :=
  Eval vm_compute in
  mkAppGenesis (mkGenesis "synthos-test" 7 (<[alice := 1000000]> (<[addr_of "v1" := 5000]> (<[addr_of "v2" := 5000]> ∅))) ∅)
    comet_params
    [mkGenesisValidator (addr_of "v1") (hex0x (key_of "v1")) 4000 "v1" "";
     mkGenesisValidator (addr_of "v2") (hex0x (key_of "v2")) 3000 "v2" ""] None "".

Definition init_result : App * res (list ValidatorUpdate * string) :=
  Eval vm_compute in InitChain (empty_app "/data") "synthos-test" (inl comet_genesis).

Definition app0 : App := init_result.1.
Definition init_updates : list ValidatorUpdate :=
  match init_result.2 with inl (u, _) => u | inr _ => [] end.
Definition init_hash : string :=
  match init_result.2 with inl (_, h) => h | inr _ => "" end.

(** A block with a transfer and a junk transaction, in which the second
    validator is reported. *)
Definition block_req : RequestFinalizeBlock :=
  Eval vm_compute in
  mkFinalize 1 (Unix 1700000000) ["junk"; marshal_tx transfer_tx] (comet_address (key_of "v1")) [] [comet_address (key_of "v2")].

Definition block_result : App * res ResponseFinalizeBlock := Eval vm_compute in FinalizeBlock block_req app0.
Definition app1 : App := block_result.1.
Definition resp1 : ResponseFinalizeBlock :=
  match block_result.2 with inl r => r | inr _ => mkResponse [] [] [] "" end.

Example init_runs : InitChain (empty_app "/data") "synthos-test" (inl comet_genesis) = (app0, inl (init_updates, init_hash)).
Proof. vm_cast_no_check (eq_refl init_result). Qed.

Example block_runs : FinalizeBlock block_req app0 = (app1, inl resp1).
Proof. vm_cast_no_check (eq_refl block_result). Qed.

Example block_results : resp1.(TxResults) = [inr (Err "not a SYNTHOS transaction"); inl tt].
Proof. reflexivity. Qed.

Example block_updates : resp1.(ValidatorUpdates) = [mkUpdate (key_of "v2") 0].
Proof. vm_compute. reflexivity. Qed.

Lemma comet_genesis_sane : genesis_sane comet_genesis.
Proof.
  split.
  - split; [split; split; vm_compute; discriminate|vm_compute; discriminate].
  - split; [apply (bool_decide_unpack _); vm_compute; reflexivity|vm_compute; discriminate].
  - repeat constructor; vm_compute; discriminate.
Qed.

Lemma app0_run : comet_run comet_genesis 0 true app0 None.
Proof. exact (run_init _ _ _ _ _ init_runs). Qed.

Definition state0 : State := default NewState app0.(committed).
Definition state1 : State := default NewState app1.(pending).

Lemma block_mints_nothing : req_minted app0 block_req (Clone state0) = 0.
Proof. vm_compute. reflexivity. Qed.

Lemma block_leaves_active : active app0.(staking) state1 = true.
Proof. vm_compute. reflexivity. Qed.

Lemma app1_run : comet_run comet_genesis 0 true app1 None.
Proof.
  pose proof (run_finalize _ 0 true block_req state0 state1 _ app1 resp1 None app0_run eq_refl) as H. cbv zeta in H.
  rewrite block_mints_nothing, block_leaves_active in H. apply H; [vm_compute; discriminate|exact block_runs|reflexivity].
Qed.

(* ------------------------------------------------------------------ *)
(** * The theorems *)

(** (C4) Every run of the CometBFT application: from a sane genesis, whatever
    bytes are offered to the mempool or decided in blocks, and however often
    writes fail or the node restarts, the coin of the committed and of the
    pending state is at most what the genesis described plus [m], the coin the
    treasury executions of the executed blocks created (C1; it has to leave
    the total within 64 bits); the ledger, pool and registry invariants hold
    ([full]: as long as every block left some validator active, they include
    that no tombstoned validator is in the current set; after a block that
    leaves none the application keeps the old set), the app hash is the state
    root, and a state file that was written is always accepted again. *)
Theorem comet_run_safe `{E : Ed25519} `{A : CometAddress} g m full a disk :
  genesis_sane g → comet_run g m full a disk →
  (∃ s, a.(committed) = Some s ∧ world_rel full a.(staking) s ∧ supply s ≤ genesis_coin g + m ∧ Root s = hex0x a.(appHash)) ∧
  (∀ s, a.(pending) = Some s → world_rel full a.(staking) s ∧ supply s ≤ genesis_coin g + m) ∧
  (∀ f, disk = Some f → ∃ a', New a.(dataDir) (FileRead f) = inl a').
Proof.
  intros Hg Hrun. destruct (comet_run_inv g m full a disk Hg Hrun) as [Hsk (s & Hs & Hinv) Hpe Hd]. rewrite Hsk. split_and!.
  - exists s. split_and!; [done|apply Hinv|apply Hinv|]. apply Root_of_hash, Hinv.
  - intros s' Hs'. split; apply (Hpe s' Hs').
  - intros f Hf. destruct (Hd f Hf) as [Hdir Hfile]. destruct (resume full g _ _ f Hdir Hfile) as (a' & Hn & _). by exists a'.
Qed.

Lemma comet_run_safe_witness : world_ok comet_params state1 ∧ supply state1 ≤ 1010000.
Proof.
  destruct (comet_run_safe comet_genesis 0 true app1 None comet_genesis_sane app1_run) as (_ & H & _).
  exact (H state1 eq_refl).
Defined.

(** (C7) Validator updates: what [InitChain] and [FinalizeBlock] tell
    CometBFT turns the set it holds into exactly the new snapshot; no key is
    updated twice, and a removal names a validator CometBFT has, so the
    updates are never refused. (The coin the block creates, see C1, has to
    leave the total within 64 bits.) *)
Theorem comet_set_tracks `{E : Ed25519} `{A : CometAddress} g m full a disk :
  genesis_sane g → comet_run g m full a disk →
  (∀ dir cid a0 ups hash st, InitChain (empty_app dir) cid (inl g) = (a0, inl (ups, hash)) → a0.(committed) = Some st →
     set_change [] st.(ValidatorSetSnapshot) ups) ∧
  (∀ req st a' resp st', a.(committed) = Some st →
     genesis_coin g + m + req_minted a req (Clone st) ≤ MaxUint64 →
     FinalizeBlock req a = (a', inl resp) → a'.(pending) = Some st' →
     set_change st.(ValidatorSetSnapshot) st'.(ValidatorSetSnapshot) resp.(ValidatorUpdates)).
Proof.
  intros Hg Hrun. pose proof (comet_run_off g m full a disk Hrun Hg) as Hoff. split.
  - intros dir cid a0 ups hash st Hi Hst. unfold InitChain in Hi. case_match; [done|].
    destruct (genesis_world g) as [[[st0 u] h]|] eqn:Hw; [|done]. apply genesis_world_spec in Hw as (_ & Hc & _); [|done].
    injection Hi as <- <- _. by injection Hst as <-.
  - intros req st a' resp st' Hst Hmax Hf Hp.
    destruct (FinalizeBlock_inv full g _ a disk req st a' resp Hg Hoff (comet_run_inv g m full a disk Hg Hrun) Hst Hmax Hf) as (s & -> & _ & _ & Hpost).
    injection Hp as ->. apply (fp_change _ _ _ _ _ _ _ Hpost).
Qed.

Lemma comet_set_tracks_witness :
  foldl comet_apply (set_map state0.(ValidatorSetSnapshot)) [mkUpdate (key_of "v2") 0] = set_map state1.(ValidatorSetSnapshot).
Proof.
  destruct (comet_set_tracks comet_genesis 0 true app0 None comet_genesis_sane app0_run) as [_ H].
  pose proof (sc_apply _ _ _ (H block_req state0 app1 resp1 state1 eq_refl ltac:(vm_compute; discriminate) block_runs eq_refl)) as Hs.
  rewrite block_updates in Hs. exact Hs.
Defined.

(** Restart: when [Commit] has written the state file, a node started on
    that file holds the same committed state, height, app hash, chain IDs and
    parameters as the one that wrote it, and nothing pending. *)
Theorem comet_restart `{E : Ed25519} `{A : CometAddress} g m full a disk io a1 f :
  genesis_sane g → comet_run g m full a disk → Commit io a = (a1, inl (Some f)) →
  ∃ a2, New a.(dataDir) (FileRead f) = inl a2 ∧ a2.(committed) = a1.(committed) ∧ Info a2 = Info a1 ∧
    a2.(a_chainID) = a1.(a_chainID) ∧ a2.(txChainID) = a1.(txChainID) ∧ a2.(staking) = a1.(staking) ∧
    a2.(check) = a1.(check) ∧ a2.(pending) = None.
Proof.
  intros Hg Hrun Hc. pose proof (comet_run_inv g m full a disk Hg Hrun) as Hinv.
  destruct (Commit_inv full g _ io a disk a1 _ Hinv Hc) as [[_ Hf]|[_ [e He]]]; [|done]. specialize (Hf f eq_refl).
  unfold Commit in Hc. destruct (pending a) as [st|]; [|done]. cbv zeta in Hc. unfold persistLocked in Hc. cbn [dataDir] in Hc.
  destruct (empty_str (dataDir a)); [done|]. destruct io; [done|]. injection Hc as <- <-. destruct Hf as [Hdir Hfile].
  destruct (resume full g _ _ _ Hdir Hfile) as (a2 & Hn & Hsk & Hcm & Hci & Hti & Hh & Hah & Hpe & _). cbn [dataDir] in Hn.
  exists a2. apply hex0x_inj in Hah. cbn in *. split_and!; try done; [unfold Info; cbn; by rewrite Hh, Hah|by rewrite Hsk, (ai_staking _ _ _ _ _ Hinv)|].
  unfold New in Hn. repeat case_match; try done; injection Hn as <-; cbn in *; congruence.
Qed.

Definition file1 : persisted := mkPersisted "synthos-test" 7 comet_params 1 (hex0x app1.(pendingAppHash)) (Some state1).

Lemma comet_restart_witness : ∃ a2, New "/data" (FileRead file1) = inl a2 ∧ a2.(committed) = Some state1.
Proof.
  destruct (comet_restart comet_genesis 0 true app1 None None (Commit None app1).1 file1 comet_genesis_sane app1_run eq_refl) as (a2 & Hn & Hc & _).
  exists a2. split; [exact Hn|exact Hc].
Defined.

(** The transactions of a block that did not fail. *)
Fixpoint kept (raws : list string) (results : list (res unit)) : list string :=
  match raws, results with
  | raw :: raws, inl _ :: results => raw :: kept raws results
  | _ :: raws, inr _ :: results => kept raws results
  | _, _ => []
  end.

(** Failed transactions: a block does what the block without its failing
    transactions would do, to the state and to the list of transactions whose
    fees are shared out, and reports one result per transaction. *)
Theorem comet_failed_txs `{E : Ed25519} a ctx raws st st' results applied :
  exec_txs a ctx raws st = (st', (results, applied)) →
  length results = length raws ∧
  exec_txs a ctx (kept raws results) st = (st', (replicate (length applied) (inl tt), applied)).
Proof.
  revert st st' results applied. induction raws as [|raw raws IH]; intros st st' results applied; cbn [exec_txs]; [by intros [= <- <- <-]|].
  destruct (exec_tx a ctx raw st) as [st1 r] eqn:Hx. destruct (exec_txs a ctx raws st1) as [st2 [rs ap]] eqn:Hr.
  destruct (IH _ _ _ _ Hr) as [Hl Hk]. destruct r as [tx|e]; intros [= <- <- <-]; (split; [cbn; by f_equal|]).
  - cbn [kept exec_txs]. by rewrite Hx, Hk.
  - cbn [kept]. assert (st1 = st) as <-; [|done]. unfold exec_tx in Hx. repeat case_match; by simplify_eq.
Qed.

Lemma comet_failed_txs_witness :
  length (exec_txs app0 (txContext app0 1 (Unix 1700000000)) ["junk"; marshal_tx transfer_tx] state0).2.1 = 2%nat.
Proof.
  destruct (exec_txs app0 (txContext app0 1 (Unix 1700000000)) ["junk"; marshal_tx transfer_tx] state0) as [st' [results applied]] eqn:H.
  exact (proj1 (comet_failed_txs app0 _ _ _ _ _ _ H)).
Defined.

(** The wire form of a transaction: decoding what [json.Marshal] printed
    gives the transaction back, for any transaction with machine-width fields
    and ASCII strings. *)
Theorem tx_json_roundtrip t : wire_tx t → unmarshal_tx (marshal_tx t) = Some t.
Proof. apply unmarshal_marshal. Qed.

Lemma tx_json_roundtrip_witness : unmarshal_tx (marshal_tx transfer_tx) = Some transfer_tx.
Proof.
  apply tx_json_roundtrip. split_and!; [reflexivity|reflexivity| |split; vm_compute; congruence].
  repeat constructor; vm_compute; congruence.
Defined.
