(* ===== verification/NodeTheorems.v ===== *)
(** The main theorems about nodes and the messages between them, each with a
    witness on concrete nodes, and two weaknesses shown on concrete runs. *)
From stdpp Require Import base strings list gmap sorting.
From S2P Require Import Prelude GoStd Sha256 Json Types Ledger TxModel Governance Block.
From S2P Require Import Messages Slashing Network Engine Chain.
From S2P Require Import Dex DexLedger Staking StakingFacts ApplyFacts Fees ChainFacts.
From S2P Require Import ChainBuild ChainWindow ChainRun Examples.
From S2P Require Import Agent Node NodeFacts Examples.

#[local] Open Scope string_scope.
#[local] Open Scope Z_scope.

(* ------------------------------------------------------------------ *)
(** * Concrete runs *)

Definition verdict (r : res BlockVote) : string := match r with inl v => "approve " +:+ v.(v_BlockHash) | inr e => error_text e end.

Example offers_verdicts : verdict <$> (handle_all offers (node_of "v3" chain1)).2 =
  ["approve " +:+ proposal1.(Hash); "locked to another proposer at this height"; "approve " +:+ proposal_v2.(Hash)].
Proof. vm_compute. reflexivity. Qed.

Lemma chain1_world p : world_ok p chain1.(c_State).
Proof. split; [apply ledger_okb_ok; reflexivity|by apply pools_ok_empty|by apply registry_ok_empty|apply (bool_decide_unpack _); vm_compute; reflexivity]. Qed.

Lemma RecordReceivedProposal_candidate b e : b.(Hash) ≠ "" →
  ProposalForRound (RecordReceivedProposal (Some b) e) b.(Header).(Height) 0 = Some b.
Proof.
  intros Hne. unfold RecordReceivedProposal, RecordOwnProposal, RecordOwnProposalWithRound, empty_str. rewrite bool_decide_eq_false_2 by done.
  unfold ProposalForRound, rounds_at. simpl. by rewrite lookup_insert_eq; simpl; rewrite lookup_insert_eq.
Qed.

(* ------------------------------------------------------------------ *)
(** * The theorems *)

(** Handling a proposal: an approval is cast only for a block at the next
    height, of a registered producer, that this node's own chain validates,
    only by a registered validator, and it verifies against the validator's
    key; the block is then the engine's candidate and the chain is untouched.
    Whatever the outcome, the node's ledger keeps its invariants and creates
    no coin, a disagreement about the state root changes nothing at all, and
    in stake mode the chain is never touched. *)
Theorem node_proposal_sound `{E : Ed25519} `{!Ed25519Correct E} p now b n n' r :
  world_ok p n.(n_Chain).(c_State) → HandleProposal now (Some b) n = (n', r) →
  (∀ v, r = inl v →
     (ValidateProposal now n.(n_Chain) b).2 = inl tt ∧ b.(Header).(Height) = u64 (chain_height n.(n_Chain) + 1) ∧
     IsValidator n b.(Header).(ProposerID) = true ∧ IsValidator n (selfID n) = true ∧
     v.(v_BlockHash) = b.(Hash) ∧ v.(v_Height) = b.(Header).(Height) ∧ v.(v_VoterID) = selfID n ∧ v.(v_Vote) = 1 ∧
     (∀ k, n.(n_Agent).(keys) = Some k → k.(Public) = ed_Public k.(Private) → verifyHexSig (hex0x k.(Public)) (QuorumApprovalMessage b) v.(v_Signature) = true) ∧
     ProposalForRound n'.(n_Engine) b.(Header).(Height) 0 = Some (ValidateProposal now n.(n_Chain) b).1 ∧ n'.(n_Chain) = n.(n_Chain)) ∧
  world_ok p n'.(n_Chain).(c_State) ∧ supply n'.(n_Chain).(c_State) ≤ supply n.(n_Chain).(c_State) ∧
  (r = inr ErrStateRootMismatch → n' = n) ∧
  (StakeConsensusActiveAt n.(n_Chain) (u64 (chain_height n.(n_Chain) + 1)) = true → n'.(n_Chain) = n.(n_Chain)).
Proof.
  intros Hw Hrun. pose proof (HandleProposal_handled now b n) as Hh. rewrite Hrun in Hh. cbn [fst snd] in Hh.
  destruct Hh as [e|b' e Hv|b' n1 r Hv Hht Hval Hlk Hr].
  - split_and!; done || lia.
  - destruct (report_invalid_ok now b' e (error_text e) n) as (t' & [_ _ Hsw Hss] & Hsame). destruct (Hsw p Hw) as [? ?].
    split_and!; [done|done|done|intros [= ->]; auto|]. intros Hst. by rewrite (Hss Hst).
  - destruct (checkAndUpdateVoteLock_frame now (Height (Header b)) (ProposerID (Header b)) n) as (h' & p' & t' & Hn1). rewrite Hlk in Hn1. cbn [fst] in Hn1. subst n1.
    split_and!; [|done|simpl; lia| |done].
    + intros v ->. destruct (Hr v eq_refl) as (Hself & sg & Hsg & ->). rewrite Hval. split_and!; try done.
      * intros k Hk Hpub. unfold SignRaw in Hsg. rewrite Hk in Hsg. injection Hsg as <-. unfold verifyHexSig. simpl.
        rewrite !decode_fixed_hex0x by (unfold slen; rewrite ?Hpub, ?ed_public_len, ?ed_sign_len; done). by rewrite Hpub, ed_verify_sign.
      * destruct (validateBlock_frame now (n_Chain n) b false) as [Hhd Hha]. fold (ValidateProposal now (n_Chain n) b) in *.
        rewrite Hval in Hhd, Hha. cbn [fst] in *. cbn [n_Engine set_n_Engine]. rewrite <- Hhd. apply RecordReceivedProposal_candidate. rewrite Hha.
        apply validateBlock_iff in Hval as (next & [Hch _ _ _ _]). unfold check_header in Hch.
        destruct (empty_str (Hash b)) eqn:He; [done|by apply bool_decide_eq_false in He].
    + intros ->. exfalso. clear Hr Hlk Hht Hv. revert Hrun. unfold HandleProposal.
      repeat match goal with |- (if ?c then _ else _) = _ → _ => destruct c; [by intros [= _]|] end. rewrite Hval.
      unfold checkAndUpdateVoteLock, SignRaw. repeat case_match; intros [= ? ?]; simplify_eq.
Qed.

Definition vote1 : BlockVote :=
  Eval vm_compute in
  match (HandleProposal clock (Some proposal1) (node_of "v3" chain1)).2 with inl v => v | inr _ => mkVote "" 0 0 "" "" 0 "" end.

Example vote1_cast : (HandleProposal clock (Some proposal1) (node_of "v3" chain1)).2 = inl vote1.
Proof. vm_compute. reflexivity. Qed.

Lemma node_proposal_sound_witness : vote1.(v_BlockHash) = proposal1.(Hash) ∧ vote1.(v_Vote) = 1 ∧
  supply (HandleProposal clock (Some proposal1) (node_of "v3" chain1)).1.(n_Chain).(c_State) ≤ supply chain1.(c_State).
Proof.
  destruct (node_proposal_sound stake_params clock proposal1 (node_of "v3" chain1) _ _ (chain1_world _) (surjective_pairing _))
    as (H & _ & Hs & _).
  destruct (H vote1 vote1_cast) as (_ & _ & _ & _ & Hh & _ & _ & Hvo & _). split; [exact Hh|split; [exact Hvo|exact Hs]].
Defined.

(** The vote lock: with the lock on, whatever proposals arrive in
    whatever order, two approvals of one node for different producers are at
    least the lock timeout apart. *)
Theorem vote_lock_separates `{E : Ed25519} l n i j t1 b1 v1 t2 b2 v2 :
  0 < n.(voteLockTimeout) → StronglySorted Z.le (instant ∘ fst <$> l) → (i < j)%nat →
  l !! i = Some (t1, b1) → l !! j = Some (t2, b2) →
  (handle_all l n).2 !! i = Some (inl v1) → (handle_all l n).2 !! j = Some (inl v2) →
  b1.(Header).(ProposerID) ≠ "" → b2.(Header).(ProposerID) ≠ b1.(Header).(ProposerID) →
  t1.(instant) + n.(voteLockTimeout) ≤ t2.(instant).
Proof. apply lock_separates. Qed.

Definition votes3 : list (res BlockVote) := Eval vm_compute in (handle_all offers (node_of "v3" chain1)).2.
Definition vote3 : BlockVote := Eval vm_compute in match votes3 !! 2%nat with Some (inl v) => v | _ => vote1 end.

Lemma vote_lock_separates_witness : clock.(instant) + 60 * second ≤ (later 61).(instant).
Proof.
  assert ((handle_all offers (node_of "v3" chain1)).2 = votes3) as Hv by (vm_compute; reflexivity).
  refine (vote_lock_separates offers (node_of "v3" chain1) 0 2 clock proposal1 vote1 (later 61) proposal_v2 vote3
    ltac:(vm_compute; reflexivity) _ ltac:(lia) eq_refl eq_refl _ _ _ _); [|rewrite Hv; reflexivity|rewrite Hv; reflexivity|vm_compute; discriminate|vm_compute; discriminate].
  unfold offers. repeat constructor; vm_compute; discriminate.
Defined.

(** (C9) Replay: however messages arrive at an agent, as long as its clock
    does not run backwards at most one arrival of one message (sender, nonce
    and signed time) is accepted; the ten minutes a nonce is remembered are
    exactly enough for the five minutes of clock skew that are tolerated. *)
Theorem envelope_no_replay `{E : Ed25519} l a i j x y :
  has_cache a → StronglySorted Z.le (instant ∘ ar_now <$> l) → l !! i = Some x → l !! j = Some y →
  x.(ar_env).(FromAgentID) = y.(ar_env).(FromAgentID) → x.(ar_env).(env_Nonce) = y.(ar_env).(env_Nonce) →
  x.(ar_env).(env_Timestamp) = y.(ar_env).(env_Timestamp) →
  (verify_all l a).2 !! i = Some (inl tt) → (verify_all l a).2 !! j = Some (inl tt) → i = j.
Proof.
  intros Hc Hs Hi Hj Hf Hn Ht Ri Rj. destruct (Nat.lt_trichotomy i j) as [Hlt|[->|Hlt]]; [exfalso|done|exfalso].
  - by eapply (accepted_once l a i j x y).
  - by eapply (accepted_once l a j i y x).
Qed.

Definition send1 : SendEnv := mkSendEnv "01" clock "02" clock.
Definition env1 : Envelope :=
  Eval vm_compute in
  match (BuildEnvelope send1 "block_vote" "" TopicVotes (inl (vote_text vote1)) (agent_of "v3")).2 with
  | inl e => e | inr _ => mkEnvelope "" "" "" "" "" "" clock "" "" "" "" end.

(** The same message twice, four minutes apart. *)
Definition arrivals : list arrival := [mkArrival env1 (key_of "v3") (later 10); mkArrival env1 (key_of "v3") (later 250)].

Example arrivals_verdicts : (verify_all arrivals (agent_of "v2")).2 = [inl tt; inr ErrReplay].
Proof. vm_compute. reflexivity. Qed.

Lemma envelope_no_replay_witness : (verify_all arrivals (agent_of "v2")).2 !! 1%nat ≠ Some (inl tt).
Proof.
  intros H. assert (0 = 1)%nat as H0; [|discriminate H0].
  refine (envelope_no_replay arrivals (agent_of "v2") 0 1 _ _ _ _ eq_refl eq_refl eq_refl eq_refl eq_refl _ H).
  - exists (NewReplayCache (600 * second)). split; reflexivity.
  - unfold arrivals. repeat constructor; vm_compute; discriminate.
  - rewrite arrivals_verdicts. reflexivity.
Defined.

(* ------------------------------------------------------------------ *)
(** * Weaknesses *)

(** A nonce is consumed before the signature is checked: anyone who has seen
    a message in transit and delivers a forgery with its nonce first makes
    the receiver drop the genuine message as a replay. *)
Theorem forged_nonce_blocks `{E : Ed25519} genuine forged pub now a c :
  a.(replayCache) = Some c → (VerifyEnvelope genuine pub now a).2 = inl tt →
  forged.(FromAgentID) = genuine.(FromAgentID) → forged.(env_Nonce) = genuine.(env_Nonce) →
  ValidateBasic forged = inl tt → FreshEnough forged.(env_Timestamp) now 0 = true → check_signature forged pub = inr ErrBadSignature →
  let '(a', r) := VerifyEnvelope forged pub now a in
  r = inr ErrBadSignature ∧ (VerifyEnvelope genuine pub now a').2 = inr ErrReplay.
Proof.
  intros Hc Hg Hfrom Hnonce Hb Hf Hs. unfold VerifyEnvelope, verify_envelope in *. rewrite Hc, Hb, Hf, Hfrom, Hnonce in *. cbn [negb] in *.
  destruct (ValidateBasic genuine) as [[]|]; [|done]. destruct (FreshEnough (env_Timestamp genuine) now 0); [|done]. cbn [negb] in *.
  pose proof (seen_SeenBefore (FromAgentID genuine) (env_Nonce genuine) now c) as H1.
  destruct (SeenBefore (FromAgentID genuine) (env_Nonce genuine) now c) as [c1 [|]]; [done|]. destruct H1 as (Ht & _ & Hs1). cbn [set_cache replayCache].
  rewrite Hs. split; [done|].
  pose proof (seen_SeenBefore (FromAgentID genuine) (env_Nonce genuine) now c1) as H2.
  destruct (SeenBefore (FromAgentID genuine) (env_Nonce genuine) now c1) as [c2 r2]. destruct H2 as (_ & Hr & _).
  rewrite (proj2 Hr); [done|]. rewrite seen_cleanup, Hs1, decide_True by done. unfold Before. simpl.
  destruct (Z.ltb_spec 0 (ttl c1)); simpl; [|by eexists]. destruct (Z.ltb_spec (instant now) (instant now + - ttl c1)); [lia|by eexists].
Qed.

(** The lock only tells producers apart: honest validators approve two
    different blocks of one producer at one height, back to back, and both
    blocks then carry a quorum of honest approvals and are finalized by
    chains in the same state. *)
Definition approvals_for (b : Block) (vs : list (string * res BlockVote)) : Block :=
  set_QuorumSignatures (list_to_map (map (λ x, (x.1, match x.2 with inl v => v.(v_Signature) | inr _ => "" end)) vs)) b.

Definition two_votes (name : string) : list (res BlockVote) :=
  (handle_all [(clock, proposal1); (clock, proposal_empty)] (node_of name chain1)).2.

Definition votes_on (i : nat) : list (string * res BlockVote) :=
  map (λ name, (name, default (inr ErrNoKeys) (two_votes name !! i))) ["v2"; "v3"].

Theorem honest_votes_fork :
  proposal1.(Hash) ≠ proposal_empty.(Hash) ∧ proposal1.(Header).(Height) = proposal_empty.(Header).(Height) ∧
  (FinalizeBlock clock chain1 (approvals_for proposal1 (votes_on 0))).2 = inl tt ∧
  (FinalizeBlock clock chain1 (approvals_for proposal_empty (votes_on 1))).2 = inl tt.
Proof. vm_compute. split_and!; [discriminate|reflexivity..]. Qed.
