(* ===== verification/RpcTheorems.v ===== *)
(** The main theorems about the RPC server: catching up with peers and
    consensus rounds, each with a witness on concrete servers, and three
    defects. *)
From stdpp Require Import base strings list gmap relations.
From S2P Require Import Prelude GoStd Sha256 Json Types Ledger TxModel Staking Block Messages.
From S2P Require Import Slashing Network Engine EngineFacts.
From S2P Require Import Chain ChainFacts ChainBuild Agent Node Rpc RpcFacts RpcRound.
From S2P Require Import RpcRoundFacts.
From S2P Require Import Examples.

#[local] Open Scope string_scope.
#[local] Open Scope list_scope.
#[local] Open Scope Z_scope.

(** (C13) Catching up: whatever peers answer, a pass only ever finalizes
    blocks or switches to heavier replayed branches, it saves only chains on
    that way, and it leaves the server's configuration alone. In roster mode
    (validator keys are set, finality by stake is not configured) a new tip at
    or above the height from which the chain enforces authorization was proposed
    by a registered validator and carries the approvals of a quorum; the shipped
    configurations set that height to 33908, and below it the chain asks for
    neither. *)
Theorem catch_up_verified `{E : Ed25519} w fuel y y' r :
  CatchUpOnce w fuel y = (y', r) → sy_out y = [] →
  rtc sync_step (sy_Chain y) (sy_Chain y') ∧ y'.(sy_srv) = set_s_Chain (sy_Chain y') y.(sy_srv) ∧
  (∀ c, Saved c ∈ sy_out y' → rtc sync_step (sy_Chain y) c) ∧
  (sy_Chain y' = sy_Chain y ∨ ∃ t, tip (sy_Chain y') = Some t ∧
     ((sy_Chain y).(validatorKeys) ≠ ∅ → (sy_Chain y).(validatorStaking).(ConsensusFromHeight) = 0 →
      (sy_Chain y).(authEnforceFromHeight) ≤ t.(Header).(Height) → 0 < t.(Header).(Height) →
      (sy_Chain y).(requiredQuorum) ≤ Z.of_nat (size (roster_approvals (sy_Chain y) t)) ∧
      ∃ key raw, (sy_Chain y).(validatorKeys) !! t.(Header).(ProposerID) = Some key ∧
        decode_fixed t.(ProposerSignature) 64 = Some raw ∧ ed_Verify key t.(Hash) raw = true)).
Proof.
  intros Hrun Hout. apply catch_up_moves in Hrun as [Hs Hsrv (l & Ho & HF)]. rewrite Hout in Ho. cbn in Ho.
  split_and!; [done|done| |].
  - intros c Hc. rewrite Ho in Hc. rewrite Forall_forall in HF. exact (HF _ Hc).
  - destruct (sync_steps_tip _ _ Hs) as (_ & _ & [->|(t & Ht & Hv)]); [by left|]. right. exists t. split; [done|].
    intros. by apply vouched_roster.
Qed.

(** (C16) Catching up, the other direction: if the first peer that is ahead
    serves a valid extension of the chain page by page, one pass follows it to
    its tip and stops; a page is 250 blocks, so one round more than full pages
    is enough. *)
Theorem catch_up_complete `{E : Ed25519} w fuel y pre peer rest bs c' :
  y.(sy_srv).(PeerURLs) = pre ++ peer :: rest → Forall (dull w (chain_height (sy_Chain y))) pre →
  (∀ t, ∃ st, w.(pn_status) t peer = inl st ∧ chain_height (sy_Chain y) < st.(ps_Height)) →
  serves w peer (chain_height (sy_Chain y)) bs → extends w (sy_Chain y) bs c' → bs ≠ [] → room (sy_Chain y) bs →
  (length bs < 250 * fuel)%nat →
  ∃ y', CatchUpOnce w fuel y = (y', Done true (chain_height (sy_Chain y) + Z.of_nat (length bs))) ∧ sy_Chain y' = c'.
Proof.
  intros Hurls Hpre Hst Hserves Hext Hne Hroom Hfuel. unfold CatchUpOnce. rewrite Hurls.
  destruct (catch_up_dull w fuel pre (peer :: rest) (chain_height (sy_Chain y)) y Hpre) as [n ->].
  destruct (iter_tick n y) as [Hc _]. set (y1 := Nat.iter n tick y) in *. cbn [catch_up].
  destruct (Hst (sy_tick y1)) as (st & -> & Hgt). rewrite (proj2 (Z.leb_gt _ _) Hgt).
  change (sy_Chain (tick y1)) with (sy_Chain y1) in *. rewrite <- Hc in *.
  destruct (catch_up_peer_extends w fuel peer false (chain_height (sy_Chain y1)) (tick y1) bs c') as (y' & Hrun & Hc'); [done..|].
  rewrite Hrun. assert (0 <? Z.of_nat (length bs) = true) as -> by (apply Z.ltb_lt; destruct bs; cbn; [done|lia]).
  cbn [orb]. by exists y'.
Qed.

(** A follower at genesis, one peer that is down and one that has block 1. *)
Definition follower : Sync := mkSync (SetPeerURLs ["https://a"; " https://b/ "] (NewServer (ChainOnly chain1) true)) 0 [].

Definition net1 : PeerNet :=
  mkPeerNet (λ _ peer, if bool_decide (peer = "https://a") then inr (Err "connection refused")
                       else inl (mkPeerStatus 1 0 "synthos-test" block1.(Hash) "" false []))
    (λ _ _ from limit, inl (map Some (take (Z.to_nat limit) (drop (Z.to_nat (from - 1)) [block1]))))
    (λ _, clock).

Definition chain1_next : Chain := (FinalizeBlock clock chain1 block1).1.1.

Lemma chain1_extends : extends net1 chain1 [block1] chain1_next.
Proof.
  econstructor; [|constructor]. intros t. exists (FinalizeBlock clock chain1 block1).1.2. unfold chain1_next.
  cbn [pn_now net1]. rewrite <- block1_finalizes, <- !surjective_pairing. reflexivity.
Qed.

Lemma net1_serves : serves net1 "https://b" 0 [block1].
Proof. intros t k Hk. cbn. by replace (Z.to_nat (0 + 1 + Z.of_nat k - 1)) with k by lia. Qed.

Lemma catch_up_complete_witness : ∃ y', CatchUpOnce net1 1 follower = (y', Done true 1) ∧ sy_Chain y' = chain1_next.
Proof.
  apply (catch_up_complete net1 1 follower ["https://a"] "https://b" [] [block1] chain1_next eq_refl
    ltac:(constructor; [intros t; exact I|constructor]) ltac:(intros t; eexists; split; [reflexivity|vm_compute; reflexivity]) net1_serves chain1_extends
    ltac:(discriminate) ltac:(split; vm_compute; (discriminate || reflexivity))). cbn. lia.
Defined.

Lemma catch_up_verified_witness : rtc sync_step chain1 (sy_Chain (CatchUpOnce net1 1 follower).1).
Proof. destruct (catch_up_verified net1 1 follower _ _ (surjective_pairing _) eq_refl) as [H _]. exact H. Defined.

(** A defect of catching up: a peer that always answers with 250 copies of a
    block the node already has is never left. The pass makes no progress and
    does not end, and the ticker behind it never fires again. *)
Theorem catch_up_stalls `{E : Ed25519} w y peer rest b :
  y.(sy_srv).(PeerURLs) = peer :: rest →
  BlockAt (sy_Chain y) b.(Header).(Height) = Some b → b.(Header).(Height) ≤ chain_height (sy_Chain y) → tip (sy_Chain y) ≠ None →
  (∀ t, ∃ st, w.(pn_status) t peer = inl st ∧ chain_height (sy_Chain y) < st.(ps_Height)) →
  (∀ t from, w.(pn_blocks) t peer from catchUpBatchSize = inl (replicate 250 (Some b))) →
  ∀ fuel, (CatchUpOnce w fuel y).2 = OutOfFuel ∧ (CatchUpOnce w fuel y).1.(sy_srv) = y.(sy_srv).
Proof.
  intros Hurls Hb Hh Ht Hst Hp fuel. unfold CatchUpOnce. rewrite Hurls. cbn [catch_up].
  destruct (Hst (sy_tick y)) as (st & -> & Hgt). rewrite (proj2 (Z.leb_gt _ _) Hgt).
  destruct (catch_up_peer_known w fuel peer b false (chain_height (sy_Chain y)) (tick y)) as (y' & -> & Hs & _); [done..|]. by split.
Qed.

(** A second one: a peer that answers [null] for a block crashes the node.
    The page is rejected, and the search for a fork point that follows
    dereferences the same nil block. *)
Theorem catch_up_null_crash `{E : Ed25519} w y peer rest fuel :
  y.(sy_srv).(PeerURLs) = peer :: rest → 0 < chain_height (sy_Chain y) → EarliestHeight (sy_Chain y) ≤ chain_height (sy_Chain y) →
  (∀ t, ∃ st, w.(pn_status) t peer = inl st ∧ chain_height (sy_Chain y) < st.(ps_Height)) →
  (∀ t from, w.(pn_blocks) t peer from catchUpBatchSize = inl [None]) →
  (CatchUpOnce w (S fuel) y).2 = Crashed ErrNil.
Proof.
  intros Hurls Hpos He Hst Hp. unfold CatchUpOnce. rewrite Hurls. cbn [catch_up].
  destruct (Hst (sy_tick y)) as (st & -> & Hgt). rewrite (proj2 (Z.leb_gt _ _) Hgt).
  pose proof (catch_up_peer_null w fuel peer false (chain_height (sy_Chain y)) (tick y) Hpos He Hp) as Hc.
  destruct (catch_up_peer _ _ _ _ _ _) as [y' o]. cbn [snd] in Hc. by rewrite Hc.
Qed.

(** (C17) A consensus round, safety: whatever the peers and the mailbox
    answer, in whatever order, the round leaves the blocks alone and pushes
    nothing, or it extends the chain by one block that passed
    [FinalizeBlock]; it reports success only for the block at the tip, and in
    roster mode a new tip at or above the height from which the chain enforces
    authorization carries the approvals of a quorum. *)
Theorem round_safe `{E : Ed25519} w s s' out hash fin err :
  ProposeBlockWithConsensus w s = (s', out, (hash, fin, err)) →
  (fin = true → err = None ∧ ∃ t, tip (s_Chain s') = Some t ∧ t.(Hash) = hash ∧ out = save s' ++ pushBlockToPeers (Some t) s') ∧
  (fin = false → out = []) ∧
  ∃ c1, ledger_only (s_Chain s) c1 ∧
    (s_Chain s' = c1 ∨ ∃ b t, FinalizeBlock w.(rd_final) c1 b = (s_Chain s', t, inl tt) ∧ t.(Hash) = hash ∧
       ((s_Chain s).(validatorKeys) ≠ ∅ → (s_Chain s).(validatorStaking).(ConsensusFromHeight) = 0 →
        (s_Chain s).(authEnforceFromHeight) ≤ t.(Header).(Height) → 0 < t.(Header).(Height) →
        (s_Chain s).(requiredQuorum) ≤ Z.of_nat (size (roster_approvals (s_Chain s) t)))).
Proof.
  intros Hrun. destruct (round_cases _ _ _ _ _ _ _ Hrun) as ((c1 & Hl & Hc) & Ht & Hf). split; [done|]. split; [done|].
  exists c1. split; [done|]. destruct Hc as [?|(b & t & Hfin & Hh)]; [by left|]. right. exists b, t. split; [done|]. split; [done|].
  intros Hk Hs Ha Hp. destruct (ledger_only_policy _ _ Hl) as [Hpol Haut].
  apply (vouched_roster (s_Chain s) t); [|done..]. exists w.(rd_final), c1, b, (s_Chain s'). auto.
Qed.

(** (C18) A consensus round, liveness: if the block the producer builds is
    acceptable, its engine starts the height afresh and the validators whose
    approvals suffice answer with honest ones, the round finalizes the block,
    whatever else the peers and the mailbox send and in whatever order. *)
Theorem round_finalizes `{E : Ed25519} `{!Ed25519Correct E} w s n k d V :
  producer_ready w n k d V → s.(backend) = WithNode n →
  (∀ l, w.(rd_order) l ≡ₚ l) → (∀ c, w.(rd_hook) c = None) → V ≠ {[selfID n]} →
  (∀ id, id ∈ V → id ≠ selfID n → ∃ peer v, peer ∈ s.(ConsensusPeerURLs) ∧ w.(rd_answer) peer = inl v ∧
     verifyPeerVote v (proposed k d) n = true ∧ plain v ∧ v.(v_VoterID) = id) →
  ∃ s' out t, ProposeBlockWithConsensus w s = (s', out, (d.(Hash), true, None)) ∧
    tip (s_Chain s') = Some t ∧ t.(Hash) = d.(Hash).
Proof. intros Hr Hs Ho Hh HV Hans. by apply (ready_round w n k d V Hr). Qed.

(** The round of [v1], answered by [v2] and by a peer that is down. *)
Definition produced : Block := Eval vm_compute in block_or (BuildBlock clock "v1" (ProofRoot (agent_of "v1")) 1000 chain1).

Definition vote_of (name : string) : BlockVote :=
  mkVote produced.(Hash) 1 0 "" name 1 (hex0x (ed_Sign name (QuorumApprovalMessage produced))).

Definition node_v1 : Node := Eval vm_compute in
  (AddPeer "v3" (hexEncode (key_of "v3")) (AddPeer "v2" (hexEncode (key_of "v2")) (node_of "v1" chain1)).1).1.

Definition server_v1 : Server := SetConsensusPeerURLs ["https://v3"; "https://v2/"] (NewServer (WithNode node_v1) true).

Definition round_v1 : Round :=
  mkRound clock clock (λ peer, if bool_decide (peer = "https://v2") then inl (vote_of "v2") else inr (Err "connection refused"))
    [] (λ _, inr (Err "no mail")) (λ l, l) (λ _, clock) clock (λ _, None).

Definition keys_v1 : KeyPair := Eval vm_compute in mkKeys (key_of "v1") "v1".

Lemma node_v1_fresh x : ¬ stored (n_Engine node_v1) x.
Proof.
  unfold stored. assert ((n_Engine node_v1).(proposalsByHeight) = ∅) as -> by (vm_compute; reflexivity).
  assert ((n_Engine node_v1).(proposalsByHeightAndRound) = ∅) as -> by (vm_compute; reflexivity).
  intros [(h & Hx)|(h & m & r & Hm & _)]; [by apply lookup_empty_Some in Hx|by apply lookup_empty_Some in Hm].
Qed.

Lemma node_v1_roster : roster_ok (n_Engine node_v1).
Proof.
  assert (n_Engine node_v1 = SetValidators ["v1"; "v2"; "v3"]
    (SetSlashingTracker (Some (SetExecuteSlash true (NewSlashingTracker node_penalties))) (NewEngine 0))) as -> by (vm_compute; reflexivity).
  apply SetValidators_ok; [apply (bool_decide_unpack _); vm_compute; exact I|exists "v1"; split; [left|done]|vm_compute; discriminate].
Qed.

Lemma round_v1_ready : producer_ready round_v1 node_v1 keys_v1 produced {["v1"; "v2"]}.
Proof.
  split.
  - reflexivity.
  - vm_compute. reflexivity.
  - vm_compute. reflexivity.
  - vm_compute. reflexivity.
  - apply mempool_okb_ok. vm_compute. reflexivity.
  - exists (default produced (tip chain1)). split_and!; [reflexivity|discriminate| |constructor|reflexivity].
    vm_compute. split; [intros H; destruct (H eq_refl)|exact I].
  - apply Z.le_refl.
  - reflexivity.
  - reflexivity.
  - vm_compute. discriminate.
  - apply node_v1_roster.
  - reflexivity.
  - intros x Hx. by apply node_v1_fresh in Hx.
  - set_solver.
  - intros id Hid. assert (id = "v1" ∨ id = "v2") as [->| ->] by set_solver; vm_compute; reflexivity.
  - split; vm_compute; discriminate.
  - intros id pub Hid Hp. assert (id = "v1" ∨ id = "v2") as [->| ->] by set_solver; vm_compute in Hp; [discriminate|].
    vm_compute. exact Hp.
Qed.

Example round_v1_runs : (ProposeBlockWithConsensus round_v1 server_v1).2 = (produced.(Hash), true, None).
Proof. vm_compute. reflexivity. Qed.

Lemma round_v1_result : ∃ out, ProposeBlockWithConsensus round_v1 server_v1 =
  ((ProposeBlockWithConsensus round_v1 server_v1).1.1, out, (produced.(Hash), true, None)).
Proof. exists (ProposeBlockWithConsensus round_v1 server_v1).1.2. rewrite <- round_v1_runs, <- !surjective_pairing. reflexivity. Qed.

Lemma round_finalizes_witness : ∃ s' out t,
  ProposeBlockWithConsensus round_v1 server_v1 = (s', out, (produced.(Hash), true, None)) ∧ tip (s_Chain s') = Some t ∧ t.(Hash) = produced.(Hash).
Proof.
  apply (round_finalizes round_v1 server_v1 node_v1 keys_v1 produced {["v1"; "v2"]} round_v1_ready eq_refl (λ l, Permutation_refl l) (λ _, eq_refl)).
  - intros H. assert ("v2" ∈ ({["v1"; "v2"]} : gset string)) as Hin by set_solver. rewrite H in Hin. vm_compute in Hin. discriminate.
  - intros id Hid Hne. assert (id = "v1" ∨ id = "v2") as [->| ->] by set_solver; [destruct Hne; reflexivity|].
    exists "https://v2", (vote_of "v2"). split_and!; [|reflexivity|vm_compute; reflexivity|split; reflexivity|reflexivity].
    right. left.
Defined.


Lemma round_safe_witness : ∃ t, tip (s_Chain (ProposeBlockWithConsensus round_v1 server_v1).1.1) = Some t ∧ t.(Hash) = produced.(Hash).
Proof.
  destruct round_v1_result as [out Hrun].
  destruct (round_safe _ _ _ _ _ _ _ Hrun) as (Hf & _). destruct (Hf eq_refl) as (_ & t & Ht & Hh & _). exists t. split; [exact Ht|exact Hh].
Defined.

(** A third defect: a producer without peers never finalizes, even when its
    own vote is a quorum; the result of the vote it casts itself is thrown
    away. *)
Theorem lone_producer_stalls `{E : Ed25519} w s :
  s.(ConsensusPeerURLs) = [] → s.(MailboxRelayPeers) = [] → w.(rd_order) [] = [] →
  (ProposeBlockWithConsensus w s).2.1.2 = false.
Proof.
  intros Hp Hm Ho. unfold ProposeBlockWithConsensus, collectConsensusVotes, peer_votes, collectMailboxVotes. rewrite Hp, Hm. cbn. rewrite Ho.
  destruct (s_Node s) as [n|]; [|done]. destruct (BuildAndSignProposal _ n) as [n1 [b|e]]; [|done].
  destruct (SelfVote _ b n1) as [n2 [v|e]]; done.
Qed.
