(* ===== verification/GoText.v ===== *)
(** More of Go's standard library, on what comes from outside: splitting,
    searching and comparing strings, numbers of any size ([math/big]), times as
    nanoseconds since 1970, byte strings, slicing, and numbers as big-endian
    bytes. As in [GoStd], case and white space are those of ASCII. *)
From stdpp Require Import base strings list.
From Stdlib Require Import Ascii.
From S2P Require Import Prelude GoStd Json JsonParse TxModel JsonRound.

#[local] Open Scope string_scope.
#[local] Open Scope Z_scope.

(* ------------------------------------------------------------------ *)
(** * strings *)

(** [strings.Split] at a separator of one byte: never empty. *)
Fixpoint Split (s : string) (sep : ascii) : list string :=
  match s with
  | EmptyString => [""]
  | String c s =>
      if bool_decide (c = sep) then "" :: Split s sep
      else match Split s sep with x :: l => String c x :: l | [] => [String c ""] end
  end.

Fixpoint Contains (s sub : string) : bool :=
  HasPrefix s sub || match s with EmptyString => false | String _ s => Contains s sub end.

Definition HasSuffix (s suffix : string) : bool :=
  (String.length suffix <=? String.length s)%nat
  && bool_decide (sdrop (String.length s - String.length suffix) s = suffix).

Definition EqualFold (s t : string) : bool := bool_decide (ToLower s = ToLower t).

Fixpoint sfilter (f : ascii → bool) (s : string) : string :=
  match s with
  | EmptyString => EmptyString
  | String c s => if f c then String c (sfilter f s) else sfilter f s
  end.

Fixpoint sforall (f : ascii → bool) (s : string) : bool :=
  match s with
  | EmptyString => true
  | String c s => f c && sforall f s
  end.

Definition is_digit (c : ascii) : bool := (48 <=? code c) && (code c <=? 57).

(* ------------------------------------------------------------------ *)
(** * math/big *)

(** The value of a digit; only bases 10 and 16 are used. *)
Definition digit_val (base : Z) (c : ascii) : option Z :=
  match hex_val c with Some v => if v <? base then Some v else None | None => None end.

Fixpoint big_digits (base : Z) (s : string) (acc : Z) : option Z :=
  match s with
  | EmptyString => Some acc
  | String c s => match digit_val base c with Some v => big_digits base s (acc * base + v) | None => None end
  end.

(** [new(big.Int).SetString(s, base)]: an optional sign, then at least one
    digit, and nothing else. *)
Definition SetString (s : string) (base : Z) : option Z :=
  let '(neg, ds) := match s with
                    | String c t => if code c =? 45 then (true, t) else if code c =? 43 then (false, t) else (false, s)
                    | EmptyString => (false, s)
                    end in
  match ds with
  | EmptyString => None
  | _ => match big_digits base ds 0 with Some v => Some (if neg then - v else v) | None => None end
  end.

(** [new(big.Int).Exp(x, y, nil)]: 1 when [y] is not positive. *)
Definition big_Exp (x y : Z) : Z := if y <=? 0 then 1 else x ^ y.

(** [z.String()] *)
Definition big_String (z : Z) : string := fmt_d z.

(* ------------------------------------------------------------------ *)
(** * time

    [time.Now()] is a number of nanoseconds since 1970; [time.UnixMilli] and
    [UnixMilli] go from and to milliseconds. *)

Definition millisecond : Z := 1000000.
Definition minute : Z := 60 * 1000 * millisecond.
Definition hour : Z := 60 * minute.

Definition UnixMilli (now : Z) : Z := now / millisecond.

(** [now.Sub(time.UnixMilli(ms))]: saturates. *)
Definition since (now ms : Z) : Z := Z.max (-9223372036854775808) (Z.min 9223372036854775807 (now - ms * millisecond)).

(* ------------------------------------------------------------------ *)
(** * Lemmas *)

Lemma Split_cons s sep : ∃ x l, Split s sep = x :: l.
Proof.
  induction s as [|c s (x & l & IH)]; [by eauto|]. cbn. destruct (bool_decide _); [by eauto|]. rewrite IH. eauto.
Qed.

Lemma Split_none t sep : sforall (λ c, negb (bool_decide (c = sep))) t = true → Split t sep = [t].
Proof.
  induction t as [|c t IH]; [done|]. cbn. intros [Hc Ht]%andb_prop. destruct (bool_decide (c = sep)); [done|]. by rewrite IH.
Qed.

(** Appending text without separators prolongs the last part. *)
Lemma Split_app s t sep : sforall (λ c, negb (bool_decide (c = sep))) t = true →
  ∃ l x, Split s sep = (l ++ [x])%list ∧ Split (s +:+ t) sep = (l ++ [x +:+ t])%list.
Proof.
  intros Ht. induction s as [|c s (l & x & IH1 & IH2)].
  - exists [], "". split; [done|]. exact (Split_none t sep Ht).
  - change (String c s +:+ t) with (String c (s +:+ t)). cbn. destruct (bool_decide (c = sep)).
    + exists ("" :: l), x. by rewrite IH1, IH2.
    + rewrite IH1, IH2. destruct l as [|y l]; cbn; [by exists [], (String c x)|by exists (String c y :: l), x].
Qed.

Lemma compare_cons c s d t :
  String.compare (String c s) (String d t) = match code c ?= code d with Eq => String.compare s t | r => r end.
Proof. rewrite <- ascii_compare_code. reflexivity. Qed.

Lemma compare_refl s : String.compare s s = Eq.
Proof. induction s as [|c s IH]; [done|]. by rewrite compare_cons, Z.compare_refl. Qed.

Lemma compare_longer s c t : String.compare s (s +:+ String c t) = Lt.
Proof.
  induction s as [|d s IH]; [done|]. change (String d s +:+ String c t) with (String d (s +:+ String c t)).
  by rewrite compare_cons, Z.compare_refl.
Qed.

Lemma since_gt now ms d : -9223372036854775808 ≤ d < 9223372036854775807 → (d <? since now ms) = (d <? now - ms * millisecond).
Proof. unfold since. intros. destruct (Z.ltb_spec d (now - ms * millisecond)), (Z.ltb_spec d (Z.max (-9223372036854775808) (Z.min 9223372036854775807 (now - ms * millisecond)))); lia. Qed.

(* ------------------------------------------------------------------ *)
(** * Byte strings *)

(** [data[a:b]]: a run-time panic unless a ≤ b ≤ len(data). *)
Definition slice (data : string) (a b : Z) : res string :=
  if (a <=? b) && (b <=? slen data) then inl (take_bytes (Z.to_nat (b - a)) (sdrop (Z.to_nat a) data))
  else inr (Panic "slice bounds out of range").

(** [new(big.Int).SetBytes]: big-endian. *)
Fixpoint SetBytes_from (s : string) (acc : Z) : Z :=
  match s with
  | EmptyString => acc
  | String c s => SetBytes_from s (acc * 256 + code c)
  end.
Definition SetBytes (s : string) : Z := SetBytes_from s 0.

(** [n] bytes, big-endian. *)
Fixpoint big_endian (n : nat) (z : Z) : string :=
  match n with
  | O => ""
  | S n => big_endian n (z / 256) +:+ String (chr (z mod 256)) ""
  end.

Lemma slen_app s t : slen (s +:+ t) = slen s + slen t.
Proof. unfold slen. induction s as [|c s IH]; [done|]. rewrite app_cons. cbn [String.length]. lia. Qed.

Lemma slen_nonneg s : 0 ≤ slen s.
Proof. unfold slen. lia. Qed.

Lemma sdrop_app s t : sdrop (String.length s) (s +:+ t) = t.
Proof. by induction s. Qed.

Lemma take_bytes_app s t : take_bytes (String.length s) (s +:+ t) = s.
Proof. induction s as [|c s IH]; [by destruct t|]. rewrite app_cons. cbn. by rewrite IH. Qed.

Lemma take_bytes_self s : take_bytes (String.length s) s = s.
Proof. rewrite <- (app_nil_s s) at 2. apply take_bytes_app. Qed.

Lemma slice_mid x y z a b : a = slen x → b = a + slen y → slice (x +:+ y +:+ z) a b = inl y.
Proof.
  intros -> ->. unfold slice. pose proof (slen_nonneg x). pose proof (slen_nonneg y). pose proof (slen_nonneg z).
  rewrite !slen_app, (proj2 (Z.leb_le _ _)), (proj2 (Z.leb_le _ _)) by lia. cbn [andb].
  replace (Z.to_nat (slen x + slen y - slen x)) with (String.length y) by (unfold slen; lia).
  replace (Z.to_nat (slen x)) with (String.length x) by (unfold slen; lia). by rewrite sdrop_app, take_bytes_app.
Qed.

Lemma length_big_endian n z : slen (big_endian n z) = Z.of_nat n.
Proof. revert z. induction n as [|n IH]; intros z; cbn [big_endian]; [done|]. rewrite slen_app, IH. unfold slen. cbn. lia. Qed.

Lemma SetBytes_app s t acc : SetBytes_from (s +:+ t) acc = SetBytes_from t (SetBytes_from s acc).
Proof. revert acc. induction s as [|c s IH]; intros acc; [done|]. rewrite app_cons. apply IH. Qed.

Lemma SetBytes_big_endian n z : 0 ≤ z < 256 ^ Z.of_nat n → ∀ acc, SetBytes_from (big_endian n z) acc = acc * 256 ^ Z.of_nat n + z.
Proof.
  revert z. induction n as [|n IH]; intros z Hz acc; cbn [big_endian]; [cbn in *; lia|].
  rewrite Nat2Z.inj_succ, Z.pow_succ_r in * by lia. rewrite SetBytes_app, IH.
  - cbn [SetBytes_from]. rewrite code_chr by (apply Z.mod_pos_bound; lia). pose proof (Z.div_mod z 256 ltac:(lia)). lia.
  - split; [apply Z.div_pos; lia|]. apply Z.div_lt_upper_bound; lia.
Qed.

#[global] Opaque big_endian.
