(* ===== verification/Registry.v ===== *)
(** The registry (cmd/cloudless-registry): who is on the network, which nodes
    have proved how much uptime, which of them are approved validators, and
    the mailbox through which validators without a public address are
    reached (main.go, hardware.go).

    A handler is a run of [SM server]: its checks in order, its change of the
    state, and [persist], which writes the whole state to disk and whose
    failure is only logged. A failing handler answers with an error; the HTTP
    status it puts in front is left out. The request ([Request]) carries the
    method, the secret header, the addresses it came from, the time (read once), the
    random characters of a new identifier, and whether writing to disk succeeds; the
    decoded body is an argument. Each handler is atomic (it holds the
    server's lock while it works on the state). *)
From stdpp Require Import base strings list gmap sorting.
From Stdlib Require Import Ascii.
From S2P Require Import Prelude GoStd Sha256 TxModel GoText.

#[local] Open Scope string_scope.
#[local] Open Scope Z_scope.

(* ------------------------------------------------------------------ *)
(** * Data *)

Definition staleAfter : Z := 5 * minute.
Definition heartbeatFreshAfter : Z := 2 * minute.
Definition rewardEpoch : Z := 30 * 24 * hour.
Definition validatorMinimumBondSYN : Z := 10000.

Record peer : Type := mkPeer {
  pe_Name : string;
  pe_URL : string;
  pe_Kind : string;
  pe_Network : string;
  pe_Status : string;
  pe_PublicKey : string;
  pe_Capabilities : list string;
  pe_Cloud : string;
  pe_Mode : string;
  pe_InboundPorts : Z;
  pe_HardwareCommitment : string;
  pe_RegisteredAt : Z;
  pe_LastSeen : Z;
  pe_Stale : bool;
  pe_Role : string;
  pe_ProofStatus : string;
  pe_Height : Z;
  pe_Tip : string;
  pe_StateRoot : string;
  pe_FirstHeartbeatAt : Z;
  pe_LastHeartbeatAt : Z;
  pe_ValidHeartbeats : Z;
  pe_VerifiedUptimeMS : Z;
  pe_LastNonce : string;
  pe_HostedProofSession : bool;
  pe_SharedHardwareWith : string;
  pe_HouseholdIP : string;
  pe_SharedHouseholdWith : string;
  pe_PayoutAddress : string;
  pe_LastRewardPaidEpoch : string;
  pe_LastRewardPaidAt : Z;
  pe_TotalRewardsPaidSYN : Z;
  pe_LastRewardTxHash : string;
  pe_RewardUptimeAtPaidMS : Z;
  pe_OperatorAddress : string;
  pe_BondedSYN : Z;
  pe_ValidatorApproved : bool;
  pe_ValidatorApprovedAt : Z;
  pe_ValidatorPublicURL : string
}.

#[global] Instance eta_peer : Eta peer := λ p,
  mkPeer p.(pe_Name) p.(pe_URL) p.(pe_Kind) p.(pe_Network) p.(pe_Status) p.(pe_PublicKey) p.(pe_Capabilities) p.(pe_Cloud)
    p.(pe_Mode) p.(pe_InboundPorts) p.(pe_HardwareCommitment) p.(pe_RegisteredAt) p.(pe_LastSeen) p.(pe_Stale) p.(pe_Role)
    p.(pe_ProofStatus) p.(pe_Height) p.(pe_Tip) p.(pe_StateRoot) p.(pe_FirstHeartbeatAt) p.(pe_LastHeartbeatAt)
    p.(pe_ValidHeartbeats) p.(pe_VerifiedUptimeMS) p.(pe_LastNonce) p.(pe_HostedProofSession) p.(pe_SharedHardwareWith)
    p.(pe_HouseholdIP) p.(pe_SharedHouseholdWith) p.(pe_PayoutAddress) p.(pe_LastRewardPaidEpoch) p.(pe_LastRewardPaidAt)
    p.(pe_TotalRewardsPaidSYN) p.(pe_LastRewardTxHash) p.(pe_RewardUptimeAtPaidMS) p.(pe_OperatorAddress) p.(pe_BondedSYN)
    p.(pe_ValidatorApproved) p.(pe_ValidatorApprovedAt) p.(pe_ValidatorPublicURL).

(** Go's [peer{}]. *)
Definition zero_peer : peer :=
  mkPeer "" "" "" "" "" "" [] "" "" 0 "" 0 0 false "" "" 0 "" "" 0 0 0 0 "" false "" "" "" "" "" 0 0 "" 0 "" 0 false 0 "".

(** [Payload] is the text of a JSON value, absent for [nil]. *)
Record mailboxMessage : Type := mkMessage {
  ms_ID : string;
  ms_Type : string;
  ms_From : string;
  ms_Payload : option string;
  ms_CreatedAt : Z
}.

Record contactMessage : Type := mkContact {
  co_ID : string;
  co_Name : string;
  co_Email : string;
  co_Topic : string;
  co_Message : string;
  co_CreatedAt : Z
}.

Record earlyAccessPaymentIntent : Type := mkIntent {
  in_ID : string;
  in_Status : string;
  in_BuyerWallet : string;
  in_SynthosAddress : string;
  in_AssetSymbol : string;
  in_Network : string;
  in_PaymentAddress : string;
  in_PaymentAsset : string;
  in_PaymentAmount : string;
  in_PaymentDecimals : Z;
  in_USDValueCents : Z;
  in_SynAmount : Z;
  in_TxHash : string;
  in_SynthosTxID : string;
  in_CreatedAt : Z;
  in_UpdatedAt : Z;
  in_ExpiresAt : Z;
  in_VerificationError : string
}.

#[global] Instance eta_intent : Eta earlyAccessPaymentIntent := λ i,
  mkIntent i.(in_ID) i.(in_Status) i.(in_BuyerWallet) i.(in_SynthosAddress) i.(in_AssetSymbol) i.(in_Network)
    i.(in_PaymentAddress) i.(in_PaymentAsset) i.(in_PaymentAmount) i.(in_PaymentDecimals) i.(in_USDValueCents)
    i.(in_SynAmount) i.(in_TxHash) i.(in_SynthosTxID) i.(in_CreatedAt) i.(in_UpdatedAt) i.(in_ExpiresAt) i.(in_VerificationError).

Record rewardPayout : Type := mkRewardPayout {
  rp_ID : string;
  rp_NodeID : string;
  rp_Address : string;
  rp_AmountSYN : Z;
  rp_Epoch : string;
  rp_Nonce : Z;
  rp_TxID : string;
  rp_Status : string;
  rp_UptimeMS : Z;
  rp_SubmittedAt : Z;
  rp_ConfirmedAt : Z
}.

#[global] Instance eta_payout : Eta rewardPayout := λ r,
  mkRewardPayout r.(rp_ID) r.(rp_NodeID) r.(rp_Address) r.(rp_AmountSYN) r.(rp_Epoch) r.(rp_Nonce) r.(rp_TxID) r.(rp_Status)
    r.(rp_UptimeMS) r.(rp_SubmittedAt) r.(rp_ConfirmedAt).

Record registryState : Type := mkRegistry {
  Peers : gmap string peer;
  Mailbox : gmap string (list mailboxMessage);
  Contacts : list contactMessage;
  EarlyAccessPayments : gmap string earlyAccessPaymentIntent;
  ConsumedPaymentTxHashes : gmap string string;
  RewardPayouts : list rewardPayout
}.

#[global] Instance eta_registry : Eta registryState := λ r,
  mkRegistry r.(Peers) r.(Mailbox) r.(Contacts) r.(EarlyAccessPayments) r.(ConsumedPaymentTxHashes) r.(RewardPayouts).

Definition empty_registry : registryState := mkRegistry ∅ ∅ [] ∅ ∅ [].

(** The server's state and its state file. *)
Record server : Type := mkRegServer { reg : registryState; state_file : option registryState }.

#[global] Instance eta_server : Eta server := λ s, mkRegServer s.(reg) s.(state_file).

(** [load]: what a restarted server begins with. *)
Definition load (s : server) : server := s <| reg := default empty_registry s.(state_file) |>.

Record config : Type := mkConfig { secret : string; insecureDev : bool; maxMailbox : Z }.

(** [header] gives the request's headers, [RemoteHost] what
    [net.SplitHostPort] finds in the remote address. *)
Record Request : Type := mkRequest {
  rq_Method : string;
  rq_Secret : string;
  rq_header : string → string;
  rq_RemoteAddr : string;
  rq_RemoteHost : option string;
  rq_now : Z;
  rq_random : string;
  rq_saved : bool
}.

(** [authorized] *)
Definition authorized (cfg : config) (r : Request) : bool :=
  if empty_str cfg.(secret) then cfg.(insecureDev)
  else negb (empty_str r.(rq_Secret)) && bool_decide (r.(rq_Secret) = cfg.(secret)).

(** [persist] *)
Definition persist (ok : bool) : SM server unit := modify (λ s, if ok then s <| state_file := Some s.(reg) |> else s).

Definition on_reg (f : registryState → registryState) : SM server unit := modify (λ s, s <| reg := f s.(reg) |>).
Definition the_peer (name : string) : SM server (option peer) := gets (λ s, s.(reg).(Peers) !! name).
Definition put_peer (name : string) (p : peer) : SM server unit := on_reg (λ s, s <| Peers := <[name := p]> s.(Peers) |>).

Definition not_post (r : Request) : SM server unit :=
  fail_if (negb (bool_decide (r.(rq_Method) = "POST"))) (Err "method not allowed").
Definition need_secret (cfg : config) (r : Request) : SM server unit := fail_if (negb (authorized cfg r)) (Err "unauthorized").

(* ------------------------------------------------------------------ *)
(** * Cleaning up what a request says *)

Definition defaultString (value fallback : string) : string := if empty_str value then fallback else value.

(** [truncate] *)
Definition truncate (value : string) (max : nat) : string := take_bytes max (TrimSpace value).

(** [safeName] *)
Definition safe_char (c : ascii) : bool :=
  ((97 <=? code c) && (code c <=? 122)) || ((65 <=? code c) && (code c <=? 90)) || is_digit c || (code c =? 95) || (code c =? 45).

(** [sanitize] *)
Definition sanitize (value : string) : string := sfilter safe_char (truncate value 64).

(** [normalizeRole] *)
Definition normalizeRole (value : string) : string :=
  let v := ToLower (TrimSpace value) in
  if bool_decide (v ∈ ["validator"; "public_validator"; "public-validator"; "validator_node"]) then "validator_candidate"
  else if bool_decide (v ∈ ["validator_candidate"; "validator-candidate"]) then "validator_candidate"
  else if bool_decide (v ∈ ["immune"; "immune_node"; "immune-node"]) then "immune"
  else "observer".

(** [roleKind] *)
Definition roleKind (role : string) : string :=
  if bool_decide (role ∈ ["validator_candidate"; "validator"]) then "validator"
  else if bool_decide (role = "immune") then "immune" else "observer".

(** [normalizeChoice] *)
Definition normalizeChoice (value fallback : string) (allowed : list string) : string :=
  let v := ToLower (TrimSpace value) in if bool_decide (v ∈ allowed) then v else fallback.

(** [canonicalCapability] *)
Definition canonicalCapability (v : string) : string :=
  if bool_decide (v ∈ ["canonical_serialisation"; "serialization"]) then "canonical_serialization"
  else if bool_decide (v = "registry") then "validator_registry"
  else if bool_decide (v = "rotation") then "proposal_rotation"
  else if bool_decide (v = "replay") then "replay_protection"
  else if bool_decide (v ∈ ["storage"; "persistent_block_storage"; "persistent_vote_storage"; "persistent_state_storage"]) then "persistent_storage"
  else v.

Definition allowed_capabilities : list string :=
  ["immune_node"; "economist"; "governor"; "communicator"; "simulator"; "enforcer"; "citizen"; "ed25519"; "canonical_serialization";
   "canonical_serialisation"; "serialization"; "validator_registry"; "registry"; "proposal_rotation"; "rotation"; "quorum";
   "replay_protection"; "replay"; "persistent_storage"; "storage"; "persistent_block_storage"; "persistent_vote_storage";
   "persistent_state_storage"; "mobile_candidate"].

(** [normalizeCapabilities] *)
Fixpoint normalize_caps (values seen : list string) : list string :=
  match values with
  | [] => []
  | v :: values =>
      let v := canonicalCapability (ToLower (TrimSpace v)) in
      if negb (bool_decide (v ∈ allowed_capabilities)) || bool_decide (v ∈ seen) then normalize_caps values seen
      else v :: normalize_caps values (v :: seen)
  end.
Definition normalizeCapabilities (values : list string) : list string := normalize_caps values [].

(** [coreNodeCapabilities] *)
Definition coreNodeCapabilities : list string :=
  ["ed25519"; "canonical_serialization"; "validator_registry"; "proposal_rotation"; "quorum"; "replay_protection"; "persistent_storage"].

(** [payoutAddressPattern], [normalizePayoutAddress] (reward_keeper.go) *)
Definition is_payout_address (s : string) : bool :=
  HasPrefix s "0x" && (slen s =? 42)
  && sforall (λ c, is_digit c || ((97 <=? code c) && (code c <=? 102))) (sdrop 2 s).
Definition normalizePayoutAddress (addr : string) : string :=
  let a := ToLower (TrimSpace addr) in if is_payout_address a then a else "".

(** [isHouseholdIP] (hardware.go) *)
Definition isHouseholdIP (ip : string) : bool :=
  let ip := TrimSpace ip in
  negb (bool_decide (ip ∈ [""; "127.0.0.1"; "::1"; "localhost"; "192.0.2.1"])).

(** [extractHouseholdIP] *)
Fixpoint header_ip (r : Request) (names : list string) : option string :=
  match names with
  | [] => None
  | h :: names =>
      let val := TrimSpace (r.(rq_header) h) in
      if empty_str val then header_ip r names
      else
        let val := match Split val ","%char with first :: _ :: _ => TrimSpace first | _ => val end in
        if isHouseholdIP val then Some val else header_ip r names
  end.
Definition extractHouseholdIP (r : Request) : string :=
  match header_ip r ["CF-Connecting-IP"; "X-Forwarded-For"; "X-Real-IP"] with
  | Some ip => ip
  | None =>
      match r.(rq_RemoteHost) with
      | Some host => if isHouseholdIP host then host else if isHouseholdIP r.(rq_RemoteAddr) then r.(rq_RemoteAddr) else ""
      | None => if isHouseholdIP r.(rq_RemoteAddr) then r.(rq_RemoteAddr) else ""
      end
  end.

(** [peerIsStale] (hardware.go) *)
Definition peerIsStale (p : peer) (now : Z) : bool := (p.(pe_LastSeen) =? 0) || (staleAfter <? since now p.(pe_LastSeen)).

(** [isRealSignedHeartbeat] *)
Definition isRealSignedHeartbeat (p : peer) : bool :=
  negb p.(pe_HostedProofSession) && negb (empty_str p.(pe_LastNonce)) && (0 <? p.(pe_ValidHeartbeats)).

(** [proofStatus] *)
Definition proofStatus (p : peer) (now : Z) : string :=
  if p.(pe_LastHeartbeatAt) =? 0 then "registered"
  else if heartbeatFreshAfter <? since now p.(pe_LastHeartbeatAt) then "stale"
  else if rewardEpoch <=? i64 (p.(pe_VerifiedUptimeMS) * millisecond) then "eligible"
  else "proving".

(* ------------------------------------------------------------------ *)
(** * Peers registered by an operator *)

Definition is_http (url : string) : bool := HasPrefix url "http://" || HasPrefix url "https://".

Record RegisterBody : Type := mkRegisterBody {
  rb_Name : string;
  rb_URL : string;
  rb_Cloud : string;
  rb_Kind : string;
  rb_Network : string;
  rb_Status : string;
  rb_PublicKey : string;
  rb_Capabilities : list string;
  rb_Mode : string;
  rb_InboundPorts : Z;
  rb_HardwareCommitment : string;
  rb_Height : Z;
  rb_Tip : string;
  rb_StateRoot : string
}.

(** The entry [handleRegister] builds. *)
Definition register_entry (name : string) (b : RegisterBody) (now : Z) : peer :=
  let mode := truncate b.(rb_Mode) 64 in
  let mode := if empty_str mode then if empty_str b.(rb_URL) then "outbound_only" else "reachable" else mode in
  zero_peer
    <| pe_Name := name |>
    <| pe_URL := truncate b.(rb_URL) 256 |>
    <| pe_Kind := normalizeChoice b.(rb_Kind) "validator" ["validator"; "immune"] |>
    <| pe_Network := normalizeChoice b.(rb_Network) "testnet" ["testnet"; "mainnet"] |>
    <| pe_Status := truncate (defaultString b.(rb_Status) "running") 32 |>
    <| pe_PublicKey := truncate b.(rb_PublicKey) 256 |>
    <| pe_Capabilities := normalizeCapabilities b.(rb_Capabilities) |>
    <| pe_Cloud := truncate (defaultString b.(rb_Cloud) "cloudless") 32 |>
    <| pe_Mode := mode |>
    <| pe_InboundPorts := b.(rb_InboundPorts) |>
    <| pe_HardwareCommitment := truncate b.(rb_HardwareCommitment) 128 |>
    <| pe_Height := b.(rb_Height) |>
    <| pe_Tip := truncate b.(rb_Tip) 128 |>
    <| pe_StateRoot := truncate b.(rb_StateRoot) 128 |>
    <| pe_RegisteredAt := now |>
    <| pe_LastSeen := now |>.

(** [handleRegister] *)
Definition handleRegister (cfg : config) (r : Request) (body : res RegisterBody) : SM server peer :=
  not_post r;;
  need_secret cfg r;;
  b ← lift body;
  let name := sanitize b.(rb_Name) in
  fail_if (empty_str name) (Err "name required");;
  fail_if (negb (empty_str b.(rb_URL)) && negb (is_http b.(rb_URL))) (Err "url must start with http:// or https://");;
  let entry := register_entry name b (UnixMilli r.(rq_now)) in
  old ← the_peer name;
  entry ← match old with
          | None => mret entry
          | Some existing =>
              fail_if (negb (empty_str existing.(pe_PublicKey)) && negb (bool_decide (entry.(pe_PublicKey) = existing.(pe_PublicKey))))
                (Err "name is already registered with a different public key");;
              mret (entry <| pe_RegisteredAt := existing.(pe_RegisteredAt) |>)
          end;
  put_peer name entry;;
  persist r.(rq_saved);;
  mret entry.

(** [handlePeerByName]; [path] is what follows [/peers/]. *)
Definition handlePeerByName (cfg : config) (r : Request) (path : string) : SM server string :=
  fail_if (negb (bool_decide (r.(rq_Method) = "DELETE"))) (Err "404 page not found");;
  need_secret cfg r;;
  let name := sanitize path in
  fail_if (empty_str name) (Err "name required");;
  on_reg (λ s, s <| Peers := delete name s.(Peers) |>);;
  persist r.(rq_saved);;
  mret name.

(** Whether [pruneInactivePeers] drops a peer. *)
Definition inactive (cutoff now : Z) (p : peer) : bool :=
  let lastActive := if p.(pe_LastSeen) =? 0 then p.(pe_RegisteredAt) else p.(pe_LastSeen) in
  if isRealSignedHeartbeat p || (0 <? p.(pe_VerifiedUptimeMS))
  then (lastActive =? 0) || (30 * 24 * hour <? since now lastActive)
  else (lastActive =? 0) || (cutoff <? since now lastActive).

(** [pruneInactivePeers]: how many were dropped. *)
Definition pruneInactivePeers (cutoff now : Z) (saved : bool) : SM server Z :=
  s ← get;
  let peers := s.(reg).(Peers) in
  let kept := filter (λ kv, inactive cutoff now kv.2 = false) peers in
  let pruned := Z.of_nat (size peers) - Z.of_nat (size kept) in
  on_reg (λ s, s <| Peers := kept |>);;
  (if 0 <? pruned then persist saved else mret tt);;
  mret pruned.

(* ------------------------------------------------------------------ *)
(** * The mailbox *)

Record MailBody : Type := mkMailBody {
  mb_To : string;
  mb_Name : string;
  mb_ID : string;
  mb_Type : string;
  mb_From : string;
  mb_Payload : option string;
  mb_Message : option string
}.

(** Pulling ([GET]): the messages are handed out once. *)
Definition pull_mail (r : Request) (who : string) : SM server (list mailboxMessage) :=
  let name := sanitize who in
  fail_if (empty_str name) (Err "name required");;
  s ← get;
  let messages := default [] (s.(reg).(Mailbox) !! name) in
  on_reg (λ s, s <| Mailbox := delete name s.(Mailbox) |>);;
  (if bool_decide (messages = []) then mret tt else persist r.(rq_saved));;
  mret messages.

(** The message a post leaves, and for whom. *)
Definition mail_target (b : MailBody) : string := sanitize (defaultString b.(mb_To) b.(mb_Name)).
Definition the_mail (r : Request) (b : MailBody) : mailboxMessage :=
  mkMessage (truncate (defaultString b.(mb_ID) (fmt_d r.(rq_now))) 128)
    (truncate (defaultString b.(mb_Type) "message") 64)
    (truncate (defaultString b.(mb_From) "registry") 64)
    (match b.(mb_Payload) with Some p => Some p | None => b.(mb_Message) end)
    (UnixMilli r.(rq_now)).

(** Posting: the newest [maxMailbox] messages are kept. *)
Definition newest (max : Z) (box : list mailboxMessage) : list mailboxMessage :=
  if max <? Z.of_nat (length box) then drop (length box - Z.to_nat max) box else box.

Definition post_mail (cfg : config) (r : Request) (body : res MailBody) : SM server (string * Z) :=
  need_secret cfg r;;
  b ← lift body;
  let to := mail_target b in
  fail_if (empty_str to) (Err "to required");;
  let msg := the_mail r b in
  s ← get;
  let box := newest cfg.(maxMailbox) (default [] (s.(reg).(Mailbox) !! to) ++ [msg])%list in
  on_reg (λ s, s <| Mailbox := <[to := box]> s.(Mailbox) |>);;
  persist r.(rq_saved);;
  mret (msg.(ms_ID), Z.of_nat (length box)).

(** [handleMailbox] *)
Definition handleMailbox (cfg : config) (r : Request) (who : string) (body : res MailBody) : SM server (list mailboxMessage + (string * Z)) :=
  if bool_decide (r.(rq_Method) = "GET") then m ← pull_mail r who; mret (inl m)
  else if bool_decide (r.(rq_Method) = "POST") then a ← post_mail cfg r body; mret (inr a)
  else throw (Err "method not allowed").

Record ContactBody : Type := mkContactBody { cb_Name : string; cb_Email : string; cb_Topic : string; cb_Message : string }.

(** [handleAPIContact] *)
Definition handleAPIContact (r : Request) (body : res ContactBody) : SM server string :=
  not_post r;;
  b ← lift body;
  fail_if (empty_str (TrimSpace b.(cb_Name)) || empty_str (TrimSpace b.(cb_Email)) || empty_str (TrimSpace b.(cb_Message)))
    (Err "name, email, and message are required");;
  let msg := mkContact ("contact-" +:+ r.(rq_random)) (truncate b.(cb_Name) 120) (truncate b.(cb_Email) 160)
               (truncate (defaultString b.(cb_Topic) "General") 80) (truncate b.(cb_Message) 4000) (UnixMilli r.(rq_now)) in
  on_reg (λ s, s <| Contacts := take 500 (msg :: s.(Contacts)) |>);;
  persist r.(rq_saved);;
  mret msg.(co_ID).

(* ------------------------------------------------------------------ *)
(** * Nodes *)

Record NodeRegisterBody : Type := mkNodeBody {
  nb_NodeID : string;
  nb_NodeIDCamel : string;
  nb_PublicID : string;
  nb_PublicKey : string;
  nb_PublicKeyAlt : string;
  nb_Role : string;
  nb_Kind : string;
  nb_Mode : string;
  nb_Network : string;
  nb_Endpoint : string;
  nb_URL : string;
  nb_Capabilities : list string;
  nb_Cloud : string;
  nb_Machine : string;
  nb_PayoutAddress : string
}.

Definition cloud_of (cloud nodeID : string) : string :=
  if negb (empty_str cloud) then cloud
  else if Contains nodeID "lovable" then "lovable"
  else if Contains nodeID "hosteons" then "hosteons"
  else if Contains nodeID "gitlab" then "gitlab"
  else if Contains nodeID "render" then "render"
  else "operator".

(** The entry of a node the registry does not know. *)
Definition new_node_entry (r : Request) (nodeID publicKey endpoint : string) (b : NodeRegisterBody) : peer :=
  let role := normalizeRole (defaultString (defaultString b.(nb_Role) b.(nb_Kind)) b.(nb_Mode)) in
  zero_peer
    <| pe_Name := nodeID |>
    <| pe_URL := endpoint |>
    <| pe_Kind := roleKind role |>
    <| pe_Network := normalizeChoice b.(nb_Network) "mainnet" ["testnet"; "mainnet"] |>
    <| pe_Status := "registered" |>
    <| pe_PublicKey := publicKey |>
    <| pe_Capabilities := normalizeCapabilities b.(nb_Capabilities) |>
    <| pe_Cloud := truncate (cloud_of b.(nb_Cloud) nodeID) 32 |>
    <| pe_Mode := if empty_str endpoint then "candidate" else "public_endpoint" |>
    <| pe_InboundPorts := if empty_str endpoint then 0 else 1 |>
    <| pe_RegisteredAt := UnixMilli r.(rq_now) |>
    <| pe_LastSeen := 0 |>
    <| pe_Role := role |>
    <| pe_ProofStatus := "registered" |>
    <| pe_HardwareCommitment := truncate b.(nb_Machine) 128 |>
    <| pe_HouseholdIP := extractHouseholdIP r |>
    <| pe_PayoutAddress := normalizePayoutAddress b.(nb_PayoutAddress) |>.

(** What a node that registers again keeps. *)
Definition keep_progress (existing entry : peer) (now : Z) : peer :=
  let entry := entry
    <| pe_RegisteredAt := existing.(pe_RegisteredAt) |>
    <| pe_FirstHeartbeatAt := existing.(pe_FirstHeartbeatAt) |>
    <| pe_LastHeartbeatAt := existing.(pe_LastHeartbeatAt) |>
    <| pe_LastSeen := existing.(pe_LastSeen) |>
    <| pe_ValidHeartbeats := existing.(pe_ValidHeartbeats) |>
    <| pe_VerifiedUptimeMS := existing.(pe_VerifiedUptimeMS) |>
    <| pe_LastNonce := existing.(pe_LastNonce) |>
    <| pe_HostedProofSession := existing.(pe_HostedProofSession) |>
    <| pe_Height := existing.(pe_Height) |>
    <| pe_Tip := existing.(pe_Tip) |>
    <| pe_StateRoot := existing.(pe_StateRoot) |>
    <| pe_ValidatorApproved := existing.(pe_ValidatorApproved) |>
    <| pe_ValidatorApprovedAt := existing.(pe_ValidatorApprovedAt) |>
    <| pe_ValidatorPublicURL := existing.(pe_ValidatorPublicURL) |>
    <| pe_PayoutAddress := defaultString existing.(pe_PayoutAddress) (normalizePayoutAddress entry.(pe_PayoutAddress)) |>
    <| pe_LastRewardPaidEpoch := existing.(pe_LastRewardPaidEpoch) |>
    <| pe_LastRewardPaidAt := existing.(pe_LastRewardPaidAt) |>
    <| pe_TotalRewardsPaidSYN := existing.(pe_TotalRewardsPaidSYN) |>
    <| pe_LastRewardTxHash := existing.(pe_LastRewardTxHash) |>
    <| pe_RewardUptimeAtPaidMS := existing.(pe_RewardUptimeAtPaidMS) |> in
  let entry := if negb (empty_str existing.(pe_HardwareCommitment)) && negb (peerIsStale existing now)
               then entry <| pe_HardwareCommitment := existing.(pe_HardwareCommitment) |> else entry in
  entry <| pe_ProofStatus := proofStatus entry now |>.

(** [handleAPINodeRegister] *)
Definition handleAPINodeRegister (r : Request) (body : res NodeRegisterBody) : SM server peer :=
  not_post r;;
  b ← lift body;
  let nodeID := sanitize (defaultString (defaultString b.(nb_NodeID) b.(nb_NodeIDCamel)) b.(nb_PublicID)) in
  let nodeID := if empty_str nodeID then "syn-node-" +:+ r.(rq_random) else nodeID in
  let publicKey := truncate (defaultString b.(nb_PublicKey) b.(nb_PublicKeyAlt)) 256 in
  fail_if (empty_str publicKey) (Err "public_key required; push-button nodes must generate a client-side Ed25519 key");;
  let endpoint := truncate (defaultString b.(nb_Endpoint) b.(nb_URL)) 256 in
  fail_if (negb (empty_str endpoint) && negb (is_http endpoint)) (Err "endpoint must start with http:// or https://");;
  let entry := new_node_entry r nodeID publicKey endpoint b in
  old ← the_peer nodeID;
  entry ← match old with
          | None => mret entry
          | Some existing =>
              if negb (empty_str existing.(pe_PublicKey)) && negb (bool_decide (existing.(pe_PublicKey) = publicKey)) then
                fail_if ((0 <? existing.(pe_ValidHeartbeats)) && negb (existing.(pe_LastSeen) =? 0)
                         && (since r.(rq_now) existing.(pe_LastSeen) <? staleAfter)) (Err "node is live with a different public key");;
                mret entry
              else mret (keep_progress existing entry r.(rq_now))
          end;
  put_peer nodeID entry;;
  persist r.(rq_saved);;
  mret entry.

(** ** Heartbeats *)

(** [isAllDigits] *)
Definition isAllDigits (s : string) : bool := negb (empty_str s) && sforall is_digit s.

(** [compareDecimalSegment] *)
Definition compareDecimalSegment (a b : string) : comparison :=
  if isAllDigits a && isAllDigits b && negb (slen a =? slen b) then if slen a <? slen b then Lt else Gt
  else String.compare a b.

(** [nonceLess] *)
Fixpoint segments_less (l m : list string) : bool :=
  match l, m with
  | x :: l, y :: m => match compareDecimalSegment x y with Lt => true | Gt => false | Eq => segments_less l m end
  | [], _ :: _ => true
  | _, [] => false
  end.
Definition nonceLess (a b : string) : bool := segments_less (Split a "-"%char) (Split b "-"%char).

(** [canonicalHeartbeatMessage] *)
Definition canonicalHeartbeatMessage (nodeID : string) (height : Z) (tip stateRoot timestamp nonce : string) : string :=
  let nl := String (chr 10) "" in
  "SYNTHOS_HEARTBEAT_V1" +:+ nl +:+ "node_id=" +:+ nodeID +:+ nl +:+ "height=" +:+ fmt_d height +:+ nl +:+ "tip=" +:+ tip +:+ nl
  +:+ "state_root=" +:+ stateRoot +:+ nl +:+ "timestamp=" +:+ TrimSpace timestamp +:+ nl +:+ "nonce=" +:+ TrimSpace nonce.

Record HeartbeatBody : Type := mkHeartbeat {
  hb_NodeID : string;
  hb_NodeIDCamel : string;
  hb_Height : Z;
  hb_Tip : string;
  hb_StateRoot : string;
  hb_StateRootAlt : string;
  hb_Timestamp : string;
  hb_Nonce : string;
  hb_Capabilities : list string;
  hb_Signature : string;
  hb_Endpoint : string;
  hb_URL : string;
  hb_HardwareCommitment : string;
  hb_PayoutAddress : string
}.

#[global] Instance eta_heartbeat : Eta HeartbeatBody := λ b,
  mkHeartbeat b.(hb_NodeID) b.(hb_NodeIDCamel) b.(hb_Height) b.(hb_Tip) b.(hb_StateRoot) b.(hb_StateRootAlt) b.(hb_Timestamp)
    b.(hb_Nonce) b.(hb_Capabilities) b.(hb_Signature) b.(hb_Endpoint) b.(hb_URL) b.(hb_HardwareCommitment) b.(hb_PayoutAddress).

Definition heartbeat_root (b : HeartbeatBody) : string := truncate (defaultString b.(hb_StateRoot) b.(hb_StateRootAlt)) 128.
Definition heartbeat_message (nodeID : string) (b : HeartbeatBody) : string :=
  canonicalHeartbeatMessage nodeID b.(hb_Height) (truncate b.(hb_Tip) 128) (heartbeat_root b) b.(hb_Timestamp) b.(hb_Nonce).

(** The uptime a heartbeat adds: the time since the last one, two minutes at
    most. *)
Definition uptime_delta (last now : Z) : Z :=
  if 0 <? last then
    let delta := i64 (now - last) in
    if 0 <? delta then Z.min delta (heartbeatFreshAfter / millisecond) else 0
  else 0.

(** What a heartbeat proves, and what it only says about the node. *)
Definition beat_proof (r : Request) (b : HeartbeatBody) (p : peer) : peer :=
  let nowMS := UnixMilli r.(rq_now) in
  let p := p
    <| pe_FirstHeartbeatAt := if p.(pe_FirstHeartbeatAt) =? 0 then nowMS else p.(pe_FirstHeartbeatAt) |>
    <| pe_VerifiedUptimeMS := i64 (p.(pe_VerifiedUptimeMS) + uptime_delta p.(pe_LastHeartbeatAt) nowMS) |>
    <| pe_LastHeartbeatAt := nowMS |>
    <| pe_LastSeen := nowMS |>
    <| pe_ValidHeartbeats := u64 (p.(pe_ValidHeartbeats) + 1) |>
    <| pe_LastNonce := truncate b.(hb_Nonce) 128 |>
    <| pe_HostedProofSession := false |>
    <| pe_Status := "proving" |> in
  p <| pe_ProofStatus := proofStatus p r.(rq_now) |>
    <| pe_Height := b.(hb_Height) |>
    <| pe_Tip := truncate b.(hb_Tip) 128 |>
    <| pe_StateRoot := heartbeat_root b |>.

Definition beat_hardware (b : HeartbeatBody) (p : peer) : peer :=
  let hw := truncate (TrimSpace b.(hb_HardwareCommitment)) 128 in
  if empty_str hw then p else p <| pe_HardwareCommitment := hw |>.
Definition beat_payout (b : HeartbeatBody) (p : peer) : peer :=
  let pay := normalizePayoutAddress b.(hb_PayoutAddress) in
  if empty_str pay then p else p <| pe_PayoutAddress := pay |>.
Definition beat_household (r : Request) (p : peer) : peer :=
  let hip := extractHouseholdIP r in
  if empty_str hip then p else p <| pe_HouseholdIP := hip |>.
Definition beat_endpoint (b : HeartbeatBody) (p : peer) : peer :=
  let endpoint := truncate (defaultString b.(hb_Endpoint) b.(hb_URL)) 256 in
  if empty_str endpoint then p
  else p <| pe_URL := endpoint |> <| pe_Mode := "public_endpoint" |> <| pe_InboundPorts := 1 |>.
Definition beat_cloud (nodeID : string) (p : peer) : peer :=
  if Contains nodeID "lovable" && bool_decide (p.(pe_Cloud) ∈ [""; "operator"; "cloudless"]) then p <| pe_Cloud := "lovable" |> else p.
Definition beat_caps (b : HeartbeatBody) (p : peer) : peer :=
  let p := match b.(hb_Capabilities) with [] => p | caps => p <| pe_Capabilities := normalizeCapabilities caps |> end in
  match p.(pe_Capabilities) with
  | [] => if negb p.(pe_HostedProofSession) && negb (empty_str p.(pe_LastNonce))
          then p <| pe_Capabilities := coreNodeCapabilities |> else p
  | _ => p
  end.

(** The entry after an accepted heartbeat. *)
Definition beat (r : Request) (nodeID : string) (b : HeartbeatBody) (p : peer) : peer :=
  beat_caps b (beat_cloud nodeID (beat_endpoint b (beat_household r (beat_payout b (beat_hardware b (beat_proof r b p)))))).

Section with_ed25519.
Context `{E : Ed25519}.

(** [verifyHeartbeatSignature] *)
Definition verifyHeartbeatSignature (publicKeyHex signatureHex message : string) : res unit :=
  match hexDecode (TrimPrefix (TrimSpace publicKeyHex) "0x") with
  | Some pub =>
      if negb (slen pub =? 32) then inr (Err "registered public key is not a valid Ed25519 public key")
      else
        match hexDecode (TrimPrefix (TrimSpace signatureHex) "0x") with
        | Some sg =>
            if negb (slen sg =? 64) then inr (Err "signature must be a 64-byte hex Ed25519 signature")
            else if ed_Verify pub message sg then inl tt else inr (Err "signature verification failed")
        | None => inr (Err "signature must be a 64-byte hex Ed25519 signature")
        end
  | None => inr (Err "registered public key is not a valid Ed25519 public key")
  end.

(** [handleAPINodeHeartbeat] *)
Definition handleAPINodeHeartbeat (r : Request) (body : res HeartbeatBody) : SM server peer :=
  not_post r;;
  b ← lift body;
  let nodeID := sanitize (defaultString b.(hb_NodeID) b.(hb_NodeIDCamel)) in
  fail_if (empty_str nodeID) (Err "node_id required");;
  fail_if (empty_str b.(hb_Nonce)) (Err "nonce required");;
  old ← the_peer nodeID;
  match old with
  | None => throw (Err "node is not registered")
  | Some entry =>
      fail_if (negb (empty_str entry.(pe_LastNonce)) && negb (nonceLess entry.(pe_LastNonce) b.(hb_Nonce)))
        (Err "replayed or non-increasing nonce");;
      lift (verifyHeartbeatSignature entry.(pe_PublicKey) b.(hb_Signature) (heartbeat_message nodeID b));;
      let entry := beat r nodeID b entry in
      put_peer nodeID entry;;
      persist r.(rq_saved);;
      mret entry
  end.

End with_ed25519.

(** The payout address of [handleAPINodeByID]: only an unset one may be set. *)
Definition set_payout_address (r : Request) (node : string) (body : res string) : SM server string :=
  let nodeID := sanitize node in
  b ← lift body;
  let addr := normalizePayoutAddress b in
  fail_if (empty_str addr) (Err "payout_address must be a Synthos Collective address: 0x followed by 40 hex characters");;
  old ← the_peer nodeID;
  match old with
  | None => throw (Err "node not found")
  | Some entry =>
      fail_if (negb (empty_str entry.(pe_PayoutAddress)) && negb (bool_decide (entry.(pe_PayoutAddress) = addr)))
        (Err "payout address already set; change it from the node itself (signed heartbeat)");;
      put_peer nodeID (entry <| pe_PayoutAddress := addr |>);;
      persist r.(rq_saved);;
      mret addr
  end.

Record ProvisionBody : Type := mkProvision {
  pb_Kind : string;
  pb_PublicKey : string;
  pb_PublicKeyAlt : string;
  pb_Network : string;
  pb_Label : string;
  pb_URL : string
}.

(** The entry [handleAPIProvisionNode] puts in place. *)
Definition provision_entry (r : Request) (nodeID kind network publicHex endpoint : string) : peer :=
  zero_peer
    <| pe_Name := nodeID |>
    <| pe_URL := if bool_decide (endpoint = "outbound-only") then "" else endpoint |>
    <| pe_Kind := kind |>
    <| pe_Network := network |>
    <| pe_Status := "provisioned" |>
    <| pe_PublicKey := publicHex |>
    <| pe_Cloud := "cloudless" |>
    <| pe_Mode := "outbound_only" |>
    <| pe_InboundPorts := 0 |>
    <| pe_RegisteredAt := UnixMilli r.(rq_now) |>
    <| pe_LastSeen := 0 |>
    <| pe_Role := if bool_decide (kind = "validator") then "validator_candidate" else "immune" |>
    <| pe_ProofStatus := "registered" |>.

(** [handleAPIProvisionNode] *)
Definition handleAPIProvisionNode (r : Request) (body : res ProvisionBody) : SM server peer :=
  not_post r;;
  b ← lift body;
  let kind := normalizeChoice b.(pb_Kind) "validator" ["validator"; "immune"] in
  let network := normalizeChoice b.(pb_Network) "testnet" ["testnet"; "mainnet"] in
  let label := sanitize b.(pb_Label) in
  let label := if empty_str label then kind +:+ "-" +:+ r.(rq_random) else label in
  let nodeID := "synthos-" +:+ kind +:+ "-" +:+ label in
  let publicHex := truncate (TrimPrefix (TrimSpace (defaultString b.(pb_PublicKey) b.(pb_PublicKeyAlt))) "0x") 256 in
  fail_if (empty_str publicHex) (Err "public_key required: generate an Ed25519 keypair locally and submit only the public key");;
  fail_if (match hexDecode publicHex with Some pub => negb (slen pub =? 32) | None => true end)
    (Err "invalid public_key: must be a hex-encoded 32-byte Ed25519 public key");;
  let endpoint := truncate b.(pb_URL) 256 in
  let endpoint := if empty_str endpoint then "outbound-only" else endpoint in
  let entry := provision_entry r nodeID kind network publicHex endpoint in
  put_peer nodeID entry;;
  persist r.(rq_saved);;
  mret entry.

(* ------------------------------------------------------------------ *)
(** * Validators *)

Definition approve (r : Request) (publicURL : string) (p : peer) : peer :=
  p <| pe_ValidatorApproved := true |> <| pe_ValidatorApprovedAt := UnixMilli r.(rq_now) |>
    <| pe_ValidatorPublicURL := TrimSpace publicURL |> <| pe_Role := "validator" |>.
Definition revoke (p : peer) : peer :=
  p <| pe_ValidatorApproved := false |> <| pe_ValidatorApprovedAt := 0 |> <| pe_ValidatorPublicURL := "" |>.

(** [handleAPIAdminValidatorByID]: [approve] or [revoke]. *)
Definition handleAPIAdminValidatorByID (cfg : config) (r : Request) (node action publicURL : string) : SM server peer :=
  need_secret cfg r;;
  fail_if (negb (bool_decide (action ∈ ["approve"; "revoke"]))) (Err "404 page not found");;
  not_post r;;
  let nodeID := sanitize node in
  old ← the_peer nodeID;
  match old with
  | None => throw (Err "node not found")
  | Some entry =>
      fail_if (bool_decide (action = "approve") && empty_str entry.(pe_PublicKey)) (Err "node has no registered public key yet");;
      let entry := if bool_decide (action = "approve") then approve r publicURL entry else revoke entry in
      put_peer nodeID entry;;
      persist r.(rq_saved);;
      mret entry
  end.

(** [sameAddress] *)
Definition sameAddress (left right : string) : bool := EqualFold (TrimSpace left) (TrimSpace right).

Record StakeBody : Type := mkStakeBody { sb_NodeID : string; sb_OperatorAddress : string; sb_BondAmountSYN : Z }.

(** The balance [handleAPIValidatorStake] credits an address with: what the
    chain shows and every early-access purchase for it that is verified. *)
Definition verified_balance (onchain : Z) (addr : string) (payments : gmap string earlyAccessPaymentIntent) : Z :=
  u64 (onchain + msum (λ i, if sameAddress i.(in_SynthosAddress) addr
                               && bool_decide (i.(in_Status) ∈ ["payment_verified"; "syn_allocated"]) then i.(in_SynAmount) else 0) payments).

(** The entry of a node whose operator shows a balance. *)
Definition staked (r : Request) (addr : string) (balance bond : Z) (p : peer) : peer :=
  let p := p <| pe_OperatorAddress := addr |> in
  if validatorMinimumBondSYN <=? balance then
    p <| pe_BondedSYN := if (validatorMinimumBondSYN <=? bond) && (bond <=? balance) then bond else balance |>
      <| pe_Role := "validator" |>
      <| pe_ValidatorApproved := true |>
      <| pe_ValidatorApprovedAt := if p.(pe_ValidatorApprovedAt) =? 0 then UnixMilli r.(rq_now) else p.(pe_ValidatorApprovedAt) |>
  else p <| pe_BondedSYN := balance |>.

(** [handleAPIValidatorStake]; [balance] is what the chain's RPC answers for
    an address, zero when it does not. *)
Definition handleAPIValidatorStake (r : Request) (balance : string → Z) (body : res StakeBody) : SM server peer :=
  not_post r;;
  b ← lift body;
  let nodeID := sanitize b.(sb_NodeID) in
  let addr := TrimSpace b.(sb_OperatorAddress) in
  fail_if (empty_str nodeID || empty_str addr) (Err "node_id and operator_address are required");;
  s ← get;
  let verifiedBalance := verified_balance (balance addr) addr s.(reg).(EarlyAccessPayments) in
  old ← the_peer nodeID;
  match old with
  | None => throw (Err "node_id not registered yet")
  | Some entry =>
      let entry := staked r addr verifiedBalance b.(sb_BondAmountSYN) entry in
      put_peer nodeID entry;;
      persist r.(rq_saved);;
      mret entry
  end.

(** The roster of [handleAPIValidatorsRoster]: ID, public key and URL of the
    approved validators, by ID. *)
Definition peer_list (s : registryState) : list peer := (map_to_list s.(Peers)).*2.
Definition by_name (p q : peer) : bool := str_lt p.(pe_Name) q.(pe_Name).

Definition handleAPIValidatorsRoster (s : registryState) : list (string * string * string) :=
  map (λ p, (p.(pe_Name), p.(pe_PublicKey), p.(pe_ValidatorPublicURL)))
    (sort_slice by_name (filter (λ p, p.(pe_ValidatorApproved) = true ∧ p.(pe_PublicKey) ≠ "") (peer_list s))).

(* ------------------------------------------------------------------ *)
(** * One machine, one household, one reward (hardware.go) *)

(** [hardwarePrimaryRanksAbove] *)
Definition hardwarePrimaryRanksAbove (a b : peer) : bool :=
  let af := a.(pe_FirstHeartbeatAt) in
  let bf := b.(pe_FirstHeartbeatAt) in
  if negb (Bool.eqb (af =? 0) (bf =? 0)) then negb (af =? 0)
  else if negb (af =? bf) then af <? bf
  else if negb (a.(pe_RegisteredAt) =? b.(pe_RegisteredAt)) then a.(pe_RegisteredAt) <? b.(pe_RegisteredAt)
  else str_lt a.(pe_Name) b.(pe_Name).

(** The first loop of [markSharedHardware] for one of the two keys (the
    machine, the household): the index of the primary peer of each key, next
    to the peer that stands there. *)
Fixpoint primaries (key : peer → option string) (now : Z) (i : nat) (peers : list peer) (m : gmap string (nat * peer))
  : gmap string (nat * peer) :=
  match peers with
  | [] => m
  | p :: peers =>
      let m := if peerIsStale p now then m
               else match key p with
                    | None => m
                    | Some c => match m !! c with
                                | Some (_, q) => if hardwarePrimaryRanksAbove p q then <[c := (i, p)]> m else m
                                | None => <[c := (i, p)]> m
                                end
                    end in
      primaries key now (S i) peers m
  end.

Definition machine_key (p : peer) : option string := if empty_str p.(pe_HardwareCommitment) then None else Some p.(pe_HardwareCommitment).
Definition household_key (p : peer) : option string := if isHouseholdIP p.(pe_HouseholdIP) then Some p.(pe_HouseholdIP) else None.

(** The second loop: the primary a peer is in the shadow of. *)
Definition shadowed_by (key : peer → option string) (now : Z) (m : gmap string (nat * peer)) (i : nat) (p : peer) : string :=
  if peerIsStale p now then ""
  else match key p with
       | None => ""
       | Some c => match m !! c with Some (j, q) => if (j =? i)%nat then "" else q.(pe_Name) | None => "" end
       end.

(** [markSharedHardware] *)
Definition markSharedHardware (now : Z) (peers : list peer) : list peer :=
  let hw := primaries machine_key now 0 peers ∅ in
  let ip := primaries household_key now 0 peers ∅ in
  imap (λ i p, p <| pe_SharedHardwareWith := shadowed_by machine_key now hw i p |>
                 <| pe_SharedHouseholdWith := shadowed_by household_key now ip i p |>) peers.

#[global] Arguments truncate : simpl never.
#[global] Arguments sanitize : simpl never.
#[global] Arguments normalizePayoutAddress : simpl never.
#[global] Arguments beat : simpl never.
#[global] Arguments keep_progress : simpl never.
