(* ===== verification/RegistryPay.v ===== *)
(** The early-access sale of the registry (cmd/cloudless-registry/main.go): a
    buyer opens a payment intent, pays on an EVM chain, and has the payment
    verified; the registry then submits a SYN transfer to the buyer.

    [verifyPaymentIntent] does not hold the server's lock throughout: it reads
    the intent and reserves the payment's hash ([begin_verify]), looks the
    payment up and has the coins allocated, and writes the intent back
    ([settle]). The two steps are kept apart, so that requests can be
    interleaved. What the EVM's RPC answers, the answers of the SYN chain's
    RPC and the process environment are arguments. *)
From stdpp Require Import base strings list gmap.
From Stdlib Require Import Ascii.
From S2P Require Import Prelude GoStd Sha256 Types TxModel Apply GoText Registry.

#[local] Open Scope string_scope.
#[local] Open Scope Z_scope.

(* ------------------------------------------------------------------ *)
(** * Assets *)

Record earlyAccessAsset : Type := mkAsset {
  as_Symbol : string;
  as_Network : string;
  as_ChainID : string;
  as_RPCURL : string;
  as_Address : string;
  as_TreasuryAddress : string;
  as_Native : bool;
  as_Decimals : Z;
  as_USDPrice : string;
  as_Enabled : bool
}.

#[global] Instance eta_asset : Eta earlyAccessAsset := λ a,
  mkAsset a.(as_Symbol) a.(as_Network) a.(as_ChainID) a.(as_RPCURL) a.(as_Address) a.(as_TreasuryAddress) a.(as_Native)
    a.(as_Decimals) a.(as_USDPrice) a.(as_Enabled).

(** [env]; [getenv] is the process environment, empty when unset. *)
Definition env (getenv : string → string) (name fallback : string) : string := defaultString (getenv name) fallback.

Definition dquote : string := String (chr 34) "".

(** [earlyAccessAssetsFromEnv]; [decode] reads the JSON list. *)
Definition earlyAccessAssetsFromEnv (getenv : string → string) (decode : string → option (list earlyAccessAsset)) : list earlyAccessAsset :=
  let treasury := env getenv "SYNTHOS_EARLY_ACCESS_PAYMENT_TREASURY"
    (env getenv "SYNTHOS_EARLY_ACCESS_TREASURY_WALLET" "0x5d6f8FbAAB199E788ed9Cfcb3F7Fe2ac9c0450d2") in
  let raw := getenv "SYNTHOS_EARLY_ACCESS_ASSETS_JSON" in
  let slots :=
    [ mkAsset "USDC" "Ethereum Mainnet" "1" (env getenv "SYNTHOS_ETH_RPC_URL" "https://ethereum-rpc.publicnode.com")
        "0xA0b86991c6218b36c1d19D4a2e9Eb0cE3606eB48" treasury false 6 "1.00" true;
      mkAsset "USDC-BASE" "Base Mainnet" "8453" (env getenv "SYNTHOS_BASE_RPC_URL" "https://mainnet.base.org")
        "0x833589fCD6eDb6E08f4c7C32D4f71b54bdA02913" treasury false 6 "1.00" true;
      mkAsset "USDT" "Ethereum Mainnet" "1" (env getenv "SYNTHOS_ETH_RPC_URL" "https://ethereum-rpc.publicnode.com")
        "0xdAC17F958D2ee523a2206206994597C13D831ec7" treasury false 6 "1.00" true;
      mkAsset "ETH" "Ethereum Mainnet" "1" (env getenv "SYNTHOS_ETH_RPC_URL" "https://ethereum-rpc.publicnode.com")
        "" treasury true 18 (env getenv "SYNTHOS_ETH_USD_PRICE" "2500.00") true ] in
  if empty_str raw then slots
  else
    match decode raw with
    | Some ((_ :: _) as assets) =>
        map (λ a,
          let a := if negb a.(as_Enabled) && negb (Contains raw (dquote +:+ "enabled" +:+ dquote)) then a <| as_Enabled := true |> else a in
          if empty_str a.(as_TreasuryAddress) then a <| as_TreasuryAddress := treasury |> else a) assets
    | _ => slots
    end.

(** [earlyAccessAssetBySymbol] *)
Definition earlyAccessAssetBySymbol (assets : list earlyAccessAsset) (symbol : string) : option earlyAccessAsset :=
  let symbol := ToUpper (TrimSpace symbol) in
  head (filter (λ a, ToUpper a.(as_Symbol) = symbol) assets).

(* ------------------------------------------------------------------ *)
(** * Amounts *)

Fixpoint pad_cents (s : string) (n : nat) : string :=
  match n, s with
  | O, _ => ""
  | S n, EmptyString => String "0"%char (pad_cents "" n)
  | S n, String c s => String c (pad_cents s n)
  end.

(** [parseUSDCents] *)
Definition parseUSDCents (value : string) : res Z :=
  let value := TrimSpace (TrimPrefix value "$") in
  if empty_str value then inr (Err "usdValue required")
  else
    match Split value "."%char with
    | _ :: _ :: _ :: _ | [] => inr (Err "invalid usdValue")
    | whole :: frac =>
        match SetString (defaultString whole "0") 10 with
        | None => inr (Err "invalid usdValue")
        | Some dollars =>
            if dollars <? 0 then inr (Err "invalid usdValue")
            else
              let cents := match frac with
                           | [] => Some (dollars * 100)
                           | f :: _ => match SetString (pad_cents f 2) 10 with Some f => Some (dollars * 100 + f) | None => None end
                           end in
              match cents with
              | None => inr (Err "invalid usdValue")
              | Some cents =>
                  if negb (bool_decide (in_u64 cents)) || (cents =? 0) then inr (Err "usdValue must be greater than zero") else inl cents
              end
        end
    end.

(** [quotePaymentAmount] *)
Definition quotePaymentAmount (usdCents : Z) (asset : earlyAccessAsset) : res string :=
  match parseUSDCents (defaultString asset.(as_USDPrice) "1.00") with
  | inr _ => inr (Err "asset USD price missing")
  | inl priceCents =>
      if priceCents =? 0 then inr (Err "asset USD price missing")
      else inl (big_String (usdCents * big_Exp 10 asset.(as_Decimals) / priceCents))
  end.

(** [isHexHash] *)
Definition isHexHash (value : string) : bool :=
  let value := TrimPrefix value "0x" in
  (slen value =? 64) && match hexDecode value with Some _ => true | None => false end.

(* ------------------------------------------------------------------ *)
(** * What an EVM node answers *)

(** A decoded JSON value, next to the text [fmt.Sprint] prints for it (a
    string prints as itself). *)
Inductive any : Type :=
  | Nil
  | Text (s : string)
  | Scalar (printed : string)
  | Object (printed : string) (fields : list (string * any))
  | Array (printed : string) (elems : list any).

(** [stringValue] *)
Definition stringValue (v : any) : string :=
  match v with Nil => "" | Text s => s | Scalar p | Object p _ | Array p _ => p end.

(** [hexBool] *)
Definition hexBool (v : any) : bool := bool_decide (stringValue v ∈ ["0x1"; "1"]).

(** A member of an object; of repeated ones the last counts. *)
Definition field (fields : list (string * any)) (k : string) : any :=
  match last (filter (λ kv, kv.1 = k) fields) with Some kv => kv.2 | None => Nil end.

(** [parseHexBig] *)
Definition parseHexBig (value : string) : res Z :=
  let value := TrimPrefix value "0x" in
  if empty_str value then inl 0
  else match SetString value 16 with Some n => inl n | None => inr (Err "invalid hex value") end.

(** [topicAddressMatches] *)
Definition topicAddressMatches (topic address : string) : bool :=
  let topic := TrimPrefix (ToLower topic) "0x" in
  let address := TrimPrefix (ToLower address) "0x" in
  (slen topic =? 64) && (slen address =? 40) && HasSuffix topic address.

Definition transfer_topic : string := "0xddf252ad1be2c89b69c2b068fc378daa952ba7f163c4a11628f55a4df523b3ef".

(** Whether a log is a transfer of the token that pays enough to the
    treasury. *)
Definition paying_log (asset payee : string) (expected : Z) (log : any) : bool :=
  match log with
  | Object _ l =>
      sameAddress (stringValue (field l "address")) asset
      && match field l "topics" with
         | Array _ (t0 :: _ :: t2 :: _) =>
             EqualFold (stringValue t0) transfer_topic && topicAddressMatches (stringValue t2) payee
             && match parseHexBig (stringValue (field l "data")) with inl amount => expected <=? amount | inr _ => false end
         | _ => false
         end
  | _ => false
  end.

(** [verifyEVMPayment]; [rpc] is [evmRPC]: URL, method, hash. *)
Definition verifyEVMPayment (rpc : string → string → string → res any) (txHash : string) (intent : earlyAccessPaymentIntent)
    (asset : earlyAccessAsset) : res unit :=
  if empty_str asset.(as_RPCURL) then inr (Err "asset RPC URL is not configured")
  else
    match rpc asset.(as_RPCURL) "eth_getTransactionReceipt" txHash with
    | inr e => inr e
    | inl Nil => inr (Err "transaction receipt not found yet")
    | inl (Object _ receipt) =>
        if negb (hexBool (field receipt "status")) then inr (Err "transaction failed on-chain")
        else
          match SetString intent.(in_PaymentAmount) 10 with
          | None => inr (Err "invalid expected payment amount")
          | Some expected =>
              if asset.(as_Native) then
                match rpc asset.(as_RPCURL) "eth_getTransactionByHash" txHash with
                | inr e => inr e
                | inl (Object _ tx) =>
                    if negb (sameAddress (stringValue (field tx "to")) intent.(in_PaymentAddress)) then inr (Err "native payment recipient mismatch")
                    else match parseHexBig (stringValue (field tx "value")) with
                         | inr e => inr e
                         | inl value => if value <? expected then inr (Err "native payment amount too small") else inl tt
                         end
                | inl _ => inr (Err "transaction not found")
                end
              else if empty_str asset.(as_Address) then inr (Err "token payment asset address missing")
              else
                match field receipt "logs" with
                | Array _ logs =>
                    if existsb (paying_log asset.(as_Address) intent.(in_PaymentAddress) expected) logs then inl tt
                    else inr (Err "matching token transfer to treasury not found")
                | _ => inr (Err "receipt logs missing")
                end
          end
    | inl _ => inr (Err "invalid transaction receipt")
    end.

(* ------------------------------------------------------------------ *)
(** * Allocating SYN *)

(** What [allocateNativeSYN] meets: the environment, the answer of
    [synthosNonce] for an address, and of the chain's [/submitTx] (whether it
    was accepted, and the ID it gives). *)
Record NativeRPC : Type := mkNative {
  nr_getenv : string → string;
  nr_nonce : string → res Z;
  nr_submit : Tx → res (bool * string)
}.

(** [distributionAgentPrivateKey] *)
Definition distributionAgentPrivateKey (getenv : string → string) : string :=
  defaultString (getenv "SYNTHOS_DISTRIBUTION_AGENT_PRIVATE_KEY") (getenv "SYNTHOS_EARLY_ACCESS_ALLOCATION_PRIVATE_KEY").

(** [synthosTxChainID] *)
Fixpoint first_chain_id (raws : list string) : res Z :=
  match raws with
  | [] => inl 20260702
  | raw :: raws =>
      let raw := TrimSpace raw in
      if empty_str raw then first_chain_id raws
      else match ParseUint raw with
           | (id, None) => if id =? 0 then inr (Err "invalid SYNTHOS transaction chain ID") else inl id
           | (_, Some _) => inr (Err "invalid SYNTHOS transaction chain ID")
           end
  end.
Definition synthosTxChainID (getenv : string → string) : res Z :=
  first_chain_id [getenv "SYNTHOS_EARLY_ACCESS_TX_CHAIN_ID"; getenv "SYNTHOS_EARLY_ACCESS_CHAIN_ID"].

Section with_ed25519.
Context `{E : Ed25519}.

(** [wallet.FromPrivateKeyHex]: the private key. *)
Definition FromPrivateKeyHex (privHex : string) : res string :=
  match hexDecode (TrimPrefix privHex "0x") with
  | None => inr (Err "encoding/hex: invalid byte")
  | Some b => if slen b =? 64 then inl b else inr (Err "invalid ed25519 private key length")
  end.

(** The transfer [allocateNativeSYN] signs. *)
Definition allocation_tx (getenv : string → string) (priv : string) (chainID nonce : Z) (intent : earlyAccessPaymentIntent) : Tx :=
  let pub := ed_Public priv in
  let tx fee := mkTx "" chainID (AddressFromPublicKey pub) intent.(in_SynthosAddress) intent.(in_SynAmount) fee nonce (hex0x pub) "" ""
    [mkKV "distribution_agent" (env getenv "SYNTHOS_DISTRIBUTION_AGENT_ID" "synthos-early-adopter-distributor");
     mkKV "payment_intent" intent.(in_ID); mkKV "payment_tx" intent.(in_TxHash); mkKV "asset" intent.(in_AssetSymbol)] 0 in
  tx (RequiredFee (tx 0)).

(** [allocateNativeSYN] *)
Definition allocateNativeSYN (w : NativeRPC) (intent : earlyAccessPaymentIntent) : res string :=
  let privHex := distributionAgentPrivateKey w.(nr_getenv) in
  if empty_str privHex then inr (Err "SYN distribution agent key is not configured")
  else
    match FromPrivateKeyHex privHex, synthosTxChainID w.(nr_getenv) with
    | inr e, _ | inl _, inr e => inr e
    | inl priv, inl chainID =>
        match w.(nr_nonce) (AddressFromPublicKey (ed_Public priv)) with
        | inr e => inr e
        | inl nonce =>
            match Sign priv (allocation_tx w.(nr_getenv) priv chainID nonce intent) with
            | (_, inr e) => inr e
            | (tx, inl _) =>
                match w.(nr_submit) tx with
                | inr e => inr e
                | inl (false, _) => inr (Err "SYN allocation was not accepted")
                | inl (true, id) => inl id
                end
            end
        end
    end.

(* ------------------------------------------------------------------ *)
(** * Payment intents *)

Record IntentBody : Type := mkIntentBody {
  ib_BuyerWallet : string;
  ib_SynthosAddress : string;
  ib_AssetSymbol : string;
  ib_USDValue : string
}.

(** [handleAPIEarlyAccessPaymentIntents] *)
Definition handleAPIEarlyAccessPaymentIntents (r : Request) (getenv : string → string) (assets : list earlyAccessAsset)
    (body : res IntentBody) : SM server earlyAccessPaymentIntent :=
  not_post r;;
  fail_if (bool_decide (ToLower (TrimSpace (env getenv "SYNTHOS_EARLY_ACCESS_SALE_OPEN" "true")) = "false"))
    (Err "the SYNTHOS early access sale is not open");;
  b ← lift body;
  let address := TrimSpace b.(ib_SynthosAddress) in
  let symbol := ToUpper (TrimSpace b.(ib_AssetSymbol)) in
  fail_if (empty_str address || empty_str symbol || empty_str (TrimSpace b.(ib_USDValue)))
    (Err "synthosAddress, assetSymbol, and usdValue are required");;
  usdCents ← lift (parseUSDCents b.(ib_USDValue));
  let synAmount := usdCents / 10 in
  fail_if (synAmount <? 20) (Err "minimum early access purchase is 20 SYN");;
  match earlyAccessAssetBySymbol assets symbol with
  | None => throw (Err "payment asset is not enabled")
  | Some asset =>
      fail_if (negb asset.(as_Enabled)) (Err "payment asset is not enabled");;
      fail_if (empty_str asset.(as_TreasuryAddress)) (Err "payment treasury address is not configured");;
      paymentAmount ← lift (quotePaymentAmount usdCents asset);
      let now := UnixMilli r.(rq_now) in
      let intent := mkIntent ("syn-presale-" +:+ r.(rq_random)) "pending_payment" (truncate b.(ib_BuyerWallet) 128) address
        asset.(as_Symbol) asset.(as_Network) asset.(as_TreasuryAddress) asset.(as_Address) paymentAmount asset.(as_Decimals)
        usdCents synAmount "" "" now now (UnixMilli (r.(rq_now) + 30 * minute)) "" in
      on_reg (λ s, s <| EarlyAccessPayments := <[intent.(in_ID) := intent]> s.(EarlyAccessPayments) |>);;
      persist r.(rq_saved);;
      mret intent
  end.

(** [reservePaymentTxHash] *)
Definition reservePaymentTxHash (saved : bool) (txHash intentID : string) : SM server unit :=
  s ← get;
  fail_if (match s.(reg).(ConsumedPaymentTxHashes) !! txHash with Some owner => negb (bool_decide (owner = intentID)) | None => false end)
    (Err "this payment transaction has already been used to verify a different payment intent");;
  on_reg (λ s, s <| ConsumedPaymentTxHashes := <[txHash := intentID]> s.(ConsumedPaymentTxHashes) |>);;
  persist saved.

(** [releasePaymentTxHash] *)
Definition releasePaymentTxHash (saved : bool) (txHash intentID : string) : SM server unit :=
  s ← get;
  if bool_decide (default "" (s.(reg).(ConsumedPaymentTxHashes) !! txHash) = intentID) then
    on_reg (λ s, s <| ConsumedPaymentTxHashes := delete txHash s.(ConsumedPaymentTxHashes) |>);;
    persist saved
  else mret tt.

(** [savePaymentIntent] *)
Definition savePaymentIntent (saved : bool) (intent : earlyAccessPaymentIntent) : SM server unit :=
  on_reg (λ s, s <| EarlyAccessPayments := <[intent.(in_ID) := intent]> s.(EarlyAccessPayments) |>);;
  persist saved.

(** The first step of [verifyPaymentIntent]: the answer for an intent that is
    already allocated, or the intent as it was read and the reserved hash. *)
Definition begin_verify (r : Request) (id : string) (body : res string)
  : SM server (earlyAccessPaymentIntent + earlyAccessPaymentIntent * string) :=
  b ← lift body;
  let txHash := ToLower (TrimSpace b) in
  fail_if (negb (isHexHash txHash)) (Err "valid txHash is required");;
  s ← get;
  match s.(reg).(EarlyAccessPayments) !! id with
  | None => throw (Err "payment intent not found")
  | Some intent =>
      if bool_decide (intent.(in_Status) = "syn_allocated") then mret (inl intent)
      else reservePaymentTxHash r.(rq_saved) txHash id;; mret (inr (intent, txHash))
  end.

(** What the rest of the request did. *)
Inductive settlement : Type :=
  | VerificationFailed (intent : earlyAccessPaymentIntent)
  | Verified (intent : earlyAccessPaymentIntent) (allocation : res string).

(** The rest of it: [intent] and [txHash] are those of the first step. *)
Definition settle (r : Request) (assets : list earlyAccessAsset) (rpc : string → string → string → res any) (w : NativeRPC)
    (id : string) (intent : earlyAccessPaymentIntent) (txHash : string) : SM server settlement :=
  let now := UnixMilli r.(rq_now) in
  match earlyAccessAssetBySymbol assets intent.(in_AssetSymbol) with
  | None => releasePaymentTxHash r.(rq_saved) txHash id;; throw (Err "payment asset config missing")
  | Some asset =>
      match verifyEVMPayment rpc txHash intent asset with
      | inr e =>
          releasePaymentTxHash r.(rq_saved) txHash id;;
          let intent := intent <| in_Status := "verification_failed" |> <| in_TxHash := txHash |>
            <| in_VerificationError := match e with Err m | Panic m => m end |> <| in_UpdatedAt := now |> in
          savePaymentIntent r.(rq_saved) intent;;
          mret (VerificationFailed intent)
      | inl _ =>
          let intent := intent <| in_Status := "payment_verified" |> <| in_TxHash := txHash |> <| in_VerificationError := "" |>
            <| in_UpdatedAt := now |> in
          let allocation := allocateNativeSYN w intent in
          let intent := match allocation with
                        | inl txID => if empty_str txID then intent else intent <| in_Status := "syn_allocated" |> <| in_SynthosTxID := txID |>
                        | inr e => intent <| in_Status := "allocation_pending" |> <| in_VerificationError := match e with Err m | Panic m => m end |>
                        end in
          let intent := intent <| in_UpdatedAt := now |> in
          savePaymentIntent r.(rq_saved) intent;;
          mret (Verified intent allocation)
      end
  end.

(** [verifyPaymentIntent] *)
Definition verifyPaymentIntent (r : Request) (assets : list earlyAccessAsset) (rpc : string → string → string → res any) (w : NativeRPC)
    (id : string) (body : res string) : SM server (earlyAccessPaymentIntent + settlement) :=
  x ← begin_verify r id body;
  match x with
  | inl intent => mret (inl intent)
  | inr (intent, txHash) => out ← settle r assets rpc w id intent txHash; mret (inr out)
  end.

End with_ed25519.
