(* ===== verification/RewardKeeper.v ===== *)
(** The reward keeper (cmd/cloudless-registry/reward_keeper.go): monthly
    rewards for approved node operators, paid from a wallet of its own.

    A cycle reads the wallet's nonce, confirms earlier transfers against it,
    picks the nodes to be paid within the month's cap, and submits the
    transfers with consecutive nonces. The keeper is one goroutine and the
    only one to write the payouts; a cycle is atomic here. The chain is what
    the source's interface [rewardChain] promises: a nonce for an address, an
    answer to a submitted transfer. *)
From stdpp Require Import base strings list gmap sorting.
From Stdlib Require Import Ascii.
From S2P Require Import Prelude GoStd Sha256 Types TxModel Apply Block GoText Registry.
From S2P Require Import RegistryPay.

#[local] Open Scope string_scope.
#[local] Open Scope Z_scope.

Definition validatorMonthlyBaseRewardSYN : Z := 5000.
Definition rewardRepeatUptime : Z := 27 * 24 * hour.
Definition rewardStuckAfter : Z := hour.
Definition rewardTxFeeSYN : Z := 10.
Definition rewardActivationSYN : Z := validatorMinimumBondSYN.
Definition defaultMonthlyCapSYN : Z := 250000.
Definition payoutStatusSubmitted : string := "submitted".
Definition payoutStatusConfirmed : string := "confirmed".
Definition payoutStatusStuck : string := "stuck".
Definition rewardProgramStartCutoffMS : Z := 1793407000000.

(** [now.UTC().Format("2006-01")] *)
Definition epoch_of (now : Z) : string :=
  let '(y, m, _) := civil (719162 + now / second / 86400) in pad 4 y +:+ "-" +:+ pad 2 m.

Example epoch_2026 : epoch_of (1793407000000 * millisecond) = "2026-10".
Proof. vm_compute. reflexivity. Qed.

(* ------------------------------------------------------------------ *)
(** * Settings *)

Record rewardKeeperConfig : Type := mkKeeper {
  rk_Enabled : bool;
  rk_Reason : string;
  rk_Private : string;
  rk_Address : string;
  rk_MonthlyCap : Z;
  rk_Approved : gmap string string;
  rk_ChainID : Z
}.

(** [loadApprovedOperators], from the decoded file: the cap and the entries
    (node ID, payout address). *)
Fixpoint approved_map (entries : list (string * string)) (out : gmap string string) : res (gmap string string) :=
  match entries with
  | [] => inl out
  | (id, payout) :: entries =>
      let addr := normalizePayoutAddress payout in
      if empty_str id || empty_str addr then inr (Err "entry needs a node_id and a 0x payout_address")
      else approved_map entries (<[sanitize id := addr]> out)
  end.
Definition loadApprovedOperators (file : res (Z * list (string * string))) : res (gmap string string * Z) :=
  match file with
  | inr e => inr e
  | inl (cap, entries) => match approved_map entries ∅ with inl m => inl (m, cap) | inr e => inr e end
  end.

Definition not_paying (reason : string) : rewardKeeperConfig := mkKeeper false reason "" "" 0 ∅ 0.

Section with_ed25519.
Context `{E : Ed25519}.

(** [loadRewardKeeperConfig]: the environment, the key file and the approval
    file. *)
Definition loadRewardKeeperConfig (getenv : string → string) (keyfile : option string)
    (approval : res (Z * list (string * string))) : rewardKeeperConfig :=
  let key := TrimSpace (getenv "SYNTHOS_REWARD_KEEPER_PRIVATE_KEY") in
  let key := if empty_str key then match keyfile with Some raw => TrimSpace raw | None => "" end else key in
  if empty_str key then not_paying "no rewards wallet key (SYNTHOS_REWARD_KEEPER_PRIVATE_KEY or the key file)"
  else
    match FromPrivateKeyHex key with
    | inr _ => not_paying "rewards wallet key is invalid"
    | inl priv =>
        let addr := ToLower (AddressFromPublicKey (ed_Public priv)) in
        match loadApprovedOperators approval with
        | inr e => mkKeeper false ("approval file: " +:+ match e with Err m | Panic m => m end) priv addr 0 ∅ 0
        | inl (approved, fileCap) =>
            let cap := match ParseUint (TrimSpace (getenv "SYNTHOS_REWARD_MONTHLY_CAP_SYN")) with
                       | (c, None) => if c =? 0 then fileCap else c
                       | (_, Some _) => fileCap
                       end in
            let cap := if cap =? 0 then defaultMonthlyCapSYN else cap in
            match synthosTxChainID getenv with
            | inr e => mkKeeper false (match e with Err m | Panic m => m end) priv addr cap approved 0
            | inl id => mkKeeper true "" priv addr cap approved id
            end
        end
    end.

(* ------------------------------------------------------------------ *)
(** * Who is paid, and how much *)

(** [monthlyRewardAmount]: halved every two years from 2028. The number of
    halvings, [int(yearsSince/2.0)+1], is computed in float64 and is an
    argument. *)
Fixpoint halve (n : nat) (base : Z) : Z :=
  match n with
  | O => base
  | S n => let base := base / 2 in if base =? 0 then 1 else halve n base
  end.
Definition monthlyRewardAmount (halvings : Z → Z) (now : Z) : Z :=
  let halvingStart := 1830297600 * second in
  if now <? halvingStart then validatorMonthlyBaseRewardSYN
  else halve (Z.to_nat (halvings now)) validatorMonthlyBaseRewardSYN.

(** [rewardAmountFor] *)
Definition rewardAmountFor (halvings : Z → Z) (p : peer) (now : Z) : Z :=
  if (p.(pe_TotalRewardsPaidSYN) =? 0) && (p.(pe_RewardUptimeAtPaidMS) =? 0) then rewardActivationSYN
  else monthlyRewardAmount halvings now.

(** [isFounderFleetNode] *)
Definition isFounderFleetNode (p : peer) : bool :=
  let name := ToLower p.(pe_Name) in
  existsb (HasPrefix name)
    ["syn-fleet-"; "synthos-hosteons-"; "synthos-render-"; "synthos-lovable-"; "synthos-ryzen-"; "syn-gitlab-"; "synthos-home-"; "desktop-17d2b0d4d401"]
  || bool_decide (p.(pe_Cloud) ∈ ["fleet"; "render"; "lovable"]).

(** [rewardIneligibleReason] *)
Definition rewardIneligibleReason (p : peer) (now : Z) (epoch : string) (paidThisEpoch : bool) : string :=
  if isFounderFleetNode p then "founder/fleet infrastructure node (ineligible for candidate reward)"
  else if (0 <? p.(pe_RegisteredAt)) && (p.(pe_RegisteredAt) <? rewardProgramStartCutoffMS)
  then "registered before candidate reward program launch cutoff"
  else if paidThisEpoch || bool_decide (p.(pe_LastRewardPaidEpoch) = epoch) then "already paid this month"
  else if p.(pe_HostedProofSession) || negb (isRealSignedHeartbeat p) then "no real signed heartbeats"
  else if peerIsStale p now then "offline"
  else if negb (empty_str p.(pe_SharedHardwareWith)) || negb (empty_str p.(pe_SharedHouseholdWith))
  then "shares a machine or household with another node"
  else if p.(pe_VerifiedUptimeMS) <? rewardEpoch / millisecond then "under 30 days of verified uptime"
  else if (0 <? p.(pe_RewardUptimeAtPaidMS)) && (i64 (p.(pe_VerifiedUptimeMS) - p.(pe_RewardUptimeAtPaidMS)) <? rewardRepeatUptime / millisecond)
  then "under 27 days of new uptime since the last reward"
  else "".

Record rewardCandidate : Type := mkCandidate { rc_NodeID : string; rc_Address : string; rc_Amount : Z; rc_UptimeMS : Z }.

(** What has been paid or submitted in an epoch, and to whom. *)
Definition in_epoch (epoch : string) (payouts : list rewardPayout) : list rewardPayout := filter (λ po, po.(rp_Epoch) = epoch) payouts.
Definition spent_in (epoch : string) (payouts : list rewardPayout) : Z := foldl (λ spent po, u64 (spent + po.(rp_AmountSYN))) 0 (in_epoch epoch payouts).
Definition paid_nodes (epoch : string) (payouts : list rewardPayout) : list string := map rp_NodeID (in_epoch epoch payouts).

(** Whether a node is to be paid, and where. *)
Definition qualifies (cfg : rewardKeeperConfig) (now : Z) (epoch : string) (paid : list string) (p : peer) : option string :=
  if negb (empty_str (rewardIneligibleReason p now epoch (bool_decide (p.(pe_Name) ∈ paid)))) then None
  else match cfg.(rk_Approved) !! p.(pe_Name) with
       | None => None
       | Some addr =>
           if negb (empty_str p.(pe_PayoutAddress)) && negb (bool_decide (normalizePayoutAddress p.(pe_PayoutAddress) = addr)) then None
           else Some addr
       end.

(** The loop of [rewardCandidates]: it ends where the cap is reached. *)
Fixpoint pick (halvings : Z → Z) (cfg : rewardKeeperConfig) (now : Z) (epoch : string) (paid : list string) (peers : list peer) (spent : Z)
  : list rewardCandidate :=
  match peers with
  | [] => []
  | p :: peers =>
      match qualifies cfg now epoch paid p with
      | None => pick halvings cfg now epoch paid peers spent
      | Some addr =>
          let amount := rewardAmountFor halvings p now in
          if cfg.(rk_MonthlyCap) <? u64 (spent + amount) then []
          else mkCandidate p.(pe_Name) addr amount p.(pe_VerifiedUptimeMS)
                 :: pick halvings cfg now epoch paid peers (u64 (spent + amount))
      end
  end.

(** [rewardCandidates] *)
Definition rewardCandidates (halvings : Z → Z) (now : Z) (cfg : rewardKeeperConfig) (epoch : string) (s : registryState) : list rewardCandidate :=
  let peers := markSharedHardware now (sort_slice by_name (peer_list s)) in
  pick halvings cfg now epoch (paid_nodes epoch s.(RewardPayouts)) peers (spent_in epoch s.(RewardPayouts)).

(* ------------------------------------------------------------------ *)
(** * A cycle *)

Record rewardChain : Type := mkRewardChain { rc_Nonce : string → res Z; rc_Submit : Tx → res string }.

(** The peer of a payout that is confirmed. *)
Definition mark_paid (po : rewardPayout) (now : Z) (p : peer) : peer :=
  p <| pe_LastRewardPaidEpoch := po.(rp_Epoch) |>
    <| pe_LastRewardPaidAt := UnixMilli now |>
    <| pe_TotalRewardsPaidSYN := u64 (p.(pe_TotalRewardsPaidSYN) + po.(rp_AmountSYN)) |>
    <| pe_LastRewardTxHash := po.(rp_TxID) |>
    <| pe_RewardUptimeAtPaidMS := po.(rp_UptimeMS) |>.

Definition pending (po : rewardPayout) : bool := bool_decide (po.(rp_Status) ∈ [payoutStatusSubmitted; payoutStatusStuck]).

(** Step 1: the payouts and the peers afterwards, how many transfers are still
    waiting, and whether anything changed. *)
Fixpoint confirm (now accountNonce : Z) (payouts : list rewardPayout) (peers : gmap string peer)
  : list rewardPayout * gmap string peer * nat * bool :=
  match payouts with
  | [] => ([], peers, O, false)
  | po :: payouts =>
      if negb (pending po) then
        let '(rest, peers, waiting, changed) := confirm now accountNonce payouts peers in (po :: rest, peers, waiting, changed)
      else if po.(rp_Nonce) <? accountNonce then
        let confirmed := po <| rp_Status := payoutStatusConfirmed |> <| rp_ConfirmedAt := UnixMilli now |> in
        let peers := match peers !! po.(rp_NodeID) with Some p => <[po.(rp_NodeID) := mark_paid po now p]> peers | None => peers end in
        let '(rest, peers, waiting, _) := confirm now accountNonce payouts peers in (confirmed :: rest, peers, waiting, true)
      else
        let stuck := bool_decide (po.(rp_Status) = payoutStatusSubmitted) && (rewardStuckAfter <? since now po.(rp_SubmittedAt)) in
        let po := if stuck then po <| rp_Status := payoutStatusStuck |> else po in
        let '(rest, peers, waiting, changed) := confirm now accountNonce payouts peers in (po :: rest, peers, S waiting, stuck || changed)
  end.

(** The transfer to a candidate. *)
Definition reward_tx (cfg : rewardKeeperConfig) (epoch : string) (nonce : Z) (c : rewardCandidate) : Tx :=
  let tx fee := mkTx "" cfg.(rk_ChainID) cfg.(rk_Address) c.(rc_Address) c.(rc_Amount) fee nonce (hex0x (ed_Public cfg.(rk_Private))) "" ""
    [mkKV "reward_keeper" "validator_monthly"; mkKV "node_id" c.(rc_NodeID); mkKV "epoch" epoch] 0 in
  let reqFee := RequiredFee (tx rewardTxFeeSYN) in
  tx (if rewardTxFeeSYN <? reqFee then reqFee else rewardTxFeeSYN).

(** Step 3: the transfers go out one at a time until one fails. The result
    lists what was submitted, with the chain's answers. *)
Fixpoint send_rewards (cfg : rewardKeeperConfig) (ch : rewardChain) (now : Z) (saved : bool) (epoch : string)
    (cs : list rewardCandidate) (nonce : Z) : SM server (list (Tx * res string)) :=
  match cs with
  | [] => mret []
  | c :: cs =>
      match Sign cfg.(rk_Private) (reward_tx cfg epoch nonce c) with
      | (_, inr _) => mret []
      | (tx, inl _) =>
          match ch.(rc_Submit) tx with
          | inr e => mret [(tx, inr e)]
          | inl txID =>
              on_reg (λ s, s <| RewardPayouts := (s.(RewardPayouts) ++
                [mkRewardPayout ("reward-" +:+ c.(rc_NodeID) +:+ "-" +:+ epoch) c.(rc_NodeID) c.(rc_Address) c.(rc_Amount) epoch nonce txID
                   payoutStatusSubmitted c.(rc_UptimeMS) (UnixMilli now) 0])%list |>);;
              persist saved;;
              rest ← send_rewards cfg ch now saved epoch cs (u64 (nonce + 1));
              mret ((tx, inl txID) :: rest)
          end
      end
  end.

(** [rewardKeeperCycle], with what it submitted. *)
Definition rewardKeeperCycle (halvings : Z → Z) (now : Z) (saved : bool) (cfg : rewardKeeperConfig) (ch : rewardChain) : SM server (list (Tx * res string)) :=
  let epoch := epoch_of now in
  if negb cfg.(rk_Enabled) then mret []
  else
    match ch.(rc_Nonce) cfg.(rk_Address) with
    | inr _ => mret []
    | inl accountNonce =>
        s ← get;
        let '(payouts, peers, waiting, changed) := confirm now accountNonce s.(reg).(RewardPayouts) s.(reg).(Peers) in
        on_reg (λ s, s <| RewardPayouts := payouts |> <| Peers := peers |>);;
        (if (changed : bool) then persist saved else mret tt);;
        if (0 <? waiting)%nat then mret []
        else
          s ← get;
          send_rewards cfg ch now saved epoch (rewardCandidates halvings now cfg epoch s.(reg)) accountNonce
    end.

End with_ed25519.
