(* ===== verification/RegistryFacts.v ===== *)
(** How the registry's operations change its peers: every operation leaves an
    entry alone, builds it anew, or changes it in one of a few ways
    ([entry_step]); runs of the registry ([reg_run]) with requests in any
    order, rewards and restarts; and nonces. *)
From stdpp Require Import base strings list gmap sorting relations.
From Stdlib Require Import Ascii.
From S2P Require Import Prelude GoStd Sha256 Types TxModel Block GoText Registry.
From S2P Require Import RegistryPay RewardKeeper.

#[local] Open Scope string_scope.
#[local] Open Scope Z_scope.

(* ------------------------------------------------------------------ *)
(** * Text *)

Lemma TrimLeft_head s : TrimLeft s = "" ∨ ∃ c t, TrimLeft s = String c t ∧ is_space c = false.
Proof. induction s as [|c s IH]; [by left|]. cbn. destruct (is_space c) eqn:Hc; [done|]. right. by exists c, s. Qed.

Lemma TrimRight_head c s : is_space c = false → ∃ t, TrimRight (String c s) = String c t.
Proof. intros Hc. cbn. destruct (TrimRight s); rewrite ?Hc; eauto. Qed.

Lemma TrimRight_idemp s : TrimRight (TrimRight s) = TrimRight s.
Proof.
  induction s as [|c s IH]; [done|]. cbn. destruct (TrimRight s) as [|d t] eqn:Ht.
  - destruct (is_space c) eqn:Hc; [done|]. cbn. by rewrite Hc.
  - change (TrimRight (String c (String d t))) with
      (match TrimRight (String d t) with "" => if is_space c then "" else String c "" | u => String c u end).
    by rewrite IH.
Qed.

Lemma TrimRight_space s : TrimRight (s +:+ " ") = TrimRight s.
Proof.
  induction s as [|c s IH]; [done|]. change (String c s +:+ " ") with (String c (s +:+ " ")). cbn. by rewrite IH.
Qed.

Lemma TrimLeft_fixed c s : is_space c = false → TrimLeft (String c s) = String c s.
Proof. intros Hc. cbn. by rewrite Hc. Qed.

(** A trimmed text with a space behind it is trimmed to itself. *)
Lemma TrimSpace_space s : TrimSpace (TrimSpace s +:+ " ") = TrimSpace s.
Proof.
  unfold TrimSpace. destruct (TrimLeft_head s) as [->|(c & t & -> & Hc)]; [done|].
  destruct (TrimRight_head c t Hc) as [u Hu]. pose proof (TrimRight_idemp (String c t)) as Hi. rewrite Hu in Hi |- *.
  change (String c u +:+ " ") with (String c (u +:+ " ")). rewrite (TrimLeft_fixed c _ Hc).
  change (String c (u +:+ " ")) with (String c u +:+ " "). by rewrite TrimRight_space.
Qed.

Lemma take_bytes_all n s : (String.length s ≤ n)%nat → take_bytes n s = s.
Proof. revert s. induction n as [|n IH]; intros [|c s] Hn; cbn in *; [done|lia|done|]. by rewrite IH by lia. Qed.

Lemma truncate_short n s : slen (TrimSpace s) ≤ Z.of_nat n → truncate s n = TrimSpace s.
Proof. unfold slen, truncate. intros. apply take_bytes_all. lia. Qed.

Lemma empty_str_true s : empty_str s = true ↔ s = "".
Proof. unfold empty_str. apply bool_decide_eq_true. Qed.

Lemma empty_str_false s : empty_str s = false ↔ s ≠ "".
Proof. unfold empty_str. apply bool_decide_eq_false. Qed.

(** ** Nonces *)

Lemma isAllDigits_space s : isAllDigits (s +:+ " ") = false.
Proof.
  unfold isAllDigits. apply andb_false_iff. right. induction s as [|c s IH]; [done|].
  change (String c s +:+ " ") with (String c (s +:+ " ")). cbn. rewrite IH. apply andb_false_r.
Qed.

Lemma segment_space s : compareDecimalSegment s (s +:+ " ") = Lt.
Proof. unfold compareDecimalSegment. rewrite isAllDigits_space, andb_false_r. cbn. apply compare_longer. Qed.

Lemma segment_refl s : compareDecimalSegment s s = Eq.
Proof. unfold compareDecimalSegment. rewrite Z.eqb_refl, andb_false_r. apply compare_refl. Qed.

(** A space behind a nonce makes it a later one. *)
Lemma nonceLess_space n : nonceLess n (n +:+ " ") = true.
Proof.
  unfold nonceLess. destruct (Split_app n " " "-"%char eq_refl) as (l & x & -> & ->).
  induction l as [|y l IH]; cbn; [by rewrite segment_space|]. by rewrite segment_refl.
Qed.

Lemma nonceLess_irrefl n : nonceLess n n = false.
Proof. unfold nonceLess. induction (Split n "-"%char) as [|x l IH]; cbn; [done|]. by rewrite segment_refl. Qed.

(* ------------------------------------------------------------------ *)
(** * Runs *)

(** What reaches the registry, besides reads. *)
Inductive op : Type :=
  | Register (body : res RegisterBody)
  | DeletePeer (path : string)
  | Prune (cutoff : Z)
  | Mail (who : string) (body : res MailBody)
  | Contact (body : res ContactBody)
  | NodeRegister (body : res NodeRegisterBody)
  | Heartbeat (body : res HeartbeatBody)
  | Payout (node : string) (body : res string)
  | Provision (body : res ProvisionBody)
  | Admin (node action publicURL : string)
  | Stake (balance : string → Z) (body : res StakeBody)
  | NewIntent (getenv : string → string) (assets : list earlyAccessAsset) (body : res IntentBody)
  | VerifyIntent (assets : list earlyAccessAsset) (rpc : string → string → string → res any) (w : NativeRPC) (id : string) (body : res string)
  | Rewards (halvings : Z → Z) (keeper : rewardKeeperConfig) (ch : rewardChain)
  | Reload.

Section with_ed25519.
Context `{E : Ed25519}.

Definition exec (cfg : config) (r : Request) (o : op) (s : server) : server :=
  match o with
  | Register b => (handleRegister cfg r b s).1
  | DeletePeer path => (handlePeerByName cfg r path s).1
  | Prune cutoff => (pruneInactivePeers cutoff r.(rq_now) r.(rq_saved) s).1
  | Mail who b => (handleMailbox cfg r who b s).1
  | Contact b => (handleAPIContact r b s).1
  | NodeRegister b => (handleAPINodeRegister r b s).1
  | Heartbeat b => (handleAPINodeHeartbeat r b s).1
  | Payout node b => (set_payout_address r node b s).1
  | Provision b => (handleAPIProvisionNode r b s).1
  | Admin node action url => (handleAPIAdminValidatorByID cfg r node action url s).1
  | Stake balance b => (handleAPIValidatorStake r balance b s).1
  | NewIntent getenv assets b => (handleAPIEarlyAccessPaymentIntents r getenv assets b s).1
  | VerifyIntent assets rpc w id b => (verifyPaymentIntent r assets rpc w id b s).1
  | Rewards halvings keeper ch => (rewardKeeperCycle halvings r.(rq_now) r.(rq_saved) keeper ch s).1
  | Reload => load s
  end.

Definition start : server := mkRegServer empty_registry None.

(** Runs from an empty registry, while the clock does not go back. *)
Inductive reg_run (cfg : config) : Z → server → Prop :=
  | run_start t : 0 ≤ t → reg_run cfg t start
  | run_op t s r o : reg_run cfg t s → t ≤ r.(rq_now) → reg_run cfg r.(rq_now) (exec cfg r o s).

(* ------------------------------------------------------------------ *)
(** * Changes of a peer, in an operation that began with the purchases [pays] *)

Definition live (p : peer) (now : Z) : bool :=
  (0 <? p.(pe_ValidHeartbeats)) && negb (p.(pe_LastSeen) =? 0) && (since now p.(pe_LastSeen) <? staleAfter).

Inductive entry_step (cfg : config) (r : Request) (o : op) (pays : gmap string earlyAccessPaymentIntent) (k : string) (old : option peer) : peer → Prop :=
  | es_register b reg : authorized cfg r = true →
      (∀ p, old = Some p → p.(pe_PublicKey) ≠ "" → truncate b.(rb_PublicKey) 256 = p.(pe_PublicKey)) →
      entry_step cfg r o pays k old (register_entry k b (UnixMilli r.(rq_now)) <| pe_RegisteredAt := reg |>)
  | es_new key endpoint b :
      (∀ p, old = Some p → p.(pe_PublicKey) ≠ "" ∧ p.(pe_PublicKey) ≠ key ∧ live p r.(rq_now) = false) →
      entry_step cfg r o pays k old (new_node_entry r k key endpoint b)
  | es_again p key endpoint b : old = Some p → p.(pe_PublicKey) = "" ∨ p.(pe_PublicKey) = key →
      entry_step cfg r o pays k old (keep_progress p (new_node_entry r k key endpoint b) r.(rq_now))
  | es_beat p b : old = Some p → (p.(pe_LastNonce) ≠ "" → nonceLess p.(pe_LastNonce) b.(hb_Nonce) = true) →
      verifyHeartbeatSignature p.(pe_PublicKey) b.(hb_Signature) (heartbeat_message k b) = inl tt →
      entry_step cfg r o pays k old (beat r k b p)
  | es_payout p a : old = Some p → a ≠ "" → p.(pe_PayoutAddress) = "" ∨ p.(pe_PayoutAddress) = a →
      entry_step cfg r o pays k old (p <| pe_PayoutAddress := a |>)
  | es_provision kind network key endpoint :
      entry_step cfg r o pays k old (provision_entry r k kind network key endpoint)
  | es_approve p node url : authorized cfg r = true → o = Admin node "approve" url → k = sanitize node → old = Some p → p.(pe_PublicKey) ≠ "" →
      entry_step cfg r o pays k old (approve r url p)
  | es_revoke p : authorized cfg r = true → old = Some p → entry_step cfg r o pays k old (revoke p)
  | es_stake p balance b : o = Stake balance (inl b) → k = sanitize b.(sb_NodeID) → old = Some p →
      let addr := TrimSpace b.(sb_OperatorAddress) in
      entry_step cfg r o pays k old (staked r addr (verified_balance (balance addr) addr pays) b.(sb_BondAmountSYN) p)
  | es_paid p po : old = Some p → entry_step cfg r o pays k old (mark_paid po r.(rq_now) p).

(** One change of the server during an operation. *)
Inductive micro (cfg : config) (r : Request) (o : op) (pays : gmap string earlyAccessPaymentIntent) (s : server) : server → Prop :=
  | mi_put k p : entry_step cfg r o pays k (s.(reg).(Peers) !! k) p → micro cfg r o pays s (s <| reg := s.(reg) <| Peers := <[k := p]> s.(reg).(Peers) |> |>)
  | mi_drop P : P ⊆ s.(reg).(Peers) → micro cfg r o pays s (s <| reg := s.(reg) <| Peers := P |> |>)
  | mi_rest g : g.(Peers) = s.(reg).(Peers) → micro cfg r o pays s (s <| reg := g |>)
  | mi_save : micro cfg r o pays s (s <| state_file := Some s.(reg) |>).

End with_ed25519.

Section goes.
Context `{E : Ed25519} (cfg : config) (r : Request) (o : op) (pays : gmap string earlyAccessPaymentIntent).

Local Abbreviation reach s0 := (λ s, rtc (micro cfg r o pays) s0 s).

Lemma reach_put s0 s k p : reach s0 s → entry_step cfg r o pays k (s.(reg).(Peers) !! k) p →
  reach s0 (s <| reg := s.(reg) <| Peers := <[k := p]> s.(reg).(Peers) |> |>).
Proof. intros Hr He. eapply rtc_r; [exact Hr|by apply mi_put]. Qed.

Lemma reach_drop s0 s P : reach s0 s → P ⊆ s.(reg).(Peers) → reach s0 (s <| reg := s.(reg) <| Peers := P |> |>).
Proof. intros Hr He. eapply rtc_r; [exact Hr|by apply mi_drop]. Qed.

Lemma reach_rest s0 s g : reach s0 s → g.(Peers) = s.(reg).(Peers) → reach s0 (s <| reg := g |>).
Proof. intros Hr He. eapply rtc_r; [exact Hr|by apply mi_rest]. Qed.

Lemma reach_save s0 s ok : reach s0 s → reach s0 (if ok : bool then s <| state_file := Some s.(reg) |> else s).
Proof. intros Hr. destruct ok; [|done]. eapply rtc_r; [exact Hr|apply mi_save]. Qed.

(** A run of an operation, reading it forward: [Q] and [E] are both
    reachability. *)
Lemma goes_wp {A} (m : SM server A) s : wp m (λ _, reach s) (λ _, reach s) s → rtc (micro cfg r o pays) s (m s).1.
Proof. unfold wp. destruct (m s) as [s' [a|e]]; done. Qed.

End goes.

(** Steps through a handler; what is left are the changes of peers. *)
Ltac go_reg :=
  lazymatch goal with
  | |- wp (persist _) _ _ _ => apply wp_modify
  | |- wp (on_reg _) _ _ _ => apply wp_modify
  | |- wp (put_peer _ _) _ _ _ => apply wp_modify
  | |- wp (the_peer _) _ _ _ => apply wp_gets
  | |- wp (not_post _) _ _ _ => apply wp_fail_if; intros ?
  | |- wp (need_secret _ _) _ _ _ => apply wp_fail_if; intros ?
  end.
Ltac go_handler := apply goes_wp; repeat (first [go_reg | wp_step fail]; cbv beta zeta); try apply rtc_refl;
  repeat apply reach_save; try (apply reach_put; [apply rtc_refl|]).

Section handlers.
Context `{E : Ed25519} (cfg : config) (r : Request) (o : op) (pays : gmap string earlyAccessPaymentIntent).

Lemma register_goes b s : rtc (micro cfg r o pays) s (handleRegister cfg r b s).1.
Proof.
  unfold handleRegister. go_handler.
  - apply es_register; [by destruct (authorized cfg r)|]. intros p' Hp' Hk. simplify_eq. cbn in *.
    rewrite (proj2 (empty_str_false _) Hk) in *. cbn in *. by case_bool_decide.
  - change (register_entry (sanitize (rb_Name a)) a (UnixMilli (rq_now r))) with
      (register_entry (sanitize (rb_Name a)) a (UnixMilli (rq_now r)) <| pe_RegisteredAt := UnixMilli (rq_now r) |>).
    apply es_register; [by destruct (authorized cfg r)|]. congruence.
Qed.

Lemma delete_goes path s : rtc (micro cfg r o pays) s (handlePeerByName cfg r path s).1.
Proof. unfold handlePeerByName. go_handler. apply reach_drop; [apply rtc_refl|apply delete_subseteq]. Qed.

Lemma prune_goes cutoff now saved s : rtc (micro cfg r o pays) s (pruneInactivePeers cutoff now saved s).1.
Proof.
  unfold pruneInactivePeers. go_handler. all: apply reach_drop; [apply rtc_refl|apply map_filter_subseteq].
Qed.

Lemma mail_goes who b s : rtc (micro cfg r o pays) s (handleMailbox cfg r who b s).1.
Proof. unfold handleMailbox, pull_mail, post_mail. go_handler. all: apply reach_rest; [apply rtc_refl|done]. Qed.

Lemma contact_goes b s : rtc (micro cfg r o pays) s (handleAPIContact r b s).1.
Proof. unfold handleAPIContact. go_handler. all: apply reach_rest; [apply rtc_refl|done]. Qed.

Lemma node_register_goes b s : rtc (micro cfg r o pays) s (handleAPINodeRegister r b s).1.
Proof.
  unfold handleAPINodeRegister. go_handler.
  all: match goal with |- entry_step _ _ _ _ ?k _ _ => set (id := k) in * end.
  - apply es_new. intros p' Hp'. simplify_eq. unfold live.
    match goal with H : negb (empty_str ?x) && negb _ = true |- _ => apply andb_true_iff in H as [Hk Hd] end.
    split_and!; [by apply empty_str_false, negb_true_iff|by case_bool_decide|done].
  - apply es_again; [done|]. destruct (empty_str (pe_PublicKey p)) eqn:Hk; [left; by apply empty_str_true|right]. cbn in *.
    by case_bool_decide.
  - apply es_new. congruence.
Qed.

Lemma heartbeat_goes b s : rtc (micro cfg r o pays) s (handleAPINodeHeartbeat r b s).1.
Proof.
  unfold handleAPINodeHeartbeat. go_handler. apply es_beat; [done| |].
  - intros Hn. rewrite (proj2 (empty_str_false _) Hn) in *. cbn in *. by destruct (nonceLess _ _).
  - match goal with H : verifyHeartbeatSignature _ _ _ = inl ?u |- _ => by destruct u end.
Qed.

Lemma payout_goes node b s : rtc (micro cfg r o pays) s (set_payout_address r node b s).1.
Proof.
  unfold set_payout_address. go_handler. apply es_payout; [done|by apply empty_str_false|].
  destruct (empty_str (pe_PayoutAddress p)) eqn:Hk; [left; by apply empty_str_true|right]. cbn in *. by case_bool_decide.
Qed.

Lemma provision_goes b s : rtc (micro cfg r o pays) s (handleAPIProvisionNode r b s).1.
Proof. unfold handleAPIProvisionNode. go_handler. apply es_provision. Qed.

Lemma admin_goes node action url s : o = Admin node action url → rtc (micro cfg r o pays) s (handleAPIAdminValidatorByID cfg r node action url s).1.
Proof.
  intros Ho. unfold handleAPIAdminValidatorByID. go_handler. assert (authorized cfg r = true) by (by destruct (authorized cfg r)).
  destruct (bool_decide (action = "approve")) eqn:Ha; [|by apply es_revoke]. apply bool_decide_eq_true in Ha as ->.
  eapply es_approve; [done..|]. by apply empty_str_false.
Qed.

Lemma stake_goes balance b s : o = Stake balance b → pays = s.(reg).(EarlyAccessPayments) → rtc (micro cfg r o pays) s (handleAPIValidatorStake r balance b s).1.
Proof. intros Ho Hpays. unfold handleAPIValidatorStake. go_handler. subst. by eapply es_stake. Qed.

Lemma intent_goes getenv assets b s : rtc (micro cfg r o pays) s (handleAPIEarlyAccessPaymentIntents r getenv assets b s).1.
Proof. unfold handleAPIEarlyAccessPaymentIntents. go_handler. apply reach_rest; [apply rtc_refl|done]. Qed.

Lemma verify_goes assets rpc w id b s : rtc (micro cfg r o pays) s (verifyPaymentIntent r assets rpc w id b s).1.
Proof.
  unfold verifyPaymentIntent, begin_verify, reservePaymentTxHash, settle, releasePaymentTxHash, savePaymentIntent. go_handler.
  all: repeat (first [exact (rtc_refl _ _)|apply reach_save|apply reach_rest; [|done]]).
Qed.

Lemma confirm_reach s0 nonce payouts s : rtc (micro cfg r o pays) s0 s →
  rtc (micro cfg r o pays) s0 (s <| reg := s.(reg) <| Peers := (confirm r.(rq_now) nonce payouts s.(reg).(Peers)).1.1.2 |> |>).
Proof.
  revert s. induction payouts as [|po payouts IH]; intros s Hr; cbn [confirm]; [by apply reach_drop|].
  destruct (negb (pending po)); [|destruct (rp_Nonce po <? nonce)].
  - specialize (IH s Hr). by destruct (confirm _ _ payouts _) as [[[??]?]?].
  - destruct (Peers (reg s) !! rp_NodeID po) as [p|] eqn:Hp.
    2:{ specialize (IH s Hr). by destruct (confirm _ _ payouts _) as [[[??]?]?]. }
    set (q := mark_paid _ _ p). specialize (IH (s <| reg := s.(reg) <| Peers := <[rp_NodeID po := q]> s.(reg).(Peers) |> |>)).
    cbn in IH |- *. destruct (confirm _ _ payouts _) as [[[??]?]?]. apply IH.
    apply reach_put; [done|]. by apply es_paid.
  - specialize (IH s Hr). by destruct (confirm _ _ payouts _) as [[[??]?]?].
Qed.

Lemma send_reach keeper ch now saved epoch cs nonce s0 s :
  rtc (micro cfg r o pays) s0 s → wp (send_rewards keeper ch now saved epoch cs nonce) (λ _, rtc (micro cfg r o pays) s0) (λ _, rtc (micro cfg r o pays) s0) s.
Proof.
  revert nonce s. induction cs as [|c cs IH]; intros nonce s Hr; cbn [send_rewards]; [by apply wp_ret|].
  destruct (Sign _ _) as [tx [u|e]]; [|by apply wp_ret]. destruct (rc_Submit ch tx) as [id|e]; [|by apply wp_ret].
  apply wp_bind, wp_modify, wp_bind, wp_modify, wp_bind. eapply wp_mono; [apply IH, reach_save, reach_rest; done| |done].
  intros rest s' Hs. by apply wp_ret.
Qed.

Lemma rewards_goes halvings keeper ch s : rtc (micro cfg r o pays) s (rewardKeeperCycle halvings r.(rq_now) r.(rq_saved) keeper ch s).1.
Proof.
  unfold rewardKeeperCycle. apply goes_wp. destruct (negb _); [by apply wp_ret, rtc_refl|].
  destruct (rc_Nonce ch _) as [nonce|e]; [|by apply wp_ret, rtc_refl]. apply wp_bind, wp_get.
  pose proof (confirm_reach s nonce s.(reg).(RewardPayouts) s (rtc_refl _ _)) as Hc.
  destruct (confirm _ _ _ _) as [[[payouts peers] waiting] changed]. cbn in Hc. apply wp_bind, wp_modify, wp_bind.
  set (s1 := s <| reg := _ |>). assert (rtc (micro cfg r o pays) s s1) as H1 by (eapply (reach_rest _ _ _ _ _ _ _ Hc); done).
  assert (wp (if changed then persist (rq_saved r) else mret tt) (λ _ s2, rtc (micro cfg r o pays) s s2 ∧ s2.(reg) = s1.(reg)) (λ _ _, False) s1) as Hw.
  { destruct changed; [apply wp_modify|by apply wp_ret]. split; [by apply reach_save|by destruct (rq_saved r)]. }
  eapply wp_mono; [exact Hw| |done]. intros _ s2 [H2 _]. destruct (0 <? waiting)%nat; [by apply wp_ret|].
  apply wp_bind, wp_get. by apply send_reach.
Qed.

End handlers.

(** An operation is a sequence of such changes; a restart is the one
    exception. *)
Lemma exec_micro `{E : Ed25519} cfg r o s : o ≠ Reload → rtc (micro cfg r o s.(reg).(EarlyAccessPayments)) s (exec cfg r o s).
Proof.
  destruct o; cbn [exec]; intros Ho;
    eauto using register_goes, delete_goes, prune_goes, mail_goes, contact_goes, node_register_goes, heartbeat_goes, payout_goes,
      provision_goes, admin_goes, stake_goes, intent_goes, verify_goes, rewards_goes. done.
Qed.

(* ------------------------------------------------------------------ *)
(** * Invariants of runs *)

(** What is true of an entry at time [T] (in milliseconds): it stands under
    its name, and its verified uptime fits between its first and its last
    heartbeat. *)
Record node_ok (T : Z) (k : string) (p : peer) : Prop := {
  ok_name : p.(pe_Name) = k;
  ok_first : 0 ≤ p.(pe_FirstHeartbeatAt) ≤ p.(pe_LastHeartbeatAt);
  ok_last : p.(pe_LastHeartbeatAt) ≤ T;
  ok_zero : p.(pe_FirstHeartbeatAt) = 0 → p.(pe_LastHeartbeatAt) = 0;
  ok_uptime : 0 ≤ p.(pe_VerifiedUptimeMS) ≤ p.(pe_LastHeartbeatAt) - p.(pe_FirstHeartbeatAt)
}.

Definition peers_ok (T : Z) (s : registryState) : Prop := map_Forall (node_ok T) s.(Peers).

Definition server_ok (T : Z) (s : server) : Prop :=
  peers_ok T s.(reg) ∧ ∀ f, s.(state_file) = Some f → peers_ok T f.

Lemma node_ok_mono T T' k p : T ≤ T' → node_ok T k p → node_ok T' k p.
Proof. intros ? []. split; auto; lia. Qed.

Lemma server_ok_mono T T' s : T ≤ T' → server_ok T s → server_ok T' s.
Proof.
  intros HT [H1 H2]. split; [|intros f Hf; specialize (H2 f Hf)]; intros k p Hp; (eapply node_ok_mono; [exact HT|]); eauto.
Qed.

(** The fields that say what a node has proved, and whether it is trusted. *)
Record same_core (p q : peer) : Prop := {
  sc_name : q.(pe_Name) = p.(pe_Name);
  sc_key : q.(pe_PublicKey) = p.(pe_PublicKey);
  sc_nonce : q.(pe_LastNonce) = p.(pe_LastNonce);
  sc_first : q.(pe_FirstHeartbeatAt) = p.(pe_FirstHeartbeatAt);
  sc_last : q.(pe_LastHeartbeatAt) = p.(pe_LastHeartbeatAt);
  sc_seen : q.(pe_LastSeen) = p.(pe_LastSeen);
  sc_beats : q.(pe_ValidHeartbeats) = p.(pe_ValidHeartbeats);
  sc_uptime : q.(pe_VerifiedUptimeMS) = p.(pe_VerifiedUptimeMS);
  sc_approved : q.(pe_ValidatorApproved) = p.(pe_ValidatorApproved)
}.

#[global] Instance same_core_preorder : PreOrder same_core.
Proof. split; [by intros p|]. intros p q u [] []. split; congruence. Qed.

Ltac core_step := intros; unfold beat_hardware, beat_payout, beat_household, beat_endpoint, beat_cloud; cbn zeta; case_match; by split.

Lemma core_hardware b p : same_core p (beat_hardware b p). Proof. core_step. Qed.
Lemma core_payout b p : same_core p (beat_payout b p). Proof. core_step. Qed.
Lemma core_household r p : same_core p (beat_household r p). Proof. core_step. Qed.
Lemma core_endpoint b p : same_core p (beat_endpoint b p). Proof. core_step. Qed.
Lemma core_cloud k p : same_core p (beat_cloud k p). Proof. core_step. Qed.
Lemma core_caps b p : same_core p (beat_caps b p).
Proof.
  unfold beat_caps. trans (match hb_Capabilities b with [] => p | caps => p <| pe_Capabilities := normalizeCapabilities caps |> end).
  - by destruct (hb_Capabilities b).
  - generalize (match hb_Capabilities b with [] => p | caps => p <| pe_Capabilities := normalizeCapabilities caps |> end). intros q.
    destruct (pe_Capabilities q); [destruct (_ && _)|]; by split.
Qed.

(** What a heartbeat says about its node changes none of them. *)
Lemma beat_core r k b p : same_core (beat_proof r b p) (beat r k b p).
Proof.
  unfold beat. etrans; [apply core_hardware|]. etrans; [apply core_payout|]. etrans; [apply core_household|].
  etrans; [apply core_endpoint|]. etrans; [apply core_cloud|]. apply core_caps.
Qed.

(** Milliseconds that do not wrap. *)
Definition clock_ok (T : Z) : Prop := 0 ≤ T < 2 ^ 62.

Section invariants.
Context `{E : Ed25519} (cfg : config) (r : Request) (o : op) (pays : gmap string earlyAccessPaymentIntent).

Lemma beat_ok T k b p : T ≤ UnixMilli r.(rq_now) → clock_ok (UnixMilli r.(rq_now)) → node_ok T k p → node_ok (UnixMilli r.(rq_now)) k (beat r k b p).
Proof.
  intros HT Hc [Hn Hf Hl Hz Hu]. unfold clock_ok in *. set (now := UnixMilli (rq_now r)) in *.
  destruct (beat_core r k b p) as [H1 _ _ H2 H3 _ _ H4 _]. cbn in H1, H2, H3, H4. fold now in H2, H3, H4.
  assert (pe_FirstHeartbeatAt p ≠ 0 ∨ pe_FirstHeartbeatAt p = 0 ∧ pe_LastHeartbeatAt p = 0) as Hcase by (destruct (Z.eq_dec (pe_FirstHeartbeatAt p) 0); auto).
  assert (0 ≤ uptime_delta (pe_LastHeartbeatAt p) now ≤ (if pe_LastHeartbeatAt p =? 0 then 0 else now - pe_LastHeartbeatAt p)) as Hd.
  { unfold uptime_delta. change (heartbeatFreshAfter / millisecond) with 120000. rewrite i64_small by lia.
    destruct (Z.ltb_spec 0 (pe_LastHeartbeatAt p)), (Z.eqb_spec (pe_LastHeartbeatAt p) 0); try lia.
    destruct (Z.ltb_spec 0 (now - pe_LastHeartbeatAt p)); lia. }
  destruct (Z.eqb_spec (pe_FirstHeartbeatAt p) 0), (Z.eqb_spec (pe_LastHeartbeatAt p) 0); try (destruct Hcase as [|[]]; lia).
  all: split; rewrite ?H1, ?H2, ?H3, ?H4; try (rewrite i64_small by lia); try done; try lia.
Qed.

Lemma entry_step_ok T k old p : T ≤ UnixMilli r.(rq_now) → clock_ok (UnixMilli r.(rq_now)) →
  (∀ q, old = Some q → node_ok T k q) → entry_step cfg r o pays k old p → node_ok (UnixMilli r.(rq_now)) k p.
Proof.
  intros HT Hc Hold Hstep. unfold clock_ok in *.
  assert (∀ q, old = Some q → node_ok (UnixMilli (rq_now r)) k q) as Hold' by (intros q Hq; eapply node_ok_mono; eauto).
  destruct Hstep; subst; try (specialize (Hold' _ eq_refl) as []); try by (split; cbn; auto; lia).
  - unfold keep_progress. cbn zeta. case_match; split; cbn; auto; lia.
  - by apply (beat_ok T); [..|apply Hold].
  - unfold staked. case_match; split; cbn; auto; lia.
Qed.

Lemma micro_ok T s s' : T ≤ UnixMilli r.(rq_now) → clock_ok (UnixMilli r.(rq_now)) → server_ok T s → micro cfg r o pays s s' → server_ok (UnixMilli r.(rq_now)) s'.
Proof.
  intros HT Hc Hs Hm. pose proof (server_ok_mono _ _ _ HT Hs) as [Hr Hf]. destruct Hm as [k p He|P HP|g Hg|]; split; cbn; try done.
  - apply map_Forall_insert_2; [|done]. eapply entry_step_ok; [done..| |exact He]. intros q Hq. by apply (proj1 Hs).
  - intros k p Hp. apply Hr. by eapply lookup_weaken.
  - unfold peers_ok. by rewrite Hg.
  - intros f [= <-]. done.
Qed.

End invariants.

Lemma exec_ok `{E : Ed25519} cfg r o T s : T ≤ UnixMilli r.(rq_now) → clock_ok (UnixMilli r.(rq_now)) → server_ok T s → server_ok (UnixMilli r.(rq_now)) (exec cfg r o s).
Proof.
  intros HT Hc Hs. assert (o = Reload ∨ o ≠ Reload) as [Ho|Ho] by (destruct o; (by left) || by right).
  - rewrite Ho. apply (server_ok_mono T); [done|]. destruct Hs as [_ Hf]. destruct s as [g [f|]]; split; cbn; try done; by apply Hf.
  - apply server_ok_mono with (T' := UnixMilli (rq_now r)) in Hs; [|done].
    eapply (rtc_ind_r (λ s', server_ok (UnixMilli (rq_now r)) s') s); [done| |exact (exec_micro cfg r o s Ho)].
    intros x y _ Hxy Hx. by apply (micro_ok cfg r o s.(reg).(EarlyAccessPayments) (UnixMilli (rq_now r)) x).
Qed.

Section approval.
Context `{E : Ed25519} (cfg : config) (r : Request) (o : op) (pays : gmap string earlyAccessPaymentIntent).

(** ** Approval *)

(** What can make the entry under [k] an approved validator. *)
Definition approves (k : string) : Prop :=
  (authorized cfg r = true ∧ ∃ node url, o = Admin node "approve" url ∧ k = sanitize node) ∨
  (∃ balance b, let addr := TrimSpace b.(sb_OperatorAddress) in
     o = Stake balance (inl b) ∧ k = sanitize b.(sb_NodeID) ∧ validatorMinimumBondSYN ≤ verified_balance (balance addr) addr pays).

(** Whether [p] was approved among [peers] already, under the same key or
    before any key was set. *)
Definition approved_before (peers : gmap string peer) (k : string) (p : peer) : Prop :=
  ∃ q, peers !! k = Some q ∧ q.(pe_ValidatorApproved) = true ∧ (q.(pe_PublicKey) = p.(pe_PublicKey) ∨ q.(pe_PublicKey) = "").

Lemma approved_before_self peers k p : peers !! k = Some p → p.(pe_ValidatorApproved) = true → approved_before peers k p.
Proof. intros Hp Ha. exists p. auto. Qed.

Lemma entry_step_approved k old p : entry_step cfg r o pays k old p → p.(pe_ValidatorApproved) = true →
  approves k ∨ ∃ q, old = Some q ∧ q.(pe_ValidatorApproved) = true ∧ (q.(pe_PublicKey) = p.(pe_PublicKey) ∨ q.(pe_PublicKey) = "").
Proof.
  intros Hstep Ha. destruct Hstep as [| |q key endpoint b Ho Hk|q b Ho| | | | |q balance b|]; try done; try (right; eexists; split; [done|]; split; [done|]; by left).
  - right. exists q. split; [done|]. unfold keep_progress in *. revert Ha. cbn zeta. case_match; cbn; naive_solver.
  - right. exists q. split; [done|]. destruct (beat_core r k b q) as [_ Hk _ _ _ _ _ _ Hap]. cbn in Hk, Hap. rewrite Hap in Ha. auto.
  - left. left. eauto.
  - revert Ha. unfold staked. destruct (validatorMinimumBondSYN <=? _) eqn:Hb; cbn; intros Ha; [|right; eexists; split; [done|]; split; [done|]; by left].
    left. right. exists balance, b. split_and!; [done|done|]. by apply Z.leb_le.
Qed.

(** What is approved during an operation, in memory and in the file. *)
Record origins (s s' : server) : Prop := {
  or_reg k p : s'.(reg).(Peers) !! k = Some p → p.(pe_ValidatorApproved) = true → approves k ∨ approved_before s.(reg).(Peers) k p;
  or_file k p f : s'.(state_file) = Some f → f.(Peers) !! k = Some p → p.(pe_ValidatorApproved) = true →
    s.(state_file) = Some f ∨ approves k ∨ approved_before s.(reg).(Peers) k p
}.

Lemma micro_origins s x y : origins s x → micro cfg r o pays x y → origins s y.
Proof.
  intros [Hr Hf] [k' p' He|P HP|g Hg|]; split; cbn; intros k p; try (by eauto).
  - intros [[-> ->]|[_ Hq]]%lookup_insert_Some Ha; [|by eauto].
    destruct (entry_step_approved _ _ _ He Ha) as [|(q & Hq & Hqa & Hk)]; [by left|].
    destruct (Hr _ _ Hq Hqa) as [|(q' & Hq' & Ha' & Hk')]; [by left|]. right. exists q'.
    split_and!; [done|done|]. destruct Hk' as [Hk'|Hk']; [rewrite Hk'; exact Hk|by right].
  - intros Hq. eapply lookup_weaken in Hq; [|exact HP]. by apply Hr.
  - rewrite Hg. by apply Hr.
  - intros f [= <-] Hp Ha. right. by apply Hr.
Qed.

End approval.

Lemma exec_origins `{E : Ed25519} cfg r o s : o ≠ Reload → origins cfg r o s.(reg).(EarlyAccessPayments) s (exec cfg r o s).
Proof.
  intros Ho. eapply (rtc_ind_r (λ s', origins cfg r o s.(reg).(EarlyAccessPayments) s s') s); [| |exact (exec_micro cfg r o s Ho)].
  - split; [|by left]. intros k p Hp Ha. right. by apply approved_before_self.
  - intros x y _ Hxy Hx. by eapply micro_origins.
Qed.

(** ** Runs *)

Lemma start_ok T : server_ok T start.
Proof. split; [|done]. apply map_Forall_empty. Qed.

Lemma UnixMilli_mono a b : a ≤ b → UnixMilli a ≤ UnixMilli b.
Proof. intros. apply Z.div_le_mono; [done|lia]. Qed.

Lemma exec_ok_at `{E : Ed25519} cfg t s r o : 0 ≤ t → t ≤ r.(rq_now) → r.(rq_now) < 2 ^ 62 → server_ok (UnixMilli t) s →
  server_ok (UnixMilli r.(rq_now)) (exec cfg r o s).
Proof.
  intros H0 Hle Hmax Hs. apply (exec_ok cfg r o (UnixMilli t)); [by apply UnixMilli_mono| |done].
  unfold clock_ok. change (2 ^ 62) with 4611686018427387904 in *. unfold UnixMilli, millisecond. split; [apply Z.div_pos; lia|].
  apply Z.div_lt_upper_bound; lia.
Qed.

Lemma reg_run_ok `{E : Ed25519} cfg t s : reg_run cfg t s → t < 2 ^ 62 → 0 ≤ t ∧ server_ok (UnixMilli t) s.
Proof.
  induction 1 as [t Ht|t s r o Hrun IH Hle]; intros Hmax; [split; [done|apply start_ok]|].
  destruct IH as [H0 Hs]; [lia|]. split; [lia|]. by apply (exec_ok_at cfg t).
Qed.

(* ------------------------------------------------------------------ *)
(** * Heartbeats *)

Section heartbeats.
Context `{E : Ed25519}.

(** What [handleAPINodeHeartbeat] asks of a heartbeat. *)
Definition acceptable (k : string) (b : HeartbeatBody) (p : peer) : Prop :=
  (p.(pe_LastNonce) = "" ∨ nonceLess p.(pe_LastNonce) b.(hb_Nonce) = true) ∧
  verifyHeartbeatSignature p.(pe_PublicKey) b.(hb_Signature) (heartbeat_message k b) = inl tt.

#[global] Instance acceptable_dec k b p : Decision (acceptable k b p).
Proof. unfold acceptable. apply _. Defined.

Implicit Types (r : Request) (b : HeartbeatBody).
Local Abbreviation name b := (sanitize (defaultString b.(hb_NodeID) b.(hb_NodeIDCamel))).

Ltac open_heartbeat :=
  unfold handleAPINodeHeartbeat, not_post, the_peer, put_peer, on_reg, persist, fail_if, lift, get, gets, modify, throw, mret, SM_ret, mbind, SM_bind.

Lemma heartbeat_accepts r b s p : r.(rq_Method) = "POST" → name b ≠ "" → b.(hb_Nonce) ≠ "" → s.(reg).(Peers) !! name b = Some p →
  acceptable (name b) b p →
  ∃ s', handleAPINodeHeartbeat r (inl b) s = (s', inl (beat r (name b) b p)) ∧
    s'.(reg) = s.(reg) <| Peers := <[name b := beat r (name b) b p]> s.(reg).(Peers) |> ∧
    (s'.(state_file) = s.(state_file) ∨ s'.(state_file) = Some s'.(reg)).
Proof.
  intros Hm Hk Hn Hp [Hl Hv]. open_heartbeat. rewrite Hm, bool_decide_eq_true_2 by done. cbn. rewrite (proj2 (empty_str_false _) Hk), (proj2 (empty_str_false _) Hn), Hp. cbn.
  assert (negb (empty_str (pe_LastNonce p)) && negb (nonceLess (pe_LastNonce p) (hb_Nonce b)) = false) as ->.
  { destruct Hl as [-> | ->]; [done|apply andb_false_r]. }
  rewrite Hv. destruct (rq_saved r); cbn; eauto.
Qed.

Lemma heartbeat_refuses r b s p : r.(rq_Method) = "POST" → name b ≠ "" → b.(hb_Nonce) ≠ "" → s.(reg).(Peers) !! name b = Some p →
  ¬ acceptable (name b) b p → ∃ e, handleAPINodeHeartbeat r (inl b) s = (s, inr e).
Proof.
  intros Hm Hk Hn Hp Ha. open_heartbeat. rewrite Hm, bool_decide_eq_true_2 by done. cbn. rewrite (proj2 (empty_str_false _) Hk), (proj2 (empty_str_false _) Hn), Hp. cbn.
  destruct (negb (empty_str (pe_LastNonce p)) && negb (nonceLess (pe_LastNonce p) (hb_Nonce b))) eqn:Hl; [by eexists|].
  destruct (verifyHeartbeatSignature _ _ _) as [[]|e] eqn:Hv; [|by eexists]. destruct Ha. split; [|done].
  destruct (empty_str (pe_LastNonce p)) eqn:He; [left; by apply empty_str_true|right]. by destruct (nonceLess _ _).
Qed.

Lemma heartbeat_unknown r b s : r.(rq_Method) = "POST" → name b ≠ "" → b.(hb_Nonce) ≠ "" → s.(reg).(Peers) !! name b = None →
  handleAPINodeHeartbeat r (inl b) s = (s, inr (Err "node is not registered")).
Proof.
  intros Hm Hk Hn Hp. open_heartbeat. rewrite Hm, bool_decide_eq_true_2 by done. cbn. by rewrite (proj2 (empty_str_false _) Hk), (proj2 (empty_str_false _) Hn), Hp.
Qed.

Lemma heartbeat_inv r b s s' p' : handleAPINodeHeartbeat r (inl b) s = (s', inl p') →
  ∃ p, name b ≠ "" ∧ b.(hb_Nonce) ≠ "" ∧ s.(reg).(Peers) !! name b = Some p ∧ acceptable (name b) b p ∧ p' = beat r (name b) b p ∧
    s'.(reg) = s.(reg) <| Peers := <[name b := p']> s.(reg).(Peers) |>.
Proof.
  intros Hrun. assert (r.(rq_Method) = "POST" ∧ name b ≠ "" ∧ b.(hb_Nonce) ≠ "") as (Hm & Hk & Hn).
  { revert Hrun. open_heartbeat. destruct (bool_decide (rq_Method r = "POST")) eqn:Hm; cbn; [|done].
    destruct (empty_str (name b)) eqn:Hk; cbn; [done|]. destruct (empty_str (hb_Nonce b)) eqn:Hn; cbn; [done|]. intros _.
    apply bool_decide_eq_true in Hm. apply empty_str_false in Hk, Hn. done. }
  destruct (s.(reg).(Peers) !! name b) as [p|] eqn:Hp; [|by rewrite heartbeat_unknown in Hrun].
  destruct (decide (acceptable (name b) b p)) as [Ha|Ha].
  - destruct (heartbeat_accepts r b s p Hm Hk Hn Hp Ha) as (s1 & H1 & H2 & _). rewrite H1 in Hrun. simplify_eq. by exists p.
  - destruct (heartbeat_refuses r b s p Hm Hk Hn Hp Ha) as [e He]. by rewrite He in Hrun.
Qed.

Lemma uptime_delta_range last now : 0 ≤ uptime_delta last now ≤ 120000.
Proof.
  unfold uptime_delta. change (heartbeatFreshAfter / millisecond) with 120000. destruct (0 <? last); [|lia].
  destruct (Z.ltb_spec 0 (i64 (now - last))); lia.
Qed.

End heartbeats.

Lemma space_nonempty s : s +:+ " " ≠ "".
Proof. by destruct s. Qed.

Lemma payout_household r p : (beat_household r p).(pe_PayoutAddress) = p.(pe_PayoutAddress).
Proof. unfold beat_household. cbn zeta. by case_match. Qed.
Lemma payout_endpoint b p : (beat_endpoint b p).(pe_PayoutAddress) = p.(pe_PayoutAddress).
Proof. unfold beat_endpoint. cbn zeta. by case_match. Qed.
Lemma payout_cloud k p : (beat_cloud k p).(pe_PayoutAddress) = p.(pe_PayoutAddress).
Proof. unfold beat_cloud. by case_match. Qed.
Lemma payout_caps b p : (beat_caps b p).(pe_PayoutAddress) = p.(pe_PayoutAddress).
Proof.
  unfold beat_caps. trans (match hb_Capabilities b with [] => p | caps => p <| pe_Capabilities := normalizeCapabilities caps |> end).(pe_PayoutAddress).
  - generalize (match hb_Capabilities b with [] => p | caps => p <| pe_Capabilities := normalizeCapabilities caps |> end). intros q.
    destruct (pe_Capabilities q); [|done]. by destruct (_ && _).
  - by destruct (hb_Capabilities b).
Qed.

Lemma beat_pays r k b p : normalizePayoutAddress b.(hb_PayoutAddress) ≠ "" → (beat r k b p).(pe_PayoutAddress) = normalizePayoutAddress b.(hb_PayoutAddress).
Proof.
  intros Hp. unfold beat. rewrite payout_caps, payout_cloud, payout_endpoint, payout_household. unfold beat_payout. cbn zeta.
  by rewrite (proj2 (empty_str_false _) Hp).
Qed.
