(* ===== verification/RegistryFrame.v ===== *)
(** What an operation of the registry leaves alone. [frame π s s']: seen
    through [π] the state has not changed, and what was written to disk is
    either the old file or looks the same. Operations on nodes do not touch
    mail, payments and payouts; the operations of each of these do not touch
    the others. With it the mailbox is a bounded queue per name: what was
    posted and not yet pulled waits in the order it came, is handed out once,
    and only the oldest are lost when more than [maxMailbox] wait. *)
From stdpp Require Import base strings list gmap sorting.
From S2P Require Import Prelude GoStd Types TxModel GoText Registry RegistryPay RewardKeeper.
From S2P Require Import RegistryFacts.

#[local] Open Scope string_scope.
#[local] Open Scope Z_scope.

Section frame.
Context {A : Type} (π : registryState → A).

Definition frame (s s' : server) : Prop :=
  π s'.(reg) = π s.(reg) ∧ (s'.(state_file) = s.(state_file) ∨ ∃ f, s'.(state_file) = Some f ∧ π f = π s.(reg)).

#[global] Instance frame_preorder : PreOrder frame.
Proof.
  split; [by split; [|left]|]. intros s s1 s2 [H1 F1] [H2 F2]. split; [congruence|].
  destruct F2 as [->|(f & -> & Hf)]; [done|]. right. exists f. split; [done|congruence].
Qed.

Lemma frame_reg s0 s g : frame s0 s → π g = π s.(reg) → frame s0 (s <| reg := g |>).
Proof. intros Hs Hg. trans s; [done|]. split; [done|by left]. Qed.

Lemma frame_save s0 s ok : frame s0 s → frame s0 (if ok : bool then s <| state_file := Some s.(reg) |> else s).
Proof. intros Hs. trans s; [done|]. destruct ok; [|done]. split; [done|right]. by exists s.(reg). Qed.

Lemma frame_wp {X} (m : SM server X) s : wp m (λ _, frame s) (λ _, frame s) s → frame s (m s).1.
Proof. unfold wp. destruct (m s) as [s' [a|e]]; done. Qed.

(** What is on disk agrees with what is in memory. *)
Definition synced (s : server) : Prop := π (default empty_registry s.(state_file)) = π s.(reg).

Lemma frame_synced s s' : frame s s' → synced s → synced s'.
Proof. unfold synced. intros [H [->|(f & -> & Hf)]] Hs; cbn; congruence. Qed.

Lemma synced_load s : synced s → π (load s).(reg) = π s.(reg) ∧ synced (load s).
Proof. intros Hs. split; [exact Hs|reflexivity]. Qed.

End frame.

(** Steps through a handler; the changes of the state that are left must be
    seen to be invisible. *)
Ltac frame_handler :=
  apply frame_wp; repeat (first [go_reg | wp_step fail]; cbn beta zeta);
  repeat (first [reflexivity | apply frame_save | apply frame_reg]); try reflexivity.

(** The parts of the state besides the peers. *)
Definition payments (s : registryState) : gmap string earlyAccessPaymentIntent * gmap string string := (s.(EarlyAccessPayments), s.(ConsumedPaymentTxHashes)).

Definition aside (s : registryState) : gmap string (list mailboxMessage) * (gmap string earlyAccessPaymentIntent * gmap string string) * list rewardPayout :=
  (s.(Mailbox), payments s, s.(RewardPayouts)).

Section handlers.
Context `{E : Ed25519} (cfg : config) (r : Request).

Lemma register_aside b s : frame aside s (handleRegister cfg r b s).1.
Proof. unfold handleRegister. frame_handler. Qed.

Lemma delete_aside path s : frame aside s (handlePeerByName cfg r path s).1.
Proof. unfold handlePeerByName. frame_handler. Qed.

Lemma prune_aside cutoff now saved s : frame aside s (pruneInactivePeers cutoff now saved s).1.
Proof. unfold pruneInactivePeers. frame_handler. Qed.

Lemma contact_aside b s : frame aside s (handleAPIContact r b s).1.
Proof. unfold handleAPIContact. frame_handler. Qed.

Lemma node_register_aside b s : frame aside s (handleAPINodeRegister r b s).1.
Proof. unfold handleAPINodeRegister. frame_handler. Qed.

Lemma heartbeat_aside b s : frame aside s (handleAPINodeHeartbeat r b s).1.
Proof. unfold handleAPINodeHeartbeat. frame_handler. Qed.

Lemma payout_aside node b s : frame aside s (set_payout_address r node b s).1.
Proof. unfold set_payout_address. frame_handler. Qed.

Lemma provision_aside b s : frame aside s (handleAPIProvisionNode r b s).1.
Proof. unfold handleAPIProvisionNode. frame_handler. Qed.

Lemma admin_aside node action url s : frame aside s (handleAPIAdminValidatorByID cfg r node action url s).1.
Proof. unfold handleAPIAdminValidatorByID. frame_handler. Qed.

Lemma stake_aside balance b s : frame aside s (handleAPIValidatorStake r balance b s).1.
Proof. unfold handleAPIValidatorStake. frame_handler. Qed.

Lemma mail_others who b s : frame (λ g, (payments g, g.(RewardPayouts))) s (handleMailbox cfg r who b s).1.
Proof. unfold handleMailbox, pull_mail, post_mail. frame_handler. Qed.

Lemma intent_others getenv assets b s : frame (λ g, (g.(Mailbox), g.(RewardPayouts))) s (handleAPIEarlyAccessPaymentIntents r getenv assets b s).1.
Proof. unfold handleAPIEarlyAccessPaymentIntents. frame_handler. Qed.

Lemma verify_others assets rpc w id b s : frame (λ g, (g.(Mailbox), g.(RewardPayouts))) s (verifyPaymentIntent r assets rpc w id b s).1.
Proof. unfold verifyPaymentIntent, begin_verify, reservePaymentTxHash, settle, releasePaymentTxHash, savePaymentIntent. frame_handler. Qed.

Lemma send_others keeper ch now saved epoch cs nonce s0 s : frame (λ g, (g.(Mailbox), payments g)) s0 s →
  wp (send_rewards keeper ch now saved epoch cs nonce) (λ _, frame (λ g, (g.(Mailbox), payments g)) s0) (λ _, frame (λ g, (g.(Mailbox), payments g)) s0) s.
Proof.
  revert nonce s. induction cs as [|c cs IH]; intros nonce s Hr; cbn [send_rewards]; [by apply wp_ret|].
  destruct (Sign _ _) as [tx [u|e]]; [|by apply wp_ret]. destruct (rc_Submit ch tx) as [id|e]; [|by apply wp_ret].
  apply wp_bind, wp_modify, wp_bind, wp_modify, wp_bind. eapply wp_mono; [apply IH, frame_save, frame_reg; done| |done].
  intros rest s' Hs. by apply wp_ret.
Qed.

Lemma rewards_others halvings now saved keeper ch s : frame (λ g, (g.(Mailbox), payments g)) s (rewardKeeperCycle halvings now saved keeper ch s).1.
Proof.
  unfold rewardKeeperCycle. apply frame_wp. destruct (negb _); [by apply wp_ret|]. destruct (rc_Nonce ch _) as [nonce|e]; [|by apply wp_ret].
  apply wp_bind, wp_get. destruct (confirm _ _ _ _) as [[[po peers] waiting] changed]. apply wp_bind, wp_modify, wp_bind.
  set (s1 := s <| reg := _ |>). assert (frame (λ g, (g.(Mailbox), payments g)) s s1) as H1 by (by apply frame_reg).
  eapply (wp_mono _ (λ _ s2, frame (λ g, (g.(Mailbox), payments g)) s s2) _ (λ _ _, False)); [| |done].
  { destruct changed; [apply wp_modify; by apply frame_save|by apply wp_ret]. }
  intros _ s2 H2. destruct (0 <? waiting)%nat; [by apply wp_ret|]. apply wp_bind, wp_get. by apply send_others.
Qed.

End handlers.

(** A frame seen through less. *)
Lemma frame_weaken {A B} (π : registryState → A) (ρ : registryState → B) s s' :
  (∀ g h, π g = π h → ρ g = ρ h) → frame π s s' → frame ρ s s'.
Proof. intros Hρ [H [F|(f & F & Hf)]]; split; eauto. Qed.

(** Which operations may change the mail, the payments, the payouts. *)
Lemma exec_mail_frame `{E : Ed25519} cfg r o s : (∀ who b, o ≠ Mail who b) → o ≠ Reload → frame Mailbox s (exec cfg r o s).
Proof.
  intros Hm Hr. assert (∀ s', frame aside s s' → frame Mailbox s s') as Ha by (intros s'; apply frame_weaken; by intros g h [=]).
  destruct o; cbn [exec]; try done;
    try solve [apply Ha; eauto using register_aside, delete_aside, prune_aside, contact_aside, node_register_aside, heartbeat_aside, payout_aside, provision_aside, admin_aside, stake_aside].
  - by destruct (Hm who body).
  - eapply frame_weaken; [|apply intent_others]. intros g h Hgh. first [exact (f_equal fst Hgh)|exact (f_equal snd Hgh)].
  - eapply frame_weaken; [|apply verify_others]. intros g h Hgh. first [exact (f_equal fst Hgh)|exact (f_equal snd Hgh)].
  - eapply frame_weaken; [|apply rewards_others]. intros g h Hgh. first [exact (f_equal fst Hgh)|exact (f_equal snd Hgh)].
Qed.

Lemma exec_payments_frame `{E : Ed25519} cfg r o s :
  (∀ getenv assets b, o ≠ NewIntent getenv assets b) → (∀ assets rpc w id b, o ≠ VerifyIntent assets rpc w id b) → o ≠ Reload →
  frame payments s (exec cfg r o s).
Proof.
  intros Hi Hv Hr. assert (∀ s', frame aside s s' → frame payments s s') as Ha by (intros s'; apply frame_weaken; intros g h Hgh; exact (f_equal (λ x, x.1.2) Hgh)).
  destruct o; cbn [exec]; try done;
    try solve [apply Ha; eauto using register_aside, delete_aside, prune_aside, contact_aside, node_register_aside, heartbeat_aside, payout_aside, provision_aside, admin_aside, stake_aside].
  - eapply frame_weaken; [|apply mail_others]. intros g h Hgh. first [exact (f_equal fst Hgh)|exact (f_equal snd Hgh)].
  - by destruct (Hi getenv assets body).
  - by destruct (Hv assets rpc w id body).
  - eapply frame_weaken; [|apply rewards_others]. intros g h Hgh. first [exact (f_equal fst Hgh)|exact (f_equal snd Hgh)].
Qed.

Lemma exec_payouts_frame `{E : Ed25519} cfg r o s : (∀ halvings keeper ch, o ≠ Rewards halvings keeper ch) → o ≠ Reload →
  frame RewardPayouts s (exec cfg r o s).
Proof.
  intros Hi Hr. assert (∀ s', frame aside s s' → frame RewardPayouts s s') as Ha by (intros s'; apply frame_weaken; by intros g h [=]).
  destruct o; cbn [exec]; try done;
    try solve [apply Ha; eauto using register_aside, delete_aside, prune_aside, contact_aside, node_register_aside, heartbeat_aside, payout_aside, provision_aside, admin_aside, stake_aside].
  - eapply frame_weaken; [|apply mail_others]. intros g h Hgh. first [exact (f_equal fst Hgh)|exact (f_equal snd Hgh)].
  - eapply frame_weaken; [|apply intent_others]. intros g h Hgh. first [exact (f_equal fst Hgh)|exact (f_equal snd Hgh)].
  - eapply frame_weaken; [|apply verify_others]. intros g h Hgh. first [exact (f_equal fst Hgh)|exact (f_equal snd Hgh)].
  - by destruct (Hi halvings keeper ch).
Qed.

(* ------------------------------------------------------------------ *)
(** * The mailbox as a queue *)

Section mail.
Context `{E : Ed25519} (cfg : config) (k : string).

(** What waits for [k]. *)
Definition box (s : server) : list mailboxMessage := default [] (s.(reg).(Mailbox) !! k).

(** What an operation posts to [k], and what it hands out. *)
Definition posted (r : Request) (o : op) (s : server) : list mailboxMessage :=
  match o with
  | Mail who (inl b) =>
      match (handleMailbox cfg r who (inl b) s).2 with
      | inl (inr _) => if bool_decide (mail_target b = k) then [the_mail r b] else []
      | _ => []
      end
  | _ => []
  end.

Definition delivered (r : Request) (o : op) (s : server) : list mailboxMessage :=
  match o with
  | Mail who b =>
      match (handleMailbox cfg r who b s).2 with
      | inl (inl ms) => if bool_decide (sanitize who = k) then ms else []
      | _ => []
      end
  | _ => []
  end.

(** A sequence of operations: the state, what was posted, what was handed
    out, and whether something was dropped. *)
Fixpoint mail_log (ops : list (Request * op)) (s : server) : server * list mailboxMessage * list mailboxMessage * bool :=
  match ops with
  | [] => (s, [], [], false)
  | (r, o) :: ops =>
      let p := posted r o s in
      let d := delivered r o s in
      let over := cfg.(maxMailbox) <? Z.of_nat (length (box s) + length p) in
      let '(s', ps, ds, overs) := mail_log ops (exec cfg r o s) in
      (s', (p ++ ps)%list, (d ++ ds)%list, over || overs)
  end.

Lemma newest_sublist m l : newest m l `sublist_of` l.
Proof. unfold newest. destruct (_ <? _); [apply sublist_drop|done]. Qed.

Lemma newest_length m l : 0 ≤ m → Z.of_nat (length (newest m l)) ≤ m.
Proof. unfold newest. intros. destruct (Z.ltb_spec m (Z.of_nat (length l))); [rewrite length_drop|]; lia. Qed.

Lemma newest_small m l : Z.of_nat (length l) ≤ m → newest m l = l.
Proof. unfold newest. intros. by rewrite (proj2 (Z.ltb_ge _ _)). Qed.

(** Pulling. *)
Lemma pull_spec r who s : let s' := (pull_mail r who s).1 in
  match (pull_mail r who s).2 with
  | inl ms => sanitize who ≠ "" ∧ ms = default [] (s.(reg).(Mailbox) !! sanitize who) ∧ s'.(reg).(Mailbox) = delete (sanitize who) s.(reg).(Mailbox)
  | inr _ => s' = s
  end.
Proof.
  unfold pull_mail, persist, on_reg, fail_if, get, modify, mret, SM_ret, mbind, SM_bind. destruct (empty_str (sanitize who)) eqn:Hk; [done|].
  apply empty_str_false in Hk. cbn. destruct (bool_decide _), (rq_saved r); cbn; auto.
Qed.

(** Posting. *)
Lemma post_spec r b s : let s' := (post_mail cfg r b s).1 in
  match (post_mail cfg r b s).2 with
  | inl _ => ∃ m, b = inl m ∧ s'.(reg).(Mailbox) =
      <[mail_target m := newest cfg.(maxMailbox) (default [] (s.(reg).(Mailbox) !! mail_target m) ++ [the_mail r m])%list]> s.(reg).(Mailbox)
  | inr _ => s' = s
  end.
Proof.
  unfold post_mail, need_secret, persist, on_reg, fail_if, lift, get, modify, mret, SM_ret, mbind, SM_bind. destruct (negb _); [done|].
  destruct b as [m|e]; [|done]. cbn. destruct (empty_str (mail_target m)); [done|]. cbn. destruct (rq_saved r); cbn; eauto.
Qed.

Lemma mail_step r o s : o ≠ Reload → 0 ≤ cfg.(maxMailbox) →
  let s' := exec cfg r o s in
  (delivered r o s ++ box s')%list `sublist_of` (box s ++ posted r o s)%list ∧
  (Z.of_nat (length (box s) + length (posted r o s)) ≤ cfg.(maxMailbox) → (delivered r o s ++ box s' = box s ++ posted r o s)%list) ∧
  (Z.of_nat (length (box s)) ≤ cfg.(maxMailbox) → Z.of_nat (length (box s')) ≤ cfg.(maxMailbox)).
Proof.
  intros Ho Hmax s'. subst s'. assert ((∃ who b, o = Mail who b) ∨ ¬ ∃ who b, o = Mail who b) as [(who & b & ->)|Hn] by (destruct o; eauto; right; naive_solver).
  2:{ assert (box (exec cfg r o s) = box s) as Hbox.
      { unfold box. destruct (exec_mail_frame cfg r o s) as [-> _]; [|done|done]. intros who b ->. apply Hn. eauto. }
      assert (posted r o s = [] ∧ delivered r o s = []) as [-> ->] by (destruct o; try done; destruct Hn; eauto).
      rewrite Hbox, app_nil_r. done. }
  clear Ho. unfold posted, delivered. cbn [exec]. unfold handleMailbox.
  destruct (bool_decide (rq_Method r = "GET")); [|destruct (bool_decide (rq_Method r = "POST"))].
  - pose proof (pull_spec r who s) as Hp. unfold mbind, SM_bind. destruct (pull_mail r who s) as [s' [ms|e]]; cbn in Hp |- *.
    + destruct Hp as (_ & -> & Hb). assert ((match b with inl _ => [] | inr _ => [] end : list mailboxMessage) = []) as -> by (by destruct b).
      unfold box. rewrite Hb, app_nil_r. case_bool_decide as Hk; subst.
      * rewrite lookup_delete_eq, app_nil_r. cbn. split_and!; [done|done|lia].
      * by rewrite lookup_delete_ne.
    + subst. destruct b; by rewrite app_nil_r.
  - pose proof (post_spec r b s) as Hp. unfold mbind, SM_bind. destruct b as [m|e].
    + destruct (post_mail cfg r (inl m) s) as [s' [a|e]]; cbn in Hp |- *.
      * destruct Hp as (m' & [= <-] & Hb). unfold box. rewrite Hb. case_bool_decide as Hk; subst.
        -- rewrite lookup_insert_eq. cbn. split_and!; [apply newest_sublist| |intros _; by apply newest_length].
           intros Hl. apply newest_small. by rewrite length_app.
        -- rewrite lookup_insert_ne, app_nil_r by done. done.
      * subst. by rewrite app_nil_r.
    + destruct (post_mail cfg r (inr e) s) as [s' [a|e']]; cbn in Hp |- *; [by destruct Hp as (m & ? & _)|]. subst. by rewrite app_nil_r.
  - cbn. destruct b; by rewrite app_nil_r.
Qed.

Lemma mail_log_spec ops s : Forall (λ ro, ro.2 ≠ Reload) ops → 0 ≤ cfg.(maxMailbox) →
  let '(s', ps, ds, over) := mail_log ops s in
  (ds ++ box s')%list `sublist_of` (box s ++ ps)%list ∧ (over = false → (ds ++ box s' = box s ++ ps)%list) ∧
  (Z.of_nat (length (box s)) ≤ cfg.(maxMailbox) → Z.of_nat (length (box s')) ≤ cfg.(maxMailbox)).
Proof.
  intros Hops Hmax. revert s. induction Hops as [|[r o] ops Ho Hops IH]; intros s; cbn [mail_log]; [by rewrite app_nil_r|].
  specialize (IH (exec cfg r o s)). destruct (mail_log ops _) as [[[s' ps] ds] overs]. destruct IH as (I1 & I2 & I3).
  destruct (mail_step r o s Ho Hmax) as (S1 & S2 & S3). split_and!; [| |auto].
  - rewrite <- app_assoc. trans (delivered r o s ++ (box (exec cfg r o s) ++ ps))%list; [by apply sublist_app|].
    rewrite !app_assoc. by apply sublist_app.
  - intros [Hov Hovs]%orb_false_iff. apply Z.ltb_ge in Hov. rewrite <- app_assoc, (I2 Hovs), !app_assoc. by rewrite (S2 Hov).
Qed.

End mail.
