(* ===== verification/RegistryPayFacts.v ===== *)
(** Early-access payments: amounts, what a verified payment proves, and what
    transfers are asked for over any sequence of complete requests. *)
From stdpp Require Import base strings list gmap sorting pretty.
From Stdlib Require Import Ascii.
From S2P Require Import Prelude GoStd Types TxModel GoText Registry RegistryPay.
From S2P Require Import RewardKeeper RegistryFacts RegistryFrame.

#[local] Open Scope string_scope.
#[local] Open Scope Z_scope.

(* ------------------------------------------------------------------ *)
(** * Numbers as text *)

Lemma digit_val_10 c : digit_val 10 c = if (48 <=? code c) && (code c <=? 57) then Some (code c - 48) else None.
Proof. destruct c as [[] [] [] [] [] [] [] []]; reflexivity. Qed.

Lemma big_digits_10 s acc : big_digits 10 s acc = digits s acc.
Proof.
  revert acc. induction s as [|c s IH]; intros acc; [done|]. cbn. rewrite digit_val_10. destruct (_ && _); [|done].
  by rewrite IH, Z.mul_comm.
Qed.

Lemma digits_fmt_d n : 0 ≤ n → digits (fmt_d n) 0 = Some n ∧ fmt_d n ≠ "".
Proof.
  intros Hn. unfold fmt_d. destruct n as [|p|p]; [done| |lia].
  change (pretty (Z.pos p)) with (pretty (N.pos p)). unfold pretty, pretty_N. rewrite decide_False by done.
  split; [by rewrite digits_pretty_go|]. rewrite pretty_N_go_step by done. intros He.
  assert (∀ x s, pretty_N_go x s ≠ "" ∨ s = "") as Hgo.
  { intros x. induction (N.lt_wf_0 x) as [x _ IH]. intros s. destruct (decide (0 < x)%N) as [Hx|Hx].
    - rewrite pretty_N_go_step by done. left. destruct (IH (x `div` 10)%N (N.div_lt x 10 Hx eq_refl) (String (pretty_N_char (x `mod` 10)) s)); done.
    - assert (x = 0%N) as -> by lia. destruct s; [by right|by left]. }
  by destruct (Hgo (N.pos p `div` 10)%N (String (pretty_N_char (N.pos p `mod` 10)) "")).
Qed.

Lemma digits_sforall s acc n : digits s acc = Some n → sforall is_digit s = true.
Proof. revert acc. induction s as [|c s IH]; intros acc; [done|]. cbn. unfold is_digit. destruct (_ && _); [|done]. apply IH. Qed.

Lemma fmt_d_digits n : 0 ≤ n → sforall is_digit (fmt_d n) = true.
Proof. intros Hn. destruct (digits_fmt_d n Hn) as [Hd _]. by eapply digits_sforall. Qed.

Lemma sforall_impl f g s : (∀ c, f c = true → g c = true) → sforall f s = true → sforall g s = true.
Proof. intros Hfg. induction s as [|c s IH]; [done|]. cbn. intros [Hc Hs]%andb_prop. by rewrite (Hfg _ Hc), IH. Qed.

Lemma sforall_app f s t : sforall f (s +:+ t) = sforall f s && sforall f t.
Proof. induction s as [|c s IH]; [done|]. change (String c s +:+ t) with (String c (s +:+ t)). cbn. by rewrite IH, andb_assoc. Qed.

(** Digits read back, signs aside. *)
Lemma SetString_digits s n : s ≠ "" → digits s 0 = Some n → SetString s 10 = Some n.
Proof.
  intros Hs Hd. destruct s as [|c s]; [done|]. unfold SetString. pose proof (digits_sforall _ _ _ Hd) as Hf. cbn in Hf.
  apply andb_prop in Hf as [Hc _]. unfold is_digit in Hc. apply andb_prop in Hc as [H1 H2].
  destruct (Z.eqb_spec (code c) 45); [lia|]. destruct (Z.eqb_spec (code c) 43); [lia|]. by rewrite big_digits_10, Hd.
Qed.

Lemma SetString_fmt_d n : 0 ≤ n → SetString (fmt_d n) 10 = Some n.
Proof. intros Hn. destruct (digits_fmt_d n Hn). by apply SetString_digits. Qed.

(** Text without white space is trimmed to itself. *)
Lemma TrimRight_id s : sforall (λ c, negb (is_space c)) s = true → TrimRight s = s.
Proof.
  induction s as [|c s IH]; [done|]. cbn. intros [Hc Hs]%andb_prop. rewrite (IH Hs). apply negb_true_iff in Hc. rewrite Hc.
  by destruct s.
Qed.

Lemma TrimSpace_id s : sforall (λ c, negb (is_space c)) s = true → TrimSpace s = s.
Proof.
  intros Hs. unfold TrimSpace. assert (TrimLeft s = s) as ->; [|by apply TrimRight_id].
  destruct s as [|c s]; [done|]. cbn in *. apply andb_prop in Hs as [Hc _]. apply negb_true_iff in Hc. by rewrite Hc.
Qed.

Lemma Split_at a b sep : sforall (λ c, negb (bool_decide (c = sep))) a = true → Split (a +:+ String sep b) sep = a :: Split b sep.
Proof.
  induction a as [|c a IH]; intros Ha.
  - change ("" +:+ String sep b) with (String sep b). cbn. by rewrite bool_decide_eq_true_2.
  - change (String c a +:+ String sep b) with (String c (a +:+ String sep b)). cbn in Ha |- *. apply andb_prop in Ha as [Hc Ha].
    destruct (bool_decide (c = sep)); [done|]. by rewrite IH.
Qed.

(* ------------------------------------------------------------------ *)
(** * Amounts *)

(** How an amount of cents is written: dollars, a point, two digits. *)
Definition two_digits (z : Z) : string := String (chr (48 + z / 10)) (String (chr (48 + z mod 10)) "").
Definition show_cents (c : Z) : string := fmt_d (c / 100) +:+ String "."%char (two_digits (c mod 100)).

Lemma two_digits_spec z : 0 ≤ z < 100 → digits (two_digits z) 0 = Some z.
Proof.
  intros Hz. assert (Forall (λ n, digits (two_digits (Z.of_nat n)) 0 = Some (Z.of_nat n)) (seq 0 100)) as H by (apply (bool_decide_unpack _); vm_compute; exact I).
  rewrite Forall_forall in H. specialize (H (Z.to_nat z)). rewrite Z2Nat.id in H by lia. apply H, elem_of_seq. lia.
Qed.

Lemma digit_not_space c : is_digit c = true → negb (is_space c) = true.
Proof. destruct c as [[] [] [] [] [] [] [] []]; done. Qed.

Lemma digit_not_dot c : is_digit c = true → negb (bool_decide (c = "."%char)) = true.
Proof. destruct c as [[] [] [] [] [] [] [] []]; done. Qed.

(** What is written so is read back. *)
Lemma parse_show_cents c : in_u64 c → c ≠ 0 → parseUSDCents (show_cents c) = inl c.
Proof.
  intros Hc Hc0. unfold in_u64 in Hc. assert (0 ≤ c / 100) as Hq by (apply Z.div_pos; lia). pose proof (Z.mod_pos_bound c 100 ltac:(lia)) as Hm.
  pose proof (two_digits_spec _ Hm) as H2. pose proof (fmt_d_digits _ Hq) as Hd. destruct (digits_fmt_d _ Hq) as [Hdig Hne].
  pose proof (digits_sforall _ _ _ H2) as Hd2.
  assert (TrimSpace (TrimPrefix (show_cents c) "$") = show_cents c) as Htrim.
  { assert (TrimPrefix (show_cents c) "$" = show_cents c) as ->.
    { unfold show_cents. destruct (fmt_d (c / 100)) as [|d s]; [done|]. cbn in Hd. apply andb_prop in Hd as [Hd _].
      unfold TrimPrefix, HasPrefix. change (String d s +:+ ?t) with (String d (s +:+ t)). cbn [String.prefix].
      destruct (ascii_dec "$" d) as [<-|]; [done|reflexivity]. }
    apply TrimSpace_id. unfold show_cents. rewrite sforall_app. cbn [sforall].
    rewrite (sforall_impl _ _ _ digit_not_space Hd), (sforall_impl _ _ _ digit_not_space Hd2). reflexivity. }
  unfold parseUSDCents. rewrite Htrim. assert (empty_str (show_cents c) = false) as ->.
  { apply empty_str_false. unfold show_cents. by destruct (fmt_d (c / 100)). }
  assert (Split (show_cents c) "."%char = [fmt_d (c / 100); two_digits (c mod 100)]) as ->.
  { unfold show_cents. rewrite Split_at by exact (sforall_impl _ _ _ digit_not_dot Hd).
    by rewrite Split_none by exact (sforall_impl _ _ _ digit_not_dot Hd2). }
  unfold defaultString. rewrite (proj2 (empty_str_false _) Hne), (SetString_digits (fmt_d (c / 100)) _ Hne Hdig), (proj2 (Z.ltb_ge _ _) Hq).
  change (pad_cents (two_digits (c mod 100)) 2) with (two_digits (c mod 100)).
  rewrite (SetString_digits (two_digits (c mod 100)) _ ltac:(done) H2).
  assert (c / 100 * 100 + c mod 100 = c) as -> by (pose proof (Z.div_mod c 100 ltac:(lia)); lia).
  rewrite bool_decide_eq_true_2 by done. cbn. by rewrite (proj2 (Z.eqb_neq _ _) Hc0).
Qed.

(** Every amount that is read fits 64 bits and is positive. *)
Lemma parse_range v c : parseUSDCents v = inl c → 0 < c ≤ MaxUint64.
Proof.
  unfold parseUSDCents. repeat (case_match; try done). all: intros [= <-].
  all: match goal with H : (negb (bool_decide (in_u64 _)) || _) = false |- _ =>
         apply orb_false_iff in H as [Hb Hz]; apply negb_false_iff, bool_decide_eq_true in Hb as [? ?]; apply Z.eqb_neq in Hz; lia end.
Qed.

(** The amount quoted is the exact quotient, rounded down. *)
Lemma quote_spec usd asset t : 0 ≤ usd → quotePaymentAmount usd asset = inl t →
  ∃ price amount, parseUSDCents (defaultString asset.(as_USDPrice) "1.00") = inl price ∧ 0 < price ∧ SetString t 10 = Some amount ∧
    amount * price ≤ usd * big_Exp 10 asset.(as_Decimals) < (amount + 1) * price.
Proof.
  intros Hu. unfold quotePaymentAmount. destruct (parseUSDCents _) as [price|e] eqn:Hp; [|done]. destruct (Z.eqb_spec price 0); [done|]. intros [= <-].
  assert (0 < price) as Hpos by (apply parse_range in Hp; lia).
  assert (0 ≤ big_Exp 10 (as_Decimals asset)) as He by (unfold big_Exp; case_match; [lia|apply Z.pow_nonneg; lia]).
  set (m := usd * big_Exp 10 (as_Decimals asset)) in *. assert (0 ≤ m) by (unfold m; lia).
  exists price, (m / price). split_and!; [done|done| | |].
  - apply SetString_fmt_d, Z.div_pos; lia.
  - rewrite Z.mul_comm. apply Z.mul_div_le. lia.
  - rewrite Z.mul_comm. replace (m / price + 1) with (Z.succ (m / price)) by lia. apply Z.mul_succ_div_gt. lia.
Qed.

(* ------------------------------------------------------------------ *)
(** * What a verified payment is *)

(** A transfer of the token [asset] to [payee] in a receipt's log. *)
Definition pays_token (asset payee : string) (expected : Z) (log : any) : Prop :=
  ∃ p l q t0 t1 t2 ts amount, log = Object p l ∧ sameAddress (stringValue (field l "address")) asset = true ∧
    field l "topics" = Array q (t0 :: t1 :: t2 :: ts) ∧ EqualFold (stringValue t0) transfer_topic = true ∧
    topicAddressMatches (stringValue t2) payee = true ∧ parseHexBig (stringValue (field l "data")) = inl amount ∧ expected ≤ amount.

(** The chain has a successful transaction [h] that moves at least the
    intent's amount to the intent's address: in the chain's own coin, or as
    the asset's token. *)
Definition paid_by (rpc : string → string → string → res any) (h : string) (i : earlyAccessPaymentIntent) (a : earlyAccessAsset) : Prop :=
  a.(as_RPCURL) ≠ "" ∧ ∃ p receipt expected,
    rpc a.(as_RPCURL) "eth_getTransactionReceipt" h = inl (Object p receipt) ∧ hexBool (field receipt "status") = true ∧
    SetString i.(in_PaymentAmount) 10 = Some expected ∧
    if a.(as_Native) then
      ∃ q tx value, rpc a.(as_RPCURL) "eth_getTransactionByHash" h = inl (Object q tx) ∧
        sameAddress (stringValue (field tx "to")) i.(in_PaymentAddress) = true ∧
        parseHexBig (stringValue (field tx "value")) = inl value ∧ expected ≤ value
    else a.(as_Address) ≠ "" ∧ ∃ q logs, field receipt "logs" = Array q logs ∧ Exists (pays_token a.(as_Address) i.(in_PaymentAddress) expected) logs.

Lemma paying_log_spec asset payee expected log : paying_log asset payee expected log = true ↔ pays_token asset payee expected log.
Proof.
  unfold paying_log, pays_token. split.
  - destruct log as [| | |p l|]; try done. destruct (field l "topics") as [| | | |q [|t0 [|t1 [|t2 ts]]]] eqn:Ht; rewrite ?andb_false_r; try done.
    destruct (parseHexBig _) as [amount|e] eqn:Ha; rewrite ?andb_false_r; [|done].
    intros [H1 [[H2 H3]%andb_prop H4%Z.leb_le]%andb_prop]%andb_prop. exists p, l, q, t0, t1, t2, ts, amount. split_and!; done.
  - intros (p & l & q & t0 & t1 & t2 & ts & amount & -> & -> & -> & -> & -> & -> & Hle). cbn. by apply Z.leb_le.
Qed.

Lemma existsb_Exists {A} (f : A → bool) (P : A → Prop) l : (∀ x, f x = true ↔ P x) → existsb f l = true ↔ Exists P l.
Proof.
  intros Hf. rewrite existsb_exists, Exists_exists. setoid_rewrite Hf. split; intros (x & Hx & HP); exists x; split; try done; by apply list_elem_of_In.
Qed.

Lemma verifyEVMPayment_spec rpc h i a : verifyEVMPayment rpc h i a = inl tt ↔ paid_by rpc h i a.
Proof.
  unfold verifyEVMPayment, paid_by. split.
  - destruct (empty_str _) eqn:Hu; [done|]. apply empty_str_false in Hu. destruct (rpc _ "eth_getTransactionReceipt" h) as [[| | |p receipt|]|] eqn:Hr; try done.
    destruct (hexBool _) eqn:Hs; [|done]. destruct (SetString _ _) as [expected|] eqn:He; [|done]. cbn [negb]. intros H. split; [done|].
    exists p, receipt, expected. split_and!; [done..|]. destruct (as_Native a).
    + destruct (rpc _ "eth_getTransactionByHash" h) as [[| | |q tx|]|] eqn:Ht; try done. destruct (sameAddress _ _) eqn:Hto; [|done].
      destruct (parseHexBig _) as [value|] eqn:Hv; [|done]. cbn in H. destruct (Z.ltb_spec value expected); [done|]. eauto 10.
    + destruct (empty_str (as_Address a)) eqn:Ha; [done|]. apply empty_str_false in Ha. destruct (field receipt "logs") as [| | | |q logs]; try done.
      destruct (existsb _ _) eqn:Hx; [|done]. split; [done|]. exists q, logs. split; [done|]. by apply (existsb_Exists _ _ _ (paying_log_spec _ _ _)).
  - intros (Hu & p & receipt & expected & -> & -> & -> & H). rewrite (proj2 (empty_str_false _) Hu). cbn [negb]. destruct (as_Native a).
    + destruct H as (q & tx & value & -> & -> & -> & Hle). cbn. by rewrite (proj2 (Z.ltb_ge _ _) Hle).
    + destruct H as (Ha & q & logs & -> & Hx). rewrite (proj2 (empty_str_false _) Ha).
      by rewrite (proj2 (existsb_Exists _ _ _ (paying_log_spec _ _ _)) Hx).
Qed.

(** What an intent promises: a tenth of a SYN per cent, at least 20, for an
    amount that is the quotient of value and price, rounded down. *)
Definition priced (i : earlyAccessPaymentIntent) : Prop :=
  i.(in_SynAmount) = i.(in_USDValueCents) / 10 ∧ 20 ≤ i.(in_SynAmount) ∧
  ∃ price amount, 0 < price ∧ SetString i.(in_PaymentAmount) 10 = Some amount ∧
    amount * price ≤ i.(in_USDValueCents) * big_Exp 10 i.(in_PaymentDecimals) < (amount + 1) * price.

(** Intents that differ in their progress only. *)
Definition same_terms (i j : earlyAccessPaymentIntent) : Prop :=
  i.(in_ID) = j.(in_ID) ∧ i.(in_SynthosAddress) = j.(in_SynthosAddress) ∧ i.(in_AssetSymbol) = j.(in_AssetSymbol) ∧
  i.(in_PaymentAddress) = j.(in_PaymentAddress) ∧ i.(in_PaymentAmount) = j.(in_PaymentAmount) ∧
  i.(in_PaymentDecimals) = j.(in_PaymentDecimals) ∧ i.(in_USDValueCents) = j.(in_USDValueCents) ∧ i.(in_SynAmount) = j.(in_SynAmount).

Lemma same_terms_priced i j : same_terms i j → priced i → priced j.
Proof. unfold priced. intros (_ & _ & _ & _ & E1 & E2 & E3 & E4). by rewrite E1, E2, E3, E4. Qed.

Lemma same_terms_paid rpc h i j a : same_terms i j → paid_by rpc h i a → paid_by rpc h j a.
Proof. unfold paid_by. intros (_ & _ & _ & E1 & E2 & _). by rewrite E1, E2. Qed.

(* ------------------------------------------------------------------ *)
(** * Verifying a payment *)

Definition intents (s : server) : gmap string earlyAccessPaymentIntent := s.(reg).(EarlyAccessPayments).
Definition hashes (s : server) : gmap string string := s.(reg).(ConsumedPaymentTxHashes).

Section verify.
Context `{E : Ed25519} (r : Request) (Hsaved : r.(rq_saved) = true).

(** The first step changes nothing, or reserves the hash. *)
Lemma begin_spec id b s :
  match begin_verify r id b s with
  | (s', inl (inr (i, h))) => intents s !! id = Some i ∧ i.(in_Status) ≠ "syn_allocated" ∧ (hashes s !! h = None ∨ hashes s !! h = Some id) ∧
      intents s' = intents s ∧ hashes s' = <[h := id]> (hashes s) ∧ s'.(state_file) = Some s'.(reg)
  | (s', inl (inl i)) => s' = s ∧ intents s !! id = Some i ∧ i.(in_Status) = "syn_allocated"
  | (s', inr _) => s' = s
  end.
Proof.
  unfold begin_verify, reservePaymentTxHash, persist, on_reg, fail_if, lift, get, modify, mret, SM_ret, mbind, SM_bind, intents, hashes.
  destruct b as [b|e]; [|done]. cbn. destruct (isHexHash _); [|done]. cbn. destruct (_ !! id) as [i|] eqn:Hi; [|done]. rewrite Hsaved.
  case_bool_decide as Hst; [done|]. cbn. set (h := ToLower (TrimSpace b)).
  destruct (ConsumedPaymentTxHashes (reg s) !! h) as [owner|] eqn:Hh; cbn; [case_bool_decide as Ho; cbn; [|done]; subst|]; split_and!; auto.
Qed.

(** The second one, with the hash still reserved. *)
Lemma settle_spec assets rpc w id i h s : hashes s !! h = Some id → in_ID i = id →
  let '(s', out) := settle r assets rpc w id i h s in
  s'.(state_file) = Some s'.(reg) ∧
  match out with
  | inl (Verified i' answer) =>
      intents s' = <[id := i']> (intents s) ∧ hashes s' = hashes s ∧ same_terms i i' ∧ i'.(in_TxHash) = h ∧
      (∀ txID, answer = inl txID → txID ≠ "" → i'.(in_Status) = "syn_allocated" ∧ i'.(in_SynthosTxID) = txID) ∧ (∃ i0, allocateNativeSYN w i0 = answer) ∧
      ∃ asset, earlyAccessAssetBySymbol assets i.(in_AssetSymbol) = Some asset ∧ paid_by rpc h i asset
  | _ => (hashes s' = hashes s ∨ hashes s' = delete h (hashes s)) ∧
      (intents s' = intents s ∨ ∃ i', same_terms i i' ∧ intents s' = <[id := i']> (intents s))
  end.
Proof.
  intros Hh <-. unfold settle. generalize (allocateNativeSYN w). intros alloc. cbv zeta. unfold hashes in *.
  assert (∃ s', releasePaymentTxHash (rq_saved r) h (in_ID i) s = (s', inl tt) ∧ s'.(state_file) = Some s'.(reg) ∧
    s'.(reg) = s.(reg) <| ConsumedPaymentTxHashes := delete h s.(reg).(ConsumedPaymentTxHashes) |>) as (s1 & Hrel & Hf1 & Hs1).
  { rewrite Hsaved. unfold releasePaymentTxHash, persist, on_reg, get, modify, mret, SM_ret, mbind, SM_bind. cbn. rewrite Hh. cbn.
    rewrite bool_decide_eq_true_2 by done. cbn. eauto. }
  assert (∀ i' s0, ∃ s', savePaymentIntent (rq_saved r) i' s0 = (s', inl tt) ∧ s'.(state_file) = Some s'.(reg) ∧
    s'.(reg) = s0.(reg) <| EarlyAccessPayments := <[in_ID i' := i']> s0.(reg).(EarlyAccessPayments) |>) as Hsave.
  { intros. rewrite Hsaved. unfold savePaymentIntent, persist, on_reg, modify, mbind, SM_bind. eauto. }
  unfold intents. destruct (earlyAccessAssetBySymbol _ _) as [asset|] eqn:Ha; unfold mbind, SM_bind.
  2:{ rewrite Hrel. cbn. split; [done|]. rewrite Hs1. split; [by right|by left]. }
  destruct (verifyEVMPayment _ _ _ _) as [[]|e] eqn:Hv.
  - apply verifyEVMPayment_spec in Hv. destruct (alloc _) as [txID|e] eqn:Hal.
    all: match goal with |- context [savePaymentIntent _ ?i' ?s0] => destruct (Hsave i' s0) as (s2 & -> & Hf2 & Hs2) end; unfold mret, SM_ret; cbv beta iota; (split; [exact Hf2|]); rewrite Hs2.
    + destruct (empty_str txID) eqn:Ht.
      * apply empty_str_true in Ht. subst. do 4 (split; [by repeat split|]). split; [by intros txID' [= <-] ?|]. split; [eexists; exact Hal|exists asset; by split].
      * do 4 (split; [by repeat split|]). split; [by intros txID' [= <-] _|]. split; [eexists; exact Hal|exists asset; by split].
    + do 4 (split; [by repeat split|]). split; [done|]. split; [eexists; exact Hal|exists asset; by split].
  - rewrite Hrel. match goal with |- context [savePaymentIntent _ ?i' s1] => destruct (Hsave i' s1) as (s2 & -> & Hf2 & Hs2) end.
    cbn. split; [done|]. rewrite Hs2, Hs1. split; [by right|right]. eexists. split; [|done]. done.
Qed.

End verify.

(* ------------------------------------------------------------------ *)
(** * Allocations over a run *)

(** A transfer the registry asked for: the intent as it was saved, what its
    payment was checked against, and what came back. An error may be a refusal
    or the lost answer of a chain that accepted. *)
Record allocation : Type := mkAllocation {
  al_intent : earlyAccessPaymentIntent;
  al_assets : list earlyAccessAsset;
  al_rpc : string → string → string → res any;
  al_answer : res string
}.
Definition al_ID (a : allocation) : string := a.(al_intent).(in_ID).
Definition al_TxHash (a : allocation) : string := a.(al_intent).(in_TxHash).
Definition accepted (a : allocation) : Prop := ∃ txID, a.(al_answer) = inl txID.

(** The payment an allocation rests on, and its price. *)
Definition backed (a : allocation) : Prop :=
  priced a.(al_intent) ∧
  ∃ asset, earlyAccessAssetBySymbol a.(al_assets) a.(al_intent).(in_AssetSymbol) = Some asset ∧ paid_by a.(al_rpc) (al_TxHash a) a.(al_intent) asset.

Section run.
Context `{E : Ed25519} (cfg : config).

Definition asked_for (r : Request) (o : op) (s : server) : list allocation :=
  match o with
  | VerifyIntent assets rpc w id b =>
      match (verifyPaymentIntent r assets rpc w id b s).2 with
      | inl (inr (Verified i answer)) => [mkAllocation i assets rpc answer]
      | _ => []
      end
  | _ => []
  end.

(** What is asked of the surroundings of the sale: its writes reach the disk,
    random names of intents do not repeat, and the chain names the transfers
    it accepts. *)
Definition orderly (r : Request) (o : op) (s : server) : Prop :=
  match o with
  | NewIntent _ _ _ => r.(rq_saved) = true ∧ intents s !! ("syn-presale-" +:+ r.(rq_random)) = None
  | VerifyIntent _ _ w _ _ => r.(rq_saved) = true ∧ ∀ i txID, allocateNativeSYN w i = inl txID → txID ≠ ""
  | _ => True
  end.

Inductive sale_run : server → list allocation → Prop :=
  | sale_start : sale_run start []
  | sale_op s log r o : sale_run s log → orderly r o s → sale_run (exec cfg r o s) (log ++ asked_for r o s)%list.

Record sale_ok (s : server) (log : list allocation) : Prop := {
  so_synced : synced payments s;
  so_ids : ∀ id i, intents s !! id = Some i → i.(in_ID) = id ∧ priced i;
  so_backed : ∀ a, a ∈ log → backed a;
  so_log : ∀ a, a ∈ log → accepted a → intents s !! al_ID a = Some a.(al_intent) ∧ a.(al_intent).(in_Status) = "syn_allocated" ∧
    hashes s !! al_TxHash a = Some (al_ID a);
  so_last : ∀ before a after b, log = (before ++ a :: after)%list → accepted a → b ∈ after → al_ID b ≠ al_ID a ∧ al_TxHash b ≠ al_TxHash a
}.

Lemma sale_ok_frame s s' log : frame payments s s' → sale_ok s log → sale_ok s' log.
Proof.
  intros Hf [H1 H2 H3 H4 H5]. pose proof (frame_synced _ _ _ Hf H1) as H1'. destruct Hf as [Hp _]. unfold payments in Hp.
  assert (intents s' = intents s ∧ hashes s' = hashes s) as [Hi Hh] by (unfold intents, hashes; by simplify_eq).
  split; rewrite ?Hi, ?Hh; done.
Qed.

Lemma sale_ok_load s log : sale_ok s log → sale_ok (load s) log.
Proof.
  intros [H1 H2 H3 H4 H5]. destruct (synced_load _ _ H1) as [Hp H1']. unfold payments in Hp.
  assert (intents (load s) = intents s ∧ hashes (load s) = hashes s) as [Hi Hh] by (unfold intents, hashes; by simplify_eq).
  split; rewrite ?Hi, ?Hh; done.
Qed.

(** A change of one intent that is not allocated yet, and of one hash that is
    not another's. *)
Lemma sale_ok_step s s' log id i i' h :
  sale_ok s log → synced payments s' → intents s !! id = Some i → i.(in_Status) ≠ "syn_allocated" →
  (hashes s !! h = None ∨ hashes s !! h = Some id) → (∀ h', h' ≠ h → hashes s' !! h' = hashes s !! h') →
  same_terms i i' → intents s' = <[id := i']> (intents s) → sale_ok s' log.
Proof.
  intros [H1 H2 Hb H3 H4] Hs Hi Hst Hh Hh' Ht Hi'. assert (∀ a, a ∈ log → accepted a → al_ID a ≠ id) as Hne.
  { intros a Ha Hac <-. destruct (H3 a Ha Hac) as (Ha' & Hast & _). simplify_eq. }
  split; [done| |done| |done].
  - intros id' j. rewrite Hi', lookup_insert_Some. intros [[<- <-]|[_ Hj]]; [|by apply H2]. destruct (H2 id i Hi) as [<- Hp].
    split; [symmetry; apply Ht|by eapply same_terms_priced].
  - intros a Ha Hac. destruct (H3 a Ha Hac) as (Ha1 & Ha2 & Ha3). specialize (Hne a Ha Hac). split_and!; [|done|].
    + rewrite Hi', lookup_insert_ne; congruence.
    + rewrite Hh'; [done|]. intros <-. destruct Hh; congruence.
Qed.

(** One more transfer, for an intent and a hash behind which no transfer was
    accepted yet. *)
Lemma sale_ok_add s log a :
  sale_ok s log → backed a →
  (accepted a → a.(al_intent).(in_Status) = "syn_allocated" ∧ intents s !! al_ID a = Some a.(al_intent) ∧ hashes s !! al_TxHash a = Some (al_ID a)) →
  (∀ b, b ∈ log → accepted b → al_ID a ≠ al_ID b ∧ al_TxHash a ≠ al_TxHash b) → sale_ok s (log ++ [a])%list.
Proof.
  intros [H1 H2 Hb H3 H4] Hba Hst Hne. split; [done..| | |].
  - intros b [Hbl|Hbl]%elem_of_app; [by apply Hb|]. by apply list_elem_of_singleton in Hbl as ->.
  - intros b [Hbl|Hbl]%elem_of_app; [by apply H3|]. apply list_elem_of_singleton in Hbl as ->. intros Hac. by destruct (Hst Hac) as (? & ? & ?).
  - intros before x after b Hlog Hac Hin. destruct after as [|y l _] using rev_ind; [by apply elem_of_nil in Hin|].
    rewrite app_comm_cons, app_assoc in Hlog. apply app_inj_tail in Hlog as [-> <-].
    apply elem_of_app in Hin as [Hin|Hin]; [by eapply H4|]. apply list_elem_of_singleton in Hin as ->.
    apply Hne; [|done]. rewrite elem_of_app, elem_of_cons. auto.
Qed.

Lemma sale_ok_verify r assets rpc w id b s log :
  sale_ok s log → orderly r (VerifyIntent assets rpc w id b) s →
  sale_ok (verifyPaymentIntent r assets rpc w id b s).1 (log ++ asked_for r (VerifyIntent assets rpc w id b) s)%list.
Proof.
  intros Hok [Hsaved Hid]. unfold asked_for, verifyPaymentIntent, mbind, SM_bind. pose proof (begin_spec r Hsaved id b s) as Hb.
  destruct (begin_verify r id b s) as [s1 [[i|[i h]]|e]]; [destruct Hb as [-> _]; by rewrite app_nil_r| |subst; by rewrite app_nil_r].
  destruct Hb as (Hi & Hst & Hh & Hi1 & Hh1 & _). destruct (so_ids _ _ Hok id i Hi) as [Hin Hpr].
  pose proof (settle_spec r Hsaved assets rpc w id i h s1 ltac:(rewrite Hh1; apply lookup_insert_eq) Hin) as Hs.
  destruct (settle r assets rpc w id i h s1) as [s2 out]. destruct Hs as [Hf Hs]. cbn [fst snd].
  assert (synced payments s2) as Hsync by (unfold synced; by rewrite Hf).
  assert (∀ h', h' ≠ h → hashes s1 !! h' = hashes s !! h') as Hh1' by (intros h' Hne; by rewrite Hh1, lookup_insert_ne).
  assert (∀ i', same_terms i i' → intents s2 = <[id := i']> (intents s) → (∀ h', h' ≠ h → hashes s2 !! h' = hashes s1 !! h') → sale_ok s2 log) as Hstep.
  { intros i' Ht Hi2 Hh2. eapply (sale_ok_step s s2 log id i i' h); try done. intros h' Hne. by rewrite Hh2, Hh1'. }
  destruct out as [[i'|i' answer]|e]; unfold mret, SM_ret; cbn [fst snd].
  2:{ destruct Hs as (Hi2 & Hh2 & Ht & <- & Hal & (i0 & Hi0) & asset & Has & Hpaid). rewrite Hi1 in Hi2.
      assert (al_ID (mkAllocation i' assets rpc answer) = id) as Haid by (unfold al_ID; cbn [al_intent]; by rewrite <- (proj1 Ht)).
      apply sale_ok_add; [by eapply Hstep; rewrite ?Hh2| | |].
      - split; [by eapply same_terms_priced|]. exists asset. split; [|by eapply same_terms_paid]. cbn. by rewrite <- (proj1 (proj2 (proj2 Ht))).
      - intros [txID Han]. cbn in Han. rewrite Haid. split_and!.
        + exact (proj1 (Hal _ Han (Hid i0 _ (eq_trans Hi0 Han)))).
        + rewrite Hi2. apply lookup_insert_eq.
        + unfold al_TxHash. cbn [al_intent]. rewrite Hh2, Hh1. apply lookup_insert_eq.
      - intros a Ha Hac. destruct (so_log _ _ Hok a Ha Hac) as (Ha1 & Ha2 & Ha3). rewrite Haid.
        assert (id ≠ al_ID a) as Hne by (intros ->; simplify_eq). split; [done|]. unfold al_TxHash at 1. cbn [al_intent].
        intros Heq. rewrite <- Heq in Ha3. destruct Hh; congruence. }
  all: rewrite app_nil_r; destruct Hs as [Hh2 Hi2]; rewrite Hi1 in Hi2.
  all: assert (∀ h', h' ≠ h → hashes s2 !! h' = hashes s1 !! h') as Hh2' by (intros h' Hne; destruct Hh2 as [->| ->]; by rewrite ?lookup_delete_ne).
  all: destruct Hi2 as [Hi2|(i'' & Ht & Hi2)]; [|by eapply Hstep].
  all: apply (Hstep i); [done|by rewrite insert_id|done].
Qed.

(** A new intent is priced as [priced] says. *)
Lemma new_intent_spec r getenv assets b s : r.(rq_saved) = true →
  match handleAPIEarlyAccessPaymentIntents r getenv assets b s with
  | (s', inl i) => i.(in_ID) = "syn-presale-" +:+ r.(rq_random) ∧ priced i ∧ i.(in_Status) = "pending_payment" ∧
      intents s' = <[i.(in_ID) := i]> (intents s) ∧ hashes s' = hashes s ∧ s'.(state_file) = Some s'.(reg)
  | (s', inr _) => s' = s
  end.
Proof.
  intros Hsaved. unfold handleAPIEarlyAccessPaymentIntents, not_post, persist, on_reg, fail_if, lift, throw, modify, mret, SM_ret, mbind, SM_bind.
  destruct (negb _); [done|]. destruct (bool_decide _); [done|]. destruct b as [b|e]; [|done]. cbv zeta. destruct (_ || _ || _); [done|].
  destruct (parseUSDCents _) as [usd|e] eqn:Hu; [|done]. destruct (Z.ltb_spec (usd / 10) 20); [done|].
  destruct (earlyAccessAssetBySymbol _ _) as [asset|] eqn:Ha; [|done]. destruct (negb _); [done|]. destruct (empty_str (as_TreasuryAddress asset)); [done|].
  destruct (quotePaymentAmount _ _) as [q|e] eqn:Hq; [|done]. rewrite Hsaved. cbn. pose proof (parse_range _ _ Hu).
  destruct (quote_spec usd asset q ltac:(lia) Hq) as (price & amount & _ & Hpos & Hset & Hle).
  split_and!; try done. split_and!; try done. eauto.
Qed.

Lemma sale_ok_intent r getenv assets b s log :
  sale_ok s log → orderly r (NewIntent getenv assets b) s → sale_ok (handleAPIEarlyAccessPaymentIntents r getenv assets b s).1 log.
Proof.
  intros Hok [Hsaved Hfresh]. pose proof (new_intent_spec r getenv assets b s Hsaved) as Hn.
  destruct (handleAPIEarlyAccessPaymentIntents _ _ _ _ _) as [s' [i|e]]; cbn; [|by subst]. destruct Hn as (Hid & Hp & _ & Hi & Hh & Hf).
  rewrite <- Hid in Hfresh. destruct Hok as [H1 H2 Hb H3 H4]. split; [unfold synced; by rewrite Hf| |done| |done].
  - intros id j. rewrite Hi, lookup_insert_Some. intros [[<- <-]|[_ Hj]]; [done|by apply H2].
  - intros a Ha Hac. rewrite Hi, Hh. destruct (H3 a Ha Hac) as (Ha1 & ?). split; [|done]. rewrite lookup_insert_ne by congruence. done.
Qed.

Lemma sale_run_ok s log : sale_run s log → sale_ok s log.
Proof.
  induction 1 as [|s log r o Hrun IH Ho]; [by split; [| |intros a ?%elem_of_nil|intros a ?%elem_of_nil|intros [|? ?]]|].
  assert ((∃ getenv assets b, o = NewIntent getenv assets b) ∨ (∃ assets rpc w id b, o = VerifyIntent assets rpc w id b) ∨ o = Reload ∨
    (∀ getenv assets b, o ≠ NewIntent getenv assets b) ∧ (∀ assets rpc w id b, o ≠ VerifyIntent assets rpc w id b) ∧ o ≠ Reload)
    as [(getenv & assets & b & ->)|[(assets & rpc & w & id & b & ->)|[->|(H1 & H2 & H3)]]] by (destruct o; eauto 10; right; right; right; naive_solver).
  - rewrite app_nil_r. by apply sale_ok_intent.
  - by apply sale_ok_verify.
  - rewrite app_nil_r. by apply sale_ok_load.
  - assert (asked_for r o s = []) as -> by (destruct o; try done; by destruct (H2 assets rpc w id body)). rewrite app_nil_r.
    eapply sale_ok_frame; [|done]. by apply exec_payments_frame.
Qed.

End run.
