(* ===== verification/RewardFacts.v ===== *)
(** The reward keeper: what a cycle pays, and what every cycle of a run keeps
    within bounds. *)
From stdpp Require Import base strings list gmap sorting.
From S2P Require Import Prelude GoStd Types Ledger TxModel GoText Registry RegistryPay.
From S2P Require Import RewardKeeper RegistryFacts RegistryFrame.

#[local] Open Scope string_scope.
#[local] Open Scope Z_scope.

(* ------------------------------------------------------------------ *)
(** * Amounts *)

Fixpoint total {A} (f : A → Z) (l : list A) : Z := match l with [] => 0 | x :: l => f x + total f l end.

Lemma total_app {A} (f : A → Z) l l' : total f (l ++ l') = total f l + total f l'.
Proof. induction l as [|x l IH]; cbn; [done|]. rewrite IH. lia. Qed.

Lemma total_nonneg {A} (f : A → Z) l : Forall (λ x, 0 ≤ f x) l → 0 ≤ total f l.
Proof. induction 1 as [|x l Hx Hl IH]; cbn; lia. Qed.

(** What has been paid in an epoch, without wrap-around. *)
Definition paid_in (epoch : string) (payouts : list rewardPayout) : Z := total rp_AmountSYN (in_epoch epoch payouts).

Lemma spent_in_paid epoch payouts : Forall (λ po, 0 ≤ po.(rp_AmountSYN)) payouts → paid_in epoch payouts ≤ MaxUint64 →
  spent_in epoch payouts = paid_in epoch payouts.
Proof.
  unfold spent_in, paid_in. intros Hf' Hle. assert (Forall (λ po, 0 ≤ po.(rp_AmountSYN)) (in_epoch epoch payouts)) as Hf.
  { rewrite Forall_forall in Hf' |- *. intros po [_ Hpo]%list_elem_of_filter. auto. }
  assert (∀ s, 0 ≤ s → s + total rp_AmountSYN (in_epoch epoch payouts) ≤ MaxUint64 →
    foldl (λ spent po, u64 (spent + po.(rp_AmountSYN))) s (in_epoch epoch payouts) = s + total rp_AmountSYN (in_epoch epoch payouts)) as H;
    [|rewrite H; lia].
  clear Hle. induction Hf as [|po l Hpo Hl IH]; intros s Hs Hle; cbn in *; [lia|]. pose proof (total_nonneg _ _ Hl) as H0. cbn in H0.
  rewrite u64_small by (unfold in_u64; lia). rewrite IH; lia.
Qed.

Lemma halve_range n base : 0 < base → 0 < halve n base ≤ base.
Proof.
  revert base. induction n as [|n IH]; intros base Hb; cbn [halve]; [lia|]. pose proof (Z.div_lt base 2 Hb ltac:(lia)).
  assert (0 ≤ base / 2) by (apply Z.div_pos; lia). destruct (Z.eqb_spec (base / 2) 0); [lia|]. specialize (IH (base / 2) ltac:(lia)). lia.
Qed.

Lemma amount_range halvings p now : 0 < rewardAmountFor halvings p now ≤ rewardActivationSYN.
Proof.
  unfold rewardAmountFor, monthlyRewardAmount. destruct (_ && _); [done|]. destruct (_ <? _); [done|].
  pose proof (halve_range (Z.to_nat (halvings now)) validatorMonthlyBaseRewardSYN ltac:(done)).
  unfold validatorMonthlyBaseRewardSYN, rewardActivationSYN, validatorMinimumBondSYN in *. lia.
Qed.

(* ------------------------------------------------------------------ *)
(** * Candidates *)

Section pick.
Context (halvings : Z → Z) (keeper : rewardKeeperConfig) (now : Z) (epoch : string) (paid : list string).

(** A candidate stands for a peer that qualifies. *)
Definition stands_for (peers : list peer) (c : rewardCandidate) : Prop :=
  ∃ p, p ∈ peers ∧ p.(pe_Name) = c.(rc_NodeID) ∧ qualifies keeper now epoch paid p = Some c.(rc_Address) ∧
    c.(rc_Amount) = rewardAmountFor halvings p now ∧ c.(rc_UptimeMS) = p.(pe_VerifiedUptimeMS).

Lemma pick_stands peers spent : Forall (stands_for peers) (pick halvings keeper now epoch paid peers spent).
Proof.
  revert spent. induction peers as [|p peers IH]; intros spent; cbn [pick]; [done|].
  assert (∀ c, stands_for peers c → stands_for (p :: peers) c) as Hmono.
  { intros c (q & ? & ?). exists q. split; [by right|done]. }
  destruct (qualifies _ _ _ _ p) as [addr|] eqn:Hq; [|by eapply Forall_impl].
  destruct (_ <? _); [done|]. constructor; [|by eapply Forall_impl]. exists p. split_and!; try done. by left.
Qed.

Lemma pick_ok peers spent : 0 ≤ spent ≤ keeper.(rk_MonthlyCap) → keeper.(rk_MonthlyCap) + rewardActivationSYN ≤ MaxUint64 →
  let cs := pick halvings keeper now epoch paid peers spent in
  spent + total rc_Amount cs ≤ keeper.(rk_MonthlyCap) ∧ rc_NodeID <$> cs `sublist_of` pe_Name <$> peers.
Proof.
  intros Hs Hcap. revert spent Hs. induction peers as [|p peers IH]; intros spent Hs; cbn [pick]; [cbn; split; [lia|done]|].
  destruct (qualifies _ _ _ _ p) as [addr|] eqn:Hq.
  - pose proof (amount_range halvings p now) as Ha. set (amount := rewardAmountFor _ _ _) in *. rewrite u64_small by (unfold in_u64; lia).
    destruct (Z.ltb_spec keeper.(rk_MonthlyCap) (spent + amount)); cbn; [split; [lia|apply sublist_nil_l]|].
    destruct (IH (spent + amount) ltac:(lia)) as (H2 & H3). split; [lia|]. by apply sublist_skip.
  - destruct (IH spent Hs) as (H2 & H3). split; [done|]. by apply sublist_cons.
Qed.

Lemma qualifies_inv p addr : qualifies keeper now epoch paid p = Some addr →
  keeper.(rk_Approved) !! p.(pe_Name) = Some addr ∧ rewardIneligibleReason p now epoch (bool_decide (p.(pe_Name) ∈ paid)) = "".
Proof.
  unfold qualifies. destruct (empty_str _) eqn:He; [|done]. apply empty_str_true in He. cbn [negb].
  destruct (rk_Approved keeper !! _) as [a|]; [|done]. destruct (_ && _); [done|]. by intros [= ->].
Qed.

(** What a node without a reason against it is. *)
Lemma eligible_spec p b : rewardIneligibleReason p now epoch b = "" →
  b = false ∧ isFounderFleetNode p = false ∧ p.(pe_LastRewardPaidEpoch) ≠ epoch ∧ peerIsStale p now = false ∧ isRealSignedHeartbeat p = true ∧
  p.(pe_SharedHardwareWith) = "" ∧ p.(pe_SharedHouseholdWith) = "" ∧ rewardEpoch / millisecond ≤ p.(pe_VerifiedUptimeMS).
Proof.
  unfold rewardIneligibleReason. destruct (isFounderFleetNode p); [done|]. destruct (_ && (_ <? rewardProgramStartCutoffMS)); [done|].
  destruct b; [done|]. cbn [orb]. case_bool_decide as Hl; [done|]. destruct (_ || negb _) eqn:Hb; [done|]. apply orb_false_iff in Hb as [_ Hb%negb_false_iff].
  destruct (peerIsStale p now); [done|]. destruct (negb _ || _) eqn:Hsh; [done|]. apply orb_false_iff in Hsh as [H1%negb_false_iff H2%negb_false_iff].
  destruct (Z.ltb_spec p.(pe_VerifiedUptimeMS) (rewardEpoch / millisecond)); [done|]. intros _. apply empty_str_true in H1, H2. done.
Qed.

End pick.

(* ------------------------------------------------------------------ *)
(** * Confirming *)

(** Two records of the same payment. *)
Record same_payment (po po' : rewardPayout) : Prop := {
  sp_node : po'.(rp_NodeID) = po.(rp_NodeID);
  sp_address : po'.(rp_Address) = po.(rp_Address);
  sp_amount : po'.(rp_AmountSYN) = po.(rp_AmountSYN);
  sp_epoch : po'.(rp_Epoch) = po.(rp_Epoch);
  sp_nonce : po'.(rp_Nonce) = po.(rp_Nonce);
  sp_tx : po'.(rp_TxID) = po.(rp_TxID)
}.

#[global] Instance same_payment_refl : Reflexive same_payment.
Proof. by split. Qed.

(** Confirming changes no payment, leaves a transfer pending exactly when the
    account's nonce has not passed it, and counts those. *)
Lemma confirm_spec now accountNonce payouts peers :
  let '(payouts', _, waiting, changed) := confirm now accountNonce payouts peers in
  Forall2 same_payment payouts payouts' ∧
  (waiting = O → Forall (λ po, pending po = false) payouts') ∧
  (changed = false → payouts' = payouts).
Proof.
  revert peers. induction payouts as [|po payouts IH]; intros peers; cbn [confirm]; [done|].
  destruct (negb (pending po)) eqn:Hp; [|destruct (po.(rp_Nonce) <? accountNonce)].
  - specialize (IH peers). destruct (confirm _ _ _ _) as [[[ps qs] w] c]. destruct IH as (I1 & I2 & I3). apply negb_true_iff in Hp. split_and!.
    + by constructor.
    + intros Hw. constructor; auto.
    + intros Hc. by rewrite I3.
  - set (peers' := match _ with Some _ => _ | None => _ end). specialize (IH peers'). destruct (confirm _ _ _ _) as [[[ps qs] w] c].
    destruct IH as (I1 & I2 & I3). split_and!; [by constructor| |done]. intros Hw. constructor; auto.
  - specialize (IH peers). destruct (confirm _ _ _ _) as [[[ps qs] w] c]. destruct IH as (I1 & I2 & I3). split_and!; [|done|].
    + constructor; [by destruct (_ && _)|done].
    + intros [Hs Hc]%orb_false_iff. by rewrite Hs, I3.
Qed.

(** Confirming keeps the entries of peers under their names. *)
Definition named (peers : gmap string peer) : Prop := map_Forall (λ k p, p.(pe_Name) = k) peers.

Lemma confirm_named now accountNonce payouts peers : named peers → named (confirm now accountNonce payouts peers).1.1.2.
Proof.
  revert peers. induction payouts as [|po payouts IH]; intros peers Hn; cbn [confirm]; [done|].
  destruct (negb (pending po)); [|destruct (po.(rp_Nonce) <? accountNonce)].
  1, 3: specialize (IH peers Hn); by destruct (confirm _ _ _ _) as [[[ps qs] w] c].
  set (peers' := match _ with Some _ => _ | None => _ end). assert (named peers') as Hn'.
  { unfold peers'. destruct (peers !! rp_NodeID po) as [p|] eqn:Hp; [|done]. apply map_Forall_insert_2; [exact (Hn _ _ Hp)|done]. }
  specialize (IH peers' Hn'). by destruct (confirm _ _ _ _) as [[[ps qs] w] c].
Qed.

(* ------------------------------------------------------------------ *)
(** * Sending *)

(** The transfers a cycle made: to the first candidates, in their order, with
    one nonce after the other. *)
Fixpoint sent_to (epoch : string) (nonce : Z) (cs : list rewardCandidate) (sent : list rewardPayout) {struct sent} : Prop :=
  match sent, cs with
  | [], _ => True
  | po :: sent, c :: cs =>
      po.(rp_NodeID) = c.(rc_NodeID) ∧ po.(rp_Address) = c.(rc_Address) ∧ po.(rp_AmountSYN) = c.(rc_Amount) ∧
      po.(rp_UptimeMS) = c.(rc_UptimeMS) ∧ po.(rp_Epoch) = epoch ∧ po.(rp_Nonce) = nonce ∧ po.(rp_Status) = payoutStatusSubmitted ∧
      sent_to epoch (u64 (nonce + 1)) cs sent
  | _ :: _, [] => False
  end.

Lemma sent_to_ids epoch nonce cs sent : sent_to epoch nonce cs sent →
  rp_NodeID <$> sent `sublist_of` rc_NodeID <$> cs ∧ Forall (λ po, po.(rp_Epoch) = epoch) sent ∧
  (Forall (λ c, 0 ≤ c.(rc_Amount)) cs → total rp_AmountSYN sent ≤ total rc_Amount cs) ∧
  Forall (λ po, ∃ c, c ∈ cs ∧ po.(rp_NodeID) = c.(rc_NodeID) ∧ po.(rp_Address) = c.(rc_Address) ∧ po.(rp_AmountSYN) = c.(rc_Amount)) sent.
Proof.
  revert nonce cs. induction sent as [|po sent IH]; intros nonce [|c cs]; try done.
  - intros _. split_and!; [apply sublist_nil_l|constructor| |constructor]. exact (total_nonneg rc_Amount (c :: cs)).
  - intros (H1 & H2 & H3 & H4 & H5 & H6 & H7 & H8). destruct (IH _ _ H8) as (I1 & I2 & I3 & I4). cbn. split_and!.
    + rewrite H1. by apply sublist_skip.
    + by constructor.
    + intros [Hc Hcs]%Forall_cons. specialize (I3 Hcs). lia.
    + constructor; [exists c; split_and!; try done; by left|]. eapply Forall_impl; [done|]. intros po' (c' & ? & ?). exists c'. split; [by right|done].
Qed.

Definition paid_key (po : rewardPayout) : string * string := (po.(rp_NodeID), po.(rp_Epoch)).

(** The node and the month a transfer says it is for. *)
Definition sent_key (tx : Tx) : string * string := (metadataValue tx.(Metadata) "node_id", metadataValue tx.(Metadata) "epoch").

(** The transfers the chain said it accepted, with their names. *)
Definition taken (log : list (Tx * res string)) : list (Tx * string) :=
  omap (λ x, match x.2 with inl txID => Some (x.1, txID) | inr _ => None end) log.

(** The record of a transfer. *)
Definition recorded (po : rewardPayout) (x : Tx * string) : Prop :=
  x.2 = po.(rp_TxID) ∧ x.1.(To) = po.(rp_Address) ∧ x.1.(Amount) = po.(rp_AmountSYN) ∧ sent_key x.1 = paid_key po.

(** A transfer to a candidate. *)
Definition goes_to (c : rewardCandidate) (tx : Tx) : Prop :=
  tx.(To) = c.(rc_Address) ∧ tx.(Amount) = c.(rc_Amount) ∧ (sent_key tx).1 = c.(rc_NodeID).

Lemma recorded_same po po' x : same_payment po po' → recorded po x → recorded po' x.
Proof. intros [H1 H2 H3 H4 H5 H6] (R1 & R2 & R3 & R4). unfold recorded, paid_key in *. by rewrite H1, H2, H3, H4, H6. Qed.

Section send.
Context `{E : Ed25519} (keeper : rewardKeeperConfig) (ch : rewardChain) (now : Z).

Lemma signed_reward epoch nonce c tx u : Sign keeper.(rk_Private) (reward_tx keeper epoch nonce c) = (tx, inl u) →
  goes_to c tx ∧ sent_key tx = (c.(rc_NodeID), epoch).
Proof. destruct u. intros (_ & _ & ->)%Sign_ok. split; [split; [|split]|]; reflexivity. Qed.

Lemma send_spec saved epoch cs nonce s :
  ∃ s' sent subs, send_rewards keeper ch now saved epoch cs nonce s = (s', inl subs) ∧
    s'.(reg).(RewardPayouts) = (s.(reg).(RewardPayouts) ++ sent)%list ∧ s'.(reg).(Peers) = s.(reg).(Peers) ∧ sent_to epoch nonce cs sent ∧
    (saved = true → synced RewardPayouts s → synced RewardPayouts s') ∧
    Forall2 recorded sent (taken subs) ∧ Forall (λ x, ∃ c, c ∈ cs ∧ goes_to c x.1) subs.
Proof.
  revert nonce s. induction cs as [|c cs IH]; intros nonce s; cbn [send_rewards].
  - exists s, [], []. rewrite app_nil_r. split_and!; done.
  - destruct (Sign _ _) as [tx [u|e]] eqn:Hsign; [|exists s, [], []; rewrite app_nil_r; by split_and!].
    apply signed_reward in Hsign as [Hgo Hkey]. assert (∃ c0, c0 ∈ c :: cs ∧ goes_to c0 tx) as Hc by (exists c; split; [apply list_elem_of_here|done]).
    destruct (rc_Submit ch tx) as [id|e].
    2:{ exists s, [], [(tx, inr e)]; rewrite app_nil_r; split_and!; try done; by apply Forall_singleton. }
    set (po := mkRewardPayout _ _ _ _ _ _ _ _ _ _ _).
    unfold on_reg, persist, modify, mbind, SM_bind.
    match goal with |- context [send_rewards _ _ _ _ _ _ _ ?s1] => destruct (IH (u64 (nonce + 1)) s1) as (s' & sent & subs & -> & H1 & H2 & H3 & H4 & H5 & H6) end.
    exists s', (po :: sent), ((tx, inl id) :: subs). split; [reflexivity|]. rewrite H1, H2.
    destruct saved; (split; [exact (eq_sym (app_assoc _ [po] sent))|]); (split; [done|]); (split; [cbn; by split_and!|]); (split; [intros ? ?; by try apply H4|]).
    all: split; [constructor; [|exact H5]; destruct Hgo as (G1 & G2 & _); by split_and!|].
    all: constructor; [exact Hc|]; eapply Forall_impl; [exact H6|]; intros x (c0 & ? & ?); exists c0; split; [by apply list_elem_of_further|done].
Qed.

End send.

(* ------------------------------------------------------------------ *)
(** * A cycle *)

(** The ledger of payments before and after a cycle: the same payments, some
    of them confirmed, and then those sent, to the candidates of the state
    [g] in which the confirmed ones are marked. Nothing is sent while a
    transfer is pending. *)
Definition cycle_pays (halvings : Z → Z) (now : Z) (keeper : rewardKeeperConfig) (ch : rewardChain) (g0 g1 : registryState) : Prop :=
  g1.(RewardPayouts) = g0.(RewardPayouts) ∨
  ∃ accountNonce old sent,
    keeper.(rk_Enabled) = true ∧ ch.(rc_Nonce) keeper.(rk_Address) = inl accountNonce ∧
    Forall2 same_payment g0.(RewardPayouts) old ∧ g1.(RewardPayouts) = (old ++ sent)%list ∧
    (sent ≠ [] → Forall (λ po, pending po = false) old) ∧
    sent_to (epoch_of now) accountNonce
      (rewardCandidates halvings now keeper (epoch_of now)
         (g0 <| RewardPayouts := old |> <| Peers := (confirm now accountNonce g0.(RewardPayouts) g0.(Peers)).1.1.2 |>)) sent.

Lemma persist_if (changed saved : bool) (s s1 : server) :
  (changed = false → RewardPayouts s1.(reg) = RewardPayouts s.(reg) ∧ s1.(state_file) = s.(state_file)) →
  ∃ s2, (if changed then persist saved else mret tt) s1 = (s2, inl tt) ∧ s2.(reg) = s1.(reg) ∧
    (saved = true → synced RewardPayouts s → synced RewardPayouts s2).
Proof.
  intros Hch. destruct changed.
  - eexists. split; [done|]. destruct saved; [|done]. by split.
  - exists s1. split; [done|]. split; [done|]. intros _. unfold synced. destruct (Hch eq_refl) as [-> ->]. done.
Qed.

Lemma cycle_spec `{E : Ed25519} halvings now saved keeper ch s :
  ∃ s' subs, rewardKeeperCycle halvings now saved keeper ch s = (s', inl subs) ∧ cycle_pays halvings now keeper ch s.(reg) s'.(reg) ∧
    (saved = true → synced RewardPayouts s → synced RewardPayouts s') ∧
    (∀ l, Forall2 recorded s.(reg).(RewardPayouts) l → Forall2 recorded s'.(reg).(RewardPayouts) (l ++ taken subs)%list) ∧
    (subs ≠ [] → ∃ g, Forall2 same_payment s.(reg).(RewardPayouts) g.(RewardPayouts) ∧ (named s.(reg).(Peers) → named g.(Peers)) ∧
       Forall (λ x, ∃ c, c ∈ rewardCandidates halvings now keeper (epoch_of now) g ∧ goes_to c x.1) subs).
Proof.
  unfold rewardKeeperCycle. cbv zeta. assert (cycle_pays halvings now keeper ch s.(reg) s.(reg)) as Hrefl by (by left).
  assert (∀ l : list (Tx * string), (l ++ taken [])%list = l) as Hnil by (intros; apply app_nil_r).
  destruct (rk_Enabled keeper) eqn:Hen; cbn [negb]; [|exists s, []; split_and!; try done; intros l; by rewrite Hnil].
  destruct (rc_Nonce ch (rk_Address keeper)) as [accountNonce|e] eqn:Hn; [|exists s, []; split_and!; try done; intros l; by rewrite Hnil].
  unfold get, on_reg, modify, mbind, SM_bind.
  pose proof (confirm_spec now accountNonce s.(reg).(RewardPayouts) s.(reg).(Peers)) as Hc. unfold cycle_pays.
  pose proof (confirm_named now accountNonce s.(reg).(RewardPayouts) s.(reg).(Peers)) as Hnamed.
  destruct (confirm _ _ _ _) as [[[old peers] waiting] changed] eqn:Hcf. destruct Hc as (Hsame & Hw & Hch). cbn in Hnamed.
  assert (∀ l, Forall2 recorded s.(reg).(RewardPayouts) l → Forall2 recorded old l) as Hrec.
  { clear -Hsame. induction Hsame as [|po po' ps ps' H1 H2 IH]; intros l Hl; inversion Hl; subst; constructor; [by eapply recorded_same|auto]. }
  set (s1 := s <| reg := s.(reg) <| RewardPayouts := old |> <| Peers := peers |> |>).
  destruct (persist_if changed saved s s1) as (s2 & -> & Hs2 & Hsync); [intros Hc; split; [by apply Hch|done]|].
  destruct (Nat.ltb_spec 0 waiting).
  - exists s2, []. split; [done|]. split; [|split; [done|split; [intros l Hl; rewrite Hnil, Hs2; by apply Hrec|done]]].
    right. exists accountNonce, old, []. rewrite app_nil_r, Hs2. by split_and!.
  - assert (waiting = O) as -> by lia.
    destruct (send_spec keeper ch now saved (epoch_of now) (rewardCandidates halvings now keeper (epoch_of now) s2.(reg)) accountNonce s2)
      as (s' & sent & subs & -> & H1 & H2 & H3 & H4 & H5 & H6). exists s', subs. split; [done|]. rewrite Hs2 in H1, H3, H6.
    split; [|split; [auto|split]].
    + right. exists accountNonce, old, sent. rewrite H1, Hcf. split_and!; auto.
    + intros l Hl. rewrite H1. apply Forall2_app; [by apply Hrec|done].
    + intros _. exists s1.(reg). by split_and!.
Qed.

(* ------------------------------------------------------------------ *)
(** * Bounds *)

Section bounds.
Context (keeper : rewardKeeperConfig).

(** Nobody is paid twice in an epoch, no epoch costs more than the cap, and
    all is paid to approved addresses, in bounded amounts. *)
Record payouts_ok (ps : list rewardPayout) : Prop := {
  po_once : NoDup (paid_key <$> ps);
  po_cap : ∀ epoch, paid_in epoch ps ≤ keeper.(rk_MonthlyCap);
  po_each : Forall (λ po, keeper.(rk_Approved) !! po.(rp_NodeID) = Some po.(rp_Address) ∧ 0 < po.(rp_AmountSYN) ≤ rewardActivationSYN) ps
}.

Lemma same_keys ps ps' : Forall2 same_payment ps ps' → paid_key <$> ps' = paid_key <$> ps ∧ ∀ epoch, paid_in epoch ps' = paid_in epoch ps.
Proof.
  unfold paid_in, in_epoch. induction 1 as [|po po' ps ps' Hp Hps [IH1 IH2]]; [done|]. destruct Hp as [H1 H2 H3 H4 H5 H6]. split.
  - cbn. unfold paid_key at 1 3. by rewrite H1, H4, IH1.
  - intros epoch. rewrite !filter_cons, H4. destruct (decide _); cbn; by rewrite ?H3, IH2.
Qed.

Lemma payouts_ok_same ps ps' : Forall2 same_payment ps ps' → payouts_ok ps → payouts_ok ps'.
Proof.
  intros Hs [H1 H2 H3]. destruct (same_keys _ _ Hs) as [Hk Ht]. split; [by rewrite Hk|intros; by rewrite Ht|].
  clear H1 H2 Hk Ht. induction Hs as [|po po' ps ps' [E1 E2 E3 E4 E5 E6] Hps IH]; [done|]. apply Forall_cons in H3 as [Hpo H3].
  constructor; [by rewrite E1, E2, E3|auto].
Qed.

Lemma paid_in_app epoch ps qs : paid_in epoch (ps ++ qs) = paid_in epoch ps + paid_in epoch qs.
Proof. unfold paid_in, in_epoch. by rewrite filter_app, total_app. Qed.

Lemma paid_in_all epoch ps : Forall (λ po, po.(rp_Epoch) = epoch) ps → paid_in epoch ps = total rp_AmountSYN ps.
Proof. unfold paid_in, in_epoch. induction 1 as [|po ps H Hs IH]; [done|]. rewrite filter_cons, decide_True by done. cbn. by rewrite IH. Qed.

Lemma paid_in_none epoch epoch' ps : epoch' ≠ epoch → Forall (λ po, po.(rp_Epoch) = epoch) ps → paid_in epoch' ps = 0.
Proof. unfold paid_in, in_epoch. intros Hne. induction 1 as [|po ps H Hs IH]; [done|]. rewrite filter_cons, decide_False by congruence. done. Qed.

(** The names of the peers a cycle looks at are distinct. *)
Lemma marked_names now peers : pe_Name <$> markSharedHardware now peers = pe_Name <$> peers.
Proof.
  unfold markSharedHardware. apply list_eq. intros i. rewrite !list_lookup_fmap, list_lookup_imap. by destruct (peers !! i).
Qed.

Lemma peers_distinct (s : registryState) : named s.(Peers) → NoDup (pe_Name <$> peer_list s).
Proof.
  intros Hn. assert (pe_Name <$> peer_list s = (map_to_list s.(Peers)).*1) as ->; [|apply NoDup_fst_map_to_list].
  unfold peer_list. rewrite <- list_fmap_compose. apply list_fmap_ext. intros i [k p] Hi. cbn. apply list_elem_of_lookup_2, elem_of_map_to_list in Hi.
  exact (Hn k p Hi).
Qed.

Lemma candidates_ok halvings now (s : registryState) :
  named s.(Peers) → payouts_ok s.(RewardPayouts) → 0 ≤ keeper.(rk_MonthlyCap) → keeper.(rk_MonthlyCap) + rewardActivationSYN ≤ MaxUint64 →
  let epoch := epoch_of now in
  let cs := rewardCandidates halvings now keeper epoch s in
  paid_in epoch s.(RewardPayouts) + total rc_Amount cs ≤ keeper.(rk_MonthlyCap) ∧ NoDup (rc_NodeID <$> cs) ∧
  Forall (λ c, stands_for halvings keeper now epoch (paid_nodes epoch s.(RewardPayouts)) (markSharedHardware now (sort_slice by_name (peer_list s))) c) cs.
Proof.
  intros Hn [H1 H2 H3] H0 Hcap epoch cs. unfold cs, rewardCandidates.
  assert (0 ≤ paid_in epoch s.(RewardPayouts)) as Hnn.
  { apply total_nonneg. rewrite Forall_forall in H3 |- *. intros po [_ Hpo]%list_elem_of_filter. destruct (H3 po Hpo). lia. }
  rewrite spent_in_paid.
  - destruct (pick_ok halvings keeper now epoch (paid_nodes epoch s.(RewardPayouts)) (markSharedHardware now (sort_slice by_name (peer_list s)))
      (paid_in epoch s.(RewardPayouts))) as (P2 & P3); [split; [done|apply H2]|done|].
    split_and!; [done| |apply pick_stands].
    eapply sublist_NoDup; [|exact P3]. rewrite marked_names. rewrite sort_slice_perm. by apply peers_distinct.
  - eapply Forall_impl; [exact H3|]. intros po [_ ?]. lia.
  - specialize (H2 epoch). unfold rewardActivationSYN, validatorMinimumBondSYN in *. lia.
Qed.

(** Sending to candidates keeps the bounds. *)
Lemma payouts_ok_sent halvings now (s : registryState) accountNonce sent :
  named s.(Peers) → payouts_ok s.(RewardPayouts) → 0 ≤ keeper.(rk_MonthlyCap) → keeper.(rk_MonthlyCap) + rewardActivationSYN ≤ MaxUint64 →
  sent_to (epoch_of now) accountNonce (rewardCandidates halvings now keeper (epoch_of now) s) sent →
  payouts_ok (s.(RewardPayouts) ++ sent).
Proof.
  intros Hn Hok H0 Hcap Hsent. destruct (candidates_ok halvings now s Hn Hok H0 Hcap) as (C1 & C2 & C3).
  set (epoch := epoch_of now) in *. set (cs := rewardCandidates _ _ _ _ _) in *.
  destruct (sent_to_ids _ _ _ _ Hsent) as (S1 & S2 & S3 & S4). destruct Hok as [H1 H2 H3]. split.
  - rewrite fmap_app. apply NoDup_app. split_and!; [done| |].
    + intros x (po & -> & Hpo)%list_elem_of_fmap (po' & Hk & Hpo')%list_elem_of_fmap. injection Hk as Hid Hep.
      rewrite Forall_forall in S2, S4. rewrite Forall_forall in C3. destruct (S4 po' Hpo') as (c & Hc & Hcid & _). destruct (C3 c Hc) as (p & _ & Hp & Hq & _).
      apply qualifies_inv in Hq as [_ [Hpaid%bool_decide_eq_false _]%eligible_spec]. apply Hpaid. rewrite Hp, <- Hcid, <- Hid.
      unfold paid_nodes, in_epoch. rewrite (S2 po' Hpo') in Hep. apply list_elem_of_fmap_2, list_elem_of_filter. done.
    + apply (NoDup_fmap_1 fst). rewrite <- list_fmap_compose. by eapply sublist_NoDup.
  - intros epoch'. rewrite paid_in_app. destruct (decide (epoch' = epoch)) as [->|Hne].
    + rewrite (paid_in_all _ _ S2). specialize (S3 ltac:(eapply Forall_impl; [exact C3|]; intros c (p & _ & _ & _ & -> & _); pose proof (amount_range halvings p now); lia)). lia.
    + rewrite (paid_in_none _ _ _ Hne S2). specialize (H2 epoch'). lia.
  - apply Forall_app. split; [done|]. rewrite Forall_forall in S4 |- *. rewrite Forall_forall in C3. intros po Hpo. destruct (S4 po Hpo) as (c & Hc & -> & -> & ->).
    destruct (C3 c Hc) as (p & _ & <- & Hq & -> & _). apply qualifies_inv in Hq as [Hq _]. split; [done|apply amount_range].
Qed.

Lemma cycle_ok halvings now ch g0 g1 : named g0.(Peers) → payouts_ok g0.(RewardPayouts) → 0 ≤ keeper.(rk_MonthlyCap) →
  keeper.(rk_MonthlyCap) + rewardActivationSYN ≤ MaxUint64 → cycle_pays halvings now keeper ch g0 g1 → payouts_ok g1.(RewardPayouts).
Proof.
  intros Hn Hok H0 Hcap [->|(accountNonce & old & sent & _ & _ & Hsame & -> & _ & Hsent)]; [done|].
  apply (payouts_ok_sent _ _ _ _ _) in Hsent; [exact Hsent| |by eapply payouts_ok_same|done|done].
  by apply confirm_named.
Qed.

End bounds.

(* ------------------------------------------------------------------ *)
(** * Runs with one keeper *)

Section run.
Context `{E : Ed25519} (cfg : config) (halvings : Z → Z) (keeper : rewardKeeperConfig).

(** What a request has submitted. *)
Definition submitted (r : Request) (o : op) (s : server) : list (Tx * res string) :=
  match o with
  | Rewards h k ch => match (rewardKeeperCycle h r.(rq_now) r.(rq_saved) k ch s).2 with inl l => l | inr _ => [] end
  | _ => []
  end.

(** A run of the registry, from any sound one that has not paid yet, whose
    cycles all use the same settings and have their writes reach the disk, with
    everything submitted to the chain. The rest may fail and restart. *)
Inductive keeper_run : Z → server → list (Tx * res string) → Prop :=
  | keeper_start t s : 0 ≤ t → server_ok (UnixMilli t) s → s.(reg).(RewardPayouts) = [] → synced RewardPayouts s → keeper_run t s []
  | keeper_op t s log r o : keeper_run t s log → t ≤ r.(rq_now) →
      (∀ h k ch, o = Rewards h k ch → h = halvings ∧ k = keeper ∧ r.(rq_saved) = true) →
      keeper_run r.(rq_now) (exec cfg r o s) (log ++ submitted r o s)%list.

(** A transfer within bounds. *)
Definition modest (tx : Tx) : Prop :=
  keeper.(rk_Approved) !! (sent_key tx).1 = Some tx.(To) ∧ 0 < tx.(Amount) ≤ rewardActivationSYN.

Lemma submitted_modest r ch s : named s.(reg).(Peers) → payouts_ok keeper s.(reg).(RewardPayouts) → 0 ≤ keeper.(rk_MonthlyCap) →
  keeper.(rk_MonthlyCap) + rewardActivationSYN ≤ MaxUint64 → Forall (λ x, modest x.1) (submitted r (Rewards halvings keeper ch) s).
Proof.
  intros Hn Hok H0 Hcap. unfold submitted. destruct (cycle_spec halvings r.(rq_now) r.(rq_saved) keeper ch s) as (s' & subs & -> & _ & _ & _ & Hg). cbn.
  destruct subs as [|x subs]; [constructor|]. destruct (Hg ltac:(done)) as (g & Hsame & Hng & Hc). eapply Forall_impl; [exact Hc|]. intros y (c & Hin & G1 & G2 & G3).
  destruct (candidates_ok keeper halvings (rq_now r) g (Hng Hn) (payouts_ok_same _ _ _ Hsame Hok) H0 Hcap) as (_ & _ & C3).
  rewrite Forall_forall in C3. destruct (C3 c Hin) as (p & _ & Hp & Hq & Ham & _). apply qualifies_inv in Hq as [Hq _].
  unfold modest. rewrite G1, G2, G3, Ham, <- Hp. split; [exact Hq|apply amount_range].
Qed.

Lemma keeper_run_ok t s log : keeper_run t s log → t < 2 ^ 62 → 0 ≤ keeper.(rk_MonthlyCap) → keeper.(rk_MonthlyCap) + rewardActivationSYN ≤ MaxUint64 →
  0 ≤ t ∧ server_ok (UnixMilli t) s ∧ synced RewardPayouts s ∧ payouts_ok keeper s.(reg).(RewardPayouts) ∧
  Forall2 recorded s.(reg).(RewardPayouts) (taken log) ∧ Forall (λ x, modest x.1) log.
Proof.
  induction 1 as [t s Ht Hs Hnil Hsync|t s log r o Hrun IH Hle Ho]; intros Hmax H0 Hcap.
  { rewrite Hnil. split_and!; try done. split; [apply NoDup_nil_2|done|constructor]. }
  destruct IH as (Ht & Hsok & Hsync & Hok & Hrec & Hmod); [lia|done..|]. split; [lia|]. split; [by apply (exec_ok_at cfg t)|].
  assert (named s.(reg).(Peers)) as Hnamed by (intros n p Hp; apply (ok_name _ _ _ (proj1 Hsok n p Hp))).
  unfold taken in *. rewrite omap_app.
  assert ((∃ h k ch, o = Rewards h k ch) ∨ o = Reload ∨ (∀ h k ch, o ≠ Rewards h k ch) ∧ o ≠ Reload)
    as [(h & k & ch & Heq)|[->|(H1 & H2)]] by (destruct o; eauto 10; right; right; naive_solver).
  - destruct (Ho h k ch Heq) as (-> & -> & Hsaved). subst o. pose proof (submitted_modest r ch s Hnamed Hok H0 Hcap) as Hm. cbn [exec submitted] in Hm |- *.
    destruct (cycle_spec halvings r.(rq_now) r.(rq_saved) keeper ch s) as (s' & subs & Hrun' & Hpay & Hs' & Hl & _). rewrite Hrun' in Hm |- *. cbn [fst snd] in Hm |- *.
    split; [by apply Hs'|]. split; [by eapply cycle_ok|]. split; [by apply Hl|]. by apply Forall_app.
  - cbn [exec submitted omap list_omap]. rewrite !app_nil_r. destruct (synced_load RewardPayouts s Hsync) as [Hl Hl']. split; [done|]. by rewrite Hl.
  - pose proof (exec_payouts_frame cfg r o s H1 H2) as Hf. assert (submitted r o s = []) as -> by (destruct o; try done; by destruct (H1 halvings0 keeper0 ch)).
    cbn [omap list_omap]. rewrite !app_nil_r. split; [by eapply frame_synced|]. by rewrite (proj1 Hf).
Qed.

(** The bounds of the records are those of the transfers. *)
Definition taken_in (epoch : string) (l : list (Tx * string)) : Z := total (λ x, x.1.(Amount)) (filter (λ x, (sent_key x.1).2 = epoch) l).

Lemma recorded_totals ps l : Forall2 recorded ps l → (λ x, sent_key x.1) <$> l = paid_key <$> ps ∧ ∀ epoch, taken_in epoch l = paid_in epoch ps.
Proof.
  unfold taken_in, paid_in, in_epoch. induction 1 as [|po x ps l (R1 & R2 & R3 & R4) Hps [IH1 IH2]]; [done|]. split; [cbn; by rewrite R4, IH1|].
  intros epoch. rewrite !filter_cons, R4. unfold paid_key at 1. cbn [snd]. destruct (decide _); cbn; by rewrite ?R3, IH2.
Qed.

End run.

(* ------------------------------------------------------------------ *)
(** * One machine, one household *)

Section primary.
Context (key : peer → option string) (now : Z).

(** A primary is one of the peers. *)
Lemma primaries_from i peers m c j q : primaries key now i peers m !! c = Some (j, q) → m !! c = Some (j, q) ∨ q ∈ peers.
Proof.
  revert i m. induction peers as [|p peers IH]; intros i m; cbn [primaries]; [by left|].
  intros [Hm|Hq]%IH; [|right; by right]. destruct (peerIsStale p now); [by left|]. destruct (key p) as [d|]; [|by left].
  assert (<[d := (i, p)]> m !! c = Some (j, q) → m !! c = Some (j, q) ∨ q ∈ p :: peers) as Hins.
  { rewrite lookup_insert_Some. intros [[<- [= <- <-]]|[_ ?]]; [right; by left|by left]. }
  destruct (m !! d) as [[n p']|]; [|by apply Hins]. destruct (hardwarePrimaryRanksAbove _ _); [by apply Hins|by left].
Qed.

(** Every live peer with a key has a primary. *)
Lemma primaries_some i peers m c : is_Some (m !! c) ∨ (∃ p, p ∈ peers ∧ peerIsStale p now = false ∧ key p = Some c) →
  is_Some (primaries key now i peers m !! c).
Proof.
  revert i m. induction peers as [|p peers IH]; intros i m; cbn [primaries]; [intros [?|(p & ?%elem_of_nil & _)]; done|].
  intros H. apply IH. destruct H as [Hm|(q & [->|Hq]%elem_of_cons & Hs & Hk)]; [left| |right; eauto].
  - destruct (peerIsStale p now); [done|]. destruct (key p) as [d|]; [|done].
    assert (is_Some (<[d := (i, p)]> m !! c)) by (apply lookup_insert_is_Some; by destruct (decide (d = c)); auto).
    destruct (m !! d) as [[n p']|]; [|done]. by destruct (hardwarePrimaryRanksAbove _ _).
  - left. rewrite Hs, Hk. destruct (m !! c) as [[n p']|] eqn:Hc; [|by rewrite lookup_insert_eq].
    destruct (hardwarePrimaryRanksAbove _ _); [by rewrite lookup_insert_eq|by rewrite Hc].
Qed.

(** At most one live peer of a key is not in the shadow of another. *)
Lemma one_primary peers i j p q c : Forall (λ p, p.(pe_Name) ≠ "") peers → peers !! i = Some p → peers !! j = Some q →
  peerIsStale p now = false → peerIsStale q now = false → key p = Some c → key q = Some c →
  shadowed_by key now (primaries key now 0 peers ∅) i p = "" → shadowed_by key now (primaries key now 0 peers ∅) j q = "" → i = j.
Proof.
  intros Hn Hi Hj Hp Hq Hkp Hkq. unfold shadowed_by. rewrite Hp, Hq, Hkp, Hkq.
  assert (is_Some (primaries key now 0 peers ∅ !! c)) as [[n u] Hu] by (apply primaries_some; right; exists p; split_and!; [by eapply list_elem_of_lookup_2|done..]).
  rewrite Hu. apply primaries_from in Hu as [?%lookup_empty_Some|Hu]; [done|]. rewrite Forall_forall in Hn. specialize (Hn u Hu).
  destruct (Nat.eqb_spec n i), (Nat.eqb_spec n j); congruence.
Qed.

End primary.

(** Two candidates of one cycle that share a machine, or a household, are the
    same candidate. *)
Lemma candidates_apart halvings now keeper epoch (s : registryState) c1 c2 p1 p2 :
  named s.(Peers) → s.(Peers) !! "" = None →
  let cs := rewardCandidates halvings now keeper epoch s in
  c1 ∈ cs → c2 ∈ cs → s.(Peers) !! c1.(rc_NodeID) = Some p1 → s.(Peers) !! c2.(rc_NodeID) = Some p2 →
  (∃ k, machine_key p1 = Some k ∧ machine_key p2 = Some k) ∨ (∃ k, household_key p1 = Some k ∧ household_key p2 = Some k) →
  c1.(rc_NodeID) = c2.(rc_NodeID).
Proof.
  intros Hn H0 cs Hc1 Hc2 Hp1 Hp2 Hshared. set (peers := sort_slice by_name (peer_list s)).
  pose proof (pick_stands halvings keeper now epoch (paid_nodes epoch s.(RewardPayouts)) (markSharedHardware now peers)
    (spent_in epoch s.(RewardPayouts))) as Hall. rewrite Forall_forall in Hall. fold (rewardCandidates halvings now keeper epoch s) in Hall. fold cs in Hall.
  assert (Forall (λ p, s.(Peers) !! p.(pe_Name) = Some p) peers) as Hpeers.
  { apply Forall_forall. intros p Hp. unfold peers in Hp. rewrite sort_slice_perm in Hp. unfold peer_list in Hp.
    apply list_elem_of_fmap in Hp as ([k q] & -> & Hq). apply elem_of_map_to_list in Hq. cbn. by rewrite (Hn k q Hq). }
  assert (∀ c p, c ∈ cs → s.(Peers) !! c.(rc_NodeID) = Some p →
    ∃ i, peers !! i = Some p ∧ peerIsStale p now = false ∧
      shadowed_by machine_key now (primaries machine_key now 0 peers ∅) i p = "" ∧
      shadowed_by household_key now (primaries household_key now 0 peers ∅) i p = "") as Hfind.
  { intros c p Hc Hp. destruct (Hall c Hc) as (q & Hq & Hname & Hqual & _). apply qualifies_inv in Hqual as [_ (_ & _ & _ & Hst & _ & Hhw & Hip & _)%eligible_spec].
    unfold markSharedHardware in Hq. apply list_elem_of_lookup in Hq as [i Hi]. rewrite list_lookup_imap in Hi.
    destruct (peers !! i) as [u|] eqn:Hu; [|done]. injection Hi as <-. cbn in Hname, Hst, Hhw, Hip.
    rewrite Forall_forall in Hpeers. pose proof (Hpeers u ltac:(by eapply list_elem_of_lookup_2)) as Hup. rewrite Hname, Hp in Hup. injection Hup as ->.
    exists i. done. }
  assert (Forall (λ p, p.(pe_Name) ≠ "") peers) as Hne by (eapply Forall_impl; [exact Hpeers|]; intros p Hp Hz; cbn in Hp; rewrite Hz, H0 in Hp; done).
  destruct (Hfind c1 p1 Hc1 Hp1) as (i & Hi & Hsi & Hmi & Hhi), (Hfind c2 p2 Hc2 Hp2) as (j & Hj & Hsj & Hmj & Hhj).
  assert (i = j) as -> by (destruct Hshared as [(k & Hk1 & Hk2)|(k & Hk1 & Hk2)]; eapply one_primary; eauto).
  assert (p1 = p2) as -> by congruence. by rewrite <- (Hn _ _ Hp1), <- (Hn _ _ Hp2).
Qed.
