(* ===== verification/RegistryExamples.v ===== *)
(** A concrete registry for the witnesses: one node that registers and sends
    signed heartbeats. *)
From stdpp Require Import base strings list gmap.
From S2P Require Import Prelude GoStd Sha256 Types TxModel GoText Registry RegistryPay.
From S2P Require Import RewardKeeper RegistryFacts Examples.

#[local] Open Scope string_scope.
#[local] Open Scope Z_scope.

Definition cfg0 : config := mkConfig "s3cret" false 3.

(** A request at a time in milliseconds. *)
Definition post_at (ms : Z) : Request := mkRequest "POST" "" (λ _, "") "10.0.0.7:4100" (Some "10.0.0.7") (ms * millisecond) "0011223344" true.
Definition admin_at (ms : Z) : Request := mkRequest "POST" "s3cret" (λ _, "") "10.0.0.1:4100" (Some "10.0.0.1") (ms * millisecond) "5566778899" true.

Definition day1 : Z := 1800000000000.

Definition node_body (name key : string) : NodeRegisterBody :=
  mkNodeBody name "" "" (hexEncode (key_of key)) "" "validator" "" "" "" "" "" [] "" "machine-1" "".

Definition heartbeat_of (name : string) (n : Z) : HeartbeatBody :=
  let b := mkHeartbeat name "" n "tip" "root" "" "ts" (fmt_d (day1 + n) +:+ "-" +:+ fmt_d n) [] "" "" "" "" "" in
  b <| hb_Signature := hexEncode (ed_Sign name (heartbeat_message name b)) |>.

Definition reg1 : server := Eval vm_compute in exec cfg0 (post_at day1) (NodeRegister (inl (node_body "node1" "node1"))) start.
Definition beat1 : HeartbeatBody := Eval vm_compute in heartbeat_of "node1" 1.
Definition reg2 : server := Eval vm_compute in exec cfg0 (post_at (day1 + 1000)) (Heartbeat (inl beat1)) reg1.
Definition beat2 : HeartbeatBody := Eval vm_compute in heartbeat_of "node1" 2.
Definition reg3 : server := Eval vm_compute in exec cfg0 (post_at (day1 + 61000)) (Heartbeat (inl beat2)) reg2.

Example reg3_uptime : option_map pe_VerifiedUptimeMS (reg3.(reg).(Peers) !! "node1") = Some 60000.
Proof. vm_compute. reflexivity. Qed.

Lemma reg3_run : reg_run cfg0 ((day1 + 61000) * millisecond) reg3.
Proof.
  assert (reg1 = exec cfg0 (post_at day1) (NodeRegister (inl (node_body "node1" "node1"))) start) as E1 by (vm_compute; reflexivity).
  assert (reg2 = exec cfg0 (post_at (day1 + 1000)) (Heartbeat (inl beat1)) reg1) as E2 by (vm_compute; reflexivity).
  assert (reg3 = exec cfg0 (post_at (day1 + 61000)) (Heartbeat (inl beat2)) reg2) as E3 by (vm_compute; reflexivity).
  rewrite E3. apply (run_op _ ((day1 + 1000) * millisecond) _ (post_at (day1 + 61000))); [|vm_compute; discriminate].
  rewrite E2. apply (run_op _ (day1 * millisecond) _ (post_at (day1 + 1000))); [|vm_compute; discriminate].
  rewrite E1. apply (run_op _ 0 _ (post_at day1)); [|vm_compute; discriminate]. by apply run_start.
Qed.

(* ------------------------------------------------------------------ *)
(** * A sale *)

Definition treasury0 : string := "0x5d6f8fbaab199e788ed9cfcb3f7fe2ac9c0450d2".
Definition usdc : earlyAccessAsset :=
  mkAsset "USDC" "Ethereum Mainnet" "1" "https://eth.example" "0xa0b86991c6218b36c1d19d4a2e9eb0ce3606eb48" treasury0 false 6 "1.00" true.

(** The agent's key, and a chain that accepts every transfer. *)
Definition sale_env (name : string) : string :=
  if bool_decide (name = "SYNTHOS_DISTRIBUTION_AGENT_PRIVATE_KEY") then hexEncode (sha256 "a" +:+ sha256 "b") else "".
Definition sale_chain : NativeRPC := mkNative sale_env (λ _, inl 7) (λ _, inl (true, "syn-tx-1")).

Definition pay_hash : string := "0x" +:+ hexEncode (sha256 "payment").

(** A receipt that moves 2.5 USDC to the treasury. *)
Definition receipt0 : any :=
  Object "" [("status", Text "0x1");
    ("logs", Array "" [Object "" [("address", Text "0xA0b86991c6218b36c1d19D4a2e9Eb0cE3606eB48");
      ("topics", Array "" [Text transfer_topic; Text "0x01"; Text ("0x000000000000000000000000" +:+ TrimPrefix treasury0 "0x")]);
      ("data", Text "0x2625a0")]])].
Definition evm0 (url method h : string) : res any := if bool_decide (h = pay_hash) then inl receipt0 else inl Nil.

Definition new_intent : op := NewIntent sale_env [usdc] (inl (mkIntentBody "0xbuyer" alice "usdc" "$2.50")).
Definition verify_it : op := VerifyIntent [usdc] evm0 sale_chain "syn-presale-0011223344" (inl pay_hash).

Definition sale1 : server := Eval vm_compute in exec cfg0 (post_at day1) new_intent start.

Lemma sale_chain_names i txID : allocateNativeSYN sale_chain i = inl txID → txID ≠ "".
Proof.
  unfold allocateNativeSYN, sale_chain. cbn [nr_getenv nr_nonce nr_submit]. cbv zeta. destruct (empty_str _); [done|].
  destruct (FromPrivateKeyHex _), (synthosTxChainID sale_env); try done. destruct (Sign _ _) as [tx [u|e]]; [|done]. by intros [= <-].
Qed.

(* ------------------------------------------------------------------ *)
(** * Rewards *)

(** A node with a month of uptime at [month_on]. *)
Definition launch : Z := rewardProgramStartCutoffMS.
Definition month_on : Z := launch + 31 * 24 * 3600 * 1000.

Definition veteran (name machine : string) : peer :=
  zero_peer
    <| pe_Name := name |> <| pe_PublicKey := hexEncode (key_of name) |> <| pe_RegisteredAt := launch |>
    <| pe_FirstHeartbeatAt := launch |> <| pe_LastHeartbeatAt := month_on |> <| pe_LastSeen := month_on |>
    <| pe_VerifiedUptimeMS := rewardEpoch / millisecond |> <| pe_LastNonce := "1-1" |> <| pe_ValidHeartbeats := 21600 |>
    <| pe_HardwareCommitment := machine |>.

Definition payout_of (name : string) : string := "0x" +:+ sdrop 2 (addr_of name).
Definition keeper_key : string := sha256 "a" +:+ sha256 "b".
Definition keeper_with (cap : Z) : rewardKeeperConfig :=
  mkKeeper true "" keeper_key (AddressFromPublicKey (ed_Public keeper_key)) cap
    (<["node1" := payout_of "node1"]> (<["node2" := payout_of "node2"]> {["node3" := payout_of "node3"]})) 7.
Definition keeper0 : rewardKeeperConfig := keeper_with 20000.
Definition chain_at (n : Z) : rewardChain := mkRewardChain (λ _, inl n) (λ _, inl "tx").

(** Three nodes, the last two on one machine. *)
Definition month1 : server :=
  mkRegServer (empty_registry <| Peers := <["node1" := veteran "node1" "m1"]> (<["node2" := veteran "node2" "m2"]> {["node3" := veteran "node3" "m2"]}) |>) None.

Definition pay_day : op := Rewards (λ _, 0) keeper0 (chain_at 4).

(** The cap is reached with the first two. *)
Example pay_day_pays : map (λ po, (po.(rp_NodeID), po.(rp_AmountSYN), po.(rp_Nonce))) (exec cfg0 (post_at month_on) pay_day month1).(reg).(RewardPayouts)
  = [("node1", 10000, 4); ("node2", 10000, 5)].
Proof. vm_compute. reflexivity. Qed.
