(* ===== verification/RegistryTheorems.v ===== *)
(** The main theorems about the registry's nodes: runs, heartbeats, who can
    approve a validator, with witnesses on a concrete registry; and defects
    that let strangers act for a node. *)
From stdpp Require Import base strings list gmap sorting relations.
From Stdlib Require Import Ascii.
From S2P Require Import Prelude GoStd Sha256 Types TxModel GoText Registry RegistryPay.
From S2P Require Import RewardKeeper RegistryFacts Examples RegistryExamples.

#[local] Open Scope string_scope.
#[local] Open Scope Z_scope.

(** (C30) Runs of the registry: whatever requests arrive, whatever is paid,
    however often it restarts, and whether or not writing to disk succeeds,
    as long as the clock does not go back every entry stands under its name
    and its verified uptime is real time between its first and its last
    signed heartbeat, neither of them in the future. *)
Theorem registry_run_safe `{E : Ed25519} cfg t s :
  reg_run cfg t s → t < 2 ^ 62 →
  ∀ k p, s.(reg).(Peers) !! k = Some p →
    p.(pe_Name) = k ∧ 0 ≤ p.(pe_VerifiedUptimeMS) ≤ p.(pe_LastHeartbeatAt) - p.(pe_FirstHeartbeatAt) ∧
    0 ≤ p.(pe_FirstHeartbeatAt) ≤ p.(pe_LastHeartbeatAt) ∧ p.(pe_LastHeartbeatAt) ≤ UnixMilli t.
Proof.
  intros Hrun Ht k p Hp. destruct (reg_run_ok _ _ _ Hrun Ht) as (_ & Hr & _). destruct (Hr k p Hp). auto.
Qed.

Lemma registry_run_safe_witness : ∃ p, reg3.(reg).(Peers) !! "node1" = Some p ∧
  0 ≤ p.(pe_VerifiedUptimeMS) ≤ p.(pe_LastHeartbeatAt) - p.(pe_FirstHeartbeatAt).
Proof.
  destruct (reg3.(reg).(Peers) !! "node1") as [p|] eqn:Hp; [|vm_compute in Hp; discriminate]. exists p. split; [reflexivity|].
  destruct (registry_run_safe _ _ _ reg3_run ltac:(vm_compute; reflexivity) "node1" p Hp) as (_ & H & _). exact H.
Defined.

(** (C29) A heartbeat is accepted exactly when it names a registered node,
    carries a nonce after that node's last one, and is signed with its
    registered key. It then changes that node's entry only, adding at most two
    minutes of uptime, and a refused one changes nothing. *)
Theorem heartbeat_exact `{E : Ed25519} r b s :
  r.(rq_Method) = "POST" →
  let k := sanitize (defaultString b.(hb_NodeID) b.(hb_NodeIDCamel)) in
  k ≠ "" → b.(hb_Nonce) ≠ "" →
  let '(s', out) := handleAPINodeHeartbeat r (inl b) s in
  match out with
  | inl p' => ∃ p, s.(reg).(Peers) !! k = Some p ∧ acceptable k b p ∧ p' = beat r k b p ∧
      s'.(reg) = s.(reg) <| Peers := <[k := p']> s.(reg).(Peers) |> ∧
      0 ≤ uptime_delta p.(pe_LastHeartbeatAt) (UnixMilli r.(rq_now)) ≤ 120000 ∧
      p'.(pe_VerifiedUptimeMS) = i64 (p.(pe_VerifiedUptimeMS) + uptime_delta p.(pe_LastHeartbeatAt) (UnixMilli r.(rq_now)))
  | inr _ => s' = s ∧ ¬ ∃ p, s.(reg).(Peers) !! k = Some p ∧ acceptable k b p
  end.
Proof.
  intros Hm k Hk Hn. destruct (s.(reg).(Peers) !! k) as [p|] eqn:Hp.
  - destruct (decide (acceptable k b p)) as [Ha|Ha].
    + destruct (heartbeat_accepts r b s p Hm Hk Hn Hp Ha) as (s' & -> & Hs' & _). exists p. split_and!; [done..| | |].
      * apply uptime_delta_range.
      * apply uptime_delta_range.
      * destruct (beat_core r k b p) as [_ _ _ _ _ _ _ Hu _]. exact Hu.
    + destruct (heartbeat_refuses r b s p Hm Hk Hn Hp Ha) as [e ->]. split; [done|]. intros (q & Hq & Hqa). by simplify_eq.
  - rewrite (heartbeat_unknown r b s Hm Hk Hn Hp). split; [done|]. intros (q & Hq & _). by simplify_eq.
Qed.

Lemma heartbeat_exact_witness : (handleAPINodeHeartbeat (post_at (day1 + 61000)) (inl beat1) reg2).1 = reg2.
Proof.
  pose proof (heartbeat_exact (post_at (day1 + 61000)) beat1 reg2 eq_refl ltac:(vm_compute; discriminate) ltac:(vm_compute; discriminate)) as H.
  cbv zeta in H. destruct (handleAPINodeHeartbeat (post_at (day1 + 61000)) (inl beat1) reg2) as [s' [p|e]] eqn:Hrun; cbv beta iota in H.
  - vm_compute in Hrun. discriminate.
  - destruct H as [H _]. exact H.
Defined.

(** (C31) Approval: an entry is an approved validator after a request only
    if it was one before, under the same key (or before any key was set); or
    the request is an administrator's approval of that node, with the
    secret; or it is a stake request for that node, and the address it names
    has the minimum bond (its balance on the chain as the RPC gives it and what
    the verified purchases of the registry, as it is before the request, bring
    it, added modulo [2^64]). Nothing else, rewards and heartbeats included,
    approves, in memory or in the state file; a restart takes what the file
    has, to the letter, and leaves the file alone. *)
Theorem approval_origin `{E : Ed25519} cfg r o s k p :
  p.(pe_ValidatorApproved) = true →
  let s' := exec cfg r o s in
  let by_request :=
    (authorized cfg r = true ∧ ∃ node url, o = Admin node "approve" url ∧ k = sanitize node) ∨
    (∃ balance b, let addr := TrimSpace b.(sb_OperatorAddress) in
       o = Stake balance (inl b) ∧ k = sanitize b.(sb_NodeID) ∧
       10000 ≤ (balance addr + msum (λ i, if sameAddress i.(in_SynthosAddress) addr && bool_decide (i.(in_Status) ∈ ["payment_verified"; "syn_allocated"])
                                          then i.(in_SynAmount) else 0) s.(reg).(EarlyAccessPayments)) `mod` 2 ^ 64) in
  (s'.(reg).(Peers) !! k = Some p →
     (o = Reload ∧ ∃ f, s.(state_file) = Some f ∧ f.(Peers) !! k = Some p) ∨
     o ≠ Reload ∧ (by_request ∨ approved_before s.(reg).(Peers) k p)) ∧
  (∀ f, s'.(state_file) = Some f → f.(Peers) !! k = Some p →
     s.(state_file) = Some f ∨ o ≠ Reload ∧ (by_request ∨ approved_before s.(reg).(Peers) k p)).
Proof.
  intros Ha s' by_request. assert (o = Reload ∨ o ≠ Reload) as [->|Ho] by (destruct o; (by left) || by right).
  - split; [|by left]. unfold s'. cbn. destruct (state_file s) as [f|]; cbn; [left; by eauto|]. by intros ?%lookup_empty_Some.
  - destruct (exec_origins cfg r o s Ho) as [Hr Hf]. split; [intros; right; split; [done|by apply Hr]|]. intros f H1 H2. destruct (Hf k p f H1 H2 Ha); auto.
Qed.

Definition approve1 : op := Admin "node1" "approve" "https://node1.example".

Lemma approval_origin_witness : authorized cfg0 (admin_at (day1 + 62000)) = true.
Proof.
  destruct ((exec cfg0 (admin_at (day1 + 62000)) approve1 reg3).(reg).(Peers) !! "node1") as [p|] eqn:Hp; [|vm_compute in Hp; discriminate].
  assert (p.(pe_ValidatorApproved) = true) as Ha by (vm_compute in Hp; injection Hp as <-; reflexivity).
  destruct (approval_origin cfg0 (admin_at (day1 + 62000)) approve1 reg3 "node1" p Ha) as [H _]. specialize (H Hp).
  destruct H as [[Ho _]|[_ H]]; [discriminate Ho|]. destruct H as [[[H _]|(balance & b & Ho & _)]|(q & Hq & Hqa & _)]; [exact H|discriminate Ho|].
  vm_compute in Hq. injection Hq as <-. discriminate Hqa.
Defined.

(** A defect of the replay check: the nonce of a heartbeat is compared as it
    came, but signed and remembered without the white space around it. Who
    has seen one heartbeat can send it again with a space behind the nonce,
    any number of times, and it counts as uptime. The payout address is not
    part of what is signed either, so it can be replaced on the way. *)
Theorem heartbeat_replayed `{E : Ed25519} r b s s' p' r' pay :
  r.(rq_Method) = "POST" → handleAPINodeHeartbeat r (inl b) s = (s', inl p') → slen (TrimSpace b.(hb_Nonce)) ≤ 128 →
  r'.(rq_Method) = "POST" → normalizePayoutAddress pay ≠ "" →
  ∃ s'' p'', handleAPINodeHeartbeat r' (inl (b <| hb_Nonce := TrimSpace b.(hb_Nonce) +:+ " " |> <| hb_PayoutAddress := pay |>)) s' = (s'', inl p'') ∧
    p''.(pe_VerifiedUptimeMS) = i64 (p'.(pe_VerifiedUptimeMS) + uptime_delta p'.(pe_LastHeartbeatAt) (UnixMilli r'.(rq_now))) ∧
    p''.(pe_LastNonce) = p'.(pe_LastNonce) ∧ p''.(pe_PayoutAddress) = normalizePayoutAddress pay.
Proof.
  intros Hm Hrun Hlen Hm' Hpay. destruct (heartbeat_inv _ _ _ _ _ Hrun) as (p & Hk & Hn & Hp & Ha & -> & Hs').
  set (k := sanitize _) in *. set (b' := b <| hb_Nonce := _ |> <| hb_PayoutAddress := _ |>).
  destruct (beat_core r k b p) as [_ Hkey Hnonce _ _ _ _ _ _]. cbn in Hkey, Hnonce. rewrite (truncate_short 128) in Hnonce by done.
  assert (acceptable k b' (beat r k b p)) as Ha'.
  { split; [right; rewrite Hnonce; apply nonceLess_space|]. rewrite Hkey. destruct Ha as [_ Hv].
    change (heartbeat_message k b') with (canonicalHeartbeatMessage k b.(hb_Height) (truncate b.(hb_Tip) 128) (heartbeat_root b)
      b.(hb_Timestamp) (TrimSpace b.(hb_Nonce) +:+ " ")).
    unfold canonicalHeartbeatMessage. rewrite TrimSpace_space. exact Hv. }
  assert (s'.(reg).(Peers) !! k = Some (beat r k b p)) as Hp' by (rewrite Hs'; apply lookup_insert_eq).
  destruct (heartbeat_accepts r' b' s' _ Hm' Hk ltac:(apply space_nonempty) Hp' Ha') as (s'' & Hrun' & _).
  exists s'', (beat r' k b' (beat r k b p)). split; [exact Hrun'|]. set (q := beat r k b p) in *.
  destruct (beat_core r' k b' q) as [_ _ Hn' _ _ _ _ Hu' _]. rewrite Hn', Hu', beat_pays by done. cbn.
  rewrite (truncate_short 128), TrimSpace_space by (by rewrite TrimSpace_space). done.
Qed.

(** A second one: nobody has to own the address a stake request names. Any
    registered node becomes an approved validator once somebody names an
    address with the bond, without the secret and without a signature. *)
Theorem stake_unproved r balance b s p :
  r.(rq_Method) = "POST" → s.(reg).(Peers) !! sanitize b.(sb_NodeID) = Some p → sanitize b.(sb_NodeID) ≠ "" →
  TrimSpace b.(sb_OperatorAddress) ≠ "" →
  validatorMinimumBondSYN ≤ verified_balance (balance (TrimSpace b.(sb_OperatorAddress))) (TrimSpace b.(sb_OperatorAddress)) s.(reg).(EarlyAccessPayments) →
  ∃ p', (handleAPIValidatorStake r balance (inl b) s).1.(reg).(Peers) !! sanitize b.(sb_NodeID) = Some p' ∧
    p'.(pe_ValidatorApproved) = true ∧ p'.(pe_PublicKey) = p.(pe_PublicKey).
Proof.
  intros Hm Hp Hk Ha Hb. unfold handleAPIValidatorStake, not_post, the_peer, put_peer, on_reg, persist, fail_if, lift, get, gets, modify, mret, SM_ret, mbind, SM_bind.
  rewrite Hm. cbn. rewrite (proj2 (empty_str_false _) Hk), (proj2 (empty_str_false _) Ha), Hp. cbn. unfold Registry.staked.
  rewrite (proj2 (Z.leb_le _ _) Hb). cbn. eexists. split; [destruct (rq_saved r); apply lookup_insert_eq|]. by split.
Qed.

(** A third one: a node that was silent for five minutes loses its name to
    whoever registers it with another key, and with it its uptime and its
    approval; [nodeRekeyAfter], a day, is not used. *)
Theorem stale_takeover r b s p :
  let k := sanitize (defaultString (defaultString b.(nb_NodeID) b.(nb_NodeIDCamel)) b.(nb_PublicID)) in
  let key := truncate (defaultString b.(nb_PublicKey) b.(nb_PublicKeyAlt)) 256 in
  r.(rq_Method) = "POST" → s.(reg).(Peers) !! k = Some p → k ≠ "" → key ≠ "" → key ≠ p.(pe_PublicKey) → p.(pe_PublicKey) ≠ "" →
  defaultString b.(nb_Endpoint) b.(nb_URL) = "" → staleAfter ≤ since r.(rq_now) p.(pe_LastSeen) →
  ∃ p', (handleAPINodeRegister r (inl b) s).1.(reg).(Peers) !! k = Some p' ∧
    p'.(pe_PublicKey) = key ∧ p'.(pe_VerifiedUptimeMS) = 0 ∧ p'.(pe_ValidatorApproved) = false.
Proof.
  intros k key Hm Hp Hk Hkey Hne Hpk Hend Hst.
  unfold handleAPINodeRegister, not_post, the_peer, put_peer, on_reg, persist, fail_if, lift, get, gets, modify, mret, SM_ret, mbind, SM_bind.
  rewrite Hm, (bool_decide_eq_true_2 ("POST" = "POST")) by done. cbn. fold k key.
  rewrite (proj2 (empty_str_false _) Hk), (proj2 (empty_str_false _) Hkey), Hend, Hp. change (truncate "" 256) with "". cbn.
  rewrite (proj2 (empty_str_false _) Hpk), bool_decide_eq_false_2 by congruence. cbn. rewrite (proj2 (Z.ltb_ge _ _) Hst), !andb_false_r. cbn.
  eexists. split; [destruct (rq_saved r); apply lookup_insert_eq|]. done.
Qed.
