(* ===== verification/PayoutTheorems.v ===== *)
(** The main theorems about what the registry hands on and pays out: mail,
    early-access allocations and monthly rewards, with witnesses; and defects
    of the sale and of the rewards. *)
From stdpp Require Import base strings list gmap sorting.
From S2P Require Import Prelude GoStd Sha256 Types TxModel GoText Registry RegistryPay.
From S2P Require Import RewardKeeper RegistryFacts RegistryFrame RegistryPayFacts.
From S2P Require Import RewardFacts Examples RegistryExamples.

#[local] Open Scope string_scope.
#[local] Open Scope Z_scope.

(** (C32) The mailbox refines a bounded queue for each name. Over any
    sequence of requests that starts with an empty box, what was handed out
    followed by what still waits is, in order and without repetition, part of
    what was posted; it is all of it unless more than [maxMailbox] messages
    waited at some point; and never more than [maxMailbox] wait. *)
Theorem mailbox_delivery `{E : Ed25519} cfg k ops s :
  Forall (λ ro, ro.2 ≠ Reload) ops → 0 ≤ cfg.(maxMailbox) → box k s = [] →
  let '(s', posts, handed_out, overflow) := mail_log cfg k ops s in
  (handed_out ++ box k s')%list `sublist_of` posts ∧ (overflow = false → (handed_out ++ box k s')%list = posts) ∧
  Z.of_nat (length (box k s')) ≤ cfg.(maxMailbox).
Proof.
  intros Hops Hmax Hbox. pose proof (mail_log_spec cfg k ops s Hops Hmax) as H. destruct (mail_log cfg k ops s) as [[[s' ps] ds] over].
  rewrite Hbox in H. destruct H as (H1 & H2 & H3). split_and!; [done|done|]. apply H3. cbn. lia.
Qed.

Definition mail_of (body : string) : Request * op := (admin_at day1, Mail "" (inl (mkMailBody "node2" "" "" "note" "node1" (Some body) None))).
Definition pull_at (ms : Z) : Request * op :=
  (mkRequest "GET" "" (λ _, "") "10.0.0.9:1" (Some "10.0.0.9") (ms * millisecond) "99" true, Mail "node2" (inr (Err "EOF"))).

Lemma mailbox_delivery_witness :
  let ops := [mail_of "a"; mail_of "b"; pull_at (day1 + 1); mail_of "c"] in
  map ms_Payload (mail_log cfg0 "node2" ops start).1.2 = [Some "a"; Some "b"] ∧
  ((mail_log cfg0 "node2" ops start).1.2 ++ box "node2" (mail_log cfg0 "node2" ops start).1.1.1)%list = (mail_log cfg0 "node2" ops start).1.1.2.
Proof.
  intros ops. split; [vm_compute; reflexivity|].
  pose proof (mailbox_delivery cfg0 "node2" ops start ltac:(repeat constructor; discriminate) ltac:(vm_compute; discriminate) eq_refl) as H.
  assert ((mail_log cfg0 "node2" ops start).2 = false) as Hov by (vm_compute; reflexivity).
  destruct (mail_log cfg0 "node2" ops start) as [[[s' ps] ds] over]. destruct H as (_ & H & _). exact (H Hov).
Defined.

(** (C24) The early-access sale has coins sent once for an intent and once for
    the hash of a payment, as far as the registry learns of it. Over any run of
    the registry in which requests for intents are served one at a time, writes
    reach the disk, names of new intents do not repeat and the chain names what
    it accepts, restarts included: every transfer the registry asks for is for
    an intent priced at a tenth of a SYN per cent, at least 20, whose payment
    the EVM node confirmed (a successful transaction of at least the quoted
    amount to the intent's address), and once it was answered with an
    acceptance no transfer is asked for again for that intent, nor for that
    hash as it is spelled (in lower case, with or without 0x: two spellings of
    one payment are two hashes), and the intent stays on record as allocated.
    A transfer that came back with an error may be asked for again, even if the
    chain had accepted it and only the answer was lost. *)
Theorem payment_once `{E : Ed25519} cfg s log :
  sale_run cfg s log →
  (∀ before a after txID, log = (before ++ a :: after)%list → a.(al_answer) = inl txID →
     (∀ b, b ∈ after → al_ID b ≠ al_ID a ∧ al_TxHash b ≠ al_TxHash a) ∧
     intents s !! al_ID a = Some a.(al_intent) ∧ a.(al_intent).(in_Status) = "syn_allocated" ∧ hashes s !! al_TxHash a = Some (al_ID a)) ∧
  ∀ a, a ∈ log → backed a.
Proof.
  intros Hrun%sale_run_ok. split; [|apply (so_backed _ _ Hrun)]. intros before a after txID -> Ha.
  split; [intros b Hb; apply (so_last _ _ Hrun before a after b); [done|by exists txID|done]|].
  apply (so_log _ _ Hrun); [rewrite elem_of_app, elem_of_cons; auto|by exists txID].
Qed.

Lemma payment_once_witness : ∃ a, asked_for (post_at day1) verify_it sale1 = [a] ∧ a.(al_intent).(in_SynAmount) = 25 ∧ backed a ∧
  a.(al_intent).(in_Status) = "syn_allocated".
Proof.
  assert (sale_run cfg0 (exec cfg0 (post_at day1) verify_it sale1) ([] ++ asked_for (post_at day1) verify_it sale1)) as Hrun.
  { apply sale_op; [|split; [reflexivity|exact sale_chain_names]].
    assert (sale1 = exec cfg0 (post_at day1) new_intent start) as -> by (vm_compute; reflexivity).
    apply (sale_op cfg0 start [] (post_at day1) new_intent); [apply sale_start|split; [reflexivity|vm_compute; reflexivity]]. }
  destruct (payment_once cfg0 _ _ Hrun) as (H1 & H2). cbn [app] in H1, H2.
  destruct (asked_for (post_at day1) verify_it sale1) as [|a [|]] eqn:Ha; [vm_compute in Ha; discriminate| |vm_compute in Ha; discriminate].
  exists a. split; [reflexivity|]. split; [vm_compute in Ha; injection Ha as <-; reflexivity|].
  split; [apply H2; apply list_elem_of_singleton; reflexivity|].
  destruct (al_answer a) as [txID|e] eqn:Han; [|vm_compute in Ha; injection Ha as <-; discriminate Han].
  destruct (H1 [] a [] txID eq_refl Han) as (_ & _ & H & _). exact H.
Defined.

(** (C25) The reward keeper stays within its bounds, as far as it learns of
    its transfers. Over any run from a registry that has not paid yet, whose
    cycles use one configuration and reach the disk, with whatever else fails or
    restarts in between: the transfers the chain said it accepted are exactly
    the recorded payouts, in order; no node has two of them for one month; those
    of one month cost no more than the cap; and every transfer submitted,
    accepted or not, goes to the payout address the approval file has for its
    node and is of at most 10000 SYN. A transfer whose acceptance was lost on
    the way is not recorded, and the node is paid again. *)
Theorem rewards_safe `{E : Ed25519} cfg halvings keeper t s log :
  keeper_run cfg halvings keeper t s log → t < 2 ^ 62 → 0 ≤ keeper.(rk_MonthlyCap) → keeper.(rk_MonthlyCap) + rewardActivationSYN ≤ MaxUint64 →
  Forall2 recorded s.(reg).(RewardPayouts) (taken log) ∧
  NoDup ((λ x, sent_key x.1) <$> taken log) ∧ (∀ epoch, taken_in epoch (taken log) ≤ keeper.(rk_MonthlyCap)) ∧
  ∀ tx answer, (tx, answer) ∈ log → keeper.(rk_Approved) !! (sent_key tx).1 = Some tx.(To) ∧ 0 < tx.(Amount) ≤ 10000.
Proof.
  intros Hrun Ht H0 Hcap. destruct (keeper_run_ok cfg halvings keeper t s log Hrun Ht H0 Hcap) as (_ & _ & _ & [H1 H2 _] & Hrec & Hmod).
  destruct (recorded_totals _ _ Hrec) as [Hk Ht']. split; [done|]. rewrite Hk. split; [done|]. split; [intros epoch; by rewrite Ht'|].
  intros tx answer Hin. rewrite Forall_forall in Hmod. exact (Hmod _ Hin).
Qed.

Lemma month1_ok : server_ok (UnixMilli (month_on * millisecond)) month1.
Proof.
  assert (∀ n m, node_ok (UnixMilli (month_on * millisecond)) n (veteran n m)) as Hv.
  { intros n m. split; [reflexivity|..]; vm_compute; intuition discriminate. }
  split; [|discriminate]. unfold peers_ok, month1. cbn [reg Peers]. apply map_Forall_insert_2; [apply Hv|].
  apply map_Forall_insert_2; [apply Hv|]. apply map_Forall_singleton. apply Hv.
Qed.

Lemma rewards_safe_witness :
  let log := submitted (post_at month_on) pay_day month1 in
  length (taken log) = 2%nat ∧ NoDup ((λ x, sent_key x.1) <$> taken log) ∧ taken_in "2026-12" (taken log) ≤ keeper0.(rk_MonthlyCap).
Proof.
  assert (keeper_run cfg0 (λ _, 0) keeper0 (month_on * millisecond) (exec cfg0 (post_at month_on) pay_day month1)
    ([] ++ submitted (post_at month_on) pay_day month1)) as Hrun.
  { apply (keeper_op cfg0 (λ _, 0) keeper0 (month_on * millisecond) month1 [] (post_at month_on)).
    - apply keeper_start; [vm_compute; discriminate|exact month1_ok|vm_compute; reflexivity|vm_compute; reflexivity].
    - vm_compute; discriminate.
    - intros h k ch Ho. injection Ho as <- <- _. split; [reflexivity|split; reflexivity]. }
  destruct (rewards_safe cfg0 (λ _, 0) keeper0 _ _ _ Hrun ltac:(vm_compute; reflexivity) ltac:(vm_compute; discriminate) ltac:(vm_compute; discriminate))
    as (_ & H1 & H2 & _). cbn [app] in H1, H2. intros log. split; [vm_compute; reflexivity|]. split; [exact H1|exact (H2 "2026-12")].
Defined.

(** One machine, one household, one reward: in one cycle no two nodes
    with the same hardware commitment or the same household address are
    candidates. *)
Theorem one_reward_per_machine halvings now keeper epoch (s : registryState) c1 c2 p1 p2 :
  named s.(Peers) → s.(Peers) !! "" = None →
  let cs := rewardCandidates halvings now keeper epoch s in
  c1 ∈ cs → c2 ∈ cs → s.(Peers) !! c1.(rc_NodeID) = Some p1 → s.(Peers) !! c2.(rc_NodeID) = Some p2 →
  (∃ k, machine_key p1 = Some k ∧ machine_key p2 = Some k) ∨ (∃ k, household_key p1 = Some k ∧ household_key p2 = Some k) →
  c1.(rc_NodeID) = c2.(rc_NodeID).
Proof. apply candidates_apart. Qed.

(** With a cap for all three, the third node, on the machine of the second,
    is not paid. *)
Lemma one_reward_per_machine_witness :
  let keeper := keeper_with 250000 in
  let cs := rewardCandidates (λ _, 0) (month_on * millisecond) keeper (epoch_of (month_on * millisecond)) month1.(reg) in
  map rc_NodeID cs = ["node1"; "node2"] ∧ Forall (λ c, c.(rc_NodeID) ≠ "node3") cs.
Proof.
  intros keeper cs. split; [vm_compute; reflexivity|]. apply Forall_forall. intros c3 Hc3 Hid.
  destruct (cs !! 1%nat) as [c2|] eqn:Hc2; [|vm_compute in Hc2; discriminate].
  assert (c2.(rc_NodeID) = "node2") as Hid2 by (vm_compute in Hc2; injection Hc2 as <-; reflexivity).
  pose proof (one_reward_per_machine (λ _, 0) (month_on * millisecond) keeper (epoch_of (month_on * millisecond)) month1.(reg) c2 c3
    (veteran "node2" "m2") (veteran "node3" "m2") ltac:(apply (bool_decide_unpack _); vm_compute; exact I) ltac:(vm_compute; reflexivity)) as H.
  cbv zeta in H. rewrite Hid, Hid2 in H.
  discriminate (H ltac:(exact (list_elem_of_lookup_2 cs 1 c2 Hc2)) Hc3 ltac:(vm_compute; reflexivity) ltac:(vm_compute; reflexivity)
    ltac:(left; exists "m2"; split; reflexivity)).
Defined.

(* ------------------------------------------------------------------ *)
(** * Defects *)

(** Requests for one intent are not kept apart: between reserving the hash and
    saving the outcome the lock is free, and the reservation lets the same
    intent in again. Two requests that overlap both have the coins sent. *)
Theorem double_allocation `{E : Ed25519} r assets rpc w w' id h i asset t t' s :
  r.(rq_saved) = true → isHexHash (ToLower (TrimSpace h)) = true →
  intents s !! id = Some i → i.(in_ID) = id → i.(in_Status) ≠ "syn_allocated" → hashes s !! ToLower (TrimSpace h) = None →
  earlyAccessAssetBySymbol assets i.(in_AssetSymbol) = Some asset → paid_by rpc (ToLower (TrimSpace h)) i asset →
  (∀ j, allocateNativeSYN w j = inl t) → (∀ j, allocateNativeSYN w' j = inl t') →
  ∃ s1 s2 s3 s4 i3 i4,
    begin_verify r id (inl h) s = (s1, inl (inr (i, ToLower (TrimSpace h)))) ∧
    begin_verify r id (inl h) s1 = (s2, inl (inr (i, ToLower (TrimSpace h)))) ∧
    settle r assets rpc w id i (ToLower (TrimSpace h)) s2 = (s3, inl (Verified i3 (inl t))) ∧
    settle r assets rpc w' id i (ToLower (TrimSpace h)) s3 = (s4, inl (Verified i4 (inl t'))).
Proof.
  intros Hs Hh Hi Hid Hst Hfree Ha Hp Hw Hw'. set (hash := ToLower (TrimSpace h)) in *.
  assert (∀ s, intents s !! id = Some i → (hashes s !! hash = None ∨ hashes s !! hash = Some id) →
    ∃ s', begin_verify r id (inl h) s = (s', inl (inr (i, hash))) ∧ intents s' = intents s ∧ hashes s' !! hash = Some id) as Hb.
  { clear s Hi Hfree. intros s Hi Hf. unfold begin_verify, reservePaymentTxHash, persist, on_reg, fail_if, lift, get, modify, mret, SM_ret, mbind, SM_bind.
    cbv zeta. fold hash. unfold intents, hashes in *. rewrite Hh. cbn. rewrite Hi, bool_decide_eq_false_2 by done. cbn.
    destruct Hf as [-> | ->]; cbn; [|rewrite bool_decide_eq_true_2 by done; cbn]; rewrite Hs; eexists; split_and!; try done; apply lookup_insert_eq. }
  assert (∀ v t s, (∀ j, allocateNativeSYN v j = inl t) → ∃ s' i', settle r assets rpc v id i hash s = (s', inl (Verified i' (inl t)))) as Hset.
  { intros v u s0 Hv. unfold settle. cbv zeta. rewrite Ha, (proj2 (verifyEVMPayment_spec _ _ _ _) Hp), Hv.
    unfold savePaymentIntent, persist, on_reg, modify, mret, SM_ret, mbind, SM_bind. rewrite Hs. eauto. }
  destruct (Hb s Hi (or_introl Hfree)) as (s1 & H1 & Hi1 & Hh1). rewrite <- Hi1 in Hi. destruct (Hb s1 Hi (or_intror Hh1)) as (s2 & H2 & _).
  destruct (Hset w t s2 Hw) as (s3 & i3 & H3), (Hset w' t' s3 Hw') as (s4 & i4 & H4). by exists s1, s2, s3, s4, i3, i4.
Qed.

(** An allocation whose answer is lost is asked for again, though the chain may
    have accepted it: two transfers for one payment. *)
Definition lost_it : op :=
  VerifyIntent [usdc] evm0 (mkNative sale_chain.(nr_getenv) sale_chain.(nr_nonce) (λ _, inr (Err "timeout"))) "syn-presale-0011223344" (inl pay_hash).
Definition sale_lost : server := Eval vm_compute in exec cfg0 (post_at day1) lost_it sale1.

Example lost_answer_repeats :
  map (λ a, (al_ID a, match a.(al_answer) with inl _ => true | inr _ => false end))
    (asked_for (post_at day1) lost_it sale1 ++ asked_for (post_at day1) verify_it sale_lost)
  = [("syn-presale-0011223344", false); ("syn-presale-0011223344", true)].
Proof. vm_compute. reflexivity. Qed.

(** The hash of a payment that was found good is to stay with its intent,
    whatever becomes of the allocation. But a request that repeats a pending
    allocation checks the payment again, and if the EVM node does not answer
    then, the hash is free for any other intent. *)
Definition unreachable_it : op := VerifyIntent [usdc] (λ _ _ _, inr (Err "timeout")) sale_chain "syn-presale-0011223344" (inl pay_hash).

Example pending_hash_released :
  hashes sale_lost !! pay_hash = Some "syn-presale-0011223344" ∧ in_Status <$> intents sale_lost !! "syn-presale-0011223344" = Some "allocation_pending" ∧
  hashes (exec cfg0 (post_at day1) unreachable_it sale_lost) !! pay_hash = None.
Proof. vm_compute. by split_and!. Qed.

(** One machine, two rewards in a month: once the primary of a machine has
    been paid and goes offline, the node it shadowed is paid as well, for
    uptime both of them proved at the same time. *)
Definition month2_run : list (string * string) :=
  let pay n := Rewards (λ _, 0) (keeper_with 250000) (chain_at n) in
  let s1 := exec cfg0 (post_at month_on) (pay 4) month1 in
  let s2 := exec cfg0 (post_at (month_on + 600000)) (Heartbeat (inl (heartbeat_of "node3" 1))) s1 in
  let s3 := exec cfg0 (post_at (month_on + 600000)) (pay 6) s2 in
  map (λ po, (po.(rp_NodeID), po.(rp_Epoch))) s3.(reg).(RewardPayouts).

Example machine_paid_twice : month2_run = [("node1", "2026-12"); ("node2", "2026-12"); ("node3", "2026-12")].
Proof. vm_compute. reflexivity. Qed.
