(* ===== verification/Relayer.v ===== *)
(** The bridge relayer (cmd/bridgerelayer/main.go, anchor.go): it copies lock
    events of the native chain to an outbox, and turns confirmed logs of two
    EVM contracts into proofs of release, which it writes down and may submit
    to the native chain.

    Bytes are strings. What an EVM node and the native node answer, and
    whether the outbox can be written, are arguments of a pass; the outbox and
    the submitted transfers are the effects it leaves behind. The relayer's
    memory (block cursors, what it has seen) is lost when it stops, which it
    does at the first error. *)
From stdpp Require Import base strings list gmap.
From Stdlib Require Import Ascii.
From S2P Require Import Prelude GoStd Sha256 Json Types TxModel Bridge Apply Block.
From S2P Require Import GoText RegistryPay.

#[local] Open Scope string_scope.
#[local] Open Scope Z_scope.

Definition bridgeLockedTopic : string := "0x50f709ab204aa3a58cdfc578dffa863d2b371f796ec7a5f3b01ec247d686ea98".
Definition synBurnedForNativeReleaseTopic : string := "0xa24b8f1fbe9297092be42f355cae9efc17ac2f4086a52b7d8577707a458ca97d".

(** Wrapped SYN has 18 decimals, native SYN none. *)
Definition wrappedSynUnitScale : Z := big_Exp 10 18.

(** A native lock event as the relayer decodes it: the chain's record without
    [recipient]. *)
Record bridgeEvent : Type := mkBridgeEvent {
  be_ID : string;
  be_Type : string;
  be_Address : Address;
  be_Amount : Z;
  be_AssetID : string;
  be_SourceChainID : string;
  be_DestinationChainID : string;
  be_SourceEventID : string;
  be_DestinationRecipient : string;
  be_TxID : string;
  be_Timestamp : Z
}.

Record externalLockProof : Type := mkProof {
  ep_SourceChainID : string;
  ep_SourceEventID : string;
  ep_Recipient : Address;
  ep_Amount : Z;
  ep_AssetID : string;
  ep_Confirmations : Z;
  ep_MinConfirmations : Z;
  ep_ObservedBlock : Z;
  ep_ObservedTxHash : string;
  ep_DestinationChainID : string;
  ep_ValidatorSignatures : list BridgeValidatorSignature
}.

Record evmLog : Type := mkLog {
  lg_Address : string;
  lg_Topics : list string;
  lg_Data : string;
  lg_BlockNumber : string;
  lg_TransactionHash : string;
  lg_TransactionIndex : string;
  lg_LogIndex : string;
  lg_Removed : bool
}.

(* ------------------------------------------------------------------ *)
(** * Numbers on the wire *)

(** [hexBig] *)
Definition hexBig (value : string) : res Z :=
  let value := TrimPrefix (TrimSpace value) "0x" in
  if empty_str value then inl 0
  else match SetString value 16 with Some n => inl n | None => inr (Err "invalid hex integer") end.

(** [parseHexUint64] *)
Definition parseHexUint64 (value : string) : res Z :=
  match hexBig value with
  | inr e => inr e
  | inl n => if bool_decide (in_u64 n) then inl n else inr (Err "hex value overflows uint64")
  end.

(** [topicUintString] *)
Definition topicUintString (topic : string) : res string :=
  match hexBig topic with inr e => inr e | inl n => inl (big_String n) end.

(** [wordBig], [wordUint64] *)
Definition wordBig (word : string) : Z := SetBytes word.
Definition wordUint64 (word : string) : res Z :=
  if negb (slen word =? 32) then inr (Err "ABI word must be 32 bytes")
  else
    let n := SetBytes word in
    if bool_decide (in_u64 n) then inl n else inr (Err "ABI word overflows uint64").

Definition word_at (data : string) (i : Z) : res Z := match slice data i (i + 32) with inl w => wordUint64 w | inr e => inr e end.

(** The dynamic part both events have: an offset, there a length, then the
    bytes. *)
Definition recipient_at (data : string) (offset : Z) : res string :=
  if (slen data <? offset) || (slen data <? u64 (offset + 32)) then inr (Err "recipient offset out of range")
  else
    match word_at data offset with
    | inr e => inr e
    | inl length =>
        let start := u64 (offset + 32) in
        let stop := u64 (start + length) in
        if slen data <? stop then inr (Err "recipient bytes out of range") else slice data start stop
    end.

(* ------------------------------------------------------------------ *)
(** * Events of the EVM contracts *)

(** [decodeSynBurnedData]: recipient, amount, nonce. *)
Definition decodeSynBurnedData (dataHex : string) : res (string * Z * Z) :=
  match hexDecode (TrimPrefix dataHex "0x") with
  | None => inr (Err "encoding/hex: invalid byte")
  | Some data =>
      if slen data <? 3 * 32 then inr (Err "SynBurnedForNativeRelease data too short")
      else
        match word_at data 0, slice data 32 64, word_at data 64 with
        | inl offset, inl amount, inl nonce =>
            match recipient_at data offset with inl r => inl (r, wordBig amount, nonce) | inr e => inr e end
        | inr e, _, _ | inl _, inr e, _ | inl _, inl _, inr e => inr e
        end
  end.

(** [decodeBridgeLockedData]: asset, sender, recipient, amount. *)
Definition decodeBridgeLockedData (dataHex : string) : res (string * string * string * Z) :=
  match hexDecode (TrimPrefix dataHex "0x") with
  | None => inr (Err "encoding/hex: invalid byte")
  | Some data =>
      if slen data <? 5 * 32 then inr (Err "BridgeLocked data too short")
      else
        match slice data 12 32, slice data 44 64, word_at data 64, word_at data 96 with
        | inl asset, inl sender, inl offset, inl amount =>
            match recipient_at data offset with inl r => inl (hex0x asset, hex0x sender, r, amount) | inr e => inr e end
        | inr e, _, _, _ | inl _, inr e, _, _ | inl _, inl _, inr e, _ | inl _, inl _, inl _, inr e => inr e
        end
  end.

(** [nativeAmountFromWrappedSynUnits] *)
Definition nativeAmountFromWrappedSynUnits (raw : Z) : res Z :=
  if raw <=? 0 then inr (Err "burned amount must be positive")
  else
    let quotient := Z.quot raw wrappedSynUnitScale in
    if negb (Z.rem raw wrappedSynUnitScale =? 0) then inr (Err "burned amount is not a whole number of SYN (not a multiple of 10^18)")
    else if bool_decide (in_u64 quotient) then inl quotient else inr (Err "converted native amount overflows uint64").

(** [nativeRecipientFromBytes] *)
Definition nativeRecipientFromBytes (raw : string) : res Address :=
  let text := TrimSpace raw in
  if HasPrefix text "0x" && (4 <=? slen text) then inl text
  else if slen raw =? 20 then inl (hex0x raw)
  else inr (Err "destination recipient must be a native address string or 20-byte address").

(** How an event is named on the native chain: by where its log stands, or
    else by its first topic. *)
Definition source_event (log : evmLog) (topic1 : string) : string :=
  if negb (empty_str log.(lg_TransactionHash)) && negb (empty_str log.(lg_LogIndex))
  then ToLower (log.(lg_TransactionHash) +:+ ":" +:+ log.(lg_LogIndex)) else ToLower topic1.

(** The block of a log and its confirmations. *)
Definition log_depth (log : evmLog) (currentHead : Z) : res (Z * Z) :=
  match parseHexUint64 log.(lg_BlockNumber) with
  | inr e => inr e
  | inl blockNumber =>
      if currentHead <? blockNumber then inr (Err "log block is above current head")
      else inl (blockNumber, u64 (currentHead - blockNumber + 1))
  end.

(** [proofFromBridgeLockedLog] *)
Definition proofFromBridgeLockedLog (log : evmLog) (currentHead minConfirmations : Z) : res externalLockProof :=
  if log.(lg_Removed) then inr (Err "removed EVM log")
  else
    match log.(lg_Topics) with
    | t0 :: t1 :: t2 :: t3 :: _ =>
        if negb (bool_decide (ToLower t0 = bridgeLockedTopic)) then inr (Err "not a BridgeLocked log")
        else
          match topicUintString t2, topicUintString t3, log_depth log currentHead, decodeBridgeLockedData log.(lg_Data) with
          | inl sourceChainID, inl destinationChainID, inl (blockNumber, confirmations), inl (_, _, recipientBytes, amount) =>
              match nativeRecipientFromBytes recipientBytes with
              | inr e => inr e
              | inl recipient =>
                  inl (mkProof sourceChainID (source_event log t1) recipient amount "syn" confirmations minConfirmations
                         blockNumber log.(lg_TransactionHash) destinationChainID [])
              end
          | inr e, _, _, _ | inl _, inr e, _, _ | inl _, inl _, inr e, _ | inl _, inl _, inl _, inr e => inr e
          end
    | _ => inr (Err "not a BridgeLocked log")
    end.

(** [proofFromSynBurnedLog] *)
Definition proofFromSynBurnedLog (sourceChainID : string) (log : evmLog) (currentHead minConfirmations : Z) : res externalLockProof :=
  if log.(lg_Removed) then inr (Err "removed EVM log")
  else
    match log.(lg_Topics) with
    | t0 :: t1 :: _ :: _ =>
        if negb (bool_decide (ToLower t0 = synBurnedForNativeReleaseTopic)) then inr (Err "not a SynBurnedForNativeRelease log")
        else
          match log_depth log currentHead, decodeSynBurnedData log.(lg_Data) with
          | inl (blockNumber, confirmations), inl (recipientBytes, rawAmount, _) =>
              match nativeRecipientFromBytes recipientBytes, nativeAmountFromWrappedSynUnits rawAmount with
              | inl recipient, inl nativeAmount =>
                  inl (mkProof sourceChainID (source_event log t1) recipient nativeAmount "syn" confirmations minConfirmations
                         blockNumber log.(lg_TransactionHash) "" [])
              | inr e, _ | inl _, inr e => inr e
              end
          | inr e, _ | inl _, inr e => inr e
          end
    | _ => inr (Err "not a SynBurnedForNativeRelease log")
    end.

(* ------------------------------------------------------------------ *)
(** * Submitting a release *)

(** What the native node answers: the nonce of an account, the chain ID of
    transactions in [/status], and to [/submitTx]. *)
Record NativeNode : Type := mkNode {
  nn_account : Address → res Z;
  nn_status : res Z;
  nn_submit : Tx → res unit;
  nn_now : Z
}.

(** [fetchNativeStatus] *)
Definition fetchNativeStatus (n : NativeNode) : res Z :=
  match n.(nn_status) with
  | inr e => inr e
  | inl id => if id =? 0 then inr (Err "native RPC did not return tx_chain_id") else inl id
  end.

(** [json.Marshal] of the signatures. *)
Definition signatures_json (sigs : list BridgeValidatorSignature) : json :=
  JArr (map (λ s, JObj [("validator_id", JStr s.(bs_ValidatorID)); ("signature", JStr s.(bs_Signature))]) sigs).

Definition release_metadata (proof : externalLockProof) : list KeyValuePair :=
  ([mkKV "type" "bridge_release_native"; mkKV "source_chain_id" proof.(ep_SourceChainID);
    mkKV "source_event_id" proof.(ep_SourceEventID); mkKV "observed_tx_hash" proof.(ep_ObservedTxHash)]
   ++ match proof.(ep_ValidatorSignatures) with
      | [] => []
      | sigs => [mkKV "validator_signatures" (marshal (signatures_json sigs))]
      end)%list.

Section with_ed25519.
Context `{E : Ed25519}.

(** The transfer [submitNativeReleaseProof] signs. *)
Definition release_tx (n : NativeNode) (proof : externalLockProof) (priv : string) (fee chainID nonce : Z) : Tx :=
  let pub := ed_Public priv in
  let assetID := if empty_str proof.(ep_AssetID) then "syn" else proof.(ep_AssetID) in
  let tx fee := mkTx "" chainID (AddressFromPublicKey pub) proof.(ep_Recipient) proof.(ep_Amount) fee nonce (hex0x pub) ""
    (if bool_decide (assetID = "syn") then "" else assetID) (release_metadata proof) (n.(nn_now) / second) in
  let reqFee := RequiredFee (tx 0) in
  tx (if fee <? reqFee then reqFee else fee).

(** [submitNativeReleaseProof]: the transfer that was accepted. The request
    for a block it ends with is made for what it may do; its answer is
    ignored. *)
Definition submitNativeReleaseProof (n : NativeNode) (proof : externalLockProof) (privHex : string) (fee : Z) : res Tx :=
  if empty_str privHex then inr (Err "bridge authority private key required")
  else
    match FromPrivateKeyHex privHex with
    | inr e => inr e
    | inl priv =>
        match n.(nn_account) (AddressFromPublicKey (ed_Public priv)), fetchNativeStatus n with
        | inr e, _ | inl _, inr e => inr e
        | inl nonce, inl chainID =>
            match Sign priv (release_tx n proof priv fee chainID nonce) with
            | (_, inr e) => inr e
            | (tx, inl _) => match n.(nn_submit) tx with inr e => inr e | inl _ => inl tx end
            end
        end
    end.

(** [submitNativeRelease], from the decoded proof file. *)
Definition submitNativeRelease (n : NativeNode) (file : res externalLockProof) (privHex : string) (fee : Z) : res Tx :=
  if empty_str privHex then inr (Err "bridge authority private key required")
  else
    match file with
    | inr e => inr e
    | inl proof =>
        if empty_str proof.(ep_SourceChainID) || empty_str proof.(ep_SourceEventID) || empty_str proof.(ep_Recipient) || (proof.(ep_Amount) =? 0)
        then inr (Err "proof requires source_chain_id, source_event_id, recipient, and amount")
        else if (0 <? proof.(ep_MinConfirmations)) && (proof.(ep_Confirmations) <? proof.(ep_MinConfirmations))
        then inr (Err "proof has too few confirmations")
        else submitNativeReleaseProof n proof privHex fee
    end.

(* ------------------------------------------------------------------ *)
(** * Watching an EVM chain *)

Record evmLogSource : Type := mkSource {
  so_label : string;
  so_address : string;
  so_topic : string;
  so_nextBlock : Z;
  so_seen : gset string;
  so_decode : evmLog → Z → Z → res externalLockProof
}.

Definition set_next (b : Z) (s : evmLogSource) : evmLogSource :=
  mkSource s.(so_label) s.(so_address) s.(so_topic) b s.(so_seen) s.(so_decode).
Definition mark_seen (id : string) (s : evmLogSource) : evmLogSource :=
  mkSource s.(so_label) s.(so_address) s.(so_topic) s.(so_nextBlock) ({[id]} ∪ s.(so_seen)) s.(so_decode).

(** What the relayer leaves behind: the lines of the outbox, each with the
    label it is announced with, and the transfers the chain accepted. *)
Record effects : Type := mkEffects { ef_outbox : list (string * externalLockProof); ef_sent : list Tx }.

(** What a pass meets: the EVM's head, its logs of an address with a topic
    between two blocks, whether a line can be written, the native node. *)
Record pass : Type := mkPass {
  pa_head : res Z;
  pa_logs : string → string → Z → Z → res (list evmLog);
  pa_append : externalLockProof → res unit;
  pa_native : NativeNode
}.

Record settings : Type := mkSettings { se_min : Z; se_auto : bool; se_priv : string; se_fee : Z }.

(** The loop over the logs of a source. *)
Fixpoint take_logs (c : settings) (p : pass) (head : Z) (logs : list evmLog) (s : evmLogSource) (f : effects)
  : evmLogSource * effects * res unit :=
  match logs with
  | [] => (s, f, inl tt)
  | log :: logs =>
      match s.(so_decode) log head c.(se_min) with
      | inr e => (s, f, inr e)
      | inl proof =>
          if bool_decide (proof.(ep_SourceEventID) ∈ s.(so_seen)) then take_logs c p head logs s f
          else
            match p.(pa_append) proof with
            | inr e => (s, f, inr e)
            | inl _ =>
                let s := mark_seen proof.(ep_SourceEventID) s in
                let f := mkEffects (f.(ef_outbox) ++ [(s.(so_label), proof)])%list f.(ef_sent) in
                if c.(se_auto) then
                  match submitNativeReleaseProof p.(pa_native) proof c.(se_priv) c.(se_fee) with
                  | inr e => (s, f, inr e)
                  | inl tx => take_logs c p head logs s (mkEffects f.(ef_outbox) (f.(ef_sent) ++ [tx])%list)
                  end
                else take_logs c p head logs s f
            end
      end
  end.

Definition take_source (c : settings) (p : pass) (head : Z) (s : evmLogSource) (f : effects) : evmLogSource * effects * res unit :=
  let confirmedHead := u64 (head - c.(se_min)) in
  let s := if s.(so_nextBlock) =? 0 then set_next confirmedHead s else s in
  if confirmedHead <? s.(so_nextBlock) then (s, f, inl tt)
  else
    match p.(pa_logs) s.(so_address) s.(so_topic) s.(so_nextBlock) confirmedHead with
    | inr e => (s, f, inr e)
    | inl logs =>
        match take_logs c p head logs s f with
        | (s, f, inl _) => (set_next (u64 (confirmedHead + 1)) s, f, inl tt)
        | r => r
        end
    end.

Fixpoint take_sources (c : settings) (p : pass) (head : Z) (ss : list evmLogSource) (f : effects) : list evmLogSource * effects * res unit :=
  match ss with
  | [] => ([], f, inl tt)
  | s :: ss =>
      match take_source c p head s f with
      | (s, f, inr e) => (s :: ss, f, inr e)
      | (s, f, inl _) => let '(ss, f, r) := take_sources c p head ss f in (s :: ss, f, r)
      end
  end.

(** A round of the loop of [watchEVM]. *)
Definition watch_pass (c : settings) (p : pass) (ss : list evmLogSource) (f : effects) : list evmLogSource * effects * res unit :=
  match p.(pa_head) with
  | inr e => (ss, f, inr e)
  | inl head => if head <? c.(se_min) then (ss, f, inl tt) else take_sources c p head ss f
  end.

Fixpoint watch_passes (c : settings) (ps : list pass) (ss : list evmLogSource) (f : effects) : list evmLogSource * effects * res unit :=
  match ps with
  | [] => (ss, f, inl tt)
  | p :: ps =>
      match watch_pass c p ss f with
      | (ss, f, inl _) => watch_passes c ps ss f
      | r => r
      end
  end.

(** The sources [watchEVM] starts with; [chainID] is what the EVM node
    answers. *)
Definition is_evm_address (a : string) : bool := HasPrefix a "0x" && (slen a =? 42).

Definition vault_source (vault : string) (from : Z) : evmLogSource :=
  mkSource "bridge vault lock" vault bridgeLockedTopic from ∅ proofFromBridgeLockedLog.
Definition minter_source (minter : string) (from chainID : Z) : evmLogSource :=
  mkSource "SYN burn-for-release" minter synBurnedForNativeReleaseTopic from ∅ (proofFromSynBurnedLog (big_String chainID)).

Definition watch_sources (vault synMinter : string) (startBlock synMinterStartBlock : Z) (chainID : res Z) : res (list evmLogSource) :=
  let minters :=
    if empty_str synMinter then inl []
    else
      let synMinter := ToLower synMinter in
      if negb (is_evm_address synMinter) then inr (Err "evm-syn-minter must be a 20-byte hex address")
      else match chainID with inr e => inr e | inl id => inl [minter_source synMinter synMinterStartBlock id] end in
  if empty_str vault && empty_str synMinter then inr (Err "at least one of evm-vault or evm-syn-minter is required")
  else if empty_str vault then minters
  else if negb (is_evm_address (ToLower vault)) then inr (Err "evm-vault must be a 20-byte hex address")
  else match minters with inr e => inr e | inl ms => inl (vault_source (ToLower vault) startBlock :: ms) end.

(** [watchEVM]: the effects and the error it ends with. *)
Definition watchEVM (evmRPCURL vault synMinter : string) (startBlock synMinterStartBlock : Z) (chainID : res Z) (c : settings) (ps : list pass)
  : effects * res unit :=
  if empty_str evmRPCURL then (mkEffects [] [], inr (Err "evm-rpc required"))
  else
    match watch_sources vault synMinter startBlock synMinterStartBlock chainID with
    | inr e => (mkEffects [] [], inr e)
    | inl ss => let '(_, f, r) := watch_passes c ps ss (mkEffects [] []) in (f, r)
    end.

End with_ed25519.

(* ------------------------------------------------------------------ *)
(** * Watching the native chain *)

(** [strconv.Atoi], where it succeeds. *)
Definition Atoi (raw : string) : option Z :=
  let '(sign, digits) := match raw with
                         | String "-" s => (-1, s)
                         | String "+" s => (1, s)
                         | _ => (1, raw)
                         end in
  match ParseUint digits with
  | (n, None) => if (- 2 ^ 63 <=? sign * n) && (sign * n <? 2 ^ 63) then Some (sign * n) else None
  | _ => None
  end.

(** [handleBridgeEvents] of internal/rpc/server.go, from the two query
    values: the events it answers. *)
Definition handleBridgeEvents (s : State) (rawType rawLimit : string) : list BridgeRecord :=
  let limit := match Atoi rawLimit with Some parsed => if (0 <? parsed) && (parsed <=? 500) then parsed else 50 | None => 50 end in
  let eventType := TrimSpace rawType in
  take (Z.to_nat limit) (filter (λ e, eventType = "" ∨ e.(br_Type) = eventType) (BridgeEventsSnapshot s)).

(** The relayer's view of a record it is sent. *)
Definition event_of (r : BridgeRecord) : bridgeEvent :=
  mkBridgeEvent r.(br_ID) r.(br_Type) r.(br_Address) r.(br_Amount) r.(br_AssetID) r.(br_SourceChainID) r.(br_DestinationChainID)
    r.(br_SourceEventID) r.(br_DestinationRecipient) r.(br_TxID) r.(br_Timestamp).

(** [fetchNativeBridgeEvents], from a node in state [s]. *)
Definition fetchNativeBridgeEvents (s : State) : list bridgeEvent := map event_of (handleBridgeEvents s "bridge_lock_native" "500").

(** The loop over the events, oldest first: what was seen, the outbox. *)
Fixpoint record_locks (append : bridgeEvent → res unit) (events : list bridgeEvent) (seen : gset string) (outbox : list bridgeEvent)
  : gset string * list bridgeEvent * res unit :=
  match events with
  | [] => (seen, outbox, inl tt)
  | e :: events =>
      if negb (bool_decide (e.(be_Type) = "bridge_lock_native")) || bool_decide (e.(be_ID) ∈ seen) then record_locks append events seen outbox
      else
        match append e with
        | inr er => (seen, outbox, inr er)
        | inl _ => record_locks append events ({[e.(be_ID)]} ∪ seen) (outbox ++ [e])%list
        end
  end.

(** [watchNative], over what it is answered. *)
Fixpoint watchNative (answers : list (res (list bridgeEvent) * (bridgeEvent → res unit))) (seen : gset string) (outbox : list bridgeEvent)
  : gset string * list bridgeEvent * res unit :=
  match answers with
  | [] => (seen, outbox, inl tt)
  | (inr e, _) :: _ => (seen, outbox, inr e)
  | (inl events, append) :: answers =>
      match record_locks append (rev events) seen outbox with
      | (seen, outbox, inl _) => watchNative answers seen outbox
      | r => r
      end
  end.

(* ------------------------------------------------------------------ *)
(** * Anchoring (anchor.go) *)

Definition BaseMainnetChainID : Z := 8453.
Definition anchorMethodSelector : string := "5a1b3260".

(** [ComputeFingerprint] *)
Definition ComputeFingerprint (height : Z) (blockHash stateRoot : string) : string :=
  hex0x (sha256 ("SYNTHOS_ANCHOR_V1:" +:+ fmt_d height +:+ ":" +:+ ToLower blockHash +:+ ":" +:+ ToLower stateRoot)).

(** [EncodeAnchorCalldata]; [%064x] of a number below 2^256 is its 32 bytes
    in hex. *)
Definition EncodeAnchorCalldata (height : Z) (blockHashHex stateRootHex : string) : res string :=
  let bHashClean := TrimPrefix blockHashHex "0x" in
  let sRootClean := TrimPrefix stateRootHex "0x" in
  if negb (slen bHashClean =? 64) then inr (Err "blockHash must be 32 bytes (64 hex characters)")
  else if negb (slen sRootClean =? 64) then inr (Err "stateRoot must be 32 bytes (64 hex characters)")
  else inl ("0x" +:+ anchorMethodSelector +:+ hexEncode (big_endian 32 height) +:+ bHashClean +:+ sRootClean).

(** [SimulateAnchorSubmission]: the fingerprint, when the call goes through. *)
Definition SimulateAnchorSubmission (call : string → res unit) (height : Z) (blockHash stateRoot : string) : res string :=
  match EncodeAnchorCalldata height blockHash stateRoot with
  | inr e => inr e
  | inl calldata => match call calldata with inr e => inr e | inl _ => inl (ComputeFingerprint height blockHash stateRoot) end
  end.

(** [VerifyBaseNetwork] *)
Definition VerifyBaseNetwork (chainID : res Z) : res Z :=
  match chainID with
  | inr e => inr e
  | inl id => if negb (id =? BaseMainnetChainID) && negb (id =? 84532) then inr (Err "connected EVM network is not Base") else inl id
  end.
