(* ===== verification/RelayerFacts.v ===== *)
(** The relayer: its decoders read what the contracts encode, amounts cross
    the boundary exactly, and a watched chain of well-formed events is
    delivered completely, in order, once. *)
From stdpp Require Import base strings list gmap.
From Stdlib Require Import Ascii.
From S2P Require Import Prelude GoStd Json JsonParse JsonRound Types Ledger TxModel Bridge.
From S2P Require Import Staking Apply ApplyFacts GoText RegistryPay Relayer.

#[local] Open Scope string_scope.
#[local] Open Scope Z_scope.

(* ------------------------------------------------------------------ *)
(** * Words *)

(** A word of the ABI. *)
Definition word (z : Z) : string := big_endian 32 z.

Lemma slen_word z : slen (word z) = 32.
Proof. apply length_big_endian. Qed.

Lemma wordBig_word z : 0 ≤ z < 2 ^ 256 → wordBig (word z) = z.
Proof.
  intros Hz. unfold wordBig, SetBytes, word. assert (256 ^ Z.of_nat 32 = 2 ^ 256) as Hp by (vm_compute; reflexivity).
  rewrite SetBytes_big_endian by (by rewrite Hp). lia.
Qed.

Lemma wordUint64_word z : in_u64 z → wordUint64 (word z) = inl z.
Proof.
  intros Hz. unfold wordUint64. rewrite slen_word. cbn [negb Z.eqb Pos.eqb]. change (SetBytes (word z)) with (wordBig (word z)).
  rewrite wordBig_word by (unfold in_u64, MaxUint64 in Hz; lia). by rewrite bool_decide_eq_true_2.
Qed.

Lemma word_at_mid x y z a : a = slen x → in_u64 y → word_at (x +:+ word y +:+ z) a = inl y.
Proof. intros Ha Hy. unfold word_at. rewrite (slice_mid x (word y) z) by (rewrite ?slen_word; lia). by apply wordUint64_word. Qed.

Lemma recipient_at_mid x r z a : a = slen x → slen (x +:+ word (slen r) +:+ r +:+ z) ≤ MaxUint64 →
  recipient_at (x +:+ word (slen r) +:+ r +:+ z) a = inl r.
Proof.
  intros -> Hmax. pose proof (slen_nonneg x). pose proof (slen_nonneg r). pose proof (slen_nonneg z). unfold recipient_at.
  rewrite !slen_app, slen_word in *. rewrite !u64_small by (unfold in_u64; lia).
  rewrite (proj2 (Z.ltb_ge _ _)), (proj2 (Z.ltb_ge _ _)) by lia. cbn [orb].
  rewrite (word_at_mid x (slen r) (r +:+ z)) by (done || unfold in_u64; lia).
  rewrite u64_small by (unfold in_u64; lia). rewrite (proj2 (Z.ltb_ge _ _)) by lia.
  rewrite <- (app_assoc_s x). apply slice_mid; rewrite ?slen_app, ?slen_word; lia.
Qed.

(* ------------------------------------------------------------------ *)
(** * What the contracts encode *)

Definition hex_data (b : string) : string := hex0x b.

(** The data of [SynBurnedForNativeRelease]: offset, amount, nonce, then the
    recipient with its length; [pad] fills the last word. *)
Definition abi_burn (recipient : string) (amount nonce : Z) (pad : string) : string :=
  word 96 +:+ word amount +:+ word nonce +:+ word (slen recipient) +:+ recipient +:+ pad.

(** The data of [BridgeLocked]: asset, sender, offset, amount, nonce,
    recipient. *)
Definition abi_lock (asset sender recipient : string) (amount nonce : Z) (pad : string) : string :=
  big_endian 12 0 +:+ asset +:+ big_endian 12 0 +:+ sender +:+ word 160 +:+ word amount +:+ word nonce +:+ word (slen recipient) +:+ recipient +:+ pad.

Lemma decode_burn recipient amount nonce pad :
  0 ≤ amount < 2 ^ 256 → in_u64 nonce → slen (abi_burn recipient amount nonce pad) ≤ MaxUint64 →
  decodeSynBurnedData (hex_data (abi_burn recipient amount nonce pad)) = inl (recipient, amount, nonce).
Proof.
  intros Ha Hn Hmax. unfold decodeSynBurnedData, hex_data. rewrite TrimPrefix_hex0x, hexDecode_hexEncode. unfold abi_burn in *.
  set (tail := word (slen recipient) +:+ recipient +:+ pad) in *.
  assert (96 ≤ slen (word 96 +:+ word amount +:+ word nonce +:+ tail)) as Hlen by (rewrite !slen_app, !slen_word; pose proof (slen_nonneg tail); lia).
  rewrite (proj2 (Z.ltb_ge _ _)) by lia.
  assert (word_at (word 96 +:+ word amount +:+ word nonce +:+ tail) 0 = inl 96) as -> by (by apply (word_at_mid "" 96)).
  rewrite (slice_mid (word 96) (word amount) (word nonce +:+ tail)) by (rewrite !slen_word; lia).
  assert (word_at (word 96 +:+ word amount +:+ word nonce +:+ tail) 64 = inl nonce) as ->.
  { rewrite <- (app_assoc_s (word 96)). apply word_at_mid; [|done]. by rewrite slen_app, !slen_word. }
  rewrite wordBig_word by done. unfold tail in *. rewrite <- (app_assoc_s (word amount)), <- (app_assoc_s (word 96)) in *.
  rewrite (recipient_at_mid (word 96 +:+ word amount +:+ word nonce)); [done|by rewrite !slen_app, !slen_word|done].
Qed.

Lemma decode_lock asset sender recipient amount nonce pad :
  slen asset = 20 → slen sender = 20 → in_u64 amount → slen (abi_lock asset sender recipient amount nonce pad) ≤ MaxUint64 →
  decodeBridgeLockedData (hex_data (abi_lock asset sender recipient amount nonce pad)) = inl (hex0x asset, hex0x sender, recipient, amount).
Proof.
  intros Has Hse Ha Hmax. unfold decodeBridgeLockedData, hex_data. rewrite TrimPrefix_hex0x, hexDecode_hexEncode. unfold abi_lock in *.
  set (zero := big_endian 12 0) in *. assert (slen zero = 12) as Hz by apply length_big_endian.
  set (tail := word (slen recipient) +:+ recipient +:+ pad) in *. pose proof (slen_nonneg tail).
  set (rest := word 160 +:+ word amount +:+ word nonce +:+ tail) in *.
  assert (slen rest = 96 + slen tail) as Hrest by (unfold rest; rewrite !slen_app, !slen_word; lia).
  assert (slen (zero +:+ asset +:+ zero +:+ sender +:+ rest) = 160 + slen tail) as Hlen by (rewrite !slen_app; lia).
  rewrite (proj2 (Z.ltb_ge _ _)) by lia.
  rewrite (slice_mid zero asset (zero +:+ sender +:+ rest)) by lia.
  assert (slice (zero +:+ asset +:+ zero +:+ sender +:+ rest) 44 64 = inl sender) as ->.
  { rewrite <- (app_assoc_s asset), <- (app_assoc_s zero). apply slice_mid; rewrite ?slen_app; lia. }
  set (head := zero +:+ asset +:+ zero +:+ sender). assert (slen head = 64) as Hhead by (unfold head; rewrite !slen_app; lia).
  assert (zero +:+ asset +:+ zero +:+ sender +:+ rest = head +:+ rest) as -> by (unfold head; by rewrite !app_assoc_s).
  assert (word_at (head +:+ rest) 64 = inl 160) as -> by (unfold rest; by apply word_at_mid).
  assert (word_at (head +:+ rest) 96 = inl amount) as ->.
  { unfold rest. rewrite <- (app_assoc_s head). apply word_at_mid; [|done]. by rewrite slen_app, slen_word, Hhead. }
  assert (head +:+ rest = (head +:+ word 160 +:+ word amount +:+ word nonce) +:+ word (slen recipient) +:+ recipient +:+ pad) as Hall
    by (unfold rest, tail; by rewrite !app_assoc_s).
  assert (slen (head +:+ rest) ≤ MaxUint64) as Hmax' by (rewrite slen_app, Hhead, Hrest in *; lia).
  rewrite Hall in *. rewrite recipient_at_mid; [done|by rewrite !slen_app, !slen_word, Hhead|done].
Qed.

(* ------------------------------------------------------------------ *)
(** * Amounts across the boundary *)

(** Native SYN is the exact quotient or refused. *)
Lemma native_amount_spec raw n : nativeAmountFromWrappedSynUnits raw = inl n ↔ raw = n * 10 ^ 18 ∧ 0 < n ≤ MaxUint64.
Proof.
  unfold nativeAmountFromWrappedSynUnits. assert (wrappedSynUnitScale = 10 ^ 18) as -> by (vm_compute; reflexivity).
  set (k := 10 ^ 18). assert (0 < k) as Hk by (vm_compute; reflexivity). split.
  - destruct (Z.leb_spec raw 0); [done|]. destruct (Z.eqb_spec (Z.rem raw k) 0) as [Hr|]; cbn [negb]; [|done].
    case_bool_decide as Hq; [|done]. intros [= <-]. pose proof (Z.quot_rem raw k ltac:(lia)). unfold in_u64 in Hq. nia.
  - intros [-> Hn]. rewrite (proj2 (Z.leb_gt _ _)) by nia. rewrite Z.rem_mul, Z.quot_mul by lia. cbn [Z.eqb negb].
    rewrite bool_decide_eq_true_2 by (unfold in_u64; lia). done.
Qed.

(** Who is paid: what [claim] keeps of a proof. *)
Definition claim_of (p : externalLockProof) : string * Address * Z := (p.(ep_SourceEventID), p.(ep_Recipient), p.(ep_Amount)).

(** A well-formed log of the burn event in block [b], and what it claims: the
    recipient is one the native chain can name, the amount whole SYN. *)
Definition burn_log (b : Z) (log : evmLog) (claim : string * Address * Z) : Prop :=
  log.(lg_Removed) = false ∧ parseHexUint64 log.(lg_BlockNumber) = inl b ∧
  ∃ t0 t1 t2 ts recipient n nonce pad,
    log.(lg_Topics) = t0 :: t1 :: t2 :: ts ∧ ToLower t0 = synBurnedForNativeReleaseTopic ∧
    log.(lg_Data) = hex_data (abi_burn recipient (n * 10 ^ 18) nonce pad) ∧ slen (abi_burn recipient (n * 10 ^ 18) nonce pad) ≤ MaxUint64 ∧
    0 < n ≤ MaxUint64 ∧ in_u64 nonce ∧ nativeRecipientFromBytes recipient = inl claim.1.2 ∧ claim.1.1 = source_event log t1 ∧ claim.2 = n.

(** The same for the lock event of the vault: the amount fits 64 bits. *)
Definition lock_log (b : Z) (log : evmLog) (claim : string * Address * Z) : Prop :=
  log.(lg_Removed) = false ∧ parseHexUint64 log.(lg_BlockNumber) = inl b ∧
  ∃ t0 t1 t2 t3 ts src dst asset sender recipient n nonce pad,
    log.(lg_Topics) = t0 :: t1 :: t2 :: t3 :: ts ∧ ToLower t0 = bridgeLockedTopic ∧
    topicUintString t2 = inl src ∧ topicUintString t3 = inl dst ∧ slen asset = 20 ∧ slen sender = 20 ∧
    log.(lg_Data) = hex_data (abi_lock asset sender recipient n nonce pad) ∧ slen (abi_lock asset sender recipient n nonce pad) ≤ MaxUint64 ∧
    in_u64 n ∧ nativeRecipientFromBytes recipient = inl claim.1.2 ∧ claim.1.1 = source_event log t1 ∧ claim.2 = n.

Lemma log_depth_ok log b head : parseHexUint64 log.(lg_BlockNumber) = inl b → b ≤ head → log_depth log head = inl (b, u64 (head - b + 1)).
Proof. intros Hb Hle. unfold log_depth. rewrite Hb. by rewrite (proj2 (Z.ltb_ge _ _)). Qed.

(** What a decoder makes of a well-formed log: a proof of its claim, with
    the confirmations counted and nobody's signature. *)
Definition decodes (decode : evmLog → Z → Z → res externalLockProof) (log : evmLog) (b : Z) (claim : string * Address * Z) : Prop :=
  ∀ head min, b ≤ head → ∃ p, decode log head min = inl p ∧ claim_of p = claim ∧ p.(ep_Confirmations) = u64 (head - b + 1) ∧
    p.(ep_MinConfirmations) = min ∧ p.(ep_ObservedBlock) = b ∧ p.(ep_AssetID) = "syn" ∧ p.(ep_ValidatorSignatures) = [].

Lemma burn_decodes chain b log claim : burn_log b log claim → decodes (proofFromSynBurnedLog chain) log b claim.
Proof.
  intros (Hr & Hb & t0 & t1 & t2 & ts & recipient & n & nonce & pad & Ht & Ht0 & Hd & Hmax & Hn & Hnonce & Hrec & Hid & Hc) head min Hle.
  unfold proofFromSynBurnedLog. rewrite Hr, Ht, Ht0, bool_decide_eq_true_2 by done. cbn [negb]. rewrite (log_depth_ok _ _ _ Hb Hle), Hd.
  assert (n * 10 ^ 18 < 2 ^ 256) as Hbig by (change (2 ^ 256) with 115792089237316195423570985008687907853269984665640564039457584007913129639936; unfold MaxUint64 in Hn; lia).
  rewrite decode_burn by (done || split; lia). rewrite Hrec. rewrite (proj2 (native_amount_spec _ n)) by done.
  eexists. split; [done|]. unfold claim_of. cbn. split_and!; try done. destruct claim as [[id r] c]. cbn in *. by subst.
Qed.

Lemma lock_decodes b log claim : lock_log b log claim → decodes proofFromBridgeLockedLog log b claim.
Proof.
  intros (Hr & Hb & t0 & t1 & t2 & t3 & ts & src & dst & asset & sender & recipient & n & nonce & pad & Ht & Ht0 & Hsrc & Hdst & Has & Hse & Hd & Hmax & Hn & Hrec & Hid & Hc) head min Hle.
  unfold proofFromBridgeLockedLog. rewrite Hr, Ht, Ht0, bool_decide_eq_true_2 by done. cbn [negb]. rewrite Hsrc, Hdst, (log_depth_ok _ _ _ Hb Hle), Hd.
  rewrite decode_lock by done. rewrite Hrec.
  eexists. split; [done|]. unfold claim_of. cbn. split_and!; try done. destruct claim as [[id r] c]. cbn in *. by subst.
Qed.

(* ------------------------------------------------------------------ *)
(** * Watching *)

(** What a chain has in the blocks from [from] to [to]. *)
Definition blocks {A} (f : Z → list A) (from to : Z) : list A := concat (f <$> seqZ from (to - from + 1)).

Lemma blocks_none {A} (f : Z → list A) from : blocks f from (from - 1) = [].
Proof. unfold blocks. replace (from - 1 - from + 1) with 0 by lia. done. Qed.

Lemma blocks_app {A} (f : Z → list A) a b c : a ≤ b → b ≤ c + 1 → blocks f a c = (blocks f a (b - 1) ++ blocks f b c)%list.
Proof.
  intros H1 H2. unfold blocks. replace (c - a + 1) with ((b - 1 - a + 1) + (c - b + 1)) by lia.
  rewrite seqZ_app by lia. rewrite fmap_app, concat_app. by replace (a + (b - 1 - a + 1)) with b by lia.
Qed.

Definition claim := (string * Address * Z)%type.
Definition event_id (k : claim) : string := k.1.1.

Section watch.
Context `{E : Ed25519} (c : settings).
(** For each label: the logs of the chain, block by block, and what they
    claim. *)
Context (logs : string → Z → list evmLog) (claims : string → Z → list claim).

(** The chain's logs are well formed and name their events apart. *)
Definition sound_source (s : evmLogSource) : Prop :=
  (∀ b, Forall2 (λ log k, decodes s.(so_decode) log b k) (logs s.(so_label) b) (claims s.(so_label) b)) ∧
  ∀ from to, NoDup (event_id <$> blocks (claims s.(so_label)) from to).

(** A pass in which the EVM node tells what the chain has, the outbox can be
    written, and, when the relayer submits, the native node accepts. *)
Definition good_pass (ss : list evmLogSource) (p : pass) (head : Z) : Prop :=
  p.(pa_head) = inl head ∧ 0 ≤ head < MaxUint64 ∧
  (∀ s from to, s ∈ ss → from ≤ to → p.(pa_logs) s.(so_address) s.(so_topic) from to = inl (blocks (logs s.(so_label)) from to)) ∧
  (∀ proof, p.(pa_append) proof = inl tt) ∧
  (c.(se_auto) = true → ∀ proof, ∃ tx, submitNativeReleaseProof p.(pa_native) proof c.(se_priv) c.(se_fee) = inl tx).

Definition proof_ok (q : externalLockProof) : Prop := c.(se_min) < q.(ep_Confirmations) ∧ q.(ep_MinConfirmations) = c.(se_min).

(** [s'] is [s] at a later block. *)
Definition later (s s' : evmLogSource) : Prop :=
  s'.(so_label) = s.(so_label) ∧ s'.(so_address) = s.(so_address) ∧ s'.(so_topic) = s.(so_topic) ∧ s'.(so_decode) = s.(so_decode) ∧
  s.(so_nextBlock) ≤ s'.(so_nextBlock).

Definition written (s : evmLogSource) (f : effects) (ps : list externalLockProof) (f' : effects) : Prop :=
  f'.(ef_outbox) = (f.(ef_outbox) ++ (pair s.(so_label) <$> ps))%list ∧ Forall proof_ok ps.

Lemma take_logs_ok p head ls ks s f :
  (∀ proof, p.(pa_append) proof = inl tt) →
  (c.(se_auto) = true → ∀ proof, ∃ tx, submitNativeReleaseProof p.(pa_native) proof c.(se_priv) c.(se_fee) = inl tx) →
  Forall2 (λ log k, ∃ b, 0 ≤ b ≤ head - c.(se_min) ∧ decodes s.(so_decode) log b k) ls ks → 0 ≤ c.(se_min) → head < MaxUint64 →
  NoDup (event_id <$> ks) → (∀ k, k ∈ ks → event_id k ∉ s.(so_seen)) →
  ∃ s' f' ps, take_logs c p head ls s f = (s', f', inl tt) ∧ later s s' ∧ s'.(so_nextBlock) = s.(so_nextBlock) ∧
    s'.(so_seen) = s.(so_seen) ∪ list_to_set (event_id <$> ks) ∧ written s f ps f' ∧ claim_of <$> ps = ks.
Proof.
  intros Happ Hsub Hls Hmin Hmax. revert ks s f Hls. induction ls as [|log ls IH]; intros ks s f Hls Hnd Hnew; cbn [take_logs].
  { apply Forall2_nil_inv_l in Hls as ->. exists s, f, []. split_and!; try done; [cbn; set_solver|]. unfold written. by rewrite app_nil_r. }
  apply Forall2_cons_inv_l in Hls as (k & ks' & (b & Hb & Hdec) & Hls & ->).
  destruct (Hdec head (se_min c) ltac:(lia)) as (q & Hq & Hclaim & Hconf & Hm & _). rewrite Hq.
  rewrite fmap_cons in Hnd. apply NoDup_cons in Hnd as [Hk Hnd]. assert (ep_SourceEventID q = event_id k) as Hid by (by rewrite <- Hclaim).
  rewrite bool_decide_eq_false_2 by (rewrite Hid; apply Hnew; by left). rewrite Happ.
  set (s1 := mark_seen (ep_SourceEventID q) s). 
  assert (∀ f1, f1.(ef_outbox) = (f.(ef_outbox) ++ [(s.(so_label), q)])%list →
    ∃ s' f' ps, take_logs c p head ls s1 f1 = (s', f', inl tt) ∧ later s s' ∧ s'.(so_nextBlock) = s.(so_nextBlock) ∧
      s'.(so_seen) = s.(so_seen) ∪ list_to_set (event_id <$> k :: ks') ∧ written s f ps f' ∧ claim_of <$> ps = k :: ks') as Hrest.
  { intros f1 Hf1. destruct (IH ks' s1 f1) as (s' & f' & ps & Hrun & Hlat & Hnext & Hseen & [Hout Hok] & Hps); [done|done| |].
    { intros k' Hk'. unfold s1, mark_seen. cbn. rewrite Hid. intros [Heq%elem_of_singleton|Hin]%elem_of_union.
      - apply Hk. rewrite <- Heq. by apply list_elem_of_fmap_2.
      - revert Hin. apply Hnew. by right. }
    exists s', f', (q :: ps). split_and!; [done|exact Hlat|exact Hnext| |split|].
    - rewrite Hseen. unfold s1, mark_seen. cbn [so_seen]. rewrite Hid, fmap_cons, list_to_set_cons.
      by rewrite (comm_L (∪) {[event_id k]} s.(so_seen)), (assoc_L (∪)).
    - rewrite Hout, Hf1. cbn. by rewrite <- app_assoc.
    - constructor; [|done]. split; [|done]. rewrite Hconf, u64_small by (unfold in_u64; lia). lia.
    - cbn. by rewrite Hclaim, Hps. }
  destruct (se_auto c) eqn:Hauto; [|by apply Hrest].
  destruct (Hsub eq_refl q) as [tx Htx]. rewrite Htx. by apply Hrest.
Qed.

Lemma Forall2_blocks (R : evmLog → Z → claim → Prop) (f : Z → list evmLog) (g : Z → list claim) from to :
  (∀ b, Forall2 (λ log k, R log b k) (f b) (g b)) →
  Forall2 (λ log k, ∃ b, from ≤ b ≤ to ∧ R log b k) (blocks f from to) (blocks g from to).
Proof.
  intros H. unfold blocks. assert (∀ b, b ∈ seqZ from (to - from + 1) → from ≤ b ≤ to) as Hin by (intros b Hb%elem_of_seqZ; lia).
  induction (seqZ from (to - from + 1)) as [|b bs IH]; cbn; [done|]. apply Forall2_app; [|apply IH; intros; apply Hin; by right].
  eapply Forall2_impl; [exact (H b)|]. intros log k Hr. exists b. split; [|done]. apply Hin. by left.
Qed.

(** Since [start], a source has delivered every block before its cursor. *)
Definition caught_up (start : Z) (s : evmLogSource) : Prop :=
  0 < start ≤ s.(so_nextBlock) ∧ s.(so_seen) = list_to_set (event_id <$> blocks (claims s.(so_label)) start (s.(so_nextBlock) - 1)).

Lemma later_refl s : later s s.
Proof. by split_and!. Qed.

Lemma later_trans s s' s'' : later s s' → later s' s'' → later s s''.
Proof. intros (A1 & A2 & A3 & A4 & A5) (B1 & B2 & B3 & B4 & B5). split_and!; try congruence. lia. Qed.

Lemma later_sound s s' : later s s' → sound_source s → sound_source s'.
Proof. intros (A1 & A2 & A3 & A4 & _). unfold sound_source. by rewrite A1, A4. Qed.

Lemma take_source_ok ss p head start s f :
  good_pass ss p head → s ∈ ss → 0 ≤ c.(se_min) ≤ head → sound_source s → caught_up start s →
  ∃ s' f' ps, take_source c p head s f = (s', f', inl tt) ∧ later s s' ∧ head - c.(se_min) < s'.(so_nextBlock) ∧ caught_up start s' ∧
    written s f ps f' ∧ claim_of <$> ps = blocks (claims s.(so_label)) s.(so_nextBlock) (s'.(so_nextBlock) - 1).
Proof.
  intros (_ & Hhead & Hlogs & Happ & Hsub) Hs Hmin [Hdec Hnd] [Hstart Hseen]. unfold take_source. cbv zeta.
  rewrite (proj2 (Z.eqb_neq _ _)) by lia. rewrite u64_small by (unfold in_u64; lia). set (confirmed := head - se_min c).
  destruct (Z.ltb_spec confirmed s.(so_nextBlock)).
  { exists s, f, []. split_and!; [done|apply later_refl|done|done|split; [by rewrite app_nil_r|done]|by rewrite blocks_none]. }
  rewrite (Hlogs s _ _ Hs) by done. set (ks := blocks (claims s.(so_label)) s.(so_nextBlock) confirmed).
  pose proof (Hnd start confirmed) as Hall. rewrite (blocks_app _ start s.(so_nextBlock) confirmed) in Hall by lia. fold ks in Hall.
  rewrite fmap_app in Hall. apply NoDup_app in Hall as (_ & Hdisj & Hks).
  destruct (take_logs_ok p head (blocks (logs s.(so_label)) s.(so_nextBlock) confirmed) ks s f) as (s' & f' & ps & -> & Hlat & Hnext & Hseen' & Hw & Hps);
    [done|done| |lia|lia|done| |].
  - eapply Forall2_impl; [apply (Forall2_blocks (λ log b k, decodes s.(so_decode) log b k)); exact Hdec|].
    intros log k (b & Hb & Hd). exists b. split; [unfold confirmed in Hb; lia|done].
  - intros k Hk Hin. rewrite Hseen in Hin. apply elem_of_list_to_set in Hin. apply (Hdisj _ Hin). by apply list_elem_of_fmap_2.
  - rewrite u64_small by (unfold in_u64; lia). destruct Hlat as (L1 & L2 & L3 & L4 & L5).
    exists (set_next (confirmed + 1) s'), f', ps. split_and!; [done|split_and!; cbn; done || lia|cbn; lia| |done|].
    + split; [cbn; lia|]. cbn. rewrite Hseen', Hseen, L1. replace (confirmed + 1 - 1) with confirmed by lia.
      rewrite (blocks_app _ start s.(so_nextBlock) confirmed) by lia. rewrite fmap_app, list_to_set_app_L. done.
    + cbn. by replace (confirmed + 1 - 1) with confirmed by lia.
Qed.

(** What the outbox holds for a label. *)
Definition delivered (l : string) (f : effects) : list claim := claim_of <$> (filter (λ e, e.1 = l) f.(ef_outbox)).*2.

Lemma written_same s f ps f' : written s f ps f' → delivered s.(so_label) f' = (delivered s.(so_label) f ++ (claim_of <$> ps))%list.
Proof.
  intros [Hout _]. unfold delivered. rewrite Hout, filter_app, !fmap_app. f_equal. clear Hout.
  induction ps as [|q ps IH]; [done|]. rewrite fmap_cons, filter_cons, decide_True by done. cbn. by rewrite IH.
Qed.

Lemma written_other s f ps f' l : written s f ps f' → l ≠ s.(so_label) → delivered l f' = delivered l f.
Proof.
  intros [Hout _] Hl. unfold delivered. rewrite Hout, filter_app, !fmap_app.
  assert (filter (λ e, e.1 = l) (pair s.(so_label) <$> ps) = []) as ->; [|by rewrite app_nil_r]. clear Hout.
  induction ps as [|q ps IH]; [done|]. rewrite fmap_cons, filter_cons, decide_False by (cbn; congruence). done.
Qed.

(** All that a pass, or several, do for a source. *)
Record progress (start : Z) (f f' : effects) (s s' : evmLogSource) : Prop := {
  pr_later : later s s';
  pr_caught_up : caught_up start s';
  pr_delivered : delivered s.(so_label) f' = (delivered s.(so_label) f ++ blocks (claims s.(so_label)) s.(so_nextBlock) (s'.(so_nextBlock) - 1))%list
}.

Definition proofs_ok (f : effects) : Prop := Forall (λ e, proof_ok e.2) f.(ef_outbox).

Lemma written_proofs s f ps f' : written s f ps f' → proofs_ok f → proofs_ok f'.
Proof.
  intros [Hout Hps] Hf. unfold proofs_ok. rewrite Hout. apply Forall_app. split; [done|]. apply Forall_fmap. exact Hps.
Qed.

Lemma take_sources_ok p head ss0 ss f :
  good_pass ss0 p head → (∀ s, s ∈ ss → s ∈ ss0) → 0 ≤ c.(se_min) ≤ head → NoDup (so_label <$> ss) →
  Forall sound_source ss → proofs_ok f → ∀ starts, Forall2 caught_up starts ss →
  ∃ ss' f', take_sources c p head ss f = (ss', f', inl tt) ∧ proofs_ok f' ∧
    Forall3 (λ start s s', progress start f f' s s' ∧ head - c.(se_min) < s'.(so_nextBlock)) starts ss ss' ∧
    (∀ l, l ∉ so_label <$> ss → delivered l f' = delivered l f).
Proof.
  intros Hp Hin Hmin. revert f. induction ss as [|s ss IH]; intros f Hnd Hsound Hf starts Hst; cbn [take_sources].
  { apply Forall2_nil_inv_r in Hst as ->. exists [], f. split_and!; [done|done|constructor|done]. }
  apply Forall2_cons_inv_r in Hst as (start & starts' & Hs0 & Hst & ->). apply Forall_cons in Hsound as [Hs Hsound].
  rewrite fmap_cons in Hnd. apply NoDup_cons in Hnd as [Hl Hnd].
  destruct (take_source_ok ss0 p head start s f Hp (Hin s ltac:(by left)) Hmin Hs Hs0) as (s' & f1 & ps & -> & Hlat & Hhead & Hcu & Hw & Hps).
  destruct (IH ltac:(intros; apply Hin; by right) f1 Hnd Hsound (written_proofs _ _ _ _ Hw Hf) starts' Hst) as (ss' & f' & -> & Hf' & Hall & Hother).
  exists (s' :: ss'), f'. split_and!; [done|done| |].
  - constructor.
    + split; [|done]. split; [done|done|]. rewrite (Hother _ Hl), (written_same _ _ _ _ Hw), Hps. done.
    + assert (∀ x, x ∈ ss → delivered x.(so_label) f1 = delivered x.(so_label) f) as Hsame.
      { intros x Hx. apply (written_other _ _ _ _ _ Hw). intros Heq. apply Hl. rewrite <- Heq. by apply list_elem_of_fmap_2. }
      clear -Hall Hsame. induction Hall as [|st x x' sts xs xs' [[P1 P2 P3] P4] Hall IH]; constructor.
      * split; [|done]. split; [done|done|]. rewrite P3, Hsame; [done|by left].
      * apply IH. intros y Hy. apply Hsame. by right.
  - intros l Hnl. rewrite fmap_cons in Hnl. apply not_elem_of_cons in Hnl as [H1 H2]. rewrite (Hother l H2). by apply (written_other _ _ _ _ _ Hw).
Qed.

(** One pass, then many. *)
Lemma watch_pass_ok p head ss f :
  good_pass ss p head → 0 ≤ c.(se_min) → NoDup (so_label <$> ss) → Forall sound_source ss → proofs_ok f →
  ∀ starts, Forall2 caught_up starts ss →
  ∃ ss' f', watch_pass c p ss f = (ss', f', inl tt) ∧ proofs_ok f' ∧
    Forall3 (λ start s s', progress start f f' s s' ∧ (c.(se_min) ≤ head → head - c.(se_min) < s'.(so_nextBlock))) starts ss ss'.
Proof.
  intros Hp Hmin Hnd Hsound Hf starts Hst. unfold watch_pass. rewrite (proj1 Hp). destruct (Z.ltb_spec head c.(se_min)).
  - exists ss, f. split_and!; [done|done|]. clear Hnd Hsound Hp. induction Hst as [|start s starts ss Hs Hst IH]; constructor; [|done].
    split; [|lia]. split; [apply later_refl|done|by rewrite blocks_none, app_nil_r].
  - destruct (take_sources_ok p head ss ss f Hp ltac:(done) ltac:(lia) Hnd Hsound Hf starts Hst) as (ss' & f' & -> & Hf' & Hall & _).
    exists ss', f'. split_and!; [done|done|]. eapply Forall3_impl; [exact Hall|]. intros start s s' [H1 H2]. by split.
Qed.

Lemma progress_trans start f f' f'' s s' s'' : progress start f f' s s' → progress start f' f'' s' s'' → progress start f f'' s s''.
Proof.
  intros [L1 C1 D1] [L2 C2 D2]. assert (s'.(so_label) = s.(so_label)) as Hl by apply L1. rewrite Hl in D2.
  split; [by eapply later_trans|done|]. rewrite D2, D1, <- app_assoc. f_equal.
  destruct L1 as (_ & _ & _ & _ & ?), L2 as (_ & _ & _ & _ & ?). symmetry. apply blocks_app; lia.
Qed.

Lemma good_pass_later ss ss' p head : Forall2 later ss ss' → good_pass ss p head → good_pass ss' p head.
Proof.
  intros Hl (H1 & H2 & H3 & H4). split; [done|]. split; [done|]. split; [|done].
  intros s' from to Hs' Hle. apply list_elem_of_lookup in Hs' as [i Hi]. destruct (Forall2_lookup_r _ _ _ _ _ Hl Hi) as (s & Hs & L1 & L2 & L3 & _).
  rewrite L1, L2, L3. apply H3; [by eapply list_elem_of_lookup_2|done].
Qed.

Lemma watch_passes_ok ps heads ss f :
  Forall2 (good_pass ss) ps heads → 0 ≤ c.(se_min) → NoDup (so_label <$> ss) → Forall sound_source ss → proofs_ok f →
  ∀ starts, Forall2 caught_up starts ss →
  ∃ ss' f', watch_passes c ps ss f = (ss', f', inl tt) ∧ proofs_ok f' ∧
    Forall3 (λ start s s', progress start f f' s s' ∧ Forall (λ head, c.(se_min) ≤ head → head - c.(se_min) < s'.(so_nextBlock)) heads) starts ss ss'.
Proof.
  intros Hps Hmin. revert ps ss f Hps. induction heads as [|head heads IH]; intros ps ss f Hps Hnd Hsound Hf starts Hst.
  { apply Forall2_nil_inv_r in Hps as ->. exists ss, f. split_and!; [done|done|]. clear Hnd Hsound.
    induction Hst as [|start s starts ss Hs Hst IH]; constructor; [|done]. split; [|done]. split; [apply later_refl|done|by rewrite blocks_none, app_nil_r]. }
  apply Forall2_cons_inv_r in Hps as (p & ps' & Hp & Hps & ->). cbn [watch_passes].
  destruct (watch_pass_ok p head ss f Hp Hmin Hnd Hsound Hf starts Hst) as (ss1 & f1 & -> & Hf1 & H1).
  assert (Forall2 later ss ss1 ∧ Forall2 caught_up starts ss1 ∧ Forall sound_source ss1) as (Hl & Hst1 & Hsound1).
  { clear -H1 Hsound. induction H1 as [|start s s' starts ss ss' [[L1 C1 D1] _] H1 IH]; [done|]. apply Forall_cons in Hsound as [Hs Hsound].
    destruct (IH Hsound) as (? & ? & ?). split_and!; constructor; try done. by eapply later_sound. }
  assert (so_label <$> ss1 = so_label <$> ss) as Hlab by (clear -Hl; induction Hl as [|s s' ss ss' (L & _) _ IH]; [done|]; cbn; by rewrite L, IH).
  destruct (IH ps' ss1 f1 ltac:(eapply Forall2_impl; [exact Hps|]; intros; by eapply good_pass_later) ltac:(by rewrite Hlab) Hsound1 Hf1 starts Hst1)
    as (ss' & f' & -> & Hf' & H2).
  exists ss', f'. split_and!; [done|done|]. clear -H1 H2. revert ss' H2.
  induction H1 as [|start s s1 starts ss ss1 [P1 B1] H1 IH]; intros ss' H2; inversion H2 as [|? ? s' ? ? ss'' [P2 B2] H2']; subst; constructor.
  - split; [by eapply progress_trans|]. constructor; [|done]. intros Hle. specialize (B1 Hle). destruct (pr_later _ _ _ _ _ P2) as (_ & _ & _ & _ & ?). lia.
  - by apply IH.
Qed.

End watch.

(* ------------------------------------------------------------------ *)
(** * A submitted release on the native chain *)

Lemma metadataValue_perm l l' k : l ≡ₚ l' → NoDup (Key <$> l) → metadataValue l k = metadataValue l' k.
Proof.
  induction 1 as [|x l l' Hp IH|x y l|l l' l'' H1 IH1 H2 IH2]; intros Hnd; cbn [metadataValue]; [done| | |].
  - rewrite fmap_cons in Hnd. apply NoDup_cons in Hnd as [_ Hnd]. by rewrite IH.
  - rewrite !fmap_cons in Hnd. apply NoDup_cons in Hnd as [Hy _]. do 2 case_bool_decide; try done. exfalso. apply Hy. apply elem_of_cons. left. congruence.
  - rewrite IH1 by done. apply IH2. by rewrite <- H1.
Qed.

Lemma signatures_read sigs : Forall (λ s, sall is_ascii s.(bs_ValidatorID) = true ∧ sall is_ascii s.(bs_Signature) = true) sigs →
  unmarshal_signatures (marshal (signatures_json sigs)) = Some sigs.
Proof.
  intros Hs. unfold unmarshal_signatures, unmarshal_structs. rewrite parse_marshal.
  - cbn. assert (mapM (string_struct ["validator_id"; "signature"]) (map parsed (map (λ s, JObj [("validator_id", JStr s.(bs_ValidatorID)); ("signature", JStr s.(bs_Signature))]) sigs))
      = Some (map (λ s, [s.(bs_ValidatorID); s.(bs_Signature)]) sigs)) as ->.
    { clear Hs. induction sigs as [|s sigs IH]; [done|]. cbn [map mapM]. rewrite IH. done. }
    cbn. f_equal. clear Hs. induction sigs as [|[v g] sigs IH]; [done|]. cbn. by rewrite IH.
  - unfold signatures_json. cbn. apply forallb_forall. intros j Hj. apply in_map_iff in Hj as (s & <- & Hin). rewrite Forall_forall in Hs.
    destruct (Hs s ltac:(by apply list_elem_of_In)) as [H1 H2]. cbn. by rewrite H1, H2.
  - unfold signatures_json, maxNestingDepth. cbn. assert (∀ l, foldr (λ x n, Nat.max (depth x) n) 0%nat
      (map (λ s, JObj [("validator_id", JStr s.(bs_ValidatorID)); ("signature", JStr s.(bs_Signature))]) l) ≤ 1)%nat as H; [|specialize (H sigs); lia].
    induction l as [|s l IH]; cbn; lia.
Qed.

Section release.
Context `{E : Ed25519}.

Definition proof_asset (p : externalLockProof) : string := if empty_str p.(ep_AssetID) then "syn" else p.(ep_AssetID).

(** The native chain would release this proof's claim: it names its source,
    enough registered bridge validators have signed exactly it, and it was
    not released before. *)
Definition quorate (s : State) (p : externalLockProof) : Prop :=
  p.(ep_ValidatorSignatures) ≠ [] ∧ size s.(BridgeValidators) ≠ 0%nat ∧ bridge_required s ≠ 0 ∧
  bridge_required s ≤ Z.of_nat (size s.(BridgeValidators)) ∧
  ∃ valid, count_signatures s.(BridgeValidators)
      (BridgeReleaseSigningMessage p.(ep_SourceChainID) p.(ep_SourceEventID) p.(ep_Recipient) (proof_asset p) p.(ep_Amount))
      p.(ep_ValidatorSignatures) ∅ 0 = inl valid ∧ bridge_required s ≤ valid.

Definition proof_id (p : externalLockProof) : string :=
  bridgeMessageID p.(ep_SourceChainID) p.(ep_SourceEventID) p.(ep_Recipient) (proof_asset p) p.(ep_Amount).

Definition release_due (s : State) (p : externalLockProof) : Prop :=
  p.(ep_SourceChainID) ≠ "" ∧ p.(ep_SourceEventID) ≠ "" ∧ quorate s p ∧ default false (s.(ProcessedBridgeEvents) !! proof_id p) = false.

(** A transaction that carries a proof. *)
Record carries (p : externalLockProof) (tx : Tx) : Prop := {
  ca_metadata : tx.(Metadata) ≡ₚ release_metadata p;
  ca_to : tx.(To) = p.(ep_Recipient);
  ca_amount : tx.(Amount) = p.(ep_Amount);
  ca_asset : tx_asset tx = proof_asset p
}.

(** What an accepted submission put on the wire. *)
Lemma submitted_tx n p privHex fee tx : submitNativeReleaseProof n p privHex fee = inl tx → carries p tx ∧ n.(nn_submit) tx = inl tt.
Proof.
  unfold submitNativeReleaseProof. destruct (empty_str privHex); [done|]. destruct (FromPrivateKeyHex privHex) as [priv|]; [|done].
  destruct (nn_account n _) as [nonce|]; [|done]. destruct (fetchNativeStatus n) as [chainID|]; [|done].
  destruct (Sign priv _) as [t [u|]] eqn:Hs; [|done]. destruct u. apply Sign_ok in Hs as (_ & _ & ->).
  destruct (nn_submit n _) as [[]|] eqn:Hsub; [|done]. intros [= <-]. split; [split; [|done|done|]|exact Hsub].
  - exact (sort_slice_perm kv_less (release_metadata p)).
  - unfold tx_asset, proof_asset. cbn. destruct (empty_str p.(ep_AssetID)) eqn:He; [done|]. case_bool_decide as Hsyn; [by rewrite Hsyn|]. by rewrite He.
Qed.

Lemma release_keys p : NoDup (Key <$> release_metadata p).
Proof. unfold release_metadata. destruct p.(ep_ValidatorSignatures); apply (bool_decide_unpack _); vm_compute; exact I. Qed.

Lemma release_read p tx k : carries p tx → metadataValue tx.(Metadata) k = metadataValue (release_metadata p) k.
Proof. intros [Hp _ _ _]. apply metadataValue_perm; [done|]. rewrite Hp. apply release_keys. Qed.

Lemma marshal_nonempty sigs : marshal (signatures_json sigs) ≠ "".
Proof. done. Qed.

(** The chain's check of the proof is [quorate]. *)
Lemma verify_quorate s tx p :
  metadataValue tx.(Metadata) "validator_signatures" = metadataValue (release_metadata p) "validator_signatures" →
  tx.(To) = p.(ep_Recipient) → tx.(Amount) = p.(ep_Amount) →
  Forall (λ g, sall is_ascii g.(bs_ValidatorID) = true ∧ sall is_ascii g.(bs_Signature) = true) p.(ep_ValidatorSignatures) →
  verifyBridgeReleaseProof s tx p.(ep_SourceChainID) p.(ep_SourceEventID) (proof_asset p) = inl tt ↔ quorate s p.
Proof.
  intros Hraw Hto Ham Hascii. unfold verifyBridgeReleaseProof, quorate. rewrite Hraw, Hto, Ham.
  assert (metadataValue (release_metadata p) "validator_signatures" = match p.(ep_ValidatorSignatures) with [] => "" | l => marshal (signatures_json l) end) as ->
    by (unfold release_metadata; by destruct p.(ep_ValidatorSignatures)).
  case_bool_decide as Hsz; [naive_solver|]. destruct p.(ep_ValidatorSignatures) as [|g l] eqn:Hsigs; [cbn; naive_solver|].
  rewrite (proj2 (bool_decide_eq_false _) (marshal_nonempty (g :: l)) : empty_str _ = false), signatures_read by done.
  destruct (Z.eqb_spec (bridge_required s) 0); cbn [orb]; [naive_solver|].
  destruct (Z.ltb_spec (Z.of_nat (size s.(BridgeValidators))) (bridge_required s)); [split; [done|]; intros (_ & _ & _ & ? & _); lia|].
  destruct (count_signatures _ _ _ _ _) as [valid|e] eqn:Hc; [|naive_solver]. destruct (Z.ltb_spec valid (bridge_required s)).
  - split; [done|]. intros (_ & _ & _ & _ & v & [= <-] & ?). lia.
  - split; [|done]. intros _. split_and!; try done. eauto.
Qed.

Lemma release_spec p tx s :
  carries p tx →
  Forall (λ g, sall is_ascii g.(bs_ValidatorID) = true ∧ sall is_ascii g.(bs_Signature) = true) p.(ep_ValidatorSignatures) →
  match applyBridgeMetadata tx s with
  | (s', inl _) => release_due s p ∧ s'.(ProcessedBridgeEvents) = <[proof_id p := true]> s.(ProcessedBridgeEvents)
  | (s', inr _) => ¬ release_due s p ∧ s' = s
  end.
Proof.
  intros Hcarries Hascii. pose proof (λ k, release_read p tx k Hcarries) as Hread. destruct Hcarries as [_ Hto Ham Has].
  unfold applyBridgeMetadata. rewrite !Hread by done. cbn [release_metadata app metadataValue Key Value]. rewrite bool_decide_eq_false_2, bool_decide_eq_true_2 by done.
  unfold bridge_release, mbind, SM_bind, fail_if, get, lift, modify. rewrite !Hread by done. unfold release_id. rewrite Hto, Ham, Has, !Hread by done.
  cbn [release_metadata app metadataValue Key Value]. rewrite !(bool_decide_eq_false_2 (_ = "source_event_id")), !(bool_decide_eq_false_2 (_ = "source_chain_id")) by done.
  rewrite !bool_decide_eq_true_2 by done. fold (proof_id p).
  pose proof (verify_quorate s tx p ltac:(by apply Hread) Hto Ham Hascii) as Hv.
  destruct (empty_str p.(ep_SourceChainID)) eqn:H1; [apply bool_decide_eq_true in H1; split; [unfold release_due; naive_solver|done]|].
  apply bool_decide_eq_false in H1.
  destruct (empty_str p.(ep_SourceEventID)) eqn:H2; [apply bool_decide_eq_true in H2; split; [unfold release_due; naive_solver|done]|].
  apply bool_decide_eq_false in H2.
  destruct (verifyBridgeReleaseProof _ _ _ _ _) as [[]|e]; [|split; [|done]; intros (_ & _ & Hq & _); by apply Hv in Hq].
  destruct (default false (s.(ProcessedBridgeEvents) !! proof_id p)) eqn:Hd; [split; [|done]; intros (_ & _ & _ & Hf); congruence|].
  split; [|done]. split_and!; try done. by apply Hv.
Qed.

(** Checking or timing a transaction keeps what it carries. *)
Lemma carries_sorted p tx : carries p tx → carries p (sort_metadata tx).
Proof. intros [H1 H2 H3 H4]. split; [|done..]. etrans; [exact (sort_slice_perm kv_less tx.(Metadata))|exact H1]. Qed.

Lemma carries_timed p tx ctx : carries p tx → carries p (with_block_time ctx tx).
Proof. intros [H1 H2 H3 H4]. unfold with_block_time. by case_match. Qed.

Definition signed_ascii (p : externalLockProof) : Prop :=
  Forall (λ g, sall is_ascii g.(bs_ValidatorID) = true ∧ sall is_ascii g.(bs_Signature) = true) p.(ep_ValidatorSignatures).

(** A release that goes through was due and is due no more, and moves the
    amount, in native coin or in units of another asset, from the account that
    submitted it to the recipient. The submitter loses the amount and the fee
    even if it is the recipient: a release to itself destroys the amount. *)
Definition released (p : externalLockProof) (tx : Tx) (s s' : State) : Prop :=
  release_due s p ∧ ¬ release_due s' p ∧
  let a := proof_asset p in
  let coin := if bool_decide (a = "syn") then p.(ep_Amount) else 0 in
  supply s' = supply s - tx.(Fee) - (if bool_decide (tx.(From) = p.(ep_Recipient)) then coin else 0) ∧
  (acct s' tx.(From)).(Balance) = (acct s tx.(From)).(Balance) - coin - tx.(Fee) ∧
  (tx.(From) ≠ p.(ep_Recipient) → (acct s' p.(ep_Recipient)).(Balance) = (acct s p.(ep_Recipient)).(Balance) + coin) ∧
  (a ≠ "syn" →
     asset_of (acct s' tx.(From)) a = asset_of (acct s tx.(From)) a - p.(ep_Amount) ∧
     (tx.(From) ≠ p.(ep_Recipient) → asset_of (acct s' p.(ep_Recipient)) a = asset_of (acct s p.(ep_Recipient)) a + p.(ep_Amount))) ∧
  (∀ b, b ≠ tx.(From) → b ≠ p.(ep_Recipient) → acct s' b = acct s b).

Lemma carries_native p tx : carries p tx → is_native tx = bool_decide (proof_asset p = "syn") ∧ (is_native tx = false → tx.(AssetID) = proof_asset p).
Proof.
  intros [_ _ _ Has]. rewrite <- Has. unfold tx_asset, is_native. destruct (empty_str tx.(AssetID)); cbn; [by split|]. by split.
Qed.

Lemma release_transfer p tx s : carries p tx → signed_ascii p → ledger_ok s → tx_fields tx →
  wp (applyTransfer tx) (λ _, released p tx s) (λ _ s', s' = s) s.
Proof.
  intros Hc Hascii Hok Htx. pose proof (release_read p tx "type" Hc) as Hty. pose proof Hc as Hc'. destruct Hc as [_ Hto Ham Has].
  assert (wp (applyTransfer tx) (λ _ s', release_due s p ∧ ∃ s1, s'.(ProcessedBridgeEvents) = s1.(ProcessedBridgeEvents) ∧
      s1.(ProcessedBridgeEvents) = <[proof_id p := true]> s.(ProcessedBridgeEvents)) (λ _ _, True) s) as Hdue.
  { unfold applyTransfer. do 6 (wp_step fail; try done; cbv beta zeta).
    all: assert (applyImmuneMetadata tx = mret tt) as -> by (unfold applyImmuneMetadata; by rewrite Hty).
    all: repeat (wp_step fail; try done; cbv beta zeta).
    all: pose proof (release_spec p tx s Hc' Hascii) as Hr; unfold wp; destruct (applyBridgeMetadata tx s) as [s1 [[]|e]]; [|done].
    all: destruct Hr as [Hr1 Hr2]; cbn; split; [done|]; exists s1; done. }
  eapply wp_mono; [exact (wp_and _ _ _ _ _ _ Hdue (applyTransfer_spec tx s Hok Htx))| |by intros e s' [_ H]].
  intros [] s' [(Hd & s1 & Hp1 & Hp2) (_ & _ & Hs & _ & _ & f' & t' & (Hfb & _ & _ & Hfa)%debit_ok & (Htb & _ & Hta)%credit_ok & Hf & Ht & Ho)].
  destruct (carries_native p tx Hc') as [Hnat Hid]. unfold self_loss, paid in *. rewrite Hnat, Ham, Hto in *.
  split; [done|]. split; [intros (_ & _ & _ & H); rewrite Hp1, Hp2, lookup_insert_eq in H; done|]. cbv zeta.
  split; [exact Hs|]. split; [rewrite Hf; simpl; rewrite Hfb, Balance_Get; lia|].
  split; [intros Hne; by rewrite (Ht (not_eq_sym Hne)), Balance_norm, Htb, Balance_Get|]. split; [|exact Ho].
  intros Hne0. pose proof (bool_decide_eq_false_2 _ Hne0) as Ha. rewrite (Hid Ha) in Hfa, Hta. destruct (Hfa Ha) as [_ Hfa']. specialize (Hta Ha).
  split; [rewrite Hf; exact Hfa'|]. intros Hne. rewrite (Ht (not_eq_sym Hne)), asset_of_norm. exact Hta.
Qed.

Lemma release_transaction p tx ctx s : carries p tx → signed_ascii p → ledger_ok s → tx_fields tx →
  wp (ApplyTransaction tx ctx) (λ _, released p tx s) (λ _ s', s' = s) s.
Proof.
  intros Hc Hascii Hok Htx. unfold ApplyTransaction. apply wp_bind, wp_fail_if; [done|intros _]. cbv zeta.
  pose proof (carries_timed p tx ctx Hc) as Hc1. set (tx1 := with_block_time ctx tx) in *.
  assert (tx1.(From) = tx.(From) ∧ tx1.(Fee) = tx.(Fee) ∧ tx_fields tx1) as (Hfrom & Hfee & Htx1)
    by (unfold tx1, with_block_time; case_match; [done|]; by destruct Htx).
  assert (∀ t, carries p t → tx_type t = "bridge_release_native") as Hty by (intros t Ht; exact (release_read p t "type" Ht)).
  rewrite (Hty tx1 Hc1). assert (IsValidatorTxType "bridge_release_native" = false) as -> by (vm_compute; reflexivity). cbn [andb].
  unfold ApplyTx. destruct (Verify_ok_case tx1) as [[-> _]|(e & He & _)]; [|destruct (Verify tx1) as [t r]; cbn in He; by subst r].
  pose proof (carries_sorted p tx1 Hc1) as Hc2. unfold applyVerified. rewrite (Hty _ Hc2).
  rewrite !bool_decide_eq_false_2 by (apply (bool_decide_unpack _); vm_compute; exact I).
  eapply wp_mono; [apply (release_transfer p (sort_metadata tx1) s Hc2 Hascii Hok); by destruct Htx1| |done].
  intros [] s' (H1 & H2 & H3). split; [done|]. split; [done|]. cbn [sort_metadata From Fee] in H3. cbv zeta in H3 |- *.
  change (From (sort_metadata tx1)) with (From tx1) in H3. change (Fee (sort_metadata tx1)) with (Fee tx1) in H3.
  rewrite Hfrom, Hfee in H3. exact H3.
Qed.

End release.
