(* ===== verification/RelayerTheorems.v ===== *)
(** What the bridge relayer is for: every confirmed event of the watched
    contracts is claimed once, the claim is worth exactly what was burned, and
    a submitted claim is released when the chain's bridge validators signed it.
    With them, the defects the model shows. *)
From stdpp Require Import base strings list gmap.
From Stdlib Require Import Ascii.
From S2P Require Import Prelude GoStd Sha256 Json Types Ledger TxModel Bridge Apply ApplyFacts.
From S2P Require Import GoText RegistryPay Examples Relayer RelayerFacts.

#[local] Open Scope string_scope.
#[local] Open Scope Z_scope.

Definition vault_label : string := "bridge vault lock".
Definition minter_label : string := "SYN burn-for-release".

(** (C33) Watching is complete, in order and free of repetition. Let the two
    contracts emit well-formed events with distinct names, and let head, log
    and write requests be answered: over any number of passes the outbox holds
    for each contract exactly the claims of its blocks from the configured
    start up to a cursor, in the order of the chain; the cursor has passed
    every block that some pass saw with the required confirmations, and no
    claim with fewer is written. *)
Theorem relayer_delivers `{E : Ed25519} c url vault minter from_v from_m chainID logs claims ps heads :
  url ≠ "" → is_evm_address (ToLower vault) = true → is_evm_address (ToLower minter) = true →
  0 ≤ c.(se_min) → 0 < from_v → 0 < from_m →
  (∀ b, Forall2 (lock_log b) (logs vault_label b) (claims vault_label b)) →
  (∀ b, Forall2 (burn_log b) (logs minter_label b) (claims minter_label b)) →
  (∀ l from to, NoDup (event_id <$> blocks (claims l) from to)) →
  Forall2 (good_pass c logs [vault_source (ToLower vault) from_v; minter_source (ToLower minter) from_m chainID]) ps heads →
  ∃ f n_v n_m, watchEVM url vault minter from_v from_m (inl chainID) c ps = (f, inl tt) ∧ proofs_ok c f ∧
    delivered vault_label f = blocks (claims vault_label) from_v (n_v - 1) ∧
    delivered minter_label f = blocks (claims minter_label) from_m (n_m - 1) ∧
    Forall (λ head, c.(se_min) ≤ head → head - c.(se_min) < n_v ∧ head - c.(se_min) < n_m) heads.
Proof.
  intros Hurl Hv Hm Hmin Hfv Hfm Hlocks Hburns Hnd Hps. unfold watchEVM, watch_sources.
  assert (∀ a, is_evm_address (ToLower a) = true → empty_str a = false) as Hne by (intros a Ha; by apply bool_decide_eq_false; intros ->).
  rewrite (proj2 (bool_decide_eq_false _) Hurl : empty_str url = false), !Hne, Hv, Hm by done. cbn [negb andb].
  destruct (watch_passes_ok c logs claims ps heads _ (mkEffects [] []) Hps Hmin) with (starts := [from_v; from_m]) as (ss' & f & -> & Hf & Hall).
  - apply (bool_decide_unpack _). vm_compute. exact I.
  - constructor; [|constructor; [|constructor]]; (split; [|by intros; apply Hnd]); intros b; cbn.
    + eapply Forall2_impl; [apply Hlocks|]. intros log k. apply lock_decodes.
    + eapply Forall2_impl; [apply Hburns|]. intros log k. apply burn_decodes.
  - constructor.
  - repeat constructor; cbn; try lia; by rewrite blocks_none.
  - inversion Hall as [|? ? sv ? ? ? [[_ _ D1] B1] Hall1]; subst. inversion Hall1 as [|? ? sm ? ? ? [[_ _ D2] B2] Hall2]; subst.
    exists f, sv.(so_nextBlock), sm.(so_nextBlock). split; [done|]. split; [done|]. split; [exact D1|]. split; [exact D2|].
    rewrite Forall_forall in *. intros head Hin Hle. split; [by apply B1|by apply B2].
Qed.

(** One burn of 3 SYN in block 5 of a quiet chain. *)
Definition minter0 : string := "0x5d6f8fbaab199e788ed9cfcb3f7fe2ac9c0450d2".
Definition vault0 : string := "0xa0b86991c6218b36c1d19d4a2e9eb0ce3606eb48".
Definition recipient0 : string := "0x52908400098527886e0f7030069857d2e4169ee7".

Definition burn_data0 : string := Eval vm_compute in hex_data (abi_burn recipient0 (3 * 10 ^ 18) 0 "").
Definition burn0 : evmLog := mkLog minter0 [synBurnedForNativeReleaseTopic; "0x01"; "0x00"] burn_data0 "0x5" "0xAB" "0x0" "0x1" false.
Definition claim0 : claim := ("0xab:0x1", recipient0, 3).

Definition logs0 (l : string) (b : Z) : list evmLog := if bool_decide (l = minter_label) && (b =? 5) then [burn0] else [].
Definition claims0 (l : string) (b : Z) : list claim := if bool_decide (l = minter_label) && (b =? 5) then [claim0] else [].

Lemma burn0_ok : burn_log 5 burn0 claim0.
Proof.
  split; [reflexivity|]. split; [vm_compute; reflexivity|].
  exists synBurnedForNativeReleaseTopic, "0x01", "0x00", [], recipient0, 3, 0, "".
  split; [reflexivity|]. split; [vm_compute; reflexivity|]. split; [vm_compute; reflexivity|].
  split; [vm_compute; discriminate|]. split; [split; vm_compute; [reflexivity|discriminate]|].
  split; [split; vm_compute; discriminate|]. split; [vm_compute; reflexivity|]. split; [vm_compute; reflexivity|reflexivity].
Qed.

Lemma claims0_blocks from to : blocks (claims0 minter_label) from to = if bool_decide (from ≤ 5 ≤ to) then [claim0] else [].
Proof.
  assert (∀ bs, NoDup bs → concat (claims0 minter_label <$> bs) = if bool_decide (5 ∈ bs) then [claim0] else []) as H.
  { induction 1 as [|b bs Hb Hnd IH]; [done|]. cbn. unfold claims0 at 1. rewrite bool_decide_eq_true_2 by done. cbn [andb].
    rewrite IH. destruct (Z.eqb_spec b 5) as [->|]; cbn.
    - rewrite bool_decide_eq_false_2 by done. by rewrite bool_decide_eq_true_2 by (by left).
    - rewrite (bool_decide_ext (5 ∈ bs) (5 ∈ b :: bs)); [done|]. rewrite elem_of_cons. naive_solver. }
  unfold blocks. rewrite H by apply NoDup_seqZ. rewrite (bool_decide_ext (5 ∈ _) (from ≤ 5 ≤ to)); [done|]. rewrite elem_of_seqZ. lia.
Qed.

Lemma claims0_apart l from to : NoDup (event_id <$> blocks (claims0 l) from to).
Proof.
  destruct (decide (l = minter_label)) as [->|Hl].
  - rewrite claims0_blocks. case_bool_decide; [apply NoDup_singleton|constructor].
  - assert (∀ bs, concat (claims0 l <$> bs) = []) as H; [|unfold blocks; rewrite H; constructor].
    induction bs as [|b bs IH]; [done|]. cbn. unfold claims0 at 1. by rewrite bool_decide_eq_false_2.
Qed.

Definition c0 : settings := mkSettings 2 false "" 0.
Definition native0 : NativeNode := mkNode (λ _, inl 0) (inl 7) (λ _, inl tt) (1700000000 * 10 ^ 9).
Definition pass0 (head : Z) : pass :=
  mkPass (inl head) (λ _ topic from to, inl (blocks (logs0 (if bool_decide (topic = bridgeLockedTopic) then vault_label else minter_label)) from to))
    (λ _, inl tt) native0.

Lemma pass0_good head : 0 ≤ head < MaxUint64 →
  good_pass c0 logs0 [vault_source (ToLower vault0) 3; minter_source (ToLower minter0) 4 1] (pass0 head) head.
Proof.
  intros Hh. split; [done|]. split; [done|]. split; [|by split].
  intros s from to [->|[->|[]%not_elem_of_nil]%elem_of_cons]%elem_of_cons _; done.
Qed.

(** Three passes over it claim the burn, once. *)
Lemma relayer_delivers_witness :
  delivered minter_label (watchEVM "https://evm.example" vault0 minter0 3 4 (inl 1) c0 (map pass0 [1; 6; 9])).1 = [claim0].
Proof.
  destruct (relayer_delivers c0 "https://evm.example" vault0 minter0 3 4 1 logs0 claims0 (map pass0 [1; 6; 9]) [1; 6; 9])
    as (f & n_v & n_m & -> & _ & _ & Hd & Hheads); [discriminate|reflexivity|reflexivity|vm_compute; discriminate|reflexivity|reflexivity|..].
  - intros b. unfold logs0, claims0. cbn [andb]. constructor.
  - intros b. unfold logs0, claims0. rewrite bool_decide_eq_true_2 by reflexivity. cbn [andb].
    destruct (Z.eqb_spec b 5) as [->|]; [|constructor]. constructor; [exact burn0_ok|constructor].
  - exact claims0_apart.
  - repeat constructor; apply pass0_good; vm_compute; split; congruence.
  - cbn [fst]. rewrite Hd, claims0_blocks. apply Forall_cons in Hheads as [_ Hheads]. apply Forall_cons in Hheads as [_ Hheads].
    apply Forall_cons in Hheads as [H _]. cbn in H. rewrite bool_decide_eq_true_2 by lia. reflexivity.
Defined.

(* ------------------------------------------------------------------ *)
(** * Amounts *)

(** A burn is worth exactly what it destroyed. For a log of the burn
    event with any recipient and any 256-bit amount: if it becomes a proof, the
    released amount times 10^18 is the burned amount, nothing is rounded and
    nothing wraps, and the recipient is the one in the log; it becomes none
    exactly when no 64-bit amount of native SYN is equal to it or the native
    chain cannot name the recipient. *)
Theorem burn_release_exact chain log head min b t0 t1 t2 ts recipient raw nonce pad :
  log.(lg_Removed) = false → parseHexUint64 log.(lg_BlockNumber) = inl b → b ≤ head →
  log.(lg_Topics) = t0 :: t1 :: t2 :: ts → ToLower t0 = synBurnedForNativeReleaseTopic →
  log.(lg_Data) = hex_data (abi_burn recipient raw nonce pad) → slen (abi_burn recipient raw nonce pad) ≤ MaxUint64 →
  0 ≤ raw < 2 ^ 256 → in_u64 nonce →
  match proofFromSynBurnedLog chain log head min with
  | inl p => p.(ep_Amount) * 10 ^ 18 = raw ∧ 0 < p.(ep_Amount) ≤ MaxUint64 ∧ nativeRecipientFromBytes recipient = inl p.(ep_Recipient) ∧
      p.(ep_SourceChainID) = chain ∧ p.(ep_SourceEventID) = source_event log t1 ∧ p.(ep_Confirmations) = u64 (head - b + 1)
  | inr _ => (∀ n, 0 < n ≤ MaxUint64 → n * 10 ^ 18 ≠ raw) ∨ ∀ a, nativeRecipientFromBytes recipient ≠ inl a
  end.
Proof.
  intros Hr Hb Hle Ht Ht0 Hd Hmax Hraw Hn. unfold proofFromSynBurnedLog. rewrite Hr, Ht, Ht0, bool_decide_eq_true_2 by done. cbn [negb].
  rewrite (log_depth_ok _ _ _ Hb Hle), Hd, decode_burn by done. destruct (nativeRecipientFromBytes recipient) as [a|e]; [|right; congruence].
  destruct (nativeAmountFromWrappedSynUnits raw) as [n|e] eqn:Ha.
  - apply native_amount_spec in Ha as [-> Hn']. cbn. done.
  - left. intros n Hn' Heq. rewrite (proj2 (native_amount_spec raw n)) in Ha; [done|]. by split.
Qed.

Lemma burn_release_exact_witness :
  match proofFromSynBurnedLog "1" burn0 9 2 with inl p => p.(ep_Amount) * 10 ^ 18 = 3 * 10 ^ 18 | inr _ => False end.
Proof.
  pose proof (burn_release_exact "1" burn0 9 2 5 synBurnedForNativeReleaseTopic "0x01" "0x00" [] recipient0 (3 * 10 ^ 18) 0 "" eq_refl
    ltac:(vm_compute; reflexivity) ltac:(vm_compute; discriminate) eq_refl ltac:(vm_compute; reflexivity) ltac:(vm_compute; reflexivity)
    ltac:(vm_compute; discriminate) ltac:(split; vm_compute; [discriminate|reflexivity]) ltac:(split; vm_compute; discriminate)) as H.
  assert ((proofFromSynBurnedLog "1" burn0 9 2) = inl (mkProof "1" "0xab:0x1" recipient0 3 "syn" 5 2 5 "0xAB" "" [])) as Hp by (vm_compute; reflexivity).
  rewrite Hp in H |- *. destruct H as [H _]. exact H.
Defined.

(* ------------------------------------------------------------------ *)
(** * Releases *)

(** (C34) From proof to release. The transfer [submitNativeReleaseProof] got
    accepted, whenever it comes into a block, either changes nothing or is a
    release that was due: the bridge validators' quorum had signed exactly this
    source event, recipient, asset and amount and it had not been released
    before; it takes the amount out of the submitter's account and gives it to
    the recipient, native coin if the proof names "syn" or no asset and units
    of the named asset otherwise, burns the fee, touches no other account, and
    is not due again. A release to the submitter itself destroys the amount.
    The proof's validator names and signatures are ASCII, and the amounts of
    the transfer and of the ledger fit 64 bits. *)
Theorem release_outcome `{E : Ed25519} n p privHex fee tx ctx s :
  submitNativeReleaseProof n p privHex fee = inl tx → signed_ascii p → tx_fields tx → ledger_ok s →
  match ApplyTransaction tx ctx s with
  | (s', inl _) => released p tx s s'
  | (s', inr _) => s' = s
  end.
Proof.
  intros [Hc _]%submitted_tx Hascii Htx Hok. exact (release_transaction p tx ctx s Hc Hascii Hok Htx).
Qed.

(** A relayer with coins, two bridge validators, and a proof both signed. *)
Definition relayer_key : string := Eval vm_compute in hexEncode (sha256 "r1" +:+ sha256 "r2").
Definition relayer0 : Address := Eval vm_compute in AddressFromPublicKey (ed_Public (sha256 "r1" +:+ sha256 "r2")).

Definition release_ledger : State :=
  Eval vm_compute in
    set_BridgeValidators (<["b1" := hex0x (key_of "b1")]> (<["b2" := hex0x (key_of "b2")]> ∅))
      (set_Accounts (<[relayer0 := mkAccount 1000000 None 0]> (<[bob := mkAccount 2000 None 0]> ∅)) ledger0).

Definition signed_by (name : string) : BridgeValidatorSignature :=
  mkBridgeSig name (hex0x (ed_Sign name (BridgeReleaseSigningMessage "1" "0xab:0x1" bob "syn" 3))).

Definition proof0 : externalLockProof := Eval vm_compute in
  mkProof "1" "0xab:0x1" bob 3 "syn" 5 2 5 "0xAB" "" [signed_by "b1"; signed_by "b2"].

Definition sent0 : Tx := Eval vm_compute in
  match submitNativeReleaseProof native0 proof0 relayer_key 10 with inl tx => tx | inr _ => draft "alice" bob 0 0 0 "" [] end.

Example sent0_ok : submitNativeReleaseProof native0 proof0 relayer_key 10 = inl sent0 ∧ (ApplyTransaction sent0 ctx0 release_ledger).2 = inl tt.
Proof. vm_compute. by split. Qed.

Lemma release_outcome_witness :
  let s' := (ApplyTransaction sent0 ctx0 release_ledger).1 in
  ¬ release_due s' proof0 ∧ (acct s' bob).(Balance) = 2000 + 3 ∧ supply s' = supply release_ledger - 10.
Proof.
  destruct sent0_ok as [Hsent Hrun].
  pose proof (release_outcome native0 proof0 relayer_key 10 sent0 ctx0 release_ledger Hsent
    ltac:(repeat constructor) ltac:(split; vm_compute; split; discriminate) ltac:(apply ledger_okb_ok; vm_compute; reflexivity)) as H.
  rewrite (run_ok _ _ _ Hrun) in H. destruct H as (_ & H2 & H3). cbv zeta in H3 |- *. destruct H3 as (H3 & _ & H4 & _).
  split; [exact H2|]. split; [apply H4; discriminate|].
  rewrite H3. assert (bool_decide (sent0.(From) = proof0.(ep_Recipient)) = false) as -> by (vm_compute; reflexivity).
  change (sent0.(Fee)) with 10. apply Z.sub_0_r.
Defined.

(* ------------------------------------------------------------------ *)
(** * Locks of the native chain, anchors *)

Lemma record_locks_ok append events seen outbox seen' outbox' :
  record_locks append events seen outbox = (seen', outbox', inl tt) →
  NoDup (be_ID <$> outbox) → (∀ id, id ∈ seen ↔ id ∈ be_ID <$> outbox) →
  NoDup (be_ID <$> outbox') ∧ (∀ id, id ∈ seen' ↔ id ∈ be_ID <$> outbox') ∧ (∃ new, outbox' = (outbox ++ new)%list) ∧
  ∀ e, e ∈ events → e.(be_Type) = "bridge_lock_native" → e.(be_ID) ∈ be_ID <$> outbox'.
Proof.
  revert seen outbox. induction events as [|e events IH]; intros seen outbox; cbn [record_locks].
  { intros [= <- <-] Hnd Hseen. split_and!; [done|done|exists []; by rewrite app_nil_r|]. by intros e ?%not_elem_of_nil. }
  destruct (negb _ || _) eqn:Hskip.
  - intros Hrun Hnd Hseen. destruct (IH _ _ Hrun Hnd Hseen) as (H1 & H2 & (new & ->) & H4). split_and!; [done|done|by exists new|].
    intros e' [->|He']%elem_of_cons Hty; [|by apply H4]. rewrite (bool_decide_eq_true_2 _ Hty) in Hskip. cbn in Hskip.
    apply bool_decide_eq_true, Hseen in Hskip. rewrite fmap_app, elem_of_app. by left.
  - apply orb_false_iff in Hskip as [_ Hnew%bool_decide_eq_false]. destruct (append e); [|done]. intros Hrun Hnd Hseen.
    destruct (IH _ _ Hrun) as (H1 & H2 & (new & ->) & H4).
    + rewrite fmap_app. apply NoDup_app. split_and!; [done| |apply NoDup_singleton]. intros id Hid ->%list_elem_of_singleton. by apply Hnew, Hseen.
    + intros id. rewrite fmap_app, elem_of_union, elem_of_app, elem_of_singleton, Hseen. cbn. rewrite list_elem_of_singleton. tauto.
    + split_and!; [done|done|exists (e :: new); by rewrite <- app_assoc|].
      intros e' [->|He']%elem_of_cons Hty; [|by apply H4]. rewrite !fmap_app, !elem_of_app. left. right. by left.
Qed.

(** Each lock the native node answers is recorded, none twice, whatever is
    answered again. *)
Theorem native_locks_recorded answers seen outbox :
  watchNative answers ∅ [] = (seen, outbox, inl tt) →
  NoDup (be_ID <$> outbox) ∧
  ∀ events append e, (inl events, append) ∈ answers → e ∈ events → e.(be_Type) = "bridge_lock_native" → e.(be_ID) ∈ be_ID <$> outbox.
Proof.
  assert (∀ seen0 outbox0, watchNative answers seen0 outbox0 = (seen, outbox, inl tt) →
    NoDup (be_ID <$> outbox0) → (∀ id, id ∈ seen0 ↔ id ∈ be_ID <$> outbox0) →
    NoDup (be_ID <$> outbox) ∧ (∃ new, outbox = (outbox0 ++ new)%list) ∧
    ∀ events append e, (inl events, append) ∈ answers → e ∈ events → e.(be_Type) = "bridge_lock_native" → e.(be_ID) ∈ be_ID <$> outbox) as H.
  { induction answers as [|[[events|er] append] answers IH]; intros seen0 outbox0; cbn [watchNative]; [|..|done].
    { intros [= <- <-] Hnd _. split_and!; [done|exists []; by rewrite app_nil_r|]. by intros ??? ?%not_elem_of_nil. }
    destruct (record_locks append (rev events) seen0 outbox0) as [[seen1 outbox1] [[]|]] eqn:Hrec; [|done]. intros Hrun Hnd Hseen.
    destruct (record_locks_ok _ _ _ _ _ _ Hrec Hnd Hseen) as (H1 & H2 & (new & ->) & H4). destruct (IH _ _ Hrun H1 H2) as (H5 & (new' & ->) & H7).
    split_and!; [done|exists (new ++ new')%list; by rewrite app_assoc|].
    intros ev ap e [Heq|Hin]%elem_of_cons He Hty; [|by eapply H7]. injection Heq as -> ->.
    rewrite fmap_app, elem_of_app. left. apply H4; [|done]. by rewrite list_elem_of_In, <- in_rev, <- list_elem_of_In. }
  intros Hrun. destruct (H ∅ [] Hrun) as (H1 & _ & H3); [constructor|set_solver|]. done.
Qed.

(* ------------------------------------------------------------------ *)
(** * Defects *)

(** What the watcher itself submits is never released: the proofs it makes of
    logs have no validator signatures, and the chain refuses a release without
    them. With [auto-submit-native] the watcher only sends transfers the chain
    rejects. *)
Theorem auto_submit_never_released `{E : Ed25519} n p privHex fee tx ctx s :
  (∃ log head min, proofFromBridgeLockedLog log head min = inl p ∨ ∃ chain, proofFromSynBurnedLog chain log head min = inl p) →
  submitNativeReleaseProof n p privHex fee = inl tx → tx_fields tx → ledger_ok s →
  ∃ e, ApplyTransaction tx ctx s = (s, inr e).
Proof.
  intros (log & head & min & Hp) Hsub Htx Hok.
  assert (p.(ep_ValidatorSignatures) = []) as Hnone.
  { destruct Hp as [Hp|[chain Hp]]; unfold proofFromBridgeLockedLog, proofFromSynBurnedLog in Hp; repeat (case_match; try done); by simplify_eq/=. }
  apply submitted_tx in Hsub as [Hc _]. assert (signed_ascii p) as Hascii by (unfold signed_ascii; by rewrite Hnone).
  pose proof (release_transaction p tx ctx s Hc Hascii Hok Htx) as Hw. unfold wp in Hw.
  destruct (ApplyTransaction tx ctx s) as [s' [u|e]]; [|exists e; by rewrite Hw].
  destruct Hw as ((_ & _ & (Hq & _) & _) & _). by rewrite Hnone in Hq.
Qed.

(** One event the relayer cannot turn into a proof stops it for good: the pass
    ends with its error before the cursor moves, and so does every pass over
    that block, also after a restart. A contract user can cause it: the minter
    burns any positive amount, the relayer wants whole SYN. *)
Theorem bad_event_blocks `{E : Ed25519} c p ss s f head confirmed logs log e :
  p.(pa_head) = inl head → 0 ≤ c.(se_min) ≤ head → head ≤ MaxUint64 → confirmed = head - c.(se_min) →
  0 < s.(so_nextBlock) ≤ confirmed → p.(pa_logs) s.(so_address) s.(so_topic) s.(so_nextBlock) confirmed = inl (log :: logs) →
  s.(so_decode) log head c.(se_min) = inr e →
  watch_pass c p (s :: ss) f = (s :: ss, f, inr e).
Proof.
  intros Hh Hmin Hmax -> Hnext Hlogs Hdec. unfold watch_pass. rewrite Hh, (proj2 (Z.ltb_ge _ _)) by lia. cbn [take_sources].
  unfold take_source. cbv zeta. rewrite u64_small by (unfold in_u64; lia). rewrite (proj2 (Z.eqb_neq _ _)) by lia.
  rewrite (proj2 (Z.ltb_ge _ _)) by lia. rewrite Hlogs. cbn [take_logs]. by rewrite Hdec.
Qed.

(** Half a wrapped SYN, burned, is such an event. *)
Definition dust_log : evmLog := mkLog minter0 [synBurnedForNativeReleaseTopic; "0x01"; "0x00"]
  (hex_data (abi_burn recipient0 (5 * 10 ^ 17) 0 "")) "0x5" "0xAB" "0x0" "0x1" false.

Example dust_refused : proofFromSynBurnedLog "1" dust_log 9 2 =
  inr (Err "burned amount is not a whole number of SYN (not a multiple of 10^18)").
Proof. vm_compute. reflexivity. Qed.

(** A length near 2^64 in a log makes the decoder panic: the sum of the end
    position wraps below the start. *)
Definition wrapping_data : string :=
  hex_data (word 96 +:+ word 1 +:+ word 0 +:+ word (MaxUint64 - 100) +:+ recipient0).

Example decode_panics : decodeSynBurnedData wrapping_data = inr (Panic "slice bounds out of range").
Proof. vm_compute. reflexivity. Qed.
