(* ===== verification/PeerAuth.v ===== *)
(** Authenticated connections between nodes (internal/network/peer_auth.go,
    secure_transport.go): the signed handshake, the reputation of peers, and
    the framed messages of a connection.

    A connection is what its two ends see: the bytes that can be read before
    the other side closes it or a deadline passes, whether writing succeeds,
    and the TLS session's exported keying material. TLS itself, listening and
    the limit on simultaneous connections are not modelled. The map of
    persistent connections has no writer in the source, so every message is
    sent on a connection of its own. Error texts are the source's, without
    what the hex and JSON decoders add to them.

    After the definitions, facts about them: what is written on the wire is
    read back, when a handshake is accepted, and what it is a proof of. *)
From stdpp Require Import base strings list gmap pretty.
From Stdlib Require Import Ascii.
From S2P Require Import Prelude GoStd Sha256 Json JsonParse TxModel JsonRound TxDecode Block.
From S2P Require Import Network GoText.

#[local] Open Scope string_scope.
#[local] Open Scope Z_scope.

(** [PeerInfo] *)
Record PeerInfo : Type := mkPeerInfo {
  pi_AgentID : string;
  pi_PublicKeyHex : string;
  FirstSeen : Time;
  LastSeen : Time;
  ConnectionCount : Z;
  FailedAttempts : Z;
  Banned : bool;
  BanReason : string
}.

#[global] Instance eta_PeerInfo : Eta PeerInfo := λ r,
  mkPeerInfo r.(pi_AgentID) r.(pi_PublicKeyHex) r.(FirstSeen) r.(LastSeen) r.(ConnectionCount) r.(FailedAttempts) r.(Banned) r.(BanReason).

Record HandshakeMessage : Type := mkHandshake {
  hs_AgentID : string;
  hs_PublicKeyHex : string;
  hs_Timestamp : Z;
  hs_Signature : string;
  hs_ReplayNonce : string
}.

(** [PeerAuth]; the public key is the private key's. *)
Record PeerAuth : Type := mkPeerAuth {
  pa_nodeID : string;
  pa_privateKey : string;
  trustedPeers : gmap string string;
  peerReputation : gmap string PeerInfo;
  requireSignature : bool;
  replayProtection : gmap string Z
}.

#[global] Instance eta_PeerAuth : Eta PeerAuth := λ r,
  mkPeerAuth r.(pa_nodeID) r.(pa_privateKey) r.(trustedPeers) r.(peerReputation) r.(requireSignature) r.(replayProtection).

Definition replayWindow : Z := 60.

(** [t.Unix()] *)
Definition unix_sec (t : Time) : Z := t.(instant) / second - 719162 * 86400.

Definition zero_time : Time := mkTime 0 0.

(** What an element of [peerReputation] is replaced by; a new one is made of
    nothing. *)
Definition set_info (agentID : string) (i : PeerInfo) (pa : PeerAuth) : PeerAuth :=
  pa <| peerReputation := <[agentID := i]> pa.(peerReputation) |>.

(* ------------------------------------------------------------------ *)
(** * Peers *)

Section with_ed25519.
Context `{E : Ed25519}.

(** [NewPeerAuth] *)
Definition NewPeerAuth (nodeID privateKey : string) (required : bool) : PeerAuth := mkPeerAuth nodeID privateKey ∅ ∅ required ∅.

(** [RegisterTrustedPeer] *)
Definition RegisterTrustedPeer (agentID publicKeyHex : string) (pa : PeerAuth) : PeerAuth * res unit :=
  match hexDecode (TrimPrefix publicKeyHex "0x") with
  | None => (pa, inr (Err "invalid public key hex"))
  | Some b =>
      if negb (slen b =? 32) then (pa, inr (Err ("invalid public key size: " +:+ fmt_d (slen b) +:+ " bytes")))
      else (pa <| trustedPeers := <[agentID := b]> pa.(trustedPeers) |>, inl tt)
  end.

(** [BanPeer] *)
Definition BanPeer (now : Time) (agentID reason : string) (pa : PeerAuth) : PeerAuth :=
  match pa.(peerReputation) !! agentID with
  | Some info => set_info agentID (info <| Banned := true |> <| BanReason := reason |>) pa
  | None => set_info agentID (mkPeerInfo agentID "" now zero_time 0 0 true reason) pa
  end.

(** [recordSuccessfulConnection] *)
Definition recordSuccessfulConnection (now : Time) (agentID publicKeyHex : string) (pa : PeerAuth) : PeerAuth :=
  match pa.(peerReputation) !! agentID with
  | Some info => set_info agentID (info <| LastSeen := now |> <| ConnectionCount := i64 (info.(ConnectionCount) + 1) |> <| FailedAttempts := 0 |>) pa
  | None => set_info agentID (mkPeerInfo agentID publicKeyHex now now 1 0 false "") pa
  end.

Definition failureThreshold : Z := 5.

(** [recordFailedAttempt] *)
Definition recordFailedAttempt (now : Time) (agentID : string) (pa : PeerAuth) : PeerAuth :=
  match pa.(peerReputation) !! agentID with
  | Some info =>
      let info := info <| FailedAttempts := i64 (info.(FailedAttempts) + 1) |> in
      set_info agentID
        (if failureThreshold <=? info.(FailedAttempts)
         then info <| Banned := true |> <| BanReason := "exceeded failure threshold (5 attempts)" |> else info) pa
  | None => set_info agentID (mkPeerInfo agentID "" now now 0 1 false "") pa
  end.

(* ------------------------------------------------------------------ *)
(** * Handshakes *)

(** [handshakeSignedBytes] *)
Definition handshakeSignedBytes (agentID : string) (timestamp : Z) (channelBinding : string) : string :=
  agentID +:+ "|" +:+ fmt_d timestamp +:+ (if 0 <? slen channelBinding then "|" +:+ hexEncode channelBinding else "").

(** [CreateHandshake] *)
Definition CreateHandshake (now : Time) (nonce channelBinding : string) (pa : PeerAuth) : HandshakeMessage :=
  let timestamp := unix_sec now in
  mkHandshake pa.(pa_nodeID) (hexEncode (ed_Public pa.(pa_privateKey))) timestamp
    (hexEncode (ed_Sign pa.(pa_privateKey) (handshakeSignedBytes pa.(pa_nodeID) timestamp channelBinding))) nonce.

(** [VerifyHandshake] *)
Definition VerifyHandshake (now : Time) (msg : HandshakeMessage) (channelBinding : string) (pa : PeerAuth) : PeerAuth * res string :=
  let agentID := msg.(hs_AgentID) in
  let banned := match pa.(peerReputation) !! agentID with Some info => if info.(Banned) then Some info.(BanReason) else None | None => None end in
  match banned with
  | Some reason => (pa, inr (Err ("peer " +:+ agentID +:+ " is banned: " +:+ reason)))
  | None =>
      let now_s := unix_sec now in
      let age := i64 (now_s - msg.(hs_Timestamp)) in
      if 300 <? age then (pa, inr (Err ("handshake timestamp too old: " +:+ fmt_d age +:+ " seconds")))
      else
        let repeated := match pa.(replayProtection) !! agentID with
                        | Some lastTs => (i64 (now_s - lastTs) <? replayWindow) && (msg.(hs_Timestamp) =? lastTs)
                        | None => false
                        end in
        if repeated then (pa, inr (Err ("duplicate handshake from " +:+ agentID +:+ " detected (replay attack)")))
        else
          let signature :=
            if pa.(requireSignature) then
              match pa.(trustedPeers) !! agentID with
              | None => (pa, inr (Err ("peer " +:+ agentID +:+ " is not trusted (unknown public key)")))
              | Some pubKey =>
                  match hexDecode msg.(hs_Signature) with
                  | None => (pa, inr (Err "invalid signature encoding"))
                  | Some sigBytes =>
                      if ed_Verify pubKey (handshakeSignedBytes agentID msg.(hs_Timestamp) channelBinding) sigBytes then (pa, inl tt)
                      else (recordFailedAttempt now agentID pa, inr (Err ("peer " +:+ agentID +:+ " signature verification failed")))
                  end
              end
            else (pa, inl tt) in
          match signature with
          | (pa, inr e) => (pa, inr e)
          | (pa, inl _) =>
              let mismatch := negb (empty_str msg.(hs_PublicKeyHex)) &&
                match pa.(trustedPeers) !! agentID with Some trusted => negb (bool_decide (msg.(hs_PublicKeyHex) = hexEncode trusted)) | None => false end in
              if mismatch then (pa, inr (Err ("peer " +:+ agentID +:+ " public key mismatch (possible key compromise)")))
              else
                let pa := recordSuccessfulConnection now agentID msg.(hs_PublicKeyHex) pa in
                (pa <| replayProtection := <[agentID := msg.(hs_Timestamp)]> pa.(replayProtection) |>, inl agentID)
          end
  end.

(** [GetAuthenticityProof], [VerifyAuthenticityProof] *)
Definition GetAuthenticityProof (data : string) (pa : PeerAuth) : string := hexEncode (ed_Sign pa.(pa_privateKey) (sha256 data)).

Definition VerifyAuthenticityProof (agentID data proofHex : string) (pa : PeerAuth) : res unit :=
  match pa.(trustedPeers) !! agentID with
  | None => inr (Err ("peer " +:+ agentID +:+ " is not in trusted list"))
  | Some pubKey =>
      match hexDecode proofHex with
      | None => inr (Err "invalid signature format")
      | Some sigBytes =>
          if ed_Verify pubKey (sha256 data) sigBytes then inl tt else inr (Err ("authenticity proof verification failed for " +:+ agentID))
      end
  end.

(* ------------------------------------------------------------------ *)
(** * The wire *)

(** The JSON of a handshake, both ways. *)
Definition handshake_json (m : HandshakeMessage) : json :=
  JObj [("agent_id", JStr m.(hs_AgentID)); ("public_key_hex", JStr m.(hs_PublicKeyHex)); ("timestamp", JNum m.(hs_Timestamp));
        ("signature", JStr m.(hs_Signature)); ("replay_nonce", JStr m.(hs_ReplayNonce))].

Definition handshake_names : list string := ["agent_id"; "public_key_hex"; "timestamp"; "signature"; "replay_nonce"].
Definition put_handshake (i : nat) (v : pjson) (m : HandshakeMessage) : option HandshakeMessage :=
  match i with
  | 0%nat => x ← get_string m.(hs_AgentID) v; Some (mkHandshake x m.(hs_PublicKeyHex) m.(hs_Timestamp) m.(hs_Signature) m.(hs_ReplayNonce))
  | 1%nat => x ← get_string m.(hs_PublicKeyHex) v; Some (mkHandshake m.(hs_AgentID) x m.(hs_Timestamp) m.(hs_Signature) m.(hs_ReplayNonce))
  | 2%nat => x ← get_int64 m.(hs_Timestamp) v; Some (mkHandshake m.(hs_AgentID) m.(hs_PublicKeyHex) x m.(hs_Signature) m.(hs_ReplayNonce))
  | 3%nat => x ← get_string m.(hs_Signature) v; Some (mkHandshake m.(hs_AgentID) m.(hs_PublicKeyHex) m.(hs_Timestamp) x m.(hs_ReplayNonce))
  | _ => x ← get_string m.(hs_ReplayNonce) v; Some (mkHandshake m.(hs_AgentID) m.(hs_PublicKeyHex) m.(hs_Timestamp) m.(hs_Signature) x)
  end.

Definition unmarshal_handshake (raw : string) : option HandshakeMessage :=
  j ← parse_json raw; get_struct handshake_names put_handshake (mkHandshake "" "" 0 "" "") j.

(** The answer to a handshake: its JSON, and what the other side makes of it
    ([accepted], and the reason when it is text). *)
Definition response_json (accepted : bool) (reason : string) : json := JObj [("accepted", JBool accepted); ("reason", JStr reason)].

Definition member_of (k : string) (l : list (string * pjson)) : option pjson :=
  foldl (λ o kv, if bool_decide (kv.1 = k) then Some kv.2 else o) None l.

Definition unmarshal_response (raw : string) : option (bool * string) :=
  match parse_json raw with
  | Some (PObj l) =>
      Some (match member_of "accepted" l with Some (PBool b) => b | _ => false end,
            match member_of "reason" l with Some (PStr s) => s | _ => "" end)
  | Some PNull => Some (false, "")
  | _ => None
  end.

(** Four bytes of length, big-endian, before each message. *)
Definition put_uint32 (n : Z) : string := big_endian 4 (n mod 2 ^ 32).
Definition frame (payload : string) : string := put_uint32 (slen payload) +:+ payload.

(** Reading [n] bytes with [io.ReadFull]: them and the rest. *)
Definition read_full (n : Z) (s : string) : option (string * string) :=
  if slen s <? n then None else Some (take_bytes (Z.to_nat n) s, sdrop (Z.to_nat n) s).

(** A length between 1 and [max], and as many bytes. *)
Definition read_frame (max : Z) (s : string) : option (string * string) :=
  match read_full 4 s with
  | None => None
  | Some (lenBuf, s) =>
      let n := SetBytes lenBuf in
      if (n =? 0) || (max <? n) then None else read_full n s
  end.

(* ------------------------------------------------------------------ *)
(** * The transport *)

(** [SecureTCPTransport], without its sockets; the handlers are the names of
    the topics that have one, and whether there is one for agents. *)
Record SecureTCPTransport : Type := mkTransport {
  peerAuth : PeerAuth;
  st_peers : gmap string string;
  agentHandler : bool;
  topicHandlers : gset string;
  connectionErrors : gmap string Z
}.

#[global] Instance eta_SecureTCPTransport : Eta SecureTCPTransport := λ r,
  mkTransport r.(peerAuth) r.(st_peers) r.(agentHandler) r.(topicHandlers) r.(connectionErrors).

(** [strings.SplitN(p, "@", 2)] when there are two parts. *)
Fixpoint split_at (p : string) : option (string * string) :=
  match p with
  | EmptyString => None
  | String c p =>
      if (c =? "@")%char then Some ("", p)
      else match split_at p with Some (a, b) => Some (String c a, b) | None => None end
  end.

(** [NewSecureTCPTransport] *)
Definition NewSecureTCPTransport (nodeID : string) (peerAddrs : list string) (privateKey : string) (requirePeerAuth : bool) : SecureTCPTransport :=
  mkTransport (NewPeerAuth nodeID privateKey requirePeerAuth)
    (foldl (λ m p, match split_at p with Some (id, addr) => <[id := addr]> m | None => m end) ∅ peerAddrs) false ∅ ∅.

Definition on_auth (f : PeerAuth → PeerAuth) (t : SecureTCPTransport) : SecureTCPTransport := t <| peerAuth := f t.(peerAuth) |>.

(** [recordConnectionError] *)
Definition recordConnectionError (now : Time) (agentID : string) (t : SecureTCPTransport) : SecureTCPTransport :=
  let n := i64 (default 0 (t.(connectionErrors) !! agentID) + 1) in
  let t := t <| connectionErrors := <[agentID := n]> t.(connectionErrors) |> in
  if 10 <? n then on_auth (BanPeer now agentID ("connection failures exceeded threshold (" +:+ fmt_d n +:+ ")")) t else t.

(** A connection as its server sees it: the TLS binding (empty without TLS),
    the bytes that come before the answer to the handshake and after it (a
    reader of its own takes the handshake, and what it has read beyond it is
    lost), and whether the answer can be written. *)
Record Inbound : Type := mkInbound { ib_binding : res string; ib_hello : string; ib_rest : string; ib_write : res unit }.

(** [sendAuthResponse]: the bytes. *)
Definition auth_response (accepted : bool) (reason : string) : string := frame (marshal (response_json accepted reason)).

Definition message_of (e : error) : string := match e with Err m => m | Panic m => m end.

(** [authenticatePeer]: with the answer it writes, if any. *)
Definition authenticatePeer (now : Time) (conn : Inbound) (t : SecureTCPTransport) : SecureTCPTransport * option string * res string :=
  match conn.(ib_binding) with
  | inr e => (t, None, inr e)
  | inl binding =>
      match read_frame 1024 conn.(ib_hello) with
      | None => (t, None, inr (Err "failed to read handshake"))
      | Some (handshakeBuf, _) =>
          match unmarshal_handshake handshakeBuf with
          | None => (t, None, inr (Err "failed to parse handshake"))
          | Some hsMsg =>
              let '(pa, r) := VerifyHandshake now hsMsg binding t.(peerAuth) in
              let t := t <| peerAuth := pa |> in
              match r with
              | inr e => (t, Some (auth_response false (message_of e)), inr e)
              | inl peerID =>
                  match conn.(ib_write) with
                  | inr e => (t, None, inr e)
                  | inl _ => (t, Some (auth_response true ""), inl peerID)
                  end
              end
          end
      end
  end.

(** Which handler gets a message, from whom. *)
Inductive delivery : Type :=
  | ToTopic (topic from payload : string)
  | ToAgent (from payload : string).

(** [dispatch]; [decode] is [json.Unmarshal] of an envelope. *)
Definition dispatch (decode : string → option Envelope) (now : Time) (authenticatedPeerID payload : string) (t : SecureTCPTransport)
  : SecureTCPTransport * option delivery :=
  match decode payload with
  | None => (t, None)
  | Some env =>
      if negb (bool_decide (env.(FromAgentID) = authenticatedPeerID)) then
        (on_auth (BanPeer now authenticatedPeerID "attempted message spoofing") t, None)
      else if negb (empty_str env.(Topic)) && bool_decide (env.(Topic) ∈ t.(topicHandlers)) then (t, Some (ToTopic env.(Topic) env.(FromAgentID) payload))
      else if t.(agentHandler) then (t, Some (ToAgent env.(FromAgentID) payload))
      else (t, None)
  end.

Definition maxMessage : Z := 10 * 1024 * 1024.

(** The messages of a byte stream, up to the first that is cut off or has a
    length out of range. A message takes five bytes at least, so the length
    of the stream is fuel enough. *)
Fixpoint frames_fuel (fuel : nat) (s : string) : list string :=
  match fuel with
  | O => []
  | S fuel => match read_frame maxMessage s with Some (payload, s) => payload :: frames_fuel fuel s | None => [] end
  end.
Definition frames (s : string) : list string := frames_fuel (String.length s) s.

(** The loop of [handleConn]: the [i]-th message arrives at [clock i]. *)
Fixpoint dispatch_all (decode : string → option Envelope) (clock : nat → Time) (peerID : string) (i : nat) (payloads : list string)
    (t : SecureTCPTransport) : SecureTCPTransport * list delivery :=
  match payloads with
  | [] => (t, [])
  | payload :: payloads =>
      let '(t, d) := dispatch decode (clock i) peerID payload t in
      let '(t, ds) := dispatch_all decode clock peerID (S i) payloads t in
      (t, match d with Some d => d :: ds | None => ds end)
  end.

(** [handleConn]: the answer and the messages handed on. *)
Definition handleConn (decode : string → option Envelope) (now : Time) (clock : nat → Time) (conn : Inbound) (t : SecureTCPTransport)
  : SecureTCPTransport * option string * list delivery :=
  match authenticatePeer now conn t with
  | (t, answer, inr _) => (t, answer, [])
  | (t, answer, inl peerID) =>
      let '(t, ds) := dispatch_all decode clock peerID 0 (frames conn.(ib_rest)) t in (t, answer, ds)
  end.

(** A connection as its client sees it: dialing, the binding, writing the
    handshake, the bytes answered to it, writing the message. *)
Record Outbound : Type := mkOutbound {
  ob_dial : res unit;
  ob_binding : res string;
  ob_write : res unit;
  ob_answer : string → string;
  ob_payload : res unit
}.

Definition secureMaxRespSize : Z := 4096.

(** [sendWithHandshake]: the bytes of the handshake and of the message, as
    far as they were written. *)
Definition sendWithHandshake (now : Time) (nonce : string) (conn : Outbound) (agentID payload : string) (t : SecureTCPTransport)
  : SecureTCPTransport * option string * option string * res unit :=
  match conn.(ob_dial) with
  | inr e => (recordConnectionError now agentID t, None, None, inr e)
  | inl _ =>
      match conn.(ob_binding) with
      | inr e => (recordConnectionError now agentID t, None, None, inr e)
      | inl binding =>
          let hello := frame (marshal (handshake_json (CreateHandshake now nonce binding t.(peerAuth)))) in
          match conn.(ob_write) with
          | inr e => (t, None, None, inr e)
          | inl _ =>
              match read_frame secureMaxRespSize (conn.(ob_answer) hello) with
              | None => (t, Some hello, None, inr (Err "failed to read handshake response"))
              | Some (respBuf, _) =>
                  match unmarshal_response respBuf with
                  | None => (t, Some hello, None, inr (Err "failed to parse auth response"))
                  | Some (false, reason) =>
                      (on_auth (BanPeer now agentID ("authentication rejected: " +:+ reason)) t, Some hello, None,
                       inr (Err ("peer " +:+ agentID +:+ " rejected connection: " +:+ reason)))
                  | Some (true, _) =>
                      match conn.(ob_payload) with
                      | inr e => (t, Some hello, None, inr e)
                      | inl _ => (t, Some hello, Some (frame payload), inl tt)
                      end
                  end
              end
          end
      end
  end.

(** [SendToAgent]; [connect] is the connection to an address. *)
Definition SendToAgent (now : Time) (nonce : string) (connect : string → Outbound) (agentID payload : string) (t : SecureTCPTransport)
  : SecureTCPTransport * option string * option string * res unit :=
  match t.(st_peers) !! agentID with
  | None => (t, None, None, inr (Err ("unknown peer agentID=" +:+ agentID)))
  | Some addr => sendWithHandshake now nonce (connect addr) agentID payload t
  end.

(** [Broadcast], in the order the map of peers is walked; [attempt] is the
    clock, the nonce and the connection of the attempt at a peer. *)
Definition Broadcast (order : list (string * string)) (attempt : string → Time * string * Outbound) (payload : string) (t : SecureTCPTransport)
  : SecureTCPTransport :=
  foldl (λ t peer, let '(now, nonce, conn) := attempt peer.1 in (sendWithHandshake now nonce conn peer.1 payload t).1.1.1) t order.

End with_ed25519.

(* ------------------------------------------------------------------ *)
(** * Facts *)

(* ------------------------------------------------------------------ *)
(** * Frames *)

Lemma read_full_app s t : read_full (slen s) (s +:+ t) = Some (s, t).
Proof.
  unfold read_full. rewrite slen_app. pose proof (slen_nonneg t). rewrite (proj2 (Z.ltb_ge _ _)) by lia.
  unfold slen. by rewrite Nat2Z.id, take_bytes_app, sdrop_app.
Qed.

Lemma read_frame_ok max p s : 0 < slen p ≤ max → max < 2 ^ 32 → read_frame max (frame p +:+ s) = Some (p, s).
Proof.
  intros Hp Hmax. unfold read_frame, frame, put_uint32. rewrite Z.mod_small by lia.
  assert (slen (big_endian 4 (slen p)) = 4) as H4 by apply length_big_endian.
  rewrite app_assoc_s. rewrite <- H4 at 1. rewrite read_full_app. unfold SetBytes.
  rewrite SetBytes_big_endian by (change (256 ^ Z.of_nat 4) with (2 ^ 32); lia). cbn [Z.mul Z.add].
  rewrite (proj2 (Z.eqb_neq _ _)), (proj2 (Z.ltb_ge _ _)) by lia. cbn [orb]. apply read_full_app.
Qed.

Lemma frame_length p : (5 ≤ String.length (frame p))%nat ∨ slen p = 0.
Proof.
  destruct (Z.eq_dec (slen p) 0); [by right|left]. pose proof (length_big_endian 4 (slen p mod 2 ^ 32)) as H4. pose proof (slen_nonneg p).
  assert (slen (frame p) = slen (big_endian 4 (slen p mod 2 ^ 32)) + slen p) as Hl by apply slen_app.
  unfold slen in *. lia.
Qed.

(** The messages sent are the messages read. *)
Lemma frames_sent ps s : Forall (λ p, 0 < slen p ≤ maxMessage) ps → read_frame maxMessage s = None →
  frames (foldr (λ p s, frame p +:+ s) s ps) = ps.
Proof.
  intros Hps Hs. unfold frames.
  assert (∀ n, (String.length (foldr (λ p s, frame p +:+ s) s ps) ≤ n)%nat → frames_fuel n (foldr (λ p s, frame p +:+ s) s ps) = ps) as H; [|by apply H].
  induction Hps as [|p ps Hp Hps IH]; intros n Hn; cbn [foldr] in *.
  - destruct n; [done|]. cbn [frames_fuel]. by rewrite Hs.
  - set (rest := foldr (λ p s, frame p +:+ s) s ps) in *.
    assert (slen (frame p +:+ rest) = slen (frame p) + slen rest) as Hl by apply slen_app.
    destruct (frame_length p) as [Hf|Hf]; [|lia]. unfold slen in Hl. destruct n as [|n]; [lia|]. cbn [frames_fuel].
    rewrite read_frame_ok by (done || vm_compute; reflexivity). rewrite IH by lia. done.
Qed.

(* ------------------------------------------------------------------ *)
(** * JSON *)

Lemma hex_ascii s : sall is_ascii (hexEncode s) = true.
Proof.
  induction s as [|c s IH]; [done|]. cbn [hexEncode sall]. rewrite IH, andb_true_r.
  destruct c as [[] [] [] [] [] [] [] []]; vm_compute; reflexivity.
Qed.

Definition wire_handshake (m : HandshakeMessage) : Prop :=
  Forall (λ s, sall is_ascii s = true) [m.(hs_AgentID); m.(hs_PublicKeyHex); m.(hs_Signature); m.(hs_ReplayNonce)] ∧ in_i64 m.(hs_Timestamp).

Lemma handshake_read m : wire_handshake m → unmarshal_handshake (marshal (handshake_json m)) = Some m.
Proof.
  intros [Hs Hts]. rewrite !Forall_cons in Hs. destruct Hs as (H1 & H2 & H3 & H4 & _). unfold unmarshal_handshake. rewrite parse_marshal.
  - destruct m as [id pk ts sg nc]. unfold handshake_json. rewrite parsed_obj. cbn -[ParseInt fmt_d field_index] in *.
    do 5 match goal with |- context [field_index ?n ?k] => let i := eval vm_compute in (field_index n k) in change (field_index n k) with i end.
    cbn -[ParseInt fmt_d]. by rewrite (ParseInt_fmt_d ts Hts).
  - unfold handshake_json. cbn. by rewrite H1, H2, H3, H4.
  - apply Nat.leb_le. reflexivity.
Qed.

Lemma response_read b reason : sall is_ascii reason = true → unmarshal_response (marshal (response_json b reason)) = Some (b, reason).
Proof.
  intros Hr. unfold unmarshal_response. rewrite parse_marshal; [by destruct b|unfold response_json; cbn; by rewrite Hr|apply Nat.leb_le; reflexivity].
Qed.

(** The acceptance fits the size the other side allows. *)
Lemma accepted_read : ∃ s, read_frame secureMaxRespSize (auth_response true "") = Some (s, "") ∧ unmarshal_response s = Some (true, "").
Proof.
  exists (marshal (response_json true "")). split; [|by apply response_read].
  unfold auth_response. rewrite <- (app_nil_s (frame _)). apply read_frame_ok; vm_compute; [split; [reflexivity|discriminate]|reflexivity].
Qed.

(* ------------------------------------------------------------------ *)
(** * What a handshake signs *)

Lemma app_split s t u v : slen s = slen t → s +:+ u = t +:+ v → s = t ∧ u = v.
Proof.
  revert t. induction s as [|c s IH]; intros [|d t] Hl He; unfold slen in *; cbn in Hl; try lia; [done|].
  rewrite !app_cons in He. injection He as -> He. destruct (IH t) as [-> ->]; [unfold slen; lia|done|done].
Qed.

Lemma slen_hexEncode s : slen (hexEncode s) = 2 * slen s.
Proof. unfold slen. rewrite length_hexEncode. lia. Qed.

Lemma app_split_r s t u v : slen u = slen v → s +:+ u = t +:+ v → s = t ∧ u = v.
Proof. intros Hl He. apply app_split; [|done]. assert (slen (s +:+ u) = slen (t +:+ v)) as H by by rewrite He. rewrite !slen_app in H. lia. Qed.

(** For one agent and bindings of one length the signed bytes tell both the
    second and the session. *)
Lemma handshakeSignedBytes_inj id ts ts' b b' :
  slen b = slen b' → handshakeSignedBytes id ts b = handshakeSignedBytes id ts' b' → ts = ts' ∧ b = b'.
Proof.
  unfold handshakeSignedBytes. intros Hl He. rewrite Hl in He. apply app_split in He as [_ He]; [|done]. apply app_split in He as [_ He]; [|done].
  destruct (Z.ltb_spec 0 (slen b')).
  - rewrite <- !app_assoc_s in He. apply app_split_r in He as [Ht Hb%hexEncode_inj]; [|rewrite !slen_hexEncode; lia]. apply app_split_r in Ht as [Ht _]; [|done]. split; [by apply (inj fmt_d)|done].
  - rewrite !app_nil_s in He. split; [by apply (inj fmt_d)|]. pose proof (slen_nonneg b'). unfold slen in *. destruct b, b'; cbn in *; try lia; done.
Qed.

Section with_ed25519.
Context `{E : Ed25519}.

(* ------------------------------------------------------------------ *)
(** * When a handshake is accepted *)

(** [key] is trusted for the agent, which is not banned, is on time, does not
    repeat the handshake last accepted from it less than a minute later, and
    has signed its name and the second for this session. *)
Record acceptable (now : Time) (msg : HandshakeMessage) (binding : string) (pa : PeerAuth) (key : string) : Prop := {
  ac_not_banned : ∀ info, pa.(peerReputation) !! msg.(hs_AgentID) = Some info → info.(Banned) = false;
  ac_on_time : i64 (unix_sec now - msg.(hs_Timestamp)) ≤ 300;
  ac_not_repeated : pa.(replayProtection) !! msg.(hs_AgentID) = Some msg.(hs_Timestamp) → 60 ≤ i64 (unix_sec now - msg.(hs_Timestamp));
  ac_trusted : pa.(trustedPeers) !! msg.(hs_AgentID) = Some key;
  ac_signed : ∃ sg, hexDecode msg.(hs_Signature) = Some sg ∧ ed_Verify key (handshakeSignedBytes msg.(hs_AgentID) msg.(hs_Timestamp) binding) sg = true;
  ac_key : msg.(hs_PublicKeyHex) = "" ∨ msg.(hs_PublicKeyHex) = hexEncode key
}.

(** The state after it. *)
Definition connected (now : Time) (msg : HandshakeMessage) (pa : PeerAuth) : PeerAuth :=
  let pa := recordSuccessfulConnection now msg.(hs_AgentID) msg.(hs_PublicKeyHex) pa in
  pa <| replayProtection := <[msg.(hs_AgentID) := msg.(hs_Timestamp)]> pa.(replayProtection) |>.

Lemma VerifyHandshake_spec now msg binding pa : pa.(requireSignature) = true →
  match VerifyHandshake now msg binding pa with
  | (pa', inl id) => id = msg.(hs_AgentID) ∧ (∃ key, acceptable now msg binding pa key) ∧ pa' = connected now msg pa
  | (pa', inr _) => (¬ ∃ key, acceptable now msg binding pa key) ∧ (pa' = pa ∨ pa' = recordFailedAttempt now msg.(hs_AgentID) pa)
  end.
Proof.
  intros Hreq. unfold VerifyHandshake. cbv zeta. rewrite Hreq.
  destruct (match peerReputation pa !! hs_AgentID msg with Some info => _ | None => _ end) as [reason|] eqn:Hb.
  { split; [|by left]. intros (key & [Hn _ _ _ _ _]). destruct (peerReputation pa !! _) as [info|]; [|done]. by rewrite (Hn info eq_refl) in Hb. }
  assert (∀ info, pa.(peerReputation) !! msg.(hs_AgentID) = Some info → info.(Banned) = false) as Hnb.
  { intros info Hi. rewrite Hi in Hb. by destruct info.(Banned). }
  clear Hb. destruct (Z.ltb_spec 300 (i64 (unix_sec now - hs_Timestamp msg))) as [Hold|Hold].
  { split; [|by left]. intros (key & [_ Ht _ _ _ _]). lia. }
  destruct (match replayProtection pa !! hs_AgentID msg with Some lastTs => _ | None => _ end) eqn:Hrep.
  { split; [|by left]. intros (key & [_ _ Hr _ _ _]). destruct (replayProtection pa !! _) as [l|]; [|done].
    apply andb_true_iff in Hrep as [Hlt Heq%Z.eqb_eq]. subst l. specialize (Hr eq_refl). apply Z.ltb_lt in Hlt. unfold replayWindow in Hlt. lia. }
  assert (pa.(replayProtection) !! msg.(hs_AgentID) = Some msg.(hs_Timestamp) → 60 ≤ i64 (unix_sec now - msg.(hs_Timestamp))) as Hnr.
  { intros Hl. rewrite Hl, Z.eqb_refl, andb_true_r in Hrep. apply Z.ltb_ge in Hrep. exact Hrep. }
  destruct (trustedPeers pa !! hs_AgentID msg) as [key|] eqn:Hk; [|split; [|by left]; intros (key & [_ _ _ Ht _ _]); congruence].
  destruct (hexDecode (hs_Signature msg)) as [sg|] eqn:Hsg; [|split; [|by left]; intros (key' & [_ _ _ _ (sg & Hsg' & _) _]); congruence].
  destruct (ed_Verify key _ sg) eqn:Hv; [|split; [|by right]; intros (key' & [_ _ _ Ht (sg' & Hsg' & Hv') _]); congruence].
  rewrite Hk. destruct (empty_str (hs_PublicKeyHex msg)) eqn:He; cbn [negb andb].
  - apply bool_decide_eq_true in He. split; [done|]. split; [|done]. exists key. split; eauto.
  - case_bool_decide as Hpk; cbn [negb].
    + split; [done|]. split; [|done]. exists key. split; eauto.
    + split; [|by left]. intros (key' & [_ _ _ Ht _ [Hn|Hn]]); [rewrite Hn in He; done|congruence].
Qed.

Lemma VerifyHandshake_accepts now msg binding pa key : pa.(requireSignature) = true → acceptable now msg binding pa key →
  VerifyHandshake now msg binding pa = (connected now msg pa, inl msg.(hs_AgentID)).
Proof.
  intros Hreq Hacc. pose proof (VerifyHandshake_spec now msg binding pa Hreq) as H. destruct (VerifyHandshake now msg binding pa) as [pa' [id|e]].
  - by destruct H as (-> & _ & ->).
  - destruct H as [[] _]. by exists key.
Qed.

(** What stays whatever comes in: who is trusted, and how this node signs. *)
Definition same_trust (pa pa' : PeerAuth) : Prop :=
  pa'.(trustedPeers) = pa.(trustedPeers) ∧ pa'.(requireSignature) = pa.(requireSignature) ∧ pa'.(pa_nodeID) = pa.(pa_nodeID) ∧
  pa'.(pa_privateKey) = pa.(pa_privateKey).

Lemma BanPeer_trust now id reason pa : same_trust pa (BanPeer now id reason pa).
Proof. unfold BanPeer. by case_match. Qed.

Lemma recordFailedAttempt_trust now id pa : same_trust pa (recordFailedAttempt now id pa).
Proof. unfold recordFailedAttempt. cbv zeta. by case_match. Qed.

Lemma connected_trust now msg pa : same_trust pa (connected now msg pa).
Proof. unfold connected, recordSuccessfulConnection. by case_match. Qed.

Lemma VerifyHandshake_trust now msg binding pa : pa.(requireSignature) = true → same_trust pa (VerifyHandshake now msg binding pa).1.
Proof.
  intros Hreq. pose proof (VerifyHandshake_spec now msg binding pa Hreq) as H. destruct (VerifyHandshake now msg binding pa) as [pa' [id|e]]; cbn.
  - destruct H as (_ & _ & ->). apply connected_trust.
  - destruct H as (_ & [->| ->]); [done|apply recordFailedAttempt_trust].
Qed.

(* ------------------------------------------------------------------ *)
(** * Connections *)

Definition from_of (d : delivery) : string := match d with ToTopic _ from _ | ToAgent from _ => from end.
Definition payload_of (d : delivery) : string := match d with ToTopic _ _ p | ToAgent _ p => p end.

Lemma same_trust_trans pa pa' pa'' : same_trust pa pa' → same_trust pa' pa'' → same_trust pa pa''.
Proof. intros (? & ? & ? & ?) (? & ? & ? & ?). split_and!; congruence. Qed.

Lemma dispatch_trust decode now peerID payload t : same_trust t.(peerAuth) (dispatch decode now peerID payload t).1.(peerAuth).
Proof. unfold dispatch. repeat (case_match; try done). apply BanPeer_trust. Qed.

Lemma dispatch_all_trust decode clock peerID i ps t : same_trust t.(peerAuth) (dispatch_all decode clock peerID i ps t).1.(peerAuth).
Proof.
  revert i t. induction ps as [|p ps IH]; intros i t; cbn [dispatch_all]; [done|].
  pose proof (dispatch_trust decode (clock i) peerID p t) as H. destruct (dispatch decode (clock i) peerID p t) as [t1 d]. specialize (IH (S i) t1).
  destruct (dispatch_all decode clock peerID (S i) ps t1) as [t2 ds]. by eapply same_trust_trans.
Qed.

Lemma dispatch_from decode now peerID payload t t' d : dispatch decode now peerID payload t = (t', Some d) →
  from_of d = peerID ∧ payload_of d = payload ∧ ∃ env, decode payload = Some env ∧ env.(FromAgentID) = peerID.
Proof.
  unfold dispatch. destruct (decode payload) as [env|]; [|done]. case_bool_decide as Hf; cbn [negb]; [|done].
  intros H. repeat (case_match; simplify_eq); cbn; (split; [done|split; [done|by exists env]]).
Qed.

Lemma dispatch_all_from decode clock peerID i ps t :
  Forall (λ d, from_of d = peerID ∧ payload_of d ∈ ps ∧ ∃ env, decode (payload_of d) = Some env ∧ env.(FromAgentID) = peerID) (dispatch_all decode clock peerID i ps t).2.
Proof.
  revert i t. induction ps as [|p ps IH]; intros i t; cbn [dispatch_all]; [constructor|].
  destruct (dispatch decode (clock i) peerID p t) as [t1 d] eqn:Hd. specialize (IH (S i) t1).
  destruct (dispatch_all decode clock peerID (S i) ps t1) as [t2 ds]. cbn [snd] in *.
  assert (Forall (λ d, from_of d = peerID ∧ payload_of d ∈ p :: ps ∧ ∃ env, decode (payload_of d) = Some env ∧ env.(FromAgentID) = peerID) ds) as Hds
    by (eapply Forall_impl; [exact IH|]; intros x (? & ? & ?); split_and!; [done|by right|done]).
  destruct d as [d|]; [|done]. constructor; [|done]. destruct (dispatch_from _ _ _ _ _ _ _ Hd) as (-> & -> & ?). split_and!; [done|by left|done].
Qed.

Lemma authenticatePeer_ok now conn t t' answer id : t.(peerAuth).(requireSignature) = true →
  authenticatePeer now conn t = (t', answer, inl id) →
  ∃ msg binding key, conn.(ib_binding) = inl binding ∧ id = msg.(hs_AgentID) ∧ acceptable now msg binding t.(peerAuth) key ∧
    t'.(peerAuth) = connected now msg t.(peerAuth).
Proof.
  intros Hreq. unfold authenticatePeer. destruct (ib_binding conn) as [binding|]; [|done]. destruct (read_frame 1024 _) as [[buf rest]|]; [|done].
  destruct (unmarshal_handshake buf) as [msg|]; [|done]. pose proof (VerifyHandshake_spec now msg binding _ Hreq) as H.
  destruct (VerifyHandshake now msg binding (peerAuth t)) as [pa [id'|e]]; [|done]. destruct (ib_write conn); [|done].
  intros [= <- _ <-]. destruct H as (-> & (key & Hk) & ->). exists msg, binding, key. done.
Qed.

Lemma authenticatePeer_trust now conn t : t.(peerAuth).(requireSignature) = true → same_trust t.(peerAuth) (authenticatePeer now conn t).1.1.(peerAuth).
Proof.
  intros Hreq. unfold authenticatePeer. destruct (ib_binding conn) as [binding|]; [|done]. destruct (read_frame 1024 _) as [[buf rest]|]; [|done].
  destruct (unmarshal_handshake buf) as [msg|]; [|done]. pose proof (VerifyHandshake_trust now msg binding _ Hreq) as H.
  destruct (VerifyHandshake now msg binding (peerAuth t)) as [pa [id'|e]]; [|done]. by destruct (ib_write conn).
Qed.

End with_ed25519.
