(* ===== verification/PeerAuthTheorems.v ===== *)
(** Connections between nodes are authenticated and work: a message is handed
    on under the name of a peer whose trusted key signed this very session,
    and what an honest peer sends arrives. With them, the defects the model
    shows. *)
From stdpp Require Import base strings list gmap.
From S2P Require Import Prelude GoStd Sha256 Json JsonRound TxModel TxDecode.
From S2P Require Import Block Network GoText PeerAuth Examples.
From S2P Require Import Examples.

#[local] Open Scope string_scope.
#[local] Open Scope Z_scope.


(** Two ends of one TLS session: what the client writes is what the server
    reads, and its answer what the client reads. *)
Definition session `{E : Ed25519} (decode : string → option Envelope) (now_c now_s : Time) (clock : nat → Time) (nonce binding agentID payload : string)
    (c s : SecureTCPTransport) : SecureTCPTransport * SecureTCPTransport * res unit * list delivery :=
  let inbound hello rest := mkInbound (inl binding) hello rest (inl tt) in
  let outbound := mkOutbound (inl tt) (inl binding) (inl tt) (λ hello, default "" (authenticatePeer now_s (inbound hello "") s).1.2) (inl tt) in
  let '(c, hello, message, r) := sendWithHandshake now_c nonce outbound agentID payload c in
  let '(s, _, ds) := handleConn decode now_s clock (inbound (default "" hello) (default "" message)) s in
  (c, s, r, ds).

(** (C15) What an honest node sends arrives. If the server trusts the
    client's key and has not banned it, their clocks put the handshake within
    five minutes, it does not repeat the second of the handshake last accepted
    within a minute, and handshake and message fit their size limits, then the
    handshake the client signs is accepted, sending succeeds, and the server
    hands on exactly the message that was sent, once, as the client's. *)
Theorem secure_send_delivers `{E : Ed25519} `{!Ed25519Correct E} decode now_c now_s clock nonce binding agentID payload env c s :
  let id := c.(peerAuth).(pa_nodeID) in
  let hello := CreateHandshake now_c nonce binding c.(peerAuth) in
  s.(peerAuth).(requireSignature) = true → s.(peerAuth).(trustedPeers) !! id = Some (ed_Public c.(peerAuth).(pa_privateKey)) →
  (∀ info, s.(peerAuth).(peerReputation) !! id = Some info → info.(Banned) = false) →
  i64 (unix_sec now_s - unix_sec now_c) ≤ 300 →
  (s.(peerAuth).(replayProtection) !! id = Some (unix_sec now_c) → 60 ≤ i64 (unix_sec now_s - unix_sec now_c)) →
  in_i64 (unix_sec now_c) → sall is_ascii id = true → sall is_ascii nonce = true → slen (marshal (handshake_json hello)) ≤ 1024 →
  decode payload = Some env → env.(FromAgentID) = id → 0 < slen payload ≤ maxMessage → s.(agentHandler) = true →
  ∃ s' d, session decode now_c now_s clock nonce binding agentID payload c s = (c, s', inl tt, [d]) ∧
    from_of d = id ∧ payload_of d = payload ∧ s'.(peerAuth) = connected now_s hello s.(peerAuth).
Proof.
  intros id hello Hreq Htrust Hban Htime Hrep Hi64 Hid Hnonce Hlen Hdec Hfrom Hpay Hag.
  assert (acceptable now_s hello binding s.(peerAuth) (ed_Public c.(peerAuth).(pa_privateKey))) as Hacc.
  { split; [exact Hban|exact Htime|exact Hrep|exact Htrust| |by right]. eexists. split; [apply hexDecode_hexEncode|apply ed_verify_sign]. }
  assert (wire_handshake hello) as Hw by (split; [repeat constructor; try done; apply hex_ascii|done]).
  assert (∀ rest, authenticatePeer now_s (mkInbound (inl binding) (frame (marshal (handshake_json hello))) rest (inl tt)) s =
    (s <| peerAuth := connected now_s hello s.(peerAuth) |>, Some (auth_response true ""), inl id)) as Hauth.
  { intros rest. unfold authenticatePeer. cbn [ib_binding ib_hello ib_write]. rewrite <- (app_nil_s (frame _)).
    rewrite read_frame_ok; [|split; [done|exact Hlen]|done]. rewrite handshake_read by done.
    by rewrite (VerifyHandshake_accepts now_s hello binding _ _ Hreq Hacc). }
  unfold session, sendWithHandshake. cbv zeta. cbn [ob_dial ob_binding ob_write ob_answer ob_payload]. fold hello. rewrite Hauth. cbn [fst snd default]. unfold Datatypes.id.
  destruct accepted_read as (resp & -> & ->). cbn [default]. unfold Datatypes.id. unfold handleConn. rewrite Hauth. cbn [ib_rest].
  assert (frames (frame payload) = [payload]) as ->.
  { pose proof (frames_sent [payload] "" (Forall_cons_2 _ _ _ Hpay (Forall_nil_2 _)) eq_refl) as Hf. cbn [foldr] in Hf. by rewrite app_nil_s in Hf. }
  set (s1 := s <| peerAuth := _ |>). cbn [dispatch_all]. unfold dispatch. rewrite Hdec, Hfrom, bool_decide_eq_true_2 by done. cbn [negb].
  assert (s1.(agentHandler) = true) as -> by exact Hag.
  destruct (negb (empty_str (Topic env)) && _); eexists _, _; by split_and!.
Qed.

(** A validator that trusts another, and a message between them. *)
Definition transport_of (name : string) (trusted : string) : SecureTCPTransport :=
  let t := NewSecureTCPTransport name [trusted +:+ "@10.0.0.2:7000"] name true in
  on_auth (λ pa, (RegisterTrustedPeer trusted (hex0x (ed_Public trusted)) pa).1) t <| agentHandler := true |>.

Definition tr1 : SecureTCPTransport := Eval vm_compute in transport_of "v1" "v2".
Definition tr2 : SecureTCPTransport := Eval vm_compute in transport_of "v2" "v1".

Definition envelope0 : Envelope := mkEnvelope "1" "block_vote" "v1" "v2" "" "00" clock "{}" "" "" "".
Definition decode0 (s : string) : option Envelope := if bool_decide (s = "vote") then Some envelope0 else None.
Definition binding0 : string := sha256 "session".

Lemma secure_send_delivers_witness :
  ∃ d, (session decode0 clock (Add clock second) (λ _, clock) "aa" binding0 "v2" "vote" tr1 tr2).2 = [d] ∧
    from_of d = "v1" ∧ payload_of d = "vote".
Proof.
  destruct (secure_send_delivers decode0 clock (Add clock second) (λ _, clock) "aa" binding0 "v2" "vote" envelope0 tr1 tr2
    ltac:(vm_compute; reflexivity) ltac:(vm_compute; reflexivity) ltac:(vm_compute; discriminate) ltac:(vm_compute; discriminate) ltac:(vm_compute; discriminate)
    ltac:(vm_compute; split; [discriminate|reflexivity]) ltac:(vm_compute; reflexivity) ltac:(vm_compute; reflexivity) ltac:(vm_compute; discriminate) ltac:(vm_compute; reflexivity)
    ltac:(vm_compute; reflexivity) ltac:(vm_compute; split; [reflexivity|discriminate]) ltac:(vm_compute; reflexivity)) as (s' & d & -> & H1 & H2 & _).
  exists d. split; [reflexivity|]. split; [exact H1|exact H2].
Defined.

(** The server's side of that session. *)
Definition inbound0 : Inbound := Eval vm_compute in
  mkInbound (inl binding0) (frame (marshal (handshake_json (CreateHandshake clock "aa" binding0 tr1.(peerAuth))))) (frame "vote") (inl tt).


(* ------------------------------------------------------------------ *)
(** * Defects *)

(** Five forged handshakes in the name of a peer ban that peer: whoever sends
    them needs no key, and from then on every handshake of the real peer is
    refused. *)
Definition attempts (id : string) (pa : PeerAuth) : Z := match pa.(peerReputation) !! id with Some i => i.(FailedAttempts) | None => 0 end.
Definition is_banned (id : string) (pa : PeerAuth) : bool := match pa.(peerReputation) !! id with Some i => i.(Banned) | None => false end.

Lemma recordFailedAttempt_counts now id pa n : attempts id pa = n → 0 ≤ n < 5 →
  attempts id (recordFailedAttempt now id pa) = n + 1 ∧ (is_banned id pa = false → is_banned id (recordFailedAttempt now id pa) = (5 <=? n + 1)).
Proof.
  unfold attempts, is_banned, recordFailedAttempt, set_info. cbv zeta. destruct (peerReputation pa !! id) as [i|] eqn:Hi; intros Hn Hr.
  - cbn [update FailedAttempts Banned peerReputation]. rewrite lookup_insert_eq, Hn, i64_small by lia. unfold failureThreshold.
    destruct (5 <=? n + 1); by split.
  - cbn [peerReputation update]. rewrite lookup_insert_eq. subst n. by split.
Qed.

Section forged.
Context `{E : Ed25519} (now : Time) (forged : HandshakeMessage) (binding key sg : string) (pa : PeerAuth).
Let id := forged.(hs_AgentID).
Context (Hreq : pa.(requireSignature) = true) (Htime : i64 (unix_sec now - forged.(hs_Timestamp)) ≤ 300)
  (Hrep : pa.(replayProtection) !! id ≠ Some forged.(hs_Timestamp)) (Htrust : pa.(trustedPeers) !! id = Some key)
  (Hsg : hexDecode forged.(hs_Signature) = Some sg) (Hv : ed_Verify key (handshakeSignedBytes id forged.(hs_Timestamp) binding) sg = false).

(** After [n] of them. *)
Definition forged_state (n : Z) (q : PeerAuth) : Prop :=
  q.(requireSignature) = true ∧ q.(replayProtection) = pa.(replayProtection) ∧ q.(trustedPeers) = pa.(trustedPeers) ∧
  attempts id q = n ∧ is_banned id q = (5 <=? n).

Lemma forged_step n q : forged_state n q → 0 ≤ n < 5 → forged_state (n + 1) (VerifyHandshake now forged binding q).1.
Proof.
  intros (H1 & H2 & H3 & H4 & H5) Hn. rewrite (proj2 (Z.leb_gt _ _)) in H5 by lia.
  assert ((VerifyHandshake now forged binding q).1 = recordFailedAttempt now id q) as ->.
  { unfold VerifyHandshake. cbv zeta. fold id. rewrite H1, H2, H3, Htrust, Hsg, Hv.
    unfold is_banned in H5. destruct (peerReputation q !! id) as [i|]; [rewrite H5|]; rewrite (proj2 (Z.ltb_ge _ _)) by done.
    all: destruct (replayProtection pa !! id) as [l|]; [|done].
    all: destruct (Z.eqb_spec (hs_Timestamp forged) l); [by subst l|]; by rewrite andb_false_r. }
  destruct (recordFailedAttempt_counts now id q n H4 Hn) as [Ha Hb]. destruct (recordFailedAttempt_trust now id q) as (Ht & Hr & _).
  assert (replayProtection (recordFailedAttempt now id q) = replayProtection q) as Hrp by (unfold recordFailedAttempt; cbv zeta; by case_match).
  split; [by rewrite Hr|]. split; [by rewrite Hrp|]. split; [by rewrite Ht|]. split; [done|by apply Hb].
Qed.
End forged.

Theorem forged_handshakes_ban `{E : Ed25519} now forged binding pa key sg :
  let id := forged.(hs_AgentID) in
  pa.(requireSignature) = true → is_banned id pa = false → attempts id pa = 0 →
  i64 (unix_sec now - forged.(hs_Timestamp)) ≤ 300 → pa.(replayProtection) !! id ≠ Some forged.(hs_Timestamp) →
  pa.(trustedPeers) !! id = Some key → hexDecode forged.(hs_Signature) = Some sg →
  ed_Verify key (handshakeSignedBytes id forged.(hs_Timestamp) binding) sg = false →
  ∀ now' msg binding', msg.(hs_AgentID) = id →
    let pa' := Nat.iter 5 (λ pa, (VerifyHandshake now forged binding pa).1) pa in
    ∃ e, VerifyHandshake now' msg binding' pa' = (pa', inr e).
Proof.
  intros id Hreq Hban Hatt Htime Hrep Htrust Hsg Hv now' msg binding' Hid pa'.
  assert (∀ n, (n ≤ 5)%nat → forged_state forged pa (Z.of_nat n) (Nat.iter n (λ pa, (VerifyHandshake now forged binding pa).1) pa)) as Hn.
  { induction n as [|n IH]; intros Hle; [by split_and!|]. rewrite Nat.iter_succ, Nat2Z.inj_succ. apply (forged_step now forged binding key sg); try done; [|lia]. apply IH. lia. }
  destruct (Hn 5%nat (le_n _)) as (_ & _ & _ & _ & Hb). change (is_banned id pa' = true) in Hb. clearbody pa'. unfold is_banned in Hb.
  unfold VerifyHandshake. rewrite Hid. fold id. destruct (peerReputation pa' !! id) as [i|]; [|done]. rewrite Hb. eauto.
Qed.

(** The nonce of a handshake is never looked at and only the handshake last
    accepted is remembered, for a minute: after it the same bytes are accepted
    again, for four minutes more. Without TLS there is no session to bind them
    to, and whoever has seen them can use them. *)
Theorem handshake_replayed `{E : Ed25519} now now' msg binding pa key :
  pa.(requireSignature) = true → acceptable now msg binding pa key → 60 ≤ i64 (unix_sec now' - msg.(hs_Timestamp)) ≤ 300 →
  (VerifyHandshake now' msg binding (VerifyHandshake now msg binding pa).1).2 = inl msg.(hs_AgentID).
Proof.
  intros Hreq Hacc Hage. rewrite (VerifyHandshake_accepts now msg binding pa key Hreq Hacc). cbn [fst].
  rewrite (VerifyHandshake_accepts now' msg binding (connected now msg pa) key); [done|by rewrite (proj1 (proj2 (connected_trust now msg pa)))|].
  destruct Hacc as [H1 H2 H3 H4 H5 H6]. split; [|lia|intros _; lia|by rewrite (proj1 (connected_trust now msg pa))|exact H5|exact H6].
  intros info. unfold connected, recordSuccessfulConnection, set_info. destruct (peerReputation pa !! hs_AgentID msg) as [i|] eqn:Hi;
    cbn; rewrite lookup_insert_eq; intros [= <-]; [exact (H1 i eq_refl)|done].
Qed.

(** Every message has a handshake of its own and a handshake names a second:
    the second message to a peer within a second is taken for a replay, and
    the sender then bans the receiver, whose handshakes it refuses from then
    on. *)
Definition two_sends :=
  let c := tr1 in
  let '(c1, s1, r1, _) := session decode0 clock clock (λ _, clock) "aa" binding0 "v2" "vote" c tr2 in
  let '(c2, _, r2, ds) := session decode0 (Add clock millisecond) (Add clock millisecond) (λ _, clock) "bb" binding0 "v2" "vote" c1 s1 in
  (r1, r2, ds, (VerifyHandshake (Add clock (10 * second)) (CreateHandshake (Add clock (10 * second)) "cc" binding0 s1.(peerAuth)) binding0 c2.(peerAuth)).2).

Example second_send_bans : two_sends =
  (inl tt, inr (Err "peer v2 rejected connection: duplicate handshake from v1 detected (replay attack)"), [],
   inr (Err "peer v2 is banned: authentication rejected: duplicate handshake from v1 detected (replay attack)")).
Proof. vm_compute. reflexivity. Qed.

(** A peer that is banned for naming another sender keeps its connection. *)
Definition spoofed (s : string) : option Envelope :=
  if bool_decide (s = "spoof") then Some (mkEnvelope "1" "block_vote" "v3" "v2" "" "00" clock "{}" "" "" "") else decode0 s.

Example banned_keeps_talking :
  let '(s, _, ds) := handleConn spoofed (Add clock second) (λ _, clock) (mkInbound inbound0.(ib_binding) inbound0.(ib_hello) (frame "spoof" +:+ frame "vote") (inl tt))
    tr2 in is_banned "v1" s.(peerAuth) = true ∧ ds = [ToAgent "v1" "vote"].
Proof. vm_compute. by split. Qed.
