(* ===== verification/Store.v ===== *)
(** The block store (internal/storage/store.go) and how a node opens it
    (cmd/synthosd/main.go): finalized blocks one file each, the state in a
    file of its own, cold blocks moved to an archive.

    A file holds the value that was written to it, or is damaged: what
    encoding/json prints it reads back. Files are written to a temporary name
    and renamed, so a write either replaces the file or leaves it alone.
    Which writes succeed is an argument; a crash is a run in which none does
    any more. The copy of the data directory that [Save] also keeps is never
    read back and not modelled.

    After the definitions, facts about them: what is on disk is never anything
    but the history, saving only adds to what can be read, and loading gives
    the window of the history that was saved. *)
From stdpp Require Import base strings list gmap numbers.
From S2P Require Import Prelude GoStd Sha256 Json Types Ledger TxModel Dex Merkle Staking.
From S2P Require Import Apply Fees Block Chain ChainFacts ChainWindow.
From stdpp Require Import list.

#[local] Open Scope string_scope.
#[local] Open Scope Z_scope.

Inductive file (A : Type) : Type :=
  | Holds (a : A)
  | Damaged.
Arguments Holds {A} a.
Arguments Damaged {A}.

(** [stateFile], and [snapshot], which is what [Load] returns. *)
Record stateFile : Type := mkStateFile {
  sf_ChainID : string;
  sf_TxChainID : Z;
  sf_State : option State;
  sf_HotWindowStart : Z;
  sf_HotWindowBaseState : option State;
  sf_HotWindowBaseBlock : option Block
}.

Record Snapshot : Type := mkSnapshot { sn_file : stateFile; sn_Blocks : list Block }.

(** The directory and the archive: state.json, blocks/<height>.json, the
    archive's <height>.json, and the chain.json of earlier versions. *)
Record Disk : Type := mkDisk {
  dk_state : option (file stateFile);
  dk_blocks : gmap Z (file Block);
  dk_archive : gmap Z (file Block);
  dk_legacy : option (file Snapshot)
}.

#[global] Instance eta_Disk : Eta Disk := λ r, mkDisk r.(dk_state) r.(dk_blocks) r.(dk_archive) r.(dk_legacy).

(** [Store]: whether there is an archive, and the limit. *)
Record Store : Type := mkStore { ArchiveDir : bool; MaxLocalBytes : Z }.

Definition DefaultMaxLocalStorageBytes : Z := 2 * 1024 * 1024 * 1024.
Definition reorgTailSize : Z := 8.

(* ------------------------------------------------------------------ *)
(** * Saving *)

(** [archiveOneBlock]; [ok] is whether the file can be written. *)
Definition archiveOneBlock (ok force : bool) (blk : Block) (d : Disk) : Disk * res unit :=
  let h := blk.(Header).(Height) in
  if negb force && bool_decide (is_Some (d.(dk_blocks) !! h)) then (d, inl tt)
  else if ok then (d <| dk_blocks := <[h := Holds blk]> d.(dk_blocks) |>, inl tt)
  else (d, inr (Err "write failed")).

(** The loop of [archiveBlocks] over the [n] blocks, from the [i]-th; [ok]
    counts the blocks. *)
Fixpoint archive_blocks (ok : nat → bool) (n : Z) (i : nat) (blocks : list Block) (d : Disk) : Disk * res unit :=
  match blocks with
  | [] => (d, inl tt)
  | blk :: blocks =>
      match archiveOneBlock (ok i) (n - reorgTailSize <=? Z.of_nat i) blk d with
      | (d, inr e) => (d, inr e)
      | (d, inl _) => archive_blocks ok n (S i) blocks d
      end
  end.

(** [archiveBlocks] *)
Definition archiveBlocks (ok : nat → bool) (blocks : list Block) (d : Disk) : Disk * res unit :=
  archive_blocks ok (Z.of_nat (length blocks)) 0 blocks d.

(** Moving one cold block to the archive; [copy] and [remove] are whether
    that succeeds. *)
Definition offload_one (copy remove : bool) (h : Z) (f : file Block) (d : Disk) : Disk :=
  if copy then
    let d := d <| dk_archive := <[h := f]> d.(dk_archive) |> in
    if remove then d <| dk_blocks := delete h d.(dk_blocks) |> else d
  else d.

(** The loop of [EnforceStorageLimit] over the files, oldest first. *)
Fixpoint offload (outcome : Z → bool * bool) (size : file Block → Z) (max start total : Z) (entries : list (Z * file Block)) (d : Disk) : Disk :=
  match entries with
  | [] => d
  | (h, f) :: entries =>
      if total <=? max then d
      else if start <=? h then offload outcome size max start total entries d
      else
        let '(copy, remove) := outcome h in
        offload outcome size max start (if copy && remove then i64 (total - size f) else total) entries (offload_one copy remove h f d)
  end.

Definition by_height (a b : Z * file Block) : bool := a.1 <? b.1.

(** [EnforceStorageLimit] *)
Definition EnforceStorageLimit (outcome : Z → bool * bool) (size : file Block → Z) (s : Store) (hotWindowStart : Z) (d : Disk) : Disk :=
  if (s.(MaxLocalBytes) <=? 0) || negb s.(ArchiveDir) then d
  else
    let entries := map_to_list d.(dk_blocks) in
    let total := foldl (λ t e, i64 (t + size e.2)) 0 entries in
    if total <=? s.(MaxLocalBytes) then d
    else offload outcome size s.(MaxLocalBytes) hotWindowStart total (sort_slice by_height entries) d.

(** The outcomes of the writes of one [Save]. *)
Record IO : Type := mkIO { io_block : nat → bool; io_state : bool; io_offload : Z → bool * bool; io_size : file Block → Z }.

Section with_ed25519.
Context `{E : Ed25519}.

(** What [Save] writes to state.json. *)
Definition state_file (c : Chain) : stateFile :=
  let '(chainID, txChainID, _, state) := SnapshotData c in
  let '(start, base, blk) := HotWindowInfo c in
  mkStateFile chainID txChainID (Some state) start base blk.

(** [Save] *)
Definition Save (io : IO) (s : Store) (c : Chain) (d : Disk) : Disk * res unit :=
  let '(_, _, blocks, _) := SnapshotData c in
  match archiveBlocks io.(io_block) blocks d with
  | (d, inr e) => (d, inr e)
  | (d, inl _) =>
      if io.(io_state) then
        let d := d <| dk_state := Some (Holds (state_file c)) |> in
        (EnforceStorageLimit io.(io_offload) io.(io_size) s c.(hotWindowStart) d, inl tt)
      else (d, inr (Err "write failed"))
  end.

(* ------------------------------------------------------------------ *)
(** * Reading *)

(** [ColdBlockAt] *)
Definition ColdBlockAt (s : Store) (d : Disk) (height : Z) : option Block :=
  let f := match d.(dk_blocks) !! height with
           | Some f => Some f
           | None => if s.(ArchiveDir) then d.(dk_archive) !! height else None
           end in
  match f with Some (Holds b) => Some b | _ => None end.

(** The loop of [loadSplitFormat], until a height is missing; [fuel] above the
    number of files is enough. *)
Fixpoint load_blocks (s : Store) (d : Disk) (fuel : nat) (h : Z) : list Block :=
  match fuel with
  | O => []
  | S fuel => match ColdBlockAt s d h with Some b => b :: load_blocks s d fuel (u64 (h + 1)) | None => [] end
  end.

Definition file_count (d : Disk) : nat := size (dom d.(dk_blocks) ∪ dom d.(dk_archive)).

(** [loadSplitFormat] *)
Definition loadSplitFormat (s : Store) (d : Disk) (sf : stateFile) : res Snapshot :=
  match load_blocks s d (S (file_count d)) sf.(sf_HotWindowStart) with
  | [] => inr (Err "state.json present but no block files found")
  | blocks => inl (mkSnapshot sf blocks)
  end.

(** [loadLegacyFormat] *)
Definition loadLegacyFormat (d : Disk) : res Snapshot :=
  match d.(dk_legacy) with
  | None => inr (Err "file does not exist")
  | Some Damaged => inr (Err "invalid JSON")
  | Some (Holds snap) => inl snap
  end.

(** [Load] *)
Definition Load (s : Store) (d : Disk) : res Snapshot :=
  match d.(dk_state) with
  | Some Damaged => inr (Err "invalid JSON")
  | Some (Holds sf) => loadSplitFormat s d sf
  | None => loadLegacyFormat d
  end.

(* ------------------------------------------------------------------ *)
(** * Opening a node's store (cmd/synthosd) *)

(** [shouldRefreshHeightZeroSnapshot] *)
Definition shouldRefreshHeightZeroSnapshot (snap : Snapshot) (genesisChain : Chain) : bool :=
  match snap.(sn_file).(sf_State), snap.(sn_Blocks) with
  | Some st, [genesisBlock] =>
      if negb (genesisBlock.(Header).(Height) =? 0) || match txs_of genesisBlock with [] => false | _ => true end then false
      else negb (bool_decide (snap.(sn_file).(sf_ChainID) = genesisChain.(c_ChainID)))
        || negb (snap.(sn_file).(sf_TxChainID) =? transactionChainID genesisChain)
        || negb (bool_decide (Root st = Root genesisChain.(c_State)))
  | _, _ => false
  end.

(** A chain made of a snapshot, before it is configured. *)
Definition chain_of (snap : Snapshot) (st : State) : Chain :=
  mkChain snap.(sn_file).(sf_ChainID) snap.(sn_file).(sf_TxChainID) st (DEX.SyncFromState st) snap.(sn_Blocks) ∅ ∅ 0 None 0 0 []
    (mkParams 0 0 0 0 0 0 0 0) 0 0 None None None.

(** The node's reader is the store itself: whatever the disk is now. *)
Definition attach (s : Store) (d : Disk) (c : Chain) : Chain := set_coldBlocks (Some (ColdBlockAt s d)) c.

(** The part of [main] that initializes or loads the chain; the errors of
    [Save] are dropped. [io0] is only used when the snapshot is replaced. *)
Definition openChain (io0 io1 io2 : IO) (s : Store) (gen : Genesis) (maxHot : Z) (d : Disk) : res (Chain * Disk) :=
  let bootstrap (genesisChain : Chain) :=
    let ch := SetHotWindow maxHot (Some (ColdBlockAt s d)) genesisChain in
    let d := (Save io1 s ch d).1 in
    inl (attach s d ch, d) in
  match NewChain gen with
  | inr e => inr e
  | inl genesisChain =>
      match Load s d with
      | inl snap =>
          match snap.(sn_Blocks), snap.(sn_file).(sf_State) with
          | _ :: _, Some st =>
              let refresh := shouldRefreshHeightZeroSnapshot snap genesisChain in
              let ch := if refresh then genesisChain else chain_of snap st in
              let d := if refresh then (Save io0 s ch d).1 else d in
              let ch := SeedGenesisState (Some genesisChain.(c_State)) ch in
              let d := (Save io1 s ch d).1 in
              let sf := snap.(sn_file) in
              let ch := RestoreHotWindow sf.(sf_HotWindowStart) sf.(sf_HotWindowBaseState) sf.(sf_HotWindowBaseBlock) maxHot (Some (ColdBlockAt s d)) ch in
              let ch := ReapplyGenesisCitizenRewardConfig (Some genesisChain.(c_State)) ch in
              let d := (Save io2 s ch d).1 in
              inl (attach s d ch, d)
          | _, _ => bootstrap genesisChain
          end
      | inr _ => bootstrap genesisChain
      end
  end.

End with_ed25519.

(* ------------------------------------------------------------------ *)
(** * Facts *)

Lemma ColdBlockAt_blocks s d h f : d.(dk_blocks) !! h = Some f → ColdBlockAt s d h = match f with Holds b => Some b | Damaged => None end.
Proof. unfold ColdBlockAt. by intros ->. Qed.

(** Every file is undamaged and holds the block of the history at its
    height. *)
Definition of_history (H : list Block) (m : gmap Z (file Block)) : Prop :=
  ∀ h f, m !! h = Some f → 0 ≤ h ∧ ∃ b, f = Holds b ∧ H !! Z.to_nat h = Some b.

Record clean (H : list Block) (d : Disk) : Prop := { cl_blocks : of_history H d.(dk_blocks); cl_archive : of_history H d.(dk_archive) }.

(** A block can be read at [h], and what could be read can be still. *)
Definition has (s : Store) (d : Disk) (h : Z) : Prop := is_Some (ColdBlockAt s d h).
Definition grows (s : Store) (d d' : Disk) : Prop := ∀ h, has s d h → has s d' h.

Lemma grows_refl s d : grows s d d.
Proof. by intros h. Qed.

Lemma grows_trans s d d' d'' : grows s d d' → grows s d' d'' → grows s d d''.
Proof. intros H1 H2 h Hh. by apply H2, H1. Qed.

#[local] Hint Resolve grows_refl : core.

Lemma of_history_insert H m h b : of_history H m → 0 ≤ h → H !! Z.to_nat h = Some b → of_history H (<[h := Holds b]> m).
Proof. intros Hm Hh Hb h' f [[<- <-]|[_ Hl]]%lookup_insert_Some; [eauto|by apply Hm]. Qed.

Lemma of_history_delete H m h : of_history H m → of_history H (delete h m).
Proof. intros Hm h' f [_ Hl]%lookup_delete_Some. by apply Hm. Qed.

Lemma of_history_prefix H m x : of_history H m → of_history (H ++ [x]) m.
Proof. intros Hm h f Hl. destruct (Hm h f Hl) as (? & b & -> & Hb). split; [done|]. exists b. split; [done|]. by apply lookup_app_l_Some. Qed.

Lemma clean_prefix H d x : clean H d → clean (H ++ [x]) d.
Proof. intros [H1 H2]. split; by apply of_history_prefix. Qed.

Section with_store.
Context (s : Store) (H : list Block).

Lemma cold_history d h b : clean H d → ColdBlockAt s d h = Some b → 0 ≤ h ∧ H !! Z.to_nat h = Some b.
Proof.
  intros [H1 H2]. unfold ColdBlockAt. destruct (dk_blocks d !! h) as [f|] eqn:Hb.
  - destruct (H1 h f Hb) as (? & b' & -> & Hl). by intros [= <-].
  - destruct (ArchiveDir s); [|done]. destruct (dk_archive d !! h) as [f|] eqn:Ha; [|done]. destruct (H2 h f Ha) as (? & b' & -> & Hl). by intros [= <-].
Qed.

Lemma cold_reads d h : clean H d → has s d h → ColdBlockAt s d h = H !! Z.to_nat h.
Proof. intros Hc [b Hb]. rewrite Hb. symmetry. by apply (cold_history d). Qed.

Lemma cold_beyond d h : clean H d → Z.of_nat (length H) ≤ h → ColdBlockAt s d h = None.
Proof.
  intros Hc Hh. destruct (ColdBlockAt s d h) as [b|] eqn:Hb; [|done]. destruct (cold_history d h b Hc Hb) as [? Hl%lookup_lt_Some]. lia.
Qed.

(* ------------------------------------------------------------------ *)
(** * Saving *)

Lemma archiveOneBlock_ok ok force b d d' r : clean H d → 0 ≤ b.(Header).(Height) → H !! Z.to_nat b.(Header).(Height) = Some b →
  archiveOneBlock ok force b d = (d', r) →
  clean H d' ∧ grows s d d' ∧ d'.(dk_state) = d.(dk_state) ∧ (r = inl tt → has s d' b.(Header).(Height)).
Proof.
  intros Hc Hh Hb. unfold archiveOneBlock. set (h := b.(Header).(Height)) in *. destruct (negb force && _) eqn:Hskip.
  - intros [= <- <-]. split_and!; [done..|]. intros _. apply andb_true_iff in Hskip as [_ [f Hf]%bool_decide_eq_true].
    unfold has. rewrite (ColdBlockAt_blocks _ _ _ _ Hf). destruct Hc as [H1 _]. destruct (H1 h f Hf) as (_ & b' & -> & _). eauto.
  - destruct ok; intros [= <- <-]; [|by split_and!].
    assert (has s (d <| dk_blocks := <[h := Holds b]> d.(dk_blocks) |>) h) as Hhas
      by (unfold has; rewrite (ColdBlockAt_blocks _ _ _ (Holds b)); [eauto|cbn; by rewrite lookup_insert_eq]).
    split; [|split; [|done]].
    + destruct Hc. split; [by apply of_history_insert|done].
    + intros h' Hh'. destruct (decide (h' = h)) as [->|]; [done|]. unfold has, ColdBlockAt in *. cbn. by rewrite lookup_insert_ne.
Qed.

Lemma archive_blocks_ok ok n i bs d d' r : clean H d → Forall (λ b, 0 ≤ b.(Header).(Height) ∧ H !! Z.to_nat b.(Header).(Height) = Some b) bs →
  archive_blocks ok n i bs d = (d', r) →
  clean H d' ∧ grows s d d' ∧ d'.(dk_state) = d.(dk_state) ∧ (r = inl tt → Forall (λ b, has s d' b.(Header).(Height)) bs).
Proof.
  intros Hc Hbs. revert i d Hc. induction Hbs as [|b bs [Hh Hb] Hbs IH]; intros i d Hc; cbn [archive_blocks]; [by intros [= <- <-]; split_and!|].
  destruct (archiveOneBlock _ _ b d) as [d1 r1] eqn:H1. destruct (archiveOneBlock_ok _ _ _ _ _ _ Hc Hh Hb H1) as (Hc1 & Hg1 & Hs1 & Hr1).
  destruct r1 as [[]|e]; [|intros [= <- <-]; by split_and!]. intros H2. destruct (IH _ _ Hc1 H2) as (Hc2 & Hg2 & Hs2 & Hr2).
  split_and!; [done|by eapply grows_trans|congruence|]. intros Hr. constructor; [by apply Hg2, Hr1|by apply Hr2].
Qed.

Lemma offload_ok outcome size max start total es d : s.(ArchiveDir) = true → clean H d →
  Forall (λ e, 0 ≤ e.1 ∧ ∃ b, e.2 = Holds b ∧ H !! Z.to_nat e.1 = Some b) es →
  clean H (offload outcome size max start total es d) ∧ grows s d (offload outcome size max start total es d) ∧
  (offload outcome size max start total es d).(dk_state) = d.(dk_state).
Proof.
  intros Harch Hc Hes. revert total d Hc. induction Hes as [|[h f] es (Hh & b & Hf & Hb) Hes IH]; intros total d Hc; cbn [offload]; [by split_and!|].
  destruct (total <=? max); [by split_and!|]. destruct (start <=? h); [by apply IH|].
  destruct (outcome h) as [copy remove]. cbn in Hf, Hh, Hb. subst f.
  assert (clean H (offload_one copy remove h (Holds b) d) ∧ grows s d (offload_one copy remove h (Holds b) d) ∧
    (offload_one copy remove h (Holds b) d).(dk_state) = d.(dk_state)) as (Hc1 & Hg1 & Hs1).
  { unfold offload_one. destruct copy; [|by split_and!]. destruct Hc as [H1 H2].
    assert (of_history H (<[h := Holds b]> d.(dk_archive))) as Ha by by apply of_history_insert.
    assert (∀ h', has s d h' → has s (d <| dk_archive := <[h := Holds b]> d.(dk_archive) |>) h') as Hg.
    { intros h'. unfold has, ColdBlockAt. cbn. rewrite Harch. destruct (dk_blocks d !! h'); [done|].
      destruct (decide (h' = h)) as [->|]; [rewrite lookup_insert_eq; eauto|by rewrite lookup_insert_ne]. }
    destruct remove; [|by split_and!]. split_and!; [split; [by apply of_history_delete|done]| |done].
    intros h' Hh'. destruct (decide (h' = h)) as [->|].
    - unfold has, ColdBlockAt. cbn. rewrite lookup_delete_eq, Harch, lookup_insert_eq. eauto.
    - specialize (Hg h' Hh'). unfold has, ColdBlockAt in *. cbn in *. by rewrite lookup_delete_ne. }
  destruct (IH (if copy && remove then i64 (total - size (Holds b)) else total) _ Hc1) as (Hc2 & Hg2 & Hs2).
  split_and!; [done|by eapply grows_trans|congruence].
Qed.

Lemma EnforceStorageLimit_ok outcome size start d : clean H d →
  clean H (EnforceStorageLimit outcome size s start d) ∧ grows s d (EnforceStorageLimit outcome size s start d) ∧
  (EnforceStorageLimit outcome size s start d).(dk_state) = d.(dk_state).
Proof.
  intros Hc. unfold EnforceStorageLimit. destruct (_ || _) eqn:Hoff; [by split_and!|]. apply orb_false_iff in Hoff as [_ Harch%negb_false_iff].
  cbv zeta. destruct (_ <=? _); [by split_and!|]. apply offload_ok; [done|done|]. rewrite (sort_slice_perm by_height).
  apply Forall_forall. intros [h f] Hin. apply elem_of_map_to_list in Hin. by apply (cl_blocks H d).
Qed.

Section save.
Context `{E : Ed25519}.

(** The blocks a chain holds are the history's. *)
Definition part_of_history (c : Chain) : Prop := Forall (λ b, 0 ≤ b.(Header).(Height) ∧ H !! Z.to_nat b.(Header).(Height) = Some b) c.(Blocks).

Lemma window_blocks c : window_ok H c → part_of_history c.
Proof.
  intros [Hh _ Hb _]. unfold part_of_history. rewrite Hb. apply Forall_forall. intros b [i Hi]%list_elem_of_lookup. rewrite lookup_drop in Hi.
  pose proof (Hh _ _ Hi) as ->. split; [lia|]. by rewrite Nat2Z.id.
Qed.

Lemma window_heights c d : window_ok H c → Forall (λ b, has s d b.(Header).(Height)) c.(Blocks) →
  ∀ h, c.(hotWindowStart) ≤ h < Z.of_nat (length H) → has s d h.
Proof.
  intros [Hh Hs -> _] Hall h Hr. rewrite Forall_forall in Hall.
  destruct (H !! Z.to_nat h) as [b|] eqn:Hb; [|apply lookup_ge_None in Hb; lia].
  pose proof (Hh _ _ Hb) as Hht. rewrite Z2Nat.id in Hht by lia. rewrite <- Hht. apply Hall. apply list_elem_of_lookup.
  exists (Z.to_nat h - Z.to_nat (hotWindowStart c))%nat. rewrite lookup_drop. by replace (_ + _)%nat with (Z.to_nat h) by lia.
Qed.

(** Whichever writes fail, the disk stays part of the history and loses
    nothing; a [Save] that returns has written the whole window and the state,
    one that fails leaves the state file alone. *)
Lemma Save_ok io c d d' r : part_of_history c → clean H d → Save io s c d = (d', r) →
  clean H d' ∧ grows s d d' ∧
  (r = inl tt → d'.(dk_state) = Some (Holds (state_file c)) ∧ Forall (λ b, has s d' b.(Header).(Height)) c.(Blocks)) ∧
  (r ≠ inl tt → d'.(dk_state) = d.(dk_state)).
Proof.
  intros Hbs Hc. unfold Save, SnapshotData, archiveBlocks. destruct (archive_blocks _ _ _ _ _) as [d1 r1] eqn:H1.
  destruct (archive_blocks_ok _ _ _ _ _ _ _ Hc Hbs H1) as (Hc1 & Hg1 & Hs1 & Hr1).
  destruct r1 as [[]|e]; [|by intros [= <- <-]; split_and!]. destruct (io_state io); [|by intros [= <- <-]; split_and!].
  assert (clean H (d1 <| dk_state := Some (Holds (state_file c)) |>)) as Hc2 by by destruct Hc1.
  destruct (EnforceStorageLimit_ok io.(io_offload) io.(io_size) c.(hotWindowStart) _ Hc2) as (Hc3 & Hg3 & Hs3).
  intros [= <- <-]. split_and!; [done|by eapply grows_trans| |done].
  intros _. split; [by rewrite Hs3|]. eapply Forall_impl; [by apply Hr1|]. intros b. apply Hg3.
Qed.

(** A [Save] none of whose writes fail returns. *)
Definition healthy (io : IO) : Prop := (∀ i, io.(io_block) i = true) ∧ io.(io_state) = true.

Lemma archive_blocks_healthy ok n i bs d : (∀ i, ok i = true) → (archive_blocks ok n i bs d).2 = inl tt.
Proof.
  intros Hok. revert i d. induction bs as [|b bs IH]; intros i d; cbn [archive_blocks]; [done|].
  unfold archiveOneBlock. rewrite Hok. destruct (_ && _); apply IH.
Qed.

Lemma Save_healthy io c d : healthy io → (Save io s c d).2 = inl tt.
Proof.
  intros [Hb Hs]. unfold Save, SnapshotData, archiveBlocks. pose proof (archive_blocks_healthy io.(io_block) (Z.of_nat (length (Blocks c))) 0 (Blocks c) d Hb) as Ha.
  destruct (archive_blocks _ _ _ _ _) as [d1 r]. cbn in Ha. subst r. by rewrite Hs.
Qed.

End save.

(* ------------------------------------------------------------------ *)
(** * Loading *)

Lemma load_blocks_ok d fuel h : clean H d → 0 ≤ h ≤ Z.of_nat (length H) → Z.of_nat (length H) < MaxUint64 →
  (∀ h', h ≤ h' < Z.of_nat (length H) → has s d h') → (length H - Z.to_nat h < fuel)%nat → load_blocks s d fuel h = drop (Z.to_nat h) H.
Proof.
  intros Hc. revert h. induction fuel as [|fuel IH]; intros h Hh Hmax Hhas Hf; [lia|]. cbn [load_blocks].
  destruct (Z.eq_dec h (Z.of_nat (length H))) as [->|Hne]; [rewrite cold_beyond by done; rewrite drop_ge by lia; done|].
  rewrite (cold_reads d h Hc (Hhas h ltac:(lia))). destruct (H !! Z.to_nat h) as [b|] eqn:Hb; [|apply lookup_ge_None in Hb; lia].
  rewrite (drop_S _ b) by done. f_equal. rewrite u64_small by (unfold in_u64; lia).
  rewrite IH; [by replace (Z.to_nat (h + 1)) with (S (Z.to_nat h)) by lia|lia|done|intros; apply Hhas; lia|lia].
Qed.

(** There are files enough for the fuel. *)
Lemma file_count_enough d h : 0 ≤ h ≤ Z.of_nat (length H) → (∀ h', h ≤ h' < Z.of_nat (length H) → has s d h') →
  (length H - Z.to_nat h ≤ file_count d)%nat.
Proof.
  intros Hh Hhas. unfold file_count. set (hs := seqZ h (Z.of_nat (length H) - h)).
  assert (length hs = (length H - Z.to_nat h)%nat) as <- by (unfold hs; rewrite length_seqZ; lia).
  assert (size (list_to_set hs : gset Z) = length hs) as <- by (apply size_list_to_set, NoDup_seqZ).
  apply subseteq_size. intros h' Hin%elem_of_list_to_set. apply elem_of_seqZ in Hin. destruct (Hhas h' ltac:(lia)) as [b Hb].
  unfold ColdBlockAt in Hb. apply elem_of_union. rewrite !elem_of_dom. destruct (dk_blocks d !! h'); [left; eauto|right].
  destruct (ArchiveDir s); [|done]. destruct (dk_archive d !! h'); [eauto|done].
Qed.

Lemma Load_ok d sf : clean H d → d.(dk_state) = Some (Holds sf) → 0 ≤ sf.(sf_HotWindowStart) < Z.of_nat (length H) → Z.of_nat (length H) < MaxUint64 →
  (∀ h, sf.(sf_HotWindowStart) ≤ h < Z.of_nat (length H) → has s d h) →
  Load s d = inl (mkSnapshot sf (drop (Z.to_nat sf.(sf_HotWindowStart)) H)).
Proof.
  intros Hc Hsf Hstart Hmax Hhas. unfold Load, loadSplitFormat. rewrite Hsf.
  pose proof (file_count_enough d sf.(sf_HotWindowStart) ltac:(lia) Hhas) as Hn. rewrite load_blocks_ok by (done || lia).
  destruct (drop _ H) as [|b l] eqn:Hd; [|done]. apply (f_equal length) in Hd. rewrite length_drop in Hd. cbn in Hd. lia.
Qed.

End with_store.
