(* ===== verification/StoreTheorems.v ===== *)
(** The store keeps the history: along every run of a node whose saves reach
    the disk, through offloading, failing extra saves and restarts, memory and
    disk together answer every height; what was saved is what is loaded. With
    them, what a crash between two writes and a shorter branch leave behind. *)
From stdpp Require Import base strings list gmap numbers.
From S2P Require Import Prelude GoStd Types Ledger TxModel Merkle Staking Fees Block.
From S2P Require Import Chain ChainFacts ChainBuild ChainWindow ChainRun Examples.
From S2P Require Import Examples.
From S2P Require Import Store.
From stdpp Require Import list.

#[local] Open Scope string_scope.
#[local] Open Scope Z_scope.

Definition no_disk : Disk := mkDisk None ∅ ∅ None.

Section stored_run.
Context `{E : Ed25519} (s : Store) (gen : Genesis).

(** The description of the chain is still the one the snapshot was taken
    with. *)
Definition not_refreshed (d : Disk) : Prop :=
  ∀ g snap, NewChain gen = inl g → Load s d = inl snap → shouldRefreshHeightZeroSnapshot snap g = false.

(** A node with a store: it opens the store, takes transactions, finalizes
    and saves, saves again with any luck, is configured, and is restarted.
    [H] is every block it ever finalized. *)
Inductive stored_run : list Block → Chain → Disk → Prop :=
  | sr_open io0 io1 io2 n c d : healthy io1 → openChain io0 io1 io2 s gen n no_disk = inl (c, d) → stored_run c.(Blocks) c d
  | sr_submit H c d now tx : stored_run H c d → stored_run H (SubmitTx now tx c).1 d
  | sr_finalize H c d io now b c' b' d' : stored_run H c d → healthy io → Z.of_nat (length H) + 1 < MaxUint64 →
      FinalizeBlock now c b = (c', b', inl tt) → d' = (Save io s c' d).1 → stored_run (H ++ [b'])%list (attach s d' c') d'
  | sr_reject H c d now b e : stored_run H c d → (FinalizeBlock now c b).2 = inr e → stored_run H (FinalizeBlock now c b).1.1 d
  | sr_save H c d io d' : stored_run H c d → d' = (Save io s c d).1 → stored_run H (attach s d' c) d'
  | sr_roster H c d keys quorum : stored_run H c d → stored_run H (SetValidatorSet keys quorum c) d
  | sr_staking H c d p : stored_run H c d → stored_run H (SetValidatorStakingParams p c) d
  | sr_window H c d n : stored_run H c d → stored_run H (SetHotWindow n (Some (ColdBlockAt s d)) c) d
  | sr_restart H c d io0 io1 io2 n c' d' : stored_run H c d → healthy io2 → not_refreshed d →
      openChain io0 io1 io2 s gen n d = inl (c', d') → stored_run H c' d'.

(** What holds in between. *)
Record stored (H : list Block) (c : Chain) (d : Disk) : Prop := {
  so_window : window_ok H c;
  so_clean : clean H d;
  so_all : ∀ h, 0 ≤ h < Z.of_nat (length H) → has s d h;
  so_reader : c.(coldBlocks) = Some (ColdBlockAt s d);
  so_state : ∃ sf, d.(dk_state) = Some (Holds sf) ∧ sf.(sf_State) = Some (Clone c.(c_State)) ∧ 0 ≤ sf.(sf_HotWindowStart) < Z.of_nat (length H) ∧
    sf.(sf_TxChainID) = transactionChainID c
}.

(** A change that leaves blocks, window and state alone. *)
Lemma stored_same H c c' d : stored H c d → c'.(Blocks) = c.(Blocks) → c'.(hotWindowStart) = c.(hotWindowStart) →
  c'.(c_State) = c.(c_State) → c'.(coldBlocks) = c.(coldBlocks) → transactionChainID c' = transactionChainID c → stored H c' d.
Proof.
  intros [[W1 W2 W3 W4] Hc Ha Hr Hs] Hb Hst Hstate Hcold Htx.
  split; [split; rewrite ?Hst, ?Hb; done|done|done|by rewrite Hcold|by rewrite Hstate, Htx].
Qed.

Lemma grows_all (H : list Block) d d' : (∀ h, 0 ≤ h < Z.of_nat (length H) → has s d h) → grows s d d' → ∀ h, 0 ≤ h < Z.of_nat (length H) → has s d' h.
Proof. intros Ha Hg h Hh. by apply Hg, Ha. Qed.

(** Saving after a block has been added to a stored history. *)
Lemma stored_save (H : list Block) c d io d' : window_ok H c → clean H d → (∀ h, 0 ≤ h < c.(hotWindowStart) → has s d h) → healthy io → d' = (Save io s c d).1 →
  stored H (attach s d' c) d'.
Proof.
  intros Hw Hc Ha Hio ->. destruct (Save io s c d) as [d' r] eqn:Hsave. pose proof (Save_healthy s io c d Hio) as Hr. rewrite Hsave in Hr. cbn in Hr. subst r.
  destruct (Save_ok s H io c d d' _ (window_blocks H c Hw) Hc Hsave) as (Hc' & Hg & Hok & _). destruct (Hok eq_refl) as [Hst Hall].
  pose proof (wo_start H c Hw) as Hstart. split; [by destruct Hw|done| |done|].
  - intros h Hh. destruct (Z.lt_ge_cases h (hotWindowStart c)); [by apply Hg, Ha; lia|apply (window_heights s H c d' Hw Hall); lia].
  - exists (state_file c). split; [exact Hst|done].
Qed.

Lemma extra_save H c d io d' : stored H c d → d' = (Save io s c d).1 → stored H (attach s d' c) d'.
Proof.
  intros [Hw Hc Ha Hr (sf & Hsf & Hst & Hstart & Htx)] ->. destruct (Save io s c d) as [d' r] eqn:Hsave.
  destruct (Save_ok s H io c d d' _ (window_blocks H c Hw) Hc Hsave) as (Hc' & Hg & Hok & Hbad).
  split; [by destruct Hw|done|by eapply grows_all|done|].
  destruct r as [[]|e]; [destruct (Hok eq_refl) as [Hst' _]; exists (state_file c)|exists sf]; cbn [fst].
  - split; [exact Hst'|]. split; [done|]. split; [exact (wo_start H c Hw)|done].
  - by rewrite Hbad.
Qed.

Lemma stored_load H c d : stored H c d → ∃ sf, Load s d = inl (mkSnapshot sf (drop (Z.to_nat sf.(sf_HotWindowStart)) H)) ∧
  sf.(sf_State) = Some (Clone c.(c_State)) ∧ 0 ≤ sf.(sf_HotWindowStart) < Z.of_nat (length H) ∧ sf.(sf_TxChainID) = transactionChainID c.
Proof.
  intros [Hw Hc Ha _ (sf & Hsf & Hst & Hstart & Htx)]. exists sf. split; [|done].
  apply (Load_ok s H); [done|done|done|apply Hw|]. intros h Hh. apply Ha. lia.
Qed.

(** A restored chain holds the window the snapshot names. *)
Lemma restored_window (H : list Block) sf snap st g n cold : (∀ i b, H !! i = Some b → b.(Header).(Height) = Z.of_nat i) → Z.of_nat (length H) < MaxUint64 →
  0 ≤ sf.(sf_HotWindowStart) < Z.of_nat (length H) → snap = mkSnapshot sf (drop (Z.to_nat sf.(sf_HotWindowStart)) H) →
  let c := SeedGenesisState (Some g) (chain_of snap st) in
  part_of_history H c ∧
  window_ok H (RestoreHotWindow sf.(sf_HotWindowStart) sf.(sf_HotWindowBaseState) sf.(sf_HotWindowBaseBlock) n cold c).
Proof.
  intros Hh Hmax Hstart -> c.
  assert (∀ c', c'.(Blocks) = drop (Z.to_nat sf.(sf_HotWindowStart)) H → c'.(hotWindowStart) = sf.(sf_HotWindowStart) → window_ok H c') as Hwin
    by (intros c' Hb Hs; split; rewrite ?Hs; done).
  split.
  - apply (window_blocks H (set_hotWindowStart sf.(sf_HotWindowStart) c)). by apply Hwin.
  - unfold RestoreHotWindow. apply window_ok_trim, Hwin; by repeat case_match.
Qed.

Lemma stored_restart H c d io0 io1 io2 n c' d' : stored H c d → healthy io2 → not_refreshed d →
  openChain io0 io1 io2 s gen n d = inl (c', d') → stored H c' d'.
Proof.
  intros Hst Hio Hnr. destruct (stored_load H c d Hst) as (sf & Hload & Hsf & Hstart & _). destruct Hst as [Hw Hc Ha _ _].
  unfold openChain. destruct (NewChain gen) as [g|] eqn:Hg; [|done]. rewrite Hload. cbn [sn_Blocks sn_file]. rewrite (Hnr g _ Hg Hload).
  destruct (restored_window H sf _ (Clone c.(c_State)) g.(c_State) n
    (Some (ColdBlockAt s (Save io1 s (SeedGenesisState (Some g.(c_State)) (chain_of (mkSnapshot sf (drop (Z.to_nat sf.(sf_HotWindowStart)) H)) (Clone c.(c_State)))) d).1))
    (wo_heights H c Hw) (wo_small H c Hw) Hstart eq_refl) as [Hpart Hwin].
  destruct (drop _ H) as [|b0 l0] eqn:Hd; [apply (f_equal length) in Hd; rewrite length_drop in Hd; cbn in Hd; lia|]. rewrite <- Hd in *. clear Hd b0 l0.
  rewrite Hsf. cbv zeta. cbn [sn_file] in *. set (c1 := SeedGenesisState (Some g.(c_State)) (chain_of _ _)) in *. destruct (Save io1 s c1 d) as [d1 r1] eqn:H1. cbn [fst] in *.
  destruct (Save_ok s H io1 c1 d d1 _ Hpart Hc H1) as (Hc1 & Hg1 & _ & _).
  set (c2 := RestoreHotWindow _ _ _ _ _ c1) in *. set (c3 := ReapplyGenesisCitizenRewardConfig _ c2).
  assert (window_ok H c3) as Hwin3 by (destruct Hwin as [A B C D]; split; [exact A|exact B|exact C|exact D]).
  clearbody c3. intros Heq. injection Heq as <- <-. apply stored_save with (d := d1) (io := io2); [done|done| |done|done].
  intros h Hh. apply Hg1, Ha. pose proof (wo_start H c3 Hwin3). lia.
Qed.

Lemma stored_open io0 io1 io2 n c d : healthy io1 → openChain io0 io1 io2 s gen n no_disk = inl (c, d) → stored c.(Blocks) c d.
Proof.
  intros Hio. unfold openChain. destruct (NewChain gen) as [g|] eqn:Hg; [|done]. cbn -[Save SetHotWindow].
  apply NewChain_inv in Hg as (st & gb & _ & Hh & _ & ->).
  assert (∀ cold, SetHotWindow n cold (mkChain gen.(g_ChainID) (Genesis.TransactionChainID gen) st (Dex.DEX.SyncFromState st) [gb] ∅ ∅ 0 (Some (Clone st)) 0 0 []
      (mkParams 0 0 0 0 0 0 0 0) 0 0 None None None) =
      set_coldBlocks cold (set_maxHotBlocks n (mkChain gen.(g_ChainID) (Genesis.TransactionChainID gen) st (Dex.DEX.SyncFromState st) [gb] ∅ ∅ 0 (Some (Clone st)) 0 0 []
      (mkParams 0 0 0 0 0 0 0 0) 0 0 None None None))) as Hset by (intros cold; unfold SetHotWindow; by rewrite (trimHotWindow_single _ gb)).
  rewrite Hset. intros [= <- <-]. cbn [Blocks attach set_coldBlocks set_maxHotBlocks].
  set (c0 := set_coldBlocks _ _). assert (window_ok [gb] c0) as Hw.
  { split; cbn; [|lia|done|vm_compute; done]. intros [|i] b; cbn; [intros [= <-]; by rewrite Hh|done]. }
  apply (stored_save [gb] c0 no_disk io1); [done|split; intros h f Hf; cbn in Hf; by rewrite lookup_empty in Hf|cbn; lia|done|done].
Qed.

Lemma finalized_window H now c b c' b' : window_ok H c → Z.of_nat (length H) + 1 < MaxUint64 → FinalizeBlock now c b = (c', b', inl tt) →
  window_ok (H ++ [b'])%list c'.
Proof.
  intros Hw Hsm Hf. destruct (FinalizeBlock_cases now c b) as [(b1 & next & Hv & Heq)|(b1 & e & _ & Heq)]; rewrite Heq in Hf; [|done].
  injection Hf as <- <-. destruct Hv as [Hh -> _ Hn _]. destruct (check_header_ok _ _ _ _ Hh) as (parent & Hp & _ & Hht & _).
  destruct (window_tip H c Hw) as (t & Ht & _ & Hth). rewrite Hp in Ht. injection Ht as <-.
  rewrite Hth, Z.sub_add, u64_small in Hht by (split; lia). by apply window_ok_commit.
Qed.

Lemma stored_run_ok H c d : stored_run H c d → stored H c d.
Proof.
  induction 1 as [io0 io1 io2 n c d Hio Ho|H c d now tx _ IH|H c d io now b c' b' d' _ IH Hio Hsm Hf Hd|H c d now b e _ IH He|H c d io d' _ IH Hd
    |H c d keys q _ IH|H c d p _ IH|H c d n _ IH|H c d io0 io1 io2 n c' d' _ IH Hio Hnr Ho].
  - by eapply stored_open.
  - destruct (SubmitTx_cases now tx c) as [[_ ->]|[_ [e ->]]]; [|done]. by apply (stored_same H c).
  - destruct IH as [Hw Hc Ha _ _].
    assert (window_ok (H ++ [b'])%list c') as Hw' by by eapply finalized_window.
    apply (stored_save _ c' d io); [done|by apply clean_prefix| |done|done].
    intros h Hh. apply Ha. pose proof (wo_start _ _ Hw') as Hstart. rewrite length_app in Hstart. cbn in Hstart. lia.
  - destruct (FinalizeBlock_cases now c b) as [(b1 & next & _ & Hr)|(b1 & e' & _ & ->)]; [by rewrite Hr in He|done].
  - by eapply extra_save.
  - by apply (stored_same H c).
  - by apply (stored_same H c).
  - destruct IH as [Hw Hc Ha Hr Hs]. split; [by apply window_ok_trim; destruct Hw|done|done| |].
    + unfold SetHotWindow. destruct (trimHotWindow_cases (set_coldBlocks (Some (ColdBlockAt s d)) (set_maxHotBlocks n c))) as [->|(m & base & next & _ & _ & _ & _ & _ & ->)]; done.
    + unfold SetHotWindow. rewrite (proj1 (trimHotWindow_state _)), (proj2 (proj2 (trimHotWindow_config _))). exact Hs.
  - by eapply stored_restart.
Qed.

End stored_run.

(* ------------------------------------------------------------------ *)
(** * The theorems *)

(** (C10) Memory and disk together are the whole history. Along every run of
    a node with a store, from an empty directory, through blocks that are
    finalized and saved, further saves of which any write may fail, cold blocks
    being moved to the archive, changes of the window and restarts: every
    height and every range is answered as from the list of all blocks ever
    finalized, and loading at any time gives the saved window of that list with
    the current state. *)
Theorem store_run_reads `{E : Ed25519} s gen H c d :
  stored_run s gen H c d →
  (∀ h, 0 ≤ h → BlockAt c h = H !! Z.to_nat h) ∧
  (∀ from limit, BlocksRange c from limit = history_range H (Z.max from 0) limit) ∧
  ∃ sf, Load s d = inl (mkSnapshot sf (drop (Z.to_nat sf.(sf_HotWindowStart)) H)) ∧ sf.(sf_State) = Some (Clone c.(c_State)).
Proof.
  intros Hrun%stored_run_ok. assert (archive_ok H c) as Harch.
  { destruct Hrun as [Hw Hc Ha Hr _]. exists (ColdBlockAt s d). split; [done|]. intros h Hh. pose proof (wo_start H c Hw). apply cold_reads; [done|]. apply Ha. lia. }
  pose proof (so_window _ _ _ _ Hrun) as Hw. destruct (stored_load s H c d Hrun) as (sf & Hl & Hs & _).
  split; [intros; by apply BlockAt_view|]. split; [intros; by apply BlocksRange_view|by exists sf].
Qed.

(** A node with a window of one block that finalizes one. *)
Definition store0 : Store := mkStore true DefaultMaxLocalStorageBytes.
Definition io_ok : IO := mkIO (λ _, true) true (λ _, (true, true)) (λ _, 1000).
Definition opened : Chain * Disk := match openChain io_ok io_ok io_ok store0 genesis0 1 no_disk with inl x => x | inr _ => (no_chain, no_disk) end.
Definition waiting : Chain := (SubmitTx 1700000000 transfer_tx (SetValidatorSet roster 2 opened.1)).1.
Definition finalized : Chain * Block * res unit := FinalizeBlock clock waiting block1.
Definition disk1 : Disk := (Save io_ok store0 finalized.1.1 opened.2).1.
Definition history1 : list Block := (opened.1.(Blocks) ++ [finalized.1.2])%list.

Lemma history1_run : stored_run store0 genesis0 history1 (attach store0 disk1 finalized.1.1) disk1.
Proof.
  apply (sr_finalize store0 genesis0 opened.1.(Blocks) waiting opened.2 io_ok clock block1); [|by split|vm_compute; reflexivity| |reflexivity].
  - apply sr_submit, sr_roster. apply (sr_open store0 genesis0 io_ok io_ok io_ok 1); [by split|].
    unfold opened. destruct (openChain _ _ _ _ _ _ _) as [[c d]|e] eqn:Ho; [reflexivity|vm_compute in Ho; discriminate].
  - assert (finalized.2 = inl tt) as Hf by (vm_compute; reflexivity). unfold finalized in *. destruct (FinalizeBlock _ _ _) as [[c b] r]. cbn in Hf. by rewrite Hf.
Qed.

(** The genesis block has left memory and is read from its file. *)
Lemma store_run_reads_witness :
  finalized.1.1.(hotWindowStart) = 1 ∧ BlockAt (attach store0 disk1 finalized.1.1) 0 = history1 !! 0%nat.
Proof.
  split; [vm_compute; reflexivity|]. destruct (store_run_reads store0 genesis0 history1 _ disk1 history1_run) as [H _]. exact (H 0 (Z.le_refl 0)).
Defined.

(** (C11) What is saved is loaded. On a disk that holds nothing but blocks of
    the history, whichever writes of a [Save] fail: the disk still holds
    nothing else, every block that could be read still can, and if [Save]
    reports success then [Load] gives exactly the chain's window and what
    [Save] was given of the rest, and every height of the history can be read;
    if it reports a failure the state file is the one from before. *)
Theorem save_load `{E : Ed25519} s H io c d d' r :
  clean H d → window_ok H c → (∀ h, 0 ≤ h < c.(hotWindowStart) → has s d h) → Save io s c d = (d', r) →
  clean H d' ∧ grows s d d' ∧
  (r = inl tt → Load s d' = inl (mkSnapshot (state_file c) c.(Blocks)) ∧ ∀ h, 0 ≤ h → ColdBlockAt s d' h = H !! Z.to_nat h) ∧
  (r ≠ inl tt → d'.(dk_state) = d.(dk_state)).
Proof.
  intros Hc Hw Ha Hsave. destruct (Save_ok s H io c d d' r (window_blocks H c Hw) Hc Hsave) as (Hc' & Hg & Hok & Hbad).
  split; [done|]. split; [done|]. split; [|done]. intros Hr. destruct (Hok Hr) as [Hst Hall]. pose proof (wo_start H c Hw) as Hstart.
  assert (∀ h, 0 ≤ h < Z.of_nat (length H) → has s d' h) as Hhas.
  { intros h Hh. destruct (Z.lt_ge_cases h (hotWindowStart c)); [apply Hg, Ha; lia|apply (window_heights s H c d' Hw Hall); lia]. }
  split.
  - rewrite (Load_ok s H d' (state_file c) Hc' Hst); [by rewrite (wo_blocks H c Hw)|exact Hstart|apply Hw|]. intros h Hh. apply Hhas. cbn in Hh. lia.
  - intros h Hh. destruct (Z.lt_ge_cases h (Z.of_nat (length H))); [apply cold_reads; [done|apply Hhas; lia]|].
    rewrite (cold_beyond s H d' h Hc' ltac:(done)). symmetry. apply lookup_ge_None. lia.
Qed.

Lemma save_load_witness : Load store0 (Save io_ok store0 chain1 no_disk).1 = inl (mkSnapshot (state_file chain1) chain1.(Blocks)).
Proof.
  destruct (Save io_ok store0 chain1 no_disk) as [d' r] eqn:Hs.
  destruct (save_load store0 chain1.(Blocks) io_ok chain1 no_disk d' r) as (_ & _ & H & _).
  - split; intros h f Hf; cbn in Hf; rewrite lookup_empty in Hf; discriminate.
  - split; [|vm_compute; split; [discriminate|reflexivity]|reflexivity|vm_compute; reflexivity]. intros [|i] b; cbn; intros Hb; [injection Hb as <-; reflexivity|discriminate].
  - intros h Hh. cbn in Hh. lia.
  - exact Hs.
  - pose proof (Save_healthy store0 io_ok chain1 no_disk ltac:(by split)) as Hr. rewrite Hs in Hr. destruct (H Hr) as [Hl _]. exact Hl.
Defined.

(* ------------------------------------------------------------------ *)
(** * Defects *)

(** The blocks are written before the state. A crash in between (or a failing
    write of the state) leaves one block more than the state knows: what is
    loaded has the new block as its tip and the state from before it. *)
Theorem crash_stale_state `{E : Ed25519} s H io now c d b c' b' :
  stored s H c d → Z.of_nat (length H) + 1 < MaxUint64 → FinalizeBlock now c b = (c', b', inl tt) →
  (∀ i, io.(io_block) i = true) → io.(io_state) = false →
  ∃ sf, Load s (Save io s c' d).1 = inl (mkSnapshot sf (drop (Z.to_nat sf.(sf_HotWindowStart)) (H ++ [b']))) ∧ sf.(sf_State) = Some (Clone c.(c_State)).
Proof.
  intros [Hw Hc Ha _ (sf & Hsf & Hst & Hstart)] Hsm Hf Hio Hios.
  assert (window_ok (H ++ [b'])%list c') as Hw' by by eapply finalized_window.
  destruct (Save io s c' d) as [d' r] eqn:Hsave.
  destruct (Save_ok s _ io c' d d' r (window_blocks _ c' Hw') (clean_prefix H d b' Hc) Hsave) as (Hc' & Hg & _ & Hbad).
  unfold Save, SnapshotData, archiveBlocks in Hsave. pose proof (archive_blocks_healthy io.(io_block) (Z.of_nat (length (Blocks c'))) 0 (Blocks c') d Hio) as Hr.
  destruct (archive_blocks _ _ _ _ _) as [d1 r1] eqn:H1. cbn in Hr. subst r1. rewrite Hios in Hsave. injection Hsave as <- <-.
  destruct (archive_blocks_ok s _ _ _ _ _ _ _ _ (clean_prefix H d b' Hc) (window_blocks _ c' Hw') H1) as (_ & _ & Hs1 & Hall).
  exists sf. split; [|done]. cbn [fst]. pose proof (wo_start _ _ Hw') as Hs'. rewrite length_app in Hs'. cbn in Hs'.
  rewrite (Load_ok s (H ++ [b'])%list d1 sf Hc' ltac:(by rewrite Hs1)); [done|rewrite length_app; cbn; lia|apply Hw'|].
  intros h Hh. rewrite length_app in Hh. cbn in Hh. destruct (Z.lt_ge_cases h (Z.of_nat (length H))); [apply Hg, Ha; lia|].
  apply (window_heights s _ c' d1 Hw' (Hall eq_refl)). rewrite length_app. cbn. lia.
Qed.

(** The node of the example after such a crash: it has the block of height 1
    and refuses every later one, which a node that was not interrupted
    accepts. *)
Definition io_crash : IO := mkIO (λ _, true) false (λ _, (false, false)) (λ _, 1000).
Definition crashed : Disk := (Save io_crash store0 finalized.1.1 opened.2).1.
Definition reopened (d : Disk) : Chain :=
  match openChain io_ok io_ok io_ok store0 genesis0 1 d with inl x => SetValidatorSet roster 2 x.1 | inr _ => no_chain end.

Definition block2 : Block := Eval vm_compute in
  approve ["v1"; "v2"] (let b := block_or (BuildBlock clock "v2" "" 10 chain2) in sign_proposal (hex0x (ed_Sign "v2" b.(Hash))) b).

Example crash_sticks :
  (FinalizeBlock clock (reopened disk1) block2).2 = inl tt ∧
  chain_height (reopened crashed) = 1 ∧ (FinalizeBlock clock (reopened crashed) block2).2 = inr (Err "bad block: state root mismatch").
Proof. vm_compute. split_and!; reflexivity. Qed.

(** A snapshot that cannot be loaded, for whatever reason, counts as none: the
    node starts over from the genesis block, and the first thing it does is to
    write the genesis state over the state file. *)
Lemma offload_state outcome size max start total es d : (offload outcome size max start total es d).(dk_state) = d.(dk_state).
Proof.
  revert total d. induction es as [|[h f] es IH]; intros total d; cbn [offload]; [done|]. destruct (_ <=? _); [done|]. destruct (_ <=? _); [done|].
  destruct (outcome h) as [copy remove]. rewrite IH. unfold offload_one. by destruct copy, remove.
Qed.

Theorem unreadable_starts_over `{E : Ed25519} io0 io1 io2 s gen n d g e : NewChain gen = inl g → Load s d = inr e → healthy io1 →
  ∃ c d', openChain io0 io1 io2 s gen n d = inl (c, d') ∧ c.(c_State) = g.(c_State) ∧
    d'.(dk_state) = Some (Holds (state_file (SetHotWindow n (Some (ColdBlockAt s d)) g))).
Proof.
  intros Hg Hl [Hb Hs]. unfold openChain. rewrite Hg, Hl. eexists _, _. split; [done|]. split; [exact (proj1 (trimHotWindow_state _))|].
  unfold Save, SnapshotData, archiveBlocks. set (c := SetHotWindow _ _ g).
  pose proof (archive_blocks_healthy io1.(io_block) (Z.of_nat (length (Blocks c))) 0 (Blocks c) d Hb) as Hr.
  destruct (archive_blocks _ _ _ _ _) as [d1 r1]. cbn in Hr. subst r1. rewrite Hs. cbn [fst]. unfold EnforceStorageLimit.
  destruct (_ || _); [done|]. cbv zeta. destruct (_ <=? _); [done|]. by rewrite offload_state.
Qed.
