(* ===== verification/Export.v ===== *)
(** Moving a legacy node's chain to CometBFT (cometapp/export/export.go, and
    the export-genesis command of cometapp/main.go): reading the state a node
    saved, adding up its coin, building the genesis of the new chain from it,
    and the command's own checks.

    The JSON of a genesis is not modelled: what decoding its text again gives
    is an argument. *)
From stdpp Require Import base strings list gmap.
From S2P Require Import Prelude GoStd Types Ledger TxModel Merkle Staking Fees Block.
From S2P Require Import Chain ChainFacts ChainBuild ChainWindow ChainRun DexLedger Comet.
From S2P Require Import CometRun Store.

#[local] Open Scope string_scope.
#[local] Open Scope Z_scope.

(* ------------------------------------------------------------------ *)
(** * Reading *)

(** [Legacy] *)
Record Legacy : Type := mkLegacy {
  lg_ChainID : string;
  lg_TxChainID : Z;
  lg_State : State;
  lg_Height : Z;
  TipStateRoot : string;
  Verified : bool
}.

(** What the path leads to: a node's directory, or a state file with the
    files of the blocks directory next to it. *)
Inductive legacy_path : Type :=
  | DataDir (s : Store) (d : Disk)
  | StateFile (f : file stateFile) (blocks : gmap Z (file Block)).

(** [newestBlock] *)
Definition newestBlock (blocks : gmap Z (file Block)) : option Block :=
  match foldl (λ o e, match o with Some (h, _) => if h <? e.1 then Some e else o | None => Some e end) None (map_to_list blocks) with
  | Some (_, Holds b) => Some b
  | _ => None
  end.

(** The end of [Load]: the state has to be there. *)
Definition legacy_of (chainID : string) (txChainID : Z) (st : option State) (tip : option Block) : res Legacy :=
  match st with
  | None => inr (Err "no chain state found")
  | Some st =>
      let '(height, root) := match tip with Some b => (b.(Header).(Height), b.(Header).(StateRoot)) | None => (0, "") end in
      inl (mkLegacy chainID txChainID st height root (negb (empty_str root) && bool_decide (Root st = root)))
  end.

(** [Load] *)
Definition Load_legacy (path : legacy_path) : res Legacy :=
  match path with
  | DataDir s d =>
      match Load s d with
      | inr e => inr e
      | inl snap => let sf := snap.(sn_file) in legacy_of sf.(sf_ChainID) sf.(sf_TxChainID) sf.(sf_State) (last snap.(sn_Blocks))
      end
  | StateFile Damaged _ => inr (Err "not a synthosd state file")
  | StateFile (Holds sf) blocks => legacy_of sf.(sf_ChainID) sf.(sf_TxChainID) sf.(sf_State) (newestBlock blocks)
  end.

(* ------------------------------------------------------------------ *)
(** * Totals *)

Record Totals : Type := mkTotals {
  t_Accounts : Z;
  Balances : Z;
  CitizenStaked : Z;
  ValidatorLocked : Z;
  Held : Z;
  MaxSupply : Z;
  Burned : Z;
  Treasury : Address;
  TreasuryBalance : Z;
  Founder : Address;
  CitizenRateBps : Z;
  t_StateRoot : string
}.

(** Adding amounts up, until the sum overflows. *)
Fixpoint add_all (sum : Z) (l : list Z) : res Z :=
  match l with
  | [] => inl sum
  | v :: l => if u64 (sum + v) <? sum then inr (Err "amounts overflow: the state is corrupt") else add_all (u64 (sum + v)) l
  end.

(** [Summarize]; the totals it returns with an error are nowhere used. *)
Definition Summarize (st : State) : res Totals :=
  match add_all 0 (Balance <$> (map_to_list st.(Accounts)).*2) with
  | inr e => inr e
  | inl balances =>
  match add_all 0 (cs_Amount <$> (map_to_list st.(CitizenStakes)).*2) with
  | inr e => inr e
  | inl staked =>
      let locked := TotalValidatorLocked st in
      match add_all balances [staked; locked] with
      | inr e => inr e
      | inl held =>
          if MAX_SUPPLY <? held then inr (Err "the state holds more than the maximum supply")
          else inl (mkTotals (AccountCount st) balances staked locked held MAX_SUPPLY (u64 (MAX_SUPPLY - held)) st.(TreasuryAddress)
                 (if empty_str st.(TreasuryAddress) then 0 else (Get st st.(TreasuryAddress)).(Balance))
                 st.(GovernanceFounder) st.(CitizenRewardRateBpsPerYear) (Root st))
      end
  end
  end.

(* ------------------------------------------------------------------ *)
(** * The new chain *)

(** [FaucetFunding], [Options] *)
Record FaucetFunding : Type := mkFaucet { ff_Address : Address; ff_Amount : Z; ff_From : Address }.

Record Options : Type := mkOptions {
  o_ChainID : string;
  o_TxChainID : Z;
  AllowSameTxChainID : bool;
  o_Staking : ValidatorStakingParams;
  o_Validators : list GenesisValidator;
  LegacyGenesis : option Genesis;
  Faucet : option FaucetFunding
}.

(** Settings the saved state has lost are taken from the legacy genesis. *)
Definition restore_settings (g : option Genesis) (st : State) : res State :=
  match g with
  | None => inl st
  | Some g =>
      match Genesis.ToState g with
      | inr e => inr e
      | inl ref =>
          let st := if empty_str st.(TreasuryAddress) then set_TreasuryAddress ref.(TreasuryAddress) st else st in
          let st := if st.(CitizenRewardRateBpsPerYear) =? 0 then set_CitizenRewardRateBpsPerYear ref.(CitizenRewardRateBpsPerYear) st else st in
          inl (if empty_str st.(GovernanceFounder) then set_GovernanceFounder ref.(GovernanceFounder) st else st)
      end
  end.

(** The faucet of a test network. *)
Definition fund_faucet (allowSame : bool) (f : option FaucetFunding) (st : State) : res State :=
  match f with
  | None => inl st
  | Some f =>
      if allowSame then inr (Err "a faucet is for test networks only, not the mainnet switch")
      else if (f.(ff_Amount) =? 0) || empty_str f.(ff_Address) || empty_str f.(ff_From) || bool_decide (f.(ff_Address) = f.(ff_From))
      then inr (Err "faucet needs an address, an amount and a different account to fund it from")
      else
        let src := Get st f.(ff_From) in
        if src.(Balance) <? f.(ff_Amount) then inr (Err "faucet source holds less")
        else
          let dst := Get st f.(ff_Address) in
          if u64 (dst.(Balance) + f.(ff_Amount)) <? dst.(Balance) then inr (Err "faucet balance overflows")
          else
            inl (Set_ f.(ff_Address) (set_Balance (u64 (dst.(Balance) + f.(ff_Amount))) dst)
                   (Set_ f.(ff_From) (set_Balance (src.(Balance) - f.(ff_Amount)) src) st))
  end.

Definition by_operator (a b : GenesisValidator) : bool := str_lt a.(gv_Operator) b.(gv_Operator).

(** The legacy chain's transaction chain ID. *)
Definition legacyTx (l : Legacy) : Z := if l.(lg_TxChainID) =? 0 then 1 else l.(lg_TxChainID).

(** [Genesis] *)
Definition Genesis_of (l : Legacy) (o : Options) : res AppGenesis :=
  if empty_str o.(o_ChainID) then inr (Err "a chain ID for the new chain is required")
  else if o.(o_TxChainID) =? 0 then inr (Err "a transaction chain ID for the new chain is required")
  else if (o.(o_TxChainID) =? legacyTx l) && negb o.(AllowSameTxChainID) then inr (Err "the transaction chain ID is the legacy chain's own")
  else
    let st := set_ValidatorSetSnapshot [] (set_Validators ∅ (Clone l.(lg_State))) in
    match restore_settings o.(LegacyGenesis) st with
    | inr e => inr e
    | inl st =>
        match fund_faucet o.(AllowSameTxChainID) o.(Faucet) st with
        | inr e => inr e
        | inl st =>
            let g := mkAppGenesis (mkGenesis o.(o_ChainID) o.(o_TxChainID) ∅ ∅) o.(o_Staking) (sort_slice by_operator o.(o_Validators)) (Some st) (Root st) in
            match Genesis_Validate g with inr e => inr e | inl _ => inl g end
        end
    end.

(** [Check]; [decoded] is what decoding the printed genesis gives. *)
Definition Check_genesis (decoded : res AppGenesis) (g : AppGenesis) : res string :=
  match New "" FileMissing with
  | inr e => inr e
  | inl a => match InitChain a g.(ag_Chain).(g_ChainID) decoded with (_, inr e) => inr e | (_, inl (_, hash)) => inl (hex0x hash) end
  end.

(** [exportGenesis] from the path on: the genesis that is written to the file,
    and the app hash that is printed. *)
Definition exportGenesis (decode : AppGenesis → res AppGenesis) (path : legacy_path) (o : Options) : res (AppGenesis * string) :=
  match Load_legacy path with
  | inr e => inr e
  | inl l =>
  match Summarize l.(lg_State) with
  | inr e => inr e
  | inl before =>
  match Genesis_of l o with
  | inr e => inr e
  | inl g =>
  match Check_genesis (decode g) g with
  | inr e => inr e
  | inl appHash =>
  match g.(InitialState) with
  | None => inr (Panic "nil pointer dereference")
  | Some st =>
  match Summarize st with
  | inr e => inr e
  | inl after =>
      let newAccounts := match o.(Faucet) with Some f => if (Get l.(lg_State) f.(ff_Address)).(Balance) =? 0 then 1 else 0 | None => 0 end in
      if negb (after.(Held) =? before.(Held)) || negb (after.(t_Accounts) =? before.(t_Accounts) + newAccounts)
      then inr (Err "totals changed during export")
      else inl (g, appHash)
  end end end end end end.

(* ------------------------------------------------------------------ *)
(** * Facts *)

(** Every amount is a [uint64], and so is what validators have bonded. *)
Record amounts (st : State) : Prop := {
  am_accounts : ∀ a acc, st.(Accounts) !! a = Some acc → in_u64 acc.(Balance);
  am_citizens : ∀ a c, st.(CitizenStakes) !! a = Some c → in_u64 c.(cs_Amount);
  am_validators : ∀ a r, st.(Validators) !! a = Some r → 0 ≤ r.(SelfBond) ∧ Forall (λ e, 0 ≤ e.(ub_Amount)) r.(Unbonding);
  am_locked : validator_locked st ≤ MaxUint64
}.

Lemma add_all_spec sum l : in_u64 sum → Forall in_u64 l →
  sum + lsum id l ≤ MaxUint64 ∧ add_all sum l = inl (sum + lsum id l) ∨ MaxUint64 < sum + lsum id l ∧ ∃ e, add_all sum l = inr e.
Proof.
  intros Hs Hl. revert sum Hs. induction Hl as [|v l Hv Hl IH]; intros sum Hs; cbn [add_all].
  - rewrite lsum_nil, Z.add_0_r. left. split; [apply Hs|done].
  - rewrite lsum_cons. unfold id at 1 3 5. pose proof (lsum_nonneg id l) as Hn. rewrite Forall_forall in Hl.
    specialize (Hn ltac:(intros a Ha; apply (Hl a Ha))). destruct (Z.ltb_spec (u64 (sum + v)) sum) as [Hlt|Hlt].
    + right. split; [|by eexists]. destruct (Z.le_gt_cases (sum + v) MaxUint64) as [Hle|Hgt]; [|lia].
      rewrite u64_small in Hlt by (unfold in_u64 in *; lia). unfold in_u64 in *. lia.
    + assert (sum + v ≤ MaxUint64) as Hle.
      { destruct (Z.le_gt_cases (sum + v) MaxUint64) as [|Hgt]; [done|]. exfalso. unfold in_u64, u64, MaxUint64 in *.
        rewrite <- (Z.mod_add _ (-1)), Z.mod_small in Hlt by lia. lia. }
      rewrite u64_small in * by (unfold in_u64 in *; lia). rewrite Z.add_assoc. apply IH. unfold in_u64 in *. lia.
Qed.

Lemma msum_values {V} (f : V → Z) (m : gmap string V) : lsum id (f <$> (map_to_list m).*2) = msum f m.
Proof. rewrite lsum_fmap, lsum_fmap, msum_map_to_list. done. Qed.

Lemma values_u64 {V} (f : V → Z) (m : gmap string V) : (∀ k v, m !! k = Some v → in_u64 (f v)) → Forall in_u64 (f <$> (map_to_list m).*2).
Proof.
  intros Hm. rewrite !Forall_fmap. apply Forall_forall. intros [k v] Hin. by apply (Hm k v), elem_of_map_to_list.
Qed.

Lemma amounts_locked st : amounts st → 0 ≤ validator_locked st.
Proof.
  intros Ha. apply msum_nonneg. intros k r Hr. destruct (am_validators st Ha k r Hr) as [Hs Hu]. unfold validator_stake.
  pose proof (lsum_unbonding_nonneg _ Hu). lia.
Qed.

(** [Summarize] adds up exactly: it succeeds when the coin there is does not
    exceed the maximum, and then says how much that is and where. *)
Lemma Summarize_exact st : amounts st →
  if bool_decide (supply st ≤ MAX_SUPPLY)
  then ∃ t, Summarize st = inl t ∧ t.(Held) = supply st ∧ t.(Balances) = spendable st ∧ t.(CitizenStaked) = citizen_locked st ∧
         t.(ValidatorLocked) = validator_locked st ∧ t.(Burned) = MAX_SUPPLY - supply st ∧ t.(t_StateRoot) = Root st
  else ∃ e, Summarize st = inr e.
Proof.
  intros Ha. unfold Summarize.
  pose proof (add_all_spec 0 _ ltac:(done) (values_u64 Balance _ (am_accounts st Ha))) as Hb. rewrite msum_values in Hb. fold (spendable st) in Hb.
  pose proof (add_all_spec 0 _ ltac:(done) (values_u64 cs_Amount _ (am_citizens st Ha))) as Hc. rewrite msum_values in Hc. fold (citizen_locked st) in Hc.
  pose proof (amounts_locked st Ha) as Hv. pose proof (am_locked st Ha) as Hvm.
  assert (0 ≤ spendable st) as Hs0 by (apply msum_nonneg; intros k v Hk; apply (am_accounts st Ha k v Hk)).
  assert (0 ≤ citizen_locked st) as Hc0 by (apply msum_nonneg; intros k v Hk; apply (am_citizens st Ha k v Hk)).
  unfold TotalValidatorLocked. rewrite u64_small by (split; lia). rewrite !Z.add_0_l in *.
  assert (MAX_SUPPLY ≤ MaxUint64) as Hmm by done.
  destruct Hb as [[Hb1 ->]|[Hb1 [e ->]]]; [|rewrite bool_decide_eq_false_2 by (unfold supply; lia); by eexists].
  destruct Hc as [[Hc1 ->]|[Hc1 [e ->]]]; [|rewrite bool_decide_eq_false_2 by (unfold supply; lia); by eexists].
  pose proof (add_all_spec (spendable st) [citizen_locked st; validator_locked st] ltac:(split; lia) ltac:(repeat constructor; lia)) as Hh.
  rewrite !lsum_cons, lsum_nil in Hh. unfold id in Hh.
  replace (spendable st + (citizen_locked st + (validator_locked st + 0))) with (supply st) in Hh by (unfold supply; lia).
  destruct Hh as [[Hh1 ->]|[Hh1 [e ->]]]; [|rewrite bool_decide_eq_false_2 by lia; by eexists].
  destruct (Z.ltb_spec MAX_SUPPLY (supply st)) as [Hlt|Hge]; [rewrite bool_decide_eq_false_2 by lia; by eexists|].
  rewrite bool_decide_eq_true_2 by lia. eexists. split; [done|]. cbn. split_and!; try done. apply u64_small. unfold supply in *. split; lia.
Qed.

Lemma amounts_Clone st : amounts st → amounts (Clone st).
Proof.
  intros [A1 A2 A3 A4]. split; [|done..]. intros a acc. cbn. rewrite lookup_fmap_Some. intros (acc0 & <- & Hl). by apply (A1 a acc0).
Qed.

(** What the options of an export have to be. *)
Record sane_options (o : Options) : Prop := {
  so_params : params_ok o.(o_Staking);
  so_bonds : Forall (λ v, v.(gv_Operator) ≠ "" ∧ o.(o_Staking).(MinSelfBond) ≤ v.(gv_SelfBond)) o.(o_Validators);
  so_faucet : ∀ f, o.(Faucet) = Some f → 0 ≤ f.(ff_Amount)
}.

(** An account in the new chain: the faucet's coin has moved. *)
Definition moved (f : option FaucetFunding) (a : Address) (acc : Account) : Account :=
  match f with
  | None => acc
  | Some f =>
      if decide (a = f.(ff_Address)) then set_Balance (acc.(Balance) + f.(ff_Amount)) acc
      else if decide (a = f.(ff_From)) then set_Balance (acc.(Balance) - f.(ff_Amount)) acc
      else acc
  end.

(** The new chain starts with everything the legacy state holds, but its
    validators; settings that were lost may be filled in. *)
Record carried (f : option FaucetFunding) (old new : State) : Prop := {
  ca_accounts : ∀ a, Get new a = moved f a (Get old a);
  ca_records : new = set_Accounts new.(Accounts) (set_TreasuryAddress new.(TreasuryAddress)
    (set_CitizenRewardRateBpsPerYear new.(CitizenRewardRateBpsPerYear) (set_GovernanceFounder new.(GovernanceFounder)
      (set_ValidatorSetSnapshot [] (set_Validators ∅ old)))));
  ca_treasury : old.(TreasuryAddress) ≠ "" → new.(TreasuryAddress) = old.(TreasuryAddress);
  ca_rate : old.(CitizenRewardRateBpsPerYear) ≠ 0 → new.(CitizenRewardRateBpsPerYear) = old.(CitizenRewardRateBpsPerYear);
  ca_founder : old.(GovernanceFounder) ≠ "" → new.(GovernanceFounder) = old.(GovernanceFounder)
}.

Lemma carried_Clone f old new : carried f (Clone old) new → carried f old new.
Proof. intros [H1 H2 H3 H4 H5]. split; [|exact H2|done..]. intros a. by rewrite H1, acct_Clone. Qed.

Lemma restore_settings_ok g old st : restore_settings g old = inl st →
  st.(Accounts) = old.(Accounts) ∧
  st = set_TreasuryAddress st.(TreasuryAddress) (set_CitizenRewardRateBpsPerYear st.(CitizenRewardRateBpsPerYear) (set_GovernanceFounder st.(GovernanceFounder) old)) ∧
  (old.(TreasuryAddress) ≠ "" → st.(TreasuryAddress) = old.(TreasuryAddress)) ∧
  (old.(CitizenRewardRateBpsPerYear) ≠ 0 → st.(CitizenRewardRateBpsPerYear) = old.(CitizenRewardRateBpsPerYear)) ∧
  (old.(GovernanceFounder) ≠ "" → st.(GovernanceFounder) = old.(GovernanceFounder)).
Proof.
  unfold restore_settings. destruct g as [g|]; [|intros [= <-]; by destruct old]. destruct (Genesis.ToState g) as [ref|]; [|done].
  cbv zeta. unfold empty_str. intros [= <-]. destruct old as [? ? ? ? ? ? ? ? ? ? ? tr rate ? founder ? ? ? ? ? ?]. cbn.
  destruct (bool_decide_reflect (tr = "")) as [->|]; cbn; destruct (Z.eqb_spec rate 0) as [->|]; cbn;
    destruct (bool_decide_reflect (founder = "")) as [->|]; cbn; split_and!; done.
Qed.

(** Funding the faucet moves coin and nothing else. *)
Lemma fund_faucet_ok same f old st : amounts old → (∀ f', f = Some f' → 0 ≤ f'.(ff_Amount)) → fund_faucet same f old = inl st →
  st = set_Accounts st.(Accounts) old ∧ supply st = supply old ∧ (∀ a, Get st a = moved f a (Get old a)) ∧ amounts st.
Proof.
  intros Ha Hpos. unfold fund_faucet. destruct f as [f|]; [|intros [= <-]; destruct old; by split_and!].
  destruct same; [done|]. specialize (Hpos f eq_refl). destruct (_ || _) eqn:Hg; [done|]. apply orb_false_iff in Hg as [_ Hne%bool_decide_eq_false].
  destruct (Z.ltb_spec (Balance (Get old (ff_From f))) (ff_Amount f)) as [|Hle]; [done|].
  destruct (Z.ltb_spec (u64 (Balance (Get old (ff_Address f)) + ff_Amount f)) (Balance (Get old (ff_Address f)))) as [|Hno]; [done|].
  set (src := Get old (ff_From f)) in *. set (dst := Get old (ff_Address f)) in *.
  assert (∀ a, in_u64 (Get old a).(Balance)) as Hu.
  { intros a. rewrite Balance_Get. unfold acct. destruct (Accounts old !! a) eqn:Hl; [by eapply am_accounts|done]. }
  pose proof (Hu (ff_From f)) as Hsrc. pose proof (Hu (ff_Address f)) as Hdst. fold src in Hsrc. fold dst in Hdst.
  assert (u64 (Balance dst + ff_Amount f) = Balance dst + ff_Amount f) as Hsum.
  { destruct (Z.le_gt_cases (Balance dst + ff_Amount f) MaxUint64) as [|Hgt]; [apply u64_small; unfold in_u64 in *; lia|]. exfalso.
    unfold in_u64, u64, MaxUint64 in *. rewrite <- (Z.mod_add _ (-1)), Z.mod_small in Hno by lia. lia. }
  rewrite Hsum in *. intros Heq. injection Heq as <-. unfold Set_. split_and!; [by destruct old| | |].
  - rewrite !supply_put, acct_put_ne by done. cbn. lia.
  - intros a. unfold Get, moved. rewrite !acct_put. destruct (decide (ff_Address f = a)) as [<-|Hd].
    + by rewrite decide_True.
    + rewrite (decide_False (P := a = _)) by congruence. destruct (decide (ff_From f = a)) as [<-|Hs]; [by rewrite decide_True|].
      by rewrite decide_False by congruence.
  - destruct Ha as [Ha Hc Hv Hm]. split; [|done..]. intros a acc. cbn.
    rewrite !lookup_insert_Some. intros [[_ <-]|[_ [[_ <-]|[_ Hl]]]]; [| |by apply (Ha a)]; cbn.
    + unfold in_u64 in *. pose proof (u64_range (Balance dst + ff_Amount f)) as Hr. rewrite Hsum in Hr. exact Hr.
    + change (in_u64 (Balance src - ff_Amount f)). unfold in_u64 in *. lia.
Qed.

(** The state the new chain starts from, before its validators bond. *)
Lemma Genesis_of_ok l o g : amounts l.(lg_State) → sane_options o → Genesis_of l o = inl g →
  ∃ st, g.(InitialState) = Some st ∧ carried o.(Faucet) l.(lg_State) st ∧ amounts st ∧
    supply st = supply l.(lg_State) - validator_locked l.(lg_State) ∧ st.(DEXPools) = l.(lg_State).(DEXPools) ∧
    (o.(AllowSameTxChainID) = false → g.(ag_Chain).(g_TxChainID) ≠ legacyTx l) ∧
    g = mkAppGenesis (mkGenesis o.(o_ChainID) o.(o_TxChainID) ∅ ∅) o.(o_Staking) (sort_slice by_operator o.(o_Validators)) (Some st) (Root st).
Proof.
  intros Ha [_ _ Hf]. unfold Genesis_of. destruct (empty_str _); [done|]. destruct (_ =? 0); [done|]. destruct (_ && _) eqn:Hid; [done|].
  set (st0 := set_ValidatorSetSnapshot _ _). destruct (restore_settings _ st0) as [st1|] eqn:Hr; [|done].
  destruct (fund_faucet _ _ st1) as [st|] eqn:Hff; [|done]. destruct (Genesis_Validate _) as [[]|]; [|done]. intros [= <-].
  destruct (restore_settings_ok _ _ _ Hr) as (Hacc & Hst1 & Ht & Hrt & Hfo).
  assert (amounts st0) as Ha0.
  { destruct Ha as [A1 A2 A3 A4]. split; [|exact A2|by intros a r; cbn; rewrite lookup_empty|done].
    intros a acc. cbn. rewrite lookup_fmap_Some. intros (acc0 & <- & Hl). by apply (A1 a acc0). }
  assert (amounts st1) as Ha1.
  { destruct Ha0 as [A1 A2 A3 A4]. rewrite Hst1. by split. }
  assert (supply st1 = supply (lg_State l) - validator_locked (lg_State l)) as Hsup.
  { rewrite <- (supply_Clone (lg_State l)). rewrite (supply_same st0 st1) by (rewrite Hst1; reflexivity). 
    change (supply st0) with (spendable (Clone (lg_State l)) + citizen_locked (lg_State l) + msum validator_stake (∅ : gmap string ValidatorRecord)).
    change (supply (Clone (lg_State l))) with (spendable (Clone (lg_State l)) + citizen_locked (lg_State l) + validator_locked (lg_State l)).
    rewrite msum_empty. lia. }
  destruct (fund_faucet_ok _ _ _ _ Ha1 Hf Hff) as (Hst & Hs2 & Hget & Ha2).
  exists st. split; [done|]. split; [split|split_and!].
  - intros a. rewrite Hget. f_equal. unfold Get, acct. rewrite Hacc. cbn. rewrite lookup_fmap. by destruct (_ !! a).
  - rewrite Hst, Hst1. reflexivity.
  - intros Hne. rewrite Hst. by apply Ht.
  - intros Hne. rewrite Hst. by apply Hrt.
  - intros Hne. rewrite Hst. by apply Hfo.
  - done.
  - lia.
  - rewrite Hst, Hst1. done.
  - cbn. intros Hal. rewrite Hal, andb_true_r in Hid. by apply Z.eqb_neq.
  - done.
Qed.
