(* ===== verification/ExportTheorems.v ===== *)
(** Moving a node's chain to CometBFT conserves it: what the export command
    writes starts a chain that holds every account of the node it read, with
    the same coin, and holds no more but what its treasury creates. *)
From stdpp Require Import base strings list gmap.
From S2P Require Import Prelude GoStd Sha256 Types Ledger TxModel Merkle Dex DexLedger.
From S2P Require Import Staking StakingFacts Apply ApplyFacts Fees Block Chain ChainFacts.
From S2P Require Import ChainBuild ChainWindow ChainRun Comet CometFacts CometRun.
From S2P Require Import Examples CometTheorems Store StoreTheorems Export.

#[local] Open Scope string_scope.
#[local] Open Scope Z_scope.

Section export.
Context `{E : Ed25519} `{A : CometAddress}.

(** What is read from the directory of a node is its state and its height. *)
Lemma stored_legacy s gen H c d l : stored_run s gen H c d → Load_legacy (DataDir s d) = inl l →
  l.(lg_State) = Clone c.(c_State) ∧ l.(lg_Height) = chain_height c ∧ legacyTx l = transactionChainID c.
Proof.
  intros Hrun%stored_run_ok. destruct (stored_load s H c d Hrun) as (sf & Hl & Hs & Hstart & Htx). cbn [Load_legacy]. rewrite Hl. cbn [sn_file sn_Blocks].
  destruct (window_tip H c (so_window _ _ _ _ Hrun)) as (t & Ht & Hlast & _).
  assert (last (drop (Z.to_nat sf.(sf_HotWindowStart)) H) = Some t) as Hd.
  { rewrite <- Hlast, !last_lookup, lookup_drop, length_drop. f_equal. lia. }
  rewrite Hd, Hs. cbn [legacy_of]. intros [= <-]. unfold chain_height, legacyTx. cbn. rewrite Ht, Htx. split_and!; [done..|].
  unfold transactionChainID. by destruct (c_TxChainID c =? 0) eqn:Hz; [|rewrite Hz].
Qed.

(** What the command writes has passed its checks: no coin is missing. *)
Lemma exportGenesis_ok decode path o g hash l : amounts l.(lg_State) → sane_options o → Load_legacy path = inl l →
  exportGenesis decode path o = inl (g, hash) →
  Genesis_of l o = inl g ∧ Check_genesis (decode g) g = inl hash ∧ supply l.(lg_State) ≤ MAX_SUPPLY ∧ validator_locked l.(lg_State) = 0.
Proof.
  intros Ha Ho Hl. unfold exportGenesis. rewrite Hl. pose proof (Summarize_exact _ Ha) as Hb. case_bool_decide as Hmax; [|by destruct Hb as [e ->]].
  destruct Hb as (before & -> & Hbh & _). destruct (Genesis_of l o) as [g'|] eqn:Hg; [|done].
  destruct (Check_genesis _ _) as [h|] eqn:Hc; [|done]. destruct (Genesis_of_ok l o g' Ha Ho Hg) as (st & Hst & _ & Has & Hsup & _). rewrite Hst.
  pose proof (Summarize_exact st Has) as Hb. case_bool_decide as Hmax'; [|by destruct Hb as [e ->]]. destruct Hb as (after & -> & Hah & _).
  cbv zeta. destruct (_ || _) eqn:Hchk; [done|]. apply orb_false_iff in Hchk as [Hheld%negb_false_iff%Z.eqb_eq _]. intros [= <- <-].
  split_and!; [done|done|done|]. lia.
Qed.

(** The genesis is one the application is safe from. *)
Lemma exported_sane l o g : amounts l.(lg_State) → pools_ok l.(lg_State) → payable l.(lg_State) → sane_options o → supply l.(lg_State) ≤ MAX_SUPPLY →
  Genesis_of l o = inl g → genesis_sane g.
Proof.
  intros Ha Hp Hpay Ho Hmax Hg. destruct (Genesis_of_ok l o g Ha Ho Hg) as (st & _ & Hca & Hst & Hsup & Hd & _ & ->). split; cbn; [apply Ho| |].
  - split_and!; [|unfold pools_ok; by rewrite Hd|unfold payable; by rewrite (ca_records _ _ _ Hca)]. split.
    + intros a acc Hl. apply (am_accounts st Hst a acc Hl).
    + intros a x Hl. apply (am_citizens st Hst a x Hl).
    + apply (am_validators st Hst).
    + pose proof (amounts_locked _ Ha). assert (MAX_SUPPLY ≤ MaxUint64) by done. lia.
  - rewrite sort_slice_perm. apply Ho.
Qed.

End export.

(** (C12) The switch to CometBFT. A node has run from genesis with a store,
    through whatever restarts and failed writes. If the export command, given
    its directory, writes a genesis, then no coin was bonded, and the new chain
    starts with the node's state: every account with its nonce and its assets
    and (but for the funding of a faucet) its balance, every other record, and
    together the same coin. Every application that is started from it has the
    app hash that was printed; in every run of it the committed coin is at most
    the node's plus [m], the coin the treasury executions of its blocks
    created (C4); and unless the transaction chain ID was kept on purpose no transaction
    signed for it is admitted by the old chain. The amounts on the node's ledger
    are [uint64]s and the file that was written reads back. *)
Theorem migration_conserves `{E : Ed25519} `{A : CometAddress} s gen H c d decode o g appHash :
  stored_run s gen H c d → amounts c.(c_State) → pools_ok c.(c_State) → payable c.(c_State) → sane_options o → decode g = inl g →
  exportGenesis decode (DataDir s d) o = inl (g, appHash) →
  ∃ st, g.(InitialState) = Some st ∧ carried o.(Faucet) c.(c_State) st ∧ supply st = supply c.(c_State) ∧ validator_locked c.(c_State) = 0 ∧
    (∀ dir, ∃ a ups hash, InitChain (empty_app dir) o.(o_ChainID) (inl g) = (a, inl (ups, hash)) ∧ hex0x hash = appHash) ∧
    (∀ m full a disk, comet_run g m full a disk →
       ∃ s', a.(committed) = Some s' ∧ world_rel full a.(staking) s' ∧ supply s' ≤ supply c.(c_State) + m) ∧
    (o.(AllowSameTxChainID) = false → ∀ now tx c', tx.(ChainID) = g.(ag_Chain).(g_TxChainID) → transactionChainID c' = transactionChainID c →
       (SubmitTx now tx c').1 = c').
Proof.
  intros Hrun Ha Hp Hpay Ho Hdec Hexp. destruct (Load_legacy (DataDir s d)) as [l|e] eqn:Hl; [|by unfold exportGenesis in Hexp; rewrite Hl in Hexp].
  destruct (stored_legacy s gen H c d l Hrun Hl) as (Hs & _ & Htx).
  assert (amounts l.(lg_State)) as Hal by (rewrite Hs; by apply amounts_Clone).
  destruct (exportGenesis_ok _ _ _ _ _ _ Hal Ho Hl Hexp) as (Hg & Hc & Hmax & Hv).
  assert (genesis_sane g) as Hsane by (eapply exported_sane; [exact Hal|by rewrite Hs|by rewrite Hs|exact Ho|exact Hmax|exact Hg]).
  destruct (Genesis_of_ok l o g Hal Ho Hg) as (st & Hst & Hcar & _ & Hsup & _ & Hid & Heq).
  rewrite Hs, supply_Clone in *. exists st. split; [done|]. split; [by apply carried_Clone|]. split; [lia|]. split; [done|]. split_and!.
  - intros dir. rewrite Hdec in Hc. replace (o_ChainID o) with (g_ChainID (ag_Chain g)) by (by rewrite Heq). clear - Hc.
    unfold Check_genesis in Hc. change (New "" FileMissing) with (@inl App error (empty_app "")) in Hc. cbv iota beta in Hc. unfold InitChain in *.
    destruct (negb _); [done|]. destruct (genesis_world g) as [[[st' ups] hash]|]; [|done]. injection Hc as <-. by eexists _, _, _.
  - intros m full a disk Hcr. destruct (comet_run_inv g m full a disk Hsane Hcr) as [Hsk (s' & Hs' & Hinv) _ _]. exists s'. rewrite Hsk.
    split; [done|]. split; [apply Hinv|]. transitivity (genesis_coin g + m); [apply Hinv|]. unfold genesis_coin. rewrite Hst. lia.
  - intros Hal' now tx c' Htxid Hc'. specialize (Hid Hal'). destruct (SubmitTx_cases now tx c') as [[Had _]|[_ [e ->]]]; [|done].
    exfalso. apply Hid. rewrite <- Htxid, Htx, <- Hc'. apply Had.
Qed.

(** Two of the node's accounts become validators, and a faucet is funded. *)
Definition switch_options : Options :=
  mkOptions "synthos-testnet-1" 8 false comet_params
    [mkGenesisValidator bob (hex0x (key_of "v2")) 1000 "b" ""; mkGenesisValidator alice (hex0x (key_of "v1")) 4000 "a" ""] None (Some (mkFaucet "faucet" 500 alice)).

Definition switch_path : legacy_path := DataDir store0 disk1.
Definition switched : res (AppGenesis * string) := Eval vm_compute in exportGenesis inl switch_path switch_options.
Definition switch_genesis : AppGenesis := match switched with inl (g, _) => g | inr _ => comet_genesis end.
Definition switch_hash : string := match switched with inl (_, h) => h | inr _ => "" end.

Lemma switch_runs : exportGenesis inl switch_path switch_options = inl (switch_genesis, switch_hash).
Proof. vm_cast_no_check (eq_refl switched). Qed.

Definition node_chain : Chain := attach store0 disk1 finalized.1.1.

Lemma node_amounts : amounts node_chain.(c_State).
Proof.
  assert (map_Forall (λ _ acc, in_u64 acc.(Balance)) node_chain.(c_State).(Accounts)) as H by (apply (bool_decide_unpack _); vm_compute; reflexivity).
  assert (node_chain.(c_State).(CitizenStakes) = ∅) as Hc by (vm_compute; reflexivity).
  assert (node_chain.(c_State).(Validators) = ∅) as Hv by (vm_compute; reflexivity).
  split; [exact H|by intros a x; rewrite Hc, lookup_empty|by intros a x; rewrite Hv, lookup_empty|vm_compute; discriminate].
Qed.

Lemma migration_conserves_witness :
  ∃ st, switch_genesis.(InitialState) = Some st ∧ carried switch_options.(Faucet) node_chain.(c_State) st ∧ supply st = supply node_chain.(c_State).
Proof.
  assert (stored_run store0 genesis0 history1 node_chain disk1) as Hrun by exact history1_run.
  assert (pools_ok node_chain.(c_State)) as Hp by (apply pools_ok_empty; vm_compute; reflexivity).
  assert (payable node_chain.(c_State)) as Hpy by (apply (bool_decide_unpack _); vm_compute; reflexivity).
  assert (sane_options switch_options) as Ho.
  { split; [split; [split; split; vm_compute; discriminate|vm_compute; discriminate]| |].
    - repeat constructor; vm_compute; discriminate.
    - intros f [= <-]. vm_compute. discriminate. }
  destruct (migration_conserves store0 genesis0 history1 node_chain disk1 inl switch_options switch_genesis switch_hash Hrun node_amounts Hp Hpy Ho eq_refl switch_runs)
    as (st & H1 & H2 & H3 & _).
  exact (ex_intro _ st (conj H1 (conj H2 H3))).
Defined.

(** What the export does not manage: validators bonded on the old chain are
    dropped with their coin, and the command then finds that its totals
    changed. A node whose ledger has a bond cannot be moved at all. *)
Theorem bonds_block_export `{E : Ed25519} `{A : CometAddress} decode path o l :
  amounts l.(lg_State) → sane_options o → Load_legacy path = inl l → 0 < validator_locked l.(lg_State) →
  ∃ e, exportGenesis decode path o = inr e.
Proof.
  intros Ha Ho Hl Hv. destruct (exportGenesis decode path o) as [[g h]|e] eqn:He; [|by exists e].
  destruct (exportGenesis_ok decode path o g h l Ha Ho Hl He) as (_ & _ & _ & H0). lia.
Qed.

(** Nor can a faucet be funded whose account exists and is empty: it is taken
    for a new one. *)
Definition used_faucet : State := set_Accounts (<["faucet" := Account_zero]> node_chain.(c_State).(Accounts)) node_chain.(c_State).

Example empty_faucet_refused :
  exportGenesis inl (StateFile (Holds (mkStateFile "synthos-test" 7 (Some used_faucet) 0 None None)) ∅) switch_options =
  inr (Err "totals changed during export").
Proof. vm_compute. reflexivity. Qed.
