(* ===== verification/Synthosd.v ===== *)
(** The node program (cmd/synthosd/main.go): how a configuration becomes a
    validator set, how that set follows the registry's roster while the node
    runs, and the loop that produces blocks.

    The environment's variables, the files of the fleet directory, the clock,
    the answers of the registry and of peers, and the outcomes of sending and
    saving are arguments. A panic of [main] is an error of [startNode]. *)
From stdpp Require Import base strings list gmap relations.
From S2P Require Import Prelude GoStd Types Ledger TxModel Staking Block Messages Bridge.
From S2P Require Import Slashing Engine EngineFacts Chain ChainFacts ChainBuild ChainWindow.
From S2P Require Import Agent Node Rpc RpcRound RpcRoundFacts Relayer.

#[local] Open Scope string_scope.
#[local] Open Scope Z_scope.

(* ------------------------------------------------------------------ *)
(** * Configuration *)

(** The part of [NodeConfig] that decides what the node is. *)
Record NodeConfig : Type := mkNodeConfig {
  NodeID : string;
  cfg_IsValidator : bool;
  HTTPPeers : list string;
  cfg_Validators : list string;
  PeerKeys : gmap string string;
  ConsensusPeers : list string;
  TrustedValidators : list string;
  AuthEnforceFromHeight : Z;
  StateRootEnforceFromHeight : Z;
  IrregularStateCorrections : list StateCorrection;
  ValidatorStaking : ValidatorStakingParams
}.

(** The environment's variables, as they are set. *)
Record Env : Type := mkEnv {
  env_FleetDir : list (string * option (string * string * string));
  env_ConsensusToken : string;
  env_PeerTokens : gmap string string;
  env_CommunicatorToken : string;
  env_ProposeBlockToken : string;
  env_RegistryURL : string;
  env_Founder : string;
  env_Treasury : string;
  env_RewardRate : string;
  env_Bootstrap : option Z;
  env_LockSeconds : string;
  env_BlockProducer : string;
  env_BlockInterval : string;
  env_ProduceEmpty : string;
  env_Rotation : string;
  env_RoundSeconds : string
}.

(** [resolveConsensusValidators] *)
Definition resolveConsensusValidators (cfg : NodeConfig) (consensusEnabled : bool) (selfID : string) : list string :=
  let validators := if consensusEnabled then cfg.(cfg_Validators) else [] in
  match validators with
  | [] => if cfg.(cfg_IsValidator) then [selfID] else []
  | _ => validators
  end.

(** [resolveChainQuorum] *)
Definition resolveChainQuorum (trustedValidators validators : list string) (consensusEnabled : bool) (engineQuorum : Z) : list string * Z :=
  match trustedValidators with
  | [] => (validators, engineQuorum)
  | _ => (trustedValidators, if consensusEnabled then engineQuorum else 1)
  end.

(** [PublicKeyBytes] of internal/crypto, and a key of the right length. *)
Definition PublicKeyBytes (pubHex : string) : option string := hexDecode (TrimPrefix pubHex "0x").
Definition valid_key (pubHex : string) : option string :=
  match PublicKeyBytes pubHex with Some b => if slen b =? 32 then Some b else None | None => None end.

(** The loop of [buildValidatorKeySet]. *)
Fixpoint validator_keys (selfID selfPub : string) (peerKeys : gmap string string) (out : gmap string string) (ids : list string)
  : res (gmap string string) :=
  match ids with
  | [] => inl out
  | id :: ids =>
      if bool_decide (id = selfID) then validator_keys selfID selfPub peerKeys (<[id := selfPub]> out) ids
      else
        match peerKeys !! id with
        | None => inr (Err "no public key configured for validator")
        | Some hexKey =>
            match PublicKeyBytes hexKey with
            | None => inr (Err "invalid public key for validator")
            | Some pub =>
                if negb (slen pub =? 32) then inr (Err "public key for validator must be 32 bytes")
                else validator_keys selfID selfPub peerKeys (<[id := pub]> out) ids
            end
        end
  end.

(** [buildValidatorKeySet] *)
Definition buildValidatorKeySet (validators : list string) (selfID selfPub : string) (peerKeys : gmap string string) : res (gmap string string) :=
  validator_keys selfID selfPub peerKeys ∅ validators.

(* ------------------------------------------------------------------ *)
(** * The fleet of local signers *)

Record localFleetSigner : Type := mkSigner { sg_NodeID : string; sg_PrivateKey : string; sg_PublicKey : string }.

(** One directory and what its key file holds: ID, public and private key. *)
Definition load_signer (entry : string * option (string * string * string)) : option localFleetSigner :=
  match entry.2 with
  | None => None
  | Some (node_id, public_key, private_key) =>
      match hexDecode (TrimPrefix private_key "0x") with
      | None => None
      | Some priv =>
          if negb (slen priv =? 64) then None
          else
            let pub := match hexDecode (TrimPrefix public_key "0x") with
                       | Some b => if slen b =? 32 then b else sdrop 32 priv
                       | None => sdrop 32 priv
                       end in
            let id := TrimSpace node_id in
            Some (mkSigner (if empty_str id then entry.1 else id) priv pub)
      end
  end.

Definition by_signer (a b : localFleetSigner) : bool := str_lt a.(sg_NodeID) b.(sg_NodeID).

(** [loadLocalFleetSigners], in the order [ReadDir] lists the directory. *)
Definition loadLocalFleetSigners (dir : list (string * option (string * string * string))) : list localFleetSigner :=
  sort_slice by_signer (omap load_signer dir).

(** The node's own key is one of the signers. *)
Definition include_self (selfID : string) (k : KeyPair) (signers : list localFleetSigner) : list localFleetSigner :=
  if existsb (λ fs, bool_decide (fs.(sg_NodeID) = selfID)) signers || negb (slen k.(Private) =? 64) then signers
  else mkSigner selfID k.(Private) k.(Public) :: signers.

(** Every signer is a validator. *)
Definition add_missing (validators : list string) (fs : localFleetSigner) : list string :=
  if bool_decide (fs.(sg_NodeID) ∈ validators) then validators else (validators ++ [fs.(sg_NodeID)])%list.

(* ------------------------------------------------------------------ *)
(** * Starting *)

(** [metadataString] *)
Definition metadataString (meta : gmap string any) (key : string) : string :=
  match meta !! key with Some (AStr s) => TrimSpace s | _ => "" end.

Definition on_state (f : State → State) (n : Node) : Node := set_n_Chain (set_State (f n.(n_Chain).(c_State)) n.(n_Chain)) n.

(** [initGovernance] *)
Definition initGovernance (env : Env) (gen : Genesis) (n : Node) : Node :=
  let founder := TrimSpace env.(env_Founder) in
  let founder := if empty_str founder then metadataString gen.(g_Metadata) "founder_address" else founder in
  if empty_str founder then n
  else
    let treasury := TrimSpace env.(env_Treasury) in
    let treasury := if empty_str treasury then metadataString gen.(g_Metadata) "treasury_address" else treasury in
    let n := InitGovernance founder treasury n in
    let n := if negb (empty_str treasury) && negb (empty_str env.(env_Treasury)) then on_state (set_TreasuryAddress treasury) n else n in
    let rateRaw := TrimSpace env.(env_RewardRate) in
    if empty_str rateRaw then n
    else match ParseUint rateRaw with (rate, None) => on_state (set_CitizenRewardRateBpsPerYear rate) n | _ => n end.

(** [bootstrapImmuneNode]: [env_Bootstrap] is the clock if it is switched on.
    The save is the caller's. *)
Definition bootstrapImmuneNode (cfg : NodeConfig) (env : Env) (pub : string) (n : Node) : Node :=
  match env.(env_Bootstrap) with
  | Some now =>
      if cfg.(cfg_IsValidator) then
        let hw := n.(n_Agent).(ag_Identity).(HardwareID) in
        let hw := if empty_str hw then "synthos-hw-" +:+ cfg.(NodeID) else hw in
        on_state (λ s, (EnsureImmuneNode (AddressFromPublicKey pub) hw now s).1) n
      else n
  | None => n
  end.

(** [AddPeer] for every key of the configuration; the first bad one is a
    panic. *)
Fixpoint add_peers (peers : list (string * string)) (n : Node) : Node * res unit :=
  match peers with
  | [] => (n, inl tt)
  | (id, key) :: peers =>
      match AddPeer id key n with
      | (n, inr _) => (n, inr (Panic "bad peer key"))
      | (n, inl _) => add_peers peers n
      end
  end.

(** What [startValidatorRosterSync] is given: the configuration's baseline. *)
Record Baseline : Type := mkBaseline {
  bl_selfID : string;
  staticChainValidators : list string;
  staticChainKeys : gmap string string;
  staticEngineValidators : list string;
  staticConsensusPeerURLs : list string
}.

(** The validator set a node starts with: for its chain (IDs, keys, quorum)
    and its engine. *)
Definition startup_keys (cfg : NodeConfig) (consensusEnabled : bool) (selfID : string) (k : KeyPair) (signers : list localFleetSigner)
    (validators : list string) (engineQuorum : Z) : res (list string * gmap string string * Z) :=
  let '(chainValidators, chainQuorum) := resolveChainQuorum cfg.(TrustedValidators) validators consensusEnabled engineQuorum in
  match buildValidatorKeySet chainValidators selfID k.(Public) cfg.(PeerKeys) with
  | inr e => inr e
  | inl keys =>
      let keys := foldl (λ m fs, <[fs.(sg_NodeID) := fs.(sg_PublicKey)]> m) keys signers in
      let chainQuorum := if (2 <=? length signers)%nat then Z.max 1 ((2 * Z.of_nat (size keys) + 2) / 3) else chainQuorum in
      inl (chainValidators, keys, chainQuorum)
  end.

(** What [main] makes of the chain's own rules once its roster is set. *)
Definition chain_rules (cfg : NodeConfig) (c : Chain) : res Chain :=
  let c := if 0 <? cfg.(StateRootEnforceFromHeight) then SetStateRootEnforceFromHeight cfg.(StateRootEnforceFromHeight) c else c in
  let c := match cfg.(IrregularStateCorrections) with [] => c | l => SetIrregularStateCorrections l c end in
  match Staking.Validate cfg.(ValidatorStaking) with
  | inr e => inr e
  | inl _ =>
      if negb (cfg.(ValidatorStaking).(ConsensusFromHeight) =? 0) then inr (Panic "validator_staking.consensus_from_height is not supported yet")
      else inl (SetValidatorStakingParams cfg.(ValidatorStaking) c)
  end.

(** The vote lock's timeout. *)
Definition lock_timeout (env : Env) (n : Node) : Node :=
  match Atoi (TrimSpace env.(env_LockSeconds)) with
  | Some secs => if 0 <? secs then set_timeout (i64 (secs * second)) n else n
  | None => n
  end.

(** The server in front of the node. *)
Definition node_server (cfg : NodeConfig) (env : Env) (n : Node) : Server :=
  let s := SetConsensusPeerURLs cfg.(ConsensusPeers) (SetPeerURLs cfg.(HTTPPeers) (NewServer (WithNode n) true)) in
  mkServer s.(backend) true s.(PeerURLs) s.(ConsensusPeerURLs) s.(MailboxRelayPeers) (trim_right_slash env.(env_RegistryURL))
    (TrimSpace env.(env_CommunicatorToken)) (TrimSpace env.(env_ProposeBlockToken)) (TrimSpace env.(env_ConsensusToken)) env.(env_PeerTokens).

(** [main], from the opened chain to the server: the node, its baseline and
    its signers. *)
Definition startNode (cfg : NodeConfig) (env : Env) (gen : Genesis) (a : Agent) (k : KeyPair) (c : Chain)
  : res (Server * Baseline * list localFleetSigner) :=
  let selfID := a.(ag_Identity).(AgentID) in
  let consensusEnabled := negb (empty_str (TrimSpace env.(env_ConsensusToken))) in
  let signers := include_self selfID k (loadLocalFleetSigners env.(env_FleetDir)) in
  let validators := foldl add_missing (resolveConsensusValidators cfg consensusEnabled selfID) signers in
  let total := match validators with [] => 1 | _ => Z.of_nat (length validators) end in
  let n := NewNode a c (NewEngine total) in
  let n := initGovernance env gen (bootstrapImmuneNode cfg env k.(Public) n) in
  let n := match validators with [] => n | _ => node_SetValidators validators n end in
  match add_peers (map_to_list cfg.(PeerKeys)) n with
  | (_, inr e) => inr e
  | (n, inl _) =>
      let n := foldl (λ n fs, (AddPeer fs.(sg_NodeID) (hexEncode fs.(sg_PublicKey)) n).1) n signers in
      match match validators with
            | [] => inl ([], ∅, n.(n_Chain))
            | _ =>
                match startup_keys cfg consensusEnabled selfID k signers validators (requiredForFinality n.(n_Engine)) with
                | inr e => inr e
                | inl (ids, keys, quorum) =>
                    let c := SetValidatorSet keys quorum n.(n_Chain) in
                    inl (ids, keys, if 0 <? cfg.(AuthEnforceFromHeight) then SetAuthEnforceFromHeight cfg.(AuthEnforceFromHeight) c else c)
                end
            end with
      | inr e => inr e
      | inl (ids, keys, c) =>
          match chain_rules cfg c with
          | inr e => inr e
          | inl c =>
              inl (node_server cfg env (lock_timeout env (set_n_Chain c n)), mkBaseline selfID ids keys validators cfg.(ConsensusPeers), signers)
          end
      end
  end.

(* ------------------------------------------------------------------ *)
(** * Following the registry's roster *)

Record rosterEntry : Type := mkRoster { re_NodeID : string; re_PublicKey : string; re_PublicURL : string; re_Reachable : bool }.

(** Appending what is not there yet. *)
Definition add_new (l : list string) (x : string) : list string := if bool_decide (x ∈ l) then l else (l ++ [x])%list.

(** An entry that counts: its ID and its key. *)
Definition roster_entry (selfID : string) (entry : rosterEntry) : option (string * string) :=
  let id := TrimSpace entry.(re_NodeID) in
  if empty_str id || bool_decide (id = selfID) then None
  else match valid_key entry.(re_PublicKey) with Some pub => Some (id, pub) | None => None end.

Definition reachable (entry : rosterEntry) : bool := entry.(re_Reachable) && negb (empty_str (TrimSpace entry.(re_PublicURL))).

(** The loop of [mergeValidatorRoster] over the roster. *)
Definition merge_entry (selfID : string) (acc : list string * gmap string string * list string) (entry : rosterEntry)
  : list string * gmap string string * list string :=
  let '(validators, keys, urls) := acc in
  match roster_entry selfID entry with
  | None => acc
  | Some (id, pub) =>
      (add_new validators id, <[id := pub]> keys, if reachable entry then add_new urls (TrimSpace entry.(re_PublicURL)) else urls)
  end.

(** [mergeValidatorRoster] *)
Definition mergeValidatorRoster (staticValidators : list string) (staticKeys : gmap string string) (staticConsensusPeerURLs : list string)
    (selfID : string) (roster : list rosterEntry) : list string * gmap string string * list string :=
  let '(validators, keys, urls) :=
    foldl (merge_entry selfID) (foldl add_new [] staticValidators, staticKeys, foldl add_new [] staticConsensusPeerURLs) roster in
  (sort_slice str_lt validators, keys, sort_slice str_lt urls).

(** [mailboxRelayPeersFromRoster] *)
Definition mailboxRelayPeersFromRoster (roster : list rosterEntry) (selfID : string) : list string :=
  sort_slice str_lt (omap (λ entry, match roster_entry selfID entry with
                                    | Some (id, _) => if reachable entry then None else Some id
                                    | None => None
                                    end) roster).

(** One round of the loop of [startValidatorRosterSync], on a server with a
    node. A failed fetch changes nothing. *)
Definition roster_tick (bl : Baseline) (fetched : res (list rosterEntry)) (s : Server) : Server :=
  match fetched, s_Node s with
  | inl roster, Some n =>
      let '(_, chainKeys, urls) := mergeValidatorRoster bl.(staticChainValidators) bl.(staticChainKeys) bl.(staticConsensusPeerURLs) bl.(bl_selfID) roster in
      let '(engineValidators, _, _) := mergeValidatorRoster bl.(staticEngineValidators) ∅ [] bl.(bl_selfID) roster in
      let n := foldl (λ n kv, if bool_decide (kv.1 = bl.(bl_selfID)) then n else (AddPeer kv.1 (hexEncode kv.2) n).1) n (map_to_list chainKeys) in
      let n := node_SetValidators engineValidators n in
      let quorum := requiredForFinality n.(n_Engine) in
      let n := set_n_Chain (SetValidatorSet chainKeys quorum n.(n_Chain)) n in
      SetMailboxRelayPeers (mailboxRelayPeersFromRoster roster bl.(bl_selfID)) (SetConsensusPeerURLs urls (set_s_Node n s))
  | _, _ => s
  end.

(** [startValidatorRosterSync]: what it does over time; it is off unless
    consensus is enabled and there is a registry. *)
Definition startValidatorRosterSync (bl : Baseline) (registryURL : string) (consensusEnabled : bool) (fetches : list (res (list rosterEntry)))
    (s : Server) : Server :=
  if negb consensusEnabled || empty_str registryURL then s else foldl (λ s f, roster_tick bl f s) s fetches.

(* ------------------------------------------------------------------ *)
(** * Producing blocks *)

(** [consensusRoundTimeout] *)
Definition consensusRoundTimeout (interval : Z) : Z := Z.min (Z.max (Z.quot interval 2) (2 * second)) (8 * second).

(** What [startBlockProducer] decides once, when it starts. *)
Record Producer : Type := mkProducer {
  pd_selfID : string;
  pd_interval : Z;
  pd_produceEmpty : bool;
  pd_realConsensus : bool;
  pd_rotation : list string;
  pd_rotationEnabled : bool;
  pd_roundInterval : Z;
  pd_signers : list localFleetSigner
}.

(** A positive number of seconds, or the default. *)
Definition seconds_or (raw : string) (default : Z) : Z :=
  if empty_str raw then default
  else match Atoi raw with Some secs => if 0 <? secs then i64 (secs * second) else default | None => default end.

Definition startBlockProducer (env : Env) (s : Server) (selfID : string) (rotation : list string) (signers : list localFleetSigner) : option Producer :=
  if negb (bool_decide (env.(env_BlockProducer) = "true")) then None
  else
    let interval := seconds_or env.(env_BlockInterval) (10 * second) in
    Some (mkProducer selfID interval (bool_decide (env.(env_ProduceEmpty) = "true"))
      (negb (bool_decide (s.(ConsensusPeerURLs) = [])) && negb (empty_str s.(ConsensusToken)))
      rotation (bool_decide (env.(env_Rotation) = "true") && (1 <? length rotation)%nat)
      (seconds_or env.(env_RoundSeconds) (i64 (3 * interval))) signers).

(** The height last seen, and since when. *)
Record Schedule : Type := mkSchedule { lastHeight : Z; lastHeightAt : Time }.

(** [isMyTurn] *)
Definition isMyTurn (p : Producer) (now : Time) (height : Z) (sch : Schedule) : Schedule * (bool * Z * string * Z) :=
  let sch := if height =? sch.(lastHeight) then sch else mkSchedule height now in
  (sch, ShouldPropose p.(pd_selfID) p.(pd_rotation) height (now.(instant) - sch.(lastHeightAt).(instant)) p.(pd_roundInterval)).

(** What a tick meets. *)
Record Tick : Type := mkTick {
  tk_now : Time;
  tk_round : Round;
  tk_out : Outgoing;
  tk_build : Time;
  tk_votes : nat → Time;
  tk_final : Time
}.

(** What a tick comes to. *)
Inductive outcome : Type :=
  | Waits
  | Nothing
  | Round_failed (e : error)
  | No_quorum (hash : string)
  | Finalized_round (hash : string)
  | Fleet_failed (e : error)
  | Fleet_block (b : Block)
  | Alone (r : res string).

Section with_ed25519.
Context `{E : Ed25519}.

(** Every signer approves the block, and the engine is told: [HandleVote] is
    [OnVote] with the punishments it calls for, its answer not read. *)
Definition fleet_signature (b : Block) (fs : localFleetSigner) : string := hex0x (ed_Sign fs.(sg_PrivateKey) (QuorumApprovalMessage b)).

Fixpoint fleet_votes (now : nat → Time) (i : nat) (b : Block) (h : Z) (signers : list localFleetSigner) (n : Node) : Node :=
  match signers with
  | [] => n
  | fs :: signers =>
      let n := (HandleVote (now i) (mkVote b.(Hash) h 0 "" fs.(sg_NodeID) 1 (fleet_signature b fs)) n).1 in
      fleet_votes now (S i) b h signers n
  end.

(** The branch of a fleet: build, sign for the proposer whose turn it is,
    approve for everybody, finalize. *)
Definition fleet_tick (w : Tick) (signers : list localFleetSigner) (s : Server) (n : Node) : Server * list Effect * outcome :=
  let h := u64 (chain_height n.(n_Chain) + 1) in
  let idx := u64 (h - 1) mod Z.of_nat (length signers) in
  match signers !! Z.to_nat idx with
  | None => (s, [], Fleet_failed (Panic "index out of range"))
  | Some proposer =>
      match BuildBlock w.(tk_build) proposer.(sg_NodeID) (ProofRoot n.(n_Agent)) 1000 n.(n_Chain) with
      | inr e => (s, [], Fleet_failed e)
      | inl b =>
          let b := sign_proposal (hex0x (ed_Sign proposer.(sg_PrivateKey) b.(Hash))) b in
          let b := set_QuorumSignatures (foldl (λ m fs, <[fs.(sg_NodeID) := fleet_signature b fs]> m) ∅ signers) b in
          let n := fleet_votes w.(tk_votes) 0 b h signers n in
          match FinalizeBlock w.(tk_final) n.(n_Chain) b with
          | (_, _, inr e) => (set_s_Node n s, [], Fleet_failed e)
          | (c, b, inl _) =>
              let s := set_s_Node (node_RefreshReputation (set_n_Chain c n)).1 s in
              (s, (save s ++ pushBlockToPeers (Some b) s)%list, Fleet_block b)
          end
      end
  end.

(** What a tick does once it is the node's turn. *)
Definition produce (p : Producer) (w : Tick) (s : Server) (n : Node) : Server * list Effect * outcome :=
  if negb p.(pd_produceEmpty) && bool_decide (size n.(n_Chain).(Mempool) = 0%nat) then (s, [], Nothing)
  else if p.(pd_realConsensus) then
    match ProposeBlockWithConsensus w.(tk_round) s with
    | (s, out, (_, _, Some e)) => (s, out, Round_failed e)
    | (s, out, (hash, false, None)) => (s, out, No_quorum hash)
    | (s, out, (hash, true, None)) => (s, out, Finalized_round hash)
    end
  else if (2 <=? length p.(pd_signers))%nat then fleet_tick w p.(pd_signers) s n
  else let '(n, r) := ProposeBlockHash w.(tk_out) n in (set_s_Node n s, [], Alone r).

(** One tick of the loop of [startBlockProducer]. *)
Definition tick (p : Producer) (w : Tick) (sch : Schedule) (s : Server) : Schedule * Server * list Effect * outcome :=
  match s_Node s with
  | None => (sch, s, [], Nothing)
  | Some n =>
      if (length p.(pd_signers) <? 2)%nat && p.(pd_rotationEnabled) then
        match isMyTurn p w.(tk_now) (chain_height n.(n_Chain)) sch with
        | (sch, (true, _, _, _)) => let '(s, out, r) := produce p w s n in (sch, s, out, r)
        | (sch, (false, _, expected, round)) =>
            if 0 <? round then (sch, set_s_Node (node_NoteMissedSlot w.(tk_now) expected n) s, [], Waits) else (sch, s, [], Waits)
        end
      else let '(s, out, r) := produce p w s n in (sch, s, out, r)
  end.

(** The loop: what each tick comes to. *)
Fixpoint ticks (p : Producer) (ws : list Tick) (sch : Schedule) (s : Server) : list outcome :=
  match ws with
  | [] => []
  | w :: ws => let '(sch, s, _, r) := tick p w sch s in r :: ticks p ws sch s
  end.

End with_ed25519.

(* ------------------------------------------------------------------ *)
(** * Facts: merging a roster *)

Lemma elem_add_new l x y : y ∈ add_new l x ↔ y ∈ l ∨ y = x.
Proof. unfold add_new. case_bool_decide; [naive_solver|]. rewrite elem_of_app, list_elem_of_singleton. done. Qed.

Lemma NoDup_add_new l x : NoDup l → NoDup (add_new l x).
Proof.
  intros Hl. unfold add_new. case_bool_decide; [done|]. apply NoDup_app. split; [done|]. split; [|apply NoDup_singleton].
  by intros y Hy ->%list_elem_of_singleton.
Qed.

Lemma elem_fold_add_new acc l y : y ∈ foldl add_new acc l ↔ y ∈ acc ∨ y ∈ l.
Proof.
  revert acc. induction l as [|x l IH]; intros acc; cbn [foldl]; [rewrite elem_of_nil; naive_solver|].
  rewrite IH, elem_add_new, elem_of_cons. naive_solver.
Qed.

Lemma NoDup_fold_add_new acc l : NoDup acc → NoDup (foldl add_new acc l).
Proof. revert acc. induction l as [|x l IH]; intros acc Hacc; [done|]. by apply IH, NoDup_add_new. Qed.

(** The key the roster gives an ID: that of the last valid entry. *)
Definition listed_from (o : option string) (roster : list rosterEntry) (id : string) : option string :=
  foldl (λ o e, match roster_entry "" e with Some (i, k) => if decide (i = id) then Some k else o | None => o end) o roster.
Definition listed (roster : list rosterEntry) (id : string) : option string := listed_from None roster id.

Lemma listed_from_or o roster id : listed_from o roster id = match listed roster id with Some k => Some k | None => o end.
Proof.
  unfold listed. revert o. induction roster as [|e roster IH]; intros o; [done|]. unfold listed_from in *. cbn [foldl].
  rewrite IH. symmetry. rewrite IH. destruct (foldl _ None roster); [done|]. destruct (roster_entry "" e) as [[i k]|]; [|done]. by case_decide.
Qed.

Lemma roster_entry_self self e : self ≠ "" →
  roster_entry self e = match roster_entry "" e with Some (id, k) => if decide (id = self) then None else Some (id, k) | None => None end.
Proof.
  intros Hs. unfold roster_entry, empty_str. destruct (bool_decide_reflect (TrimSpace (re_NodeID e) = "")) as [He|He]; [done|]. cbn [orb].
  replace (bool_decide (TrimSpace (re_NodeID e) = "")) with false by (by rewrite bool_decide_eq_false_2). cbn [orb].
  destruct (valid_key _) as [k|], (decide (TrimSpace (re_NodeID e) = self)) as [Hx|Hx];
    [by rewrite bool_decide_eq_true_2|by rewrite bool_decide_eq_false_2|by destruct (bool_decide _)..].
Qed.

(** A listed ID is not empty. *)
Lemma listed_nonempty roster id k : listed roster id = Some k → id ≠ "".
Proof.
  unfold listed, listed_from. assert (∀ o, (∀ k, o = Some k → id ≠ "") → ∀ k,
    foldl (λ o e, match roster_entry "" e with Some (i, k) => if decide (i = id) then Some k else o | None => o end) o roster = Some k → id ≠ "") as Hg.
  { induction roster as [|e roster IH]; intros o Ho; [done|]. cbn [foldl]. apply IH. unfold roster_entry, empty_str.
    destruct (bool_decide_reflect (TrimSpace (re_NodeID e) = "")) as [He|He]; [by apply Ho|]. cbn [orb].
    destruct (valid_key _) as [k'|]; [|by apply Ho]. destruct (decide (TrimSpace (re_NodeID e) = id)); [intros; by subst id|by apply Ho]. }
  by apply Hg.
Qed.

(** A listed ID is that of an entry. *)
Lemma listed_in roster id k : listed roster id = Some k → id ∈ (λ e, TrimSpace e.(re_NodeID)) <$> roster.
Proof.
  assert (∀ o, o = None ∨ id ∈ (λ e, TrimSpace e.(re_NodeID)) <$> roster → is_Some (listed_from o roster id) →
    id ∈ (λ e, TrimSpace e.(re_NodeID)) <$> roster) as Hg; [|intros Hl; by apply (Hg None); [left|exists k]].
  induction roster as [|e roster IH]; intros o Ho; [intros [k' Hk]; cbn in Hk; subst o; naive_solver|].
  unfold listed_from. cbn [foldl]. rewrite fmap_cons, elem_of_cons in *. intros Hs.
  destruct (decide (id = TrimSpace e.(re_NodeID))) as [|Hne]; [by left|]. right. apply (IH o); [naive_solver|].
  unfold roster_entry in Hs. destruct (_ || _); [done|]. destruct (valid_key _); [|done]. by rewrite decide_False in Hs.
Qed.

Definition merged_key (self : string) (static : gmap string string) (roster : list rosterEntry) (id : string) : option string :=
  if decide (id = self) then static !! id else match listed roster id with Some k => Some k | None => static !! id end.

Section merge.
Context (self : string) (Hself : self ≠ "").

Lemma merge_fold roster vs keys urls vs' keys' urls' :
  foldl (merge_entry self) (vs, keys, urls) roster = (vs', keys', urls') →
  (∀ id, keys' !! id = merged_key self keys roster id) ∧
  (∀ id, id ∈ vs' ↔ id ∈ vs ∨ id ≠ self ∧ is_Some (listed roster id)) ∧ (NoDup vs → NoDup vs').
Proof.
  revert vs keys urls. induction roster as [|e roster IH]; intros vs keys urls; cbn [foldl].
  - intros [= <- <- <-]. unfold merged_key, listed, listed_from. cbn. split_and!; [intros id; by case_decide| |done].
    intros id. split; [by left|]. by intros [|[_ []]].
  - unfold merge_entry at 2. rewrite (roster_entry_self self e Hself). unfold merged_key, listed, listed_from. cbn [foldl].
    destruct (roster_entry "" e) as [[i k]|] eqn:He; [|apply IH].
    case_decide as Hi; [subst i|].
    + intros Hf. destruct (IH _ _ _ Hf) as (Hk & Hv & Hn). split_and!; [| |done]; intros id; [rewrite Hk|rewrite Hv].
      * unfold merged_key, listed. by repeat case_decide.
      * fold (listed_from (if decide (self = id) then Some k else None) roster id). rewrite listed_from_or.
        destruct (decide (self = id)) as [->|]; [naive_solver|]. by destruct (listed roster id).
    + intros Hf. destruct (IH _ _ _ Hf) as (Hk & Hv & Hn). split_and!.
      * intros id. rewrite Hk. unfold merged_key. fold (listed_from (if decide (i = id) then Some k else None) roster id). rewrite listed_from_or.
        destruct (decide (id = self)); [by rewrite lookup_insert_ne by congruence|].
        destruct (listed roster id); [done|]. destruct (decide (i = id)) as [->|]; [by rewrite lookup_insert_eq|by rewrite lookup_insert_ne].
      * intros id. rewrite Hv, elem_add_new. fold (listed_from (if decide (i = id) then Some k else None) roster id). rewrite listed_from_or.
        destruct (listed roster id) eqn:Hl; [naive_solver|]. destruct (decide (i = id)) as [->|]; naive_solver.
      * intros Hnd. by apply Hn, NoDup_add_new.
Qed.

(** What [mergeValidatorRoster] gives: the static validators and the listed
    ones, each once; of a listed one the listed key. *)
Lemma merge_spec sv sk su roster vs keys urls : mergeValidatorRoster sv sk su self roster = (vs, keys, urls) →
  (∀ id, keys !! id = merged_key self sk roster id) ∧ (∀ id, id ∈ vs ↔ id ∈ sv ∨ id ≠ self ∧ is_Some (listed roster id)) ∧ NoDup vs.
Proof.
  unfold mergeValidatorRoster. destruct (foldl (merge_entry self) _ roster) as [[v k] u] eqn:Hf. intros [= <- <- <-].
  destruct (merge_fold _ _ _ _ _ _ _ Hf) as (Hk & Hv & Hn). split_and!; [done| |].
  - intros id. rewrite sort_slice_perm, Hv, elem_fold_add_new, elem_of_nil. naive_solver.
  - rewrite sort_slice_perm. apply Hn, NoDup_fold_add_new, NoDup_nil_2.
Qed.

(** Their number is bounded by the input's. *)
Lemma merge_length sv sk su roster vs keys urls : mergeValidatorRoster sv sk su self roster = (vs, keys, urls) →
  (length vs ≤ length sv + length roster)%nat.
Proof.
  intros (_ & Hv & Hn)%merge_spec. rewrite <- (length_fmap (λ e, TrimSpace e.(re_NodeID)) roster), <- length_app.
  apply submseteq_length, NoDup_submseteq; [done|]. intros id [Hin|[_ [k Hl]]]%Hv; apply elem_of_app; [by left|right].
  by apply listed_in in Hl.
Qed.
End merge.

(** Two thirds of [n] validators, rounded up. *)
Definition quorum_of (n : Z) : Z := Z.max 1 ((2 * n + 2) / 3).

Lemma requiredForFinality_of e : 0 ≤ e.(totalValidators) < 2 ^ 60 → requiredForFinality e = quorum_of e.(totalValidators).
Proof.
  intros Hn. unfold requiredForFinality, quorum_of. destruct (Z.leb_spec e.(totalValidators) 0) as [Hle|Hgt].
  - assert (e.(totalValidators) = 0) as -> by lia. done.
  - rewrite i64_small by lia. rewrite Z.quot_div_nonneg by lia. destruct (Z.ltb_spec ((2 * totalValidators e + 2) / 3) 1); lia.
Qed.

Lemma quorum_third n : 0 ≤ n → n ≤ 3 * (2 * quorum_of n - n).
Proof. intros Hn. unfold quorum_of. pose proof (Z.div_mod (2 * n + 2) 3 ltac:(lia)). pose proof (Z.mod_pos_bound (2 * n + 2) 3 ltac:(lia)). lia. Qed.

(** The engine's roster after [SetValidators]. *)
Lemma node_roster ids n : "" ∉ ids → NoDup ids → Z.of_nat (length ids) < 2 ^ 60 →
  requiredForFinality (node_SetValidators ids n).(n_Engine) = quorum_of (Z.of_nat (length ids)) ∧
  (node_SetValidators ids n).(n_Engine).(validators) = list_to_set ids ∧
  (node_SetValidators ids n).(n_Validators) = list_to_set ids.
Proof.
  intros He Hn Hl. assert (filter (λ id, id ≠ "") ids = ids) as Hf.
  { clear - He. induction ids as [|x ids IH]; [done|]. apply not_elem_of_cons in He as [? ?]. rewrite filter_cons_True by done. by rewrite IH. }
  assert (size (list_to_set ids : gset string) = length ids) as Hs by by apply size_list_to_set.
  unfold node_SetValidators, SetValidators. cbn. rewrite Hf. split_and!; [|done|done]. rewrite requiredForFinality_of; cbn; rewrite Hs; [done|lia].
Qed.

(* ------------------------------------------------------------------ *)
(** * Facts: what a tick sets *)

(** A server whose node has other peers. *)
Definition with_peers (p : gmap string string) (s : Server) : Server :=
  match s_Node s with Some n => set_s_Node (set_Peers p n) s | None => s end.

(** Registering peers changes nothing but the keys of peers, and forgets
    none. *)
Lemma add_peers_only {A} (f : Node → A → Node) l n :
  (∀ n x, ∃ p, f n x = set_Peers p n ∧ dom n.(Peers) ⊆ dom p) → ∃ p, foldl f n l = set_Peers p n ∧ dom n.(Peers) ⊆ dom p.
Proof.
  intros Hf. revert n. induction l as [|x l IH]; intros n; cbn [foldl]; [exists n.(Peers); by destruct n|].
  destruct (Hf n x) as (p' & -> & Hp'), (IH (set_Peers p' n)) as (p & -> & Hp). exists p. split; [done|]. by etrans.
Qed.

Lemma AddPeer_only id key n : ∃ p, (AddPeer id key n).1 = set_Peers p n ∧ dom n.(Peers) ⊆ dom p.
Proof.
  unfold AddPeer. destruct (hexToBytes key) as [b|]; [|exists n.(Peers); by destruct n]. exists (<[id:=b]> n.(Peers)). split; [done|]. set_solver.
Qed.

(** The roster a tick installs: keys and URLs, and the engine's validators. *)
Definition target (bl : Baseline) (roster : list rosterEntry) : gmap string string * list string * list string :=
  let '(_, keys, urls) := mergeValidatorRoster bl.(staticChainValidators) bl.(staticChainKeys) bl.(staticConsensusPeerURLs) bl.(bl_selfID) roster in
  let '(ids, _, _) := mergeValidatorRoster bl.(staticEngineValidators) ∅ [] bl.(bl_selfID) roster in
  (keys, urls, ids).

(** A server on which that roster is installed, its peers left alone. *)
Definition install (bl : Baseline) (roster : list rosterEntry) (s : Server) : Server :=
  match s_Node s with
  | Some n =>
      let '(keys, urls, ids) := target bl roster in
      let n := node_SetValidators ids n in
      SetMailboxRelayPeers (mailboxRelayPeersFromRoster roster bl.(bl_selfID))
        (SetConsensusPeerURLs urls (set_s_Node (set_n_Chain (SetValidatorSet keys (requiredForFinality n.(n_Engine)) n.(n_Chain)) n) s))
  | None => s
  end.

Lemma roster_tick_install bl roster s n : s_Node s = Some n →
  ∃ p, roster_tick bl (inl roster) s = with_peers p (install bl roster s) ∧ dom n.(Peers) ⊆ dom p.
Proof.
  intros Hs. unfold roster_tick, install, target. rewrite Hs.
  destruct (mergeValidatorRoster _ _ _ _ _) as [[vs keys] urls]. destruct (mergeValidatorRoster _ _ _ _ _) as [[ids ?] ?].
  destruct (add_peers_only (λ n kv, if bool_decide (kv.1 = bl.(bl_selfID)) then n else (AddPeer kv.1 (hexEncode kv.2) n).1) (map_to_list keys) n) as (p & -> & Hp).
  { intros m kv. destruct (bool_decide _); [exists m.(Peers); by destruct m|apply AddPeer_only]. }
  exists p. split; [|done]. destruct s, n. cbn in Hs. destruct backend as [|m]; [done|]. by injection Hs as ->.
Qed.

Lemma install_install bl roster roster' p s n : s_Node s = Some n →
  install bl roster (with_peers p (install bl roster' s)) = with_peers p (install bl roster s).
Proof.
  intros Hs. unfold install. rewrite Hs. destruct (target bl roster) as [[keys urls] ids], (target bl roster') as [[keys' urls'] ids'].
  destruct s as [[|m]]; [done|]. cbn in Hs. injection Hs as ->. by destruct n.
Qed.

Lemma with_peers_peers p q s : with_peers p (with_peers q s) = with_peers p s.
Proof. destruct s as [[c|n]]; [done|]. by destruct n. Qed.

Lemma s_Node_install bl roster p s n : s_Node s = Some n → ∃ n', s_Node (with_peers p (install bl roster s)) = Some n' ∧ n'.(Peers) = p.
Proof.
  intros Hs. unfold install. rewrite Hs. destruct (target bl roster) as [[keys urls] ids]. eexists. split; [done|]. done.
Qed.

(** Whatever was installed before, and however many fetches fail afterwards. *)
Lemma synced_install bl before roster after s n : s_Node s = Some n → Forall (λ f, ∃ e, f = inr e) after →
  ∃ p, foldl (λ s f, roster_tick bl f s) s (before ++ inl roster :: after)%list = with_peers p (install bl roster s) ∧ dom n.(Peers) ⊆ dom p.
Proof.
  intros Hs Ha. rewrite foldl_app. cbn [foldl].
  assert (∀ s, foldl (λ s f, roster_tick bl f s) s after = s) as ->.
  { induction Ha as [|f after [e ->] _ IH]; intros s'; [done|]. exact (IH s'). }
  revert s n Hs. induction before as [|[r|e] before IH]; intros s n Hs; cbn [foldl]; [by apply roster_tick_install| |by apply IH].
  destruct (roster_tick_install bl r s n Hs) as (p & -> & Hp). destruct (s_Node_install bl r p s n Hs) as (n' & Hn' & <-).
  destruct (IH _ _ Hn') as (q & -> & Hq). exists q. split; [|set_solver]. by rewrite (install_install _ _ _ _ _ _ Hs), with_peers_peers.
Qed.

(* ------------------------------------------------------------------ *)
(** * Facts: starting *)

Lemma validator_keys_spec self pub pk ids out m : validator_keys self pub pk out ids = inl m →
  ∀ id, m !! id = if decide (id ∈ ids) then (if decide (id = self) then Some pub else pk !! id ≫= valid_key) else out !! id.
Proof.
  revert out. induction ids as [|x ids IH]; intros out; cbn [validator_keys]; [by intros [= ->]|].
  destruct (bool_decide_reflect (x = self)) as [->|Hx].
  - intros Hm id. rewrite (IH _ Hm id). destruct (decide (id ∈ self :: ids)) as [[->|Hin]%elem_of_cons|[Hn Hi]%not_elem_of_cons].
    + rewrite (decide_True (P:=self=self)) by done. destruct (decide (self ∈ ids)); [done|apply lookup_insert_eq].
    + by rewrite (decide_True (P:=id ∈ ids)).
    + rewrite decide_False by done. by rewrite lookup_insert_ne.
  - destruct (pk !! x) as [hexKey|] eqn:Hk; [|done]. destruct (PublicKeyBytes hexKey) as [b|] eqn:Hb; [|done].
    destruct (slen b =? 32) eqn:Hl; [cbn [negb]|done]. intros Hm id. rewrite (IH _ Hm id).
    destruct (decide (id ∈ x :: ids)) as [[->|Hin]%elem_of_cons|[Hn Hi]%not_elem_of_cons].
    + rewrite (decide_False (P:=x=self)) by done. rewrite Hk. cbn. unfold valid_key. rewrite Hb, Hl, lookup_insert_eq.
      by destruct (decide (x ∈ ids)).
    + by rewrite (decide_True (P:=id ∈ ids)).
    + rewrite decide_False by done. by rewrite lookup_insert_ne.
Qed.

Section started.
Context (cfg : NodeConfig) (env : Env) (gen : Genesis) (a : Agent) (k : KeyPair) (c : Chain).
Let self := a.(ag_Identity).(AgentID).
Let enabled := negb (empty_str (TrimSpace env.(env_ConsensusToken))).
Let signers := include_self self k (loadLocalFleetSigners env.(env_FleetDir)).
Let ids := foldl add_missing (resolveConsensusValidators cfg enabled self) signers.

Lemma add_peers_inv peers n n' r : add_peers peers n = (n', r) → ∃ p, n' = set_Peers p n.
Proof.
  revert n. induction peers as [|[id key] peers IH]; intros n; cbn [add_peers]; [intros [= <- <-]; exists n.(Peers); by destruct n|].
  destruct (AddPeer_only id key n) as (p & Hp & _). destruct (AddPeer id key n) as [m [[]|e]]; cbn in Hp; subst m.
  - intros Ha. destruct (IH _ Ha) as (q & ->). by exists q.
  - intros [= <- <-]. by exists p.
Qed.

Lemma chain_rules_inv c0 c1 : chain_rules cfg c0 = inl c1 →
  c1.(validatorStaking).(ConsensusFromHeight) = 0 ∧ c1.(validatorKeys) = c0.(validatorKeys) ∧ c1.(requiredQuorum) = c0.(requiredQuorum) ∧
  c1.(Blocks) = c0.(Blocks).
Proof.
  unfold chain_rules. destruct (Staking.Validate _) as [[]|]; [|done]. destruct (Z.eqb_spec (ConsensusFromHeight (ValidatorStaking cfg)) 0) as [H0|]; [|done].
  intros [= <-]. split; [exact H0|]. cbn. by destruct (IrregularStateCorrections cfg), (0 <? StateRootEnforceFromHeight cfg).
Qed.

(** A node that starts with validators, and its baseline. *)
Lemma startNode_inv s bl sg : startNode cfg env gen a k c = inl (s, bl, sg) → ids ≠ [] →
  ∃ n n0 cids keys quorum, s_Node s = Some n ∧
    startup_keys cfg enabled self k signers ids (requiredForFinality (node_SetValidators ids n0).(n_Engine)) = inl (cids, keys, quorum) ∧
    bl = mkBaseline self cids keys ids cfg.(ConsensusPeers) ∧ sg = signers ∧
    n.(n_Chain).(validatorKeys) = keys ∧ n.(n_Chain).(requiredQuorum) = Z.max 1 quorum ∧
    n.(n_Engine).(validators) = (node_SetValidators ids n0).(n_Engine).(validators) ∧
    n.(n_Chain).(validatorStaking).(ConsensusFromHeight) = 0.
Proof.
  unfold startNode. fold self enabled. fold signers. fold ids. intros Hs Hids. cbv zeta in Hs.
  replace (match ids with [] => 1 | _ => Z.of_nat (length ids) end) with (Z.of_nat (length ids)) in Hs by by destruct ids.
  set (n0 := initGovernance env gen _) in Hs.
  replace (match ids with [] => n0 | _ => node_SetValidators ids n0 end) with (node_SetValidators ids n0) in Hs by by destruct ids.
  destruct (add_peers _ _) as [n1 [[]|e]] eqn:Hp; [|done]. destruct (add_peers_inv _ _ _ _ Hp) as (p & ->).
  destruct (add_peers_only (λ n fs, (AddPeer fs.(sg_NodeID) (hexEncode fs.(sg_PublicKey)) n).1) signers (set_Peers p (node_SetValidators ids n0)))
    as (q & Hq & _); [intros; apply AddPeer_only|]. rewrite Hq in Hs. cbn [n_Engine set_Peers n_Chain] in Hs.
  destruct (startup_keys _ _ _ _ _ _ _) as [[[cids keys] quorum]|e] eqn:Hk; [|by destruct ids].
  set (c2 := SetValidatorSet keys quorum _) in Hs.
  set (c3 := if 0 <? _ then _ else c2) in Hs. destruct ids as [|i0 ids']; [done|].
  destruct (chain_rules cfg c3) as [c4|] eqn:Hr; [|done]. destruct (chain_rules_inv _ _ Hr) as (H1 & H2 & H3 & _).
  injection Hs as <- <- <-. eexists _, n0, cids, keys, quorum. split; [done|]. split; [exact Hk|].
  assert (c3.(validatorKeys) = keys ∧ c3.(requiredQuorum) = Z.max 1 quorum) as [Hc1 Hc2].
  { subst c3 c2. destruct (0 <? _); cbn; (split; [done|]); destruct (Z.ltb_spec quorum 1); lia. }
  unfold lock_timeout. destruct (Atoi _) as [secs|]; [destruct (0 <? secs)|]; cbn; rewrite H2, H3; by split_and!.
Qed.
End started.

(** The keys of a validator set are those of its IDs. *)
Lemma validator_keys_dom self pub pk ids out m : validator_keys self pub pk out ids = inl m → dom m = dom out ∪ list_to_set ids.
Proof.
  revert out. induction ids as [|x ids IH]; intros out; cbn [validator_keys]; [intros [= ->]; set_solver|].
  destruct (bool_decide _); [intros ->%IH; rewrite dom_insert_L; set_solver|].
  destruct (pk !! x) as [hexKey|]; [|done]. destruct (PublicKeyBytes hexKey) as [b|]; [|done]. destruct (negb _); [done|].
  intros ->%IH. rewrite dom_insert_L. set_solver.
Qed.

(* ------------------------------------------------------------------ *)
(** * Facts: the members of one network *)

(** Who belongs to a network: the validators [V] of a configuration, with
    their keys [K], and those the registry's roster [R] adds. The trusted
    validators, if any are configured, are the same; a local fleet signs for
    some of them, or for the node itself. *)
Record member (V : list string) (K : gmap string string) (R : list rosterEntry) (cfg : NodeConfig) (env : Env) (self : string) (k : KeyPair) : Prop := {
  mb_validators : cfg.(cfg_Validators) = V;
  mb_trusted : cfg.(TrustedValidators) = [] ∨ ∀ id, id ∈ cfg.(TrustedValidators) ↔ id ∈ V;
  mb_enabled : TrimSpace env.(env_ConsensusToken) ≠ "";
  mb_fleet : ∀ fs, fs ∈ loadLocalFleetSigners env.(env_FleetDir) →
    fs.(sg_NodeID) = self ∧ fs.(sg_PublicKey) = k.(Public) ∨
    fs.(sg_NodeID) ≠ self ∧ fs.(sg_NodeID) ∈ V ∧ K !! fs.(sg_NodeID) = Some fs.(sg_PublicKey);
  mb_private : slen k.(Private) = 64;
  mb_name : self ≠ "";
  mb_own : if decide (self ∈ V) then K !! self = Some k.(Public) else listed R self = Some k.(Public);
  mb_listed : ∀ key, listed R self = Some key → key = k.(Public);
  mb_peers : ∀ id, id ∈ V → id ≠ self → cfg.(PeerKeys) !! id ≫= valid_key = K !! id
}.

(** The key the network knows a validator by. *)
Definition network_key (V : list string) (K : gmap string string) (R : list rosterEntry) (id : string) : option string :=
  match listed R id with Some k => Some k | None => if decide (id ∈ V) then K !! id else None end.

Section network.
Context (V : list string) (K : gmap string string) (R : list rosterEntry) (HV : V ≠ []) (He : "" ∉ V).

(** The keys of signers override those before them. *)
Lemma signer_keys signers (m : gmap string string) id :
  (∃ fs, fs ∈ signers ∧ fs.(sg_NodeID) = id ∧ foldl (λ m fs, <[fs.(sg_NodeID) := fs.(sg_PublicKey)]> m) m signers !! id = Some fs.(sg_PublicKey)) ∨
  (∀ fs, fs ∈ signers → fs.(sg_NodeID) ≠ id) ∧ foldl (λ m fs, <[fs.(sg_NodeID) := fs.(sg_PublicKey)]> m) m signers !! id = m !! id.
Proof.
  induction signers as [|fs l IH] using rev_ind; [right; split; [by intros fs Hfs%elem_of_nil|done]|].
  rewrite foldl_app. cbn [foldl]. destruct (decide (fs.(sg_NodeID) = id)) as [<-|Hne].
  - left. exists fs. rewrite lookup_insert_eq. split; [by apply elem_of_app; right; left|done].
  - rewrite lookup_insert_ne by done. destruct IH as [(fs' & Hin & ? & ?)|[Hno ?]].
    + left. exists fs'. split; [by apply elem_of_app; left|done].
    + right. split; [|done]. intros fs' [Hin|[->|[]%elem_of_nil]%elem_of_cons]%elem_of_app; [by apply Hno|done].
Qed.

Lemma elem_fold_add_missing signers l id :
  id ∈ foldl add_missing l signers ↔ id ∈ l ∨ ∃ fs, fs ∈ signers ∧ fs.(sg_NodeID) = id.
Proof.
  revert l. induction signers as [|fs signers IH]; intros l; cbn [foldl]; [set_solver|]. rewrite IH. unfold add_missing.
  destruct (bool_decide_reflect (fs.(sg_NodeID) ∈ l)); [|rewrite elem_of_app, list_elem_of_singleton]; set_solver.
Qed.

Lemma fleet_ids self signers l :
  (∀ fs, fs ∈ signers → fs.(sg_NodeID) = self ∨ fs.(sg_NodeID) ∈ V) → l = V ∨ l = (V ++ [self])%list →
  foldl add_missing l signers = V ∨ foldl add_missing l signers = (V ++ [self])%list.
Proof.
  revert l. induction signers as [|fs signers IH]; intros l Hs Hl; cbn [foldl]; [done|].
  apply IH; [intros; apply Hs; by right|]. unfold add_missing. destruct (bool_decide_reflect (fs.(sg_NodeID) ∈ l)) as [|Hn]; [done|].
  destruct (Hs fs ltac:(left)) as [Heq|Hin].
  - destruct Hl as [->| ->]; [right; by rewrite Heq|]. exfalso. apply Hn. apply elem_of_app. right. rewrite Heq. by left.
  - exfalso. apply Hn. destruct Hl as [->| ->]; [done|apply elem_of_app; by left].
Qed.

(** The node's own key is among those it signs with. *)
Lemma own_signer self k signers : slen k.(Private) = 64 →
  (∃ fs, fs ∈ include_self self k signers ∧ fs.(sg_NodeID) = self) ∧
  ∀ fs, fs ∈ include_self self k signers → fs ∈ signers ∨ fs.(sg_NodeID) = self ∧ fs.(sg_PublicKey) = k.(Public).
Proof.
  intros Hk. unfold include_self. rewrite Hk. cbn. rewrite orb_false_r. destruct (existsb _ signers) eqn:Hex.
  - split; [|by left]. apply existsb_exists in Hex as (fs & Hin%list_elem_of_In & Hid%bool_decide_eq_true). by exists fs.
  - split; [by eexists; split; [left|]|]. intros fs [->|Hin]%elem_of_cons; [by right|by left].
Qed.

(** What a member starts with. *)
Lemma member_baseline cfg env gen a k c s bl sg :
  member V K R cfg env a.(ag_Identity).(AgentID) k → startNode cfg env gen a k c = inl (s, bl, sg) →
  let self := a.(ag_Identity).(AgentID) in
  ∃ n cids ids keys, s_Node s = Some n ∧ n.(n_Chain).(validatorStaking).(ConsensusFromHeight) = 0 ∧
    bl = mkBaseline self cids keys ids cfg.(ConsensusPeers) ∧ (∀ id, id ∈ ids ↔ id ∈ V ∨ id = self) ∧
    (length ids ≤ S (length V))%nat ∧ dom keys = list_to_set ids ∧
    ∀ id, keys !! id = if decide (id = self) then Some k.(Public) else if decide (id ∈ V) then K !! id else None.
Proof.
  intros [M1 M2 M3 M4 M5 M6 M7 M8 M9] Hs self. fold self in M4, M6, M7, M8, M9.
  destruct (own_signer self k (loadLocalFleetSigners env.(env_FleetDir)) M5) as [(own & Hown & Hoid) Hall].
  assert (∀ fs, fs ∈ include_self self k (loadLocalFleetSigners env.(env_FleetDir)) →
    fs.(sg_NodeID) = self ∧ fs.(sg_PublicKey) = k.(Public) ∨
    fs.(sg_NodeID) ≠ self ∧ fs.(sg_NodeID) ∈ V ∧ K !! fs.(sg_NodeID) = Some fs.(sg_PublicKey)) as Hsig
    by (intros fs [Hin|?]%Hall; [by apply M4|by left]).
  assert (resolveConsensusValidators cfg (negb (empty_str (TrimSpace env.(env_ConsensusToken)))) self = V) as Hrv.
  { unfold resolveConsensusValidators, empty_str. rewrite (bool_decide_eq_false_2 (TrimSpace _ = "")) by done. cbn. rewrite M1. by destruct V. }
  pose proof (startNode_inv cfg env gen a k c s bl sg Hs) as Hinv. fold self in Hinv. rewrite Hrv in Hinv.
  set (signers := include_self _ _ _) in *. set (ids := foldl add_missing V signers) in Hinv.
  assert (∀ id, id ∈ ids ↔ id ∈ V ∨ id = self) as Hids.
  { intros id. unfold ids. rewrite elem_fold_add_missing. split.
    - intros [?|(fs & [[-> _]|(_ & ? & _)]%Hsig & <-)]; auto.
    - intros [?| ->]; [by left|right]. by exists own. }
  assert (length ids ≤ S (length V))%nat as Hlen.
  { destruct (fleet_ids self signers V) as [Hi|Hi]; [intros fs [[? _]|(_ & ? & _)]%Hsig; auto|by left|..];
      unfold ids; rewrite Hi, ?length_app; cbn; lia. }
  destruct Hinv as (n & n0 & cids & keys & quorum & Hn & Hk & Hbl & _ & _ & _ & _ & Hcf).
  { intros Hz. apply (elem_of_nil self). rewrite <- Hz. apply Hids. by right. }
  unfold startup_keys, buildValidatorKeySet in Hk. destruct (resolveChainQuorum _ _ _ _) as [cv cq] eqn:Hcv.
  destruct (validator_keys _ _ _ ∅ cv) as [keys0|] eqn:Hv; [|done]. cbv zeta in Hk. injection Hk as <- <- _.
  assert (∀ id, id ∈ cv → id ∈ V ∨ id = self) as Hcv1.
  { revert Hcv. unfold resolveChainQuorum. destruct M2 as [->|Ht]; [intros [= <- _] id; apply Hids|].
    destruct (TrustedValidators cfg); intros [= <- _] id; [apply Hids|]. intros Hin. left. by apply Ht. }
  assert (∀ id, id ∈ V → id ∈ cv) as Hcv2.
  { revert Hcv. unfold resolveChainQuorum. destruct M2 as [->|Ht]; [intros [= <- _] id Hin; apply Hids; by left|].
    destruct (TrustedValidators cfg); intros [= <- _] id Hin; [apply Hids; by left|by apply Ht]. }
  set (ks := foldl (λ m fs, <[fs.(sg_NodeID) := fs.(sg_PublicKey)]> m) keys0 signers). exists n, cv, ids, ks. split; [done|]. split; [done|]. split; [done|]. split; [exact Hids|]. split; [exact Hlen|].
  assert (∀ id, ks !! id = if decide (id = self) then Some k.(Public) else if decide (id ∈ V) then K !! id else None) as Hks.
  { intros id. unfold ks. pose proof (validator_keys_spec _ _ _ _ _ _ Hv id) as Hk0. rewrite lookup_empty in Hk0.
    destruct (signer_keys signers keys0 id) as [(fs & Hin & <- & ->)|[Hno ->]].
    - destruct (Hsig fs Hin) as [[-> ->]|(? & ? & ->)]; [by rewrite decide_True|by rewrite decide_False, decide_True].
    - rewrite decide_False by (intros ->; by apply (Hno own)). rewrite Hk0. destruct (decide (id ∈ V)) as [Hin|Hin].
      + rewrite decide_True by by apply Hcv2. rewrite decide_False by (intros ->; by apply (Hno own)). apply M9; [done|]. intros ->. by apply (Hno own).
      + rewrite decide_False; [done|]. intros [?| ->]%Hcv1; [done|by apply (Hno own)]. }
  split; [|exact Hks]. apply set_eq. intros id. rewrite elem_of_list_to_set, Hids, elem_of_dom, Hks.
  destruct (decide (id = self)) as [->|Hne]; [split; [by right|by eexists]|]. destruct (decide (id ∈ V)) as [Hin|]; [|split; [by intros []|naive_solver]].
  split; [by left|intros _]. destruct (signer_keys signers keys0 id) as [(fs & Hfs & <- & _)|[Hno _]].
  - destruct (Hsig fs Hfs) as [[? _]|(_ & _ & ->)]; [done|by eexists].
  - rewrite <- (M9 id Hin Hne). pose proof (validator_keys_spec _ _ _ _ _ _ Hv id) as Hk0. rewrite decide_True, decide_False in Hk0 by auto.
    rewrite <- Hk0. apply elem_of_dom. rewrite (validator_keys_dom _ _ _ _ _ _ Hv). apply elem_of_union_r, elem_of_list_to_set. by apply Hcv2.
Qed.

(** A member that has read the roster holds the network's keys and quorum. *)
Lemma member_synced cfg env gen a k c s bl sg before after :
  member V K R cfg env a.(ag_Identity).(AgentID) k → startNode cfg env gen a k c = inl (s, bl, sg) →
  Forall (λ f, ∃ e, f = inr e) after →
  let c' := s_Chain (foldl (λ s f, roster_tick bl f s) s (before ++ inl R :: after)%list) in
  Z.of_nat (length V + length R) < 2 ^ 59 →
  (∀ id, c'.(validatorKeys) !! id = network_key V K R id) ∧
  c'.(requiredQuorum) = quorum_of (Z.of_nat (size c'.(validatorKeys))) ∧ c'.(validatorStaking).(ConsensusFromHeight) = 0.
Proof.
  intros Hm Hs Ha c'. destruct (member_baseline _ _ _ _ _ _ _ _ _ Hm Hs) as (n & cids & ids & keys & Hn & Hcf & Hbl & Hids & Hlen & Hdom & Hk).
  destruct Hm as [_ _ _ _ _ M6 M7 M8 _]. set (self := a.(ag_Identity).(AgentID)) in *.
  destruct (synced_install bl before R after s n Hn Ha) as (p & Hf & _).
  destruct (target bl R) as [[keys' urls] ids'] eqn:Ht. unfold target in Ht. rewrite Hbl in Ht. cbn in Ht.
  destruct (mergeValidatorRoster cids keys _ _ _) as [[vs ks] us] eqn:Hm1. destruct (mergeValidatorRoster ids ∅ _ _ _) as [[vs2 ?] ?] eqn:Hm2.
  injection Ht as <- <- <-. destruct (merge_spec self M6 _ _ _ _ _ _ _ Hm1) as (Hkeys & _ & _).
  destruct (merge_spec self M6 _ _ _ _ _ _ _ Hm2) as (_ & Hvs & Hnd).
  assert (dom ks = list_to_set vs2) as Hsz.
  { apply set_eq. intros id. rewrite elem_of_dom, elem_of_list_to_set, Hkeys, Hvs. unfold merged_key.
    assert (is_Some (keys !! id) ↔ id ∈ ids) as Hd by (rewrite <- elem_of_dom, Hdom; apply elem_of_list_to_set).
    destruct (decide (id = self)) as [->|]; [naive_solver|]. destruct (listed R id); naive_solver. }
  assert (c' = SetValidatorSet ks (requiredForFinality (node_SetValidators vs2 n).(n_Engine)) n.(n_Chain)) as ->.
  { subst c'. rewrite Hf. unfold install, target. rewrite Hn, Hbl. cbn [bl_selfID staticChainValidators staticChainKeys staticEngineValidators staticConsensusPeerURLs].
    by rewrite Hm1, Hm2. }
  cbn [validatorKeys SetValidatorSet set_requiredQuorum set_validatorKeys requiredQuorum validatorStaking].
  rewrite <- size_dom, Hsz, size_list_to_set by done. intros Hsize.
  pose proof (merge_length self M6 _ _ _ _ _ _ _ Hm2) as Hle. destruct (node_roster vs2 n) as (-> & _); [|done|lia|].
  { rewrite Hvs, Hids. intros [[?| ?]|[_ [key Hl]]]; [done|done|]. by apply listed_nonempty in Hl. }
  split; [|split; [|done]].
  - intros id. rewrite Hkeys. unfold merged_key, network_key. rewrite Hk. destruct (decide (id = self)) as [->|].
    + destruct (listed R self) as [key|] eqn:Hl; [by rewrite (M8 key eq_refl)|]. destruct (decide (self ∈ V)); [done|congruence].
    + by destruct (listed R id).
  - destruct (Z.ltb_spec (quorum_of (Z.of_nat (length vs2))) 1); [unfold quorum_of in *; lia|done].
Qed.
End network.

(* ------------------------------------------------------------------ *)
(** * Facts: what a chain keeps while it is used *)

(** Transactions submitted, blocks and branches offered, accepted or not (a
    branch may have been replayed on the chain as it was before), and the hot
    window resized. *)
Inductive used `{E : Ed25519} : Chain → Chain → Prop :=
  | used_tx now tx c : used c (SubmitTx now tx c).1
  | used_block now b c : used c (FinalizeBlock now c b).1.1
  | used_branch now h cand c0 c : used c (TryReorg now h cand c0 c).1
  | used_window m cold c : used c (SetHotWindow m cold c).

Definition roster_rules (c : Chain) : gmap string string * Z * Z * Z :=
  (c.(validatorKeys), c.(requiredQuorum), c.(authEnforceFromHeight), c.(validatorStaking).(ConsensusFromHeight)).

Lemma trim_rules `{E : Ed25519} c : roster_rules (trimHotWindow c) = roster_rules c.
Proof. by destruct (trimHotWindow_cases c) as [->|(n & base & nx & _ & _ & _ & _ & _ & ->)]. Qed.

Lemma used_rules `{E : Ed25519} c c' : rtc used c c' → roster_rules c' = roster_rules c.
Proof.
  induction 1 as [|c x c' Hu _ IH]; [done|]. rewrite IH. destruct Hu as [now tx c|now b c|now h cand c0 c|m cold c].
  - destruct (SubmitTx_cases now tx c) as [[_ ->]|[_ [e ->]]]; done.
  - destruct (FinalizeBlock_cases now c b) as [(b' & next & _ & ->)|(b' & e & _ & ->)]; [|done]. cbn. rewrite commit_extended.
    by rewrite trim_rules.
  - unfold TryReorg. destruct (reorg_plan _ _ _); [|done]. destruct (negb _); [done|]. destruct (replay _ _ _); [|done].
    unfold reorg_commit. case_match; [done|]. cbn [fst]. by rewrite trim_rules.
  - unfold SetHotWindow. by rewrite trim_rules.
Qed.

(** Two blocks that the same quorum rules approved on two chains share more
    than the members of any set smaller than a third. *)
Lemma quorums_share `{E : Ed25519} c1 c2 b1 b2 (F : gset string) :
  c1.(validatorKeys) = c2.(validatorKeys) →
  c1.(requiredQuorum) = quorum_of (Z.of_nat (size c1.(validatorKeys))) →
  c2.(requiredQuorum) = quorum_of (Z.of_nat (size c2.(validatorKeys))) →
  verifyBlockAuthorization c1 b1 true = inl tt → verifyBlockAuthorization c2 b2 true = inl tt →
  (3 * size F < size c1.(validatorKeys))%nat →
  ∃ id, id ∉ F ∧ id ∈ roster_approvals c1 b1 ∧ id ∈ roster_approvals c2 b2.
Proof.
  intros Hk Hq1 Hq2 [_ H1]%verifyBlockAuthorization_iff [_ H2]%verifyBlockAuthorization_iff HF.
  assert (∀ b, roster_approvals c2 b = roster_approvals c1 b) as Hr by (intros b; unfold roster_approvals; by rewrite Hk).
  rewrite Hr in *. rewrite <- Hk in Hq2. pose proof (roster_overlap c1 b1 b2) as Ho.
  pose proof (quorum_third (Z.of_nat (size c1.(validatorKeys))) (Nat2Z.is_nonneg _)) as Hqo.
  set (X := (roster_approvals c1 b1 ∩ roster_approvals c1 b2) ∖ F).
  destruct (decide (X = ∅)) as [Hemp|[id Hid]%set_choose_L]; [|exists id; unfold X in Hid; set_solver].
  pose proof (subseteq_size (roster_approvals c1 b1 ∩ roster_approvals c1 b2) F ltac:(unfold X in Hemp; set_solver)). lia.
Qed.


(* ------------------------------------------------------------------ *)
(** * Facts: the fleet's votes *)

(** Nobody has been seen voting for another block at [h]. *)
Definition no_other_votes (h : Z) (hash : string) (e : Engine) : Prop :=
  ∀ t id x, e.(slashTracker) = Some t → default ∅ (t.(votedHashes) !! id) !! h = Some x → x = hash.

Lemma tally_vote_tracker v e : (tally_vote v e).1.(slashTracker) = e.(slashTracker).
Proof.
  unfold tally_vote. destruct (canonical _ _ _) as [b|]; [|done]. destruct (negb _); [done|]. cbv zeta. by destruct (_ && _).
Qed.

Lemma report_vote_quiet now v e : no_other_votes v.(v_Height) v.(v_BlockHash) e →
  ∃ e', report_vote now v e = (e', []) ∧ no_other_votes v.(v_Height) v.(v_BlockHash) e'.
Proof.
  intros Hq. unfold report_vote. destruct (slashTracker e) as [t|] eqn:Ht; [|by exists e]. destruct (v.(v_Vote) =? 1); [|by exists e].
  unfold RecordEquivocation. destruct (default ∅ (votedHashes t !! v.(v_VoterID)) !! v.(v_Height)) as [x|] eqn:Hx.
  - rewrite bool_decide_eq_true_2 by by apply (Hq t v.(v_VoterID)). eexists. split; [done|]. intros t' id y [= <-]. by apply Hq.
  - eexists. split; [done|]. intros t' id y [= <-]. cbn. destruct (decide (v.(v_VoterID) = id)) as [<-|Hne].
    + rewrite lookup_insert_eq. cbn. rewrite lookup_insert_eq. by intros [= <-].
    + rewrite lookup_insert_ne by done. by apply Hq.
Qed.

Lemma HandleVote_quiet `{E : Ed25519} now v n : no_other_votes v.(v_Height) v.(v_BlockHash) n.(n_Engine) →
  ∃ e, (HandleVote now v n).1 = set_n_Engine e n ∧ no_other_votes v.(v_Height) v.(v_BlockHash) e.
Proof.
  intros Hq. unfold HandleVote. assert (OnVote now v n.(n_Engine) = processVoteInternal now (counted v) n.(n_Engine)) as ->.
  { unfold OnVote, counted. by destruct (IsPrevote v). }
  unfold processVoteInternal. destruct (negb _); [by exists n.(n_Engine)|].
  destruct (report_vote_quiet now (counted v) n.(n_Engine) Hq) as (e1 & -> & Hq1).
  pose proof (tally_vote_tracker (counted v) e1) as Ht. destruct (tally_vote (counted v) e1) as [e2 r]. cbn in Ht. exists e2. split; [done|].
  intros t id x. rewrite Ht. apply Hq1.
Qed.

Lemma fleet_votes_quiet `{E : Ed25519} now i b h signers n : no_other_votes h b.(Hash) n.(n_Engine) →
  ∃ e, fleet_votes now i b h signers n = set_n_Engine e n.
Proof.
  revert i n. induction signers as [|fs signers IH]; intros i n Hq; cbn [fleet_votes]; [exists n.(n_Engine); by destruct n|].
  destruct (HandleVote_quiet (now i) (mkVote b.(Hash) h 0 "" fs.(sg_NodeID) 1 (fleet_signature b fs)) n Hq) as (e & -> & He).
  destruct (IH (S i) (set_n_Engine e n) He) as (e' & ->). by exists e'.
Qed.

(** The signatures on the fleet's block. *)
Lemma fleet_signatures {A} (f : localFleetSigner → A) signers (m : gmap string A) fs : NoDup (sg_NodeID <$> signers) → fs ∈ signers →
  foldl (λ m fs, <[fs.(sg_NodeID) := f fs]> m) m signers !! fs.(sg_NodeID) = Some (f fs).
Proof.
  assert (∀ l (m : gmap string A) id, id ∉ sg_NodeID <$> l → foldl (λ m fs, <[fs.(sg_NodeID) := f fs]> m) m l !! id = m !! id) as Hout.
  { induction l as [|x l IH]; intros m0 id Hid; [done|]. rewrite fmap_cons in Hid. apply not_elem_of_cons in Hid as [H1 H2]. cbn [foldl].
    rewrite IH by done. by apply lookup_insert_ne. }
  revert m. induction signers as [|x l IH]; intros m Hn Hin; [by apply elem_of_nil in Hin|].
  rewrite fmap_cons in Hn. apply NoDup_cons in Hn as [Hx Hn]. cbn [foldl]. apply elem_of_cons in Hin as [->|Hin]; [|by apply IH].
  rewrite Hout by done. apply lookup_insert_eq.
Qed.

(* ------------------------------------------------------------------ *)
(** * Facts: taking turns *)

Section turns.
Context `{E : Ed25519} (p : Producer) (Hfleet : (length p.(pd_signers) < 2)%nat) (Hrot : p.(pd_rotationEnabled) = true).

(** The node's turn, at an instant. *)
Definition my_turn (h : Z) (sch : Schedule) (now : Z) : bool :=
  (ShouldPropose p.(pd_selfID) p.(pd_rotation) h (now - sch.(lastHeightAt).(instant)) p.(pd_roundInterval)).1.1.1.

Lemma NoteMissedSlot_height now id n : chain_height (node_NoteMissedSlot now id n).(n_Chain) = chain_height n.(n_Chain).
Proof.
  unfold node_NoteMissedSlot. destruct (NoteMissedSlot _ _ _) as [e calls]. pose proof (run_slashes_chain calls (set_n_Engine e n)) as H.
  unfold ledger_only in H. cbn in H. by rewrite <- H.
Qed.

Lemma produce_not_waits w s n : (produce p w s n).2 ≠ Waits.
Proof.
  unfold produce. destruct (_ && _); [done|]. destruct (pd_realConsensus p).
  - destruct (ProposeBlockWithConsensus w.(tk_round) s) as [[s' out] [[hash []] [e|]]]; done.
  - rewrite (proj2 (Nat.leb_gt 2 _)) by done. by destruct (ProposeBlockHash _ _).
Qed.

(** When it is not its turn it waits, and the height stays. *)
Lemma tick_turn w sch s n : s_Node s = Some n → sch.(lastHeight) = chain_height n.(n_Chain) →
  if my_turn (chain_height n.(n_Chain)) sch w.(tk_now).(instant) then (tick p w sch s).2 ≠ Waits
  else ∃ s' n', tick p w sch s = (sch, s', [], Waits) ∧ s_Node s' = Some n' ∧ chain_height n'.(n_Chain) = chain_height n.(n_Chain).
Proof.
  intros Hs Hh. unfold tick, isMyTurn, my_turn. rewrite Hs, Hrot, (proj2 (Nat.ltb_lt _ 2)), Hh, Z.eqb_refl by done. cbn [andb].
  destruct (ShouldPropose _ _ _ _ _) as [[[[] target] expected] round]; cbn [fst].
  - pose proof (produce_not_waits w s n). by destruct (produce p w s n) as [[s' out] r].
  - destruct (0 <? round); [|by exists s, n]. eexists _, _. split; [done|]. split; [done|]. apply NoteMissedSlot_height.
Qed.

(** Ticks that come less than [gap] after each other. *)
Fixpoint paced (gap t : Z) (ws : list Tick) : Prop :=
  match ws with [] => True | w :: ws => t ≤ w.(tk_now).(instant) < t + gap ∧ paced gap w.(tk_now).(instant) ws end.

(** A window as long as the pace is not missed. *)
Lemma ticks_turn gap lo sch h ws : (∀ now, lo ≤ now < lo + gap → my_turn h sch now = true) → sch.(lastHeight) = h →
  ∀ t s n, s_Node s = Some n → chain_height n.(n_Chain) = h → paced gap t ws → t ≤ lo → Exists (λ w, lo ≤ w.(tk_now).(instant)) ws →
  Exists (λ r, r ≠ Waits) (ticks p ws sch s).
Proof.
  intros Hmine Hh. induction ws as [|w ws IH]; intros t s n Hs Hn Hp Ht Hex; [by apply Exists_nil in Hex|].
  destruct Hp as [Hw Hp]. cbn [ticks]. pose proof (tick_turn w sch s n Hs ltac:(congruence)) as Htt. rewrite Hn in Htt.
  destruct (my_turn h sch w.(tk_now).(instant)) eqn:Hm.
  - destruct (tick p w sch s) as [[[sch' s'] out] r]. by left.
  - destruct Htt as (s' & n' & -> & Hs' & Hn'). right. destruct (Z.le_gt_cases lo w.(tk_now).(instant)) as [Hle|Hgt]; [rewrite Hmine in Hm; [done|lia]|].
    apply Exists_cons in Hex as [?|Hex]; [lia|]. eapply (IH w.(tk_now).(instant)); [exact Hs'|exact Hn'|done|lia|done].
Qed.

(** Which window is a validator's. *)
Lemma turn_window h sch : p.(pd_selfID) ∈ p.(pd_rotation) → p.(pd_selfID) ≠ "" → 0 < p.(pd_roundInterval) →
  0 ≤ h → h + 1 + Z.of_nat (length p.(pd_rotation)) ≤ MaxUint64 →
  ∃ r, 0 ≤ r < Z.of_nat (length p.(pd_rotation)) ∧ ∀ now,
    sch.(lastHeightAt).(instant) + r * p.(pd_roundInterval) ≤ now < sch.(lastHeightAt).(instant) + r * p.(pd_roundInterval) + p.(pd_roundInterval) →
    my_turn h sch now = true.
Proof.
  clear Hfleet Hrot. intros Hin Hne HI Hh Hm. rewrite <- (schedule_rotates p.(pd_rotation) (h + 1) 0) in Hin by lia. unfold schedule in Hin.
  apply list_elem_of_fmap in Hin as (i & Hi & Hlt%elem_of_seq). exists (Z.of_nat i). split; [lia|]. intros now Hnow.
  assert (CurrentRound (now - sch.(lastHeightAt).(instant)) p.(pd_roundInterval) = Z.of_nat i) as Hr.
  { unfold CurrentRound. rewrite (proj2 (Z.leb_gt p.(pd_roundInterval) 0)) by done. cbn [orb].
    destruct (Z.leb_spec (now - instant (lastHeightAt sch)) 0); [nia|]. symmetry. apply (Z.div_unique_pos _ _ _ (now - instant (lastHeightAt sch) - Z.of_nat i * pd_roundInterval p)); nia. }
  unfold my_turn, ShouldPropose. cbn [fst]. rewrite Hr, u64_small by (split; lia). replace (Z.of_nat i) with (0 + Z.of_nat i) by lia.
  rewrite ExpectedProposer_shift, <- Hi by lia. unfold empty_str. by rewrite bool_decide_eq_false_2, bool_decide_eq_true_2.
Qed.
End turns.
