(* ===== verification/SynthosdTheorems.v ===== *)
(** The main theorems about the node program: the validator set a running
    node holds, the safety of a network of nodes that follow one roster, and
    what the producer's loop does. *)
From stdpp Require Import base strings list gmap relations.
From S2P Require Import Prelude GoStd Types Ledger TxModel Staking Merkle Block Messages.
From S2P Require Import Network.
From S2P Require Import Bridge Slashing Engine EngineFacts Chain ChainFacts ChainBuild.
From S2P Require Import ChainWindow Agent.
From S2P Require Import Node NodeFacts Rpc RpcFacts RpcRound RpcRoundFacts.
From S2P Require Import Relayer.
From S2P Require Import Examples Synthosd.

#[local] Open Scope string_scope.
#[local] Open Scope Z_scope.

(** A running node follows the registry's roster: however often the
    roster was fetched before and however many fetches have failed since, the
    node's validator keys are those of its own configuration with the last
    fetched roster merged in (a roster entry overriding the configured key of
    everybody but the node itself), its engine counts the configured and the
    listed validators, the quorum of its chain is two thirds of them, and
    nothing else of the chain has changed. *)
Theorem roster_follows bl url before roster after s n :
  s_Node s = Some n → url ≠ "" → bl.(bl_selfID) ≠ "" → "" ∉ bl.(staticEngineValidators) →
  Z.of_nat (length bl.(staticEngineValidators) + length roster) < 2 ^ 60 → Forall (λ f, ∃ e, f = inr e) after →
  ∃ n' keys ids, s_Node (startValidatorRosterSync bl url true (before ++ inl roster :: after)%list s) = Some n' ∧
    n'.(n_Chain) = SetValidatorSet keys (quorum_of (Z.of_nat (size ids))) n.(n_Chain) ∧ n'.(n_Engine).(validators) = ids ∧
    (∀ id, keys !! id = if decide (id = bl.(bl_selfID)) then bl.(staticChainKeys) !! id
                        else match listed roster id with Some k => Some k | None => bl.(staticChainKeys) !! id end) ∧
    (∀ id, id ∈ ids ↔ id ∈ bl.(staticEngineValidators) ∨ id ≠ bl.(bl_selfID) ∧ is_Some (listed roster id)).
Proof.
  intros Hs Hurl Hself He Hlen Ha. unfold startValidatorRosterSync, empty_str. rewrite bool_decide_eq_false_2 by done. cbn [negb orb].
  destruct (synced_install bl before roster after s n Hs Ha) as (p & -> & _). unfold install, target. rewrite Hs.
  destruct (mergeValidatorRoster _ _ _ _ _) as [[vs ks] us] eqn:Hm1. destruct (mergeValidatorRoster (staticEngineValidators bl) ∅ _ _ _) as [[vs2 ks2] us2] eqn:Hm2.
  destruct (merge_spec _ Hself _ _ _ _ _ _ _ Hm1) as (Hkeys & _ & _). destruct (merge_spec _ Hself _ _ _ _ _ _ _ Hm2) as (_ & Hvs & Hnd).
  pose proof (merge_length _ Hself _ _ _ _ _ _ _ Hm2) as Hle. destruct (node_roster vs2 n) as (Hq & Hv & _); [|done|lia|].
  { rewrite Hvs. intros [?|[_ [key Hl]]]; [done|by apply listed_nonempty in Hl]. }
  eexists _, ks, (list_to_set vs2). split; [done|]. split; [|split; [done|split; [exact Hkeys|]]].
  - rewrite size_list_to_set by done. cbn. by rewrite <- Hq.
  - intros id. by rewrite elem_of_list_to_set.
Qed.


(** A fleet that can produce: the signers have names of their own, the chain
    knows each of them by its key and asks for no more of them than there are,
    and nobody is on record with a vote for another block at this height. *)
Record fleet_ready `{E : Ed25519} (w : Tick) (signers : list localFleetSigner) (n : Node) (d : Block) : Prop := {
  fr_names : NoDup (sg_NodeID <$> signers);
  fr_keys : Forall (λ fs, fs.(sg_PublicKey) = ed_Public fs.(sg_PrivateKey) ∧
              n.(n_Chain).(validatorKeys) !! fs.(sg_NodeID) = Some fs.(sg_PublicKey)) signers;
  fr_quorum : n.(n_Chain).(requiredQuorum) ≤ Z.of_nat (length signers);
  fr_build : ∀ fs, signers !! Z.to_nat (u64 (u64 (chain_height n.(n_Chain) + 1) - 1) mod Z.of_nat (length signers)) = Some fs →
    BuildBlock w.(tk_build) fs.(sg_NodeID) (ProofRoot n.(n_Agent)) 1000 n.(n_Chain) = inl d;
  fr_mempool : mempool_ok n.(n_Chain);
  fr_tip : ∃ parent, tip n.(n_Chain) = Some parent ∧
    clean_skips n.(n_Chain) (candidates n.(n_Chain)) (u64 (parent.(Header).(Height) + 1)) (Clone n.(n_Chain).(c_State)) ∧
    Forall (λ corr, corr.(corr_Height) ≠ u64 (parent.(Header).(Height) + 1)) n.(n_Chain).(stateCorrections) ∧
    Before d.(Header).(h_Timestamp) parent.(Header).(h_Timestamp) = false;
  fr_clock : w.(tk_build).(instant) ≤ w.(tk_final).(instant);
  fr_legacy : stakeAuthoritySet n.(n_Chain) d.(Header).(Height) = [];
  fr_votes : no_other_votes (u64 (chain_height n.(n_Chain) + 1)) d.(Hash) n.(n_Engine)
}.

(** (C23) A fleet of local validators produces: when it is ready, its tick
    ends with the block its scheduled signer built, signed by that signer,
    approved by every other, finalized on the node's chain, saved, and pushed
    to the peers. *)
Theorem fleet_produces `{E : Ed25519} {EC : Ed25519Correct E} w signers s n d :
  signers ≠ [] → fleet_ready w signers n d →
  ∃ s' out b, fleet_tick w signers s n = (s', out, Fleet_block b) ∧ b.(Hash) = d.(Hash) ∧ tip (s_Chain s') = Some b ∧
    (∀ fs, fs ∈ signers → is_Some (b.(QuorumSignatures) !! fs.(sg_NodeID))) ∧
    out = (save s' ++ pushBlockToPeers (Some b) s')%list.
Proof.
  intros Hne [H1 H2 H3 H4 H5 (parent & Ht & Hcl & Hco & Hbe) H7 H8 H9]. unfold fleet_tick. cbv zeta.
  set (idx := u64 (u64 (chain_height n.(n_Chain) + 1) - 1) mod Z.of_nat (length signers)) in *.
  destruct (lookup_lt_is_Some_2 signers (Z.to_nat idx)) as [p Hp].
  { assert (0 < Z.of_nat (length signers)) by (destruct signers; [done|cbn; lia]). pose proof (Z.mod_pos_bound (u64 (u64 (chain_height n.(n_Chain) + 1) - 1)) _ H). lia. }
  rewrite Hp. assert (p ∈ signers) as Hin by by eapply list_elem_of_lookup_2. pose proof (H4 p Hp) as Hb. rewrite Hb.
  destruct (BuildBlock_shape _ _ _ _ _ _ Hb) as [_ Hid].
  assert (∀ fs, fs ∈ signers → fs.(sg_PublicKey) = ed_Public fs.(sg_PrivateKey) ∧
    n.(n_Chain).(validatorKeys) !! fs.(sg_NodeID) = Some fs.(sg_PublicKey)) as Hkeys by by apply Forall_forall.
  destruct (Hkeys p Hin) as [Hpub Hreg].
  set (k := mkKeys p.(sg_PublicKey) p.(sg_PrivateKey)). change (sign_proposal _ d) with (proposed k d).
  set (b0 := proposed k d). set (m := foldl _ ∅ signers). set (b := set_QuorumSignatures m b0).
  assert (∀ fs, fs ∈ signers → m !! fs.(sg_NodeID) = Some (fleet_signature b0 fs)) as Hm by (intros; by apply fleet_signatures).
  destruct (fleet_votes_quiet w.(tk_votes) 0 b (u64 (chain_height n.(n_Chain) + 1)) signers n H9) as (e & ->). cbn [n_Chain set_n_Engine].
  assert (ValidateProposal w.(tk_final) n.(n_Chain) b0 = (b0, inl tt)) as Hval.
  { apply (BuildBlock_proposal w.(tk_build) _ _ _ _ _ _ _ _ H5 Ht Hcl Hco Hbe H7 Hb).
    by apply (roster_authorization _ _ k d b0.(QuorumSignatures) false ∅ H8 Hid). }
  destruct (FinalizeBlock_approved w.(tk_final) n.(n_Chain) b0 m Hval) as (c' & Hf).
  { apply (roster_authorization _ _ k d m true (list_to_set (sg_NodeID <$> signers)) H8 Hid Hreg Hpub). intros _. split.
    - by rewrite size_list_to_set, length_fmap.
    - intros id (fs & -> & Hfs)%elem_of_list_to_set%list_elem_of_fmap. exists (fleet_signature b0 fs). split; [by apply Hm|]. intros _.
      destruct (Hkeys fs Hfs) as [Hfp Hfk]. split; [done|]. unfold approval_valid, fleet_signature. cbn [fst snd]. rewrite Hfk, Hfp.
      unfold slen at 1. rewrite ed_public_len. change (Z.of_nat 32 =? 32) with true. cbv iota.
      rewrite decode_fixed_hex0x by (unfold slen; by rewrite ed_sign_len). apply ed_verify_sign. }
  fold b in Hf. rewrite Hf. destruct (FinalizeBlock_tip _ _ _ _ _ Hf) as (Htip & _).
  eexists _, _, _. split; [done|]. split; [done|]. split; [|split; [|done]].
  - unfold node_RefreshReputation. destruct (RefreshReputation _ _ _ _) as [a score]. exact Htip.
  - intros fs Hfs. exists (fleet_signature b0 fs). by apply Hm.
Qed.

(** (C22) Rotation keeps every validator in turn: while the loop of a node
    whose name is in the rotation ticks in less than a round's time, then
    after as many rounds as there are validators in the rotation one of the
    ticks has been its own to propose on, unless the height has moved. *)
Theorem rotation_gives_turn `{E : Ed25519} p ws sch s n :
  (length p.(pd_signers) < 2)%nat → p.(pd_rotationEnabled) = true →
  p.(pd_selfID) ∈ p.(pd_rotation) → p.(pd_selfID) ≠ "" → 0 < p.(pd_roundInterval) →
  s_Node s = Some n → 0 ≤ chain_height n.(n_Chain) → chain_height n.(n_Chain) + 1 + Z.of_nat (length p.(pd_rotation)) ≤ MaxUint64 →
  sch.(lastHeight) = chain_height n.(n_Chain) → paced p.(pd_roundInterval) sch.(lastHeightAt).(instant) ws →
  Exists (λ w, sch.(lastHeightAt).(instant) + Z.of_nat (length p.(pd_rotation)) * p.(pd_roundInterval) ≤ w.(tk_now).(instant)) ws →
  Exists (λ r, r ≠ Waits) (ticks p ws sch s).
Proof.
  intros Hf Hrot Hin Hne HI Hs Hh Hm Hlast Hp Hex.
  destruct (turn_window p (chain_height n.(n_Chain)) sch Hin Hne HI Hh Hm) as (r & Hr & Hturn).
  eapply (ticks_turn p Hf Hrot _ _ sch _ ws Hturn Hlast); [exact Hs|done|exact Hp|nia|].
  eapply Exists_impl; [exact Hex|]. cbn. intros w Hw. nia.
Qed.

(* ------------------------------------------------------------------ *)
(** * A network of four *)

(** Keys of the length a node signs with, and their owners. *)
Definition long_key (name : string) : string := name +:+ "..............................................................".
Definition pair_of (name : string) : KeyPair := mkKeys (ed_Public (long_key name)) (long_key name).
Definition hexkey (name : string) : string := hexEncode (pair_of name).(Public).
Definition member_agent (name : string) : Agent := (AttachKeys (pair_of name) (agent_of name)).1.

Definition config_of (name : string) (validator : bool) (ids : list string) (peers : list string) : NodeConfig :=
  mkNodeConfig name validator [] ids (list_to_map ((λ x, (x, hexkey x)) <$> peers)) [] [] 0 0 [] (mkParams 0 0 0 0 0 0 0 0).
Definition env_with (fleet : list string) (rotation : string) : Env :=
  mkEnv ((λ x, (x, Some (x, hexkey x, hexEncode (pair_of x).(Private)))) <$> fleet)
    "token" ∅ "" "" "https://registry/" "" "" "" None "" "true" "10" "true" rotation "30".

(** Starting on the small chain. *)
Definition no_start : Server * Baseline * list localFleetSigner := (NewServer (ChainOnly no_chain) false, mkBaseline "" [] ∅ [] [], []).
Definition boot (name : string) (validator : bool) (ids peers fleet : list string) (rotation : string) : Server * Baseline * list localFleetSigner :=
  match startNode (config_of name validator ids peers) (env_with fleet rotation) genesis0 (member_agent name) (pair_of name) chain0 with
  | inl x => x
  | inr _ => no_start
  end.

(** Three configured validators, trusted as in the shipped configurations,
    and a fourth that the registry approved. *)
Definition trusting (c : NodeConfig) : NodeConfig :=
  mkNodeConfig c.(NodeID) c.(cfg_IsValidator) c.(HTTPPeers) c.(cfg_Validators) c.(PeerKeys) c.(ConsensusPeers) c.(cfg_Validators)
    c.(AuthEnforceFromHeight) c.(StateRootEnforceFromHeight) c.(IrregularStateCorrections) c.(ValidatorStaking).
Definition roster4 : list rosterEntry := [mkRoster " v4" (hexkey "v4") "" false].
Definition config1 : NodeConfig := trusting (config_of "v1" true ["v1"; "v2"; "v3"] ["v2"; "v3"]).
Definition config4 : NodeConfig := trusting (config_of "v4" true ["v1"; "v2"; "v3"] ["v1"; "v2"; "v3"]).
Definition boot_trusting (name : string) (cfg : NodeConfig) : Server * Baseline * list localFleetSigner :=
  match startNode cfg (env_with [] "true") genesis0 (member_agent name) (pair_of name) chain0 with inl x => x | inr _ => no_start end.
Definition up1 := Eval vm_compute in boot_trusting "v1" config1.
Definition up4 := Eval vm_compute in boot_trusting "v4" config4.


Definition outage : list (res (list rosterEntry)) := [inr (Err "registry returned status 502")].
Definition synced (up : Server * Baseline * list localFleetSigner) (fetches : list (res (list rosterEntry))) : Server :=
  startValidatorRosterSync up.1.2 up.1.1.(RegistryURL) true fetches up.1.1.
Definition synced1 : Server := Eval vm_compute in synced up1 (outage ++ inl roster4 :: outage)%list.
Definition synced4 : Server := Eval vm_compute in synced up4 [inl roster4].

(** A block signed by its proposer and approved by some. *)
Definition long_block (proposer : string) (names : list string) (c : Chain) : Block :=
  let b := block_or (BuildBlock clock proposer "" 10 c) in
  let b := sign_proposal (hex0x (ed_Sign (long_key proposer) b.(Hash))) b in
  set_QuorumSignatures (list_to_map ((λ x, (x, hex0x (ed_Sign (long_key x) (QuorumApprovalMessage b)))) <$> names)) b.
Definition block_a : Block := Eval vm_compute in long_block "v1" ["v1"; "v2"; "v3"] (s_Chain synced1).
Definition block_b : Block := Eval vm_compute in long_block "v4" ["v1"; "v2"; "v4"] (s_Chain synced4).

Example roster_counts :
  requiredQuorum (s_Chain up1.1.1) = 2 ∧ requiredQuorum (s_Chain synced1) = 3 ∧ synced1.(MailboxRelayPeers) = ["v4"] ∧
  (FinalizeBlock clock (s_Chain synced1) block_a).2 = inl tt ∧ (FinalizeBlock clock (s_Chain synced4) block_b).2 = inl tt ∧
  (FinalizeBlock clock (s_Chain up1.1.1) block_b).2 = inr (Err "bad block: proposer is not a registered validator").
Proof. vm_compute. by repeat split. Qed.




Lemma roster_follows_witness :
  ∃ n' keys ids, s_Node (synced up1 (outage ++ inl roster4 :: outage)%list) = Some n' ∧
    keys !! "v4" = Some (pair_of "v4").(Public) ∧
    n'.(n_Chain) = SetValidatorSet keys (quorum_of (Z.of_nat (size (ids : gset string)))) (s_Chain up1.1.1) ∧ "v4" ∈ ids.
Proof.
  destruct (roster_follows up1.1.2 up1.1.1.(RegistryURL) outage roster4 outage up1.1.1
    (match s_Node up1.1.1 with Some n => n | None => node_of "v1" chain0 end)
    ltac:(vm_compute; reflexivity) ltac:(vm_compute; discriminate) ltac:(vm_compute; discriminate)
    ltac:(apply (bool_decide_unpack _); vm_compute; reflexivity) ltac:(vm_compute; reflexivity)
    ltac:(repeat constructor; eexists; reflexivity)) as (n' & keys & ids & Hn & Hc & _ & Hk & Hi).
  assert (listed roster4 "v4" = Some (pair_of "v4").(Public)) as Hl by (vm_cast_no_check (eq_refl (Some (pair_of "v4").(Public)))).
  pose proof (Hk "v4") as Hk4. rewrite Hl, decide_False in Hk4 by (vm_compute; discriminate).
  assert ("v4" ∈ ids) as H4 by (apply Hi; right; split; [vm_compute; discriminate|by exists (pair_of "v4").(Public)]).
  exact (ex_intro _ n' (ex_intro _ keys (ex_intro _ ids (conj Hn (conj Hk4 (conj Hc H4)))))).
Defined.

(* ------------------------------------------------------------------ *)
(** * Producing *)

(** What a tick meets [s] seconds in: a peer that does not answer. *)
Definition at_second (s : Z) : Tick :=
  let t := later s in
  mkTick t (mkRound t t (λ _, inr (Err "connection refused")) [] (λ _, inr (Err "no vote")) (λ l, l) (λ _, t) t (λ _, None))
    (mkOutgoing t (mkSendEnv "01" t "02" t) (mkSendEnv "03" t "04" t) (λ _, None) (λ _, None)) t (λ _, t) t.

Definition producer_of (up : Server * Baseline * list localFleetSigner) (rotation : string) : Producer :=
  default (mkProducer "" 0 false false [] false 0 []) (startBlockProducer (env_with [] rotation) up.1.1 up.1.2.(bl_selfID) up.1.2.(staticEngineValidators) up.2).
Definition node_in (s : Server) : Node := match s_Node s with Some n => n | None => node_of "v1" chain0 end.

(** A tick every ten seconds, rounds of thirty. *)
Definition nine_ticks : list Tick := at_second <$> [10; 20; 30; 40; 50; 60; 70; 80; 90].
Definition schedule0 : Schedule := mkSchedule 0 clock.

Lemma rotation_gives_turn_witness : Exists (λ r, r ≠ Waits) (ticks (producer_of up1 "true") nine_ticks schedule0 up1.1.1).
Proof.
  exact (rotation_gives_turn (producer_of up1 "true") nine_ticks schedule0 up1.1.1 (node_in up1.1.1)
    ltac:(apply Nat.ltb_lt; vm_compute; reflexivity) ltac:(vm_compute; reflexivity) ltac:(apply (bool_decide_unpack _); vm_compute; reflexivity)
    ltac:(vm_compute; discriminate) ltac:(vm_compute; reflexivity) ltac:(vm_compute; reflexivity) ltac:(vm_compute; discriminate)
    ltac:(vm_compute; discriminate) ltac:(vm_compute; reflexivity)
    ltac:(vm_compute; repeat split; discriminate) ltac:(apply (bool_decide_unpack _); vm_compute; reflexivity)).
Defined.

(** Two validators whose keys lie in one node's fleet directory. *)
Definition up_fleet := Eval vm_compute in boot "v1" true ["v1"] ["v2"] ["v2"] "".

Definition fleet_draft : Block :=
  Eval vm_compute in block_or (BuildBlock (later 10) "v1" (ProofRoot (n_Agent (node_in up_fleet.1.1))) 1000 (s_Chain up_fleet.1.1)).

Lemma fleet_draft_ready : fleet_ready (at_second 10) up_fleet.2 (node_in up_fleet.1.1) fleet_draft.
Proof.
  split.
  - apply (bool_decide_unpack _). vm_compute. reflexivity.
  - repeat constructor; vm_compute; reflexivity.
  - vm_compute. discriminate.
  - intros fs. match goal with |- ?x = _ → _ => replace x with (Some (mkSigner "v1" (long_key "v1") (pair_of "v1").(Public))) by (vm_compute; reflexivity) end.
    intros [= <-]. vm_compute. reflexivity.
  - apply mempool_okb_ok. vm_compute. reflexivity.
  - exists (default fleet_draft (tip (s_Chain up_fleet.1.1))). split; [vm_compute; reflexivity|]. split; [vm_compute; exact I|].
    split; [constructor|vm_compute; reflexivity].
  - vm_compute. discriminate.
  - vm_compute. reflexivity.
  - intros t id x. vm_compute. intros [= <-]. intros Hx. vm_compute in Hx. discriminate Hx.
Qed.

Lemma fleet_produces_witness :
  ∃ s' out b, fleet_tick (at_second 10) up_fleet.2 up_fleet.1.1 (node_in up_fleet.1.1) = (s', out, Fleet_block b) ∧ b.(Hash) = fleet_draft.(Hash) ∧
    tip (s_Chain s') = Some b.
Proof.
  destruct (fleet_produces (at_second 10) up_fleet.2 up_fleet.1.1 (node_in up_fleet.1.1) fleet_draft ltac:(discriminate) fleet_draft_ready)
    as (s' & out & b & H1 & H2 & H3 & _ & _).
  exact (ex_intro _ s' (ex_intro _ out (ex_intro _ b (conj H1 (conj H2 H3))))).
Defined.

(* ------------------------------------------------------------------ *)
(** * Defects *)

Definition tracker_of (s : Server) : SlashingTracker :=
  match s_Node s with Some n => default (NewSlashingTracker node_penalties) n.(n_Engine).(slashTracker) | None => NewSlashingTracker node_penalties end.

(** The loop, and the server afterwards. *)
Definition ticked (p : Producer) (ws : list Tick) (s : Server) : Server :=
  (foldl (λ acc w, let '(sch, s, _, _) := tick p w acc.1 acc.2 in (sch, s)) (schedule0, s) ws).2.

(** A waiting node charges the wrong validator. It is ["v3"]'s turn from the
    thirtieth second to the sixtieth; ["v2"], whose turn is over, is not
    charged with having missed it, and ["v3"] is charged with a missed block
    at each of three ticks while it may still propose. *)
Example waiting_charges_current :
  let s := ticked (producer_of up1 "true") (at_second <$> [10; 20; 30; 40; 50]) up1.1.1 in
  (ShouldPropose "v1" ["v1"; "v2"; "v3"] 0 (50 * second) (30 * second)).1.2 = "v3" ∧
  (tracker_of s).(missedBlocks) !! "v3" = Some 3 ∧ (tracker_of s).(missedBlocks) !! "v2" = None.
Proof. vm_compute. by repeat split. Qed.

(** A producer that starts alone never asks the validators approved later.
    One approval raises the quorum to two and the new validator's URL is
    known, but the loop has settled at its start that there is nobody to ask:
    its blocks are proposed and never finalized. *)
Example approved_never_asked :
  let up := boot "v1" true ["v1"] [] [] "" in
  let s := synced up [inl [mkRoster "v2" (hexkey "v2") "https://v2" true]] in
  let p := producer_of up "" in
  requiredQuorum (s_Chain s) = 2 ∧ s.(ConsensusPeerURLs) = ["https://v2"] ∧ p.(pd_realConsensus) = false ∧
  chain_height (s_Chain (ticked p [at_second 10] up.1.1)) = 1 ∧ chain_height (s_Chain (ticked p (at_second <$> [10; 20; 30]) s)) = 0.
Proof. vm_compute. by repeat split. Qed.

(** A fleet that the roster outgrows keeps signing blocks that cannot be
    finalized, and each new attempt at the same height goes on record as
    double voting of its own signers. *)
Example fleet_outvoted :
  let s := synced up_fleet [inl ((λ x, mkRoster x (hexkey x) "" false) <$> ["v3"; "v4"; "v5"])] in
  let p := producer_of up_fleet "" in
  requiredQuorum (s_Chain s) = 4 ∧
  ticks p [at_second 70; at_second 80] schedule0 s =
    [Fleet_failed (Err "bad block: not enough validator approvals"); Fleet_failed (Err "bad block: not enough validator approvals")] ∧
  SlashCount "v1" (tracker_of (ticked p [at_second 70] s)) = 0 ∧
  SlashCount "v1" (tracker_of (ticked p [at_second 70; at_second 80] s)) = 1 ∧
  SlashCount "v2" (tracker_of (ticked p [at_second 70; at_second 80] s)) = 1.
Proof. vm_compute. by repeat split. Qed.

(** A fleet's keys have to be listed as peers' keys as well: the set is built
    before the fleet's own keys are added to it. *)
Example fleet_unlisted :
  startNode (config_of "v1" true ["v1"] []) (env_with ["v2"] "") genesis0 (member_agent "v1") (pair_of "v1") chain0
    = inr (Err "no public key configured for validator").
Proof. vm_compute. reflexivity. Qed.

(** A node that is no validator makes itself the only one: it finalizes what
    it signs alone, and refuses the network's blocks. *)
Example follower_trusts_itself :
  let up := boot "v9" false [] ["v1"; "v2"; "v3"] [] "" in
  dom (s_Chain up.1.1).(validatorKeys) = {["v9"]} ∧ requiredQuorum (s_Chain up.1.1) = 1 ∧
  (FinalizeBlock clock (s_Chain up.1.1) block_a).2 = inr (Err "bad block: proposer is not a registered validator") ∧
  (FinalizeBlock clock (s_Chain up.1.1) (long_block "v9" ["v9"] (s_Chain up.1.1))).2 = inl tt.
Proof. split; [apply (bool_decide_unpack _); vm_compute; reflexivity|]. vm_compute. by repeat split. Qed.
