(* ===== verification/RpcClient.v ===== *)
(** The endpoints a wallet talks to (internal/rpc: the exchange handlers of
    server.go, citizen.go, governance.go): quotes, and the requests that put a
    client's transaction into the mempool.

    What reading the request's body gives, and the decoders of the requests
    that carry a private key, are arguments; a transaction in the body is
    decoded by the model of encoding/json in [TxDecode]. *)
From stdpp Require Import base strings list gmap.
From S2P Require Import Prelude GoStd Json Types Ledger TxModel TxDecode Dex DexLedger.
From S2P Require Import Governance.
From S2P Require Import Staking Apply Block Chain ChainBuild Agent Node Rpc Examples.

#[local] Open Scope string_scope.
#[local] Open Scope Z_scope.

Definition StatusNotFound : Z := 404.
Definition StatusInternalServerError : Z := 500.

(* ------------------------------------------------------------------ *)
(** * Quotes *)

(** [parseUintQuery]; an absent parameter reads as the empty string. *)
Definition parseUintQuery (raw name : string) : res Z :=
  if empty_str raw then inr (Err ("missing " +:+ name))
  else
    match ParseUint raw with
    | (_, Some _) => inr (Err ("invalid " +:+ name))
    | (value, None) => if value =? 0 then inr (Err ("invalid " +:+ name)) else inl value
    end.

(** The pool a quote or a listing of [asset] is about. *)
Definition find_pool (c : Chain) (asset : string) : option Pool :=
  match GetDEXPool c.(c_State) asset with Some p => Some p | None => c.(c_DEX) !! asset end.

(** [handleDEXQuote] on the query's [asset], [amount] and [from]. *)
Definition handleDEXQuote (asset amount from : string) (s : Server) : Reply Z :=
  let asset := ToUpper (TrimSpace asset) in
  if empty_str asset then inr (StatusBadRequest, Err "missing asset query parameter")
  else
    match parseUintQuery amount "amount" with
    | inr e => inr (StatusBadRequest, e)
    | inl amount =>
        if amount =? 0 then inr (StatusBadRequest, Err "amount must be greater than zero")
        else
          match find_pool (s_Chain s) asset with
          | None => inr (StatusNotFound, Err "pool not found")
          | Some pool =>
              match (if negb (bool_decide (from = "asset")) then GetAmountOut amount pool.(SynReserve) pool.(AssetReserve)
                     else GetAmountOut amount pool.(AssetReserve) pool.(SynReserve)) with
              | inr e => inr (StatusBadRequest, e)
              | inl out => inl out
              end
          end
    end.

(** [handleDEXPools] for one asset. *)
Definition handleDEXPools (asset : string) (s : Server) : Reply Pool :=
  match find_pool (s_Chain s) (ToUpper (TrimSpace asset)) with
  | None => inr (StatusNotFound, Err "pool not found")
  | Some pool => inl pool
  end.

(* ------------------------------------------------------------------ *)
(** * Requests that carry a private key *)

Record dexSwapRequest : Type := mkSwapRequest {
  sw_From : Address;
  sw_AssetID : string;
  sw_Direction : string;
  sw_AmountIn : Z;
  sw_MinAmountOut : Z;
  sw_PrivateKey : string
}.

Record dexLiquidityRequest : Type := mkLiquidityRequest {
  lq_Action : string;
  lq_From : Address;
  lq_AssetID : string;
  lq_SynAmount : Z;
  lq_AssetAmount : Z;
  lq_Shares : Z;
  lq_MinShares : Z;
  lq_MinSynOut : Z;
  lq_MinAssetOut : Z;
  lq_PrivateKey : string
}.

Record dexIssueRequest : Type := mkIssueRequest {
  is_From : Address;
  is_AssetID : string;
  is_Amount : Z;
  is_PrivateKey : string
}.

(** An asset that can be traded. *)
Definition request_asset (raw : string) : Reply string :=
  let assetID := ToUpper (TrimSpace raw) in
  if empty_str assetID || bool_decide (assetID = "SYN") then inr (StatusBadRequest, Err "invalid asset_id") else inl assetID.

Definition bad {A} (e : string) : Reply A := inr (StatusBadRequest, Err e).

Section with_ed25519.
Context `{E : Ed25519}.

(** [decodePrivateKey]; [NewKeyFromSeed] is an argument. *)
Definition decodePrivateKey (NewKeyFromSeed : string → string) (raw : string) : res string :=
  match hexDecode (TrimPrefix (TrimSpace raw) "0x") with
  | None => inr (Err "invalid private key hex")
  | Some rawBytes =>
      if slen rawBytes =? 32 then inl (NewKeyFromSeed rawBytes)
      else if slen rawBytes =? 64 then inl rawBytes
      else inr (Err "invalid private key length (must be 32 or 64 bytes)")
  end.

(** The key of a request and the address it must be for. *)
Definition request_key (NewKeyFromSeed : string → string) (raw : string) (from : Address) : Reply string :=
  if empty_str raw then bad "either signed transaction or private_key is required"
  else
    match decodePrivateKey NewKeyFromSeed raw with
    | inr e => inr (StatusBadRequest, e)
    | inl privKey =>
        if negb (empty_str from) && negb (bool_decide (from = AddressFromPublicKey (ed_Public privKey)))
        then bad "from address does not match private key"
        else inl privKey
    end.

(** A transaction as the handlers build it: no public key, the required fee. *)
Definition client_tx (c : Chain) (privKey : string) (to : Address) (amount : Z) (assetID : string) (md : list KeyValuePair) (now : Z) : Tx :=
  let from := AddressFromPublicKey (ed_Public privKey) in
  let tx fee := mkTx "" c.(c_TxChainID) from to amount fee (GetNextNonce c.(c_State) from) "" "" assetID md now in
  tx (RequiredFee (tx 0)).

(** The part of [handleDEXSwap] that builds the transaction. *)
Definition swap_tx (seed : string → string) (now : Z) (req : dexSwapRequest) (c : Chain) : Reply (string * Tx) :=
  match request_key seed req.(sw_PrivateKey) req.(sw_From) with
  | inr e => inr e
  | inl privKey =>
      match request_asset req.(sw_AssetID) with
      | inr e => inr e
      | inl assetID =>
          let direction := if negb (bool_decide (req.(sw_Direction) = "asset_for_syn")) then "syn_for_asset" else req.(sw_Direction) in
          if req.(sw_AmountIn) =? 0 then bad "amount_in must be greater than zero"
          else
            inl (privKey, client_tx c privKey (PoolAddress assetID) req.(sw_AmountIn)
              (if bool_decide (direction = "asset_for_syn") then assetID else "syn")
              [mkKV "type" "dex_swap"; mkKV "asset_id" assetID; mkKV "direction" direction; mkKV "min_amount_out" (fmt_d req.(sw_MinAmountOut))] now)
      end
  end.

(** That of [handleDEXLiquidity]. *)
Definition liquidity_tx (seed : string → string) (now : Z) (req : dexLiquidityRequest) (c : Chain) : Reply (string * Tx) :=
  match request_key seed req.(lq_PrivateKey) req.(lq_From) with
  | inr e => inr e
  | inl privKey =>
      match request_asset req.(lq_AssetID) with
      | inr e => inr e
      | inl assetID =>
          let tx md := (privKey, client_tx c privKey (PoolAddress assetID) 0 "" md now) in
          if bool_decide (ToLower (TrimSpace req.(lq_Action)) = "remove") then
            if req.(lq_Shares) =? 0 then bad "shares must be greater than zero for remove liquidity"
            else inl (tx [mkKV "type" "dex_remove_liquidity"; mkKV "asset_id" assetID; mkKV "shares" (fmt_d req.(lq_Shares));
                          mkKV "min_syn_out" (fmt_d req.(lq_MinSynOut)); mkKV "min_asset_out" (fmt_d req.(lq_MinAssetOut))])
          else if (req.(lq_SynAmount) =? 0) || (req.(lq_AssetAmount) =? 0) then bad "syn_amount and asset_amount must be greater than zero"
          else inl (tx [mkKV "type" "dex_add_liquidity"; mkKV "asset_id" assetID; mkKV "syn_amount" (fmt_d req.(lq_SynAmount));
                        mkKV "asset_amount" (fmt_d req.(lq_AssetAmount)); mkKV "min_shares" (fmt_d req.(lq_MinShares))])
      end
  end.

(** That of [handleDEXIssue]. *)
Definition issue_tx (seed : string → string) (now : Z) (req : dexIssueRequest) (c : Chain) : Reply (string * Tx) :=
  match request_key seed req.(is_PrivateKey) req.(is_From) with
  | inr e => inr e
  | inl privKey =>
      match request_asset req.(is_AssetID) with
      | inr e => inr e
      | inl assetID =>
          if req.(is_Amount) =? 0 then bad "amount must be greater than zero"
          else inl (privKey, client_tx c privKey (AddressFromPublicKey (ed_Public privKey)) req.(is_Amount) assetID
                      [mkKV "type" "asset_issue"; mkKV "asset_id" assetID; mkKV "amount" (fmt_d req.(is_Amount))] now)
      end
  end.

(* ------------------------------------------------------------------ *)
(** * The handlers *)

(** Submitting, saving and answering with the transaction's ID. *)
Definition submit_tx (now : Z) (tx : Tx) (s : Server) : Server * list Effect * Reply string :=
  match SubmitTx now tx (s_Chain s) with
  | (c, inr e) => (set_s_Chain c s, [], inr (StatusBadRequest, e))
  | (c, inl _) => let s := set_s_Chain c s in (s, save s, inl tx.(ID))
  end.

(** The body decoded as a transaction that has a signature. *)
Definition signed_body (body : string) : option Tx :=
  tx ← unmarshal_tx body; if empty_str tx.(Signature) then None else Some tx.

(** What [handleDEXSwap], [handleDEXLiquidity] and [handleDEXIssue] share. *)
Definition dex_request {R} (decode : string → res R) (build : R → Chain → Reply (string * Tx)) (now : Z) (post : bool) (body : res string)
    (s : Server) : Server * list Effect * Reply string :=
  if negb post then (s, [], inr (StatusMethodNotAllowed, Err "method not allowed"))
  else
    match body with
    | inr e => (s, [], inr (StatusBadRequest, e))
    | inl body =>
        match signed_body body with
        | Some signedTx => submit_tx now signedTx s
        | None =>
            match decode body with
            | inr e => (s, [], inr (StatusBadRequest, e))
            | inl req =>
                match build req (s_Chain s) with
                | inr e => (s, [], inr e)
                | inl (privKey, tx) =>
                    match Sign privKey tx with
                    | (_, inr e) => (s, [], inr (StatusInternalServerError, e))
                    | (tx, inl _) => submit_tx now tx s
                    end
                end
            end
        end
    end.

(** [handleDEXSwap], [handleDEXLiquidity], [handleDEXIssue] *)
Definition handleDEXSwap (seed : string → string) (decode : string → res dexSwapRequest) (now : Z) :=
  dex_request decode (swap_tx seed now) now.
Definition handleDEXLiquidity (seed : string → string) (decode : string → res dexLiquidityRequest) (now : Z) :=
  dex_request decode (liquidity_tx seed now) now.
Definition handleDEXIssue (seed : string → string) (decode : string → res dexIssueRequest) (now : Z) :=
  dex_request decode (issue_tx seed now) now.

(** [decodeAndSubmitCitizenGovernanceTx] *)
Definition decodeAndSubmitCitizenGovernanceTx (requiredType : string) (now : Z) (post : bool) (body : res Tx) (s : Server)
  : Server * list Effect * Reply string :=
  if negb post then (s, [], inr (StatusMethodNotAllowed, Err "method not allowed"))
  else
    match body with
    | inr e =>
        if bool_decide (e = Err "http: request body too large") then (s, [], inr (StatusRequestEntityTooLarge, Err "request body too large"))
        else (s, [], inr (StatusBadRequest, e))
    | inl tx =>
        if negb (bool_decide (metadataValue tx.(Metadata) "type" = requiredType)) then (s, [], bad "expected a signed transaction of another type")
        else submit_tx now tx s
    end.

(** [handleCitizenStake], [handleCitizenUnstake], [handleCitizenClaimRewards] *)
Definition handleCitizenStake := decodeAndSubmitCitizenGovernanceTx "citizen_stake".
Definition handleCitizenUnstake := decodeAndSubmitCitizenGovernanceTx "citizen_unstake".
Definition handleCitizenClaimRewards := decodeAndSubmitCitizenGovernanceTx "citizen_claim_rewards".

(** The governance endpoints need a node with governance. *)
Definition governance_configured (s : Server) : bool :=
  match s_Node s with Some n => bool_decide (is_Some n.(n_Governance)) | None => false end.
Definition governance_request (requiredType : string) (now : Z) (post : bool) (body : res Tx) (s : Server) : Server * list Effect * Reply string :=
  if governance_configured s then decodeAndSubmitCitizenGovernanceTx requiredType now post body s
  else (s, [], inr (StatusServiceUnavailable, Err "governance not configured for this deployment")).

(** [handleGovernancePropose], [handleGovernanceVote], [handleGovernanceExecute] *)
Definition handleGovernancePropose := governance_request "governance_propose".
Definition handleGovernanceVote := governance_request "governance_vote".
Definition handleGovernanceExecute := governance_request "governance_execute".

End with_ed25519.

(* ------------------------------------------------------------------ *)
(** * Facts: queueing *)

Section queue.
Context `{E : Ed25519}.

Definition queued (now : Z) (tx : Tx) (s : Server) (x : Server * list Effect * Reply string) : Prop :=
  admissible now tx (s_Chain s) ∧
  x = (set_s_Chain (admit_tx tx (s_Chain s)) s, save (set_s_Chain (admit_tx tx (s_Chain s)) s), inl tx.(ID)).
Definition refused (s : Server) (x : Server * list Effect * Reply string) : Prop := ∃ e, x = (s, [], inr e).

(** A request that counts for the transactions satisfying [ok]: one that is
    admissible is queued, saved and named, anything else changes nothing. *)
Definition takes (now : Z) (ok : Tx → Prop) (s : Server) (x : Server * list Effect * Reply string) : Prop :=
  (∃ tx, ok tx ∧ queued now tx s x) ∨ ((∀ tx, ok tx → ¬ admissible now tx (s_Chain s)) ∧ refused s x).

Lemma takes_none now (ok : Tx → Prop) s e : (∀ tx, ok tx → False) → takes now ok s (s, [], inr e).
Proof. intros Hno. right. split; [intros tx Hok; by destruct (Hno tx)|by exists e]. Qed.

Lemma submit_tx_takes now tx (ok : Tx → Prop) s : (∀ t, ok t ↔ t = tx) → takes now ok s (submit_tx now tx s).
Proof.
  intros Hok. unfold submit_tx. destruct (SubmitTx_cases now tx (s_Chain s)) as [[Ha ->]|[Hn [e ->]]].
  - left. exists tx. split; [by apply Hok|]. by split.
  - right. split; [by intros t ->%Hok|]. eexists. f_equal. f_equal. by destruct s as [[|[]]].
Qed.

(** Nothing can be signed without naming its key. *)
Lemma Sign_no_key priv tx : tx.(PublicKey) = "" → ∃ t e, Sign priv tx = (t, inr e).
Proof.
  intros Hk. unfold Sign, get, lift, mbind, SM_bind, validateBasic. rewrite Hk.
  destruct (_ =? 0); [by eexists _, _|]. destruct (_ || _); [by eexists _, _|]. destruct (_ =? 0); [by eexists _, _|].
  destruct (_ =? 0); by eexists _, _.
Qed.

Lemma dex_request_takes {R} decode (build : R → Chain → Reply (string * Tx)) now post body s :
  (∀ req c k tx, build req c = inl (k, tx) → tx.(PublicKey) = "") →
  takes now (λ tx, post = true ∧ ∃ text, body = inl text ∧ signed_body text = Some tx) s (dex_request decode build now post body s).
Proof.
  intros Hb. unfold dex_request. destruct post; [|apply takes_none; by intros tx [? _]]. cbn [negb].
  destruct body as [text|e]; [|apply takes_none; by intros tx (_ & ? & ? & _)].
  destruct (signed_body text) as [tx|] eqn:Hs.
  - apply submit_tx_takes. intros t. split; [intros (_ & x & [= <-] & Hx); congruence|intros ->; by eauto].
  - assert (∀ e, takes now (λ tx, true = true ∧ ∃ t, (inl text : res string) = inl t ∧ signed_body t = Some tx) s (s, [], inr e)) as Hno
      by (intros e; apply takes_none; intros tx (_ & x & [= <-] & Hx); congruence).
    destruct (decode text) as [req|e]; [|apply Hno]. destruct (build req (s_Chain s)) as [[k tx]|e] eqn:Hbu; [|apply Hno].
    destruct (Sign_no_key k tx (Hb _ _ _ _ Hbu)) as (t & e & ->). apply Hno.
Qed.
End queue.

(* ------------------------------------------------------------------ *)
(** * Facts: what a swap moves *)

(** The sender after a swap of [n] for [out]. *)
Definition swapped (tx : Tx) (n out : Z) (b b' : Account) : Prop :=
  let id := dex_asset_id tx in
  if swap_from_syn tx id
  then b'.(Balance) = u64 (b.(Balance) - (n + tx.(Fee))) ∧ asset_of b' id = u64 (asset_of b id + out)
  else b'.(Balance) = u64 (u64 (b.(Balance) - tx.(Fee)) + out) ∧ asset_of b' id = u64 (asset_of b id - n).

Lemma acct_here a acc s : acct (put_acct a acc s) a = acc.
Proof. unfold acct, put_acct. cbn. by rewrite lookup_insert_eq. Qed.
Lemma acct_elsewhere a b acc id p s : a ≠ b → acct (put_pool id p (put_acct b acc s)) a = acct s a.
Proof. intros Hne. unfold acct, put_acct, put_pool. cbn. by rewrite lookup_insert_ne. Qed.

Lemma dex_swap_exact tx s : tx.(From) ≠ PoolAddress (dex_asset_id tx) → tx.(Amount) ≠ 0 →
  wp (dex_swap tx (Get s tx.(From)))
    (λ _ s', ∃ p out, s.(DEXPools) !! dex_asset_id tx = Some p ∧
       (if swap_from_syn tx (dex_asset_id tx) then GetAmountOut tx.(Amount) p.(SynReserve) p.(AssetReserve)
        else GetAmountOut tx.(Amount) p.(AssetReserve) p.(SynReserve)) = inl out ∧
       (let m := (parseTxMetadataUint64 tx.(Metadata) "min_amount_out").1 in 0 < m → m ≤ out) ∧
       swapped tx tx.(Amount) out (acct s tx.(From)) (acct s' tx.(From)))
    (λ _ _, True) s.
Proof.
  intros Hne Hn. unfold dex_swap, swapped. cbv zeta. rewrite (proj2 (Z.eqb_neq _ 0)) by done.
  destruct (swap_from_syn tx (dex_asset_id tx)) eqn:Hd; [unfold swap_syn_for_asset|unfold swap_asset_for_syn]; wp_go; try done.
  all: rewrite acct_elsewhere in * by done.
  all: match goal with Hg : GetAmountOut _ _ _ = inl ?a |- _ => exists p, a; split; [done|]; split; [done|] end.
  all: match goal with Hm : (0 <? _) && _ = false |- _ => split; [intros ?; rewrite (proj2 (Z.ltb_lt 0 _)) in Hm by done; by apply Z.ltb_ge in Hm|] end.
  all: match goal with Hw : assets_write _ _ _ = inl ?x |- context [bump_nonce (set_Balance _ ?x)] => pose proof (assets_write_of _ _ _ _ Hw) as Ha end.
  all: rewrite acct_here; split; [|exact Ha].
  - match goal with Hs : safeAdd _ _ = inl _ |- _ => apply safeAdd_inl in Hs as [_ ->]; done end.
  - done.
Qed.

(** A block applies a queued swap as the exchange's. *)
Lemma swap_applied `{E : Ed25519} tx ctx s s' : tx_type tx = "dex_swap" → sort_metadata tx = tx → ApplyTransaction tx ctx s = (s', inl tt) →
  ∃ ts, dex_swap (set_Timestamp ts tx) (Get s tx.(From)) s = (s', inl tt).
Proof.
  intros Hty Hso Hrun. assert (∃ ts, with_block_time ctx tx = set_Timestamp ts tx) as [ts Hts].
  { unfold with_block_time. destruct (_ =? 0); [exists tx.(Timestamp); by destruct tx|by eexists]. }
  exists ts. unfold ApplyTransaction, fail_if, mbind, SM_bind in Hrun. destruct (_ && _); [done|]. rewrite Hts in Hrun.
  change (tx_type (set_Timestamp ts tx)) with (tx_type tx) in Hrun. rewrite Hty in Hrun.
  change (IsValidatorTxType "dex_swap") with false in Hrun. cbn [andb] in Hrun. unfold ApplyTx in Hrun.
  destruct (Verify_ok_case (set_Timestamp ts tx)) as [[Hv _]|(e & Hv & _)].
  - rewrite Hv in Hrun. assert (sort_metadata (set_Timestamp ts tx) = set_Timestamp ts tx) as Hs.
    { change (sort_metadata (set_Timestamp ts tx)) with (set_Timestamp ts (sort_metadata tx)). by rewrite Hso. }
    rewrite Hs in Hrun. unfold applyVerified in Hrun. change (tx_type (set_Timestamp ts tx)) with (tx_type tx) in Hrun. rewrite Hty in Hrun.
    rewrite bool_decide_eq_false_2, bool_decide_eq_true_2 in Hrun by (apply (bool_decide_unpack _); vm_compute; reflexivity).
    unfold applyDEXTx, gets, fail_if, mbind, SM_bind in Hrun. cbn [From set_Timestamp] in Hrun. destruct (negb _); [done|]. exact Hrun.
  - destruct (Verify (set_Timestamp ts tx)) as [t r]. cbn in Hv. by subst r.
Qed.

(* ------------------------------------------------------------------ *)
(** * The main theorems *)

(** (C20) What a wallet's requests do. Whatever is posted to the exchange, citizen
    and governance endpoints, with whatever seed function and decoders: a
    request to the exchange is served exactly when its body is a signed
    transaction the chain admits, of whatever type (a transfer posted to
    /dex/swap is served); one to a citizen endpoint when moreover its type is
    the endpoint's; one to a governance endpoint when moreover governance is
    configured on the node. It then puts that transaction into the mempool,
    saves the chain and answers with its ID. Every other request is refused and
    changes nothing, those that hand over a private key included. *)
Theorem client_requests `{E : Ed25519} seed dswap dliq dissue now post body tbody type s :
  let signed := λ tx, post = true ∧ ∃ text, body = inl text ∧ signed_body text = Some tx in
  let typed := λ tx, post = true ∧ tbody = inl tx ∧ metadataValue tx.(Metadata) "type" = type in
  takes now signed s (handleDEXSwap seed dswap now post body s) ∧
  takes now signed s (handleDEXLiquidity seed dliq now post body s) ∧
  takes now signed s (handleDEXIssue seed dissue now post body s) ∧
  takes now typed s (decodeAndSubmitCitizenGovernanceTx type now post tbody s) ∧
  takes now (λ tx, governance_configured s = true ∧ typed tx) s (governance_request type now post tbody s).
Proof.
  intros signed typed.
  assert (takes now typed s (decodeAndSubmitCitizenGovernanceTx type now post tbody s)) as Ht.
  { unfold decodeAndSubmitCitizenGovernanceTx, typed. destruct post; [|apply takes_none; by intros tx [? _]]. cbn [negb].
    destruct tbody as [tx|e]; [|destruct (bool_decide _); apply takes_none; by intros tx (_ & ? & _)].
    destruct (bool_decide_reflect (metadataValue tx.(Metadata) "type" = type)) as [Hty|Hty]; cbn [negb].
    - apply submit_tx_takes. intros t. split; [by intros (_ & [= ->] & _)|by intros ->].
    - apply takes_none. by intros t (_ & [= ->] & ?). }
  split; [|split; [|split; [|split; [exact Ht|]]]].
  - apply dex_request_takes. intros req c k tx. unfold swap_tx. destruct (request_key _ _ _); [|done]. destruct (request_asset _); [|done].
    destruct (_ =? 0); [done|]. by intros [= <- <-].
  - apply dex_request_takes. intros req c k tx. unfold liquidity_tx. destruct (request_key _ _ _); [|done]. destruct (request_asset _); [|done].
    destruct (bool_decide _); [destruct (_ =? 0); [done|]|destruct (_ || _); [done|]]; by intros [= <- <-].
  - apply dex_request_takes. intros req c k tx. unfold issue_tx. destruct (request_key _ _ _); [|done]. destruct (request_asset _); [|done].
    destruct (_ =? 0); [done|]. by intros [= <- <-].
  - unfold governance_request. destruct (governance_configured s); [|apply takes_none; by intros tx [? _]].
    destruct Ht as [(tx & Hok & Hq)|[Hno Hr]]; [left; by exists tx|right]. split; [|done]. intros tx [_ Htx]. by apply Hno.
Qed.

(** (C19) A quote is honoured. If a node quotes [out] for an amount, and a block
    accepts a swap of that amount, in that direction, while the pool is as it
    was, then the trader pays the amount and the fee and receives exactly
    [out] (balances being 64-bit words), which is at least the minimum the
    trader asked for. *)
Theorem quote_honoured `{E : Ed25519} asset amount from out srv tx ctx s s' :
  handleDEXQuote asset amount from srv = inl out →
  dex_asset_id tx = ToUpper (TrimSpace asset) → tx.(Amount) = (ParseUint amount).1 →
  swap_from_syn tx (dex_asset_id tx) = negb (bool_decide (from = "asset")) →
  s.(DEXPools) !! dex_asset_id tx = find_pool (s_Chain srv) (ToUpper (TrimSpace asset)) →
  tx.(From) ≠ PoolAddress (dex_asset_id tx) →
  tx_type tx = "dex_swap" → sort_metadata tx = tx → ApplyTransaction tx ctx s = (s', inl tt) →
  swapped tx tx.(Amount) out (acct s tx.(From)) (acct s' tx.(From)) ∧
  (let m := (parseTxMetadataUint64 tx.(Metadata) "min_amount_out").1 in 0 < m → m ≤ out).
Proof.
  unfold handleDEXQuote. intros Hq Hid Hn Hd Hp Hne Hty Hso Hrun. destruct (empty_str _); [done|].
  unfold parseUintQuery in Hq. destruct (empty_str amount); [done|]. destruct (ParseUint amount) as [n [e|]]; [done|].
  destruct (Z.eqb_spec n 0) as [|Hn0]; [done|]. cbn [fst] in Hn. rewrite (proj2 (Z.eqb_neq n 0)) in Hq by done. rewrite <- Hid in Hq, Hp.
  destruct (find_pool _ _) as [pool|]; [|done].
  destruct (swap_applied tx ctx s s' Hty Hso Hrun) as (ts & Hsw).
  assert (wp (dex_swap (set_Timestamp ts tx) (Get s tx.(From))) (λ _ s', swapped tx tx.(Amount) out (acct s tx.(From)) (acct s' tx.(From)) ∧
    (let m := (parseTxMetadataUint64 tx.(Metadata) "min_amount_out").1 in 0 < m → m ≤ out)) (λ _ _, True) s) as Hw.
  { eapply wp_mono; [apply (dex_swap_exact (set_Timestamp ts tx)); [done|cbn; congruence]| |done]. intros [] s1 (p & o & Hp' & Hg & Hm & Hs).
    change (dex_asset_id (set_Timestamp ts tx)) with (dex_asset_id tx) in *. change (Amount (set_Timestamp ts tx)) with tx.(Amount) in *.
    change (swap_from_syn (set_Timestamp ts tx) _) with (swap_from_syn tx (dex_asset_id tx)) in Hg.
    assert (pool = p) as -> by congruence. rewrite Hd, Hn in Hg.
    assert (o = out) as ->; [|done]. destruct (negb _); rewrite Hg in Hq; congruence. }
  apply (wp_ok _ _ _ _ _ _ Hw Hsw).
Qed.

(* ------------------------------------------------------------------ *)
(** * A pool, and a trader *)

(** Alice's SYN against a pool of gold. *)
Definition gold_ledger : State :=
  Eval vm_compute in
  set_DEXPools {["GOLD" := mkPool "GOLD" 50000 8000 20000 {[bob := 20000]}]}
    (set_Accounts (<[alice := mkAccount 1000000 None 0]> {[PoolAddress "GOLD" := mkAccount 50000 (Some {["GOLD" := 8000]}) 0]}) NewState).
Definition gold_server : Server := Eval vm_compute in NewServer (ChainOnly (set_State gold_ledger chain0)) true.
Definition gold_swap : Tx :=
  Eval vm_compute in signed "alice" (draft "alice" (PoolAddress "GOLD") 1000 10 0 "syn"
    [mkKV "asset_id" "GOLD"; mkKV "direction" "syn_for_asset"; mkKV "min_amount_out" "150"; mkKV "type" "dex_swap"]).

Example gold_quote : handleDEXQuote " gold" "1000" "syn" gold_server = inl 156.
Proof. vm_compute. reflexivity. Qed.
Example gold_swaps : (ApplyTransaction gold_swap ctx0 gold_ledger).2 = inl tt.
Proof. vm_compute. reflexivity. Qed.

Lemma quote_honoured_witness :
  swapped gold_swap 1000 156 (acct gold_ledger alice) (acct (ApplyTransaction gold_swap ctx0 gold_ledger).1 alice) ∧ (0 < 150 → 150 ≤ 156).
Proof.
  exact (quote_honoured " gold" "1000" "syn" 156 gold_server gold_swap ctx0 gold_ledger _ gold_quote
    ltac:(vm_compute; reflexivity) ltac:(vm_compute; reflexivity) ltac:(vm_compute; reflexivity) ltac:(vm_compute; reflexivity)
    ltac:(vm_compute; discriminate) ltac:(vm_compute; reflexivity) ltac:(vm_compute; reflexivity) (run_ok _ _ _ gold_swaps)).
Defined.

(** A signed swap is taken over HTTP as the wallet printed it. *)
Example swap_posted :
  let '(s, out, r) := handleDEXSwap id (λ _, inr (Err "no request")) 1700000000 true (inl (marshal_tx gold_swap)) gold_server in
  r = inl gold_swap.(ID) ∧ (s_Chain s).(Mempool) !! gold_swap.(ID) = Some gold_swap ∧ length out = 1%nat.
Proof. vm_compute. by repeat split. Qed.

(** The requests that hand over a private key never work: the handlers leave
    the public key out of the transaction they build, and [Sign] refuses to
    sign it. *)
Example key_request_refused :
  let key := hexEncode "................................" in
  let r1 := handleDEXSwap id (λ _, inl (mkSwapRequest "" "gold" "syn_for_asset" 1000 150 key)) 1700000000 true (inl "{}") gold_server in
  let r2 := handleDEXIssue id (λ _, inl (mkIssueRequest "" "gold" 1000 key)) 1700000000 true (inl "{}") gold_server in
  r1 = (gold_server, [], inr (StatusInternalServerError, Err "missing public key")) ∧
  r2 = (gold_server, [], inr (StatusInternalServerError, Err "missing public key")).
Proof. vm_compute. by split. Qed.

(** A liquidity request lacks an amount as well. *)
Example liquidity_request_refused :
  (handleDEXLiquidity id (λ _, inl (mkLiquidityRequest "add" "" "gold" 1000 100 0 0 0 0 (hexEncode "................................")))
     1700000000 true (inl "{}") gold_server).2 = inr (StatusInternalServerError, Err "amount must be greater than zero").
Proof. vm_compute. reflexivity. Qed.
