(* ===== verification/Testnet.v ===== *)
(** The address of the test network (cmd/cloudless-registry/testnet.go): its
    node announces, signed, where it can be reached, and the website follows
    the latest announcement.

    Announcing is two steps, as the handler releases its lock while it asks
    the announced address whether it serves the network. Parsing URLs and IP
    addresses, the site's configuration, clock readings, the answer of the
    announced address and the outcome of writing the file are arguments. *)
From stdpp Require Import base strings list gmap.
From Stdlib Require Import Ascii.
From S2P Require Import Prelude GoStd Types TxModel Block GoText Examples.

#[local] Open Scope string_scope.
#[local] Open Scope Z_scope.

(** [TestnetAnnounceMessage] *)
Definition TestnetAnnounceMessage (network apiURL : string) (timestamp : Z) : string :=
  let nl := String (chr 10) "" in
  "SYNTHOS_TESTNET_ANNOUNCE_V1" +:+ nl +:+ "network=" +:+ network +:+ nl +:+ "url=" +:+ apiURL +:+ nl +:+ "timestamp=" +:+ fmt_d timestamp.

Definition testnetAnnounceMaxSkew : Z := 10 * minute.

Record testnetAnnouncement : Type := mkAnnouncement { an_Network : string; an_URL : string; an_Timestamp : Z; an_Accepted : string }.

(** [kept_in] holds what can be read at the relay's path; [None] for a relay
    without a path. *)
Record testnetRelay : Type := mkTestnet {
  tn_path : bool;
  tn_file : option testnetAnnouncement;
  tn_current : option testnetAnnouncement;
  tn_loaded : bool
}.

#[global] Instance eta_testnet : Eta testnetRelay := λ t, mkTestnet t.(tn_path) t.(tn_file) t.(tn_current) t.(tn_loaded).

(** [load] *)
Definition tn_load (t : testnetRelay) : testnetRelay :=
  if t.(tn_loaded) then t
  else
    let t := t <| tn_loaded := true |> in
    if negb t.(tn_path) then t
    else match t.(tn_file) with
         | Some a => if empty_str a.(an_URL) then t else t <| tn_current := Some a |>
         | None => t
         end.

(** [save]; [ok] is whether writing and renaming succeed. *)
Definition tn_save (ok : bool) (t : testnetRelay) : testnetRelay :=
  match t.(tn_current) with
  | Some a => if t.(tn_path) && ok then t <| tn_file := Some a |> else t
  | None => t
  end.

(** What [net/url] makes of a text. *)
Record URL : Type := mkURL { u_Scheme : string; u_User : bool; u_Host : string; u_Path : string; u_RawQuery : string; u_Fragment : string }.

Definition host_char (c : ascii) : bool :=
  ((97 <=? code c) && (code c <=? 122)) || is_digit c || (code c =? 45) || (code c =? 46).

Record announceRequest : Type := mkAnnounce { aq_Network : string; aq_URL : string; aq_Timestamp : Z; aq_PublicKey : string; aq_Signature : string }.

(** An answer: a status and a text, [inl] for those that say "ok". *)
Definition Answer : Type := (string * string) + (Z * string).

(** The time between a moment and a second since 1970: saturates. *)
Definition skew (now ts : Z) : Z := Z.max (-9223372036854775808) (Z.min 9223372036854775807 (now - ts * second)).

Section announce.
Context `{E : Ed25519} (Parse : string → option URL) (ParseIP : string → bool).

(** [validTestnetURL] *)
Definition validTestnetURL (raw : string) : option string :=
  match Parse (TrimSpace raw) with
  | None => None
  | Some u =>
      if negb (bool_decide (u.(u_Scheme) = "https")) || u.(u_User) || negb (empty_str u.(u_RawQuery)) || negb (empty_str u.(u_Fragment)) then None
      else if negb (empty_str u.(u_Path)) && negb (bool_decide (u.(u_Path) = "/")) then None
      else
        let host := ToLower u.(u_Host) in
        if empty_str host || Contains host ":" || ParseIP host || negb (Contains host ".") then None
        else if negb (sforall host_char host) then None else Some ("https://" +:+ host)
  end.

(** The checks of [handleTestnetAnnounce]; [cfg] is the site's network and
    announcer. *)
Definition announce_checks (cfg : option (string * string)) (now : Z) (req : announceRequest) : string + (Z * string) :=
  match cfg with
  | None => inr (503, "no test network is configured on this site")
  | Some (network, announcer) =>
      if empty_str network || empty_str announcer then inr (503, "testnet.json has no network or announcer")
      else if negb (bool_decide (req.(aq_Network) = network)) then inr (400, "this site follows another network")
      else
        match validTestnetURL req.(aq_URL) with
        | None => inr (400, "url must be a bare https address like https://name.trycloudflare.com")
        | Some apiURL =>
            if negb (bool_decide (apiURL = req.(aq_URL))) then inr (400, "url must be a bare https address like https://name.trycloudflare.com")
            else
              match hexDecode (TrimPrefix req.(aq_PublicKey) "0x"), hexDecode (TrimPrefix req.(aq_Signature) "0x") with
              | Some pub, Some sig =>
                  if negb (slen pub =? 32) || negb (slen sig =? 64) then inr (400, "bad public key or signature")
                  else if negb (EqualFold (AddressFromPublicKey pub) announcer) then inr (403, "this key may not announce the test network's address")
                  else if negb (ed_Verify pub (TestnetAnnounceMessage req.(aq_Network) req.(aq_URL) req.(aq_Timestamp)) sig)
                  then inr (403, "bad signature")
                  else
                    let d := skew now req.(aq_Timestamp) in
                    if (testnetAnnounceMaxSkew <? d) || (d <? - testnetAnnounceMaxSkew) then inr (400, "timestamp is too far from the current time")
                    else inl apiURL
              | _, _ => inr (400, "bad public key or signature")
              end
        end
  end.

(** Whether a second is not later than that of the address followed. *)
Definition older (ts : Z) (t : testnetRelay) : bool :=
  match t.(tn_current) with Some a => ts <=? a.(an_Timestamp) | None => false end.

(** [handleTestnetAnnounce] up to its request to the announced address: an
    answer, or the announcement it goes on with. [accepted] is the clock's
    text. *)
Definition announce_begin (cfg : option (string * string)) (now : Z) (accepted : string) (post : bool) (body : res announceRequest) (t : testnetRelay)
  : testnetRelay * (Answer + testnetAnnouncement) :=
  if negb post then (t, inl (inr (405, "method not allowed")))
  else
    match body with
    | inr _ => (t, inl (inr (400, "bad json")))
    | inl req =>
        match announce_checks cfg now req with
        | inr e => (t, inl (inr e))
        | inl apiURL =>
            let t := tn_load t in
            if older req.(aq_Timestamp) t then
              (t, inl (if bool_decide (an_URL <$> t.(tn_current) = Some apiURL) then inl (apiURL, "already current")
                       else inr (409, "a newer address was already announced")))
            else (t, inr (mkAnnouncement req.(aq_Network) apiURL req.(aq_Timestamp) accepted))
        end
    end.

(** From that address's answer on. *)
Definition announce_settle (checked : res unit) (saved : bool) (a : testnetAnnouncement) (t : testnetRelay) : testnetRelay * Answer :=
  match checked with
  | inr (Err e) => (t, inr (502, e))
  | inr _ => (t, inr (502, ""))
  | inl _ =>
      if older a.(an_Timestamp) t then (t, inr (409, "a newer address was already announced"))
      else (tn_save saved (t <| tn_current := Some a |>), inl (a.(an_URL), "updated"))
  end.


End announce.

(* ------------------------------------------------------------------ *)
(** * Runs *)

Section runs.
Context `{E : Ed25519} (Parse : string → option URL) (ParseIP : string → bool).


















End runs.

(* ------------------------------------------------------------------ *)
(** * The main theorem *)


Definition parse0 (s : string) : option URL := if HasPrefix s "https://" then Some (mkURL "https" false (sdrop 8 s) "" "" "") else None.
Definition no_ip (s : string) : bool := false.
Definition site0 : option (string * string) := Some ("synthos_testnet", addr_of "announcer").
Definition announce_at (url : string) (ts : Z) : announceRequest :=
  mkAnnounce "synthos_testnet" url ts (hexEncode (key_of "announcer")) (hexEncode (ed_Sign "announcer" (TestnetAnnounceMessage "synthos_testnet" url ts))).
Definition tn0 : testnetRelay := mkTestnet true None None false.
Definition begun : testnetRelay * (Answer + testnetAnnouncement) :=
  Eval vm_compute in announce_begin parse0 no_ip site0 (1800000005 * second) "now" true (inl (announce_at "https://a.example" 1800000000)) tn0.
Definition waiting : testnetAnnouncement := mkAnnouncement "synthos_testnet" "https://a.example" 1800000000 "now".




(** An announcement that was overtaken while its address was asked is
    dropped. *)
Example overtaken :
  let t := (announce_settle (inl tt) true waiting begun.1).1 in
  announce_settle (inl tt) true (mkAnnouncement "synthos_testnet" "https://b.example" 1799999999 "then") t
    = (t, inr (409, "a newer address was already announced")).
Proof. vm_compute. reflexivity. Qed.
