(* ===== verification/SilentNode.v ===== *)
(** The client an operator runs at home (cmd/silentnode/main.go): its key
    file, the heartbeats with which it proves its uptime to the registry, and
    the approvals it signs for proposals that reach it by mail.

    What goes over HTTP is a request record and a status code: a [Relays]
    answers the two kinds of post, and [registries] is the instance whose
    relays are modelled registries. The fields of a node that only its status
    page shows are left out; of the proving status, which is computed in
    float64, the eligibility stays as a field. *)
From stdpp Require Import base strings list gmap pretty.
From Stdlib Require Import Ascii.
From S2P Require Import Prelude GoStd Sha256 Json JsonParse JsonRound Types TxModel Block.
From S2P Require Import Messages GoText Registry RewardKeeper RegistryFacts RegistryFrame.
From S2P Require Import RegistryPayFacts Slashing RpcRound.

#[local] Open Scope string_scope.
#[local] Open Scope Z_scope.

Definition defaultChainRPC : string := "https://rpc.ishamwilliamsblockchains.com".
Definition defaultRelayURLs : string := "https://82-29-54-7.sslip.io,http://127.0.0.1:8085".
Definition coreCapabilities : list string :=
  ["ed25519"; "canonical_serialization"; "validator_registry"; "proposal_rotation"; "quorum"; "replay_protection"; "persistent_storage"].

(** ["%0wd"] *)
Fixpoint zeros (n : nat) : string := match n with O => "" | S n => String (chr 48) (zeros n) end.
Definition fmt_0d (w : nat) (z : Z) : string :=
  let d := fmt_d (Z.abs z) in
  if z <? 0 then "-" +:+ zeros (w - 1 - String.length d) +:+ d else zeros (w - String.length d) +:+ d.

Record nodeKey : Type := mkNodeKey {
  k_NodeID : string;
  k_PublicKey : string;
  k_PrivateKey : string;
  k_CreatedAt : string;
  k_Format : string;
  k_PayoutAddress : string
}.

Record silentNode : Type := mkSilent {
  sn_NodeID : string;
  sn_PublicKey : string;
  sn_HardwareCommitment : string;
  sn_HeartbeatCount : Z;
  sn_BlocksValidated : Z;
  sn_VotesCast : Z;
  sn_LastNonce : string;
  sn_LastTip : string;
  sn_LastStateRoot : string;
  sn_LastHeight : Z;
  sn_RelayURLs : list string;
  sn_LastRelayOK : list string;
  sn_LastRelayFailed : list string;
  sn_RewardEligible : bool;
  sn_PayoutAddress : string
}.

#[global] Instance eta_silent : Eta silentNode := λ n,
  mkSilent n.(sn_NodeID) n.(sn_PublicKey) n.(sn_HardwareCommitment) n.(sn_HeartbeatCount) n.(sn_BlocksValidated) n.(sn_VotesCast)
    n.(sn_LastNonce) n.(sn_LastTip) n.(sn_LastStateRoot) n.(sn_LastHeight) n.(sn_RelayURLs) n.(sn_LastRelayOK) n.(sn_LastRelayFailed)
    n.(sn_RewardEligible) n.(sn_PayoutAddress).

(* ------------------------------------------------------------------ *)
(** * Relays *)

(** [strings.FieldsFunc] *)
Fixpoint fields_go (sep : ascii → bool) (s cur : string) : list string :=
  match s with
  | EmptyString => if empty_str cur then [] else [cur]
  | String c s =>
      if sep c then (if empty_str cur then [] else [cur]) ++ fields_go sep s "" else fields_go sep s (cur +:+ String c "")
  end%list.
Definition FieldsFunc (s : string) (sep : ascii → bool) : list string := fields_go sep s "".

Definition url_separator (c : ascii) : bool := bool_decide (code c ∈ [44; 59; 10; 9; 32]).

Fixpoint distinct_urls (items seen : list string) : list string :=
  match items with
  | [] => []
  | item :: items =>
      let item := trim_right_slash (TrimSpace item) in
      if empty_str item || bool_decide (item ∈ seen) then distinct_urls items seen else item :: distinct_urls items (item :: seen)
  end.

(** [parseURLList] *)
Definition parseURLList (raw : string) : list string := distinct_urls (FieldsFunc raw url_separator) [].

(** [firstNonEmpty] *)
Fixpoint firstNonEmpty (values : list string) : string :=
  match values with
  | [] => ""
  | value :: values => if empty_str (TrimSpace value) then firstNonEmpty values else value
  end.

(** [relayURLSet] *)
Definition relayURLSet (cliRelayURLs : string) (getenv : string → string) : list string :=
  parseURLList (firstNonEmpty [cliRelayURLs; getenv "SYNTHOS_RELAY_URLS"; getenv "SYNTHOS_REGISTRY_URLS"; getenv "SYNTHOS_MAILBOX_URLS";
    getenv "SYNTHOS_REGISTRY_URL"; getenv "SYNTHOS_MAILBOX_URL"; defaultRelayURLs]).

(* ------------------------------------------------------------------ *)
(** * The key file *)

(** [privateKeyFromHex] *)
Definition privateKeyFromHex (value : string) : res string :=
  match hexDecode (TrimPrefix (TrimSpace value) "0x") with
  | None => inr (Err "encoding/hex: invalid byte")
  | Some raw => if negb (slen raw =? 64) then inr (Err "private key must be 64 bytes") else inl raw
  end.

(** The key of a first start. *)
Definition fresh_key (cliNodeID cliPayoutAddress pub priv created : string) : nodeKey :=
  mkNodeKey (if empty_str cliNodeID then "syn-" +:+ hexEncode (take_bytes 6 (sha256 pub)) else cliNodeID)
    (hexEncode pub) (hexEncode priv) created "synthos-validating-ed25519-v1" cliPayoutAddress.

(** [loadOrCreateNodeKey]: what it writes to the key file, and the node's
    key, its private key and whether it is new. [file] is what reading gives,
    [generated] what the generator does, [saved] what writing does. *)
Definition loadOrCreateNodeKey (file : option (res nodeKey)) (cliNodeID cliPayoutAddress : string) (generated : res (string * string))
    (created : string) (saved : res unit) : option nodeKey * res (nodeKey * string * bool) :=
  match file with
  | Some (inr e) => (None, inr e)
  | Some (inl key) =>
      match privateKeyFromHex key.(k_PrivateKey) with
      | inr e => (None, inr e)
      | inl privateKey =>
          if empty_str key.(k_NodeID) || empty_str key.(k_PublicKey) then (None, inr (Err "stored key is missing node_id or public_key"))
          else
            let with_id id pay := mkNodeKey id key.(k_PublicKey) key.(k_PrivateKey) key.(k_CreatedAt) key.(k_Format) pay in
            let id := if empty_str cliNodeID then key.(k_NodeID) else cliNodeID in
            if negb (empty_str cliPayoutAddress) && negb (bool_decide (key.(k_PayoutAddress) = cliPayoutAddress))
            then (Some (with_id id cliPayoutAddress), inl (with_id id cliPayoutAddress, privateKey, false))
            else (None, inl (with_id id key.(k_PayoutAddress), privateKey, false))
      end
  | None =>
      match generated with
      | inr e => (None, inr e)
      | inl (pub, priv) =>
          let key := fresh_key cliNodeID cliPayoutAddress pub priv created in
          match saved with
          | inr e => (None, inr e)
          | inl _ => (Some key, inl (key, priv, true))
          end
      end
  end.

(** [hardwareCommitment]: the same for every node of a machine and user. *)
Definition hardwareCommitment (hostname username : string) : string :=
  hexEncode (sha256 (hostname +:+ "|" +:+ username +:+ "|synthos-validator-node-v1")).

(** The node [main] starts with; [eligible] is what the proving status comes
    to. *)
Definition boot (key : nodeKey) (hostname username : string) (relayURLs : list string) (eligible : bool) : silentNode :=
  mkSilent key.(k_NodeID) key.(k_PublicKey) (hardwareCommitment hostname username) 0 0 0 "" "" "" 0 relayURLs [] [] eligible key.(k_PayoutAddress).

(* ------------------------------------------------------------------ *)
(** * Heartbeats *)

(** What answers a node's posts: a status code, or nothing. *)
Record Relays (W : Type) : Type := mkRelays {
  post_register : string → NodeRegisterBody → W → W * option Z;
  post_heartbeat : string → HeartbeatBody → W → W * option Z
}.
Arguments post_register {W}.
Arguments post_heartbeat {W}.

(** What a round of heartbeats meets: the chain status each endpoint
    answers, the clock in milliseconds and its text for each relay, and
    random text for what was never heard of. *)
Record Moment : Type := mkMoment {
  mo_status : string → option (Z * string * string);
  mo_now : Z;
  mo_stamp : string → string;
  mo_tip : string;
  mo_root : string
}.

Fixpoint first_status (status : string → option (Z * string * string)) (endpoints : list string) : option (Z * string * string) :=
  match endpoints with
  | [] => None
  | ep :: endpoints =>
      match status ep with
      | Some (h, tip, root) => if (0 <? h) && negb (empty_str tip) then Some (h, tip, root) else first_status status endpoints
      | None => first_status status endpoints
      end
  end.

(** [syncRealMainnetTip] *)
Definition syncRealMainnetTip (m : Moment) (relayURLs : list string) (n : silentNode) : silentNode :=
  match first_status m.(mo_status) (map (λ r, trim_right_slash r +:+ "/api/chain/status") relayURLs ++ [defaultChainRPC +:+ "/status"])%list with
  | Some (h, tip, root) => n <| sn_LastHeight := h |> <| sn_LastTip := tip |> <| sn_LastStateRoot := root |>
  | None =>
      n <| sn_LastHeight := if n.(sn_LastHeight) <? 1 then 1 else n.(sn_LastHeight) |>
        <| sn_LastTip := if empty_str n.(sn_LastTip) then "syn-tip-" +:+ m.(mo_tip) else n.(sn_LastTip) |>
        <| sn_LastStateRoot := if empty_str n.(sn_LastStateRoot) then "syn-state-" +:+ m.(mo_root) else n.(sn_LastStateRoot) |>
  end.

(** [postJSON]: whether a status counts as success. *)
Definition posted_ok (label : string) (status : option Z) : bool :=
  match status with
  | None => false
  | Some code => ((code =? 409) && bool_decide (label = "register")) || ((200 <=? code) && (code <=? 299))
  end.

(** [register]: the body as the registry reads it. *)
Definition register_body (n : silentNode) : NodeRegisterBody :=
  mkNodeBody "" "" n.(sn_NodeID) n.(sn_PublicKey) "" (if n.(sn_RewardEligible) then "validator" else "validator_candidate") ""
    "public-validator" "mainnet" "" "" coreCapabilities "" n.(sn_HardwareCommitment) n.(sn_PayoutAddress).

Section with_ed25519.
Context `{E : Ed25519}.

(** [heartbeat]: the signed body as the registry reads it. *)
Definition heartbeat_body (privateKey : string) (timestamp : string) (n : silentNode) : HeartbeatBody :=
  let message := canonicalHeartbeatMessage n.(sn_NodeID) n.(sn_LastHeight) n.(sn_LastTip) n.(sn_LastStateRoot) timestamp n.(sn_LastNonce) in
  mkHeartbeat n.(sn_NodeID) "" n.(sn_LastHeight) n.(sn_LastTip) n.(sn_LastStateRoot) "" timestamp n.(sn_LastNonce) coreCapabilities
    (hexEncode (ed_Sign privateKey message)) "" "" "" n.(sn_PayoutAddress).

(** One relay of [heartbeatAll]: registering, whatever comes of it, then the
    heartbeat. *)
Definition beat_relay {W} (R : Relays W) (privateKey : string) (m : Moment) (url : string) (n : silentNode) (w : W) : W * bool :=
  let '(w, _) := R.(post_register) url (register_body n) w in
  let '(w, status) := R.(post_heartbeat) url (heartbeat_body privateKey (m.(mo_stamp) url) n) w in
  (w, posted_ok "heartbeat" status).

Fixpoint beat_relays {W} (R : Relays W) (privateKey : string) (m : Moment) (urls : list string) (n : silentNode) (w : W) : silentNode * W :=
  match urls with
  | [] => (n, w)
  | url :: urls =>
      let '(w, ok) := beat_relay R privateKey m url n w in
      let n := if ok then n <| sn_LastRelayOK := (n.(sn_LastRelayOK) ++ [url])%list |>
               else n <| sn_LastRelayFailed := (n.(sn_LastRelayFailed) ++ [url])%list |> in
      beat_relays R privateKey m urls n w
  end.

(** [heartbeatAll], up to its first post. *)
Definition next_beat (m : Moment) (relayURLs : list string) (n : silentNode) : silentNode :=
  let n := n <| sn_HeartbeatCount := u64 (n.(sn_HeartbeatCount) + 1) |> <| sn_LastRelayOK := [] |> <| sn_LastRelayFailed := [] |> in
  let n := syncRealMainnetTip m relayURLs n in
  n <| sn_LastNonce := fmt_0d 19 m.(mo_now) +:+ "-" +:+ fmt_0d 8 n.(sn_HeartbeatCount) |>.

(** [heartbeatAll] *)
Definition heartbeatAll {W} (R : Relays W) (privateKey : string) (m : Moment) (relayURLs : list string) (n : silentNode) (w : W) : silentNode * W :=
  beat_relays R privateKey m relayURLs (next_beat m relayURLs n) w.

(* ------------------------------------------------------------------ *)
(** * Mail *)

(** What [pollMailboxAll] asks of a proposed block. *)
Definition block_checks (b : Block) : bool :=
  negb ((b.(Header).(Height) <=? 0) || empty_str b.(Hash)) &&
  match CalculateHash b with inl h => bool_decide (h = b.(Hash)) | inr _ => false end.

(** The approval it signs. *)
Definition silent_vote (privateKey : string) (id : string) (b : Block) : BlockVote :=
  mkVote b.(Hash) b.(Header).(Height) 0 "" id 1 ("0x" +:+ hexEncode (ed_Sign privateKey (QuorumApprovalMessage b))).

Definition note_vote (b : Block) (n : silentNode) : silentNode :=
  n <| sn_BlocksValidated := u64 (n.(sn_BlocksValidated) + 1) |> <| sn_VotesCast := u64 (n.(sn_VotesCast) + 1) |>
    <| sn_LastHeight := i64 b.(Header).(Height) |> <| sn_LastTip := b.(Hash) |> <| sn_LastStateRoot := b.(Header).(StateRoot) |>.

(** The messages of one relay: the votes posted back, with their addressees.
    [decode] reads the payload of a message. *)
Fixpoint process_mail (decode : string → res BlockProposal) (privateKey : string) (mail : list mailboxEnvelope) (n : silentNode)
  : silentNode * list (string * BlockVote) :=
  match mail with
  | [] => (n, [])
  | m :: mail =>
      if negb (bool_decide (m.(mb_Type) = "consensus_proposal")) then process_mail decode privateKey mail n
      else
        match decode m.(mb_Payload) with
        | inr _ => process_mail decode privateKey mail n
        | inl p =>
            let b := p.(bp_Block) in
            if negb (block_checks b) then process_mail decode privateKey mail n
            else
              let vote := silent_vote privateKey n.(sn_NodeID) b in
              let '(n, out) := process_mail decode privateKey mail (note_vote b n) in
              (n, if empty_str m.(mb_From) then out else (m.(mb_From), vote) :: out)
        end
  end.

(** [pollMailboxAll]: the posts with their relays. [fetch] gives what each
    relay hands out, nothing if it cannot be asked. *)
Fixpoint pollMailboxAll (decode : string → res BlockProposal) (privateKey : string) (fetch : string → list mailboxEnvelope) (relayURLs : list string)
    (n : silentNode) : silentNode * list (string * (string * BlockVote)) :=
  match relayURLs with
  | [] => (n, [])
  | url :: relayURLs =>
      let '(n, votes) := process_mail decode privateKey (fetch url) n in
      let '(n, out) := pollMailboxAll decode privateKey fetch relayURLs n in
      (n, (map (pair url) votes ++ out)%list)
  end.

(** [postVoteBack]: the body as the registry reads it; the request carries
    no secret. *)
Definition vote_body (encode : BlockVote → string) (to from : string) (vote : BlockVote) : MailBody :=
  mkMailBody to "" "" "consensus_vote" from (Some (encode vote)) None.

(* ------------------------------------------------------------------ *)
(** * Registries as relays *)

(** The status of a refused registration. *)
Definition register_status (e : error) : Z := if bool_decide (e = Err "node is live with a different public key") then 409 else 400.

(** Registries by URL; [req] is the request as each of them sees it. *)
Definition ask {A B} (url : string) (handle : server → server * (A + B)) (code : B → Z) (w : gmap string server) : gmap string server * option Z :=
  match w !! url with
  | None => (w, None)
  | Some s => match handle s with (s, inl _) => (<[url := s]> w, Some 200) | (s, inr e) => (<[url := s]> w, Some (code e)) end
  end.
Definition registries (req : string → Request) : Relays (gmap string server) :=
  mkRelays _ (λ url body, ask url (handleAPINodeRegister (req url) (inl body)) register_status)
    (λ url body, ask url (handleAPINodeHeartbeat (req url) (inl body)) (λ _, 400)).

End with_ed25519.

(* ------------------------------------------------------------------ *)
(** * Facts: nonces *)

Lemma zeros_length n : String.length (zeros n) = n.
Proof. induction n as [|n IH]; [done|]. cbn. by rewrite IH. Qed.
Lemma zeros_digits n s acc : digits (zeros n +:+ s) acc = digits s (acc * 10 ^ Z.of_nat n).
Proof.
  revert acc. induction n as [|n IH]; intros acc; [by rewrite Z.mul_1_r|]. change (zeros (S n) +:+ s) with (String (chr 48) (zeros n +:+ s)).
  cbn [digits]. change (code (chr 48)) with 48. cbn [Z.leb Z.compare Pos.compare Pos.compare_cont andb]. rewrite IH. f_equal. rewrite Nat2Z.inj_succ, Z.pow_succ_r by lia. lia.
Qed.

(** A number of [n] digits with a prefix worth [acc] is at least that prefix
    moved by [n] places. *)
Lemma digits_lower s acc n : 0 ≤ acc → digits s acc = Some n → acc * 10 ^ Z.of_nat (String.length s) ≤ n.
Proof.
  revert acc. induction s as [|c s IH]; intros acc Ha; [intros [= ->]; by rewrite Z.mul_1_r|]. cbn [digits String.length].
  destruct (_ && _) eqn:Hc; [|done]. apply andb_prop in Hc as [H1 H2]. intros Hd. apply IH in Hd; [|lia]. etrans; [|exact Hd].
  rewrite Nat2Z.inj_succ, Z.pow_succ_r by lia. pose proof (Z.pow_nonneg 10 (Z.of_nat (String.length s)) ltac:(lia)). nia.
Qed.

Lemma fmt_d_short n w : (0 < w)%nat → 0 ≤ n < 10 ^ Z.of_nat w → (String.length (fmt_d n) ≤ w)%nat.
Proof.
  intros Hw [Hn Hm]. destruct (digits_fmt_d n Hn) as [Hd _]. unfold fmt_d in *. destruct n as [|p|p]; [cbn; lia| |lia].
  change (pretty (Z.pos p)) with (pretty (N.pos p)) in *. destruct (pretty_pos_shape p) as (c & t & He & Hc & _). rewrite He in *.
  cbn [digits String.length] in *. destruct (_ && _) eqn:H48; [|done]. apply andb_prop in H48 as [H1 _]. apply digits_lower in Hd; [|lia].
  unfold is_char in Hc. apply Z.eqb_neq in Hc. destruct (decide (S (String.length t) ≤ w)%nat) as [|Hlt]; [done|].
  assert (10 ^ Z.of_nat w ≤ 10 ^ Z.of_nat (String.length t)) by (apply Z.pow_le_mono_r; lia).
  pose proof (Z.pow_nonneg 10 (Z.of_nat (String.length t)) ltac:(lia)). nia.
Qed.

Lemma slength_app s t : String.length (s +:+ t) = (String.length s + String.length t)%nat.
Proof. induction s as [|c s IH]; [done|]. change (String c s +:+ t) with (String c (s +:+ t)). cbn. by rewrite IH. Qed.

Lemma fmt_0d_spec w n : 0 ≤ n → digits (fmt_0d w n) 0 = Some n ∧ fmt_0d w n ≠ "" ∧
  ((0 < w)%nat → n < 10 ^ Z.of_nat w → String.length (fmt_0d w n) = w).
Proof.
  intros Hn. unfold fmt_0d. rewrite Z.abs_eq, (proj2 (Z.ltb_ge n 0)) by lia. destruct (digits_fmt_d n Hn) as [Hd Hne]. split_and!.
  - by rewrite zeros_digits.
  - intros He. apply (f_equal String.length) in He. rewrite slength_app in He. destruct (fmt_d n); [done|cbn in He; lia].
  - intros Hw Hlt. pose proof (fmt_d_short n w Hw ltac:(lia)). rewrite slength_app, zeros_length. lia.
Qed.

(** Texts of one length compare as the numbers they spell. *)
Lemma digits_compare s t a b x y : String.length s = String.length t → 0 ≤ a → a < b → digits s a = Some x → digits t b = Some y → x < y.
Proof.
  revert t a b. induction s as [|c s IH]; intros [|d t] a b Hl Ha Hab; try done; cbn [digits]; [by intros [= <-] [= <-]|].
  destruct ((48 <=? code c) && _) eqn:Hc; [|done]. destruct ((48 <=? code d) && _) eqn:Hd; [|done].
  apply andb_prop in Hc as [? ?], Hd as [? ?]. apply IH; [by injection Hl|lia|lia].
Qed.
Lemma digits_lt s t a x y : String.length s = String.length t → 0 ≤ a → digits s a = Some x → digits t a = Some y → x < y → String.compare s t = Lt.
Proof.
  revert t a. induction s as [|c s IH]; intros [|d t] a Hl Ha Hx Hy Hxy; try done; cbn [digits] in Hx, Hy; [simplify_eq; lia|].
  destruct ((48 <=? code c) && _) eqn:Hc; [|done]. destruct ((48 <=? code d) && _) eqn:Hd; [|done].
  apply andb_prop in Hc as [? ?], Hd as [? ?]. rewrite compare_cons. injection Hl as Hl.
  destruct (Z.compare_spec (code c) (code d)) as [He|He|He]; [|done|].
  - rewrite <- He in Hy. by eapply IH; [| |exact Hx|exact Hy|]; [|lia|].
  - exfalso. assert (y < x); [|lia]. apply (digits_compare t s (10 * a + (code d - 48)) (10 * a + (code c - 48)) y x); [done|lia|lia|exact Hy|exact Hx].
Qed.

Definition nonce_text (ms count : Z) : string := fmt_0d 19 ms +:+ "-" +:+ fmt_0d 8 count.

Lemma digits_nodash s acc n : digits s acc = Some n → sforall (λ c, negb (bool_decide (c = "-"%char))) s = true.
Proof. intros Hd. apply digits_sforall in Hd. eapply sforall_impl; [|exact Hd]. by intros [[] [] [] [] [] [] [] []]. Qed.
Lemma digits_nospace s acc n : digits s acc = Some n → sforall (λ c, negb (is_space c)) s = true.
Proof. intros Hd. apply digits_sforall in Hd. eapply sforall_impl; [|exact Hd]. by intros [[] [] [] [] [] [] [] []]. Qed.

(** A later moment makes a later nonce, whatever the counts. *)
Lemma nonce_text_later t c t' c' : 0 ≤ t < t' → t' < 10 ^ 19 → 0 ≤ c → 0 ≤ c' → nonceLess (nonce_text t c) (nonce_text t' c') = true.
Proof.
  intros Ht Ht' Hc Hc'. destruct (fmt_0d_spec 19 t ltac:(lia)) as (D & N & L), (fmt_0d_spec 19 t' ltac:(lia)) as (D' & N' & L').
  specialize (L ltac:(lia) ltac:(lia)). specialize (L' ltac:(lia) ltac:(lia)). unfold nonceLess, nonce_text.
  change ("-" +:+ fmt_0d 8 c) with (String "-"%char (fmt_0d 8 c)). change ("-" +:+ fmt_0d 8 c') with (String "-"%char (fmt_0d 8 c')).
  rewrite !Split_at by by eapply digits_nodash. cbn [segments_less]. unfold compareDecimalSegment, slen. rewrite L, L', Z.eqb_refl, andb_false_r.
  assert (String.compare (fmt_0d 19 t) (fmt_0d 19 t') = Lt) as ->; [|done]. eapply (digits_lt _ _ 0); [by rewrite L| |exact D|exact D'|]; lia.
Qed.

Lemma nonce_text_plain t c : 0 ≤ t → 0 ≤ c → TrimSpace (nonce_text t c) = nonce_text t c ∧ nonce_text t c ≠ "".
Proof.
  intros Ht Hc. destruct (fmt_0d_spec 19 t Ht) as (D & N & _), (fmt_0d_spec 8 c Hc) as (D' & _ & _). split.
  - apply TrimSpace_id. unfold nonce_text. rewrite !sforall_app. rewrite (digits_nospace _ _ _ D), (digits_nospace _ _ _ D'). done.
  - unfold nonce_text. by destruct (fmt_0d 19 t).
Qed.

Lemma nonce_text_short t c : 0 ≤ t < 2 ^ 63 → 0 ≤ c < 2 ^ 64 → slen (nonce_text t c) ≤ 40.
Proof.
  intros Ht Hc. destruct (fmt_0d_spec 19 t ltac:(lia)) as (_ & _ & L). specialize (L ltac:(lia) ltac:(lia)).
  unfold slen, nonce_text. rewrite !slength_app, L. unfold fmt_0d. rewrite Z.abs_eq, (proj2 (Z.ltb_ge c 0)), slength_app, zeros_length by lia.
  pose proof (fmt_d_short c 20 ltac:(lia) ltac:(lia)). change (String.length "-") with 1%nat. lia.
Qed.

(* ------------------------------------------------------------------ *)
(** * Facts: registering and beating *)

Lemma hex_digit_plain z : 0 ≤ z < 16 → is_space (hex_digit z) = false ∧ hex_digit z ≠ "x"%char.
Proof.
  intros Hz. assert (z ∈ map Z.of_nat (seq 0 16)) as Hin by (apply list_elem_of_fmap; exists (Z.to_nat z); rewrite elem_of_seq; lia).
  clear Hz. cbn in Hin. rewrite !elem_of_cons, elem_of_nil in Hin. by repeat destruct Hin as [->|Hin].
Qed.

Lemma hex_plain s : TrimSpace (hexEncode s) = hexEncode s ∧ TrimPrefix (hexEncode s) "0x" = hexEncode s.
Proof.
  assert (∀ c, 0 ≤ code c / 16 < 16 ∧ 0 ≤ code c mod 16 < 16) as Hr.
  { intros c. pose proof (code_range c). split; [split; [apply Z.div_pos; lia|apply Z.div_lt_upper_bound; lia]|apply Z.mod_pos_bound; lia]. }
  split.
  - apply TrimSpace_id. induction s as [|c s IH]; [done|]. destruct (Hr c) as [H1 H2].
    cbn -[hex_digit Z.div Z.modulo is_space]. by rewrite (proj1 (hex_digit_plain _ H1)), (proj1 (hex_digit_plain _ H2)).
  - destruct s as [|c s]; [done|]. destruct (Hr c) as [_ H2]. destruct (hex_digit_plain _ H2) as [_ Hx].
    unfold TrimPrefix, HasPrefix. cbn -[hex_digit Z.div Z.modulo ascii_dec]. destruct (ascii_dec "0"%char _); [|done]. destruct (ascii_dec "x"%char _); [congruence|done].
Qed.

Lemma slen_hex s : slen (hexEncode s) = 2 * slen s.
Proof. unfold slen. rewrite length_hexEncode. lia. Qed.

(** Text the registry keeps as it is. *)
Definition tidy (s : string) : Prop := truncate s 128 = s.

Section beats.
Context `{E : Ed25519} {EC : Ed25519Correct E} (priv id : string).
Let pk := hexEncode (ed_Public priv).

(** A node with this key, under a name the registry can spell. *)
Definition identity (n : silentNode) : Prop := n.(sn_NodeID) = id ∧ n.(sn_PublicKey) = pk.

Lemma key_kept : truncate pk 256 = pk ∧ pk ≠ "".
Proof.
  assert (slen pk = 64) as Hl by (unfold pk; rewrite slen_hex; unfold slen; rewrite ed_public_len; done). split; [|by intros He; rewrite He in Hl].
  unfold pk in *. rewrite truncate_short; rewrite (proj1 (hex_plain _)); [done|lia].
Qed.

Lemma heartbeat_signed msg : verifyHeartbeatSignature pk (hexEncode (ed_Sign priv msg)) msg = inl tt.
Proof.
  unfold verifyHeartbeatSignature, pk. rewrite !(proj1 (hex_plain _)), !(proj2 (hex_plain _)), !hexDecode_hexEncode.
  unfold slen. rewrite ed_public_len, ed_sign_len. cbn. by rewrite ed_verify_sign.
Qed.

(** What a registration leaves of an entry. *)
Record kept (old : option peer) (p : peer) : Prop := {
  kp_key : p.(pe_PublicKey) = pk;
  kp_nonce : p.(pe_LastNonce) = default "" (pe_LastNonce <$> old);
  kp_last : p.(pe_LastHeartbeatAt) = default 0 (pe_LastHeartbeatAt <$> old);
  kp_uptime : p.(pe_VerifiedUptimeMS) = default 0 (pe_VerifiedUptimeMS <$> old)
}.

Lemma own_register r n s : r.(rq_Method) = "POST" → sanitize id = id → id ≠ "" → identity n →
  (∀ p, s.(reg).(Peers) !! id = Some p → p.(pe_PublicKey) = pk) →
  ∃ s' p', handleAPINodeRegister r (inl (register_body n)) s = (s', inl p') ∧ s'.(reg).(Peers) !! id = Some p' ∧ kept (s.(reg).(Peers) !! id) p'.
Proof.
  intros Hm Hid Hne [Hn Hk] Hown. destruct key_kept as [Ht Hpk].
  unfold handleAPINodeRegister, not_post, the_peer, put_peer, on_reg, persist, fail_if, lift, get, gets, modify, mret, SM_ret, mbind, SM_bind.
  rewrite Hm, bool_decide_eq_true_2 by done. cbn -[truncate sanitize]. rewrite Hn, Hk. change (defaultString id "") with (defaultString id "").
  assert (sanitize (defaultString (defaultString "" "") id) = id) as -> by exact Hid.
  assert (∀ s t, s ≠ "" → defaultString s t = s) as Hdef by (intros x y Hx; unfold defaultString; by rewrite (proj2 (empty_str_false _) Hx)).
  rewrite (proj2 (empty_str_false _) Hne), (Hdef pk), Ht, (proj2 (empty_str_false _) Hpk) by done. change (truncate (defaultString "" "") 256) with "".
  cbn -[truncate sanitize keep_progress new_node_entry].
  destruct (s.(reg).(Peers) !! id) as [p|] eqn:Hp; cbn -[truncate sanitize keep_progress new_node_entry].
  - rewrite (Hown p eq_refl), bool_decide_eq_true_2, andb_false_r by done. cbn -[truncate sanitize keep_progress new_node_entry].
    eexists _, _. split; [reflexivity|]. split; [destruct (rq_saved r); apply lookup_insert_eq|].
    unfold keep_progress. destruct (_ && _); by split.
  - eexists _, _. split; [reflexivity|]. split; [destruct (rq_saved r); apply lookup_insert_eq|]. by split.
Qed.

(** The registry takes a node's own heartbeat. *)
Lemma own_beat r n ts s p t c : r.(rq_Method) = "POST" → sanitize id = id → id ≠ "" → identity n →
  s.(reg).(Peers) !! id = Some p → p.(pe_PublicKey) = pk → n.(sn_LastNonce) = nonce_text t c → 0 ≤ t < 2 ^ 63 → 0 ≤ c < 2 ^ 64 →
  (p.(pe_LastNonce) = "" ∨ ∃ t0 c0, p.(pe_LastNonce) = nonce_text t0 c0 ∧ 0 ≤ t0 < t ∧ 0 ≤ c0) →
  tidy n.(sn_LastTip) → tidy n.(sn_LastStateRoot) →
  ∃ s' p', handleAPINodeHeartbeat r (inl (heartbeat_body priv ts n)) s = (s', inl p') ∧ s'.(reg).(Peers) !! id = Some p' ∧
    p'.(pe_PublicKey) = pk ∧ p'.(pe_LastNonce) = nonce_text t c ∧ p'.(pe_LastHeartbeatAt) = UnixMilli r.(rq_now) ∧
    p'.(pe_VerifiedUptimeMS) = i64 (p.(pe_VerifiedUptimeMS) + uptime_delta p.(pe_LastHeartbeatAt) (UnixMilli r.(rq_now))).
Proof.
  intros Hm Hid Hne [Hn _] Hp Hk Hnonce Ht Hc Hold Htip Hroot. set (b := heartbeat_body priv ts n).
  destruct (nonce_text_plain t c ltac:(lia) ltac:(lia)) as [Htrim Hnn].
  assert (sanitize (defaultString b.(hb_NodeID) b.(hb_NodeIDCamel)) = id) as Hname.
  { unfold b. cbn. rewrite Hn. unfold defaultString. by rewrite (proj2 (empty_str_false _) Hne). }
  assert (heartbeat_root b = n.(sn_LastStateRoot)) as Hr.
  { unfold heartbeat_root, b. cbn -[truncate]. unfold defaultString. destruct (empty_str _) eqn:He; [|exact Hroot].
    apply empty_str_true in He. by rewrite He. }
  assert (acceptable id b p) as Ha.
  { split.
    - destruct Hold as [->|(t0 & c0 & -> & Ht0 & Hc0)]; [by left|right]. change (hb_Nonce b) with n.(sn_LastNonce). rewrite Hnonce.
      apply nonce_text_later; lia.
    - unfold heartbeat_message. rewrite Hr. change (hb_Height b) with n.(sn_LastHeight). change (hb_Tip b) with n.(sn_LastTip). rewrite Htip.
      change (hb_Timestamp b) with ts. change (hb_Nonce b) with n.(sn_LastNonce). rewrite Hk.
      unfold b, heartbeat_body. cbn [hb_Signature]. rewrite Hn. apply heartbeat_signed. }
  rewrite <- Hname in Hp, Ha. destruct (heartbeat_accepts r b s p Hm ltac:(by rewrite Hname) ltac:(unfold b; cbn; by rewrite Hnonce) Hp Ha) as (s' & Hrun & Hs' & _).
  rewrite Hname in Hrun, Hs'. exists s', (beat r id b p). split; [exact Hrun|]. split; [rewrite Hs'; apply lookup_insert_eq|].
  destruct (beat_core r id b p) as [_ H1 H2 _ H3 _ _ H4 _]. rewrite H1, H2, H3, H4. split; [exact Hk|]. split; [|by split].
  cbn -[truncate]. change (hb_Nonce b) with n.(sn_LastNonce). rewrite Hnonce, truncate_short; [done|]. rewrite Htrim.
  pose proof (nonce_text_short t c Ht Hc). lia.
Qed.

(* ------------------------------------------------------------------ *)
(** * Facts: a round of heartbeats *)

(** A node that has only heard back from relays posts the same bodies. *)
Definition reported (n n' : silentNode) : Prop := ∃ ok failed, n' = n <| sn_LastRelayOK := ok |> <| sn_LastRelayFailed := failed |>.

#[global] Instance reported_preorder : PreOrder reported.
Proof.
  split; [by intros n; exists n.(sn_LastRelayOK), n.(sn_LastRelayFailed); destruct n|].
  intros n n1 n2 (ok & f & ->) (ok' & f' & ->). by exists ok', f'.
Qed.

Lemma beat_relay_reported {W} (R : Relays W) m url n n' w : reported n n' → beat_relay R priv m url n' w = beat_relay R priv m url n w.
Proof. by intros (ok & f & ->). Qed.

Context (req : string → Request).

Lemma ask_frame {A B} url (h : server → server * (A + B)) code w u : u ≠ url → (ask url h code w).1 !! u = w !! u.
Proof. intros Hu. unfold ask. destruct (w !! url) as [s|]; [|done]. destruct (h s) as [s' [a|e]]; cbn; by rewrite lookup_insert_ne. Qed.

Lemma beat_relay_frame m url n w u : u ≠ url → (beat_relay (registries req) priv m url n w).1 !! u = w !! u.
Proof.
  intros Hu. unfold beat_relay. cbn [post_register post_heartbeat registries].
  destruct (ask url (handleAPINodeRegister _ _) _ w) as [w1 c1] eqn:H1. destruct (ask url (handleAPINodeHeartbeat _ _) _ w1) as [w2 c2] eqn:H2. cbn.
  apply (f_equal fst) in H1, H2. cbn in H1, H2. subst. by rewrite !ask_frame.
Qed.

Lemma beat_relays_reported {W} (R : Relays W) m urls n w : let n' := (beat_relays R priv m urls n w).1 in
  reported n n' ∧ ∀ u, u ∈ n.(sn_LastRelayOK) → u ∈ n'.(sn_LastRelayOK).
Proof.
  revert n w. induction urls as [|url urls IH]; intros n w; cbn; [done|].
  destruct (beat_relay R priv m url n w) as [w' ok]. destruct (IH (if ok then n <| sn_LastRelayOK := (n.(sn_LastRelayOK) ++ [url])%list |>
               else n <| sn_LastRelayFailed := (n.(sn_LastRelayFailed) ++ [url])%list |>) w') as [H1 H2]. split.
  - etrans; [|exact H1]. destruct ok; [by exists (n.(sn_LastRelayOK) ++ [url])%list, n.(sn_LastRelayFailed)|by exists n.(sn_LastRelayOK), (n.(sn_LastRelayFailed) ++ [url])%list].
  - intros u Hu. apply H2. destruct ok; [|done]. cbn. apply elem_of_app. by left.
Qed.

Lemma beat_relays_frame m urls n w u : u ∉ urls → (beat_relays (registries req) priv m urls n w).2 !! u = w !! u.
Proof.
  revert n w. induction urls as [|url urls IH]; intros n w; cbn; [done|]. rewrite not_elem_of_cons. intros [H1 H2].
  pose proof (beat_relay_frame m url n w u H1) as Hf. destruct (beat_relay _ priv m url n w) as [w' ok]. cbn in Hf. by rewrite IH, Hf.
Qed.

(** What a round does at one of its relays. *)
Lemma beat_relays_at m urls n w url : NoDup urls → url ∈ urls → ∃ w1, w1 !! url = w !! url ∧
  let '(n', w') := beat_relays (registries req) priv m urls n w in
  let '(w2, ok) := beat_relay (registries req) priv m url n w1 in
  w' !! url = w2 !! url ∧ (ok = true → url ∈ n'.(sn_LastRelayOK)).
Proof.
  revert n w. induction urls as [|u urls IH]; intros n w Hnd Hin; [by apply elem_of_nil in Hin|]. apply NoDup_cons in Hnd as [Hu Hnd].
  cbn. destruct (decide (u = url)) as [->|Hne].
  - exists w. split; [done|]. destruct (beat_relay _ priv m url n w) as [w2 ok]. set (n1 := if ok then _ else _).
    pose proof (beat_relays_frame m urls n1 w2 url Hu) as Hf. destruct (beat_relays_reported (registries req) m urls n1 w2) as [_ Hr].
    destruct (beat_relays _ priv m urls n1 w2) as [n' w']. split; [exact Hf|]. intros ->. apply Hr. cbn. apply elem_of_app. right. by apply list_elem_of_singleton.
  - apply elem_of_cons in Hin as [->|Hin]; [done|]. pose proof (beat_relay_frame m u n w url ltac:(done)) as Hf.
    destruct (beat_relay _ priv m u n w) as [w' ok]. cbn in Hf. set (n1 := if ok then _ else _). destruct (IH n1 w' Hnd Hin) as (w1 & Hw1 & H). exists w1.
    split; [by rewrite Hw1, Hf|]. rewrite (beat_relay_reported _ m url n n1 w1) in H; [exact H|].
    destruct ok; [by exists (n.(sn_LastRelayOK) ++ [u])%list, n.(sn_LastRelayFailed)|by exists n.(sn_LastRelayOK), (n.(sn_LastRelayFailed) ++ [u])%list].
Qed.

Definition entry_at (url : string) (w : gmap string server) : option peer := s ← w !! url; s.(reg).(Peers) !! id.

(** One relay: what it credits. *)
Lemma own_relay m url n w s t c : (req url).(rq_Method) = "POST" → sanitize id = id → id ≠ "" → identity n → w !! url = Some s →
  n.(sn_LastNonce) = nonce_text t c → 0 ≤ t < 2 ^ 63 → 0 ≤ c < 2 ^ 64 → tidy n.(sn_LastTip) → tidy n.(sn_LastStateRoot) →
  (∀ p, entry_at url w = Some p → p.(pe_PublicKey) = pk ∧
     (p.(pe_LastNonce) = "" ∨ ∃ t0 c0, p.(pe_LastNonce) = nonce_text t0 c0 ∧ 0 ≤ t0 < t ∧ 0 ≤ c0)) →
  let '(w', ok) := beat_relay (registries req) priv m url n w in
  ok = true ∧ ∃ p', entry_at url w' = Some p' ∧ p'.(pe_PublicKey) = pk ∧ p'.(pe_LastNonce) = nonce_text t c ∧
    p'.(pe_LastHeartbeatAt) = UnixMilli (req url).(rq_now) ∧
    p'.(pe_VerifiedUptimeMS) = i64 (default 0 (pe_VerifiedUptimeMS <$> entry_at url w)
      + uptime_delta (default 0 (pe_LastHeartbeatAt <$> entry_at url w)) (UnixMilli (req url).(rq_now))).
Proof.
  intros Hm Hid Hne Hn Hw Hnonce Ht Hc Htip Hroot Hown. unfold entry_at in Hown |- *. rewrite Hw in Hown |- *. cbn in Hown |- *.
  destruct (own_register (req url) n s Hm Hid Hne Hn (λ p Hp, proj1 (Hown p Hp))) as (s1 & p1 & Hreg & Hp1 & [Hk1 Hn1 Hl1 Hu1]).
  assert (p1.(pe_LastNonce) = "" ∨ ∃ t0 c0, p1.(pe_LastNonce) = nonce_text t0 c0 ∧ 0 ≤ t0 < t ∧ 0 ≤ c0) as Hold.
  { rewrite Hn1. destruct (s.(reg).(Peers) !! id) as [p|] eqn:Hp; [|by left]. exact (proj2 (Hown p eq_refl)). }
  destruct (own_beat (req url) n (m.(mo_stamp) url) s1 p1 t c Hm Hid Hne Hn Hp1 Hk1 Hnonce Ht Hc Hold Htip Hroot)
    as (s2 & p2 & Hbeat & Hp2 & Hk2 & Hn2 & Hl2 & Hu2).
  unfold beat_relay, ask. cbn [post_register post_heartbeat registries]. unfold ask. rewrite Hw, Hreg, lookup_insert_eq, Hbeat.
  split; [done|]. exists p2. rewrite lookup_insert_eq. cbn. rewrite Hp2, Hu2, Hl1, Hu1. by split_and!.
Qed.
End beats.

Lemma next_beat_nonce m urls n : (next_beat m urls n).(sn_LastNonce) = nonce_text m.(mo_now) (u64 (n.(sn_HeartbeatCount) + 1)).
Proof.
  unfold next_beat. cbn [sn_LastNonce]. unfold nonce_text. do 3 f_equal. unfold syncRealMainnetTip. by destruct (first_status _ _) as [[[h tip] root]|].
Qed.
Lemma next_beat_identity `{E : Ed25519} priv id m urls n : identity priv id n → identity priv id (next_beat m urls n).
Proof. intros [H1 H2]. unfold next_beat, syncRealMainnetTip. by destruct (first_status _ _) as [[[h tip] root]|]. Qed.

Lemma distinct_urls_spec items seen : NoDup (distinct_urls items seen) ∧ ∀ u, u ∈ distinct_urls items seen → u ∉ seen.
Proof.
  revert seen. induction items as [|i items IH]; intros seen; cbn; [split; [constructor|by intros u Hu%elem_of_nil]|].
  destruct (empty_str _); cbn; [apply IH|]. case_bool_decide as Hs; [apply IH|]. destruct (IH (trim_right_slash (TrimSpace i) :: seen)) as [H1 H2]. split.
  - constructor; [|done]. intros Hin. apply H2 in Hin. rewrite not_elem_of_cons in Hin. tauto.
  - intros u [->|Hu]%elem_of_cons; [done|]. apply H2 in Hu. rewrite not_elem_of_cons in Hu. tauto.
Qed.

(** A moment at which a beat makes sense: the tip is text the registry keeps
    as it is, and the clocks are within their ranges. *)
Record timely (url : string) (urls : list string) (req : string → Request) (m : Moment) (n : silentNode) : Prop := {
  ti_post : (req url).(rq_Method) = "POST";
  ti_node : 0 ≤ m.(mo_now) < 2 ^ 63;
  ti_relay : 0 < UnixMilli (req url).(rq_now) < 2 ^ 62;
  ti_tip : tidy (next_beat m urls n).(sn_LastTip);
  ti_root : tidy (next_beat m urls n).(sn_LastStateRoot)
}.

(** A node beats at [url] among its relays [urls]: at the node's clock
    [t] and the relay's clock [r] it beat last, its time adds up to [up].
    Between two beats the node may be restarted, and anything may happen at the
    relays that does not touch its entry. *)
Inductive proving `{E : Ed25519} (priv id url : string) (urls : list string) : Z → Z → silentNode → gmap string server → Z → Prop :=
  | pv_first req m n w s : identity priv id n → timely url urls req m n → w !! url = Some s → s.(reg).(Peers) !! id = None →
      proving priv id url urls m.(mo_now) (UnixMilli (req url).(rq_now))
        (heartbeatAll (registries req) priv m urls n w).1 (heartbeatAll (registries req) priv m urls n w).2 0
  | pv_beat req m t r n w up : proving priv id url urls t r n w up → identity priv id n → timely url urls req m n →
      t < m.(mo_now) → r ≤ UnixMilli (req url).(rq_now) →
      proving priv id url urls m.(mo_now) (UnixMilli (req url).(rq_now))
        (heartbeatAll (registries req) priv m urls n w).1 (heartbeatAll (registries req) priv m urls n w).2
        (up + Z.min (UnixMilli (req url).(rq_now) - r) 120000)
  | pv_restart t r n n' w up : proving priv id url urls t r n w up → identity priv id n' → proving priv id url urls t r n' w up
  | pv_elsewhere t r n w w' up : proving priv id url urls t r n w up → entry_at id url w' = entry_at id url w → proving priv id url urls t r n w' up.

Section proving.
Context `{E : Ed25519} {EC : Ed25519Correct E} (priv id url : string) (urls : list string).
Context (Hid : sanitize id = id) (Hne : id ≠ "") (Hnd : NoDup urls) (Hin : url ∈ urls).

(** The entry of a node that last beat at [t] and [r]. *)
Record proved (t r up : Z) (p : peer) : Prop := {
  pd_key : p.(pe_PublicKey) = hexEncode (ed_Public priv);
  pd_nonce : ∃ c, p.(pe_LastNonce) = nonce_text t c ∧ 0 ≤ c;
  pd_last : p.(pe_LastHeartbeatAt) = r;
  pd_uptime : p.(pe_VerifiedUptimeMS) = up
}.

Lemma beat_all req m n w s : identity priv id n → timely url urls req m n → w !! url = Some s →
  (∀ p, entry_at id url w = Some p → p.(pe_PublicKey) = hexEncode (ed_Public priv) ∧
     (p.(pe_LastNonce) = "" ∨ ∃ t0 c0, p.(pe_LastNonce) = nonce_text t0 c0 ∧ 0 ≤ t0 < m.(mo_now) ∧ 0 ≤ c0)) →
  let '(n', w') := heartbeatAll (registries req) priv m urls n w in
  url ∈ n'.(sn_LastRelayOK) ∧ ∃ p', entry_at id url w' = Some p' ∧
    proved m.(mo_now) (UnixMilli (req url).(rq_now)) (i64 (default 0 (pe_VerifiedUptimeMS <$> entry_at id url w)
      + uptime_delta (default 0 (pe_LastHeartbeatAt <$> entry_at id url w)) (UnixMilli (req url).(rq_now)))) p'.
Proof.
  intros Hn [Hm Ht Hr Htip Hroot] Hw Hown. unfold heartbeatAll. set (n1 := next_beat m urls n) in *.
  destruct (beat_relays_at priv req m urls n1 w url Hnd Hin) as (w1 & Hw1 & H).
  assert (entry_at id url w1 = entry_at id url w) as He by (unfold entry_at; by rewrite Hw1). rewrite <- He in Hown.
  set (c := u64 (n.(sn_HeartbeatCount) + 1)). assert (0 ≤ c < 2 ^ 64) as Hc by (unfold c, u64; apply Z.mod_pos_bound; lia).
  pose proof (own_relay priv id req m url n1 w1 s m.(mo_now) c Hm Hid Hne (next_beat_identity priv id m urls n Hn) ltac:(by rewrite Hw1)
    (next_beat_nonce m urls n) Ht Hc Htip Hroot Hown) as Hrel.
  destruct (beat_relays _ priv m urls n1 w) as [n' w']. destruct (beat_relay _ priv m url n1 w1) as [w2 ok].
  destruct H as [Hw' Hok], Hrel as (-> & p' & Hp' & Hk & Hno & Hl & Hu). split; [by apply Hok|]. exists p'. rewrite <- He. split.
  - unfold entry_at in *. by rewrite Hw'.
  - split; [done|exists c; split; [exact Hno|lia]|done|done].
Qed.

Lemma proving_entry t r n w up : proving priv id url urls t r n w up →
  0 ≤ t ∧ 0 < r < 2 ^ 62 ∧ 0 ≤ up ≤ r ∧ ∃ p, entry_at id url w = Some p ∧ proved t r up p.
Proof.
  induction 1 as [req m n w s Hn Hti Hw Hs|req m t r n w up _ IH Hn Hti Ht Hr|t r n n' w up _ IH _|t r n w w' up _ IH He].
  - assert (entry_at id url w = None) as He by (unfold entry_at; by rewrite Hw).
    pose proof (beat_all req m n w s Hn Hti Hw ltac:(intros p Hp; by rewrite He in Hp)) as H. destruct Hti.
    destruct (heartbeatAll _ _ _ _ _ _) as [n' w']. destruct H as (_ & p' & Hp' & H). rewrite He in H. cbn.
    split; [lia|]. split; [lia|]. split; [lia|]. by exists p'.
  - destruct IH as (Ht0 & Hr0 & Hup & p & Hp & [Hk (c & Hno & Hc) Hl Hu]).
    assert (∃ s, w !! url = Some s) as [s Hw] by (unfold entry_at in Hp; destruct (w !! url) as [s|]; [by exists s|done]).
    pose proof (beat_all req m n w s Hn Hti Hw) as H. destruct Hti as [_ Htn Htr _ _].
    destruct (heartbeatAll _ _ _ _ _ _) as [n' w']. destruct H as (_ & p' & Hp' & H).
    { intros q Hq. rewrite Hp in Hq. injection Hq as <-. split; [done|]. right. exists t, c. split_and!; done || lia. }
    rewrite Hp in H. cbn in H. rewrite Hl, Hu in H. cbn [fst snd].
    assert (uptime_delta r (UnixMilli (req url).(rq_now)) = Z.min (UnixMilli (req url).(rq_now) - r) 120000) as Hd.
    { unfold uptime_delta. rewrite (proj2 (Z.ltb_lt 0 r)), i64_small by lia. change (heartbeatFreshAfter / millisecond) with 120000.
      destruct (Z.ltb_spec 0 (UnixMilli (req url).(rq_now) - r)); lia. }
    rewrite Hd, i64_small in H by lia. split; [lia|]. split; [lia|]. split; [lia|]. by exists p'.
  - done.
  - by rewrite He.
Qed.
End proving.

(* ------------------------------------------------------------------ *)
(** * Facts: the key file *)

Lemma privateKey_saved priv : slen priv = 64 → privateKeyFromHex (hexEncode priv) = inl priv.
Proof. intros Hl. unfold privateKeyFromHex. rewrite (proj1 (hex_plain _)), (proj2 (hex_plain _)), hexDecode_hexEncode, Hl. done. Qed.

Lemma fresh_named cli pay pub priv created : (fresh_key cli pay pub priv created).(k_NodeID) ≠ "".
Proof. cbn. destruct (empty_str cli) eqn:Hc; [by destruct (hexEncode _)|by apply empty_str_false]. Qed.

(** The key a first start writes is the key every later start comes up with,
    whatever happened to the payout address since, unless another name is
    given. *)
Definition same_node (k k' : nodeKey) : Prop :=
  k'.(k_NodeID) = k.(k_NodeID) ∧ k'.(k_PublicKey) = k.(k_PublicKey) ∧ k'.(k_PrivateKey) = k.(k_PrivateKey).

Lemma start_again key pay generated created saved priv : key.(k_NodeID) ≠ "" → key.(k_PublicKey) ≠ "" → privateKeyFromHex key.(k_PrivateKey) = inl priv →
  ∃ written key', loadOrCreateNodeKey (Some (inl key)) "" pay generated created saved = (written, inl (key', priv, false)) ∧
    same_node key key' ∧ (written = None ∨ written = Some key').
Proof.
  intros Hid Hpub Hpriv. unfold loadOrCreateNodeKey. rewrite Hpriv, (proj2 (empty_str_false _) Hid), (proj2 (empty_str_false _) Hpub). cbn.
  destruct (_ && _); eexists _, _; (split; [reflexivity|]); split; [by split_and!|by right|by split_and!|by left].
Qed.

Lemma boot_identity `{E : Ed25519} priv key host user urls eligible : key.(k_PublicKey) = hexEncode (ed_Public priv) →
  identity priv key.(k_NodeID) (boot key host user urls eligible).
Proof. by intros Hk. Qed.

(* ------------------------------------------------------------------ *)
(** * Facts: approvals *)

Section approvals.
Context `{E : Ed25519} {EC : Ed25519Correct E} (decode : string → res BlockProposal) (priv : string).

(** A message that a node answers: it names a sender, and the block proposed
    in it has a height and the hash of its contents. *)
Definition asks (m : mailboxEnvelope) : Prop :=
  m.(mb_From) ≠ "" ∧ m.(mb_Type) = "consensus_proposal" ∧
  match decode m.(mb_Payload) with
  | inl p => let b := p.(bp_Block) in 0 < b.(Header).(Height) ∧ b.(Hash) ≠ "" ∧ CalculateHash b = inl b.(Hash)
  | inr _ => False
  end.
#[global] Instance asks_dec m : Decision (asks m).
Proof. unfold asks. destruct (decode (mb_Payload m)); solve_decision. Defined.

(** What a node named [id] sends back for it. *)
Definition answered (id : string) (m : mailboxEnvelope) (out : string * BlockVote) : Prop :=
  ∃ p, decode m.(mb_Payload) = inl p ∧ out = (m.(mb_From), silent_vote priv id p.(bp_Block)).

Lemma block_checks_spec b : block_checks b = true ↔ 0 < b.(Header).(Height) ∧ b.(Hash) ≠ "" ∧ CalculateHash b = inl b.(Hash).
Proof.
  unfold block_checks. rewrite andb_true_iff, negb_true_iff, orb_false_iff, Z.leb_gt, empty_str_false.
  destruct (CalculateHash b) as [h|e]; [rewrite bool_decide_eq_true|]; naive_solver.
Qed.

Lemma process_mail_answers mail n : let '(n', out) := process_mail decode priv mail n in
  n'.(sn_NodeID) = n.(sn_NodeID) ∧ n'.(sn_PublicKey) = n.(sn_PublicKey) ∧ Forall2 (answered n.(sn_NodeID)) (filter asks mail) out.
Proof.
  revert n. induction mail as [|m mail IH]; intros n; cbn [process_mail]; [by split_and!|].
  assert (∀ n1, n1.(sn_NodeID) = n.(sn_NodeID) → n1.(sn_PublicKey) = n.(sn_PublicKey) → ¬ asks m →
    let '(n', out) := process_mail decode priv mail n1 in n'.(sn_NodeID) = n.(sn_NodeID) ∧ n'.(sn_PublicKey) = n.(sn_PublicKey) ∧
      Forall2 (answered n.(sn_NodeID)) (filter asks (m :: mail)) out) as Hskip.
  { intros n1 H1 H2 Hno. rewrite filter_cons_False by done. specialize (IH n1). rewrite H1, H2 in IH. done. }
  destruct (bool_decide_reflect (mb_Type m = "consensus_proposal")) as [Hty|Hty]; cbn [negb]; [|apply Hskip; [done..|by intros (_ & ? & _)]].
  destruct (decode (mb_Payload m)) as [p|e] eqn:Hd; [|apply Hskip; [done..|intros (_ & _ & H); by rewrite Hd in H]].
  destruct (block_checks (bp_Block p)) eqn:Hb; cbn [negb].
  2:{ apply Hskip; [done..|intros (_ & _ & H)]. rewrite Hd in H. apply block_checks_spec in H. congruence. }
  destruct (empty_str (mb_From m)) eqn:He.
  - specialize (Hskip (note_vote (bp_Block p) n) eq_refl eq_refl). destruct (process_mail _ _ mail _) as [n' out].
    apply Hskip. intros [H _]. by apply empty_str_true in He.
  - specialize (IH (note_vote (bp_Block p) n)). destruct (process_mail _ _ mail _) as [n' out]. cbn in IH. destruct IH as (I1 & I2 & I3).
    split; [done|]. split; [done|]. rewrite filter_cons_True.
    2:{ split; [by apply empty_str_false|]. split; [done|]. rewrite Hd. by apply block_checks_spec. }
    constructor; [|done]. by exists p.
Qed.

(** The mail of every relay, in order, with its relay. *)
Definition mail_of (fetch : string → list mailboxEnvelope) (urls : list string) : list (string * mailboxEnvelope) :=
  url ← urls; pair url <$> fetch url.

Lemma poll_answers fetch urls n : let '(n', out) := pollMailboxAll decode priv fetch urls n in
  n'.(sn_NodeID) = n.(sn_NodeID) ∧
  Forall2 (λ '(url, m) '(to_url, post), to_url = url ∧ answered n.(sn_NodeID) m post) (filter (asks ∘ snd) (mail_of fetch urls)) out.
Proof.
  revert n. induction urls as [|url urls IH]; intros n; cbn [pollMailboxAll mail_of mbind list_bind]; [by split|].
  pose proof (process_mail_answers (fetch url) n) as H. destruct (process_mail _ _ _ n) as [n1 votes]. destruct H as (H1 & _ & H2).
  specialize (IH n1). destruct (pollMailboxAll _ _ _ urls n1) as [n' out]. rewrite H1 in IH. destruct IH as [I1 I2]. split; [done|].
  rewrite filter_app. apply Forall2_app; [|exact I2].
  assert (filter (asks ∘ snd) (pair url <$> fetch url) = pair url <$> filter asks (fetch url)) as ->.
  { clear. induction (fetch url) as [|m l IHl]; [done|]. rewrite fmap_cons. destruct (decide (asks m)) as [Ha|Ha].
    - rewrite !filter_cons_True by exact Ha. by rewrite IHl.
    - rewrite !filter_cons_False by exact Ha. by rewrite IHl. }
  apply Forall2_fmap. eapply Forall2_impl; [exact H2|]. by intros m post.
Qed.

(** Whoever knows the node's key counts what it signs. *)
Lemma silent_vote_verified id b nd : Node.PeerPublicKey nd id = Some (ed_Public priv) → verifyPeerVote (silent_vote priv id b) b nd = true.
Proof.
  intros Hk. unfold verifyPeerVote. cbn [v_Vote v_BlockHash v_Height v_Signature v_VoterID silent_vote].
  rewrite bool_decide_eq_true_2, (Z.eqb_refl (Height (Header b))), Hk by done. cbn [negb orb Z.eqb Pos.eqb]. change ("0x" +:+ hexEncode ?s) with (hex0x s).
  assert (∀ s, empty_str (hex0x s) = false) as -> by done. rewrite TrimPrefix_hex0x, hexDecode_hexEncode. unfold slen.
  rewrite ed_public_len, ed_sign_len. cbn -[Z.of_nat]. change (negb (Z.of_nat 32 =? 32)) with false. cbv iota. rewrite ed_verify_sign. done.
Qed.

Lemma silent_vote_signed id b : signed_approval (ed_Public priv) (silent_vote priv id b).
Proof.
  eexists. cbn [v_Signature v_BlockHash silent_vote]. unfold decodeSig. change ("0x" +:+ hexEncode ?s) with (hex0x s).
  rewrite TrimPrefix_hex0x, hexDecode_hexEncode. split; [done|]. apply ed_verify_sign.
Qed.
End approvals.

(* ------------------------------------------------------------------ *)
(** * Facts: the way back *)

Lemma sfilter_safe f s : sforall f (sfilter f s) = true ∧ (String.length (sfilter f s) ≤ String.length s)%nat.
Proof. induction s as [|c s [IH1 IH2]]; [by split|]. cbn. destruct (f c) eqn:Hc; cbn; [rewrite Hc, IH1|rewrite IH1]; split; lia || done. Qed.
Lemma take_bytes_le n s : (String.length (take_bytes n s) ≤ n)%nat.
Proof. revert s. induction n as [|n IH]; intros [|c s]; cbn; try lia. specialize (IH s). lia. Qed.

(** A name the registry can spell is one it keeps. *)
Lemma sane_name id : sanitize id = id → truncate id 64 = id.
Proof.
  intros Hid. destruct (sfilter_safe safe_char (truncate id 64)) as [Hs Hl]. fold (sanitize id) in Hs, Hl. rewrite Hid in Hs, Hl.
  assert (TrimSpace id = id) as Ht by (apply TrimSpace_id; eapply sforall_impl; [|exact Hs]; by intros [[] [] [] [] [] [] [] []]).
  rewrite truncate_short; [done|]. rewrite Ht. unfold slen. pose proof (take_bytes_le 64 (TrimSpace id)). unfold truncate in Hl. lia.
Qed.

(** A message as the client that pulls it reads it. *)
Definition pulled (m : mailboxMessage) : mailboxEnvelope := mkMail m.(ms_ID) m.(ms_Type) m.(ms_From) (default "null" m.(ms_Payload)) m.(ms_CreatedAt).

Lemma newest_last max l x : 0 < max → ∃ l', newest max (l ++ [x])%list = (l' ++ [x])%list ∧ l' ⊆ l.
Proof.
  intros Hm. unfold newest. destruct (Z.ltb_spec max (Z.of_nat (length (l ++ [x])))); [|by exists l].
  exists (drop (length (l ++ [x]) - Z.to_nat max) l). split.
  - apply drop_app_le. rewrite length_app in *. cbn in *. lia.
  - intros y Hy. rewrite <- (take_drop (length (l ++ [x]) - Z.to_nat max) l). apply elem_of_app. by right.
Qed.

Lemma take_mail_app `{E : Ed25519} decode want b n l l' answered out :
  take_mail decode want b n (l ++ l')%list answered out = let '(a, o) := take_mail decode want b n l answered out in take_mail decode want b n l' a o.
Proof.
  revert answered out. induction l as [|m l IH]; intros answered out; [done|]. cbn. destruct (_ || _ || _); [apply IH|].
  destruct (decode _) as [v|e]; [|apply IH]. destruct (negb _); apply IH.
Qed.

(** Only those who wrote have answered. *)
Lemma take_mail_answered `{E : Ed25519} decode want b n l answered out x : x ∉ answered → (∀ m, m ∈ l → m.(mb_From) ≠ x) →
  x ∉ (take_mail decode want b n l answered out).1.
Proof.
  revert answered out. induction l as [|m l IH]; intros answered out Hx Hl; [done|]. assert (∀ m, m ∈ l → mb_From m ≠ x) as Hl' by (intros y Hy; apply Hl; by right).
  cbn. destruct (_ || _ || _); [by apply IH|]. destruct (decode _) as [v|e]; [|by apply IH]. destruct (negb _); [by apply IH|]. apply IH; [|done].
  rewrite not_elem_of_cons. split; [|done]. intros ->. by apply (Hl m); [left|].
Qed.
