(* ===== verification/SilentTheorems.v ===== *)
(** The main theorems about the node an operator runs at home: its uptime is
    proved, what it signs, and what becomes of its approvals; with a node and a
    relay of its own to witness them. *)
From stdpp Require Import base strings list gmap pretty.
From Stdlib Require Import Ascii.
From S2P Require Import Prelude GoStd Sha256 Json JsonParse JsonRound Types TxModel Block.
From S2P Require Import Messages GoText Registry RewardKeeper RegistryFacts RegistryFrame.
From S2P Require Import RegistryPayFacts Slashing RpcRound Examples RegistryExamples.
From S2P Require Import SilentNode.

#[local] Open Scope string_scope.
#[local] Open Scope Z_scope.

(* ------------------------------------------------------------------ *)
(** * The main theorems *)

(** (C26) A node at home proves its uptime. With a name the registry can
    spell, whatever happens to the node between two beats (restarts, mail) and
    at its relays (as long as its entry is left alone), as long as its clock
    moves forward and that of the relay does not go back: the relay holds the
    node's entry under its key, credited with the time between its beats,
    two minutes at most for each; and the next beat is accepted again, reported
    as such, and credited. *)
Theorem silent_node_proves `{E : Ed25519} {EC : Ed25519Correct E} priv id url raw t r n w up :
  let urls := parseURLList raw in
  sanitize id = id → id ≠ "" → url ∈ urls → proving priv id url urls t r n w up →
  (∃ p, entry_at id url w = Some p ∧ p.(pe_PublicKey) = hexEncode (ed_Public priv) ∧ p.(pe_VerifiedUptimeMS) = up ∧
     p.(pe_LastHeartbeatAt) = r ∧ 0 ≤ up ≤ r) ∧
  (∀ req m n1, identity priv id n1 → timely url urls req m n1 → t < m.(mo_now) → r ≤ UnixMilli (req url).(rq_now) →
     let '(n2, w2) := heartbeatAll (registries req) priv m urls n1 w in
     url ∈ n2.(sn_LastRelayOK) ∧ ∃ p, entry_at id url w2 = Some p ∧
       p.(pe_VerifiedUptimeMS) = up + Z.min (UnixMilli (req url).(rq_now) - r) 120000).
Proof.
  intros urls Hid Hne Hin Hp. assert (NoDup urls) as Hnd by apply distinct_urls_spec.
  destruct (proving_entry priv id url urls Hid Hne Hnd Hin t r n w up Hp) as (Ht & Hr & Hup & p & Hpe & Hpd). split.
  { exists p. by destruct Hpd as [? _ ? ?]. }
  intros req m n1 Hn1 Hti Htm Hrm. assert (∃ s, w !! url = Some s) as [s Hw] by (unfold entry_at in Hpe; destruct (w !! url) as [s|]; [by exists s|done]).
  pose proof (beat_all priv id url urls Hid Hne Hnd Hin req m n1 w s Hn1 Hti Hw) as H.
  destruct (proving_entry priv id url urls Hid Hne Hnd Hin _ _ _ _ _ (pv_beat priv id url urls req m t r n1 w up (pv_restart priv id url urls t r n n1 w up Hp Hn1) Hn1 Hti Htm Hrm)) as (_ & _ & _ & p' & Hp' & [_ _ _ Hu]).
  destruct (heartbeatAll _ _ _ _ _ _) as [n2 w2]. split; [|by exists p'].
  destruct Hpd as [Hk (c & Hno & Hc) _ _]. apply H. intros q Hq. rewrite Hpe in Hq. injection Hq as <-. split; [done|]. right. by exists t, c.
Qed.

Definition home_url : string := "https://relay.example".
Definition home_urls : list string := Eval vm_compute in parseURLList " https://relay.example/ ; ".
Definition home_key : nodeKey := Eval vm_compute in fresh_key "" "" (key_of "home") "home" "2026-01-01T00:00:00Z".
Definition home_id : string := Eval vm_compute in home_key.(k_NodeID).
Definition home : silentNode := Eval vm_compute in boot home_key "pc" "me" home_urls false.
Definition seen_by (ms : Z) (url : string) : Request := post_at ms.
Definition moment_at (ms : Z) : Moment := mkMoment (λ ep, if HasPrefix ep home_url then Some (7, "tip", "root") else None) ms (λ _, "2026-01-01T00:00:00Z") "" "".
Definition relay0 : gmap string server := {[home_url := start]}.
Definition home1 : silentNode * gmap string server := Eval vm_compute in heartbeatAll (registries (seen_by day1)) "home" (moment_at day1) home_urls home relay0.
(** A minute later, after a restart. *)
Definition home2 : silentNode * gmap string server :=
  Eval vm_compute in heartbeatAll (registries (seen_by (day1 + 60000))) "home" (moment_at (day1 + 60000)) home_urls home home1.2.

Lemma home_timely ms : ms = day1 ∨ ms = day1 + 60000 → timely home_url home_urls (seen_by ms) (moment_at ms) home.
Proof. intros [->| ->]; (split; [reflexivity|split; [discriminate|reflexivity]|split; reflexivity|vm_compute; reflexivity|vm_compute; reflexivity]). Qed.

Lemma home_proving : proving "home" home_id home_url home_urls (day1 + 60000) (day1 + 60000) home2.1 home2.2 60000.
Proof.
  assert (home1 = heartbeatAll (registries (seen_by day1)) "home" (moment_at day1) home_urls home relay0) as E1 by (vm_compute; reflexivity).
  assert (home2 = heartbeatAll (registries (seen_by (day1 + 60000))) "home" (moment_at (day1 + 60000)) home_urls home home1.2) as E2 by (vm_compute; reflexivity).
  assert (identity "home" home_id home) as Hn by (split; vm_compute; reflexivity).
  pose proof (pv_first "home" home_id home_url home_urls (seen_by day1) (moment_at day1) home relay0 start Hn (home_timely _ (or_introl eq_refl)) eq_refl eq_refl) as H1.
  assert (∀ ms, UnixMilli (rq_now (seen_by ms home_url)) = ms) as Hms by (intros ms; apply Z.div_mul; discriminate).
  rewrite <- E1, Hms in H1. pose proof (pv_restart _ _ _ _ _ _ _ home _ _ H1 Hn) as H1'.
  pose proof (pv_beat "home" home_id home_url home_urls (seen_by (day1 + 60000)) (moment_at (day1 + 60000)) _ _ _ _ _ H1' Hn
    (home_timely _ (or_intror eq_refl)) ltac:(reflexivity) ltac:(rewrite Hms; discriminate)) as H2.
  rewrite <- E2, Hms in H2. assert (0 + Z.min (day1 + 60000 - day1) 120000 = 60000) as Hup by reflexivity. rewrite Hup in H2. exact H2.
Qed.

Lemma silent_node_proves_witness : ∃ p, entry_at home_id home_url home2.2 = Some p ∧ p.(pe_VerifiedUptimeMS) = 60000.
Proof.
  destruct (silent_node_proves "home" home_id home_url " https://relay.example/ ; " (day1 + 60000) (day1 + 60000) home2.1 home2.2 60000
    ltac:(vm_compute; reflexivity) ltac:(discriminate) ltac:(apply list_elem_of_singleton; reflexivity) home_proving) as [(p & Hp & _ & Hu & _) _].
  exact (ex_intro _ p (conj Hp Hu)).
Defined.

(** (C27) What a node at home signs. For mail of any content from its relays
    it posts, in order, exactly one approval for each message that names a
    sender and proposes a block that has a height and the hash of its contents,
    to that sender and at the relay it came from, and nothing else; whoever
    knows the node's key counts such an approval for that block. Nothing else
    is asked of a proposal, not who made it nor what the node has signed
    before: its approvals of any two blocks of one height and different hashes
    convict it of equivocation. *)
Theorem silent_approvals `{E : Ed25519} {EC : Ed25519Correct E} decode priv fetch urls n :
  let id := n.(sn_NodeID) in
  let '(n', out) := pollMailboxAll decode priv fetch urls n in
  n'.(sn_NodeID) = id ∧
  Forall2 (λ '(url, m) '(to_url, post), to_url = url ∧ answered decode priv id m post) (filter (asks decode ∘ snd) (mail_of fetch urls)) out ∧
  (∀ b nd, Node.PeerPublicKey nd id = Some (ed_Public priv) → verifyPeerVote (silent_vote priv id b) b nd = true) ∧
  (∀ b1 b2 at_, id ≠ "" → b1.(Header).(Height) = b2.(Header).(Height) → b1.(Hash) ≠ b2.(Hash) →
     EquivocationEvidence.Verify (mkEvidence id b1.(Header).(Height) 0 (silent_vote priv id b1) (silent_vote priv id b2) at_) (ed_Public priv) = inl tt).
Proof.
  intros id. pose proof (poll_answers decode priv fetch urls n) as H. destruct (pollMailboxAll decode priv fetch urls n) as [n' out].
  destruct H as (H1 & H2). split; [done|]. split; [exact H2|]. split; [intros b nd; apply silent_vote_verified|].
  intros b1 b2 at_ Hid Hh Hne. apply evidence_Verify_ok. split; [done|]. split; [|split].
  - intros v [->| ->]; (split; [done|]; split; [by cbn|]; split; [done|]); apply silent_vote_signed.
  - cbn. congruence.
  - unfold slen. by rewrite ed_public_len.
Qed.

(** Two proposals of one height from whoever reaches the mailbox: the node
    signs both, and what it posts back convicts it. *)
Definition two_faced : list mailboxEnvelope :=
  [mkMail "1" "consensus_proposal" "mallory" "first" 0; mkMail "2" "consensus_proposal" "mallory" "second" 0].
Definition read_proposal (payload : string) : res BlockProposal :=
  inl (mkProposalMsg (if String.eqb payload "first" then proposal1 else proposal_empty) 1 0 0 0).
Definition home_vote (b : Block) : BlockVote := silent_vote "home" home_id b.

Definition home_mail (url : string) : list mailboxEnvelope := if String.eqb url home_url then two_faced else [].

Lemma silent_approvals_witness : let '(_, out) := pollMailboxAll read_proposal "home" home_mail [home_url] home in
  out = [(home_url, ("mallory", home_vote proposal1)); (home_url, ("mallory", home_vote proposal_empty))] ∧
  verifyPeerVote (home_vote proposal1) proposal1 (Node.set_Peers {[home_id := key_of "home"]} (node_of "v1" chain1)) = true ∧
  EquivocationEvidence.Verify (mkEvidence home_id 1 0 (home_vote proposal1) (home_vote proposal_empty) clock) (key_of "home") = inl tt.
Proof.
  pose proof (silent_approvals read_proposal "home" home_mail [home_url] home) as H. cbv zeta in H.
  destruct (pollMailboxAll read_proposal "home" home_mail [home_url] home) as [n' out] eqn:Hrun. destruct H as (_ & _ & Hcount & Hbad).
  split; [|split].
  - assert (out = (pollMailboxAll read_proposal "home" home_mail [home_url] home).2) as -> by (rewrite Hrun; reflexivity). vm_compute. reflexivity.
  - apply (Hcount proposal1). vm_compute. reflexivity.
  - apply (Hbad proposal1 proposal_empty clock); [discriminate|reflexivity|vm_compute; discriminate].
Defined.

(** The way of an approval back to the producer. The node posts it
    without the registry's secret, so a registry that has one refuses it and
    the producer never counts it; at a registry open to everybody the
    producer's next pull has it, and the producer counts it unless mail under
    the node's name came before it. *)
Theorem silent_vote_mailed `{E : Ed25519} {EC : Ed25519Correct E} cfg r r' s priv id to b encode decode want nd :
  r.(rq_Secret) = "" → sanitize id = id → id ≠ "" → sanitize to ≠ "" → to ≠ "" →
  let v := silent_vote priv id b in
  let '(s1, out) := post_mail cfg r (inl (vote_body encode to id v)) s in
  (cfg.(secret) ≠ "" → s1 = s ∧ out = inr (Err "unauthorized")) ∧
  (cfg.(secret) = "" → cfg.(insecureDev) = true → 0 < cfg.(maxMailbox) → (∀ m, m ∈ default [] (s.(reg).(Mailbox) !! sanitize to) → m.(ms_From) ≠ id) →
   decode (encode v) = inl v → id ∈ want → Node.PeerPublicKey nd id = Some (ed_Public priv) →
   ∃ s2 mail, pull_mail r' to s1 = (s2, inl mail) ∧ v ∈ (take_mail decode want b nd (map pulled mail) [] []).2).
Proof.
  intros Hr Hid Hne Hto Hto' v. pose proof (post_spec cfg r (inl (vote_body encode to id v)) s) as Hpost. cbv zeta in Hpost.
  destruct (post_mail cfg r _ s) as [s1 out] eqn:Hrun. cbn [fst snd] in Hpost. unfold post_mail, need_secret, fail_if, mbind, SM_bind in Hrun.
  assert (authorized cfg r = if empty_str cfg.(secret) then cfg.(insecureDev) else false) as Ha by (unfold authorized; by rewrite Hr). rewrite Ha in Hrun.
  split; [intros Hs; rewrite (proj2 (empty_str_false _) Hs) in Hrun; by injection Hrun as <- <-|].
  intros Hs Hopen Hmax Hbox Hdec Hwant Hkey. rewrite Hs, Hopen in Hrun.
  assert (mail_target (vote_body encode to id v) = sanitize to) as Ht.
  { unfold mail_target, vote_body, defaultString. cbn. by rewrite (proj2 (empty_str_false _) Hto'). }
  destruct out as [a|e]; [|exfalso; revert Hrun; cbn -[mail_target]; rewrite Ht, (proj2 (empty_str_false _) Hto); cbn; by destruct (rq_saved r)].
  clear Hrun. destruct Hpost as (b0 & [= <-] & Hbox1). rewrite Ht in Hbox1. set (msg := the_mail r _) in Hbox1.
  assert (msg.(ms_From) = id ∧ msg.(ms_Type) = "consensus_vote" ∧ msg.(ms_Payload) = Some (encode v)) as (Hf & Hty & Hpay).
  { unfold msg, the_mail, vote_body, defaultString. cbn -[truncate]. rewrite (proj2 (empty_str_false _) Hne). split; [by apply sane_name|done]. }
  clearbody msg.
  destruct (newest_last cfg.(maxMailbox) (default [] (s.(reg).(Mailbox) !! sanitize to)) msg Hmax) as (l & Hl & Hsub). rewrite Hl in Hbox1.
  pose proof (pull_spec r' to s1) as Hpull. cbv zeta in Hpull. destruct (pull_mail r' to s1) as [s2 [mail|e]] eqn:Hp; cbn [fst snd] in Hpull.
  - destruct Hpull as (_ & -> & _). rewrite Hbox1, lookup_insert_eq. exists s2, (l ++ [msg])%list. split; [done|]. cbn [default].
    rewrite map_app, take_mail_app. pose proof (take_mail_answered decode want b nd (map pulled l) [] [] id) as Hno.
    destruct (take_mail decode want b nd (map pulled l) [] []) as [an o]. cbn in Hno |- *. rewrite Hty, Hf, Hpay. cbn.
    rewrite (bool_decide_eq_true_2 (id ∈ want)) by done. rewrite (bool_decide_eq_false_2 (id ∈ an)); cbn.
    { rewrite Hdec. assert (verifyPeerVote v b nd = true) as -> by (by apply silent_vote_verified). cbn. apply elem_of_app. right. by apply list_elem_of_singleton. }
    apply Hno; [apply not_elem_of_nil|]. intros m (m0 & -> & Hm0)%list_elem_of_fmap. apply Hbox, Hsub. exact Hm0.
  - exfalso. revert Hp. unfold pull_mail, fail_if, mbind, SM_bind. rewrite (proj2 (empty_str_false _) Hto). cbn. by destruct (bool_decide _), (rq_saved r').
Qed.

Definition open_cfg : config := mkConfig "" true 3.
Definition producer1 : Node.Node := Node.set_Peers {[home_id := key_of "home"]} (node_of "v1" chain1).
Definition no_secret : Request := post_at day1.
Definition mailed : server * (string * Z + error) :=
  post_mail open_cfg no_secret (inl (vote_body v_Signature "v1" home_id (silent_vote "home" home_id block1))) start.

Lemma silent_vote_mailed_witness :
  (post_mail cfg0 no_secret (inl (vote_body v_Signature "v1" home_id (silent_vote "home" home_id block1))) start).2 = inr (Err "unauthorized") ∧
  ∃ s2 mail, pull_mail no_secret "v1" mailed.1 = (s2, inl mail) ∧
    silent_vote "home" home_id block1 ∈ (take_mail (λ _, inl (silent_vote "home" home_id block1)) [home_id] block1 producer1 (map pulled mail) [] []).2.
Proof.
  pose proof (λ cfg, silent_vote_mailed cfg no_secret no_secret start "home" home_id "v1" block1 v_Signature (λ _, inl (silent_vote "home" home_id block1)) [home_id]
    producer1 eq_refl ltac:(vm_compute; reflexivity) ltac:(discriminate) ltac:(vm_compute; discriminate) ltac:(discriminate)) as H. cbv zeta in H. split.
  - specialize (H cfg0). destruct (post_mail cfg0 _ _ _) as [s1 out]. destruct H as [H _]. exact (proj2 (H ltac:(discriminate))).
  - specialize (H open_cfg). fold mailed in H. destruct mailed as [s1 out]. destruct H as [_ H]. cbn [fst].
    apply H; [reflexivity|reflexivity|reflexivity| |reflexivity|apply list_elem_of_singleton; reflexivity|vm_compute; reflexivity].
    intros m Hm. vm_compute in Hm. by apply elem_of_nil in Hm.
Defined.

(** A node whose name has a character that the registry drops is registered
    under the rest of it, and signs its heartbeats under the whole: none of
    them is ever accepted. *)
Example odd_name_never_proves :
  let n := boot (fresh_key "my node" "" (key_of "home") "home" "2026-01-01T00:00:00Z") "pc" "me" home_urls false in
  let '(n', w) := heartbeatAll (registries (seen_by day1)) "home" (moment_at day1) home_urls n relay0 in
  n'.(sn_LastRelayFailed) = [home_url] ∧ n'.(sn_LastRelayOK) = [] ∧
  (pe_ValidHeartbeats <$> entry_at "mynode" home_url w) = Some 0.
Proof. vm_compute. by repeat split. Qed.
