(* ===== verification/RelayTransport.v ===== *)
(** The outbound transport of a node without a listener
    (internal/network/relay_transport.go): it registers with relays, learns
    its peers from them, posts to peers and polls its mailboxes.

    What relays and peers answer, and the decoder of envelopes, are arguments;
    so is the order in which Go iterates over the map of merged peers. The
    request that is sent is part of the result. Handlers are named, not run. *)
From stdpp Require Import base strings list gmap sorting.
From S2P Require Import Prelude GoStd Json JsonParse JsonRound Types TxModel Base64 Block.
From S2P Require Import Network GoText Registry RewardKeeper RegistryFacts RegistryFrame.
From S2P Require Import SilentNode.

#[local] Open Scope string_scope.
#[local] Open Scope Z_scope.

Record relayPeer : Type := mkRelayPeer { rl_Name : string; rl_URL : string }.

Record registryResponse : Type := mkResponse { rs_Peers : list relayPeer; rs_ValidatorOrder : list string; rs_Total : Z }.

Record RelayTransport : Type := mkTransport {
  rt_RegistryURL : string;
  rt_RegistryURLs : list string;
  rt_SelfName : string;
  rt_SelfURL : string;
  rt_RegistrySecret : string;
  rt_Cloud : string;
  rt_agentHandler : bool;
  rt_topicHandlers : gset string;
  rt_started : bool;
  rt_peers : list relayPeer;
  rt_validatorOrder : list string
}.

#[global] Instance eta_transport : Eta RelayTransport := λ r,
  mkTransport r.(rt_RegistryURL) r.(rt_RegistryURLs) r.(rt_SelfName) r.(rt_SelfURL) r.(rt_RegistrySecret) r.(rt_Cloud) r.(rt_agentHandler)
    r.(rt_topicHandlers) r.(rt_started) r.(rt_peers) r.(rt_validatorOrder).

(** [normalizeRelayURLs]: one set of seen items for all values. *)
Definition normalizeRelayURLs (values : list string) : list string :=
  distinct_urls (mjoin (map (λ raw, FieldsFunc raw url_separator) values)) [].

(** [NewRelayTransport], [NewRelayTransportFromConfig] *)
Definition NewRelayTransport (relays : list string) : RelayTransport :=
  mkTransport (default "" (head relays)) (normalizeRelayURLs relays) "" "" "" "" false ∅ false [] [].
Definition NewRelayTransportFromConfig (registryURL : string) (registryURLs : list string) (selfName selfURL secret cloud : string) : RelayTransport :=
  mkTransport registryURL (normalizeRelayURLs (registryURL :: registryURLs)) selfName selfURL secret
    (if empty_str cloud then "go-node" else cloud) false ∅ false [] [].

(** [relayURLs] *)
Definition relayURLs (r : RelayTransport) : list string := normalizeRelayURLs (r.(rt_RegistryURL) :: r.(rt_RegistryURLs)).

(** [OnAgentMessage], [OnTopicMessage] *)
Definition OnAgentMessage (r : RelayTransport) : RelayTransport := r <| rt_agentHandler := true |>.
Definition OnTopicMessage (topic : string) (r : RelayTransport) : RelayTransport := r <| rt_topicHandlers := {[topic]} ∪ r.(rt_topicHandlers) |>.

(* ------------------------------------------------------------------ *)
(** * Sending *)

Section sending.
Context (decode : string → option Envelope) (post : string → string → option Z).

(** [postGossip]: where it posts, and what comes of it. *)
Definition gossip_url (peerURL payload : string) : string :=
  peerURL +:+ match decode payload with
              | Some env => if bool_decide (env.(MessageType) = "transaction") then "/gossip/tx-batch" else "/gossip/block"
              | None => "/gossip/block"
              end.
Definition postGossip (peerURL payload : string) : res unit :=
  match post (gossip_url peerURL payload) payload with
  | None => inr (Err "gossip failed")
  | Some code => if 400 <=? code then inr (Err "gossip refused") else inl tt
  end.

(** [SendToAgent]: the first peer of that name. *)
Fixpoint peer_url (agentID : string) (peers : list relayPeer) : string :=
  match peers with
  | [] => ""
  | p :: peers => if bool_decide (p.(rl_Name) = agentID) then p.(rl_URL) else peer_url agentID peers
  end.
Definition SendToAgent (agentID payload : string) (r : RelayTransport) : res unit :=
  let targetURL := peer_url agentID r.(rt_peers) in
  if empty_str targetURL then inr (Err "peer not found in registry") else postGossip targetURL payload.

(** [Broadcast]: the posts, and the last error. *)
Fixpoint broadcast_to (self payload : string) (peers : list relayPeer) (lastErr : res unit) : list string * res unit :=
  match peers with
  | [] => ([], lastErr)
  | p :: peers =>
      if bool_decide (p.(rl_Name) = self) then broadcast_to self payload peers lastErr
      else
        let lastErr := match postGossip p.(rl_URL) payload with inr e => inr e | inl _ => lastErr end in
        let '(urls, e) := broadcast_to self payload peers lastErr in (gossip_url p.(rl_URL) payload :: urls, e)
  end.
Definition Broadcast (payload : string) (r : RelayTransport) : list string * res unit :=
  broadcast_to r.(rt_SelfName) payload r.(rt_peers) (inl tt).

(* ------------------------------------------------------------------ *)
(** * Receiving *)

(** The handler that is called, the sender it is told and the payload. *)
Inductive Delivery : Type :=
  | ToTopic (topic from payload : string)
  | ToAgent (from payload : string).

(** [DeliverInbound] *)
Definition DeliverInbound (from payload : string) (r : RelayTransport) : option Delivery :=
  let direct := if r.(rt_agentHandler) then Some (ToAgent from payload) else None in
  match decode payload with
  | Some env =>
      if negb (empty_str env.(Topic)) && bool_decide (env.(Topic) ∈ r.(rt_topicHandlers)) then Some (ToTopic env.(Topic) env.(FromAgentID) payload) else direct
  | None => direct
  end.

(** A JSON value decoded into [[][]byte]: text is base64, and an array of
    small numbers is bytes too. *)
Definition byte_num (v : pjson) : option string :=
  match v with
  | PNull => Some (String (chr 0) "")
  | PNum raw => match ParseUint raw with (n, None) => if n <=? 255 then Some (String (chr n) "") else None | _ => None end
  | _ => None
  end.
Definition bytes_value (v : pjson) : option string :=
  match v with
  | PNull => Some ""
  | PStr s => b64_decode s
  | PArr l => String.concat "" <$> mapM byte_num l
  | _ => None
  end.
Definition byte_lists (v : pjson) : option (list string) :=
  match v with
  | PNull => Some []
  | PArr l => mapM bytes_value l
  | _ => None
  end.

(** [fetchMailFrom] on a relay's status and body. *)
Definition fetchMailFrom (answer : option (Z * string)) (r : RelayTransport) : list Delivery :=
  match answer with
  | Some (200, body) =>
      match parse_json body ≫= byte_lists with
      | Some messages => omap (λ msg, DeliverInbound "relay" msg r) messages
      | None => []
      end
  | _ => []
  end.

(** [fetchMail] *)
Definition fetchMail (answers : string → option (Z * string)) (r : RelayTransport) : list Delivery :=
  if empty_str r.(rt_SelfName) then [] else mjoin (map (λ url, fetchMailFrom (answers url) r) (relayURLs r)).

End sending.

(* ------------------------------------------------------------------ *)
(** * The registry *)

(** [registerSelf]: the relays it posts to, and the body as they read it. *)
Definition registerSelf (r : RelayTransport) : list (string * RegisterBody) :=
  if empty_str r.(rt_SelfName) then []
  else map (λ url, (url, mkRegisterBody r.(rt_SelfName) r.(rt_SelfURL) r.(rt_Cloud) "" "" "" "" [] "outbound_only" 0 "" 0 "" "")) (relayURLs r).

(** What a relay that answered adds to the merged peers and the order. *)
Definition merge_peers (ps : list relayPeer) (m : gmap string relayPeer) : gmap string relayPeer :=
  foldl (λ m p, if empty_str p.(rl_Name) || empty_str p.(rl_URL) then m else <[p.(rl_Name) := p]> m) m ps.
Definition merge_order (names : list string) (order : list string) : list string :=
  foldl (λ order name, if empty_str name || bool_decide (name ∈ order) then order else (order ++ [name])%list) order names.

Fixpoint merge_answers (fetch : string → option registryResponse) (urls : list string) (m : gmap string relayPeer) (order : list string)
  : gmap string relayPeer * list string :=
  match urls with
  | [] => (m, order)
  | url :: urls =>
      match fetch url with
      | None => merge_answers fetch urls m order
      | Some d => merge_answers fetch urls (merge_peers d.(rs_Peers) m) (merge_order d.(rs_ValidatorOrder) order)
      end
  end.

(** [refreshPeers]; [iter] orders the values of the map. *)
Definition refreshPeers (iter : list relayPeer → list relayPeer) (fetch : string → option registryResponse) (r : RelayTransport) : RelayTransport :=
  match relayURLs r with
  | [] => r
  | urls => let '(m, order) := merge_answers fetch urls ∅ [] in r <| rt_peers := iter (map_to_list m).*2 |> <| rt_validatorOrder := order |>
  end.

(** [Start], up to its background loops, and [Close]. *)
Definition Start (iter : list relayPeer → list relayPeer) (fetch : string → option registryResponse) (r : RelayTransport)
  : RelayTransport * list (string * RegisterBody) :=
  if r.(rt_started) then (r, []) else let r := r <| rt_started := true |> in (refreshPeers iter fetch r, registerSelf r).
Definition Close (r : RelayTransport) : RelayTransport := r <| rt_started := false |>.

(* ------------------------------------------------------------------ *)
(** * Facts *)

Lemma merge_peers_spec ps m k : match merge_peers ps m !! k with
  | Some q => m !! k = Some q ∨ (q ∈ ps ∧ q.(rl_Name) = k ∧ q.(rl_URL) ≠ "" ∧ k ≠ "")
  | None => m !! k = None ∧ ∀ q, q ∈ ps → q.(rl_Name) = k → q.(rl_URL) = "" ∨ k = ""
  end.
Proof.
  revert m. induction ps as [|p ps IH]; intros m; cbn.
  { destruct (m !! k); [by left|]. split; [done|]. by intros q Hq%elem_of_nil. }
  specialize (IH (if empty_str p.(rl_Name) || empty_str p.(rl_URL) then m else <[p.(rl_Name) := p]> m)). fold (merge_peers ps).
  change (foldl _ ?a ps) with (merge_peers ps a). destruct (merge_peers ps _ !! k) as [q|].
  - destruct IH as [IH|(H1 & H2 & H3)]; [|right; split; [by right|done]].
    destruct (empty_str (rl_Name p)) eqn:En, (empty_str (rl_URL p)) eqn:Eu; cbn in IH; try (by left).
    apply lookup_insert_Some in IH as [[<- <-]|[_ IH]]; [right|by left]. apply bool_decide_eq_false in En, Eu. split; [by left|done].
  - destruct IH as [H1 H2]. destruct (empty_str (rl_Name p)) eqn:En, (empty_str (rl_URL p)) eqn:Eu; cbn in H1.
    1-3: split; [done|]; intros q [->|Hq]%elem_of_cons Hk; [|by apply H2]; try (apply bool_decide_eq_true in En; right; congruence);
         apply bool_decide_eq_true in Eu; by left.
    apply lookup_insert_None in H1 as [H1 Hne]. split; [done|]. intros q [->|Hq]%elem_of_cons Hk; [done|by apply H2].
Qed.

Lemma merge_order_spec names order : NoDup order → NoDup (merge_order names order) ∧
  ∀ x, x ∈ merge_order names order ↔ x ∈ order ∨ (x ∈ names ∧ x ≠ "").
Proof.
  revert order. induction names as [|n names IH]; intros order Hnd; cbn.
  { split; [done|]. intros x. rewrite elem_of_nil. tauto. }
  change (foldl _ ?a names) with (merge_order names a).
  destruct (empty_str n) eqn:En; cbn [orb].
  { destruct (IH order Hnd) as [H1 H2]. split; [done|]. intros x. rewrite H2, elem_of_cons. apply bool_decide_eq_true in En. subst n. tauto. }
  apply bool_decide_eq_false in En. case_bool_decide as Hin.
  - destruct (IH order Hnd) as [H1 H2]. split; [done|]. intros x. rewrite H2, elem_of_cons. naive_solver.
  - assert (NoDup (order ++ [n])) as Hnd' by (apply NoDup_app; split; [done|]; split; [by intros y Hy ->%list_elem_of_singleton|apply NoDup_singleton]).
    destruct (IH _ Hnd') as [H1 H2]. split; [done|]. intros x. rewrite H2, elem_of_app, list_elem_of_singleton, elem_of_cons. naive_solver.
Qed.

(** What merging the answers of several relays gives. *)
Definition listed (fetch : string → option registryResponse) (urls : list string) (p : relayPeer) : Prop :=
  p.(rl_Name) ≠ "" ∧ p.(rl_URL) ≠ "" ∧ ∃ url d, url ∈ urls ∧ fetch url = Some d ∧ p ∈ d.(rs_Peers).
Definition ordered (fetch : string → option registryResponse) (urls : list string) (x : string) : Prop :=
  x ≠ "" ∧ ∃ url d, url ∈ urls ∧ fetch url = Some d ∧ x ∈ d.(rs_ValidatorOrder).

Lemma merge_answers_spec fetch urls m order : NoDup order →
  let '(m', order') := merge_answers fetch urls m order in
  NoDup order' ∧ (∀ x, x ∈ order' ↔ x ∈ order ∨ ordered fetch urls x) ∧
  (∀ k q, m' !! k = Some q → m !! k = Some q ∨ (q.(rl_Name) = k ∧ listed fetch urls q)) ∧
  (∀ p, listed fetch urls p → is_Some (m' !! p.(rl_Name))) ∧ (∀ k, is_Some (m !! k) → is_Some (m' !! k)).
Proof.
  revert m order. induction urls as [|url urls IH]; intros m order Hnd; cbn.
  { split; [done|]. split; [|split; [by left|split; [|done]]].
    - intros x. split; [by left|]. intros [?|(_ & u & d & Hu%elem_of_nil & _)]; done.
    - by intros p (_ & _ & u & d & Hu%elem_of_nil & _). }
  assert (∀ p, listed fetch (url :: urls) p ↔ (∃ d, fetch url = Some d ∧ p ∈ d.(rs_Peers) ∧ p.(rl_Name) ≠ "" ∧ p.(rl_URL) ≠ "") ∨ listed fetch urls p) as Hl.
  { intros p. unfold listed. setoid_rewrite elem_of_cons. naive_solver. }
  assert (∀ x, ordered fetch (url :: urls) x ↔ (∃ d, fetch url = Some d ∧ x ∈ d.(rs_ValidatorOrder) ∧ x ≠ "") ∨ ordered fetch urls x) as Ho.
  { intros x. unfold ordered. setoid_rewrite elem_of_cons. naive_solver. }
  destruct (fetch url) as [d|] eqn:Hf.
  - destruct (merge_order_spec d.(rs_ValidatorOrder) order Hnd) as [Hnd1 Hin1]. set (m1 := merge_peers d.(rs_Peers) m).
    specialize (IH m1 (merge_order d.(rs_ValidatorOrder) order) Hnd1). destruct (merge_answers fetch urls _ _) as [m' order'].
    destruct IH as (H1 & H2 & H3 & H4 & H5). split; [done|]. split; [|split; [|split]].
    + intros x. rewrite H2, Hin1, Ho. naive_solver.
    + intros k q Hq. apply H3 in Hq as [Hq|[Hk Hq]]; [|right; split; [done|]; apply Hl; by right].
      pose proof (merge_peers_spec d.(rs_Peers) m k) as Hm. fold m1 in Hm. rewrite Hq in Hm. destruct Hm as [Hm|(G1 & G2 & G3 & G4)]; [by left|].
      right. split; [done|]. apply Hl. left. exists d. by rewrite G2.
    + intros p Hp. apply Hl in Hp as [(d' & [= <-] & Hp & Hn & Hu)|Hp]; [|by apply H4]. apply H5.
      pose proof (merge_peers_spec d.(rs_Peers) m p.(rl_Name)) as Hm. fold m1 in Hm. destruct (m1 !! rl_Name p) as [q|]; [by exists q|].
      destruct Hm as [_ Hm]. by destruct (Hm p Hp eq_refl).
    + intros k [q Hk]. apply H5. pose proof (merge_peers_spec d.(rs_Peers) m k) as Hm. fold m1 in Hm. destruct (m1 !! k) as [q'|]; [by exists q'|].
      destruct Hm as [Hm _]. congruence.
  - specialize (IH m order Hnd). destruct (merge_answers fetch urls m order) as [m' order']. destruct IH as (H1 & H2 & H3 & H4 & H5).
    split; [done|]. split; [|split; [|split; [|done]]].
    + intros x. rewrite H2, Ho. naive_solver.
    + intros k q Hq. apply H3 in Hq as [?|[? ?]]; [by left|]. right. split; [done|]. apply Hl. by right.
    + intros p Hp. apply Hl in Hp as [(d' & ? & _)|Hp]; [congruence|by apply H4].
Qed.

(** The peers after a refresh: one for every name that some relay lists with
    an address, as one of the relays lists it; and the validators in the order
    in which the relays name them first. What was known before is forgotten,
    so a refresh that no relay answers leaves a node without peers. *)
Theorem refreshPeers_exact iter fetch r : (∀ l, iter l ≡ₚ l) → relayURLs r ≠ [] →
  let r' := refreshPeers iter fetch r in
  NoDup (rl_Name <$> r'.(rt_peers)) ∧ NoDup r'.(rt_validatorOrder) ∧
  (∀ p, p ∈ r'.(rt_peers) → listed fetch (relayURLs r) p) ∧
  (∀ p, listed fetch (relayURLs r) p → ∃ q, q ∈ r'.(rt_peers) ∧ q.(rl_Name) = p.(rl_Name)) ∧
  (∀ x, x ∈ r'.(rt_validatorOrder) ↔ ordered fetch (relayURLs r) x) ∧
  ((∀ url, url ∈ relayURLs r → fetch url = None) → r'.(rt_peers) = []).
Proof.
  intros Hiter Hne. cbv zeta. unfold refreshPeers. destruct (relayURLs r) as [|u us] eqn:Hu; [done|]. set (urls := u :: us).
  pose proof (merge_answers_spec fetch urls ∅ [] (NoDup_nil_2)) as H. destruct (merge_answers fetch urls ∅ []) as [m order] eqn:Hmo.
  destruct H as (H1 & H2 & H3 & H4 & _). cbn -[map_to_list].
  assert (∀ p, p ∈ iter (map_to_list m).*2 ↔ m !! p.(rl_Name) = Some p) as Hin.
  { intros p. rewrite Hiter, list_elem_of_fmap. split.
    - intros ([k q] & -> & Hkq%elem_of_map_to_list). cbn in *. destruct (H3 _ _ Hkq) as [?|[<- _]]; [by rewrite lookup_empty in *|done].
    - intros Hp. exists (p.(rl_Name), p). split; [done|]. by apply elem_of_map_to_list. }
  assert (∀ p, p ∈ iter (map_to_list m).*2 → listed fetch urls p) as Hlisted.
  { intros p Hp. apply Hin in Hp. destruct (H3 _ _ Hp) as [?|[_ ?]]; [by rewrite lookup_empty in *|done]. }
  split; [|split; [done|split; [exact Hlisted|split; [|split]]]].
  - assert ((rl_Name <$> iter (map_to_list m).*2) ≡ₚ (map_to_list m).*1) as ->; [|apply NoDup_fst_map_to_list].
    rewrite Hiter. rewrite <- list_fmap_compose. rewrite (list_fmap_ext (rl_Name ∘ snd) fst); [done|]. intros i [k q] Hi. cbn.
    apply list_elem_of_lookup_2, elem_of_map_to_list in Hi. destruct (H3 _ _ Hi) as [?|[? _]]; [by rewrite lookup_empty in *|done].
  - intros p Hp. destruct (H4 p Hp) as [q Hq]. exists q. destruct (H3 _ _ Hq) as [?|[Hn _]]; [by rewrite lookup_empty in *|]. split; [|done]. apply Hin. by rewrite Hn.
  - intros x. rewrite H2, elem_of_nil. tauto.
  - intros Hno. destruct (iter (map_to_list m).*2) as [|p l]; [done|]. destruct (Hlisted p) as (_ & _ & url & d & Hurl & Hd & _); [by left|].
    by rewrite Hno in Hd.
Qed.

(** A broadcast is posted once to every peer but the sender, in the order of
    the list, whatever comes of the posts before; it reports an error exactly
    when one of them failed. *)
Theorem Broadcast_exact decode post payload r :
  let '(urls, e) := Broadcast decode post payload r in
  let others := filter (λ p, p.(rl_Name) ≠ r.(rt_SelfName)) r.(rt_peers) in
  urls = (λ p, gossip_url decode p.(rl_URL) payload) <$> others ∧
  (e = inl tt ↔ Forall (λ p, postGossip decode post p.(rl_URL) payload = inl tt) others).
Proof.
  unfold Broadcast. generalize r.(rt_peers). intros peers.
  assert (∀ last, let '(urls, e) := broadcast_to decode post r.(rt_SelfName) payload peers last in
    let others := filter (λ p, p.(rl_Name) ≠ r.(rt_SelfName)) peers in
    urls = (λ p, gossip_url decode p.(rl_URL) payload) <$> others ∧
    (e = inl tt ↔ last = inl tt ∧ Forall (λ p, postGossip decode post p.(rl_URL) payload = inl tt) others)) as H.
  { induction peers as [|p peers IH]; intros last; [split; [done|]; cbn; split; [by split|by intros [? _]]|].
    cbn [broadcast_to]. cbv zeta. rewrite filter_cons. case_bool_decide as Hp.
    - rewrite decide_False by (by intros Hn). apply IH.
    - rewrite decide_True by done. specialize (IH (match postGossip decode post p.(rl_URL) payload with inr e => inr e | inl _ => last end)).
      destruct (broadcast_to _ _ _ _ peers _) as [urls e]. destruct IH as [-> IH]. split; [done|]. rewrite IH, Forall_cons.
      destruct (postGossip decode post (rl_URL p) payload) as [[]|err]; naive_solver. }
  specialize (H (inl tt)). destruct (broadcast_to _ _ _ _ peers _) as [urls e]. destruct H as [-> H]. split; [done|]. rewrite H. tauto.
Qed.

(* ------------------------------------------------------------------ *)
(** * Mail *)

(** What the registry answers to a poll of the mailbox, with the JSON value of
    each message's payload. *)
Definition message_json (payload : mailboxMessage → json) (m : mailboxMessage) : json :=
  JObj [("id", JStr m.(ms_ID)); ("type", JStr m.(ms_Type)); ("from", JStr m.(ms_From)); ("payload", payload m); ("created_at", JNum m.(ms_CreatedAt))].
Definition mail_json (payload : mailboxMessage → json) (box : list mailboxMessage) : json :=
  match box with [] => JNull | _ => JArr (map (message_json payload) box) end.

(** A defect: the transport takes its mail for byte strings, the registry
    hands out objects. Nothing that is in the mailbox is ever delivered, and
    the poll has emptied it. *)
Theorem relay_mail_lost decode payload q s s' who box r : pull_mail q who s = (s', inl box) → box ≠ [] →
  Forall (λ m, clean (message_json payload m) = true ∧ (depth (message_json payload m) < maxNestingDepth)%nat) box →
  fetchMailFrom decode (Some (200, marshal (mail_json payload box))) r = [] ∧ s'.(reg).(Mailbox) !! sanitize who = None.
Proof.
  intros Hpull Hne Hbox. split.
  - assert (clean (mail_json payload box) = true ∧ (depth (mail_json payload box) ≤ maxNestingDepth)%nat) as [Hc Hd].
    { destruct box as [|m l]; [done|]. set (box := m :: l) in *. change (mail_json payload box) with (JArr (map (message_json payload) box)). split.
      - cbn [clean]. apply forallb_forall. intros j Hj. apply list_elem_of_In in Hj. apply list_elem_of_fmap in Hj as (x & -> & Hx). by apply (proj1 (Forall_forall _ _) Hbox).
      - cbn [depth]. assert (∀ ms, Forall (λ m, clean (message_json payload m) = true ∧ (depth (message_json payload m) < maxNestingDepth)%nat) ms →
          (S (foldr (λ x n, Nat.max (depth x) n) 0 (map (message_json payload) ms)) ≤ maxNestingDepth)%nat) as Hgo; [|by apply Hgo].
        clear. induction 1 as [|x ms [_ Hx] _ IH]; cbn [map foldr]; [by apply Nat.leb_le|]. lia. }
    unfold fetchMailFrom. rewrite parse_marshal by done. destruct box as [|m l]; [done|]. cbn [mail_json map]. cbn [parsed map]. done.
  - pose proof (pull_spec q who s) as Hs. cbv zeta in Hs. rewrite Hpull in Hs. cbn in Hs. destruct Hs as (_ & _ & ->). apply lookup_delete_eq.
Qed.

Example mail_lost_here :
  let m := mkMessage "1" "consensus_vote" "node1" (Some "{}") 1 in
  let r := OnAgentMessage (NewRelayTransportFromConfig "https://relay.example" [] "node2" "" "" "") in
  fetchMail (λ _, None) (λ _, Some (200, marshal (mail_json (λ _, JObj []) [m]))) r = [] ∧
  fetchMail (λ _, None) (λ _, Some (200, marshal (JArr [JStr "aGk="]))) r = [ToAgent "relay" "hi"].
Proof. vm_compute. by split. Qed.
